(* ===== verification/_CoqProject ===== *)
-Q . S2P
Prelude.v
Netip.v
NetipText.v
Aggregate.v
Domain.v
Reconcile.v
Nets.v
Input.v
Tunnels.v
Installed.v
Engine.v
Simulate.v
Destinations.v
Tailscale.v
Yielded.v
Provider.v
DnsCache.v
FakeProvider.v
Netmon.v
Killswitch.v
Pfconf.v
Update.v
Text.v
PfAnchor.v
PfFacts.v
Config.v
ConfigFacts.v
LinuxProvider.v
MacProvider.v
MacFacts.v
Updater.v
UpdaterFacts.v
Addressing.v
TunnelManager.v
TunnelSession.v
DnsLearn.v
DnsLearnFacts.v
Ovpn.v
OvpnFacts.v
Splitdns.v
Daemon.v
Wgconf.v
WgFacts.v
TunnelFacts.v
Executor.v
FakeKernel.v
Guardrails.v
Watchdog.v
LiveRepair.v
Applier.v
Store.v
Panic.v
Recovery.v
ApplyParts.v
Protocol.v
LinuxFacts.v
ProtocolFacts.v
ProtocolProps.v
Service.v
KillswitchApi.v
ServiceReads.v
Reconciler.v
ApiMutate.v
ApiFacts.v
ApiPolicy.v
