(* ===== verification/Prelude.v ===== *)
(** * RiftRoute: a verification development

    RiftRoute (src/) is a daemon that decides, per destination, whether traffic
    goes through a VPN or around it, and keeps the kernel's routing table that
    way without ever cutting the host off. Profiles and tunnels say what is
    wanted; the routing engine turns them into a desired set of routes and
    rules; the Apply Protocol makes the kernel match it, one change at a time,
    each journaled, guarded by a watchdog and undone when it cuts the
    connection or is not confirmed.

    ** Parts and files

    - Go values the code is built on: Netip (net/netip addresses and prefixes
      as integers at their width), NetipText (parsing and printing them),
      Domain (internal/domain: records and constants), and this file (notation,
      tactics, hints, stable sorts, error folds).
    - The routing engine (internal/routing): Aggregate (aggregate.go), Nets and
      Input (network arithmetic and the input of a build), Tunnels (PlanTunnels:
      the routes of live and blocking tunnels), Installed (VerifyRoutes: what of
      the owned set the kernel still has), Engine (BuildDesired), Reconcile
      (keys, plans, inverses), Simulate (simulate.go, conflict.go), Destinations
      (what profiles hold).
    - The kernel seam (internal/provider): Provider is the RouteProvider
      interface as a class with the laws its clients rely on ([ProviderLaws]);
      FakeProvider is the in-memory provider, which satisfies them; FakeKernel
      shows that it refines the one-route-per-destination kernel the plan
      theorems use. The real ones: LinuxProvider and LinuxFacts
      (provider/linux: reading what ip prints, the commands that change it),
      MacProvider and MacFacts (provider/macos and tablecache.go: the routing
      table and its cache, the resolvers, the physical gateway), PfAnchor and
      PfFacts (pf_rules.go: policy rules as packet-filter rules, written and
      read back). What a command answers is an argument.
    - Safety (internal/safety): Executor (run a plan whole or not at all),
      Guardrails (what a change must satisfy), Watchdog, LiveRepair (fights
      over a route end), Panic, Recovery (the inverse replayed after a crash),
      ApplyParts (options, decisions, diffs, timing, snapshots) and Protocol
      (the transaction state machine), with ProtocolFacts (its invariant over
      every interleaving) and ProtocolProps (its theorems).
    - Store (internal/store): the database as tables: settings, preferences,
      profiles, lists, audit, snapshots, the ownership map, the journal.
    - The core (internal/core): Yielded (what profiles give up to a tunnel and
      get back), Service (the desired set of a full and of a tunnel apply, read
      from the provider and the store), ServiceReads (routes, drift, explain),
      over DnsCache (internal/dns) and Tailscale (internal/tailscale).
    - What drives it: Netmon (internal/netmon: the network as events) and
      Reconciler (internal/reconcile: auto-apply and tunnel applies over the
      protocol, the debounced loop).
    - Tunnels (internal/tunnel): TunnelManager (definitions, connecting,
      stopping, deleting, what the engine is given), TunnelSession (the events
      of a session, restarts, resolving servers again), Addressing (the check
      of the addresses a session brings), Applier (the loop that applies tunnel
      changes), TunnelFacts (their invariant over every run); Ovpn and
      OvpnFacts (reading an OpenVPN profile and writing what openvpn is
      handed), Wgconf and WgFacts (the same for WireGuard).
    - Configuration (internal/config, internal/lists): Text (Go's string
      helpers), Config (the file, its checks, its import and export, remote
      lists), ConfigFacts.
    - Names: DnsLearn and DnsLearnFacts (internal/dnsproxy: what the wildcard
      learner keeps of DNS answers), Splitdns (internal/splitdns: resolver
      files, resolvectl, the manager that merges the user's selection with the
      learner's), Daemon (cmd/riftrouted/main.go: the closures that keep the
      learner, the resolver files and, with internal/perapp, the per-app marks
      in step).
    - The API (internal/api/mutate.go): ApiMutate has every handler that changes
      something, on a server record over any provider, kill switch and split-DNS
      manager; ApiFacts and ApiPolicy are its theorems.
    - The kill switch: Killswitch (internal/killswitch: what it guards and
      allows, its rules, its status cache, the manager as an interface),
      KillswitchApi (internal/api/killswitch.go: the saved choice, the re-sync,
      giving way to the VPN), Pfconf (internal/pfconf).
    - Updates: Update (internal/update: versions, signed manifests, the
      decision), Updater (internal/updater: the swap and the manifests it
      keeps, the boot guard, the state file, on a disk whose operations may fail and a process that may die at
      each), UpdaterFacts (its theorems).

    State is a record passed explicitly, one definition per operation; fallible
    code returns a sum or an option; a Go runtime panic is [None]. A provider is
    a type [S] with the class's operations; theorems of clients hold for every
    provider that satisfies [ProviderLaws].

    ** What the theorems show

    - Plans: a reconcile's plan takes effect operation by operation, leads to the
      desired set, never has a rule live before its routes, and its inverse leads
      back (Reconcile, FakeKernel, Executor); replaying the inverse is right
      after a crash at any point (Recovery).
    - Desired sets: no tunnel plan routes the router, a server, a resolver or an
      anchor into a tunnel; tunnels win over profiles; every wanted destination
      is routed or reported; keys are unique (Tunnels, Engine, Destinations).
    - Prefix arithmetic: aggregation and subtraction are exact, minimal and
      terminate (Aggregate, Nets).
    - The protocol: at most one transaction on probation, always journaled; the
      first decision settles it, and what could not be undone stays journaled; a
      rollback restores a kernel nobody else changed, when its inverse is taken
      and holds no tunnel link; refused changes touch nothing; what an apply
      records on its commit is run on the store at once (class [CommitRecord] of
      Store, its instance in Service); a panic disarms every guard; a quiesced daemon changes
      nothing (Guardrails, Watchdog, Protocol, ProtocolProps).
    - The core and the reconciler: what yields to a tunnel comes back when it
      goes; a tunnel apply never applies a staged profile change, and is refused,
      finds everything in place, is taken back, or is committed at once with its
      record run, nothing left on probation; a desired set that cannot be built changes nothing
      (Yielded, Service, Reconciler).
    - The kill switch's allow list holds only what it should; a switch that was
      off stays off over a restart unless its rules are found in force; it gives way to the VPN exactly when it keeps cutting it
      (Killswitch, KillswitchApi); pf.conf hooks come out as they went in
      (Pfconf).
    - Tunnels: every running session belongs to a tunnel that is there; a tunnel
      set to block never leaks while it is wanted and not disconnected (by the
      user or by the manager, to resolve its servers again), down to the routes
      the engine plans; what was up resumes after a restart (TunnelFacts); a session's
      addresses cannot take over the host's networks (Addressing).
    - Files from outside: what openvpn is handed reads as allowlisted directives
      only, with the arguments they may have, for a profile without control
      characters (OvpnFacts); an exported configuration imports to the same
      policy but for what the file has no place for (ConfigFacts); rules written to the packet
      filter are read back as they were (PfFacts).
    - The API: whatever is requested in whatever order, the stored policy stays
      one that fails to build only for a reason of the host or for a gateway of
      another family than its destination (ApiPolicy, by ConfigFacts); a refused save
      changes nothing and an accepted one changes exactly one profile; restoring
      a snapshot undoes a change; every change is on probation first; a managed
      route cannot be taken by a hand edit's deletion (ApiFacts).
    - Names: what is learned stays within its caps and is fresh (DnsLearnFacts);
      resolver files are exactly what is selected, the user's winning (Splitdns);
      from a start without files of an earlier run, none ever points at a learner
      that does not serve (Daemon).
    - Updates: only a manifest a trusted key signed is acted on, and unsigned
      advice can only hold it back (Update); a swap always leaves a daemon and a
      way back, an interrupted one is undone, and an update that never comes up
      is rolled back however often that is interrupted (UpdaterFacts).
    - Behaviours the code should not have, proved of it: a panic that cannot read
      its records forgets them, an exit-node copy overwrites the record of its
      original, an apply can run a plan that a rollback made stale (Panic, Store,
      ProtocolProps); a kill switch refused because it cuts the VPN comes back
      (KillswitchApi); a requested rollback that dies at the wrong moment is
      forgotten (UpdaterFacts); an explain misses a removed route
      (ServiceReads); a doubled v turns the minimum version off, a host spelled with a dotted
      capital I passes for one that is allowed (Update); a profile whose gateway
      is of another family than its rule is accepted and fails every build, an
      export loses the port of a split-DNS route (ConfigFacts); new
      server addresses lift a block (TunnelFacts); a second apply drops a per-app
      rule on Linux (LinuxFacts); a cleared split-DNS selection comes back
      (Splitdns, ApiFacts); an app that is no longer listed stays marked and a
      quote in its name breaks the ruleset (Daemon); a configuration file's
      clashing profile is dropped with success, and its lists lose what was
      fetched (ApiFacts).

    ** Bounds and fuel

    Addresses are integers of 32 or 128 bits; masks and shifts keep the width.
    Loops that are not structural take fuel that is shown to suffice: merging
    prefixes takes at most one pass more than there are prefixes, splitting a
    prefix at most as many halvings as it has host bits, parsing recurses on the
    text, counters are summed modulo 2^64. A disk operation's outcome is read
    from a list of fates of any length; when it is used up everything works.
    Sorts are stable insertion sorts, which any correct sort agrees with
    where the code relies on the result.

    ** Not modelled

    The order in which Go ranges over a map is an argument where it can be seen.
    Commands (ip, route, netstat, pfctl, nft, resolvectl, openvpn), sockets, TUN
    devices, processes, signals and timers are the environment: what they answer
    is an argument, and a step relation takes any of it. JSON, YAML and TOML
    decoding, the DNS codec, url.Parse, signatures and HTTP are parameters or
    left out; handlers start from the decoded request. The database file itself
    (SQLite, migrations) is replaced by its tables, and its writes succeed;
    running pfctl and nft for the kill switch, and the temporary files of an
    atomic write, are below the model. Goroutines are steps that interleave;
    the loggers, progress reports and event streams they feed are left out.

    Not modelled because they only carry data between the modelled parts and the
    outside: the API client, the command line, the desktop app, the tray, the
    release server and its tools, telemetry and bug reports; the updater's
    checking, downloading and staging (network and archives around the modelled
    decision and swap); the API's read handlers; flows, process and host facts;
    redaction, which is regular expressions over free text; the prober and the
    clock, whose results are arguments. *)

From Stdlib Require Export ZArith Lia.
From stdpp Require Export base option sorting pretty strings gmap list.

#[export] Set Default Goal Selector "1".
#[export] Set Warnings "-clear-no-such-hyp".
Open Scope Z_scope.
#[global] Arguments String.append : simpl nomatch.

(** ** Notation

    Go's [==] on strings, and string concatenation, in a scope of their own. *)
Declare Scope go_scope.
Delimit Scope go_scope with go.
Notation "x =s? y" := (String.eqb x y) (at level 70, no associativity) : go_scope.
Open Scope go_scope.

(** ** Tactics

    [bool_hyps] turns boolean facts about [Z], [string] and connectives into
    propositions; [solve_bool] does the same to a goal; [inv_some] strips
    [Some]. *)
Ltac bool_step :=
  match goal with
  | H : andb _ _ = true |- _ => apply andb_prop in H; destruct H
  | H : orb _ _ = true |- _ => apply orb_prop in H; destruct H
  | H : orb _ _ = false |- _ => apply orb_false_elim in H; destruct H
  | H : negb _ = true |- _ => apply negb_true_iff in H
  | H : negb _ = false |- _ => apply negb_false_iff in H
  | H : Z.ltb _ _ = true |- _ => apply Z.ltb_lt in H
  | H : Z.ltb _ _ = false |- _ => apply Z.ltb_ge in H
  | H : Z.leb _ _ = true |- _ => apply Z.leb_le in H
  | H : Z.leb _ _ = false |- _ => apply Z.leb_gt in H
  | H : Z.eqb _ _ = true |- _ => apply Z.eqb_eq in H
  | H : Z.eqb _ _ = false |- _ => apply Z.eqb_neq in H
  | H : String.eqb _ _ = true |- _ => apply String.eqb_eq in H
  | H : String.eqb _ _ = false |- _ => apply String.eqb_neq in H
  | H : bool_decide _ = true |- _ => apply bool_decide_eq_true_1 in H
  | H : bool_decide _ = false |- _ => apply bool_decide_eq_false_1 in H
  end.
Ltac bool_hyps := repeat bool_step.

Ltac case_if :=
  match goal with
  | |- context [if ?b then _ else _] => destruct b eqn:?
  end.

(** ** Lists *)

Section lists.
Context {A : Type}.

Lemma existsb_in (f : A -> bool) l :
  existsb f l = true <-> exists x, x ∈ l /\ f x = true.
Proof.
  rewrite List.existsb_exists. setoid_rewrite list_elem_of_In. done.
Qed.

Lemma existsb_not_in (f : A -> bool) l :
  existsb f l = false <-> forall x, x ∈ l -> f x = false.
Proof.
  split.
  - intros H x Hx. destruct (f x) eqn:E; [|done].
    assert (existsb f l = true) by (apply existsb_in; eauto). congruence.
  - intros H. destruct (existsb f l) eqn:E; [|done].
    apply existsb_in in E as (x & Hx & Hf). rewrite H in Hf; done.
Qed.

(** Go's [slices.DeleteFunc] on a clone, and every "keep those that" loop. *)
Definition keep_if (f : A -> bool) (l : list A) : list A := List.filter f l.

Lemma elem_of_keep_if f l x : x ∈ keep_if f l <-> x ∈ l /\ f x = true.
Proof. unfold keep_if. rewrite !list_elem_of_In. apply List.filter_In. Qed.

Lemma keep_if_all f l : (forall x, x ∈ l -> f x = true) -> keep_if f l = l.
Proof.
  induction l as [|y l IH]; intros H; [done|]. simpl.
  rewrite (H y) by set_solver. f_equal. apply IH. set_solver.
Qed.

Lemma keep_if_none f l : (forall x, x ∈ l -> f x = false) -> keep_if f l = [].
Proof.
  induction l as [|y l IH]; intros H; [done|]. simpl.
  rewrite (H y) by set_solver. apply IH. set_solver.
Qed.

Lemma keep_if_sublist f l : keep_if f l `sublist_of` l.
Proof.
  induction l as [|y l IH]; simpl; [constructor|].
  destruct (f y); by constructor.
Qed.

Lemma sublist_map {B} (f : A -> B) l1 l2 : l1 `sublist_of` l2 -> map f l1 `sublist_of` map f l2.
Proof. induction 1; simpl; by constructor. Qed.

Lemma NoDup_map_inj {B} (f : A -> B) l x y : NoDup (map f l) -> x ∈ l -> y ∈ l -> f x = f y -> x = y.
Proof.
  induction l as [|z l IH]; simpl; intros Hn Hx Hy E; [by apply elem_of_nil in Hx|].
  apply NoDup_cons in Hn as [Hz Hn]. rewrite list_elem_of_fmap in Hz.
  apply elem_of_cons in Hx, Hy. destruct Hx as [->|Hx], Hy as [->|Hy]; [done|naive_solver..|by apply IH].
Qed.
End lists.

(** ** Stable sorting

    [sort.SliceStable], by insertion: an element goes before the first one it
    is not greater than, so equal elements keep their order. [sort.Slice] is
    modelled by the same function; where the code relies on it the order is
    total on the elements sorted, so every correct sort gives the same list
    ([slice_stable_unique]). *)
Section stable_sort.
Context {A : Type} (less : A -> A -> bool).

Fixpoint insert_stable (x : A) (l : list A) : list A :=
  match l with
  | [] => [x]
  | y :: l' => if less y x then y :: insert_stable x l' else x :: y :: l'
  end.

Definition slice_stable (l : list A) : list A := foldr insert_stable [] l.

Lemma insert_stable_perm x l : insert_stable x l ≡ₚ x :: l.
Proof.
  induction l as [|y l IH]; simpl; [done|].
  destruct (less y x); [|done]. rewrite IH. apply Permutation_swap.
Qed.

Lemma slice_stable_perm l : slice_stable l ≡ₚ l.
Proof.
  induction l as [|x l IH]; simpl; [done|].
  by rewrite insert_stable_perm, IH.
Qed.

Lemma elem_of_slice_stable l x : x ∈ slice_stable l <-> x ∈ l.
Proof. by rewrite slice_stable_perm. Qed.
End stable_sort.

(** Sorting by a key commutes with taking the images. *)
Lemma slice_stable_map {A B} (less : B -> B -> bool) (f : A -> B) (l : list A) :
  map f (slice_stable (fun a b => less (f a) (f b)) l) = slice_stable less (map f l).
Proof.
  assert (forall x k, map f (insert_stable (fun a b => less (f a) (f b)) x k) = insert_stable less (f x) (map f k)) as Hi.
  { intros x k. induction k as [|y k IH]; simpl; [done|]. destruct (less (f y) (f x)); simpl; [by rewrite IH|done]. }
  induction l as [|x l IH]; simpl; [done|]. by rewrite Hi, IH.
Qed.

(** A strict weak order, as [less] functions passed to the sorts are. *)
Class StrictWeak {A} (less : A -> A -> bool) : Prop := {
  sw_asym x y : less x y = true -> less y x = false;
  sw_ntrans x y z : less y x = false -> less z y = false -> less z x = false;
}.

Section stable_sort_facts.
Context {A : Type} (less : A -> A -> bool) `{!StrictWeak less}.

Abbreviation ordered := (StronglySorted (fun x y => less y x = false)).

Lemma insert_stable_sorted x l : ordered l -> ordered (insert_stable less x l).
Proof.
  induction 1 as [|y l Hl IH Hy]; simpl.
  - repeat constructor.
  - destruct (less y x) eqn:E.
    + constructor; [done|]. rewrite insert_stable_perm. constructor; [|done].
      by apply sw_asym.
    + constructor; [by constructor|]. constructor; [done|].
      eapply Forall_impl; [exact Hy|]. intros z Hz. simpl in Hz.
      by eapply sw_ntrans.
Qed.

Lemma slice_stable_sorted l : ordered (slice_stable less l).
Proof.
  induction l as [|x l IH]; simpl; [constructor|].
  by apply insert_stable_sorted.
Qed.

(** A list already in order is left alone. *)
Lemma slice_stable_id l : ordered l -> slice_stable less l = l.
Proof.
  induction 1 as [|x l Hl IH Hx]; simpl; [done|]. rewrite IH.
  destruct l as [|y l]; simpl; [done|]. inversion Hx; subst.
  by match goal with H : less _ _ = false |- _ => rewrite H end.
Qed.

(** Sorting determines the list when distinct elements are ordered. *)
Lemma slice_stable_unique l1 l2 :
  (forall x y, x ∈ l1 -> y ∈ l1 -> less x y = false -> less y x = false -> x = y) ->
  l1 ≡ₚ l2 -> slice_stable less l1 = slice_stable less l2.
Proof.
  intros Htot Hp.
  eapply (StronglySorted_unique_strong (fun x y => less y x = false)).
  - intros x y Hx Hy H1 H2. apply Htot; [| |done|done].
    + by rewrite <- (slice_stable_perm less).
    + rewrite Hp, <- (slice_stable_perm less). done.
  - apply slice_stable_sorted.
  - apply slice_stable_sorted.
  - by rewrite !slice_stable_perm.
Qed.
End stable_sort_facts.

(** ** Three-way comparisons

    The orders the code sorts by are lexicographic comparisons of integers and
    strings; [OrdCmp] is closed under those constructions and gives
    [StrictWeak]. *)
Class OrdCmp {A} (cmp : A -> A -> comparison) : Prop := {
  oc_anti x y : cmp y x = CompOpp (cmp x y);
  oc_trans x y z : cmp x y = Lt -> cmp y z = Lt -> cmp x z = Lt;
  oc_eq x y z : cmp x y = Eq -> cmp x z = cmp y z;
}.

Definition lt_of (c : comparison) : bool := match c with Lt => true | _ => false end.
Definition lex (c1 c2 : comparison) : comparison := match c1 with Eq => c2 | _ => c1 end.

Section ord_cmp.
Context {A : Type} (cmp : A -> A -> comparison) `{!OrdCmp cmp}.

Lemma oc_refl x : cmp x x = Eq.
Proof. pose proof (oc_anti x x) as H. by destruct (cmp x x). Qed.

Lemma oc_eq_r x y z : cmp y z = Eq -> cmp x y = cmp x z.
Proof.
  intros H. rewrite (oc_anti y x), (oc_anti z x). f_equal. by apply oc_eq.
Qed.

#[export] Instance lt_of_sw : StrictWeak (fun x y => lt_of (cmp x y)).
Proof.
  split; intros x y.
  - rewrite (oc_anti x y). by destruct (cmp x y).
  - intros z H1 H2. destruct (cmp z x) eqn:E; try done. exfalso.
    destruct (cmp z y) eqn:E2; [| done |].
    + rewrite <- (oc_eq z y x) in H1 by done. by rewrite E in H1.
    + assert (cmp y z = Lt) as E3 by (rewrite (oc_anti z y), E2; done).
      by rewrite (oc_trans y z x) in H1.
Qed.

#[export] Instance map_ord_cmp {B} (f : B -> A) : OrdCmp (fun x y => cmp (f x) (f y)).
Proof.
  split; intros x y.
  - apply oc_anti.
  - intros z. apply oc_trans.
  - intros z. apply oc_eq.
Qed.
End ord_cmp.

#[export] Instance lex_ord_cmp {A} (c1 c2 : A -> A -> comparison) :
  OrdCmp c1 -> OrdCmp c2 -> OrdCmp (fun x y => lex (c1 x y) (c2 x y)).
Proof.
  intros H1 H2. split; intros x y; unfold lex.
  - rewrite (oc_anti (cmp := c1) x y), (oc_anti (cmp := c2) x y). by destruct (c1 x y).
  - intros z. destruct (c1 x y) eqn:E1; [| |done].
    + rewrite (oc_eq (cmp := c1) x y z) by done. destruct (c1 y z); try done. apply oc_trans.
    + destruct (c1 y z) eqn:E2; [| |done]; intros _ _.
      * by rewrite <- (oc_eq_r c1 x y z), E1.
      * by rewrite (oc_trans (cmp := c1) x y z).
  - intros z. destruct (c1 x y) eqn:E1; [|done..]. intros E2.
    rewrite (oc_eq (cmp := c1) x y z) by done. by rewrite (oc_eq (cmp := c2) x y z).
Qed.

#[export] Instance Z_ord_cmp : OrdCmp Z.compare.
Proof.
  split; intros x y.
  - apply Z.compare_antisym.
  - intros z. rewrite !Z.compare_lt_iff. lia.
  - intros z. rewrite Z.compare_eq_iff. by intros ->.
Qed.

Lemma string_compare_trans s1 s2 s3 :
  String.compare s1 s2 = Lt -> String.compare s2 s3 = Lt -> String.compare s1 s3 = Lt.
Proof.
  revert s2 s3. induction s1 as [|c1 s1 IH]; intros [|c2 s2] [|c3 s3]; simpl; try done.
  unfold Ascii.compare.
  destruct (N.compare_spec (Ascii.N_of_ascii c1) (Ascii.N_of_ascii c2)),
           (N.compare_spec (Ascii.N_of_ascii c2) (Ascii.N_of_ascii c3)),
           (N.compare_spec (Ascii.N_of_ascii c1) (Ascii.N_of_ascii c3));
    try done; try lia; eauto.
Qed.

Lemma string_compare_refl s : String.compare s s = Eq.
Proof.
  pose proof (String.compare_antisym s s) as H. by destruct (String.compare s s).
Qed.

#[export] Instance string_ord_cmp : OrdCmp String.compare.
Proof.
  split; intros x y.
  - apply String.compare_antisym.
  - intros z. apply string_compare_trans.
  - intros z H. by apply String.compare_eq_iff in H as ->.
Qed.

(** Go's [<] on strings (bytewise). *)
Definition str_less (a b : string) : bool := lt_of (String.compare a b).

Lemma str_less_total a b : str_less a b = false -> str_less b a = false -> a = b.
Proof.
  unfold str_less. rewrite (String.compare_antisym b a).
  destruct (String.compare a b) eqn:E; simpl; try done.
  intros. by apply String.compare_eq_iff.
Qed.

(** ** Errors

    Go's [(value, error)] results as a sum: [inl] is an early return with an
    error. [fold_err] is a loop whose body may return one. *)
Definition try {E A B} (x : E + A) (f : A -> E + B) : E + B :=
  match x with inl e => inl e | inr a => f a end.
Notation "'let?' x := e 'in' f" := (try e (fun x => f))
  (at level 200, x pattern, f at level 200, e at level 200, right associativity) : go_scope.

Fixpoint fold_err {E A B} (f : A -> B -> E + A) (l : list B) (a : A) : E + A :=
  match l with
  | [] => inr a
  | b :: l' => let? a' := f a b in fold_err f l' a'
  end.

Lemma fold_err_ind {E A B} (P : A -> Prop) (f : A -> B -> E + A) l :
  (forall a b a', b ∈ l -> P a -> f a b = inr a' -> P a') ->
  forall a a', P a -> fold_err f l a = inr a' -> P a'.
Proof.
  induction l as [|b l IH]; intros Hf a a' Ha; simpl; [by intros [= <-]|].
  unfold try. destruct (f a b) as [e|a1] eqn:E1; [done|]. apply IH.
  - intros x y z Hy. apply Hf. by right.
  - eapply Hf; [by left|done|done].
Qed.

(** What one step establishes, under an invariant, and later steps keep holds at
    the end. *)
Lemma fold_err_at {E A B} (I P : A -> Prop) (f : A -> B -> E + A) l b :
  b ∈ l -> (forall a y a', y ∈ l -> I a -> f a y = inr a' -> I a' /\ (P a -> P a')) ->
  (forall a a', I a -> f a b = inr a' -> P a') ->
  forall a a', I a -> fold_err f l a = inr a' -> P a'.
Proof.
  induction l as [|y l IH]; intros Hb HI HP a a' Ha; [by apply elem_of_nil in Hb|].
  simpl. unfold try. destruct (f a y) as [e|a1] eqn:E1; [done|]. intros Hfold.
  destruct (HI a y a1) as [Ha1 _]; [by left|done|done|].
  assert (forall x z w, z ∈ l -> I x -> f x z = inr w -> I w /\ (P x -> P w)) as HI'
    by (intros x z w Hz; apply HI; by right).
  apply elem_of_cons in Hb as [->|Hb]; [|by eapply (IH Hb HI' HP a1 a' Ha1)].
  assert (I a' /\ P a') as [_ ?]; [|done]. revert Hfold. apply (fold_err_ind (fun x => I x /\ P x)).
  - intros x z w Hz [Hx Hpx] Hw. destruct (HI' x z w Hz Hx Hw). auto.
  - split; [done|]. exact (HP a a1 Ha E1).
Qed.

(** ** Hint databases

    [go] holds the facts that close the side conditions most proofs meet:
    that a kept or sorted list has only elements of the list it came from, and
    that the sorts sort. As a rewrite database it turns membership in the lists
    the code builds into membership in the lists it builds them from. *)
Create HintDb go.

Lemma keep_if_in {A} (f : A -> bool) l x : x ∈ keep_if f l -> x ∈ l.
Proof. rewrite elem_of_keep_if. tauto. Qed.

Lemma keep_if_true {A} (f : A -> bool) l x : x ∈ keep_if f l -> f x = true.
Proof. rewrite elem_of_keep_if. tauto. Qed.

Lemma NoDup_keep_if {A} (f : A -> bool) l : NoDup l -> NoDup (keep_if f l).
Proof. intros H. eapply sublist_NoDup; [exact H|]. apply keep_if_sublist. Qed.

#[export] Hint Resolve keep_if_sublist slice_stable_sorted slice_stable_perm NoDup_keep_if : go.
#[export] Hint Immediate keep_if_in keep_if_true : go.
#[export] Hint Rewrite @elem_of_keep_if @elem_of_slice_stable @elem_of_app @elem_of_cons @elem_of_nil : go.
