(* ===== verification/Netip.v ===== *)
(** * Addresses and prefixes: Go's [net/netip]

    The part of the standard library's [netip.Addr] and [netip.Prefix] that
    RiftRoute uses, as bit-level functions on integers kept at their width (32
    or 128 bits), and the geometry of prefixes every routing theorem rests on:
    two prefixes are nested or disjoint, and a prefix is the disjoint union of
    its halves. Text forms are in [NetipText]. *)

From S2P Require Import Prelude.

(** ** Addresses *)

(** [netip.Addr]: the zero (invalid) address, an IPv4 address, or an IPv6
    address with its zone ("" for none). *)
Inductive addr : Type :=
| AddrZero
| Addr4 (n : Z)
| Addr6 (n : Z) (zone : string).

#[export] Instance addr_eq_dec : EqDecision addr.
Proof. solve_decision. Defined.
#[export] Instance addr_countable : Countable addr.
Proof.
  refine (inj_countable'
    (fun a => match a with
              | AddrZero => inl tt
              | Addr4 n => inr (inl n)
              | Addr6 n z => inr (inr (n, z)) end)
    (fun s => match s with
              | inl _ => AddrZero
              | inr (inl n) => Addr4 n
              | inr (inr (n, z)) => Addr6 n z end) _).
  by intros [].
Defined.

Definition IsValid (a : addr) : bool :=
  match a with AddrZero => false | _ => true end.
Definition Is4 (a : addr) : bool :=
  match a with Addr4 _ => true | _ => false end.
Definition Is6 (a : addr) : bool :=
  match a with Addr6 _ _ => true | _ => false end.
Definition BitLen (a : addr) : Z :=
  match a with AddrZero => 0 | Addr4 _ => 32 | Addr6 _ _ => 128 end.
Definition addr_val (a : addr) : Z :=
  match a with AddrZero => 0 | Addr4 n => n | Addr6 n _ => n end.
Definition Zone (a : addr) : string :=
  match a with Addr6 _ z => z | _ => "" end.
Definition hasZone (a : addr) : bool := negb (Zone a =s? "").

Definition WithZone (a : addr) (z : string) : addr :=
  match a with Addr6 n _ => Addr6 n z | _ => a end.
Definition withoutZone (a : addr) : addr := WithZone a "".

(** IPv4-mapped IPv6 addresses (::ffff:0:0/96). *)
Definition Is4In6 (a : addr) : bool :=
  match a with Addr6 n _ => Z.shiftr n 32 =? 65535 | _ => false end.
Definition Unmap (a : addr) : addr :=
  match a with
  | Addr6 n _ => if Is4In6 a then Addr4 (Z.land n (Z.ones 32)) else a
  | _ => a
  end.

(** [Addr.Compare]: by width, then value, then (IPv6) zone. *)
Definition AddrCompare (a b : addr) : comparison :=
  match BitLen a ?= BitLen b with
  | Eq => match addr_val a ?= addr_val b with
          | Eq => if Is6 a then String.compare (Zone a) (Zone b) else Eq
          | c => c
          end
  | c => c
  end.
Definition AddrLess (a b : addr) : bool :=
  match AddrCompare a b with Lt => true | _ => false end.

(** Link-local unicast: 169.254.0.0/16, fe80::/10. *)
Definition IsLinkLocalUnicast (a : addr) : bool :=
  match Unmap a with
  | Addr4 n => Z.shiftr n 16 =? 43518
  | Addr6 n _ => Z.shiftr n 118 =? 1018
  | AddrZero => false
  end.

(** The addresses Go can represent. *)
Definition addr_ok (a : addr) : Prop := 0 <= addr_val a < 2 ^ BitLen a.

#[export] Instance addr_ok_dec a : Decision (addr_ok a).
Proof. unfold addr_ok. apply _. Defined.

(** ** Prefixes *)

(** [netip.Prefix]; [p_bits] is what [Bits] returns, -1 for an invalid one. *)
Record prefix : Type := mkPrefix { p_addr : addr; p_bits : Z }.

#[export] Instance prefix_eq_dec : EqDecision prefix.
Proof. solve_decision. Defined.
#[export] Instance prefix_countable : Countable prefix.
Proof.
  refine (inj_countable' (fun p => (p_addr p, p_bits p))
                         (fun '(a, b) => mkPrefix a b) _).
  by intros [].
Defined.

Definition PrefixZero : prefix := mkPrefix AddrZero (-1).
Definition pfx_IsValid (p : prefix) : bool := 0 <=? p_bits p.

(** [netip.PrefixFrom]: the zone is dropped, a length out of range gives an
    invalid prefix. *)
Definition PrefixFrom (a : addr) (bits : Z) : prefix :=
  mkPrefix (withoutZone a)
    (if IsValid a && (0 <=? bits) && (bits <=? BitLen a) then bits else -1).

(** A host prefix, [netip.PrefixFrom(a, a.BitLen())]. *)
Definition host_prefix (a : addr) : prefix := PrefixFrom a (BitLen a).

Definition set_val (a : addr) (n : Z) : addr :=
  match a with AddrZero => AddrZero | Addr4 _ => Addr4 n | Addr6 _ z => Addr6 n z end.

(** Clearing the low [k] bits. *)
Definition clear_low (k n : Z) : Z := Z.shiftl (Z.shiftr n k) k.

(** [Addr.Prefix] (the zero prefix stands for its error result too). *)
Definition AddrPrefix (a : addr) (b : Z) : prefix :=
  if negb (IsValid a) || (b <? 0) || (BitLen a <? b) then PrefixZero
  else PrefixFrom (set_val (withoutZone a) (clear_low (BitLen a - b) (addr_val a))) b.

Definition Masked (p : prefix) : prefix := AddrPrefix (p_addr p) (p_bits p).

(** [Prefix.Contains]: the bits above the host part agree. *)
Definition Contains (p : prefix) (a : addr) : bool :=
  if negb (pfx_IsValid p) || hasZone a then false
  else
    let f1 := BitLen (p_addr p) in
    let f2 := BitLen a in
    if (f1 =? 0) || (f2 =? 0) || negb (f1 =? f2) then false
    else Z.shiftr (Z.lxor (addr_val a) (addr_val (p_addr p))) (f1 - p_bits p) =? 0.

Definition IsSingleIP (p : prefix) : bool :=
  pfx_IsValid p && (p_bits p =? BitLen (p_addr p)).

Definition Overlaps (p o : prefix) : bool :=
  if negb (pfx_IsValid p) || negb (pfx_IsValid o) then false
  else if bool_decide (p = o) then true
  else if negb (Bool.eqb (Is4 (p_addr p)) (Is4 (p_addr o))) then false
  else
    let minBits := Z.min (p_bits p) (p_bits o) in
    if minBits =? 0 then true
    else
      bool_decide (p_addr (AddrPrefix (p_addr p) minBits) =
                   p_addr (AddrPrefix (p_addr o) minBits)).

(** The prefixes Go can represent: in range, without a zone. *)
Definition prefix_ok (p : prefix) : Prop :=
  addr_ok (p_addr p) /\ Zone (p_addr p) = "" /\
  (p_bits p = -1 \/ IsValid (p_addr p) = true /\ 0 <= p_bits p <= BitLen (p_addr p)).

#[export] Instance prefix_ok_dec p : Decision (prefix_ok p).
Proof. unfold prefix_ok. apply _. Defined.

Definition masked (p : prefix) : Prop := Masked p = p.

#[export] Instance masked_dec p : Decision (masked p).
Proof. unfold masked. apply _. Defined.

(** [q] holds all of [p]: the test the code writes [q.Bits() <= p.Bits() &&
    q.Contains(p.Addr())] everywhere. *)
Definition holds (q p : prefix) : bool :=
  (p_bits q <=? p_bits p) && Contains q (p_addr p).

(** The addresses a list of prefixes covers. *)
Definition covered (l : list prefix) (a : addr) : bool :=
  existsb (fun p => Contains p a) l.

(** ** Geometry *)

(** Host bits, and the number of the block a prefix names at its size. *)
Definition host_bits (p : prefix) : Z := BitLen (p_addr p) - p_bits p.

Lemma div_pow_coarsen a b k1 k2 :
  0 <= k1 <= k2 -> a / 2 ^ k1 = b / 2 ^ k1 -> a / 2 ^ k2 = b / 2 ^ k2.
Proof.
  intros Hk H. replace k2 with (k1 + (k2 - k1)) by lia.
  rewrite Z.pow_add_r, <- !Z.div_div by (try apply Z.pow_nonzero; lia).
  by rewrite H.
Qed.

Lemma shiftr_lxor_zero a b k :
  0 <= k -> (Z.shiftr (Z.lxor a b) k =? 0) = (a / 2 ^ k =? b / 2 ^ k).
Proof.
  intros Hk. rewrite Z.shiftr_lxor, !Z.shiftr_div_pow2 by done.
  apply eq_iff_eq_true. rewrite !Z.eqb_eq. split.
  - apply Z.lxor_eq.
  - intros ->. apply Z.lxor_nilpotent.
Qed.

Lemma clear_low_eq k n : 0 <= k -> clear_low k n = n / 2 ^ k * 2 ^ k.
Proof.
  intros. unfold clear_low. by rewrite Z.shiftl_mul_pow2, Z.shiftr_div_pow2.
Qed.

Lemma clear_low_bounds k n w : 0 <= k -> 0 <= n < 2 ^ w -> 0 <= clear_low k n < 2 ^ w.
Proof.
  intros Hk Hn. rewrite clear_low_eq by done.
  assert (0 < 2 ^ k) by lia.
  pose proof (Z.mul_div_le n (2 ^ k)). pose proof (Z.div_pos n (2 ^ k)). nia.
Qed.

Lemma clear_low_block k n : 0 <= k -> clear_low k n / 2 ^ k = n / 2 ^ k.
Proof. intros. rewrite clear_low_eq by done. apply Z.div_mul. lia. Qed.

Lemma clear_low_idem k n : 0 <= k -> clear_low k (clear_low k n) = clear_low k n.
Proof.
  intros. rewrite (clear_low_eq k (clear_low k n)), clear_low_block by done.
  by rewrite clear_low_eq.
Qed.

Lemma clear_low_same k a b :
  0 <= k -> clear_low k a = clear_low k b <-> a / 2 ^ k = b / 2 ^ k.
Proof.
  intros. rewrite !clear_low_eq by done. assert (0 < 2 ^ k) by lia. nia.
Qed.

(** What [Contains] says of a representable prefix. *)
Lemma Contains_spec p a :
  prefix_ok p ->
  Contains p a = true <->
  0 <= p_bits p /\ Zone a = "" /\ IsValid a = true /\ BitLen (p_addr p) = BitLen a /\
  addr_val a / 2 ^ host_bits p = addr_val (p_addr p) / 2 ^ host_bits p.
Proof.
  intros (Ha & Hz & Hb). unfold Contains, pfx_IsValid, host_bits, hasZone.
  destruct (Z.leb_spec 0 (p_bits p)) as [Hp|Hp]; simpl; [|split; [done|lia]].
  destruct Hb as [?|[Hv Hb]]; [lia|].
  destruct (String.eqb_spec (Zone a) ""); simpl; [|split; [done|tauto]].
  assert ((BitLen (p_addr p) =? 0) = false) as -> by (by destruct (p_addr p)). simpl.
  assert ((BitLen a =? 0) = negb (IsValid a)) as -> by (by destruct a).
  destruct (IsValid a) eqn:Ea; simpl; [|split; [done|naive_solver]].
  destruct (Z.eqb_spec (BitLen (p_addr p)) (BitLen a)) as [El|]; simpl;
    [|split; [done|tauto]].
  rewrite shiftr_lxor_zero by lia. rewrite Z.eqb_eq. tauto.
Qed.

Lemma Contains_family p a : Contains p a = true -> BitLen (p_addr p) = BitLen a.
Proof.
  unfold Contains. intros H. repeat case_match; try done. bool_hyps. done.
Qed.

Lemma Contains_valid p a : Contains p a = true -> pfx_IsValid p = true.
Proof. unfold Contains. destruct (pfx_IsValid p); done. Qed.

Lemma Contains_zone p a : Contains p a = true -> Zone a = "".
Proof.
  unfold Contains, hasZone. destruct (Zone a =s? "") eqn:E; [by bool_hyps|].
  simpl. rewrite orb_true_r. done.
Qed.

Lemma BitLen_Is4 a b : BitLen a = BitLen b -> Is4 a = Is4 b.
Proof. by destruct a, b. Qed.
Lemma BitLen_Is6 a b : BitLen a = BitLen b -> Is6 a = Is6 b.
Proof. by destruct a, b. Qed.

(** A valid prefix contains its own address. *)
Lemma Contains_self p :
  prefix_ok p -> pfx_IsValid p = true -> Contains p (p_addr p) = true.
Proof.
  intros Hok Hv. pose proof Hok as (? & ? & ?). unfold pfx_IsValid in Hv. bool_hyps.
  apply Contains_spec; [done|]. repeat split; [done|done|naive_solver lia].
Qed.

Lemma holds_spec q p :
  prefix_ok q -> prefix_ok p ->
  holds q p = true <->
  0 <= p_bits q <= p_bits p /\ BitLen (p_addr q) = BitLen (p_addr p) /\
  addr_val (p_addr p) / 2 ^ host_bits q = addr_val (p_addr q) / 2 ^ host_bits q.
Proof.
  intros Hq Hp. unfold holds. rewrite andb_true_iff, Z.leb_le, Contains_spec by done.
  pose proof Hp as (? & ? & Hb). split; [naive_solver|]. intros (? & ? & ?).
  destruct Hb as [?|[? ?]]; [lia|]. repeat split; first [lia|done].
Qed.

Lemma holds_valid q p : holds q p = true -> pfx_IsValid q = true /\ pfx_IsValid p = true.
Proof.
  unfold holds. intros H. bool_hyps.
  match goal with H : Contains _ _ = true |- _ => apply Contains_valid in H end.
  unfold pfx_IsValid in *. bool_hyps. split; apply Z.leb_le; lia.
Qed.

Lemma holds_Contains q p a :
  prefix_ok q -> prefix_ok p -> holds q p = true -> Contains p a = true ->
  Contains q a = true.
Proof.
  intros Hq Hp H Ha. apply holds_spec in H as (? & El & Hd); [|done..].
  apply Contains_spec in Ha as (? & ? & ? & Elp & Hap); [|done].
  apply Contains_spec; [done|]. repeat split; [lia|done|done|lia|].
  rewrite <- Hd. eapply div_pow_coarsen; [|done]. unfold host_bits.
  destruct Hp as (_ & _ & [?|[_ ?]]); lia.
Qed.

Lemma holds_refl p : prefix_ok p -> pfx_IsValid p = true -> holds p p = true.
Proof.
  intros. unfold holds. rewrite Z.leb_refl. by apply Contains_self.
Qed.

Lemma holds_trans p q r :
  prefix_ok p -> prefix_ok q -> prefix_ok r ->
  holds p q = true -> holds q r = true -> holds p r = true.
Proof.
  intros ??? H1 H2. unfold holds in *. bool_hyps. apply andb_true_intro.
  split; [apply Z.leb_le; lia|]. eapply holds_Contains; [| | |done]; try done.
  apply andb_true_intro. split; [by apply Z.leb_le|done].
Qed.

(** Two prefixes sharing an address are nested. *)
Lemma Contains_nested p q a :
  prefix_ok p -> prefix_ok q -> Contains p a = true -> Contains q a = true ->
  p_bits p <= p_bits q -> holds p q = true.
Proof.
  intros Hp Hq Ha Hb Hle.
  apply Contains_spec in Ha as (? & ? & ? & El1 & Hd1); [|done].
  apply Contains_spec in Hb as (? & ? & ? & El2 & Hd2); [|done].
  apply holds_spec; [done..|]. repeat split; [lia|lia|lia|].
  rewrite <- Hd1. symmetry. eapply div_pow_coarsen; [|exact Hd2].
  unfold host_bits. destruct Hq as (_ & _ & [?|[_ ?]]); lia.
Qed.

(** *** Masking *)

Lemma addr_ok_withoutZone a : addr_ok a -> addr_ok (withoutZone a).
Proof. by destruct a. Qed.

Lemma PrefixFrom_ok a b : addr_ok a -> prefix_ok (PrefixFrom a b).
Proof.
  intros Ha. unfold PrefixFrom, prefix_ok. simpl.
  split; [by apply addr_ok_withoutZone|]. split; [by destruct a|].
  destruct (IsValid a && (0 <=? b) && (b <=? BitLen a)) eqn:E; [|by left].
  right. bool_hyps. split; [by destruct a|]. destruct a; simpl in *; lia.
Qed.

Lemma host_prefix_ok a : addr_ok a -> prefix_ok (host_prefix a).
Proof. apply PrefixFrom_ok. Qed.

Lemma host_prefix_bits a :
  IsValid a = true -> p_bits (host_prefix a) = BitLen a.
Proof. by destruct a. Qed.

Lemma Masked_invalid p : pfx_IsValid p = false -> Masked p = PrefixZero.
Proof.
  unfold pfx_IsValid, Masked, AddrPrefix. intros H. bool_hyps.
  assert ((p_bits p <? 0) = true) as -> by (apply Z.ltb_lt; lia).
  by rewrite orb_true_r.
Qed.

Lemma Masked_valid p :
  prefix_ok p -> pfx_IsValid p = true ->
  Masked p = mkPrefix (set_val (p_addr p) (clear_low (host_bits p) (addr_val (p_addr p))))
                      (p_bits p).
Proof.
  intros (Ha & Hz & Hb) Hv. unfold pfx_IsValid in Hv. bool_hyps.
  destruct Hb as [?|[Hva Hb]]; [lia|]. unfold Masked, AddrPrefix.
  rewrite Hva. simpl.
  assert ((p_bits p <? 0) = false) as -> by (apply Z.ltb_ge; lia).
  assert ((BitLen (p_addr p) <? p_bits p) = false) as -> by (apply Z.ltb_ge; lia). simpl.
  unfold PrefixFrom, host_bits. f_equal.
  - destruct (p_addr p); simpl in *; try done; by subst.
  - rewrite (proj2 (Z.leb_le 0 (p_bits p))) by lia.
    destruct (p_addr p); simpl in *; try done;
      rewrite (proj2 (Z.leb_le _ _)) by lia; done.
Qed.

Lemma Masked_bits p : prefix_ok p -> p_bits (Masked p) = p_bits p.
Proof.
  intros Hok. destruct (pfx_IsValid p) eqn:E.
  - by rewrite Masked_valid.
  - rewrite Masked_invalid by done. unfold pfx_IsValid in E. bool_hyps.
    destruct Hok as (_ & _ & [?|[_ ?]]); simpl; lia.
Qed.

Lemma set_val_BitLen a n : BitLen (set_val a n) = BitLen a.
Proof. by destruct a. Qed.
Lemma set_val_val a n : IsValid a = true -> addr_val (set_val a n) = n.
Proof. by destruct a. Qed.
Lemma set_val_IsValid a n : IsValid (set_val a n) = IsValid a.
Proof. by destruct a. Qed.
Lemma set_val_Zone a n : Zone (set_val a n) = Zone a.
Proof. by destruct a. Qed.
Lemma set_val_set a m n : set_val (set_val a m) n = set_val a n.
Proof. by destruct a. Qed.
Lemma set_val_id a : set_val a (addr_val a) = a.
Proof. by destruct a. Qed.

Lemma valid_IsValid p :
  prefix_ok p -> pfx_IsValid p = true ->
  IsValid (p_addr p) = true /\ 0 <= p_bits p <= BitLen (p_addr p).
Proof.
  intros (_ & _ & [?|?]) Hv; unfold pfx_IsValid in Hv; bool_hyps; [lia|done].
Qed.

Lemma Masked_ok p : prefix_ok p -> prefix_ok (Masked p).
Proof.
  intros Hok. destruct (pfx_IsValid p) eqn:E.
  - rewrite Masked_valid by done. destruct (valid_IsValid p Hok E) as [Hv Hb].
    destruct Hok as (Ha & Hz & _). repeat split; simpl.
    + rewrite set_val_val by done. unfold host_bits.
      apply clear_low_bounds with (w := BitLen (p_addr p)); [lia|done].
    + rewrite set_val_val, set_val_BitLen by done. unfold host_bits.
      apply clear_low_bounds; [lia|done].
    + by rewrite set_val_Zone.
    + right. rewrite set_val_IsValid, set_val_BitLen. done.
  - rewrite Masked_invalid by done. by apply (bool_decide_unpack (prefix_ok PrefixZero)).
Qed.

Lemma Masked_valid_iff p : prefix_ok p -> pfx_IsValid (Masked p) = pfx_IsValid p.
Proof. intros. unfold pfx_IsValid. by rewrite Masked_bits. Qed.

Lemma Masked_host_bits p :
  prefix_ok p -> pfx_IsValid p = true -> host_bits (Masked p) = host_bits p.
Proof.
  intros. rewrite Masked_valid by done. unfold host_bits. simpl.
  by rewrite set_val_BitLen.
Qed.

Lemma Masked_BitLen p :
  prefix_ok p -> pfx_IsValid p = true -> BitLen (p_addr (Masked p)) = BitLen (p_addr p).
Proof. intros. rewrite Masked_valid by done. apply set_val_BitLen. Qed.

Lemma Masked_masked p : prefix_ok p -> masked (Masked p).
Proof.
  intros Hok. unfold masked. destruct (pfx_IsValid p) eqn:E.
  - destruct (valid_IsValid p Hok E) as [Hv Hb].
    rewrite (Masked_valid (Masked p)), Masked_host_bits by
      (try apply Masked_ok; try rewrite Masked_valid_iff; done).
    rewrite (Masked_valid p) by done. simpl. rewrite set_val_set. f_equal. f_equal.
    rewrite set_val_val by done. apply clear_low_idem. unfold host_bits. lia.
  - by rewrite (Masked_invalid p).
Qed.

Lemma Contains_Masked p a : prefix_ok p -> Contains (Masked p) a = Contains p a.
Proof.
  intros Hok. destruct (pfx_IsValid p) eqn:E.
  - destruct (valid_IsValid p Hok E) as [Hv Hb].
    apply eq_iff_eq_true. rewrite !Contains_spec by (try apply Masked_ok; done).
    rewrite Masked_host_bits, Masked_bits, Masked_BitLen by done.
    rewrite Masked_valid by done. simpl. rewrite set_val_val by done.
    rewrite clear_low_block by (unfold host_bits; lia). done.
  - rewrite Masked_invalid by done. unfold Contains. by rewrite E.
Qed.

(** A masked prefix is determined by its size and any block it holds. *)
Lemma masked_val p :
  prefix_ok p -> masked p -> pfx_IsValid p = true ->
  addr_val (p_addr p) = addr_val (p_addr p) / 2 ^ host_bits p * 2 ^ host_bits p.
Proof.
  intros Hok Hm Hv. destruct (valid_IsValid p Hok Hv) as [Hva Hb].
  rewrite <- clear_low_eq by (unfold host_bits; lia).
  unfold masked in Hm. rewrite Masked_valid in Hm by done.
  apply (f_equal (fun q => addr_val (p_addr q))) in Hm. simpl in Hm.
  by rewrite set_val_val in Hm.
Qed.

Lemma prefix_ext p q :
  prefix_ok p -> prefix_ok q -> pfx_IsValid p = true ->
  BitLen (p_addr p) = BitLen (p_addr q) -> p_bits p = p_bits q ->
  addr_val (p_addr p) = addr_val (p_addr q) -> p = q.
Proof.
  intros (_ & Hz1 & _) (_ & Hz2 & _) _ ???. destruct p as [[| |] ?], q as [[| |] ?];
    simpl in *; try done; try lia; congruence.
Qed.

Lemma holds_antisym p q :
  prefix_ok p -> prefix_ok q -> masked p -> masked q ->
  holds p q = true -> holds q p = true -> p = q.
Proof.
  intros Hp Hq Hmp Hmq H1 H2. destruct (holds_valid _ _ H1) as [Hvp Hvq].
  apply holds_spec in H1 as (? & El & Hd); [|done..].
  apply holds_spec in H2 as (? & _ & _); [|done..].
  assert (p_bits p = p_bits q) as Eb by lia.
  assert (host_bits p = host_bits q) as Eh by (unfold host_bits; lia).
  apply prefix_ext; [done..|].
  rewrite (masked_val p), (masked_val q) by done. rewrite <- Hd, Eh. done.
Qed.

(** *** Halves *)

(** The lower ([false]) or upper ([true]) half of a prefix. *)
Definition child (p : prefix) (b : bool) : prefix :=
  mkPrefix (set_val (p_addr p)
              (addr_val (p_addr p) + (if b then 2 ^ (host_bits p - 1) else 0)))
           (p_bits p + 1).

Lemma half_div x m k :
  1 <= k -> x / 2 ^ k = m <-> x / 2 ^ (k - 1) = 2 * m \/ x / 2 ^ (k - 1) = 2 * m + 1.
Proof.
  intros Hk. replace (2 ^ k) with (2 ^ (k - 1) * 2).
  - rewrite <- Z.div_div by lia. set (q := x / 2 ^ (k - 1)). clearbody q.
    pose proof (Z.div_mod q 2). pose proof (Z.mod_pos_bound q 2). lia.
  - rewrite Z.mul_comm, <- Z.pow_succ_r by lia. f_equal. lia.
Qed.

(** A valid masked prefix with room to split. *)
Definition splits (p : prefix) : Prop :=
  prefix_ok p /\ masked p /\ 0 <= p_bits p < BitLen (p_addr p).

#[export] Instance splits_dec p : Decision (splits p).
Proof. unfold splits. apply _. Defined.

Lemma splits_valid p : splits p -> pfx_IsValid p = true.
Proof. intros (_ & _ & ?). unfold pfx_IsValid. apply Z.leb_le. lia. Qed.

Lemma child_block p b :
  splits p ->
  host_bits (child p b) = host_bits p - 1 /\
  addr_val (p_addr (child p b)) / 2 ^ (host_bits p - 1) =
    2 * (addr_val (p_addr p) / 2 ^ host_bits p) + (if b then 1 else 0) /\
  addr_val (p_addr (child p b)) mod 2 ^ (host_bits p - 1) = 0.
Proof.
  intros Hs. pose proof (splits_valid p Hs) as Hv. destruct Hs as (Hok & Hm & Hb).
  destruct (valid_IsValid p Hok Hv) as [Hva _].
  pose proof (masked_val p Hok Hm Hv) as E.
  split; [unfold host_bits, child; simpl; rewrite set_val_BitLen; lia|].
  unfold child. cbn [p_addr]. rewrite set_val_val by done.
  set (k := host_bits p) in *. assert (1 <= k) by (unfold k, host_bits; lia).
  set (m := addr_val (p_addr p) / 2 ^ k) in *.
  assert (2 ^ k = 2 ^ (k - 1) * 2) as Ek.
  { rewrite Z.mul_comm, <- Z.pow_succ_r by lia. f_equal. lia. }
  rewrite E, Ek.
  replace (m * (2 ^ (k - 1) * 2) + (if b then 2 ^ (k - 1) else 0))
    with ((2 * m + (if b then 1 else 0)) * 2 ^ (k - 1)) by (destruct b; ring).
  rewrite Z.div_mul, Z.mod_mul by lia. done.
Qed.

Lemma child_ok p b : splits p -> prefix_ok (child p b) /\ masked (child p b).
Proof.
  intros Hs. pose proof (splits_valid p Hs) as Hv.
  destruct (child_block p b Hs) as (Hh & Hd & Hm).
  destruct Hs as (Hok & Hmp & Hb). destruct (valid_IsValid p Hok Hv) as [Hva _].
  pose proof (masked_val p Hok Hmp Hv) as E. pose proof Hok as ([Ha1 Ha2] & Hz & _).
  set (k := host_bits p) in *. assert (1 <= k) by (unfold k, host_bits; lia).
  assert (prefix_ok (child p b)) as Hc.
  { assert (0 <= addr_val (p_addr (child p b)) < 2 ^ BitLen (p_addr (child p b))) as Hr.
    { unfold child. cbn [p_addr]. rewrite set_val_BitLen, set_val_val by done.
      assert (2 ^ BitLen (p_addr p) = 2 ^ (BitLen (p_addr p) - k) * 2 ^ k) as Ew.
      { rewrite <- Z.pow_add_r by (unfold k, host_bits in *; lia). f_equal. lia. }
      assert (2 ^ k = 2 ^ (k - 1) * 2) as Ek.
      { rewrite Z.mul_comm, <- Z.pow_succ_r by lia. f_equal. lia. }
      assert (0 < 2 ^ (k - 1)) by lia. fold k.
      destruct b; [|lia]. split; [lia|]. rewrite E in Ha2 |- *.
      set (m := addr_val (p_addr p) / 2 ^ k) in *.
      assert (m < 2 ^ (BitLen (p_addr p) - k)) by nia. nia. }
    split; [exact Hr|]. unfold child. simpl.
    rewrite set_val_Zone, set_val_IsValid, set_val_BitLen.
    split; [done|]. right. split; [done|lia]. }
  split; [done|]. unfold masked. rewrite Masked_valid; [|done|].
  - rewrite clear_low_eq by lia. rewrite Hh.
    rewrite Z.mul_comm, <- (Z.add_0_r (2 ^ (k - 1) * _)), <- Hm, <- Z.div_mod by lia.
    rewrite set_val_id. by destruct (child p b).
  - unfold pfx_IsValid, child. simpl. apply Z.leb_le. lia.
Qed.

Lemma child_valid p b : splits p -> pfx_IsValid (child p b) = true.
Proof. intros (_ & _ & ?). unfold pfx_IsValid, child. simpl. apply Z.leb_le. lia. Qed.

Lemma child_BitLen p b : BitLen (p_addr (child p b)) = BitLen (p_addr p).
Proof. apply set_val_BitLen. Qed.

(** A prefix is the disjoint union of its halves. *)
Lemma Contains_child p a :
  splits p ->
  Contains p a = Contains (child p false) a || Contains (child p true) a.
Proof.
  intros Hs. destruct (child_block p false Hs) as (Hh0 & Hd0 & _).
  destruct (child_block p true Hs) as (Hh1 & Hd1 & _).
  destruct (child_ok p false Hs) as [Hok0 _]. destruct (child_ok p true Hs) as [Hok1 _].
  destruct Hs as (Hok & Hm & Hb). apply eq_iff_eq_true.
  rewrite orb_true_iff, !Contains_spec by done.
  rewrite !child_BitLen, Hh0, Hh1, Hd0, Hd1, half_div by (unfold host_bits; lia).
  rewrite Z.add_0_r. unfold child. simpl. intuition lia.
Qed.

Lemma child_disjoint p a :
  splits p -> Contains (child p false) a = true -> Contains (child p true) a = true -> False.
Proof.
  intros Hs. destruct (child_block p false Hs) as (Hh0 & Hd0 & _).
  destruct (child_block p true Hs) as (Hh1 & Hd1 & _).
  destruct (child_ok p false Hs) as [Hok0 _]. destruct (child_ok p true Hs) as [Hok1 _].
  rewrite !Contains_spec by done. rewrite Hh0, Hh1, Hd0, Hd1. intuition lia.
Qed.

Lemma holds_child p b : splits p -> holds p (child p b) = true.
Proof.
  intros Hs. destruct (child_ok p b Hs) as [Hokb _]. unfold holds.
  rewrite Contains_child by done.
  assert (Contains (child p b) (p_addr (child p b)) = true) as Hc
    by (apply Contains_self; [done|by apply child_valid]).
  apply andb_true_intro. split; [apply Z.leb_le; unfold child; simpl; lia|].
  destruct b; rewrite Hc; [apply orb_true_r|done].
Qed.

(** A strictly smaller prefix inside [p] lies inside one half. *)
Lemma holds_split p q :
  splits p -> prefix_ok q -> holds p q = true -> p_bits p < p_bits q ->
  exists b, holds (child p b) q = true.
Proof.
  intros Hs Hq H Hlt. pose proof Hs as (Hok & _ & _).
  apply andb_prop in H as [_ H]. rewrite Contains_child in H by done.
  apply orb_prop in H as [H|H]; [exists false|exists true]; unfold holds; rewrite H;
    apply andb_true_intro; (split; [apply Z.leb_le; unfold child; simpl; lia|done]).
Qed.

(** Every prefix longer than 0 is a half of the one a bit shorter. *)
Definition parent (p : prefix) : prefix :=
  Masked (PrefixFrom (p_addr p) (p_bits p - 1)).

Lemma parent_splits p :
  prefix_ok p -> 0 < p_bits p ->
  splits (parent p) /\ p_bits (parent p) = p_bits p - 1 /\ holds (parent p) p = true.
Proof.
  intros Hok Hb. pose proof Hok as (Ha & Hz & [?|[Hva Hr]]); [lia|].
  set (q := PrefixFrom (p_addr p) (p_bits p - 1)).
  assert (prefix_ok q) as Hq by (by apply PrefixFrom_ok).
  assert (p_bits q = p_bits p - 1) as Hqb.
  { unfold q, PrefixFrom. simpl. rewrite Hva.
    rewrite (proj2 (Z.leb_le 0 _)), (proj2 (Z.leb_le _ (BitLen _))) by lia. done. }
  assert (withoutZone (p_addr p) = p_addr p) as Hwz
    by (destruct (p_addr p); simpl in *; try done; by subst).
  assert (p_addr q = p_addr p) as Hqa by (unfold q, PrefixFrom; simpl; done).
  assert (pfx_IsValid q = true) as Hqv by (apply Z.leb_le; lia).
  unfold parent. fold q. rewrite Masked_bits by done.
  split; [|split; [done|]].
  - split; [by apply Masked_ok|]. split; [by apply Masked_masked|].
    rewrite Masked_bits, Masked_BitLen, Hqa by done. lia.
  - unfold holds. rewrite Masked_bits, Contains_Masked by done.
    apply andb_true_intro. split; [apply Z.leb_le; lia|].
    rewrite <- Hqa. by apply Contains_self.
Qed.

Lemma parent_child p :
  prefix_ok p -> masked p -> 0 < p_bits p -> exists b, p = child (parent p) b.
Proof.
  intros Hok Hm Hb. destruct (parent_splits p Hok Hb) as (Hs & Hbits & Hh).
  destruct (holds_split _ p Hs Hok Hh) as [b Hc]; [lia|]. exists b.
  destruct (child_ok _ b Hs) as [Hcok Hcm]. symmetry. apply holds_antisym; [done..|].
  destruct (holds_valid _ _ Hc) as [_ Hvp].
  eapply (Contains_nested p (child (parent p) b) (p_addr p)); [done|done| | |].
  - by apply Contains_self.
  - unfold holds in Hc. by bool_hyps.
  - unfold child. simpl. lia.
Qed.

Lemma covered_in l a : covered l a = true <-> exists p, p ∈ l /\ Contains p a = true.
Proof. apply existsb_in. Qed.

Lemma covered_cons p l a : covered (p :: l) a = Contains p a || covered l a.
Proof. done. Qed.

Lemma covered_app l1 l2 a : covered (l1 ++ l2) a = covered l1 a || covered l2 a.
Proof. apply List.existsb_app. Qed.

Lemma covered_perm l1 l2 a : l1 ≡ₚ l2 -> covered l1 a = covered l2 a.
Proof.
  intros Hp. apply eq_iff_eq_true. rewrite !covered_in. by setoid_rewrite Hp.
Qed.
