(* ===== verification/NetipText.v ===== *)
(** * Text forms of addresses and prefixes

    [netip.ParseAddr], [netip.ParsePrefix] and the [String] methods, as
    functions on byte strings, and the round trip between them. RiftRoute
    carries destinations and gateways as strings; this is what lets theorems
    about prefixes speak about the routes that carry them. *)

From S2P Require Import Prelude Netip.
From Stdlib Require Import Ascii.

(** ** Characters *)

Definition code (c : ascii) : Z := Z.of_N (N_of_ascii c).
Definition chr (n : Z) : ascii := ascii_of_N (Z.to_N n).

Definition is_digit (c : ascii) : bool := (48 <=? code c) && (code c <=? 57).

Definition hex_val (c : ascii) : option Z :=
  if (48 <=? code c) && (code c <=? 57) then Some (code c - 48)
  else if (97 <=? code c) && (code c <=? 102) then Some (code c - 97 + 10)
  else if (65 <=? code c) && (code c <=? 70) then Some (code c - 65 + 10)
  else None.

Abbreviation dot := "."%char.
Abbreviation colon := ":"%char.
Abbreviation percent := "%"%char.
Abbreviation slash := "/"%char.

(** [strings.Index] of a byte: the parts before and after its first
    occurrence. *)
Fixpoint cut_at (c : ascii) (s : string) : option (string * string) :=
  match s with
  | EmptyString => None
  | String x s' =>
      if Ascii.eqb x c then Some (EmptyString, s')
      else match cut_at c s' with
           | Some (a, b) => Some (String x a, b)
           | None => None
           end
  end.

(** The same at its last occurrence. *)
Fixpoint cut_last (c : ascii) (s : string) : option (string * string) :=
  match s with
  | EmptyString => None
  | String x s' =>
      match cut_last c s' with
      | Some (a, b) => Some (String x a, b)
      | None => if Ascii.eqb x c then Some (EmptyString, s') else None
      end
  end.

(** ** IPv4 *)

(** [parseIPv4Fields]: [digLen] is 0 exactly at the start and after a dot. *)
Fixpoint parse4 (s : string) (fields : list Z) (val digLen : Z) : option (list Z) :=
  match s with
  | EmptyString => if (length fields <? 3)%nat then None else Some (fields ++ [val])
  | String c s' =>
      if is_digit c then
        if (digLen =? 1) && (val =? 0) then None
        else
          let val' := val * 10 + (code c - 48) in
          if 255 <? val' then None else parse4 s' fields val' (digLen + 1)
      else if Ascii.eqb c dot then
        if (digLen =? 0) || (s' =s? "") then None
        else if (length fields =? 3)%nat then None
        else parse4 s' (fields ++ [val]) 0 0
      else None
  end.

Definition addr4_of (a b c d : Z) : Z := ((a * 256 + b) * 256 + c) * 256 + d.

Definition parseIPv4 (s : string) : option addr :=
  match parse4 s [] 0 0 with
  | Some [a; b; c; d] => Some (Addr4 (addr4_of a b c d))
  | _ => None
  end.

(** [appendDecimal]. *)
Definition dec_digit (d : Z) : string := String (chr (48 + d)) EmptyString.
Definition octet (x : Z) : string :=
  (if 100 <=? x then dec_digit (x / 100) else "") +:+
  (if 10 <=? x then dec_digit (x / 10 mod 10) else "") +:+
  dec_digit (x mod 10).

Definition string4 (n : Z) : string :=
  octet (n / 2 ^ 24 mod 256) +:+ "." +:+ octet (n / 2 ^ 16 mod 256) +:+ "." +:+
  octet (n / 2 ^ 8 mod 256) +:+ "." +:+ octet (n mod 256).

(** ** IPv6 *)

(** One group of hexadecimal digits: its value, length and what follows. *)
Fixpoint scan_hex (s : string) (off acc : Z) : option (Z * Z * string) :=
  match s with
  | EmptyString => Some (acc, off, EmptyString)
  | String c s' =>
      match hex_val c with
      | None => Some (acc, off, s)
      | Some d =>
          let acc' := acc * 16 + d in
          if 3 <? off then None
          else if 65535 <? acc' then None
          else scan_hex s' (off + 1) acc'
      end
  end.

(** The loop of [parseIPv6]: [gs] are the 16-bit groups read, [ell] the number
    of groups before "::", [fuel] how many groups still fit. *)
Fixpoint parse6 (fuel : nat) (gs : list Z) (ell : option nat) (s : string)
    : option (list Z * option nat * string) :=
  match fuel with
  | O => Some (gs, ell, s)
  | S fuel' =>
      match scan_hex s 0 0 with
      | None => None
      | Some (acc, off, rest) =>
          if off =? 0 then None
          else
            let gs' := gs ++ [acc] in
            match rest with
            | EmptyString => Some (gs', ell, EmptyString)
            | String c r =>
                if Ascii.eqb c dot then
                  if bool_decide (ell = None) && negb (length gs =? 6)%nat then None
                  else if (8 <? length gs + 2)%nat then None
                  else match parse4 s [] 0 0 with
                       | Some [x; y; z; w] =>
                           Some (gs ++ [x * 256 + y; z * 256 + w], ell, EmptyString)
                       | _ => None
                       end
                else if negb (Ascii.eqb c colon) then None
                else match r with
                     | EmptyString => None
                     | String c2 r2 =>
                         if Ascii.eqb c2 colon then
                           match ell with
                           | Some _ => None
                           | None =>
                               if r2 =s? "" then Some (gs', Some (length gs'), EmptyString)
                               else parse6 fuel' gs' (Some (length gs')) r2
                           end
                         else parse6 fuel' gs' ell r
                     end
            end
      end
  end.

Definition groups_val (gs : list Z) : Z := fold_left (fun acc g => acc * 65536 + g) gs 0.

(** The groups, once the ellipsis is expanded. *)
Definition finish6 (r : option (list Z * option nat * string)) : option Z :=
  match r with
  | Some (gs, ell, EmptyString) =>
      let n := length gs in
      if (n <? 8)%nat then
        match ell with
        | None => None
        | Some e => Some (groups_val (take e gs ++ replicate (8 - n) 0 ++ drop e gs))
        end
      else match ell with None => Some (groups_val gs) | Some _ => None end
  | _ => None
  end.

Definition parse6_addr (s : string) : option Z :=
  match s with
  | String c1 (String c2 s2) =>
      if Ascii.eqb c1 colon && Ascii.eqb c2 colon then
        if s2 =s? "" then Some 0 else finish6 (parse6 8 [] (Some 0%nat) s2)
      else finish6 (parse6 8 [] None s)
  | _ => finish6 (parse6 8 [] None s)
  end.

Definition parseIPv6 (s : string) : option addr :=
  match cut_at percent s with
  | None => n ← parse6_addr s; Some (Addr6 n "")
  | Some (a, zone) =>
      if zone =s? "" then None else n ← parse6_addr a; Some (Addr6 n zone)
  end.

(** [ParseAddr]: the first dot, colon or percent sign decides. *)
Fixpoint addr_kind (s : string) : option ascii :=
  match s with
  | EmptyString => None
  | String c s' =>
      if Ascii.eqb c dot || Ascii.eqb c colon || Ascii.eqb c percent then Some c
      else addr_kind s'
  end.

Definition ParseAddr (s : string) : option addr :=
  match addr_kind s with
  | Some c => if Ascii.eqb c dot then parseIPv4 s
              else if Ascii.eqb c colon then parseIPv6 s else None
  | None => None
  end.

(** [appendHex]. *)
Definition hex_digit (d : Z) : string :=
  String (chr (if d <? 10 then 48 + d else 87 + d)) EmptyString.
Definition hex4 (x : Z) : string :=
  (if 4096 <=? x then hex_digit (x / 4096) else "") +:+
  (if 256 <=? x then hex_digit (x / 256 mod 16) else "") +:+
  (if 16 <=? x then hex_digit (x / 16 mod 16) else "") +:+
  hex_digit (x mod 16).

Definition groups (n : Z) : list Z :=
  map (fun i => n / 2 ^ (16 * Z.of_nat i) mod 65536) [7; 6; 5; 4; 3; 2; 1; 0]%nat.

Fixpoint zero_run (gs : list Z) : nat :=
  match gs with
  | g :: gs' => if g =? 0 then S (zero_run gs') else O
  | [] => O
  end.

(** [appendTo6]'s choice: the first longest run of at least two zero groups,
    as its start and length (length 0: none). *)
Definition best_run (gs : list Z) : nat * nat :=
  fold_left (fun '(st, len) i =>
               let l := zero_run (drop i gs) in
               if (2 <=? l)%nat && (len <? l)%nat then (i, l) else (st, len))
            (seq 0 8) (8%nat, 0%nat).

Fixpoint join_groups (gs : list Z) : string :=
  match gs with
  | [] => ""
  | [g] => hex4 g
  | g :: gs' => hex4 g +:+ ":" +:+ join_groups gs'
  end.

Definition string6 (n : Z) : string :=
  let gs := groups n in
  let '(st, len) := best_run gs in
  if (len =? 0)%nat then join_groups gs
  else join_groups (take st gs) +:+ "::" +:+ join_groups (drop (st + len) gs).

Definition addr_String (a : addr) : string :=
  match a with
  | AddrZero => "invalid IP"
  | Addr4 n => string4 n
  | Addr6 n z =>
      (if Is4In6 a then "::ffff:" +:+ string4 (n mod 2 ^ 32) else string6 n) +:+
      (if z =s? "" then "" else "%" +:+ z)
  end.

(** ** Prefixes *)

(** The length after the slash: digits only, no leading zero. *)
Fixpoint digits_val (s : string) (acc : Z) : option Z :=
  match s with
  | EmptyString => Some acc
  | String c s' => if is_digit c then digits_val s' (acc * 10 + (code c - 48)) else None
  end.

Definition parse_bits (s : string) : option Z :=
  match s with
  | EmptyString => None
  | String c s' =>
      if negb (s' =s? "") && ((code c <? 49) || (57 <? code c)) then None
      else digits_val s 0
  end.

Definition ParsePrefix (s : string) : option prefix :=
  match cut_last slash s with
  | None => None
  | Some (a, b) =>
      match ParseAddr a with
      | None => None
      | Some ip =>
          if Is6 ip && hasZone ip then None
          else match parse_bits b with
               | None => None
               | Some bits => if BitLen ip <? bits then None else Some (PrefixFrom ip bits)
               end
      end
  end.

Definition prefix_String (p : prefix) : string :=
  if pfx_IsValid p then addr_String (p_addr p) +:+ "/" +:+ pretty (p_bits p)
  else "invalid Prefix".

Example parse_10 : ParsePrefix "10.0.0.0/8" = Some (mkPrefix (Addr4 167772160) 8).
Proof. reflexivity. Qed.
Example parse_rt6 : option_map prefix_String (ParsePrefix "fd7a:115c:a1e0::/48")
  = Some "fd7a:115c:a1e0::/48".
Proof. reflexivity. Qed.
Example parse_mapped : option_map addr_String (ParseAddr "::ffff:10.0.0.1%en0")
  = Some "::ffff:10.0.0.1%en0".
Proof. reflexivity. Qed.
Example parse_bad : ParseAddr "1:2::3::4" = None /\ ParseAddr "1.2.3" = None /\
  ParseAddr "01.2.3.4" = None /\ ParsePrefix "10.0.0.0/08" = None /\
  ParsePrefix "fe80::1%en0/64" = None.
Proof. repeat split. Qed.
Example parse_zero6 : option_map addr_String (ParseAddr "0:0:1:0:0:0:0:1") = Some "0:0:1::1".
Proof. reflexivity. Qed.

(** ** Characters of printed addresses *)

Fixpoint str_forall (P : ascii -> bool) (s : string) : bool :=
  match s with EmptyString => true | String c s' => P c && str_forall P s' end.

Lemma str_forall_app P s1 s2 :
  str_forall P (s1 +:+ s2) = str_forall P s1 && str_forall P s2.
Proof. induction s1 as [|c s1 IH]; simpl; [done|]. by rewrite IH, andb_assoc. Qed.

Lemma append_assoc (s1 s2 s3 : string) : (s1 +:+ s2) +:+ s3 = s1 +:+ (s2 +:+ s3).
Proof. induction s1 as [|c s1 IH]; simpl; [done|]. by rewrite IH. Qed.

Lemma append_nil_r (s : string) : s +:+ "" = s.
Proof. induction s as [|c s IH]; simpl; [done|]. by rewrite IH. Qed.

Lemma code_chr n : 0 <= n < 256 -> code (chr n) = n.
Proof.
  intros H. unfold code, chr. rewrite N_ascii_embedding; lia.
Qed.

(** The separator of the keys built from addresses. *)
Definition bar : ascii := "|".

(** The characters of an address without its zone. *)
Definition addr_char (c : ascii) : bool :=
  negb (Ascii.eqb c percent) && negb (Ascii.eqb c slash) && negb (Ascii.eqb c bar) && (46 <=? code c) && (code c <=? 102).

Lemma chr_ne c n : 0 <= n < 256 -> code c <> n -> Ascii.eqb (chr n) c = false.
Proof.
  intros Hn Hne. apply Ascii.eqb_neq. intros E. apply Hne. by rewrite <- E, code_chr.
Qed.

Lemma cut_at_none c s : str_forall (fun x => negb (Ascii.eqb x c)) s = true -> cut_at c s = None.
Proof.
  induction s as [|x s IH]; simpl; [done|]. intros H. bool_hyps.
  match goal with H : Ascii.eqb _ _ = false |- _ => rewrite H end. by rewrite IH.
Qed.

Lemma cut_at_app c s z :
  str_forall (fun x => negb (Ascii.eqb x c)) s = true ->
  cut_at c (s +:+ String c z) = Some (s, z).
Proof.
  induction s as [|x s IH]; simpl; [by rewrite Ascii.eqb_refl|]. intros H. bool_hyps.
  match goal with H : Ascii.eqb _ _ = false |- _ => rewrite H end. by rewrite IH.
Qed.

Lemma cut_last_none c s : str_forall (fun x => negb (Ascii.eqb x c)) s = true -> cut_last c s = None.
Proof.
  induction s as [|x s IH]; simpl; [done|]. intros H. bool_hyps.
  rewrite IH by done. match goal with H : Ascii.eqb _ _ = false |- _ => by rewrite H end.
Qed.

Lemma cut_last_app c s z :
  str_forall (fun x => negb (Ascii.eqb x c)) z = true ->
  cut_last c (s +:+ String c z) = Some (s, z).
Proof.
  intros Hz. induction s as [|x s IH]; simpl.
  - by rewrite cut_last_none, Ascii.eqb_refl.
  - by rewrite IH.
Qed.

Lemma str_forall_impl (P Q : ascii -> bool) s :
  (forall c, P c = true -> Q c = true) -> str_forall P s = true -> str_forall Q s = true.
Proof.
  intros HPQ. induction s as [|c s IH]; simpl; [done|]. intros H. bool_hyps.
  rewrite HPQ by done. by apply IH.
Qed.

(** ** Decimal octets *)

Lemma dec_char d :
  0 <= d <= 9 ->
  is_digit (chr (48 + d)) = true /\ code (chr (48 + d)) = 48 + d /\
  addr_char (chr (48 + d)) = true /\ hex_val (chr (48 + d)) = Some d /\
  Ascii.eqb (chr (48 + d)) dot = false /\ Ascii.eqb (chr (48 + d)) colon = false /\
  Ascii.eqb (chr (48 + d)) percent = false.
Proof.
  intros Hd. assert (code (chr (48 + d)) = 48 + d) as Hc by (apply code_chr; lia).
  assert (forall c, code c < 48 \/ 57 < code c -> Ascii.eqb (chr (48 + d)) c = false) as Hne
    by (intros c ?; apply chr_ne; lia).
  assert (is_digit (chr (48 + d)) = true) as Hdig.
  { unfold is_digit. rewrite Hc. apply andb_true_intro. split; apply Z.leb_le; lia. }
  split_and!; [done|done| | |apply Hne; vm_compute; auto..].
  - unfold addr_char. rewrite !Hne by (vm_compute; auto). rewrite Hc, (proj2 (Z.leb_le 46 _)), (proj2 (Z.leb_le _ 102)) by lia. done.
  - unfold hex_val. unfold is_digit in Hdig. rewrite Hdig, Hc. f_equal. lia.
Qed.

Lemma parse4_digit d s f val dl :
  0 <= d <= 9 -> (dl = 1 -> val <> 0) -> val * 10 + d <= 255 ->
  parse4 (String (chr (48 + d)) s) f val dl = parse4 s f (val * 10 + d) (dl + 1).
Proof.
  intros Hd Hz Hv. destruct (dec_char d Hd) as (H1 & H2 & _). cbn [parse4].
  rewrite H1, H2. replace (48 + d - 48) with d by lia.
  rewrite (proj2 (Z.ltb_ge 255 _)) by lia.
  destruct (Z.eqb_spec dl 1) as [->|]; simpl; [|done].
  destruct (Z.eqb_spec val 0); [by exfalso; apply Hz|done].
Qed.

(** The octet's digits, most significant first. *)
Lemma octet_digits x :
  0 <= x < 256 ->
  (exists d, octet x = dec_digit d /\ 0 <= d <= 9 /\ x = d) \/
  (exists d1 d0, octet x = dec_digit d1 +:+ dec_digit d0 /\ 1 <= d1 <= 9 /\ 0 <= d0 <= 9 /\
                 x = d1 * 10 + d0) \/
  (exists d2 d1 d0, octet x = dec_digit d2 +:+ dec_digit d1 +:+ dec_digit d0 /\
     1 <= d2 <= 2 /\ 0 <= d1 <= 9 /\ 0 <= d0 <= 9 /\ x = (d2 * 10 + d1) * 10 + d0).
Proof.
  intros Hx. unfold octet.
  destruct (Z.leb_spec 100 x); destruct (Z.leb_spec 10 x); try lia.
  - right; right. exists (x / 100), (x / 10 mod 10), (x mod 10). split; [done|].
    Z.to_euclidean_division_equations. lia.
  - right; left. exists (x / 10), (x mod 10). split.
    { simpl. f_equal. unfold dec_digit. f_equal. f_equal. f_equal.
      rewrite Z.mod_small; [done|]. Z.to_euclidean_division_equations. lia. }
    Z.to_euclidean_division_equations. lia.
  - left. exists (x mod 10). split; [done|]. Z.to_euclidean_division_equations. lia.
Qed.

Lemma parse4_octet x f rest :
  0 <= x < 256 ->
  exists L, 1 <= L /\ parse4 (octet x +:+ rest) f 0 0 = parse4 rest f x L.
Proof.
  intros Hx. destruct (octet_digits x Hx) as [(d & -> & Hd & ->)|[H|H]].
  - exists 1. split; [lia|]. apply parse4_digit; lia.
  - destruct H as (d1 & d0 & -> & H1 & H0 & ->). exists 2. split; [lia|].
    simpl String.append. rewrite !parse4_digit by lia. done.
  - destruct H as (d2 & d1 & d0 & -> & H2 & H1 & H0 & ->). exists 3. split; [lia|].
    simpl String.append. rewrite !parse4_digit by lia. done.
Qed.

Lemma octet_cons x :
  0 <= x < 256 -> exists d s, 0 <= d <= 9 /\ octet x = String (chr (48 + d)) s.
Proof.
  intros Hx. destruct (octet_digits x Hx) as [(d & -> & Hd & _)|[H|H]].
  - by exists d, "".
  - destruct H as (d1 & d0 & -> & H1 & _). exists d1. eexists. split; [lia|done].
  - destruct H as (d2 & d1 & d0 & -> & H2 & _). exists d2. eexists. split; [lia|done].
Qed.

Lemma octet_chars x :
  0 <= x < 256 -> str_forall addr_char (octet x) = true /\
  forall s, addr_kind (octet x +:+ s) = addr_kind s.
Proof.
  assert (forall d s, 0 <= d <= 9 ->
    addr_kind (String (chr (48 + d)) s) = addr_kind s) as Hk.
  { intros d s Hd. destruct (dec_char d Hd) as (_ & _ & _ & _ & H1 & H2 & H3).
    simpl. by rewrite H1, H2, H3. }
  assert (forall d, 0 <= d <= 9 -> addr_char (chr (48 + d)) = true) as Ha
    by (intros d Hd; apply (dec_char d Hd)).
  intros Hx. destruct (octet_digits x Hx) as [(d & -> & Hd & _)|[H|H]].
  - simpl str_forall. rewrite Ha by lia. split; [done|]. intros s. by apply Hk.
  - destruct H as (d1 & d0 & -> & H1 & H0 & _). simpl str_forall. rewrite !Ha by lia.
    split; [done|]. intros s. simpl String.append. rewrite !Hk by lia. done.
  - destruct H as (d2 & d1 & d0 & -> & H2 & H1 & H0 & _). simpl str_forall.
    rewrite !Ha by lia. split; [done|]. intros s. simpl String.append. rewrite !Hk by lia. done.
Qed.

Lemma parse4_dot f v L rest :
  1 <= L -> rest <> "" -> length f <> 3%nat ->
  parse4 ("." +:+ rest) f v L = parse4 rest (f ++ [v]) 0 0.
Proof.
  intros HL Hr Hf. cbn [parse4 String.append]. change (is_digit dot) with false.
  change (Ascii.eqb dot dot) with true. cbv iota.
  destruct (Z.eqb_spec L 0); [lia|]. simpl.
  destruct (String.eqb_spec rest ""); [done|].
  by destruct (Nat.eqb_spec (length f) 3).
Qed.

Lemma octet_ne x s : 0 <= x < 256 -> octet x +:+ s <> "".
Proof. intros Hx. by destruct (octet_cons x Hx) as (d & s' & _ & ->). Qed.

Lemma mod256 x : 0 <= x mod 256 < 256.
Proof. apply Z.mod_pos_bound. lia. Qed.

Lemma parse4_string4 n :
  0 <= n < 2 ^ 32 ->
  parse4 (string4 n) [] 0 0 =
    Some [n / 2 ^ 24 mod 256; n / 2 ^ 16 mod 256; n / 2 ^ 8 mod 256; n mod 256].
Proof.
  intros Hn. unfold string4.
  destruct (parse4_octet (n / 2 ^ 24 mod 256) [] ("." +:+ octet (n / 2 ^ 16 mod 256) +:+
    "." +:+ octet (n / 2 ^ 8 mod 256) +:+ "." +:+ octet (n mod 256)) (mod256 _))
    as (L1 & HL1 & ->).
  rewrite parse4_dot by (try done; apply octet_ne, mod256).
  destruct (parse4_octet (n / 2 ^ 16 mod 256) ([] ++ [n / 2 ^ 24 mod 256])
    ("." +:+ octet (n / 2 ^ 8 mod 256) +:+ "." +:+ octet (n mod 256)) (mod256 _))
    as (L2 & HL2 & ->).
  rewrite parse4_dot by (try done; apply octet_ne, mod256).
  destruct (parse4_octet (n / 2 ^ 8 mod 256) (([] ++ [n / 2 ^ 24 mod 256]) ++
    [n / 2 ^ 16 mod 256]) ("." +:+ octet (n mod 256)) (mod256 _)) as (L3 & HL3 & ->).
  rewrite parse4_dot; [|done| |done].
  - rewrite <- (append_nil_r (octet (n mod 256))).
    destruct (parse4_octet (n mod 256) ((([] ++ [n / 2 ^ 24 mod 256]) ++
      [n / 2 ^ 16 mod 256]) ++ [n / 2 ^ 8 mod 256]) "" (mod256 _)) as (L4 & HL4 & ->).
    done.
  - rewrite <- (append_nil_r (octet (n mod 256))). apply octet_ne, mod256.
Qed.

Lemma addr4_of_octets n :
  0 <= n < 2 ^ 32 ->
  addr4_of (n / 2 ^ 24 mod 256) (n / 2 ^ 16 mod 256) (n / 2 ^ 8 mod 256) (n mod 256) = n.
Proof.
  intros Hn. unfold addr4_of. change (2 ^ 24) with 16777216. change (2 ^ 16) with 65536.
  change (2 ^ 8) with 256. change (2 ^ 32) with 4294967296 in Hn.
  Z.to_euclidean_division_equations. lia.
Qed.

Lemma string4_chars n : str_forall addr_char (string4 n) = true.
Proof.
  unfold string4. rewrite !str_forall_app.
  rewrite !(fun x => proj1 (octet_chars (x mod 256) (mod256 x))). done.
Qed.

Lemma parseIPv4_string4 n :
  0 <= n < 2 ^ 32 -> ParseAddr (string4 n) = Some (Addr4 n).
Proof.
  intros Hn. unfold ParseAddr.
  assert (addr_kind (string4 n) = Some dot) as ->.
  { unfold string4. by rewrite (proj2 (octet_chars _ (mod256 _))). }
  simpl. unfold parseIPv4. rewrite parse4_string4 by done. by rewrite addr4_of_octets.
Qed.

(** ** Hexadecimal groups *)

Lemma hex_char d :
  0 <= d < 16 ->
  exists c, hex_digit d = String c "" /\ hex_val c = Some d /\ addr_char c = true /\
    Ascii.eqb c dot = false /\ Ascii.eqb c colon = false /\ Ascii.eqb c percent = false.
Proof.
  intros Hd. unfold hex_digit. eexists. split; [done|].
  destruct (Z.ltb_spec d 10).
  - destruct (dec_char d) as (_ & _ & ? & ? & ? & ? & ?); [lia|]. done.
  - assert (code (chr (87 + d)) = 87 + d) as Hc by (apply code_chr; lia).
    assert (forall c, code c < 97 \/ 102 < code c -> Ascii.eqb (chr (87 + d)) c = false) as Hne
      by (intros c ?; apply chr_ne; lia).
    split_and!; [|unfold addr_char; rewrite !Hne by (vm_compute; auto); rewrite Hc, (proj2 (Z.leb_le 46 _)), (proj2 (Z.leb_le _ 102)) by lia; done|
                 apply Hne; vm_compute; auto..].
    unfold hex_val. rewrite Hc.
    rewrite (proj2 (Z.leb_gt (87 + d) 57)), andb_false_r by lia.
    rewrite (proj2 (Z.leb_le 97 _)), (proj2 (Z.leb_le _ 102)) by lia. simpl. f_equal. lia.
Qed.

Lemma scan_hex_digit d s off acc :
  0 <= d < 16 -> off <= 3 -> acc * 16 + d <= 65535 ->
  scan_hex (hex_digit d +:+ s) off acc = scan_hex s (off + 1) (acc * 16 + d).
Proof.
  intros Hd Ho Ha. destruct (hex_char d Hd) as (c & -> & Hv & _). simpl. rewrite Hv.
  rewrite (proj2 (Z.ltb_ge 3 off)), (proj2 (Z.ltb_ge 65535 _)) by lia. done.
Qed.

(** What may follow a group: the end, or a character that is no digit. *)
Definition ends_group (s : string) : Prop :=
  match s with EmptyString => True | String c _ => hex_val c = None end.

Lemma scan_hex_end s off acc : ends_group s -> scan_hex s off acc = Some (acc, off, s).
Proof. destruct s as [|c s]; simpl; [done|]. by intros ->. Qed.

Lemma hex4_digits x :
  0 <= x < 65536 ->
  exists ds, Forall (fun d => 0 <= d < 16) ds /\ (1 <= length ds <= 4)%nat /\
    hex4 x = foldr (fun d s => hex_digit d +:+ s) "" ds /\
    fold_left (fun acc d => acc * 16 + d) ds 0 = x.
Proof.
  intros Hx. unfold hex4.
  assert (forall y, 0 <= y mod 16 < 16) as Hm by (intros; apply Z.mod_pos_bound; lia).
  destruct (Z.leb_spec 4096 x); [|destruct (Z.leb_spec 256 x);
    [|destruct (Z.leb_spec 16 x)]].
  - rewrite !(proj2 (Z.leb_le _ x)) by lia.
    exists [x / 4096; x / 256 mod 16; x / 16 mod 16; x mod 16]. split_and!; simpl; try lia.
    + repeat constructor; try apply Hm; Z.to_euclidean_division_equations; lia.
    + by rewrite ?append_nil_r.
    + Z.to_euclidean_division_equations; lia.
  - rewrite (proj2 (Z.leb_le 16 x)) by lia. exists [x / 256 mod 16; x / 16 mod 16; x mod 16].
    split_and!; simpl; try lia.
    + repeat constructor; apply Hm.
    + by rewrite ?append_nil_r.
    + Z.to_euclidean_division_equations; lia.
  - exists [x / 16 mod 16; x mod 16]. split_and!; simpl; try lia.
    + repeat constructor; apply Hm.
    + by rewrite ?append_nil_r.
    + Z.to_euclidean_division_equations; lia.
  - exists [x mod 16]. split_and!; simpl; try lia.
    + repeat constructor; apply Hm.
    + by rewrite ?append_nil_r.
    + Z.to_euclidean_division_equations; lia.
Qed.

Lemma hex_digits_app ds s :
  foldr (fun d s => hex_digit d +:+ s) "" ds +:+ s = foldr (fun d s => hex_digit d +:+ s) s ds.
Proof. induction ds as [|d ds IH]; cbn [foldr]; [done|]. by rewrite append_assoc, IH. Qed.

Lemma fold_hex_ge ds acc :
  0 <= acc -> Forall (fun d => 0 <= d < 16) ds ->
  acc <= fold_left (fun acc d => acc * 16 + d) ds acc.
Proof.
  intros Ha Hf. revert acc Ha. induction Hf as [|d ds Hd Hf IH]; intros acc Ha; simpl; [lia|].
  specialize (IH (acc * 16 + d)). lia.
Qed.

Lemma scan_hex_group x s :
  0 <= x < 65536 -> ends_group s ->
  exists L, 1 <= L /\ scan_hex (hex4 x +:+ s) 0 0 = Some (x, L, s).
Proof.
  intros Hx Hs. destruct (hex4_digits x Hx) as (ds & Hf & Hlen & -> & Hval).
  exists (Z.of_nat (length ds)). split; [lia|]. rewrite hex_digits_app.
  assert (forall ds off acc, Forall (fun d => 0 <= d < 16) ds -> 0 <= acc -> 0 <= off ->
    off + Z.of_nat (length ds) <= 4 ->
    fold_left (fun acc d => acc * 16 + d) ds acc <= 65535 ->
    scan_hex (foldr (fun d s => hex_digit d +:+ s) s ds) off acc =
    Some (fold_left (fun acc d => acc * 16 + d) ds acc, off + Z.of_nat (length ds), s)) as Hg.
  { clear -Hs. induction ds as [|d ds IH]; intros off acc Hf Ha Ho Hl Hv; cbn [foldr length].
    - simpl. rewrite Z.add_0_r. by apply scan_hex_end.
    - inversion Hf as [|?? Hd Hf']; subst. simpl in Hv.
      pose proof (fold_hex_ge ds (acc * 16 + d)) as Hge. cbn [length] in Hl.
      rewrite scan_hex_digit by (try done; lia || (specialize (Hge ltac:(lia) Hf'); lia)).
      rewrite IH by (done || lia). cbn [fold_left]. do 3 f_equal. lia. }
  rewrite Hg by (done || lia). by rewrite Hval.
Qed.

Lemma hex4_cons x :
  0 <= x < 65536 -> exists c s, hex4 x = String c s /\ Ascii.eqb c colon = false /\
    Ascii.eqb c dot = false /\ Ascii.eqb c percent = false.
Proof.
  intros Hx. destruct (hex4_digits x Hx) as (ds & Hf & Hlen & -> & _).
  destruct ds as [|d ds]; [simpl in Hlen; lia|]. inversion Hf; subst. cbn [foldr].
  destruct (hex_char d) as (c & -> & _ & _ & ? & ? & ?); [done|]. simpl. eauto 8.
Qed.

Lemma hex4_chars x :
  0 <= x < 65536 -> str_forall addr_char (hex4 x) = true /\
  forall s, addr_kind (hex4 x +:+ s) = addr_kind s.
Proof.
  intros Hx. destruct (hex4_digits x Hx) as (ds & Hf & _ & -> & _). clear x Hx.
  induction Hf as [|d ds Hd Hf [IH1 IH2]]; cbn [foldr]; [done|].
  destruct (hex_char d Hd) as (c & -> & _ & Ha & H1 & H2 & H3). cbn [String.append str_forall].
  rewrite Ha, IH1. split; [done|]. intros s. cbn [addr_kind]. by rewrite H1, H2, H3, IH2.
Qed.

(** ** Joined groups *)

Abbreviation u16s := (Forall (fun g => 0 <= g < 65536)).

Lemma join_groups_cons g gs :
  join_groups (g :: gs) = hex4 g +:+ (if decide (gs = []) then "" else ":" +:+ join_groups gs).
Proof. destruct gs; simpl; [by rewrite append_nil_r|done]. Qed.

Lemma join_groups_hd g gs : u16s (g :: gs) -> exists c s,
  join_groups (g :: gs) = String c s /\ Ascii.eqb c colon = false.
Proof.
  intros Hf. inversion Hf as [|?? Hg _]; subst. rewrite join_groups_cons.
  destruct (hex4_cons g Hg) as (c & s & -> & Hc & _). simpl. eauto.
Qed.

Lemma parse6_colon fuel gs g ell r :
  0 <= g < 65536 ->
  parse6 (S fuel) gs ell (hex4 g +:+ String colon r) =
  match r with
  | EmptyString => None
  | String c2 r2 =>
      if Ascii.eqb c2 colon then
        match ell with
        | Some _ => None
        | None => if r2 =s? "" then Some (gs ++ [g], Some (length (gs ++ [g])), EmptyString)
                  else parse6 fuel (gs ++ [g]) (Some (length (gs ++ [g]))) r2
        end
      else parse6 fuel (gs ++ [g]) ell r
  end.
Proof.
  intros Hg. destruct (scan_hex_group g (String colon r) Hg) as (L & HL & E); [done|].
  cbn [parse6]. rewrite E. destruct (Z.eqb_spec L 0); [lia|]. done.
Qed.

Lemma parse6_last fuel gs g ell :
  0 <= g < 65536 ->
  parse6 (S fuel) gs ell (hex4 g) = Some (gs ++ [g], ell, EmptyString).
Proof.
  intros Hg. rewrite <- (append_nil_r (hex4 g)).
  destruct (scan_hex_group g "" Hg) as (L & HL & E); [done|].
  cbn [parse6]. rewrite E. destruct (Z.eqb_spec L 0); [lia|]. done.
Qed.

Lemma parse6_join gs : forall fuel acc ell,
  u16s gs -> gs <> [] -> (length gs <= fuel)%nat ->
  parse6 fuel acc ell (join_groups gs) = Some (acc ++ gs, ell, EmptyString).
Proof.
  induction gs as [|g gs IH]; intros fuel acc ell Hf Hne Hl; [done|].
  destruct fuel as [|fuel]; [simpl in Hl; lia|]. inversion Hf as [|?? Hg Hf']; subst.
  rewrite join_groups_cons. destruct gs as [|g' gs]; simpl decide.
  - simpl. rewrite append_nil_r. by apply parse6_last.
  - rewrite decide_False by done. change (":" +:+ ?s) with (String colon s).
    rewrite parse6_colon by done. destruct (join_groups_hd g' gs Hf') as (c & s & E & Hc).
    rewrite E, Hc. rewrite <- E. rewrite IH by (try done; simpl in *; lia).
    by rewrite <- app_assoc.
Qed.

Lemma parse6_join_ell gs : forall fuel acc r,
  u16s gs -> gs <> [] -> (length gs <= fuel)%nat ->
  parse6 fuel acc None (join_groups gs +:+ "::" +:+ r) =
  if r =s? "" then Some (acc ++ gs, Some (length (acc ++ gs)), EmptyString)
  else parse6 (fuel - length gs) (acc ++ gs) (Some (length (acc ++ gs))) r.
Proof.
  induction gs as [|g gs IH]; intros fuel acc r Hf Hne Hl; [done|].
  destruct fuel as [|fuel]; [simpl in Hl; lia|]. inversion Hf as [|?? Hg Hf']; subst.
  rewrite join_groups_cons, append_assoc. destruct gs as [|g' gs].
  - rewrite decide_True by done.
    change ("" +:+ "::" +:+ r) with (String colon (String colon r)).
    rewrite parse6_colon by done. change (Ascii.eqb colon colon) with true. cbv iota.
    cbn [length]. by rewrite Nat.sub_succ, Nat.sub_0_r.
  - rewrite decide_False by done. rewrite append_assoc.
    change (":" +:+ ?s) with (String colon s).
    rewrite parse6_colon by done. destruct (join_groups_hd g' gs Hf') as (c & s & E & Hc).
    rewrite E. simpl String.append at 1. cbv iota. rewrite Hc.
    change (String c (s +:+ "::" +:+ r)) with (String c s +:+ "::" +:+ r). rewrite <- E.
    rewrite IH by (try done; simpl in *; lia). rewrite <- app_assoc. simpl app.
    by replace (S fuel - length (g :: g' :: gs))%nat with (fuel - length (g' :: gs))%nat
      by (simpl; lia).
Qed.

(** ** Printing and parsing IPv6 *)

Lemma groups_u16 n : u16s (groups n).
Proof. unfold groups. simpl. repeat constructor; apply Z.mod_pos_bound; lia. Qed.

Lemma groups_length n : length (groups n) = 8%nat.
Proof. done. Qed.

Lemma groups_val_groups n : 0 <= n < 2 ^ 128 -> groups_val (groups n) = n.
Proof.
  intros Hn. unfold groups, groups_val. cbn [map fold_left].
  assert (forall k k', 0 <= k -> k' = k + 16 ->
    n / 2 ^ k = n / 2 ^ k' * 65536 + n / 2 ^ k mod 65536) as Hs.
  { intros k k' Hk ->. rewrite Z.pow_add_r, <- Z.div_div by lia. change (2 ^ 16) with 65536.
    pose proof (Z.div_mod (n / 2 ^ k) 65536). lia. }
  pose proof (Hs 0 16 ltac:(lia) eq_refl). pose proof (Hs 16 32 ltac:(lia) eq_refl).
  pose proof (Hs 32 48 ltac:(lia) eq_refl). pose proof (Hs 48 64 ltac:(lia) eq_refl).
  pose proof (Hs 64 80 ltac:(lia) eq_refl). pose proof (Hs 80 96 ltac:(lia) eq_refl).
  pose proof (Hs 96 112 ltac:(lia) eq_refl). pose proof (Hs 112 128 ltac:(lia) eq_refl).
  assert (n / 2 ^ 128 = 0) by (apply Z.div_small; lia).
  assert (n / 2 ^ 0 = n) by (rewrite Z.pow_0_r; apply Z.div_1_r).
  change (16 * Z.of_nat 7) with 112. change (16 * Z.of_nat 6) with 96.
  change (16 * Z.of_nat 5) with 80. change (16 * Z.of_nat 4) with 64.
  change (16 * Z.of_nat 3) with 48. change (16 * Z.of_nat 2) with 32.
  change (16 * Z.of_nat 1) with 16. change (16 * Z.of_nat 0) with 0. lia.
Qed.

Lemma zero_run_spec gs : exists r, gs = replicate (zero_run gs) 0 ++ r.
Proof.
  induction gs as [|g gs [r IH]]; simpl; [by exists []|].
  destruct (Z.eqb_spec g 0) as [->|]; [|by exists (g :: gs)].
  exists r. simpl. by f_equal.
Qed.

Lemma best_run_spec gs st len :
  best_run gs = (st, len) ->
  len = 0%nat \/ (2 <= len)%nat /\ zero_run (drop st gs) = len.
Proof.
  unfold best_run.
  assert (forall idx st0 len0,
    (len0 = 0%nat \/ (2 <= len0)%nat /\ zero_run (drop st0 gs) = len0) ->
    let '(st, len) := fold_left (fun '(st, len) i =>
      let l := zero_run (drop i gs) in
      if (2 <=? l)%nat && (len <? l)%nat then (i, l) else (st, len)) idx (st0, len0) in
    len = 0%nat \/ (2 <= len)%nat /\ zero_run (drop st gs) = len) as Hinv.
  { induction idx as [|i idx IH]; intros st0 len0 H0; [done|]. cbn [fold_left].
    destruct ((2 <=? zero_run (drop i gs))%nat && (len0 <? zero_run (drop i gs))%nat) eqn:E.
    - apply IH. right. apply andb_prop in E as [E _]. apply Nat.leb_le in E. done.
    - by apply IH. }
  intros E. specialize (Hinv (seq 0 8) 8%nat 0%nat (or_introl eq_refl)).
  cbv zeta in *. by rewrite E in Hinv.
Qed.

(** The run splits the groups. *)
Lemma best_run_split gs st len :
  length gs = 8%nat -> best_run gs = (st, len) -> len <> 0%nat ->
  gs = take st gs ++ replicate len 0 ++ drop (st + len) gs /\
  (st + len <= 8)%nat /\ (2 <= len)%nat.
Proof.
  intros Hl Hb Hne. apply best_run_spec in Hb as [?|[H2 Hz]]; [done|].
  destruct (zero_run_spec (drop st gs)) as [r Hr]. rewrite Hz in Hr.
  assert (length (drop st gs) = len + length r)%nat as Hlen
    by (rewrite Hr, length_app, length_replicate; done).
  rewrite length_drop, Hl in Hlen.
  assert (drop (st + len) gs = r) as ->.
  { rewrite <- drop_drop, Hr, drop_app_length'; [done|]. by rewrite length_replicate. }
  rewrite <- Hr, take_drop. split; [done|lia].
Qed.

Lemma parse6_addr_hex c s :
  Ascii.eqb c colon = false -> parse6_addr (String c s) = finish6 (parse6 8 [] None (String c s)).
Proof. intros H. unfold parse6_addr. destruct s; rewrite ?H; done. Qed.

Lemma join_groups_empty gs : u16s gs -> join_groups gs = "" -> gs = [].
Proof.
  destruct gs as [|g gs]; [done|]. intros Hf. by destruct (join_groups_hd g gs Hf) as (c & s & -> & _).
Qed.

Lemma parse6_string6 n : 0 <= n < 2 ^ 128 -> parse6_addr (string6 n) = Some n.
Proof.
  intros Hn. pose proof (groups_u16 n) as Hu. pose proof (groups_length n) as Hl.
  pose proof (groups_val_groups n Hn) as Hv. unfold string6.
  set (gs := groups n) in *. clearbody gs. destruct (best_run gs) as [st len] eqn:Eb.
  destruct (Nat.eqb_spec len 0) as [->|Hne].
  { destruct gs as [|g gs]; [done|]. destruct (join_groups_hd g gs Hu) as (c & s & E & Hc).
    rewrite E, parse6_addr_hex by done. rewrite <- E, parse6_join by (done || lia).
    unfold finish6. rewrite app_nil_l, Hl. simpl. by rewrite <- Hv. }
  destruct (best_run_split gs st len Hl Eb Hne) as (Hsplit & Hb & H2).
  set (A := take st gs) in *. set (B := drop (st + len) gs) in *.
  assert (u16s A) as HA by (by apply Forall_take). assert (u16s B) as HB by (by apply Forall_drop).
  assert (length A = st) as HlA by (unfold A; rewrite length_take; lia).
  assert (length B = 8 - (st + len))%nat as HlB by (unfold B; rewrite length_drop; lia).
  assert (finish6 (Some (A ++ B, Some st, "")) = Some n) as Hfin.
  { unfold finish6. rewrite length_app, HlA, HlB.
    replace (st + (8 - (st + len)) <? 8)%nat with true by (symmetry; apply Nat.ltb_lt; lia).
    f_equal. rewrite take_app_length', drop_app_length' by done.
    replace (8 - (st + (8 - (st + len))))%nat with len by lia. by rewrite <- Hsplit. }
  destruct A as [|a A'] eqn:EA.
  - simpl in HlA. subst st. change (join_groups [] +:+ "::" +:+ join_groups B) with
      (String colon (String colon (join_groups B))).
    unfold parse6_addr.
    change (Ascii.eqb colon colon && Ascii.eqb colon colon) with true. cbv iota beta.
    destruct (String.eqb_spec (join_groups B) "") as [E|E].
    + apply join_groups_empty in E; [|done]. rewrite E in Hsplit. simpl in Hsplit.
      rewrite app_nil_r in Hsplit. rewrite <- Hv, Hsplit.
      assert (len = 8%nat) as -> by (rewrite E in HlB; simpl in HlB; lia). done.
    + rewrite parse6_join; [done|done|by intros ->|lia].
  - destruct (join_groups_hd a A' HA) as (c & s & E & Hc).
    rewrite <- append_assoc, E. cbn [String.append]. rewrite parse6_addr_hex by done.
    change (String c ((s +:+ "::") +:+ join_groups B)) with
      ((String c s +:+ "::") +:+ join_groups B).
    rewrite <- E, append_assoc. rewrite parse6_join_ell by (done || lia).
    rewrite app_nil_l, HlA.
    destruct (String.eqb_spec (join_groups B) "") as [EB|EB].
    + apply join_groups_empty in EB; [|done]. rewrite EB, app_nil_r in Hfin. done.
    + rewrite parse6_join; [done|done|by intros ->|lia].
Qed.

Lemma string6_chars n :
  str_forall addr_char (string6 n) = true /\ forall s, addr_kind (string6 n +:+ s) = Some colon.
Proof.
  pose proof (groups_u16 n) as Hu. pose proof (groups_length n) as Hl. unfold string6.
  set (gs := groups n) in *. clearbody gs.
  assert (forall gs, u16s gs -> str_forall addr_char (join_groups gs) = true) as Hj.
  { clear. induction 1 as [|g gs Hg Hf IH]; [done|].
    rewrite join_groups_cons, str_forall_app, (proj1 (hex4_chars g Hg)).
    case_decide; [done|]. by rewrite str_forall_app, IH. }
  assert (forall g gs s, u16s (g :: gs) -> gs <> [] ->
    addr_kind (join_groups (g :: gs) +:+ s) = Some colon) as Hk.
  { clear. intros g gs s Hf Hne. inversion Hf as [|?? Hg _]; subst.
    rewrite join_groups_cons, decide_False, append_assoc by done.
    by rewrite (proj2 (hex4_chars g Hg)). }
  destruct (best_run gs) as [st len] eqn:Eb. destruct (Nat.eqb_spec len 0).
  - split; [by apply Hj|]. intros s. destruct gs as [|g [|g' gs]]; [done|done|]. by apply Hk.
  - rewrite !str_forall_app, !Hj by (by apply Forall_take || by apply Forall_drop).
    split; [done|]. intros s. rewrite append_assoc.
    assert (u16s (take st gs)) as HA by (by apply Forall_take).
    destruct (take st gs) as [|a [|b A]]; [done| |by apply Hk].
    inversion HA as [|?? Ha _]; subst. simpl. by rewrite (proj2 (hex4_chars a Ha)).
Qed.

(** *** IPv4-mapped addresses *)

Lemma scan_hex_octet x r :
  0 <= x < 256 -> exists v L, 1 <= L /\
    scan_hex (octet x +:+ String dot r) 0 0 = Some (v, L, String dot r).
Proof.
  intros Hx.
  assert (forall d s off acc, 0 <= d <= 9 -> off <= 3 -> acc * 16 + d <= 65535 ->
    scan_hex (String (chr (48 + d)) s) off acc = scan_hex s (off + 1) (acc * 16 + d)) as Hd.
  { intros d s off acc H1 H2 H3. destruct (dec_char d H1) as (_ & _ & _ & Hv & _).
    cbn [scan_hex]. rewrite Hv.
    rewrite (proj2 (Z.ltb_ge 3 off)), (proj2 (Z.ltb_ge 65535 _)) by lia. done. }
  destruct (octet_digits x Hx) as [(d & -> & H0 & _)|[H|H]].
  - eexists _, 1. split; [lia|]. simpl String.append. rewrite Hd by lia. by apply scan_hex_end.
  - destruct H as (d1 & d0 & -> & H1 & H0 & _). eexists _, 2. split; [lia|].
    simpl String.append. rewrite !Hd by lia. by apply scan_hex_end.
  - destruct H as (d2 & d1 & d0 & -> & H2 & H1 & H0 & _). eexists _, 3. split; [lia|].
    simpl String.append. rewrite !Hd by lia. by apply scan_hex_end.
Qed.

Lemma parse6_embedded n :
  0 <= n < 2 ^ 32 ->
  parse6 7 [65535] (Some 0%nat) (string4 n) =
    Some ([65535] ++ [n / 2 ^ 24 mod 256 * 256 + n / 2 ^ 16 mod 256;
                      n / 2 ^ 8 mod 256 * 256 + n mod 256], Some 0%nat, "").
Proof.
  intros Hn. cbn [parse6].
  assert (exists v L r, 1 <= L /\ scan_hex (string4 n) 0 0 = Some (v, L, String dot r)) as
    (v & L & r & HL & ->).
  { unfold string4. destruct (scan_hex_octet (n / 2 ^ 24 mod 256)
      (octet (n / 2 ^ 16 mod 256) +:+ "." +:+ octet (n / 2 ^ 8 mod 256) +:+ "." +:+
       octet (n mod 256)) (mod256 _)) as (v & L & HL & E). eauto. }
  destruct (Z.eqb_spec L 0); [lia|]. change (Ascii.eqb dot dot) with true. cbv iota.
  by rewrite parse4_string4.
Qed.

Lemma parse6_mapped n :
  0 <= n < 2 ^ 128 -> Z.shiftr n 32 = 65535 ->
  parse6_addr ("::ffff:" +:+ string4 (n mod 2 ^ 32)) = Some n.
Proof.
  intros Hn Hs. rewrite Z.shiftr_div_pow2 in Hs by lia.
  assert (0 <= n mod 2 ^ 32 < 2 ^ 32) as Hm by (apply Z.mod_pos_bound; lia).
  set (m := n mod 2 ^ 32) in *.
  assert (n = 65535 * 2 ^ 32 + m) as Hnm by (unfold m; pose proof (Z.div_mod n (2 ^ 32)); lia).
  clearbody m. clear Hs. subst n.
  unfold parse6_addr. cbn [String.append]. change (Ascii.eqb colon colon) with true.
  cbv iota beta. change (Ascii.eqb colon colon && Ascii.eqb colon colon) with true. cbv iota.
  change (String "f" (String "f" (String "f" (String "f" (String colon (string4 m))))) =s? "")
    with false. cbv iota.
  change (String "f" (String "f" (String "f" (String "f" (String colon (string4 m))))))
    with (hex4 65535 +:+ String colon (string4 m)).
  rewrite parse6_colon by lia.
  assert (exists d s, 0 <= d <= 9 /\ string4 m = String (chr (48 + d)) s) as (d & s & Hd & E).
  { unfold string4. destruct (octet_cons _ (mod256 (m / 2 ^ 24))) as (d & s & Hd & ->).
    simpl. eauto. }
  rewrite E. destruct (dec_char d Hd) as (_ & _ & _ & _ & _ & -> & _). rewrite <- E.
  rewrite app_nil_l, parse6_embedded by done.
  unfold finish6. simpl length. simpl Nat.ltb. cbv iota. f_equal.
  pose proof (addr4_of_octets m Hm) as Ho. unfold addr4_of in Ho.
  cbn [take drop app replicate Nat.sub]. unfold groups_val. cbn [fold_left]. lia.
Qed.

(** ** Round trips *)

Lemma addr_chars_no_percent s :
  str_forall addr_char s = true -> str_forall (fun x => negb (Ascii.eqb x percent)) s = true.
Proof.
  apply str_forall_impl. intros c H. unfold addr_char in H. rewrite !andb_true_iff in H. tauto.
Qed.

Lemma addr_chars_no_slash s :
  str_forall addr_char s = true -> str_forall (fun x => negb (Ascii.eqb x slash)) s = true.
Proof.
  apply str_forall_impl. intros c H. unfold addr_char in H. rewrite !andb_true_iff in H. tauto.
Qed.

Lemma addr_chars_no_bar s :
  str_forall addr_char s = true -> str_forall (fun x => negb (Ascii.eqb x bar)) s = true.
Proof.
  apply str_forall_impl. intros c H. unfold addr_char in H. rewrite !andb_true_iff in H. tauto.
Qed.

(** An IPv6 body followed by its zone. *)
Lemma parseIPv6_zone s n z :
  str_forall addr_char s = true -> parse6_addr s = Some n ->
  parseIPv6 (s +:+ (if z =s? "" then "" else "%" +:+ z)) = Some (Addr6 n z).
Proof.
  intros Hs Hp. unfold parseIPv6. apply addr_chars_no_percent in Hs.
  destruct (String.eqb_spec z "") as [->|Hz].
  - rewrite append_nil_r, cut_at_none by done. by rewrite Hp.
  - change ("%" +:+ z) with (String percent z). rewrite cut_at_app by done.
    destruct (String.eqb_spec z ""); [done|]. by rewrite Hp.
Qed.

Lemma ParseAddr_String a : addr_ok a -> IsValid a = true -> ParseAddr (addr_String a) = Some a.
Proof.
  destruct a as [|n|n z]; intros Ha Hv; [done| |].
  - by apply parseIPv4_string4.
  - unfold addr_ok in Ha. cbn [addr_val BitLen] in Ha. cbn [addr_String].
    destruct (Is4In6 (Addr6 n z)) eqn:E.
    + unfold ParseAddr.
      replace (addr_kind _) with (Some colon) by done.
      change (Ascii.eqb colon dot) with false. cbv iota.
      apply parseIPv6_zone.
      * rewrite str_forall_app, (string4_chars (n mod 2 ^ 32)). done.
      * apply parse6_mapped; [done|]. unfold Is4In6 in E. by apply Z.eqb_eq in E.
    + unfold ParseAddr. rewrite (proj2 (string6_chars n)). simpl.
      apply parseIPv6_zone; [apply string6_chars|by apply parse6_string6].
Qed.

Lemma addr_String_chars a :
  Zone a = "" -> IsValid a = true -> str_forall addr_char (addr_String a) = true.
Proof.
  destruct a as [|n|n z]; intros Hz Hv; [done|apply string4_chars|].
  simpl in Hz. subst z. cbn [addr_String]. rewrite str_forall_app, andb_true_r.
  case_if; [|apply string6_chars]. by rewrite str_forall_app, (string4_chars (n mod 2 ^ 32)).
Qed.

(** Lengths are at most 128: checked one by one. *)
(** Decimal text is digits, after a sign. *)
Lemma pretty_N_go_chars (P : ascii -> bool) x s : (forall c, is_digit c = true -> P c = true) -> str_forall P s = true -> str_forall P (pretty_N_go x s) = true.
Proof.
  intros HP. revert s. induction (N.lt_wf_0 x) as [x _ IH]; intros s Hs.
  destruct (decide (x = 0)%N) as [->|Hx]; [by rewrite pretty_N_go_0|].
  rewrite pretty_N_go_step by lia. apply IH; [apply N.div_lt; lia|].
  cbn [str_forall]. rewrite Hs, andb_true_r. apply HP. unfold pretty_N_char. repeat case_match; done.
Qed.

Lemma pretty_Z_chars (P : ascii -> bool) (z : Z) : (forall c, is_digit c = true -> P c = true) -> P "-"%char = true -> str_forall P (pretty z) = true.
Proof.
  intros HP Hm. assert (forall n : N, str_forall P (pretty n) = true) as Hn.
  { intros n. unfold pretty, pretty_N. destruct (decide _); [cbn; by rewrite HP|]. by apply pretty_N_go_chars. }
  destruct z as [|p|p]; [cbn; by rewrite HP|apply (Hn (Npos p))|].
  change (str_forall P ("-" +:+ pretty (Npos p)) = true). rewrite str_forall_app, Hn. cbn. by rewrite Hm.
Qed.

Lemma pretty_Z_nonempty (z : Z) : pretty z <> "".
Proof.
  assert (forall x s, s <> "" -> pretty_N_go x s <> "") as Hg.
  { intros x. induction (N.lt_wf_0 x) as [x _ IH]; intros s Hs. destruct (decide (x = 0)%N) as [->|Hx]; [by rewrite pretty_N_go_0|].
    rewrite pretty_N_go_step by lia. apply IH; [apply N.div_lt; lia|done]. }
  destruct z as [|p|p]; [done| |done]. change (pretty (Zpos p)) with (pretty (Npos p)). unfold pretty, pretty_N. destruct (decide _); [done|].
  rewrite pretty_N_go_step by lia. by apply Hg.
Qed.

Lemma parse_bits_pretty b :
  0 <= b <= 128 ->
  parse_bits (pretty b) = Some b /\
  str_forall (fun x => negb (Ascii.eqb x slash)) (pretty b) = true.
Proof.
  intros Hb.
  assert (forallb (fun b => bool_decide (parse_bits (pretty b) = Some b) &&
            str_forall (fun x => negb (Ascii.eqb x slash)) (pretty b))
          (map Z.of_nat (seq 0 129)) = true) as H by (vm_compute; reflexivity).
  rewrite forallb_forall in H. specialize (H b).
  rewrite List.in_map_iff in H. apply andb_prop in H as [H1 H2].
  - by apply bool_decide_eq_true in H1.
  - exists (Z.to_nat b). split; [lia|]. apply List.in_seq. lia.
Qed.

Lemma ParsePrefix_String p :
  prefix_ok p -> pfx_IsValid p = true -> ParsePrefix (prefix_String p) = Some p.
Proof.
  intros Hok Hv. pose proof Hok as (Ha & Hz & _). destruct (valid_IsValid p Hok Hv) as [Hva Hb].
  assert (0 <= p_bits p <= 128) as Hb' by (destruct (p_addr p); simpl in Hb; lia).
  destruct (parse_bits_pretty _ Hb') as [Hp Hs].
  unfold prefix_String, ParsePrefix. rewrite Hv.
  change ("/" +:+ ?x) with (String slash x). rewrite cut_last_app by done.
  rewrite ParseAddr_String by done. unfold hasZone. rewrite Hz. simpl. rewrite andb_false_r, Hp.
  rewrite (proj2 (Z.ltb_ge _ _)) by lia. f_equal. unfold PrefixFrom. rewrite Hva.
  rewrite (proj2 (Z.leb_le 0 _)), (proj2 (Z.leb_le _ (BitLen _))) by lia.
  destruct p as [[| |n z] b]; simpl in *; try done. by subst.
Qed.

Lemma prefix_String_inj p q :
  prefix_ok p -> prefix_ok q -> pfx_IsValid p = true -> pfx_IsValid q = true ->
  prefix_String p = prefix_String q -> p = q.
Proof.
  intros ???? E. apply (f_equal ParsePrefix) in E. rewrite !ParsePrefix_String in E by done.
  congruence.
Qed.

Lemma addr_String_inj a b :
  addr_ok a -> addr_ok b -> IsValid a = true -> IsValid b = true ->
  addr_String a = addr_String b -> a = b.
Proof.
  intros ???? E. apply (f_equal ParseAddr) in E. rewrite !ParseAddr_String in E by done.
  congruence.
Qed.

(** ** What parsing returns is representable *)

Lemma parse4_bounds s f val dl l :
  0 <= val <= 255 -> Forall (fun x => 0 <= x <= 255) f ->
  parse4 s f val dl = Some l -> Forall (fun x => 0 <= x <= 255) l.
Proof.
  revert f val dl. induction s as [|c s IH]; intros f val dl Hv Hf; cbn [parse4].
  - case_match; [done|]. intros [= <-]. apply Forall_app. split; [done|].
    by apply Forall_singleton.
  - destruct (is_digit c) eqn:Ed.
    + case_match; [done|]. destruct (Z.ltb_spec 255 (val * 10 + (code c - 48))); [done|].
      apply IH; [|done]. unfold is_digit in Ed. bool_hyps. lia.
    + repeat case_match; try done. apply IH; [lia|]. apply Forall_app. split; [done|].
      by apply Forall_singleton.
Qed.

Lemma parse4_len s f val dl l : parse4 s f val dl = Some l -> (length f <= 3)%nat -> length l = 4%nat.
Proof.
  revert f val dl. induction s as [|c s IH]; intros f val dl; cbn [parse4].
  - destruct (Nat.ltb_spec (length f) 3); [done|]. intros [= <-] ?.
    rewrite length_app. simpl. lia.
  - repeat (case_match; try done); try (intros E ?; eapply IH; [exact E|]); try lia.
    rewrite length_app. simpl.
    match goal with H : (_ =? 3)%nat = false |- _ => apply Nat.eqb_neq in H end. lia.
Qed.

Lemma scan_hex_bounds s off acc v L r :
  0 <= acc <= 65535 -> scan_hex s off acc = Some (v, L, r) -> 0 <= v <= 65535.
Proof.
  revert off acc. induction s as [|c s IH]; intros off acc Ha; cbn [scan_hex].
  - by intros [= <- <- <-].
  - destruct (hex_val c) as [d|] eqn:Ed; [|by intros [= <- <- <-]].
    case_match; [done|]. destruct (Z.ltb_spec 65535 (acc * 16 + d)); [done|].
    apply IH. unfold hex_val in Ed. repeat case_match; simplify_eq; bool_hyps; lia.
Qed.

Lemma parse6_bounds fuel : forall gs ell s gs' ell' r,
  Forall (fun g => 0 <= g <= 65535) gs -> (length gs + fuel = 8)%nat ->
  (forall e, ell = Some e -> (e <= length gs)%nat) ->
  parse6 fuel gs ell s = Some (gs', ell', r) ->
  Forall (fun g => 0 <= g <= 65535) gs' /\ (length gs' <= 8)%nat.
Proof.
  induction fuel as [|fuel IH]; intros gs ell s gs' ell' r Hg Hl He; cbn [parse6].
  { intros [= <- <- <-]. split; [done|lia]. }
  destruct (scan_hex s 0 0) as [[[v L] rest]|] eqn:Es; [|done].
  apply scan_hex_bounds in Es; [|lia].
  assert (Forall (fun g => 0 <= g <= 65535) (gs ++ [v])) as Hg'
    by (apply Forall_app; split; [done|by apply Forall_singleton]).
  assert (length (gs ++ [v]) + fuel = 8)%nat as Hl' by (rewrite length_app; simpl; lia).
  case_match; [done|]. destruct rest as [|c rest].
  { intros [= <- <- <-]. split; [done|lia]. }
  case_match.
  - case_match; [done|]. destruct (Nat.ltb_spec 8 (length gs + 2)); [done|].
    destruct (parse4 s [] 0 0) as [l|] eqn:E4; [|done].
    apply parse4_bounds in E4; [|lia|constructor].
    destruct l as [|x [|y [|z [|w []]]]]; try done. intros [= <- <- <-].
    rewrite !Forall_cons in E4. split.
    + apply Forall_app. split; [done|]. repeat (apply Forall_cons; split; [lia|]). constructor.
    + rewrite length_app. simpl. lia.
  - case_match; [done|]. destruct rest as [|c2 rest]; [done|]. case_match.
    + destruct ell; [done|]. case_match.
      * intros [= <- <- <-]. split; [done|lia].
      * apply IH; [done|done|]. intros e [= <-]. lia.
    + apply IH; [done|done|]. intros e E. specialize (He e E). rewrite length_app. lia.
Qed.

Lemma groups_val_bounds gs :
  Forall (fun g => 0 <= g <= 65535) gs -> 0 <= groups_val gs < 2 ^ (16 * Z.of_nat (length gs)).
Proof.
  unfold groups_val.
  assert (forall acc k, 0 <= k -> 0 <= acc < 2 ^ k -> Forall (fun g => 0 <= g <= 65535) gs ->
    0 <= fold_left (fun acc g => acc * 65536 + g) gs acc < 2 ^ (k + 16 * Z.of_nat (length gs))) as H.
  { induction gs as [|g gs IH]; intros acc k Hk Ha Hf.
    - simpl. by rewrite Z.add_0_r.
    - inversion Hf as [|?? Hg Hf']; subst. cbn [fold_left].
      replace (k + 16 * Z.of_nat (length (g :: gs))) with ((k + 16) + 16 * Z.of_nat (length gs))
        by (simpl length; lia).
      apply IH; [lia| |done]. rewrite Z.pow_add_r by lia. change (2 ^ 16) with 65536. lia. }
  intros Hf. specialize (H 0 0). rewrite Z.add_0_l in H. by apply H.
Qed.

Lemma finish6_bounds r n :
  (forall gs ell s, r = Some (gs, ell, s) ->
     Forall (fun g => 0 <= g <= 65535) gs /\ (length gs <= 8)%nat) ->
  finish6 r = Some n -> 0 <= n < 2 ^ 128.
Proof.
  intros Hr. unfold finish6. destruct r as [[[gs ell] []]|]; try done.
  destruct (Hr _ _ _ eq_refl) as [Hf Hl].
  destruct (Nat.ltb_spec (length gs) 8).
  - destruct ell as [e|]; [|done]. intros [= <-].
    assert (Forall (fun g => 0 <= g <= 65535)
              (take e gs ++ replicate (8 - length gs) 0 ++ drop e gs)) as Hf'.
    { rewrite !Forall_app. split_and!; [by apply Forall_take| |by apply Forall_drop].
      apply Forall_replicate. lia. }
    apply groups_val_bounds in Hf'. rewrite !length_app, length_replicate in Hf'.
    rewrite length_take, length_drop in Hf'.
    by replace (16 * Z.of_nat (e `min` length gs + (8 - length gs + (length gs - e)))) with 128
      in Hf' by lia.
  - destruct ell; [done|]. intros [= <-]. apply groups_val_bounds in Hf.
    by replace (16 * Z.of_nat (length gs)) with 128 in Hf by lia.
Qed.

Lemma parse6_addr_bounds s n : parse6_addr s = Some n -> 0 <= n < 2 ^ 128.
Proof.
  assert (forall ell s', ell = None \/ ell = Some 0%nat ->
    finish6 (parse6 8 [] ell s') = Some n -> 0 <= n < 2 ^ 128) as H.
  { intros ell s' He. apply finish6_bounds. intros gs ell' r. apply parse6_bounds; [constructor|done|].
    intros e ->. destruct He as [|[= ->]]; [done|]. lia. }
  unfold parse6_addr. destruct s as [|c1 [|c2 s]]; try (apply H; auto).
  case_match; [|apply H; auto]. case_match; [|apply H; auto]. intros [= <-]. lia.
Qed.

Lemma ParseAddr_ok s a : ParseAddr s = Some a -> addr_ok a /\ IsValid a = true.
Proof.
  unfold ParseAddr. repeat case_match; try done.
  - unfold parseIPv4. destruct (parse4 s [] 0 0) as [l|] eqn:E; [|done].
    apply parse4_bounds in E; [|lia|constructor].
    destruct l as [|x [|y [|z [|w []]]]]; try done. intros [= <-].
    rewrite !Forall_cons in E. unfold addr_ok, addr4_of. simpl. split; [|done].
    change (Z.pow_pos 2 32) with 4294967296. lia.
  - unfold parseIPv6.
    destruct (cut_at percent s) as [[s' z]|]; [case_match; [done|]|];
      (destruct (parse6_addr _) as [n|] eqn:E; [|done]); simpl; intros [= <-];
      apply parse6_addr_bounds in E; done.
Qed.

Lemma ParsePrefix_ok s p : ParsePrefix s = Some p -> prefix_ok p /\ pfx_IsValid p = true.
Proof.
  unfold ParsePrefix. destruct (cut_last slash s) as [[a b]|]; [|done].
  destruct (ParseAddr a) as [ip|] eqn:Ea; [|done]. apply ParseAddr_ok in Ea as [Ha Hv].
  case_match; [done|]. destruct (parse_bits b) as [bits|] eqn:Eb; [|done].
  destruct (Z.ltb_spec (BitLen ip) bits); [done|]. intros [= <-].
  split; [by apply PrefixFrom_ok|]. unfold pfx_IsValid, PrefixFrom. simpl. rewrite Hv.
  assert (0 <= bits) as Hb.
  { assert (forall s acc, 0 <= acc -> digits_val s acc = Some bits -> 0 <= bits) as Hdv.
    { clear. induction s as [|c s IH]; intros acc Ha; simpl; [by intros [= <-]|].
      destruct (is_digit c) eqn:Ed; [|done]. apply IH. unfold is_digit in Ed. bool_hyps. lia. }
    unfold parse_bits in Eb. destruct b; [done|]. case_match; [done|]. by eapply Hdv; [|exact Eb]. }
  rewrite (proj2 (Z.leb_le 0 bits)), (proj2 (Z.leb_le bits _)) by lia. simpl.
  apply Z.leb_le. lia.
Qed.
