(* ===== verification/Aggregate.v ===== *)
(** * Prefix aggregation (internal/routing/aggregate.go)

    [Aggregate] reduces a set of prefixes before they become routes. The
    theorems say it is exact (the same addresses, no more and no fewer),
    irredundant, canonical (the result depends only on the addresses covered)
    and hence minimal, and that the merge loop terminates. *)

From S2P Require Import Prelude Netip.

(** ** The code *)

(** The order of [sortPrefixes]: IPv4 first, then address, then length. *)
Definition prefix_less (p q : prefix) : bool :=
  if negb (Bool.eqb (Is4 (p_addr p)) (Is4 (p_addr q))) then Is4 (p_addr p)
  else match AddrCompare (p_addr p) (p_addr q) with
       | Eq => p_bits p <? p_bits q
       | c => lt_of c
       end.

Definition sortPrefixes (l : list prefix) : list prefix := slice_stable prefix_less l.

(** One pass over the sorted prefixes: [used] only ever marks the element being
    looked at and the one after it, so the rest of the list is what is left. *)
Fixpoint merge_scan (l : list prefix) : list prefix * bool :=
  match l with
  | [] => ([], false)
  | p :: l' =>
      match l' with
      | q :: l'' =>
          let par := Masked (PrefixFrom (p_addr p) (p_bits p - 1)) in
          if (0 <? p_bits p) && (p_bits p =? p_bits q)
             && Contains par (p_addr p) && Contains par (p_addr q)
             && negb (bool_decide (p_addr p = p_addr q))
          then let '(out, _) := merge_scan l'' in (par :: out, true)
          else let '(out, changed) := merge_scan l' in (p :: out, changed)
      | [] => ([p], false)
      end
  end.

Definition mergeOnce (l : list prefix) : list prefix * bool :=
  merge_scan (sortPrefixes l).

(** [for { merged, changed := mergeOnce(kept); kept = merged; if !changed {
    break } }], [fuel] bounding the iterations. *)
Fixpoint merge_loop (fuel : nat) (kept : list prefix) : list prefix :=
  match fuel with
  | O => kept
  | S fuel' =>
      let '(merged, changed) := mergeOnce kept in
      if changed then merge_loop fuel' merged else merged
  end.

(** Dropping the prefixes held by an earlier one. *)
Definition drop_covered (norm : list prefix) : list prefix :=
  fold_left (fun kept p => if existsb (fun q => holds q p) kept then kept else kept ++ [p])
            norm [].

(** Every merge shortens the list, so its length is enough fuel
    ([merge_loop_fixpoint]). *)
Definition Aggregate (prefixes : list prefix) : list prefix :=
  let norm := sortPrefixes (map Masked (keep_if pfx_IsValid prefixes)) in
  let kept := drop_covered norm in
  merge_loop (S (length kept)) kept.

(** ** The order *)

Definition prefix_cmp (p q : prefix) : comparison :=
  lex (Z.b2z (negb (Is4 (p_addr p))) ?= Z.b2z (negb (Is4 (p_addr q))))
      (lex (AddrCompare (p_addr p) (p_addr q)) (p_bits p ?= p_bits q)).

Lemma AddrCompare_lex a b :
  AddrCompare a b =
  lex (BitLen a ?= BitLen b) (lex (addr_val a ?= addr_val b) (String.compare (Zone a) (Zone b))).
Proof. unfold AddrCompare, lex. by destruct a, b; simpl; repeat case_match. Qed.

#[export] Instance AddrCompare_ord : OrdCmp AddrCompare.
Proof.
  assert (OrdCmp (fun a b => lex (BitLen a ?= BitLen b)
    (lex (addr_val a ?= addr_val b) (String.compare (Zone a) (Zone b))))) as [H1 H2 H3]
    by apply _.
  split; intros *; rewrite !AddrCompare_lex; [apply H1|apply H2|apply H3].
Qed.

#[export] Instance prefix_cmp_ord : OrdCmp prefix_cmp.
Proof. unfold prefix_cmp. apply _. Qed.

Lemma prefix_less_cmp p q : prefix_less p q = lt_of (prefix_cmp p q).
Proof.
  unfold prefix_less, prefix_cmp, lex.
  destruct (Is4 (p_addr p)), (Is4 (p_addr q)); simpl; try done;
    destruct (AddrCompare _ _); simpl; try done;
    unfold Z.ltb; by destruct (_ ?= _).
Qed.

#[export] Instance prefix_less_sw : StrictWeak prefix_less.
Proof.
  destruct (lt_of_sw prefix_cmp) as [H1 H2].
  split; intros *; rewrite !prefix_less_cmp; [apply H1|apply H2].
Qed.

(** The prefixes the code sorts: valid and masked. *)
Definition canon (p : prefix) : Prop :=
  prefix_ok p /\ masked p /\ pfx_IsValid p = true.

#[export] Instance canon_dec p : Decision (canon p).
Proof. unfold canon. apply _. Defined.

Lemma canon_Masked p : prefix_ok p -> pfx_IsValid p = true -> canon (Masked p).
Proof.
  intros. split; [by apply Masked_ok|]. split; [by apply Masked_masked|].
  by rewrite Masked_valid_iff.
Qed.

(** On those, the order is by family, then number, then length. *)
Lemma prefix_less_canon p q :
  canon p -> canon q -> prefix_less p q = true <->
  BitLen (p_addr p) < BitLen (p_addr q) \/
  BitLen (p_addr p) = BitLen (p_addr q) /\
    (addr_val (p_addr p) < addr_val (p_addr q) \/
     addr_val (p_addr p) = addr_val (p_addr q) /\ p_bits p < p_bits q).
Proof.
  intros (Hp & _ & Hvp) (Hq & _ & Hvq).
  destruct (valid_IsValid p Hp Hvp) as [Hp1 _]. destruct (valid_IsValid q Hq Hvq) as [Hq1 _].
  destruct Hp as (_ & Hz1 & _), Hq as (_ & Hz2 & _).
  unfold prefix_less. rewrite AddrCompare_lex, Hz1, Hz2. unfold lex. simpl.
  destruct (p_addr p), (p_addr q); simpl in *; try done; try lia;
    (destruct (Z.compare_spec n n0); simpl; rewrite ?Z.ltb_lt; intuition (try done; lia)).
Qed.

Lemma prefix_less_total p q :
  canon p -> canon q -> prefix_less p q = false -> prefix_less q p = false -> p = q.
Proof.
  intros Hp Hq H1 H2.
  assert (~ prefix_less p q = true) as N1 by congruence.
  assert (~ prefix_less q p = true) as N2 by congruence.
  rewrite prefix_less_canon in N1, N2 by done.
  destruct Hp as (? & ? & ?), Hq as (? & ? & ?). apply prefix_ext; [done..|lia|lia|lia].
Qed.

Lemma sortPrefixes_perm l : sortPrefixes l ≡ₚ l.
Proof. apply slice_stable_perm. Qed.

Abbreviation sorted := (StronglySorted (fun x y => prefix_less y x = false)).

Lemma sortPrefixes_sorted l : sorted (sortPrefixes l).
Proof. apply slice_stable_sorted, _. Qed.

Lemma sortPrefixes_id l : sorted l -> sortPrefixes l = l.
Proof. apply slice_stable_id. Qed.

(** ** Disjoint lists of prefixes *)

(** Each prefix shares no address with the ones after it. *)
Fixpoint disjoint_list (l : list prefix) : Prop :=
  match l with
  | [] => True
  | p :: l' => (forall a, Contains p a = true -> covered l' a = false) /\ disjoint_list l'
  end.

Lemma covered_false_in l a p : covered l a = false -> p ∈ l -> Contains p a = false.
Proof. intros H Hp. unfold covered in H. rewrite existsb_not_in in H. by apply H. Qed.

Lemma disjoint_list_spec l :
  Forall canon l ->
  disjoint_list l <->
  NoDup l /\ forall p q a, p ∈ l -> q ∈ l ->
    Contains p a = true -> Contains q a = true -> p = q.
Proof.
  induction l as [|p l IH]; intros Hc; simpl.
  { split; [|done]. split; [constructor|]. set_solver. }
  inversion Hc as [|?? Hp Hl]; subst. rewrite IH by done. split.
  - intros (Hd & Hn & Hpw). split.
    + constructor; [|done]. intros Hin. destruct Hp as (Hok & _ & Hv).
      pose proof (Contains_self p Hok Hv) as Hself.
      pose proof (covered_false_in _ _ _ (Hd _ Hself) Hin). congruence.
    + intros x y a Hx Hy Hxa Hya. rewrite elem_of_cons in Hx, Hy.
      destruct Hx as [->|Hx], Hy as [->|Hy]; try done.
      * by rewrite (covered_false_in _ _ _ (Hd _ Hxa) Hy) in Hya.
      * by rewrite (covered_false_in _ _ _ (Hd _ Hya) Hx) in Hxa.
      * eauto.
  - intros [Hn Hpw]. apply NoDup_cons in Hn as [Hnin Hn]. split; [|split; [done|]].
    + intros a Ha. apply existsb_not_in. intros q Hq.
      destruct (Contains q a) eqn:E; [|done]. exfalso. apply Hnin.
      rewrite (Hpw p q a); set_solver.
    + intros x y a Hx Hy. apply Hpw; set_solver.
Qed.

Lemma disjoint_list_perm l1 l2 :
  Forall canon l1 -> l1 ≡ₚ l2 -> disjoint_list l1 -> disjoint_list l2.
Proof.
  intros Hc Hp. assert (Forall canon l2) as Hc2 by (by rewrite <- Hp).
  rewrite !disjoint_list_spec by done. intros [Hn H]. split; [by rewrite <- Hp|].
  intros p q a. rewrite <- !Hp. apply H.
Qed.

(** Canonical prefixes, no two sharing an address. *)
Definition disjoint_canon (l : list prefix) : Prop :=
  Forall canon l /\ disjoint_list l.

Lemma disjoint_canon_holds l p q :
  disjoint_canon l -> p ∈ l -> q ∈ l -> holds p q = true -> p = q.
Proof.
  intros [Hc Hd] Hp Hq H. apply disjoint_list_spec in Hd as [_ Hd]; [|done].
  rewrite Forall_forall in Hc. destruct (Hc q Hq) as (Hok & _ & Hv).
  apply (Hd p q (p_addr q)); [done|done| |by apply Contains_self].
  unfold holds in H. by bool_hyps.
Qed.

(** ** Dropping covered prefixes *)

Lemma holds_less p q :
  canon p -> canon q -> holds p q = true -> p = q \/ prefix_less p q = true.
Proof.
  intros Hp Hq H. rewrite prefix_less_canon by done.
  destruct Hp as (Hp & Hmp & Hvp), Hq as (Hq & Hmq & Hvq).
  apply holds_spec in H as (Hb & El & Hd); [|done..].
  pose proof (masked_val p Hp Hmp Hvp) as E. rewrite <- Hd in E.
  pose proof (Z.mul_div_le (addr_val (p_addr q)) (2 ^ host_bits p)).
  assert (0 < 2 ^ host_bits p).
  { apply Z.pow_pos_nonneg; [lia|]. unfold host_bits.
    destruct (valid_IsValid p Hp Hvp). lia. }
  destruct (decide (addr_val (p_addr p) = addr_val (p_addr q) /\ p_bits p = p_bits q)) as [[]|].
  - left. by apply prefix_ext.
  - right. right. split; [done|]. lia.
Qed.

Lemma drop_covered_step kept p :
  Forall canon kept -> canon p -> disjoint_list kept ->
  (forall q, q ∈ kept -> prefix_less p q = false) ->
  let kept' := if existsb (fun q => holds q p) kept then kept else kept ++ [p] in
  Forall canon kept' /\ disjoint_list kept' /\
  (forall a, covered kept' a = covered (kept ++ [p]) a).
Proof.
  intros Hk Hp Hd Hless. destruct (existsb _ kept) eqn:E; simpl.
  - split; [done|]. split; [done|]. intros a. rewrite covered_app. simpl.
    rewrite orb_false_r. destruct (Contains p a) eqn:Ha; [|by rewrite orb_false_r].
    rewrite orb_true_r. apply existsb_in in E as (q & Hq & Hqp).
    apply covered_in. exists q. split; [done|]. rewrite Forall_forall in Hk.
    eapply holds_Contains; [apply Hk; done|apply Hp|done|done].
  - assert (Forall canon (kept ++ [p])) as Hc
      by (apply Forall_app; split; [done|by apply Forall_singleton]).
    split; [done|]. split; [|done].
    apply (disjoint_list_perm (p :: kept)); [by constructor| |].
    { apply Permutation_cons_append. }
    split; [|done]. intros a Ha. apply existsb_not_in. intros q Hq.
    destruct (Contains q a) eqn:Hqa; [|done]. exfalso.
    rewrite existsb_not_in in E. specialize (E q Hq). specialize (Hless q Hq).
    rewrite Forall_forall in Hk. pose proof (Hk q Hq) as Hcq.
    destruct (Z.le_ge_cases (p_bits q) (p_bits p)) as [Hb|Hb].
    + rewrite (Contains_nested q p a) in E; [done|apply Hcq|apply Hp|done|done|done].
    + assert (holds p q = true) as Hh
        by (eapply Contains_nested; [apply Hp|apply Hcq|done|done|done]).
      destruct (holds_less p q Hp Hcq Hh) as [<-|]; [|congruence].
      rewrite holds_refl in E; [done|apply Hp|apply Hp].
Qed.

Lemma drop_covered_fold norm kept :
  sorted norm -> Forall canon norm -> disjoint_canon kept ->
  (forall p q, p ∈ norm -> q ∈ kept -> prefix_less p q = false) ->
  let r := fold_left (fun kept p =>
             if existsb (fun q => holds q p) kept then kept else kept ++ [p]) norm kept in
  disjoint_canon r /\ (forall a, covered r a = covered (kept ++ norm) a).
Proof.
  intros Hs. revert kept. induction Hs as [|p norm Hs IH Hp]; intros kept Hn [Hk Hd] Hless; simpl.
  { split; [done|]. intros a. by rewrite app_nil_r. }
  inversion Hn as [|?? Hcp Hcn]; subst.
  destruct (drop_covered_step kept p Hk Hcp Hd) as (Hk' & Hd' & Hcov).
  { intros q Hq. apply Hless; set_solver. }
  simpl in *. destruct (IH _ Hcn (conj Hk' Hd')) as [Hgood Hcov2].
  { intros x q Hx Hq.
    assert (q ∈ kept ++ [p]) as Hq' by (destruct (existsb _ kept); set_solver).
    apply elem_of_app in Hq' as [Hq'|Hq']; [apply Hless; set_solver|].
    apply list_elem_of_singleton in Hq' as ->. rewrite Forall_forall in Hp. by apply Hp. }
  split; [done|]. intros a. rewrite Hcov2, !covered_app, Hcov, covered_app. simpl.
  by rewrite orb_false_r, orb_assoc.
Qed.

Lemma drop_covered_spec norm :
  sorted norm -> Forall canon norm ->
  disjoint_canon (drop_covered norm) /\
  forall a, covered (drop_covered norm) a = covered norm a.
Proof.
  intros Hs Hc. apply (drop_covered_fold norm []); [done|done|by split|set_solver].
Qed.

(** ** Merging siblings *)

(** The test of [mergeOnce]: two neighbours are the halves of one prefix. *)
Definition merges (p q : prefix) : bool :=
  let par := Masked (PrefixFrom (p_addr p) (p_bits p - 1)) in
  (0 <? p_bits p) && (p_bits p =? p_bits q)
  && Contains par (p_addr p) && Contains par (p_addr q)
  && negb (bool_decide (p_addr p = p_addr q)).

Lemma child_inj p b1 b2 : splits p -> child p b1 = child p b2 -> b1 = b2.
Proof.
  intros Hs E. destruct (child_ok p b1 Hs) as [Hok _].
  pose proof (Contains_self _ Hok (child_valid p b1 Hs)) as H1.
  assert (Contains (child p b2) (p_addr (child p b1)) = true) as H2 by congruence.
  destruct b1, b2; try done; exfalso; eauto using child_disjoint.
Qed.

Lemma merges_spec p q :
  canon p -> canon q ->
  merges p q = true <->
  exists r b, splits r /\ p = child r b /\ q = child r (negb b).
Proof.
  intros (Hp & Hmp & Hvp) (Hq & Hmq & Hvq). unfold merges. fold (parent p). split.
  - intros H. bool_hyps. destruct (parent_splits p Hp) as (Hs & Hb & _); [done|].
    destruct (parent_child p Hp Hmp) as [b Eb]; [done|].
    assert (holds (parent p) q = true) as Hhq.
    { unfold holds. apply andb_true_intro. split; [apply Z.leb_le; lia|done]. }
    destruct (holds_split _ q Hs Hq Hhq) as [b' Hc]; [lia|].
    destruct (child_ok _ b' Hs) as [Hcok Hcm].
    assert (q = child (parent p) b') as Eq.
    { symmetry. apply holds_antisym; [done..|].
      eapply (Contains_nested q _ (p_addr q)); [done|done|by apply Contains_self| |].
      - unfold holds in Hc. by bool_hyps.
      - unfold child. simpl. lia. }
    exists (parent p), b. split; [done|]. split; [done|]. rewrite Eq. f_equal.
    destruct (decide (b = b')) as [<-|]; [|by destruct b, b']. exfalso.
    congruence.
  - intros (r & b & Hs & -> & ->). pose proof Hs as (Hr & Hrm & Hrb).
    destruct (parent_splits (child r b) Hp) as (Hs' & Hb' & Hh).
    { unfold child. simpl. lia. }
    assert (parent (child r b) = r) as Er.
    { pose proof Hs' as (Hr' & Hrm' & _).
      assert (Contains r (p_addr (child r b)) = true) as Hc.
      { pose proof (holds_child r b Hs) as Hh'. unfold holds in Hh'. by bool_hyps. }
      unfold holds in Hh. bool_hyps. apply holds_antisym; [done..| |];
        (eapply Contains_nested; [done|done| | |]; [done|done|]);
        rewrite Hb'; unfold child; simpl; lia. }
    rewrite Er. pose proof (holds_child r b Hs) as H1.
    pose proof (holds_child r (negb b) Hs) as H2. unfold holds in H1, H2. bool_hyps.
    repeat (apply andb_true_intro; split); try done.
    + apply Z.ltb_lt. unfold child. simpl. lia.
    + apply Z.eqb_eq. done.
    + apply negb_true_iff, bool_decide_eq_false_2. intros E.
      apply (f_equal (fun a => mkPrefix a (p_bits r + 1))) in E.
      apply (child_inj r b (negb b)) in E; [by destruct b|done].
Qed.

Lemma merges_parent p q :
  canon p -> canon q -> merges p q = true ->
  canon (parent p) /\ forall a, Contains (parent p) a = Contains p a || Contains q a.
Proof.
  intros Hp Hq H. apply merges_spec in H as (r & b & Hs & Ep & Eq); [|done..].
  pose proof Hs as (Hr & Hrm & Hrb). destruct Hp as (Hp & Hmp & Hvp).
  assert (0 < p_bits p) as Hb by (rewrite Ep; unfold child; simpl; lia).
  destruct (parent_splits p Hp Hb) as (Hs' & Hb' & Hh).
  assert (parent p = r) as ->.
  { destruct Hs' as (Hr' & Hrm' & _). pose proof (holds_child r b Hs) as Hc.
    rewrite <- Ep in Hc. unfold holds in Hh, Hc. bool_hyps.
    apply holds_antisym; [done..| |];
      (eapply Contains_nested; [done|done| | |]; [done|done|]);
      rewrite Hb', Ep; unfold child; simpl; lia. }
  split; [split; [done|]; split; [done|by apply splits_valid]|].
  intros a. rewrite (Contains_child r a Hs), Ep, Eq. destruct b; simpl; [apply orb_comm|done].
Qed.

Lemma merge_scan_cons2 p q l :
  merge_scan (p :: q :: l) =
  if merges p q then (parent p :: (merge_scan l).1, true)
  else (p :: (merge_scan (q :: l)).1, (merge_scan (q :: l)).2).
Proof.
  change (merge_scan (p :: q :: l)) with
    (if merges p q then let '(out, _) := merge_scan l in (parent p :: out, true)
     else let '(out, changed) := merge_scan (q :: l) in (p :: out, changed)).
  destruct (merges p q); [by destruct (merge_scan l)|by destruct (merge_scan (q :: l))].
Qed.

(** Recursion two elements at a time, as the scan goes. *)
Lemma list_ind2 {A} (P : list A -> Prop) :
  P [] -> (forall x, P [x]) -> (forall x y l, P l -> P (y :: l) -> P (x :: y :: l)) ->
  forall l, P l.
Proof.
  intros H0 H1 H2 l. enough (P l /\ forall x, P (x :: l)) by tauto.
  induction l as [|y l [IH1 IH2]]; split; eauto.
Qed.

Lemma merge_scan_spec l :
  disjoint_canon l ->
  disjoint_canon (merge_scan l).1 /\
  (forall a, covered (merge_scan l).1 a = covered l a) /\
  (if (merge_scan l).2 then (length (merge_scan l).1 < length l)%nat
   else (merge_scan l).1 = l).
Proof.
  induction l as [|p|p q l IH1 IH2] using list_ind2; intros [Hc Hd]; [done|done|].
  inversion Hc as [|?? Hp Hc']; subst. inversion Hc' as [|?? Hq Hc'']; subst.
  destruct Hd as (Hdp & Hdq & Hdl). rewrite merge_scan_cons2.
  destruct (merges p q) eqn:E; cbn [fst snd].
  - destruct (IH1 (conj Hc'' Hdl)) as ([Hg1 Hg2] & Hcov & Hlen).
    destruct (merges_parent p q Hp Hq E) as [Hpar Hcp].
    split; [split; [by constructor|]|split].
    + split; [|done]. intros a Ha. rewrite Hcov. rewrite Hcp in Ha.
      apply orb_prop in Ha as [Ha|Ha]; [|by apply Hdq].
      specialize (Hdp a Ha). simpl in Hdp. by apply orb_false_elim in Hdp as [_ ?].
    + intros a. by rewrite !covered_cons, Hcp, Hcov, orb_assoc.
    + simpl. destruct (merge_scan l).2; [lia|]. rewrite Hlen. lia.
  - destruct (IH2 (conj Hc' (conj Hdq Hdl))) as ([Hg1 Hg2] & Hcov & Hlen).
    split; [split; [by constructor|]|split].
    + split; [|done]. intros a Ha. rewrite Hcov. by apply Hdp.
    + intros a. by rewrite !(covered_cons p), Hcov.
    + destruct (merge_scan (q :: l)).2; [cbn [length] in *; lia|by rewrite Hlen].
Qed.

(** A pass that changes nothing saw no mergeable neighbours. *)
Lemma merge_scan_stable l1 p q l2 :
  (merge_scan (l1 ++ p :: q :: l2)).2 = false -> merges p q = false.
Proof.
  induction l1 as [|x l1 IH]; simpl app; intros H.
  - rewrite merge_scan_cons2 in H. by destruct (merges p q).
  - destruct (l1 ++ p :: q :: l2) as [|y l'] eqn:E; [by destruct l1|].
    rewrite merge_scan_cons2 in H. destruct (merges x y); [done|]. by apply IH.
Qed.

(** ** The loop *)

Lemma mergeOnce_spec l :
  disjoint_canon l ->
  disjoint_canon (mergeOnce l).1 /\
  (forall a, covered (mergeOnce l).1 a = covered l a) /\
  (if (mergeOnce l).2 then (length (mergeOnce l).1 < length l)%nat
   else (mergeOnce l).1 = sortPrefixes l).
Proof.
  intros [Hc Hd]. unfold mergeOnce. pose proof (sortPrefixes_perm l) as Hp.
  destruct (merge_scan_spec (sortPrefixes l)) as (Hg & Hcov & Hlen).
  { split; [by rewrite Hp|]. by apply (disjoint_list_perm l). }
  split; [done|]. split.
  - intros a. rewrite Hcov. by apply covered_perm.
  - destruct (merge_scan (sortPrefixes l)).2; [|done]. apply Permutation_length in Hp. lia.
Qed.

(** The loop reaches a list one more pass leaves alone: the fuel is enough. *)
Lemma merge_loop_spec fuel l :
  (length l < fuel)%nat -> disjoint_canon l ->
  let r := merge_loop fuel l in
  disjoint_canon r /\ sorted r /\ (forall a, covered r a = covered l a) /\
  (length r <= length l)%nat /\ mergeOnce r = (r, false).
Proof.
  revert l. induction fuel as [|fuel IH]; intros l Hf Hg; [lia|]. simpl.
  destruct (mergeOnce_spec l Hg) as (Hg' & Hcov & Hlen).
  destruct (mergeOnce l) as [m c] eqn:E. simpl in Hg', Hcov, Hlen. destruct c.
  - destruct (IH m) as (H1 & H2 & H3 & H4 & H5); [lia|done|].
    split; [done|]. split; [done|]. split; [|split; [lia|done]].
    intros a. by rewrite H3, Hcov.
  - subst m. split; [done|]. split; [apply sortPrefixes_sorted|].
    split; [done|]. split; [by rewrite sortPrefixes_perm|].
    unfold mergeOnce in *. by rewrite (sortPrefixes_id (sortPrefixes l)) by apply sortPrefixes_sorted.
Qed.

(** ** The result of [Aggregate] *)

(** No two elements are the halves of one prefix. *)
Definition no_siblings (l : list prefix) : Prop :=
  forall r, splits r -> child r false ∈ l -> child r true ∈ l -> False.

Lemma child_less r : splits r -> prefix_less (child r false) (child r true) = true.
Proof.
  intros Hs. destruct (child_ok r false Hs) as [H0 Hm0], (child_ok r true Hs) as [H1 Hm1].
  apply prefix_less_canon; [by split; [|split; [|apply child_valid]]..|].
  right. split; [by rewrite !child_BitLen|]. left. unfold child. simpl.
  destruct Hs as (Hok & _ & Hb). pose proof (splits_valid r) as Hv.
  assert (IsValid (p_addr r) = true) as Hva.
  { destruct Hok as (_ & _ & [?|[? _]]); [lia|done]. }
  rewrite !set_val_val by done. unfold host_bits.
  assert (0 < 2 ^ (BitLen (p_addr r) - p_bits r - 1)) by (apply Z.pow_pos_nonneg; lia). lia.
Qed.

(** Whatever sorts between two halves of a prefix shares an address with one. *)
Lemma between_siblings r x :
  splits r -> canon x ->
  prefix_less x (child r false) = false -> prefix_less (child r true) x = false ->
  exists b, Contains (child r b) (p_addr x) = true.
Proof.
  intros Hs Hx H0 H1.
  destruct (child_ok r false Hs) as [Hc0 Hm0], (child_ok r true Hs) as [Hc1 Hm1].
  assert (canon (child r false)) as C0 by (by split; [|split; [|apply child_valid]]).
  assert (canon (child r true)) as C1 by (by split; [|split; [|apply child_valid]]).
  assert (~ prefix_less x (child r false) = true) as N0 by congruence.
  assert (~ prefix_less (child r true) x = true) as N1 by congruence.
  rewrite prefix_less_canon in N0, N1 by done. rewrite !child_BitLen in *.
  destruct (child_block r false Hs) as (Hh0 & Hd0 & Hz0).
  destruct (child_block r true Hs) as (Hh1 & Hd1 & Hz1).
  assert (BitLen (p_addr x) = BitLen (p_addr r)) as Ex by lia.
  destruct Hx as (Hx & Hmx & Hvx). destruct (valid_IsValid x Hx Hvx) as [Hxv Hxb].
  assert (1 <= host_bits r) as Hk by (destruct Hs as (_ & _ & ?); unfold host_bits; lia).
  set (k := host_bits r - 1) in *. assert (0 < 2 ^ k) by lia.
  pose proof Hx as (_ & Hxz & _).
  assert (addr_val (p_addr x) / 2 ^ k = addr_val (p_addr (child r false)) / 2 ^ k \/
          addr_val (p_addr x) / 2 ^ k = addr_val (p_addr (child r true)) / 2 ^ k) as Hblk.
  { set (m := addr_val (p_addr r) / 2 ^ host_bits r) in *.
    assert (addr_val (p_addr (child r false)) <= addr_val (p_addr x)
            <= addr_val (p_addr (child r true))) as [Hlo Hhi] by lia.
    apply (Z.div_le_mono _ _ (2 ^ k)) in Hlo; [|done].
    apply (Z.div_le_mono _ _ (2 ^ k)) in Hhi; [|done]. lia. }
  destruct Hblk; [exists false|exists true]; apply Contains_spec; try done;
    rewrite ?child_BitLen, ?Hh0, ?Hh1; destruct Hs as (_ & _ & ?);
    (repeat split; [unfold child; simpl; lia|done|done|done|done]).
Qed.

Lemma no_siblings_stable l :
  disjoint_canon l -> sorted l -> (mergeOnce l).2 = false -> no_siblings l.
Proof.
  intros [Hc Hd] Hs Hst r Hr H0 H1. unfold mergeOnce in Hst.
  rewrite sortPrefixes_id in Hst by done.
  pose proof (child_less r Hr) as Hless.
  apply list_elem_of_split in H0 as (l1 & l' & El). rewrite El in H1.
  rewrite El in Hs. apply StronglySorted_app in Hs as (Hcr & _ & Hs').
  inversion Hs' as [|?? Hs'' Hc0]; subst.
  assert (child r true ∈ l') as H1'.
  { apply elem_of_app in H1 as [H1|H1].
    - exfalso. specialize (Hcr (child r true) (child r false) H1). simpl in Hcr.
      rewrite Hcr in Hless; set_solver.
    - apply elem_of_cons in H1 as [E|]; [|done].
      apply (child_inj r true false) in E; done. }
  apply list_elem_of_split in H1' as (l2 & l3 & ->).
  apply disjoint_list_spec in Hd as [Hn Hd]; [|done].
  rewrite Forall_forall in Hc. destruct l2 as [|x l2].
  - apply merge_scan_stable in Hst.
    rewrite (proj2 (merges_spec (child r false) (child r true)
                      ltac:(apply Hc; set_solver) ltac:(apply Hc; set_solver))) in Hst; [done|].
    by exists r, false.
  - rewrite StronglySorted_app in Hs''. destruct Hs'' as (Hxc & _ & _).
    destruct (between_siblings r x Hr) as [b Hb].
    + apply Hc. set_solver.
    + rewrite Forall_forall in Hc0. apply Hc0. set_solver.
    + apply Hxc; set_solver.
    + assert (canon x) as (Hxok & _ & Hxv) by (apply Hc; set_solver).
      assert (child r b = x) as <-.
      { apply (Hd _ _ (p_addr x)); [destruct b; set_solver|set_solver|done|].
        by apply Contains_self. }
      apply NoDup_app in Hn as (_ & _ & Hn). apply NoDup_cons in Hn as [Hn1 Hn].
      cbn [app] in Hn. apply NoDup_cons in Hn as [Hn2 _]. destruct b; set_solver.
Qed.

(** The list [Aggregate] hands to the loop. *)
Lemma Aggregate_kept prefixes :
  Forall prefix_ok prefixes ->
  let kept := drop_covered (sortPrefixes (map Masked (keep_if pfx_IsValid prefixes))) in
  disjoint_canon kept /\ (forall a, covered kept a = covered prefixes a) /\
  (length kept <= length prefixes)%nat.
Proof.
  intros Hok. set (norm := map Masked (keep_if pfx_IsValid prefixes)).
  assert (Forall canon norm) as Hn.
  { unfold norm. apply Forall_forall. intros p Hp.
    apply list_elem_of_fmap in Hp as (q & -> & Hq). apply elem_of_keep_if in Hq as [Hq Hv].
    rewrite Forall_forall in Hok. apply canon_Masked; [by apply Hok|done]. }
  destruct (drop_covered_spec (sortPrefixes norm)) as [Hg Hcov].
  { apply sortPrefixes_sorted. }
  { by rewrite sortPrefixes_perm. }
  split; [done|]. split.
  - intros a. simpl. rewrite Hcov, (covered_perm _ norm) by apply sortPrefixes_perm.
    unfold norm. clear -Hok. induction prefixes as [|p l IH]; [done|].
    inversion Hok; subst. simpl. destruct (pfx_IsValid p) eqn:Ev; simpl.
    + rewrite Contains_Masked by done. by rewrite <- IH.
    + assert (Contains p a = false) as -> by (unfold Contains; by rewrite Ev). by rewrite <- IH.
  - transitivity (length norm).
    + unfold drop_covered.
      assert (forall n k, (length (fold_left (fun kept p =>
         if existsb (fun q => holds q p) kept then kept else kept ++ [p]) n k)
         <= length k + length n)%nat) as Hl.
      { induction n as [|x n IHn]; intros k; simpl; [lia|].
        etransitivity; [apply IHn|]. destruct (existsb _ k); rewrite ?length_app; simpl; lia. }
      etransitivity; [apply Hl|]. simpl.
      by rewrite (Permutation_length (sortPrefixes_perm norm)).
    + unfold norm. rewrite length_map. apply sublist_length, keep_if_sublist.
Qed.

(** Everything a caller of [Aggregate] may rely on. *)
Lemma Aggregate_spec prefixes :
  Forall prefix_ok prefixes ->
  let r := Aggregate prefixes in
  disjoint_canon r /\ sorted r /\ (forall a, covered r a = covered prefixes a) /\
  (length r <= length prefixes)%nat /\ mergeOnce r = (r, false) /\ no_siblings r.
Proof.
  intros Hok. destruct (Aggregate_kept prefixes Hok) as (Hg & Hcov & Hlen).
  unfold Aggregate. cbv zeta in *. set (kept := drop_covered _) in *.
  destruct (merge_loop_spec (S (length kept)) kept) as (H1 & H2 & H3 & H4 & H5); [lia|done|].
  split; [done|]. split; [done|]. split; [intros a; by rewrite H3, Hcov|].
  split; [lia|]. split; [done|]. apply no_siblings_stable; [done|done|by rewrite H5].
Qed.

(** An aligned block inside the union of a list without siblings lies inside
    one of its elements. *)
Lemma block_in_one l p :
  disjoint_canon l -> no_siblings l -> canon p ->
  (forall a, addr_ok a -> Contains p a = true -> covered l a = true) ->
  exists q, q ∈ l /\ holds q p = true.
Proof.
  intros [Hc Hd] Hns. rewrite Forall_forall in Hc.
  remember (Z.to_nat (host_bits p)) as n eqn:En. revert p En.
  induction n as [|n IH]; intros p En Hp Hcov.
  - destruct Hp as (Hok & Hm & Hv). destruct (valid_IsValid p Hok Hv) as [Hva Hb].
    pose proof (Contains_self p Hok Hv) as Hself.
    apply Hcov, covered_in in Hself as (q & Hq & Hqa); [|apply Hok].
    exists q. split; [done|]. unfold holds. rewrite Hqa, andb_true_r.
    apply Z.leb_le. destruct (Hc q Hq) as (Hqok & _ & Hqv).
    destruct (valid_IsValid q Hqok Hqv) as [_ ?].
    apply Contains_family in Hqa. unfold host_bits in En. lia.
  - destruct Hp as (Hok & Hm & Hv). destruct (valid_IsValid p Hok Hv) as [Hva Hb].
    assert (splits p) as Hs by (split; [done|]; split; [done|]; unfold host_bits in En; lia).
    assert (forall b, exists q, q ∈ l /\ holds q (child p b) = true) as Hboth.
    { intros b. destruct (child_ok p b Hs) as [Hcok Hcm]. apply IH.
      - destruct (child_block p b Hs) as (-> & _). lia.
      - split; [done|]. split; [done|by apply child_valid].
      - intros a Hao Ha. apply Hcov; [done|]. rewrite Contains_child by done.
        destruct b; rewrite Ha; [apply orb_true_r|done]. }
    assert (forall b q, q ∈ l -> holds q (child p b) = true ->
              q = child p b \/ holds q p = true) as Hcase.
    { intros b q Hq Hh. destruct (Hc q Hq) as (Hqok & Hqm & Hqv).
      destruct (child_ok p b Hs) as [Hcok Hcm].
      destruct (decide (p_bits q <= p_bits p)) as [Hle|Hgt].
      - right. pose proof (holds_child p b Hs) as Hpc. unfold holds in Hh, Hpc. bool_hyps.
        eapply Contains_nested; [done|done|done|done|done].
      - left. unfold holds in Hh. bool_hyps. apply holds_antisym; [done..| |].
        + unfold holds. apply andb_true_intro. split; [by apply Z.leb_le|done].
        + eapply (Contains_nested (child p b) q (p_addr (child p b))); [done|done| |done|].
          * apply Contains_self; [done|by apply child_valid].
          * unfold child. simpl. lia. }
    destruct (Hboth false) as (q0 & Hq0 & H0), (Hboth true) as (q1 & Hq1 & H1).
    destruct (Hcase false q0 Hq0 H0) as [->|]; [|by eauto].
    destruct (Hcase true q1 Hq1 H1) as [->|]; [|by eauto].
    exfalso. by apply (Hns p).
Qed.

(** ** Theorems *)

Lemma Aggregate_ok l : Forall prefix_ok l -> Forall canon (Aggregate l).
Proof. intros H. apply (Aggregate_spec l H). Qed.

Lemma Aggregate_cover l a : Forall prefix_ok l -> covered (Aggregate l) a = covered l a.
Proof. intros H. apply (Aggregate_spec l H). Qed.

Lemma Aggregate_subset l1 l2 p :
  Forall prefix_ok l1 -> Forall prefix_ok l2 ->
  (forall a, addr_ok a -> covered l1 a = covered l2 a) ->
  p ∈ Aggregate l1 -> p ∈ Aggregate l2.
Proof.
  intros H1 H2 Hcov Hp.
  destruct (Aggregate_spec l1 H1) as (Hg1 & Hs1 & Hc1 & _ & _ & Hn1).
  destruct (Aggregate_spec l2 H2) as (Hg2 & Hs2 & Hc2 & _ & _ & Hn2).
  pose proof (Aggregate_ok l1 H1) as Hok1. pose proof (Aggregate_ok l2 H2) as Hok2.
  rewrite Forall_forall in Hok1, Hok2. pose proof (Hok1 p Hp) as Hcp.
  destruct (block_in_one (Aggregate l2) p Hg2 Hn2 Hcp) as (q & Hq & Hqp).
  { intros a Ha Hpa. rewrite Hc2, <- Hcov, <- Hc1 by done. apply covered_in. eauto. }
  destruct (block_in_one (Aggregate l1) q Hg1 Hn1 (Hok2 q Hq)) as (p' & Hp' & Hpq).
  { intros a Ha Hqa. rewrite Hc1, Hcov, <- Hc2 by done. apply covered_in. eauto. }
  assert (holds p' p = true) as Hpp.
  { eapply (holds_trans p' q p); [apply Hok1|apply Hok2|apply Hcp|done|done]; done. }
  assert (p' = p) as -> by (by apply (disjoint_canon_holds (Aggregate l1))).
  assert (p = q) as ->; [|done].
  destruct Hcp as (? & ? & ?), (Hok2 q Hq) as (? & ? & ?). by apply holds_antisym.
Qed.

(** Equal coverage, equal result. *)
Lemma Aggregate_determined l1 l2 :
  Forall prefix_ok l1 -> Forall prefix_ok l2 ->
  (forall a, addr_ok a -> covered l1 a = covered l2 a) ->
  Aggregate l1 = Aggregate l2.
Proof.
  intros H1 H2 Hcov.
  destruct (Aggregate_spec l1 H1) as ([Hg1 Hd1] & Hs1 & _).
  destruct (Aggregate_spec l2 H2) as ([Hg2 Hd2] & Hs2 & _).
  apply disjoint_list_spec in Hd1 as [Hn1 _]; [|done].
  apply disjoint_list_spec in Hd2 as [Hn2 _]; [|done].
  apply (StronglySorted_unique_strong (fun x y => prefix_less y x = false)); [|done|done|].
  - intros p q Hp Hq Hpq Hqp. rewrite Forall_forall in Hg1, Hg2.
    apply prefix_less_total; auto.
  - apply NoDup_Permutation; [done|done|]. intros p. split; apply Aggregate_subset; try done.
    intros a Ha. by rewrite Hcov.
Qed.

(** C37: Aggregation is exact. The aggregated prefixes cover an address exactly
    when the given ones do: a bypass never captures a destination the user did
    not list, and never loses one; and no two of the results share an
    address. *)
Theorem Aggregate_exact prefixes :
  Forall prefix_ok prefixes ->
  (forall a, covered (Aggregate prefixes) a = covered prefixes a) /\
  NoDup (Aggregate prefixes) /\
  (forall p q a, p ∈ Aggregate prefixes -> q ∈ Aggregate prefixes ->
     Contains p a = true -> Contains q a = true -> p = q).
Proof.
  intros H. destruct (Aggregate_spec prefixes H) as ([Hc Hd] & _ & Hcov & _).
  apply disjoint_list_spec in Hd as [Hn Hd]; [|done]. done.
Qed.

(** Aggregation is canonical: two lists covering the same addresses, in any
    order and with any overlaps, aggregate to the very same list. *)
Theorem Aggregate_canonical l1 l2 :
  Forall prefix_ok l1 -> Forall prefix_ok l2 ->
  (forall a, addr_ok a -> covered l1 a = covered l2 a) ->
  Aggregate l1 = Aggregate l2.
Proof. apply Aggregate_determined. Qed.

(** Aggregation is minimal: no list of prefixes covering the same addresses
    is shorter, so the kernel table is as small as it can be. *)
Theorem Aggregate_minimal l l' :
  Forall prefix_ok l -> Forall prefix_ok l' ->
  (forall a, addr_ok a -> covered l a = covered l' a) ->
  (length (Aggregate l) <= length l')%nat.
Proof.
  intros H H' Hcov. rewrite (Aggregate_determined l l') by done.
  apply (Aggregate_spec l' H').
Qed.

(** C40: The merge loop terminates: on disjoint canonical prefixes, which is what
    the code feeds it, it reaches within one pass more than there are prefixes a
    list a further pass leaves unchanged, so any larger bound gives the same
    result and the unbounded loop of the code returns it. *)
Theorem merge_loop_terminates fuel kept :
  (length kept < fuel)%nat -> Forall canon kept -> disjoint_list kept ->
  mergeOnce (merge_loop fuel kept) = (merge_loop fuel kept, false) /\
  merge_loop fuel kept = merge_loop (S (length kept)) kept.
Proof.
  intros Hf Hc Hd. split; [by apply merge_loop_spec|]. revert kept Hf Hc Hd.
  assert (forall n m l, (length l < n)%nat -> (length l < m)%nat -> disjoint_canon l ->
            merge_loop n l = merge_loop m l) as Hgen.
  { induction n as [|n IH]; intros [|m] l Hn Hm Hg; try lia. simpl.
    destruct (mergeOnce_spec l Hg) as (Hg' & _ & Hlen).
    destruct (mergeOnce l) as [l' []]; [|done]. simpl in *. apply IH; [lia|lia|done]. }
  intros kept Hf Hc Hd. apply Hgen; [done|lia|done].
Qed.

(** ** Witnesses *)

(** 10.0.0.0/8, its halves, and 10.1.0.0/16 inside the lower one. *)
Definition net10 := mkPrefix (Addr4 167772160) 8.
Definition net10_lo := mkPrefix (Addr4 167772160) 9.
Definition net10_hi := mkPrefix (Addr4 176160768) 9.
Definition net10_1 := mkPrefix (Addr4 167837696) 16.

Lemma Aggregate_exact_witness :
  Aggregate [net10_hi; net10_1; net10_lo] = [net10] /\
  covered (Aggregate [net10_hi; net10_1; net10_lo]) (Addr4 167837697) = true.
Proof.
  split; [reflexivity|].
  rewrite (proj1 (Aggregate_exact [net10_hi; net10_1; net10_lo]
    ltac:(by apply (bool_decide_unpack (Forall prefix_ok [net10_hi; net10_1; net10_lo]))))).
  reflexivity.
Defined.

Lemma halves_cover a : covered [net10_hi; net10_lo] a = covered [net10] a.
Proof.
  rewrite !covered_cons. change (covered [] a) with false. rewrite !orb_false_r.
  rewrite (Contains_child net10 a); [apply orb_comm|].
  apply (bool_decide_unpack (splits net10)). by vm_compute.
Qed.

Lemma Aggregate_canonical_witness : Aggregate [net10_hi; net10_lo] = Aggregate [net10].
Proof.
  apply Aggregate_canonical.
  - by apply (bool_decide_unpack (Forall prefix_ok [net10_hi; net10_lo])).
  - by apply (bool_decide_unpack (Forall prefix_ok [net10])).
  - intros a _. apply halves_cover.
Defined.

Lemma Aggregate_minimal_witness : (length (Aggregate [net10_hi; net10_lo]) <= length [net10])%nat.
Proof.
  apply Aggregate_minimal.
  - by apply (bool_decide_unpack (Forall prefix_ok [net10_hi; net10_lo])).
  - by apply (bool_decide_unpack (Forall prefix_ok [net10])).
  - intros a _. apply halves_cover.
Defined.

Lemma merge_loop_terminates_witness :
  mergeOnce (merge_loop 9 [net10_lo; net10_hi]) = (merge_loop 9 [net10_lo; net10_hi], false).
Proof.
  apply (merge_loop_terminates 9 [net10_lo; net10_hi]).
  - simpl. lia.
  - by apply (bool_decide_unpack (Forall canon [net10_lo; net10_hi])).
  - split; [|done]. intros a Ha. rewrite covered_cons. apply orb_false_intro; [|done].
    destruct (Contains net10_hi a) eqn:E; [|done]. exfalso.
    eapply (child_disjoint net10 a); [|exact Ha|exact E].
    apply (bool_decide_unpack (splits net10)). by vm_compute.
Defined.
