(* ===== verification/Domain.v ===== *)
(** * The shared data model (internal/domain)

    The records every component passes around, as the Go structs have them:
    Go's string types stay strings with their named constants, an embedded
    struct is a field, a nilable pointer is an [option], [time.Time] is a
    number of nanoseconds. [PlanOp.Kind] is an inductive type with one
    constructor for a kind no constant names. *)

From Stdlib Require Import Ascii.
From S2P Require Import Prelude.
From S2P Require Import Netip NetipText.

(** ** network.go *)

Abbreviation Family := string (only parsing).
Definition FamilyV4 : Family := "v4".
Definition FamilyV6 : Family := "v6".

Abbreviation Owner := string (only parsing).
Definition OwnerSystem : Owner := "system".
Definition OwnerRiftRoute : Owner := "riftroute".
Definition OwnerVPN : Owner := "vpn".
Definition OwnerUnknown : Owner := "unknown".

Definition ProtoRiftRoute : string := "riftroute".

Record Route : Type := mkRoute {
  rt_DstCIDR : string;
  rt_Gateway : string;
  rt_Iface : string;
  rt_Metric : Z;
  rt_Family : Family;
  rt_Owner : Owner;
  rt_Proto : string;
  rt_Table : string;
  rt_Profile : string;
  rt_Cloned : bool;
  rt_Scoped : bool;
  rt_Reject : bool;
}.

#[export] Instance Route_eq_dec : EqDecision Route.
Proof. solve_decision. Defined.

Record PolicyRule : Type := mkPolicyRule {
  pr_Priority : Z;
  pr_Selector : string;
  pr_Table : string;
  pr_Family : Family;
  pr_Proto : string;
  pr_RouteToIface : string;
  pr_RouteToGW : string;
}.

#[export] Instance PolicyRule_eq_dec : EqDecision PolicyRule.
Proof. solve_decision. Defined.

Record Iface : Type := mkIface {
  if_Name : string;
  if_Up : bool;
  if_Kind : string;
  if_Addrs : list string;
  if_MTU : Z;
  if_IsVPN : bool;
}.

#[export] Instance Iface_eq_dec : EqDecision Iface.
Proof. solve_decision. Defined.

Definition IfaceKindPhysical : string := "phys".
Definition IfaceKindUtun : string := "utun".
Definition IfaceKindLoopback : string := "loopback".
Definition IfaceKindOther : string := "other".

Record DNSState : Type := mkDNSState {
  dns_Servers : list string;
  dns_SearchDomains : list string;
  dns_Iface : string;
}.

#[export] Instance DNSState_eq_dec : EqDecision DNSState.
Proof. solve_decision. Defined.

Record DefaultRoute : Type := mkDefaultRoute {
  df_Family : Family;
  df_Present : bool;
  df_Gateway : string;
  df_Iface : string;
  df_Owner : Owner;
  df_ViaVPN : bool;
}.

Record RouteDecision : Type := mkRouteDecision {
  rd_Target : string;
  rd_Source : string;
  rd_MatchedCIDR : string;
  rd_Gateway : string;
  rd_Iface : string;
  rd_Family : Family;
  rd_Owner : Owner;
  rd_Profile : string;
  rd_ViaVPN : bool;
  rd_Tunnel : string;
  rd_TunnelType : string;
  rd_Reachable : bool;
  rd_Rejected : bool;
}.

#[export] Instance RouteDecision_eq_dec : EqDecision RouteDecision.
Proof. solve_decision. Defined.

Record Capabilities : Type := mkCapabilities {
  cap_Platform : string;
  cap_PolicyRouting : bool;
  cap_Fwmark : bool;
  cap_PerAppRouting : bool;
  cap_ProtoTag : bool;
  cap_IPv6 : bool;
  cap_KillSwitch : bool;
  cap_IfaceScoping : bool;
  cap_Backend : string;
}.

(** ** profile.go *)

Abbreviation Mode := string (only parsing).
Definition ModeExclude : Mode := "exclude".
Definition ModeInclude : Mode := "include".
Definition ModeTunnel : Mode := "tunnel".

Abbreviation RuleType := string (only parsing).
Definition RuleCIDR : RuleType := "cidr".
Definition RuleIP : RuleType := "ip".
Definition RuleDomain : RuleType := "domain".
Definition RuleASN : RuleType := "asn".
Definition RuleCountry : RuleType := "country".
Definition RuleApp : RuleType := "app".

Record Rule : Type := mkRule { r_Type : RuleType; r_Value : string; r_Comment : string }.

(** The loop ranges over runes; every accepted one is a single ASCII byte and
    every byte of a longer encoding is at least 128, so ranging over bytes
    accepts the same strings. *)
Definition uid_char (c : ascii) : bool :=
  let r := code c in
  ((97 <=? r) && (r <=? 122)) || ((65 <=? r) && (r <=? 90)) || ((48 <=? r) && (r <=? 57))
  || (r =? 95) || (r =? 45) || (r =? 46).

Definition IsUIDLike (s : string) : bool :=
  if s =s? "" then false else str_forall uid_char s.

(** [strings.TrimPrefix] and [strings.CutPrefix]. *)
Fixpoint CutPrefix (s pre : string) : option string :=
  match pre, s with
  | EmptyString, _ => Some s
  | String a pre', String b s' => if Ascii.eqb a b then CutPrefix s' pre' else None
  | _, EmptyString => None
  end.
Definition TrimPrefix (s pre : string) : string := default s (CutPrefix s pre).
Definition HasPrefix (s pre : string) : bool := bool_decide (is_Some (CutPrefix s pre)).

Lemma HasPrefix_app pre s : HasPrefix (pre +:+ s) pre = true.
Proof.
  unfold HasPrefix. apply bool_decide_eq_true. exists s. induction pre as [|c pre IH]; simpl; [by destruct s|].
  rewrite Ascii.eqb_refl. exact IH.
Qed.

Definition DomainRuleHost (v : string) : string := TrimPrefix v "*.".

Record Profile : Type := mkProfile {
  pf_ID : string;
  pf_Name : string;
  pf_Description : string;
  pf_Enabled : bool;
  pf_Mode : Mode;
  pf_Gateway : string;
  pf_Priority : Z;
  pf_Rules : list Rule;
  pf_Lists : list string;
  pf_IPVersion : list Family;
  pf_Tunnel : string;
}.

(** A reusable list: inline entries, and those last fetched from [Source]. *)
Record NamedList : Type := mkNamedList {
  nl_Name : string;
  nl_Static : list string;
  nl_Source : string;
  nl_Refresh : string;
  nl_LastFetched : option Z;
  nl_Checksum : string;
  nl_Resolved : list string;
}.

Definition Entries (l : NamedList) : list string := nl_Static l ++ nl_Resolved l.

Record SplitDNSRoute : Type := mkSplitDNS { sd_Domain : string; sd_Resolver : string; sd_Port : Z }.

Record ManagedRoute : Type := mkMR { mr_Route : Route; mr_ProfileID : string; mr_CreatedAt : Z }.
Record ManagedRule : Type := mkMRule { ml_Rule : PolicyRule; ml_ProfileID : string; ml_CreatedAt : Z }.

#[export] Instance ManagedRoute_eq_dec : EqDecision ManagedRoute.
Proof. solve_decision. Defined.
#[export] Instance ManagedRule_eq_dec : EqDecision ManagedRule.
Proof. solve_decision. Defined.

(** ** audit.go *)

Inductive OpKind : Type :=
| OpAddRoute | OpDelRoute | OpAddRule | OpDelRule
| OpOther (kind : string).

#[export] Instance OpKind_eq_dec : EqDecision OpKind.
Proof. solve_decision. Defined.

Record PlanOp : Type := mkPlanOp {
  op_Kind : OpKind;
  op_Route : option ManagedRoute;
  op_Rule : option ManagedRule;
  op_Command : list string;
  op_Human : string;
}.

#[export] Instance PlanOp_eq_dec : EqDecision PlanOp.
Proof. solve_decision. Defined.

Record Plan : Type := mkPlan { pl_Ops : list PlanOp; pl_Inverse : list PlanOp }.

#[export] Instance Plan_eq_dec : EqDecision Plan.
Proof. solve_decision. Defined.

(** ** Snapshots and the audit log; nil profiles (a snapshot from before they
    were kept) are [None]. *)

Record Snapshot : Type := mkSnapshot {
  sn_ID : string;
  sn_CreatedAt : Z;
  sn_Reason : string;
  sn_RoutesV4 : list Route;
  sn_RoutesV6 : list Route;
  sn_Rules : list PolicyRule;
  sn_Defaults : list DefaultRoute;
  sn_DNS : DNSState;
  sn_Profiles : option (list Profile);
  sn_Restorable : bool;
  sn_Format : Z;
}.

Record ApplyTiming : Type := mkTiming {
  tm_TotalMS : Z;
  tm_WaitMS : Z;
  tm_BuildMS : Z;
  tm_CheckMS : Z;
  tm_ExecMS : Z;
}.

Abbreviation Actor := string (only parsing).
Definition ActorUI : Actor := "ui".
Definition ActorCLI : Actor := "cli".
Definition ActorDaemon : Actor := "daemon-auto".
Definition ActorSystem : Actor := "system".

Record AuditEvent : Type := mkAuditEvent {
  ae_ID : Z;
  ae_TS : Z;
  ae_Actor : Actor;
  ae_Action : string;
  ae_Profile : string;
  ae_Plan : option Plan;
  ae_Result : string;
  ae_Rollback : bool;
  ae_Reason : string;
  ae_Codes : list string;
  ae_Timing : option ApplyTiming;
}.

Abbreviation TxResult := string (only parsing).
Definition TxPending : TxResult := "pending".
Definition TxCommitted : TxResult := "committed".
Definition TxRolledBack : TxResult := "rolled_back".
Definition TxFailed : TxResult := "failed".

(** ** tunnel.go: what a plan of the tunnels' routes reports *)

Record TunnelBlocked : Type := mkTunnelBlocked { tb_Route : string; tb_Reason : string }.
Record TunnelExcept : Type := mkTunnelExcept { te_Net : string; te_Reason : string }.
Record TunnelNarrowed : Type := mkTunnelNarrowed { tn_Route : string; tn_Except : list TunnelExcept }.

Record TunnelProfileRef : Type := mkProfileRef { ref_ID : string; ref_Name : string; ref_Enabled : bool; ref_Routes : Z }.

Definition TunnelOpenVPN : string := "openvpn".
Definition TunnelWireGuard : string := "wireguard".
Definition TunnelIKEv2 : string := "ikev2".

Abbreviation TunnelState := string (only parsing).
Definition TunnelDisconnected : TunnelState := "disconnected".
Definition TunnelConnecting : TunnelState := "connecting".
Definition TunnelConnected : TunnelState := "connected".
Definition TunnelReconnecting : TunnelState := "reconnecting".
Definition TunnelFailed : TunnelState := "failed".

Record TunnelStatus : Type := mkTunnelStatus {
  st_Name : string;
  st_Type : string;
  st_Via : string;
  st_Routes : list string;
  st_AutoConnect : bool;
  st_WhenDown : string;
  st_Blocking : bool;
  st_Username : string;
  st_HasPassword : bool;
  st_NeedsAuth : bool;
  st_Servers : list string;
  st_Ignored : list string;
  st_Blocked : list TunnelBlocked;
  st_Narrowed : list TunnelNarrowed;
  st_Captured : list TunnelBlocked;
  st_CertExpires : option Z;
  st_Profiles : list TunnelProfileRef;
  st_Unreadable : bool;
  st_State : TunnelState;
  st_Detail : string;
  st_Iface : string;
  st_LocalIP : string;
  st_Server : string;
  st_Since : option Z;
  st_LastError : string;
  st_BytesIn : Z;
  st_BytesOut : Z;
}.

Definition TunnelViaDirect : string := "direct".
Definition TunnelViaDefault : string := "default".
Definition TunnelFallback : string := "fallback".
Definition TunnelBlock : string := "block".

(** ** state.go *)

Record TailscaleStatus : Type := mkTailscale { ts_Iface : string; ts_ExitNode : bool; ts_Networks : list string }.
Definition no_tailscale : TailscaleStatus := mkTailscale "" false [].

(** ** diff.go *)

Definition DiffAdd : string := "add".
Definition DiffDel : string := "del".

Record DiffEntry : Type := mkDiffEntry { de_Action : string; de_Route : Route }.
Record Diff : Type := mkDiff {
  di_Entries : list DiffEntry;
  di_Adds : Z;
  di_Dels : Z;
  di_Changes : Z;
  di_InSync : bool;
}.

(** ** prefs.go *)

Abbreviation UpdateMode := string (only parsing).
Definition UpdateAuto : UpdateMode := "auto".
Definition UpdateNotify : UpdateMode := "notify".
Definition UpdateOff : UpdateMode := "off".
Definition UpdateMode_Valid (m : UpdateMode) : bool :=
  (m =s? UpdateAuto) || (m =s? UpdateNotify) || (m =s? UpdateOff).

Abbreviation TelemetryLevel := string (only parsing).
Definition TelemetryFull : TelemetryLevel := "full".
Definition TelemetryBasic : TelemetryLevel := "basic".
Definition TelemetryOff : TelemetryLevel := "off".
Definition TelemetryLevel_Valid (l : TelemetryLevel) : bool :=
  (l =s? TelemetryFull) || (l =s? TelemetryBasic) || (l =s? TelemetryOff).

Record Preferences : Type := mkPreferences { pf_Updates : UpdateMode; pf_Telemetry : TelemetryLevel }.
Definition DefaultPreferences : Preferences := mkPreferences UpdateAuto TelemetryFull.
Record PreferencesPatch : Type := mkPatch { pp_Updates : option string; pp_Telemetry : option string }.

(** ** conflict.go *)

Record Conflict : Type := mkConflict { cf_Kind : string; cf_A : string; cf_B : string; cf_Detail : string }.

(** ** Text helpers of the standard library *)

Definition is_space (c : ascii) : bool :=
  let r := code c in (r =? 32) || ((9 <=? r) && (r <=? 13)).

(** [strings.Fields] on ASCII text: the runs of non-space bytes. *)
Fixpoint fields_go (s cur : string) : list string :=
  let flush l := if cur =s? "" then l else cur :: l in
  match s with
  | EmptyString => flush []
  | String c s' =>
      if is_space c then flush (fields_go s' "") else fields_go s' (cur +:+ String c "")
  end.
Definition Fields (s : string) : list string := fields_go s "".

(** [strings.Join]. *)
Fixpoint Join (l : list string) (sep : string) : string :=
  match l with
  | [] => ""
  | [x] => x
  | x :: l' => x +:+ sep +:+ Join l' sep
  end.
