(* ===== verification/Reconcile.v ===== *)
(** * Keys, plans and their inverses (internal/routing/engine.go, second half)

    [RouteKey], [RuleKey] and [dstKey] are what the engine compares routes and
    rules by; [Reconcile] turns a desired set and the owned set into an ordered
    plan with its inverse. The theorems run a plan against a kernel that keeps
    one route per destination, as the comment in [Reconcile] describes it: an
    add for a destination already routed changes nothing ("File exists", taken
    for success), a delete matches by destination. *)

From Stdlib Require Import Ascii.
From S2P Require Import Prelude.
From S2P Require Import Netip NetipText Domain.

(** ** Keys *)

Definition RouteKey (r : Route) : string :=
  let k := rt_Family r +:+ "|" +:+ rt_Table r +:+ "|" +:+ rt_DstCIDR r +:+ "|" +:+
           rt_Gateway r +:+ "|" +:+ rt_Iface r in
  if rt_Reject r then k +:+ "|reject" else k.

Definition dstKey (r : Route) : string :=
  rt_Family r +:+ "|" +:+ rt_Table r +:+ "|" +:+ rt_DstCIDR r.

Definition RuleKey (r : PolicyRule) : string :=
  let k := pretty (pr_Priority r) +:+ "|" +:+ pr_Selector r +:+ "|" +:+ pr_Table r +:+ "|" +:+
           pr_Family r in
  if negb (pr_RouteToIface r =s? "") then k +:+ "|" +:+ pr_RouteToIface r +:+ "|" +:+ pr_RouteToGW r
  else k.

(** ** What a real provider would run, and what a person reads *)

Definition isHostPrefix (r : Route) : bool :=
  match ParsePrefix (rt_DstCIDR r) with
  | Some p => p_bits p =? BitLen (p_addr p)
  | None => false
  end.

Definition loopbackFor (r : Route) : string :=
  if rt_Family r =s? FamilyV6 then "::1" else "127.0.0.1".

Definition ip_route_args (kind : OpKind) (r : Route) : list string :=
  let proto := if rt_Proto r =s? "" then "riftroute" else rt_Proto r in
  let args := ["ip"; "route"] in
  let args :=
    match kind with
    | OpAddRoute =>
        if rt_Reject r then args ++ ["add"; "unreachable"; rt_DstCIDR r; "proto"; proto]
        else
          let args := args ++ ["add"; rt_DstCIDR r] in
          let args := if negb (rt_Gateway r =s? "") then args ++ ["via"; rt_Gateway r] else args in
          args ++ ["dev"; rt_Iface r; "proto"; proto]
    | OpDelRoute => args ++ ["del"; rt_DstCIDR r; "proto"; proto]
    | _ => args
    end in
  if negb (rt_Table r =s? "") then args ++ ["table"; rt_Table r] else args.

Definition commandForRoute (kind : OpKind) (r : Route) (platform : string) : list string :=
  if platform =s? "darwin" then
    let scope := if isHostPrefix r then "-host" else "-net" in
    match kind with
    | OpAddRoute =>
        if rt_Reject r then ["route"; "-n"; "add"; scope; rt_DstCIDR r; loopbackFor r; "-reject"]
        else if rt_Gateway r =s? "" then
          ["route"; "-n"; "add"; scope; rt_DstCIDR r; "-interface"; rt_Iface r]
        else ["route"; "-n"; "add"; scope; rt_DstCIDR r; rt_Gateway r]
    | OpDelRoute =>
        if rt_Gateway r =s? "" then ["route"; "-n"; "delete"; scope; rt_DstCIDR r]
        else ["route"; "-n"; "delete"; scope; rt_DstCIDR r; rt_Gateway r]
    | _ => ip_route_args kind r
    end
  else ip_route_args kind r.

Definition ruleFamilyFlag (r : PolicyRule) : string :=
  let fam :=
    if pr_Family r =s? "" then
      fold_left (fun fam f => match ParsePrefix f with
                              | Some p => if Is6 (p_addr p) then FamilyV6 else fam
                              | None => fam
                              end) (Fields (pr_Selector r)) FamilyV4
    else pr_Family r in
  if fam =s? FamilyV6 then "-6" else "-4".

Definition commandForRule (kind : OpKind) (r : PolicyRule) : list string :=
  if negb (pr_RouteToIface r =s? "") then
    let target := if negb (pr_RouteToGW r =s? "") then pr_RouteToIface r +:+ " " +:+ pr_RouteToGW r
                  else pr_RouteToIface r in
    if bool_decide (kind = OpDelRule) then ["pf"; "anchor"; "riftroute:"; "remove"; pr_Selector r]
    else ["pf"; "anchor"; "riftroute:"; "pass"; "out"; "route-to"; "(" +:+ target +:+ ")"; pr_Selector r]
  else
    let verb := if bool_decide (kind = OpDelRule) then "del" else "add" in
    ["ip"; ruleFamilyFlag r; "rule"; verb] ++ Fields (pr_Selector r) ++
    ["lookup"; pr_Table r; "priority"; pretty (pr_Priority r); "protocol"; "riftroute"].

Definition humanForRoute (kind : OpKind) (r : Route) : string :=
  let verb := if bool_decide (kind = OpDelRoute) then "del" else "add" in
  let t := if negb (rt_Table r =s? "") then " table " +:+ rt_Table r else "" in
  if rt_Reject r then verb +:+ " " +:+ rt_DstCIDR r +:+ " reject" +:+ t
  else if rt_Gateway r =s? "" then verb +:+ " " +:+ rt_DstCIDR r +:+ " dev " +:+ rt_Iface r +:+ t
  else verb +:+ " " +:+ rt_DstCIDR r +:+ " via " +:+ rt_Gateway r +:+ " dev " +:+ rt_Iface r +:+ t.

Definition humanForRule (kind : OpKind) (r : PolicyRule) : string :=
  if negb (pr_RouteToIface r =s? "") then
    let verb := if bool_decide (kind = OpDelRule) then "remove route-to" else "route-to" in
    verb +:+ " " +:+ pr_Selector r +:+ " → " +:+ pr_RouteToIface r +:+ " (pf)"
  else
    let verb := if bool_decide (kind = OpDelRule) then "del rule" else "add rule" in
    verb +:+ " " +:+ pr_Selector r +:+ " lookup " +:+ pr_Table r +:+ " priority " +:+
    pretty (pr_Priority r).

Definition makeRouteOp (kind : OpKind) (mr : ManagedRoute) (platform : string) : PlanOp :=
  mkPlanOp kind (Some mr) None (commandForRoute kind (mr_Route mr) platform)
           (humanForRoute kind (mr_Route mr)).
Definition makeRuleOp (kind : OpKind) (ml : ManagedRule) (platform : string) : PlanOp :=
  mkPlanOp kind None (Some ml) (commandForRule kind (ml_Rule ml)) (humanForRule kind (ml_Rule ml)).

(** ** Inverses

    [invert] dereferences an op's pointer; an op without it panics, which is
    [None]. *)
Definition invert_op (op : PlanOp) (platform : string) : option (list PlanOp) :=
  match op_Kind op with
  | OpAddRoute => r ← op_Route op; Some [makeRouteOp OpDelRoute r platform]
  | OpDelRoute => r ← op_Route op; Some [makeRouteOp OpAddRoute r platform]
  | OpAddRule => r ← op_Rule op; Some [makeRuleOp OpDelRule r platform]
  | OpDelRule => r ← op_Rule op; Some [makeRuleOp OpAddRule r platform]
  | OpOther _ => Some []
  end.

(** The loop runs from the last op to the first. *)
Fixpoint invert (ops : list PlanOp) (platform : string) : option (list PlanOp) :=
  match ops with
  | [] => Some []
  | op :: ops' =>
      inv ← invert ops' platform; o ← invert_op op platform; Some (inv ++ o)
  end.

(** ** Reconcile *)

Definition indexRoutes (rs : list ManagedRoute) : gmap string ManagedRoute :=
  fold_left (fun m r => <[RouteKey (mr_Route r) := r]> m) rs ∅.
Definition indexRules (rs : list ManagedRule) : gmap string ManagedRule :=
  fold_left (fun m r => <[RuleKey (ml_Rule r) := r]> m) rs ∅.

(** [_, ok := m[k]]. *)
Definition has {A} (m : gmap string A) (k : string) : bool := bool_decide (is_Some (m !! k)).

(** The actual routes no longer wanted, by destination. *)
Definition index_byDst (dr : gmap string ManagedRoute) (actual : list ManagedRoute)
    : gmap string (list ManagedRoute) :=
  fold_left (fun m a =>
    if has dr (RouteKey (mr_Route a)) then m
    else let k := dstKey (mr_Route a) in <[k := default [] (m !! k) ++ [a]]> m) actual ∅.

(** The inner loop: every old route of the destination not yet replaced. *)
Fixpoint replace_old (olds : list ManagedRoute) (replaced : gset string) (ops : list PlanOp)
    (platform : string) : gset string * list PlanOp :=
  match olds with
  | [] => (replaced, ops)
  | old :: olds' =>
      let k := RouteKey (mr_Route old) in
      if bool_decide (k ∈ replaced) then replace_old olds' replaced ops platform
      else replace_old olds' ({[k]} ∪ replaced) (ops ++ [makeRouteOp OpDelRoute old platform]) platform
  end.

Fixpoint route_adds (desired : list ManagedRoute) (ar : gmap string ManagedRoute)
    (byDst : gmap string (list ManagedRoute)) (replaced : gset string) (ops : list PlanOp)
    (platform : string) : gset string * list PlanOp :=
  match desired with
  | [] => (replaced, ops)
  | d :: desired' =>
      if has ar (RouteKey (mr_Route d)) then route_adds desired' ar byDst replaced ops platform
      else
        let '(replaced, ops) :=
          replace_old (default [] (byDst !! dstKey (mr_Route d))) replaced ops platform in
        route_adds desired' ar byDst replaced (ops ++ [makeRouteOp OpAddRoute d platform]) platform
  end.

Definition reconcile_ops (desiredRoutes actualRoutes : list ManagedRoute)
    (desiredRules actualRules : list ManagedRule) (platform : string) : list PlanOp :=
  let dr := indexRoutes desiredRoutes in
  let ar := indexRoutes actualRoutes in
  let drl := indexRules desiredRules in
  let arl := indexRules actualRules in
  let byDst := index_byDst dr actualRoutes in
  let '(replaced, routeAdds) := route_adds desiredRoutes ar byDst ∅ [] platform in
  let routeDels :=
    map (fun a => makeRouteOp OpDelRoute a platform)
      (keep_if (fun a => negb (has dr (RouteKey (mr_Route a))) &&
                         negb (bool_decide (RouteKey (mr_Route a) ∈ replaced))) actualRoutes) in
  let ruleAdds :=
    map (fun d => makeRuleOp OpAddRule d platform)
      (keep_if (fun d => negb (has arl (RuleKey (ml_Rule d)))) desiredRules) in
  let ruleDels :=
    map (fun a => makeRuleOp OpDelRule a platform)
      (keep_if (fun a => negb (has drl (RuleKey (ml_Rule a)))) actualRules) in
  routeAdds ++ ruleAdds ++ ruleDels ++ routeDels.

Definition Reconcile (desiredRoutes actualRoutes : list ManagedRoute)
    (desiredRules actualRules : list ManagedRule) (platform : string) : option Plan :=
  let ops := reconcile_ops desiredRoutes actualRoutes desiredRules actualRules platform in
  inv ← invert ops platform; Some (mkPlan ops inv).

Definition unmanaged (r : Route) : ManagedRoute := mkMR r "" 0.

Definition DeleteRoutePlan (r : Route) (platform : string) : option Plan :=
  let ops := [makeRouteOp OpDelRoute (unmanaged r) platform] in
  inv ← invert ops platform; Some (mkPlan ops inv).

Definition ReplaceRoutePlan (old updated : Route) (platform : string) : option Plan :=
  let ops := [makeRouteOp OpDelRoute (unmanaged old) platform;
              makeRouteOp OpAddRoute (unmanaged updated) platform] in
  inv ← invert ops platform; Some (mkPlan ops inv).

(** ** Facts on keys *)

Definition no_bar (s : string) : bool := str_forall (fun x => negb (Ascii.eqb x bar)) s.

Lemma bar_split a b a' b' :
  no_bar a = true -> no_bar a' = true ->
  a +:+ "|" +:+ b = a' +:+ "|" +:+ b' -> a = a' /\ b = b'.
Proof.
  intros Ha Ha' E. apply (f_equal (cut_at bar)) in E.
  change ("|" +:+ b) with (String bar b) in E. change ("|" +:+ b') with (String bar b') in E.
  rewrite !cut_at_app in E by done. by simplify_eq.
Qed.

Lemma no_bar_app a b : no_bar (a +:+ b) = no_bar a && no_bar b.
Proof. apply str_forall_app. Qed.

(** Fields of a route that holds no separator: interface names, addresses and
    prefixes do not. *)
Definition route_wf (r : Route) : bool :=
  no_bar (rt_Family r) && no_bar (rt_Table r) && no_bar (rt_DstCIDR r) && no_bar (rt_Gateway r)
  && no_bar (rt_Iface r).

Lemma route_wf_fields r : route_wf r = true ->
  no_bar (rt_Family r) = true /\ no_bar (rt_Table r) = true /\ no_bar (rt_DstCIDR r) = true /\
  no_bar (rt_Gateway r) = true /\ no_bar (rt_Iface r) = true.
Proof. unfold route_wf. intros. bool_hyps. done. Qed.

(** A route's key and its destination are joined fields. *)
Definition key_tail (r : Route) : string := rt_Iface r +:+ (if rt_Reject r then "|reject" else "").

Lemma RouteKey_split r :
  RouteKey r = rt_Family r +:+ "|" +:+ rt_Table r +:+ "|" +:+ rt_DstCIDR r +:+ "|" +:+
               rt_Gateway r +:+ "|" +:+ key_tail r.
Proof.
  unfold RouteKey, key_tail. destruct (rt_Reject r); [|by rewrite append_nil_r].
  by rewrite !append_assoc.
Qed.

Lemma RouteKey_fields r1 r2 :
  route_wf r1 = true -> route_wf r2 = true -> RouteKey r1 = RouteKey r2 ->
  rt_Family r1 = rt_Family r2 /\ rt_Table r1 = rt_Table r2 /\ rt_DstCIDR r1 = rt_DstCIDR r2 /\
  rt_Gateway r1 = rt_Gateway r2 /\ key_tail r1 = key_tail r2.
Proof.
  intros (F1 & T1 & D1 & G1 & I1)%route_wf_fields (F2 & T2 & D2 & G2 & I2)%route_wf_fields E.
  rewrite !RouteKey_split in E.
  apply bar_split in E as [-> E]; [|done..]. apply bar_split in E as [-> E]; [|done..].
  apply bar_split in E as [-> E]; [|done..]. apply bar_split in E as [-> E]; [|done..]. done.
Qed.

Lemma key_tail_inj r1 r2 :
  no_bar (rt_Iface r1) = true -> no_bar (rt_Iface r2) = true -> key_tail r1 = key_tail r2 ->
  rt_Iface r1 = rt_Iface r2 /\ rt_Reject r1 = rt_Reject r2.
Proof.
  unfold key_tail. intros H1 H2 E.
  destruct (rt_Reject r1), (rt_Reject r2); rewrite ?append_nil_r in E.
  - change "|reject" with ("|" +:+ "reject") in E. by apply bar_split in E as [-> _].
  - rewrite <- E, no_bar_app in H2. by destruct (no_bar (rt_Iface r1)).
  - rewrite E, no_bar_app in H1. by destruct (no_bar (rt_Iface r2)).
  - done.
Qed.

Lemma RouteKey_dstKey r1 r2 :
  route_wf r1 = true -> route_wf r2 = true -> RouteKey r1 = RouteKey r2 -> dstKey r1 = dstKey r2.
Proof.
  intros H1 H2 E. apply RouteKey_fields in E as (Ef & Et & Ed & _); [|done..].
  unfold dstKey. by rewrite Ef, Et, Ed.
Qed.

(** Decimal text holds no separator. *)
Lemma pretty_Z_no_bar (z : Z) : no_bar (pretty z) = true.
Proof. apply pretty_Z_chars; [|done]. intros c Hc. destruct (Ascii.eqb_spec c bar) as [->|]; [by vm_compute in Hc|done]. Qed.

Lemma prefix_String_no_bar p : prefix_ok p -> no_bar (prefix_String p) = true.
Proof.
  intros Hok. unfold prefix_String. destruct (pfx_IsValid p) eqn:Hv; [|done].
  destruct (valid_IsValid p Hok Hv) as [Hva Hb]. destruct Hok as (_ & Hz & _).
  rewrite !no_bar_app, pretty_Z_no_bar.
  unfold no_bar at 1. rewrite addr_chars_no_bar by (by apply addr_String_chars). done.
Qed.

(** A destination's part of the key needs only these fields to be separator
    free. *)
Definition dst_wf (r : Route) : Prop :=
  no_bar (rt_Family r) = true /\ no_bar (rt_Table r) = true /\ no_bar (rt_DstCIDR r) = true.

Lemma RouteKey_dst r1 r2 : dst_wf r1 -> dst_wf r2 -> RouteKey r1 = RouteKey r2 -> dstKey r1 = dstKey r2.
Proof.
  intros (F1 & T1 & D1) (F2 & T2 & D2) E. rewrite !RouteKey_split in E. unfold dstKey.
  apply bar_split in E as [-> E]; [|done..]. apply bar_split in E as [-> E]; [|done..].
  by apply bar_split in E as [-> _].
Qed.

(** ** A kernel that keeps one route per destination

    What is there is known by keys: the route's key for each destination, and
    the rules' keys. *)
Record kernel : Type := mkKernel { k_routes : gmap string string; k_rules : gset string }.

Definition kernel_op (k : kernel) (op : PlanOp) : kernel :=
  match op_Kind op, op_Route op, op_Rule op with
  | OpAddRoute, Some r, _ =>
      let x := dstKey (mr_Route r) in
      match k_routes k !! x with
      | Some _ => k
      | None => mkKernel (<[x := RouteKey (mr_Route r)]> (k_routes k)) (k_rules k)
      end
  | OpDelRoute, Some r, _ => mkKernel (delete (dstKey (mr_Route r)) (k_routes k)) (k_rules k)
  | OpAddRule, _, Some r => mkKernel (k_routes k) ({[RuleKey (ml_Rule r)]} ∪ k_rules k)
  | OpDelRule, _, Some r => mkKernel (k_routes k) (k_rules k ∖ {[RuleKey (ml_Rule r)]})
  | _, _, _ => k
  end.

Definition run_ops (k : kernel) (ops : list PlanOp) : kernel := fold_left kernel_op ops k.

Lemma run_ops_app k l1 l2 : run_ops k (l1 ++ l2) = run_ops (run_ops k l1) l2.
Proof. apply fold_left_app. Qed.

(** The routes and rules of a set, as the kernel knows them. *)
Definition routes_of (rs : list ManagedRoute) : gmap string string :=
  list_to_map (map (fun r => (dstKey (mr_Route r), RouteKey (mr_Route r))) rs).
Definition rules_of (rs : list ManagedRule) : gset string :=
  list_to_set (map (fun r => RuleKey (ml_Rule r)) rs).

Definition dsts (rs : list ManagedRoute) : list string := map (fun r => dstKey (mr_Route r)) rs.
Definition rkeys (rs : list ManagedRoute) : list string := map (fun r => RouteKey (mr_Route r)) rs.

Lemma elem_of_dsts x rs : x ∈ dsts rs <-> exists r, r ∈ rs /\ dstKey (mr_Route r) = x.
Proof. unfold dsts. rewrite list_elem_of_fmap. naive_solver. Qed.

Lemma elem_of_rkeys x rs : x ∈ rkeys rs <-> exists r, r ∈ rs /\ RouteKey (mr_Route r) = x.
Proof. unfold rkeys. rewrite list_elem_of_fmap. naive_solver. Qed.

Lemma elem_of_rules_of x rs : x ∈ rules_of rs <-> exists r, r ∈ rs /\ RuleKey (ml_Rule r) = x.
Proof. unfold rules_of. rewrite elem_of_list_to_set, list_elem_of_fmap. naive_solver. Qed.

Lemma routes_of_dom rs : map fst (map (fun r => (dstKey (mr_Route r), RouteKey (mr_Route r))) rs) = dsts rs.
Proof. unfold dsts. rewrite map_map. done. Qed.

Lemma routes_of_in rs r :
  NoDup (dsts rs) -> r ∈ rs -> routes_of rs !! dstKey (mr_Route r) = Some (RouteKey (mr_Route r)).
Proof.
  intros Hn Hr. apply elem_of_list_to_map_1; [by setoid_rewrite routes_of_dom|].
  apply list_elem_of_fmap. eauto.
Qed.

Lemma routes_of_none rs x : x ∉ dsts rs -> routes_of rs !! x = None.
Proof. intros H. apply not_elem_of_list_to_map_1. by setoid_rewrite routes_of_dom. Qed.

Lemma routes_of_cases rs x :
  NoDup (dsts rs) ->
  (exists r, r ∈ rs /\ dstKey (mr_Route r) = x /\ routes_of rs !! x = Some (RouteKey (mr_Route r))) \/
  (x ∉ dsts rs /\ routes_of rs !! x = None).
Proof.
  intros Hn. destruct (decide (x ∈ dsts rs)) as [Hx|Hx].
  - left. apply elem_of_dsts in Hx as (r & Hr & <-). exists r. split_and!; [done..|].
    by apply routes_of_in.
  - right. split; [done|]. by apply routes_of_none.
Qed.

(** Two routes of a set with one per destination are one. *)
Lemma dsts_unique rs r1 r2 :
  NoDup (dsts rs) -> r1 ∈ rs -> r2 ∈ rs -> dstKey (mr_Route r1) = dstKey (mr_Route r2) -> r1 = r2.
Proof.
  apply (NoDup_map_inj (fun r => dstKey (mr_Route r))).
Qed.

(** ** The maps [Reconcile] builds *)

Lemma has_spec {A} (m : gmap string A) k : has m k = true <-> is_Some (m !! k).
Proof. unfold has. by rewrite bool_decide_eq_true. Qed.

Lemma fold_insert_has {A B} (f : A -> string) (g : A -> B) l (m : gmap string B) k :
  is_Some (fold_left (fun m r => <[f r := g r]> m) l m !! k) <-> is_Some (m !! k) \/ k ∈ map f l.
Proof.
  revert m. induction l as [|x l IH]; intros m; simpl.
  - rewrite elem_of_nil. tauto.
  - rewrite IH, lookup_insert_is_Some, elem_of_cons. destruct (decide (f x = k)); naive_solver.
Qed.

Lemma indexRoutes_has rs k : has (indexRoutes rs) k = true <-> k ∈ rkeys rs.
Proof.
  rewrite has_spec. unfold indexRoutes.
  rewrite (fold_insert_has (fun r => RouteKey (mr_Route r)) (fun r => r)), lookup_empty.
  split; [|by right]. intros [[]|]; done.
Qed.

Lemma indexRules_has rs k : has (indexRules rs) k = true <-> k ∈ rules_of rs.
Proof.
  rewrite has_spec. unfold indexRules, rules_of. rewrite elem_of_list_to_set.
  rewrite (fold_insert_has (fun r => RuleKey (ml_Rule r)) (fun r => r)), lookup_empty.
  split; [|by right]. intros [[]|]; done.
Qed.

Lemma index_byDst_lookup dr actual x :
  default [] (index_byDst dr actual !! x) =
  keep_if (fun a => negb (has dr (RouteKey (mr_Route a))) && bool_decide (dstKey (mr_Route a) = x)) actual.
Proof.
  unfold index_byDst.
  assert (forall (m : gmap string (list ManagedRoute)),
    default [] (fold_left (fun m a => if has dr (RouteKey (mr_Route a)) then m
      else let k := dstKey (mr_Route a) in <[k := default [] (m !! k) ++ [a]]> m) actual m !! x) =
    default [] (m !! x) ++
    keep_if (fun a => negb (has dr (RouteKey (mr_Route a))) && bool_decide (dstKey (mr_Route a) = x)) actual)
    as H; [|by rewrite H, lookup_empty].
  induction actual as [|a l IH]; intros m; simpl; [by rewrite app_nil_r|]. rewrite IH.
  destruct (has dr (RouteKey (mr_Route a))); simpl; [done|].
  destruct (decide (dstKey (mr_Route a) = x)) as [<-|Hx].
  - rewrite lookup_insert_eq, bool_decide_true by done. simpl. by rewrite <- app_assoc.
  - by rewrite lookup_insert_ne, bool_decide_false by done.
Qed.

(** ** What the plan's operations are

    For the rest, the desired and the owned routes hold one route per
    destination and no separator in a field. *)
Definition route_set (rs : list ManagedRoute) : Prop :=
  NoDup (dsts rs) /\ Forall (fun r => route_wf (mr_Route r) = true) rs.

#[export] Instance route_set_dec rs : Decision (route_set rs).
Proof. unfold route_set. apply _. Defined.

Lemma route_set_unique rs r1 r2 :
  route_set rs -> r1 ∈ rs -> r2 ∈ rs -> dstKey (mr_Route r1) = dstKey (mr_Route r2) -> r1 = r2.
Proof. intros [? _]. by apply dsts_unique. Qed.

Section plan.
Context (D A : list ManagedRoute) (DR AR : list ManagedRule) (platform : string).

Abbreviation is_new d := (negb (has (indexRoutes A) (RouteKey (mr_Route d)))).
Abbreviation is_gone a := (negb (has (indexRoutes D) (RouteKey (mr_Route a)))).

(** The owned routes a new route of destination [x] replaces. *)
Definition olds (x : string) : list ManagedRoute :=
  keep_if (fun a => is_gone a && bool_decide (dstKey (mr_Route a) = x)) A.

Definition adds_for (d : ManagedRoute) : list PlanOp :=
  if is_new d then
    map (fun a => makeRouteOp OpDelRoute a platform) (olds (dstKey (mr_Route d)))
    ++ [makeRouteOp OpAddRoute d platform]
  else [].

Lemma elem_of_olds x a :
  a ∈ olds x <-> a ∈ A /\ RouteKey (mr_Route a) ∉ rkeys D /\ dstKey (mr_Route a) = x.
Proof.
  unfold olds. rewrite elem_of_keep_if, andb_true_iff, negb_true_iff, bool_decide_eq_true.
  rewrite <- not_true_iff_false, indexRoutes_has. tauto.
Qed.

Lemma replace_old_spec l : forall rep ops,
  NoDup (rkeys l) -> (forall a, a ∈ l -> RouteKey (mr_Route a) ∉ rep) ->
  replace_old l rep ops platform =
  (list_to_set (rkeys l) ∪ rep, ops ++ map (fun a => makeRouteOp OpDelRoute a platform) l).
Proof.
  induction l as [|a l IH]; intros rep ops Hn Hr; simpl.
  - rewrite app_nil_r. f_equal. set_solver.
  - simpl in Hn. apply NoDup_cons in Hn as [Ha Hn]. rewrite bool_decide_false by set_solver.
    rewrite IH; [|done|].
    + rewrite <- app_assoc. f_equal. set_solver.
    + intros b Hb. assert (RouteKey (mr_Route b) ∈ rkeys l) by (apply elem_of_rkeys; eauto).
      set_solver.
Qed.

Context (HA : route_set A).

Lemma olds_keys x : NoDup (rkeys (olds x)).
Proof.
  assert (NoDup (rkeys A)) as Hn.
  { destruct HA as [Hn Hw]. revert Hn Hw. clear. induction A as [|a l IH]; simpl; intros Hn Hw.
    - constructor.
    - apply NoDup_cons in Hn as [Ha Hn]. apply Forall_cons in Hw as [Hw Hl].
      constructor; [|by apply IH]. intros (b & Hb & E)%elem_of_rkeys. destruct Ha.
      apply elem_of_dsts. exists b. split; [done|]. apply RouteKey_dstKey; [|done..].
      rewrite Forall_forall in Hl. by apply Hl. }
  eapply sublist_NoDup; [exact Hn|]. apply sublist_map, keep_if_sublist.
Qed.

Lemma route_adds_spec l : forall rep ops,
  NoDup (dsts l) ->
  (forall a, a ∈ A -> RouteKey (mr_Route a) ∈ rep -> dstKey (mr_Route a) ∉ dsts l) ->
  (route_adds l (indexRoutes A) (index_byDst (indexRoutes D) A) rep ops platform).2 = ops ++ (l ≫= adds_for) /\
  forall a, a ∈ A ->
    RouteKey (mr_Route a) ∈ (route_adds l (indexRoutes A) (index_byDst (indexRoutes D) A) rep ops platform).1 <->
    RouteKey (mr_Route a) ∈ rep \/
    RouteKey (mr_Route a) ∉ rkeys D /\
    exists d, d ∈ l /\ is_new d = true /\ dstKey (mr_Route d) = dstKey (mr_Route a).
Proof.
  induction l as [|d l IH]; intros rep ops Hn Hr.
  { simpl. rewrite app_nil_r. split; [done|]. intros a Ha. split; [by left|].
    intros [Hk|(_ & d' & Hd' & _)]; [done|]. by apply elem_of_nil in Hd'. }
  simpl in Hn. apply NoDup_cons in Hn as [Hd Hn]. cbn [route_adds mbind list_bind].
  assert (forall a, a ∈ A -> RouteKey (mr_Route a) ∈ rep -> dstKey (mr_Route a) ∉ dsts l) as Hr'
    by set_solver.
  destruct (has (indexRoutes A) (RouteKey (mr_Route d))) eqn:En.
  { destruct (IH rep ops Hn Hr') as [-> H]. split.
    - unfold adds_for. by rewrite En.
    - intros a Ha. rewrite (H a Ha). split; intros [Hk|(Hk & d' & Hd' & Hn' & E)]; [by left| |by left|].
      + right. split; [done|]. exists d'. split_and!; [by right|done..].
      + right. split; [done|]. apply elem_of_cons in Hd' as [->|Hd']; [by rewrite En in Hn'|eauto]. }
  rewrite index_byDst_lookup. fold (olds (dstKey (mr_Route d))).
  rewrite replace_old_spec; [|apply olds_keys|].
  2:{ intros a (Ha & _ & E)%elem_of_olds Hk. apply (Hr a Ha Hk). rewrite E. simpl. set_solver. }
  edestruct IH as [-> H]; [done| |split].
  - intros a Ha. rewrite elem_of_union, elem_of_list_to_set, elem_of_rkeys.
    intros [(b & Hb & E)|Hk]; [|by apply Hr'].
    apply elem_of_olds in Hb as (Hb & _ & Hx).
    rewrite (RouteKey_dstKey (mr_Route a) (mr_Route b)), Hx; [done| | |done];
      destruct HA as [_ Hw]; rewrite Forall_forall in Hw; by apply Hw.
  - unfold adds_for at 2. rewrite En. simpl. by rewrite <- !app_assoc.
  - intros a Ha. rewrite (H a Ha), elem_of_union, elem_of_list_to_set, elem_of_rkeys. split.
    + intros [[(b & Hb & E)|Hk]|(Hk & d' & Hd' & Hn' & E)]; [|by left|].
      * apply elem_of_olds in Hb as (Hb & Hk & Hx). right. rewrite <- E. split; [done|].
        exists d. rewrite En. split_and!; [by left|done|]. rewrite <- Hx. symmetry.
        apply RouteKey_dstKey; [| |done]; destruct HA as [_ Hw]; rewrite Forall_forall in Hw; by apply Hw.
      * right. split; [done|]. exists d'. split_and!; [by right|done..].
    + intros [Hk|(Hk & d' & Hd' & Hn' & E)]; [by left; right|].
      apply elem_of_cons in Hd' as [->|Hd'].
      * left. left. exists a. split; [|done]. by apply elem_of_olds.
      * right. split; [done|]. eauto.
Qed.
End plan.

Definition ruleKeys (rs : list ManagedRule) : list string := map (fun r => RuleKey (ml_Rule r)) rs.

(** The plan in closed form. *)
Lemma reconcile_ops_eq D A DR AR platform :
  route_set D -> route_set A ->
  reconcile_ops D A DR AR platform =
  (D ≫= adds_for D A platform) ++
  map (fun d => makeRuleOp OpAddRule d platform)
    (keep_if (fun d => negb (bool_decide (RuleKey (ml_Rule d) ∈ rules_of AR))) DR) ++
  map (fun a => makeRuleOp OpDelRule a platform)
    (keep_if (fun a => negb (bool_decide (RuleKey (ml_Rule a) ∈ rules_of DR))) AR) ++
  map (fun a => makeRouteOp OpDelRoute a platform)
    (keep_if (fun a => negb (bool_decide (dstKey (mr_Route a) ∈ dsts D))) A).
Proof.
  intros HD HA. unfold reconcile_ops.
  destruct (route_adds _ _ _ _ _ _) as [rep ops] eqn:E.
  destruct (route_adds_spec D A platform HA D ∅ []) as [Hops Hrep]; [apply HD|set_solver|].
  rewrite E in Hops, Hrep. simpl in Hops, Hrep. subst ops.
  assert (forall rs k, has (indexRules rs) k = bool_decide (k ∈ rules_of rs)) as Hr.
  { intros rs k. apply eq_true_iff_eq. by rewrite indexRules_has, bool_decide_eq_true. }
  f_equal. f_equal; [|f_equal].
  - f_equal. apply List.filter_ext. intros. by rewrite Hr.
  - f_equal. apply List.filter_ext. intros. by rewrite Hr.
  - f_equal. apply List.filter_ext_in. intros a Ha%list_elem_of_In. apply eq_true_iff_eq.
    rewrite andb_true_iff, !negb_true_iff, !bool_decide_eq_false.
    rewrite <- not_true_iff_false, indexRoutes_has, (Hrep a Ha).
    destruct HD as [HnD HwD], HA as [HnA HwA]. rewrite Forall_forall in HwD, HwA. split.
    + intros [Hg Hnr] (d & Hd & Ed)%elem_of_dsts. apply Hnr. right. split; [done|].
      exists d. split_and!; [done| |done]. apply negb_true_iff, not_true_iff_false.
      rewrite indexRoutes_has. intros (b & Hb & Eb)%elem_of_rkeys.
      assert (b = a) as ->.
      { apply (dsts_unique A); [done..|]. rewrite <- Ed. apply RouteKey_dstKey; auto. }
      apply Hg, elem_of_rkeys. eauto.
    + intros Hx. split.
      * intros (d & Hd & Ed)%elem_of_rkeys. apply Hx, elem_of_dsts. exists d. split; [done|].
        apply RouteKey_dstKey; auto.
      * intros [Hk|(_ & d & Hd & _ & Ed)]; [set_solver|]. apply Hx, elem_of_dsts. eauto.
Qed.

(** ** Running a plan *)

(** An op that does what it says: an add finds its destination (or rule) free,
    a delete finds exactly what it deletes. *)
Definition op_clean (k : kernel) (op : PlanOp) : Prop :=
  match op_Kind op, op_Route op, op_Rule op with
  | OpAddRoute, Some r, _ => k_routes k !! dstKey (mr_Route r) = None
  | OpDelRoute, Some r, _ => k_routes k !! dstKey (mr_Route r) = Some (RouteKey (mr_Route r))
  | OpAddRule, _, Some r => RuleKey (ml_Rule r) ∉ k_rules k
  | OpDelRule, _, Some r => RuleKey (ml_Rule r) ∈ k_rules k
  | _, _, _ => False
  end.

Fixpoint run_clean (k : kernel) (ops : list PlanOp) : Prop :=
  match ops with
  | [] => True
  | op :: ops' => op_clean k op /\ run_clean (kernel_op k op) ops'
  end.

Lemma run_clean_app k l1 l2 : run_clean k (l1 ++ l2) <-> run_clean k l1 /\ run_clean (run_ops k l1) l2.
Proof. revert k. induction l1 as [|op l1 IH]; intros k; simpl; [tauto|]. rewrite IH. tauto. Qed.

Lemma kernel_eq k1 k2 : k_routes k1 = k_routes k2 -> k_rules k1 = k_rules k2 -> k1 = k2.
Proof. destruct k1, k2. simpl. by intros -> ->. Qed.

Lemma invert_op_clean k op platform :
  op_clean k op -> exists inv, invert_op op platform = Some inv /\ run_ops (kernel_op k op) inv = k.
Proof.
  unfold op_clean, invert_op, kernel_op.
  destruct op as [[] [r|] [l|] cmd hum]; simpl; intros H; try done; eexists; (split; [reflexivity|]);
    unfold run_ops, kernel_op; simpl; rewrite ?H; simpl; rewrite ?lookup_delete_eq; simpl;
    apply kernel_eq; simpl; try done.
  all: first [ apply delete_insert_id; done
             | rewrite insert_delete_eq; by apply insert_id
             | set_solver
             | apply set_eq; intros y; destruct (decide (y = RuleKey (ml_Rule l))); set_solver ].
Qed.

(** Rolling a clean run back restores the kernel. *)
Lemma run_invert ops : forall k platform,
  run_clean k ops -> exists inv, invert ops platform = Some inv /\ run_ops (run_ops k ops) inv = k.
Proof.
  induction ops as [|op ops IH]; intros k platform H; simpl; [by exists []|].
  destruct H as [Hop H]. destruct (IH _ platform H) as (inv & -> & Hinv).
  destruct (invert_op_clean k op platform Hop) as (o & -> & Ho). simpl.
  eexists. split; [done|]. rewrite run_ops_app.
  change (run_ops k (op :: ops)) with (run_ops (kernel_op k op) ops). by rewrite Hinv.
Qed.

(** What RiftRoute owns is in the kernel. *)
Definition installed (k : kernel) (A : list ManagedRoute) (AR : list ManagedRule) : Prop :=
  Forall (fun a => k_routes k !! dstKey (mr_Route a) = Some (RouteKey (mr_Route a))) A /\
  Forall (fun r => RuleKey (ml_Rule r) ∈ k_rules k) AR.

(** What it wants beyond that is nobody else's. *)
Definition room (k : kernel) (D A : list ManagedRoute) (DR AR : list ManagedRule) : Prop :=
  Forall (fun d => dstKey (mr_Route d) ∈ dsts A \/ k_routes k !! dstKey (mr_Route d) = None) D /\
  Forall (fun r => RuleKey (ml_Rule r) ∈ rules_of AR \/ RuleKey (ml_Rule r) ∉ k_rules k) DR.

#[export] Instance installed_dec k A AR : Decision (installed k A AR).
Proof. unfold installed. apply _. Defined.
#[export] Instance room_dec k D A DR AR : Decision (room k D A DR AR).
Proof. unfold room. apply _. Defined.

(** ** The route phase *)

Section route_phase.
Context (D A : list ManagedRoute) (platform : string).
Context (HD : route_set D) (HA : route_set A).

(** A new route finds its destination held by at most the one old route the
    plan deletes first. *)
Lemma olds_cases d :
  d ∈ D -> RouteKey (mr_Route d) ∉ rkeys A ->
  (exists a, a ∈ A /\ dstKey (mr_Route a) = dstKey (mr_Route d) /\ olds D A (dstKey (mr_Route d)) = [a]) \/
  (dstKey (mr_Route d) ∉ dsts A /\ olds D A (dstKey (mr_Route d)) = []).
Proof.
  intros Hd Hk. destruct HD as [HnD HwD], HA as [HnA HwA]. rewrite Forall_forall in HwD, HwA.
  assert (forall a, a ∈ A -> dstKey (mr_Route a) = dstKey (mr_Route d) ->
            a ∈ olds D A (dstKey (mr_Route d))) as Hin.
  { intros a Ha E. apply elem_of_olds. split_and!; [done| |done].
    intros (d' & Hd' & E')%elem_of_rkeys. assert (d' = d) as ->.
    { apply (dsts_unique D); [done..|]. rewrite <- E. apply RouteKey_dstKey; auto. }
    apply Hk, elem_of_rkeys. eauto. }
  destruct (decide (dstKey (mr_Route d) ∈ dsts A)) as [(a & Ha & E)%elem_of_dsts|Hx].
  - left. exists a. split_and!; [done..|].
    assert (NoDup (olds D A (dstKey (mr_Route d)))) as Hn.
    { eapply sublist_NoDup; [|apply keep_if_sublist]. unfold dsts in HnA. by eapply NoDup_fmap_1. }
    apply Permutation_singleton_r, NoDup_Permutation; [done|apply NoDup_singleton|].
    intros b. rewrite list_elem_of_singleton. split; [|intros ->; by apply Hin].
    intros (Hb & _ & Eb)%elem_of_olds. apply (dsts_unique A); [done..|congruence].
  - right. split; [done|]. destruct (olds D A _) as [|b l] eqn:Eo; [done|].
    assert (b ∈ olds D A (dstKey (mr_Route d))) as Hb by (rewrite Eo; by left).
    apply elem_of_olds in Hb as (Hb & _ & E). destruct Hx. apply elem_of_dsts. eauto.
Qed.

Lemma adds_for_run k d :
  d ∈ D ->
  (forall a, a ∈ A -> dstKey (mr_Route a) = dstKey (mr_Route d) ->
     k_routes k !! dstKey (mr_Route d) = Some (RouteKey (mr_Route a))) ->
  (dstKey (mr_Route d) ∉ dsts A -> k_routes k !! dstKey (mr_Route d) = None) ->
  run_ops k (adds_for D A platform d) =
    mkKernel (<[dstKey (mr_Route d) := RouteKey (mr_Route d)]> (k_routes k)) (k_rules k) /\
  run_clean k (adds_for D A platform d).
Proof.
  intros Hd Hold Hfree. unfold adds_for.
  destruct (has (indexRoutes A) (RouteKey (mr_Route d))) eqn:En; simpl.
  - split; [|done]. apply indexRoutes_has, elem_of_rkeys in En as (a & Ha & E).
    apply kernel_eq; simpl; [|done]. rewrite insert_id; [done|]. rewrite <- E. apply Hold; [done|].
    destruct HD as [_ HwD], HA as [_ HwA]. rewrite Forall_forall in HwD, HwA.
    apply RouteKey_dstKey; auto.
  - apply not_true_iff_false in En. rewrite indexRoutes_has in En.
    destruct (olds_cases d Hd En) as [(a & Ha & E & ->)|[Hx ->]]; simpl.
    + specialize (Hold a Ha E). unfold op_clean, kernel_op. simpl. rewrite E, lookup_delete_eq.
      split; [|done]. apply kernel_eq; simpl; [|done]. by rewrite insert_delete_eq.
    + specialize (Hfree Hx). unfold op_clean, kernel_op. simpl. rewrite Hfree. done.
Qed.

Lemma adds_run l : forall k,
  l ⊆ D -> NoDup (dsts l) ->
  (forall a, a ∈ A -> dstKey (mr_Route a) ∈ dsts l ->
     k_routes k !! dstKey (mr_Route a) = Some (RouteKey (mr_Route a))) ->
  (forall x, x ∈ dsts l -> x ∉ dsts A -> k_routes k !! x = None) ->
  run_ops k (l ≫= adds_for D A platform) = mkKernel (routes_of l ∪ k_routes k) (k_rules k) /\
  run_clean k (l ≫= adds_for D A platform).
Proof.
  induction l as [|d l IH]; intros k Hl Hn Hold Hfree; cbn [mbind list_bind].
  { split; [|done]. apply kernel_eq; simpl; [|done]. unfold routes_of. simpl.
    by rewrite (left_id_L ∅ (∪)). }
  simpl in Hn. apply NoDup_cons in Hn as [Hd Hn].
  destruct (adds_for_run k d) as [Hrun Hcl]; [set_solver| | |].
  { intros a Ha E. rewrite <- E. apply Hold; [done|]. rewrite E. by left. }
  { intros Hx. apply Hfree; [by left|done]. }
  rewrite run_ops_app, run_clean_app, Hrun.
  destruct (IH (mkKernel (<[dstKey (mr_Route d) := RouteKey (mr_Route d)]> (k_routes k)) (k_rules k)))
    as [Hr Hc]; [set_solver|done| | |split].
  - intros a Ha Hx. simpl. rewrite lookup_insert_ne by congruence. apply Hold; [done|by right].
  - intros x Hx Hxa. simpl. rewrite lookup_insert_ne by congruence. apply Hfree; [by right|done].
  - rewrite Hr. apply kernel_eq; simpl; [|done]. unfold routes_of. simpl.
    rewrite <- insert_union_l, insert_union_r; [done|]. by apply routes_of_none.
  - done.
Qed.

(** The last phase deletes the owned routes whose destination is not wanted. *)
Lemma dels_run l : forall k,
  NoDup (dsts l) ->
  (forall a, a ∈ l -> k_routes k !! dstKey (mr_Route a) = Some (RouteKey (mr_Route a))) ->
  run_ops k (map (fun a => makeRouteOp OpDelRoute a platform) l) =
    mkKernel (k_routes k ∖ routes_of l) (k_rules k) /\
  run_clean k (map (fun a => makeRouteOp OpDelRoute a platform) l).
Proof.
  induction l as [|a l IH]; intros k Hn Hin; simpl.
  { split; [|done]. apply kernel_eq; simpl; [|done]. unfold routes_of. simpl.
    by rewrite map_difference_empty. }
  simpl in Hn. apply NoDup_cons in Hn as [Ha Hn].
  destruct (IH (kernel_op k (makeRouteOp OpDelRoute a platform))) as [Hr Hc]; [done| |split].
  - intros b Hb. unfold kernel_op. simpl. rewrite lookup_delete_ne; [by apply Hin; right|].
    intros E. apply Ha, elem_of_dsts. eauto.
  - change (run_ops k (makeRouteOp OpDelRoute a platform :: ?l'))
      with (run_ops (kernel_op k (makeRouteOp OpDelRoute a platform)) l').
    rewrite Hr. apply kernel_eq; [|done]. unfold kernel_op, routes_of. simpl.
    apply map_eq. intros x. rewrite !lookup_difference.
    destruct (decide (x = dstKey (mr_Route a))) as [->|Hx].
    + rewrite lookup_insert_eq, lookup_delete_eq. by destruct (_ !! _).
    + by rewrite lookup_insert_ne, lookup_delete_ne by done.
  - split; [|done]. unfold op_clean. simpl. apply Hin. by left.
Qed.
End route_phase.

(** ** The rule phases *)

Lemma rule_adds_run platform l : forall k,
  NoDup (ruleKeys l) -> (forall r, r ∈ l -> RuleKey (ml_Rule r) ∉ k_rules k) ->
  run_ops k (map (fun d => makeRuleOp OpAddRule d platform) l) =
    mkKernel (k_routes k) (rules_of l ∪ k_rules k) /\
  run_clean k (map (fun d => makeRuleOp OpAddRule d platform) l).
Proof.
  induction l as [|r l IH]; intros k Hn Hin; simpl.
  { split; [|done]. apply kernel_eq; simpl; [done|]. unfold rules_of. simpl. set_solver. }
  simpl in Hn. apply NoDup_cons in Hn as [Hr Hn].
  destruct (IH (kernel_op k (makeRuleOp OpAddRule r platform))) as [Hrun Hc]; [done| |split].
  - intros b Hb. unfold kernel_op. simpl. rewrite not_elem_of_union, not_elem_of_singleton.
    split; [|by apply Hin; right]. intros E. apply Hr. rewrite <- E. apply list_elem_of_fmap. eauto.
  - change (run_ops k (makeRuleOp OpAddRule r platform :: ?l'))
      with (run_ops (kernel_op k (makeRuleOp OpAddRule r platform)) l').
    rewrite Hrun. apply kernel_eq; [done|]. unfold rules_of. simpl. set_solver.
  - split; [|done]. unfold op_clean. simpl. apply Hin. by left.
Qed.

Lemma rule_dels_run platform l : forall k,
  NoDup (ruleKeys l) -> (forall r, r ∈ l -> RuleKey (ml_Rule r) ∈ k_rules k) ->
  run_ops k (map (fun d => makeRuleOp OpDelRule d platform) l) =
    mkKernel (k_routes k) (k_rules k ∖ rules_of l) /\
  run_clean k (map (fun d => makeRuleOp OpDelRule d platform) l).
Proof.
  induction l as [|r l IH]; intros k Hn Hin; simpl.
  { split; [|done]. apply kernel_eq; simpl; [done|]. unfold rules_of. simpl. set_solver. }
  simpl in Hn. apply NoDup_cons in Hn as [Hr Hn].
  destruct (IH (kernel_op k (makeRuleOp OpDelRule r platform))) as [Hrun Hc]; [done| |split].
  - intros b Hb. unfold kernel_op. simpl. rewrite elem_of_difference, not_elem_of_singleton.
    split; [by apply Hin; right|]. intros E. apply Hr. rewrite <- E. apply list_elem_of_fmap. eauto.
  - change (run_ops k (makeRuleOp OpDelRule r platform :: ?l'))
      with (run_ops (kernel_op k (makeRuleOp OpDelRule r platform)) l').
    rewrite Hrun. apply kernel_eq; [done|]. unfold rules_of. simpl. set_solver.
  - split; [|done]. unfold op_clean. simpl. apply Hin. by left.
Qed.

(** ** The whole plan *)

Section whole_plan.
Context (D A : list ManagedRoute) (DR AR : list ManagedRule) (platform : string) (k : kernel).
Context (HD : route_set D) (HA : route_set A) (HDR : NoDup (ruleKeys DR)) (HAR : NoDup (ruleKeys AR)).
Context (Hin : installed k A AR) (Hroom : room k D A DR AR).

Definition new_rules := keep_if (fun d => negb (bool_decide (RuleKey (ml_Rule d) ∈ rules_of AR))) DR.
Definition old_rules := keep_if (fun a => negb (bool_decide (RuleKey (ml_Rule a) ∈ rules_of DR))) AR.
Definition old_routes := keep_if (fun a => negb (bool_decide (dstKey (mr_Route a) ∈ dsts D))) A.

(** After each phase. *)
Definition after_routes : kernel := mkKernel (routes_of D ∪ k_routes k) (k_rules k).

Lemma elem_of_new_rules r : r ∈ new_rules <-> r ∈ DR /\ RuleKey (ml_Rule r) ∉ rules_of AR.
Proof. unfold new_rules. by rewrite elem_of_keep_if, negb_true_iff, bool_decide_eq_false. Qed.
Lemma elem_of_old_rules r : r ∈ old_rules <-> r ∈ AR /\ RuleKey (ml_Rule r) ∉ rules_of DR.
Proof. unfold old_rules. by rewrite elem_of_keep_if, negb_true_iff, bool_decide_eq_false. Qed.
Lemma elem_of_old_routes a : a ∈ old_routes <-> a ∈ A /\ dstKey (mr_Route a) ∉ dsts D.
Proof. unfold old_routes. by rewrite elem_of_keep_if, negb_true_iff, bool_decide_eq_false. Qed.

Lemma route_phase_run :
  run_ops k (D ≫= adds_for D A platform) = after_routes /\ run_clean k (D ≫= adds_for D A platform).
Proof.
  destruct Hin as [HinA _], Hroom as [HrD _]. rewrite Forall_forall in HinA, HrD.
  apply adds_run; [done|done|done|apply HD|by intros; apply HinA|].
  intros x (d & Hd & <-)%elem_of_dsts Hx. by destruct (HrD d Hd).
Qed.

Lemma rule_phase_run :
  run_ops after_routes (map (fun d => makeRuleOp OpAddRule d platform) new_rules) =
    mkKernel (routes_of D ∪ k_routes k) (rules_of new_rules ∪ k_rules k) /\
  run_clean after_routes (map (fun d => makeRuleOp OpAddRule d platform) new_rules).
Proof.
  destruct Hroom as [_ HrR]. rewrite Forall_forall in HrR. apply (rule_adds_run platform new_rules after_routes).
  - eapply sublist_NoDup; [exact HDR|]. apply sublist_map, keep_if_sublist.
  - intros r [Hr Hk]%elem_of_new_rules. simpl. by destruct (HrR r Hr).
Qed.

Lemma rule_del_run (k' : kernel) :
  k_rules k' = rules_of new_rules ∪ k_rules k ->
  run_ops k' (map (fun d => makeRuleOp OpDelRule d platform) old_rules) =
    mkKernel (k_routes k') (rules_of DR ∪ (k_rules k ∖ rules_of AR)) /\
  run_clean k' (map (fun d => makeRuleOp OpDelRule d platform) old_rules).
Proof.
  intros Hk'. destruct Hin as [_ HiR]. rewrite Forall_forall in HiR.
  destruct (rule_dels_run platform old_rules k') as [Hr Hc].
  - eapply sublist_NoDup; [exact HAR|]. apply sublist_map, keep_if_sublist.
  - intros r [Hr Hk]%elem_of_old_rules. rewrite Hk', elem_of_union. right. by apply HiR.
  - split; [|done]. rewrite Hr. apply kernel_eq; [done|]. simpl. rewrite Hk'. apply set_eq. intros y.
    rewrite elem_of_difference, !elem_of_union, elem_of_difference, !elem_of_rules_of.
    setoid_rewrite elem_of_new_rules. setoid_rewrite elem_of_old_rules. split.
    + intros [[(r & [Hr' _] & <-)|Hy] Hno]; [left; eauto|].
      destruct (decide (y ∈ rules_of DR)) as [(r & Hr' & <-)%elem_of_rules_of|Hd]; [left; eauto|].
      right. split; [done|]. intros (r & Hr' & <-). apply Hno. eauto.
    + intros [(r & Hr' & <-)|[Hy Hno]].
      * split; [|intros (r' & [_ Hn] & E); apply Hn; rewrite E; apply elem_of_rules_of; eauto].
        destruct (decide (RuleKey (ml_Rule r) ∈ rules_of AR)) as [Ha|Ha]; [|left; eauto].
        right. apply elem_of_rules_of in Ha as (a & Ha & <-). by apply HiR.
      * split; [by right|]. intros (r & [Hr' _] & <-). apply Hno. eauto.
Qed.

Lemma del_phase_run (k' : kernel) :
  k_routes k' = routes_of D ∪ k_routes k ->
  run_ops k' (map (fun a => makeRouteOp OpDelRoute a platform) old_routes) =
    mkKernel (routes_of D ∪ (k_routes k ∖ routes_of A)) (k_rules k') /\
  run_clean k' (map (fun a => makeRouteOp OpDelRoute a platform) old_routes).
Proof.
  intros Hk'. destruct Hin as [HiA _]. rewrite Forall_forall in HiA.
  assert (NoDup (dsts old_routes)) as Hn
    by (eapply sublist_NoDup; [apply HA|]; apply sublist_map, keep_if_sublist).
  destruct (dels_run platform old_routes k' Hn) as [Hr Hc].
  - intros a [Ha Hx]%elem_of_old_routes. rewrite Hk', lookup_union_r by (by apply routes_of_none).
    by apply HiA.
  - split; [|done]. rewrite Hr. apply kernel_eq; [|done]. simpl. rewrite Hk'. apply map_eq. intros x.
    rewrite lookup_difference, !lookup_union, lookup_difference.
    destruct (routes_of_cases old_routes x Hn) as [(a & Ha & <- & ->)|[Hx ->]].
    + apply elem_of_old_routes in Ha as [Ha Hx].
      rewrite (routes_of_none D) by done. rewrite (routes_of_in A) by (apply HA || done). done.
    + destruct (routes_of_cases D x) as [(d & Hd & <- & ->)|[HxD ->]]; [apply HD| |].
      * by destruct (_ !! _), (_ !! _).
      * rewrite (routes_of_none A); [done|]. intros (a & Ha & <-)%elem_of_dsts. apply Hx, elem_of_dsts.
        exists a. split; [|done]. by apply elem_of_old_routes.
Qed.

Lemma reconcile_run :
  run_clean k (reconcile_ops D A DR AR platform) /\
  run_ops k (reconcile_ops D A DR AR platform) =
    mkKernel (routes_of D ∪ (k_routes k ∖ routes_of A)) (rules_of DR ∪ (k_rules k ∖ rules_of AR)).
Proof.
  rewrite reconcile_ops_eq by done. fold new_rules old_rules old_routes.
  destruct route_phase_run as [E1 C1], rule_phase_run as [E2 C2].
  rewrite !run_ops_app, !run_clean_app, E1, E2.
  edestruct (rule_del_run (mkKernel (routes_of D ∪ k_routes k) (rules_of new_rules ∪ k_rules k)))
    as [E3 C3]; [done|]. rewrite E3.
  edestruct del_phase_run as [E4 C4]; [|by rewrite E4]. done.
Qed.
End whole_plan.

(** ** Operations that leave a destination or the rules alone *)

Definition op_dst (op : PlanOp) : option string :=
  match op_Kind op with
  | OpAddRoute | OpDelRoute => (fun r => dstKey (mr_Route r)) <$> op_Route op
  | _ => None
  end.

Definition is_rule_op (op : PlanOp) : bool :=
  match op_Kind op with OpAddRule | OpDelRule => true | _ => false end.

Lemma run_untouched x ops : forall k,
  Forall (fun op => op_dst op <> Some x) ops -> k_routes (run_ops k ops) !! x = k_routes k !! x.
Proof.
  induction ops as [|op ops IH]; intros k H; [done|]. inversion H as [|?? Hop Hr]; subst.
  change (run_ops k (op :: ops)) with (run_ops (kernel_op k op) ops). rewrite IH by done.
  unfold kernel_op. unfold op_dst in Hop.
  destruct op as [[] [r|] [l|] cmd hum]; simpl in *; try done; try (case_match; [done|]; simpl).
  all: rewrite ?lookup_insert_ne, ?lookup_delete_ne; congruence.
Qed.

Lemma run_same_rules ops : forall k,
  Forall (fun op => is_rule_op op = false) ops -> k_rules (run_ops k ops) = k_rules k.
Proof.
  induction ops as [|op ops IH]; intros k H; [done|]. inversion H as [|?? Hop Hr]; subst.
  change (run_ops k (op :: ops)) with (run_ops (kernel_op k op) ops). rewrite IH by done.
  unfold kernel_op. destruct op as [[] [r|] [l|] cmd hum]; simpl in *; try done; by case_match.
Qed.

Lemma adds_ops_touch D A platform x :
  x ∉ dsts D -> Forall (fun op => op_dst op <> Some x) (D ≫= adds_for D A platform).
Proof.
  intros Hx. apply Forall_forall. intros op (d & Hop & Hd)%list_elem_of_bind.
  assert (dstKey (mr_Route d) <> x) by (intros <-; apply Hx, elem_of_dsts; eauto).
  unfold adds_for in Hop. case_match; [|set_solver].
  apply elem_of_app in Hop as [(a & -> & Ha)%list_elem_of_fmap|Hop];
    [|apply list_elem_of_singleton in Hop; subst op]; simpl.
  - apply elem_of_olds in Ha as (_ & _ & E). unfold op_dst. simpl. congruence.
  - unfold op_dst. simpl. congruence.
Qed.

(** A destination both sets route the same way is not touched at all. *)
Lemma adds_ops_same D A platform a :
  route_set D -> route_set A -> a ∈ A -> RouteKey (mr_Route a) ∈ rkeys D ->
  Forall (fun op => op_dst op <> Some (dstKey (mr_Route a))) (D ≫= adds_for D A platform).
Proof.
  intros [HnD HwD] [HnA HwA] Ha (d0 & Hd0 & E0)%elem_of_rkeys. rewrite Forall_forall in HwD, HwA.
  assert (dstKey (mr_Route d0) = dstKey (mr_Route a)) as Ex by (apply RouteKey_dstKey; auto).
  apply Forall_forall. intros op (d & Hop & Hd)%list_elem_of_bind. unfold adds_for in Hop.
  destruct (has (indexRoutes A) (RouteKey (mr_Route d))) eqn:En; simpl in Hop; [set_solver|].
  assert (dstKey (mr_Route d) <> dstKey (mr_Route a)) as Hne.
  { intros E. assert (d = d0) as -> by (apply (dsts_unique D); [done..|congruence]).
    apply not_true_iff_false in En. apply En, indexRoutes_has, elem_of_rkeys. eauto. }
  apply elem_of_app in Hop as [(b & -> & Hb)%list_elem_of_fmap|Hop];
    [|apply list_elem_of_singleton in Hop; subst op]; simpl.
  - apply elem_of_olds in Hb as (_ & _ & E). unfold op_dst. simpl. congruence.
  - unfold op_dst. simpl. congruence.
Qed.

Lemma adds_ops_routes D A platform : Forall (fun op => is_rule_op op = false) (D ≫= adds_for D A platform).
Proof.
  apply Forall_forall. intros op (d & Hop & Hd)%list_elem_of_bind. unfold adds_for in Hop.
  case_match; [|set_solver].
  apply elem_of_app in Hop as [(a & -> & Ha)%list_elem_of_fmap|Hop];
    [|apply list_elem_of_singleton in Hop; subst op]; done.
Qed.

Lemma rule_ops_dst (kind : OpKind) l platform x :
  is_rule_op (mkPlanOp kind None None [] "") = true ->
  Forall (fun op => op_dst op <> Some x) (map (fun d => makeRuleOp kind d platform) l).
Proof.
  intros Hk. apply Forall_forall. intros op (d & -> & Hd)%list_elem_of_fmap. by destruct kind.
Qed.

Lemma del_ops_dst l platform x :
  x ∉ dsts l -> Forall (fun op => op_dst op <> Some x) (map (fun a => makeRouteOp OpDelRoute a platform) l).
Proof.
  intros Hx. apply Forall_forall. intros op (a & -> & Ha)%list_elem_of_fmap. simpl.
  intros [= <-]. apply Hx, elem_of_dsts. eauto.
Qed.

Lemma del_ops_routes l platform :
  Forall (fun op => is_rule_op op = false) (map (fun a => makeRouteOp OpDelRoute a platform) l).
Proof. apply Forall_forall. intros op (a & -> & Ha)%list_elem_of_fmap. done. Qed.

(** Nothing outside both sets is touched. *)
Lemma reconcile_ops_dst D A DR AR platform x :
  route_set D -> route_set A ->
  (x ∉ dsts D /\ x ∉ dsts A) \/ (exists a, a ∈ A /\ RouteKey (mr_Route a) ∈ rkeys D /\ x = dstKey (mr_Route a)) ->
  Forall (fun op => op_dst op <> Some x) (reconcile_ops D A DR AR platform).
Proof.
  intros HD HA Hx. rewrite reconcile_ops_eq by done. rewrite !Forall_app. split_and!.
  - destruct Hx as [[Hx _]|(a & Ha & Hk & ->)]; [by apply adds_ops_touch|by apply adds_ops_same].
  - by apply rule_ops_dst.
  - by apply rule_ops_dst.
  - apply del_ops_dst. intros (b & Hb & Eb)%elem_of_dsts. apply elem_of_old_routes in Hb as [Hb Hbx].
    destruct Hx as [[_ Hx]|(a & Ha & (d & Hd & Ed)%elem_of_rkeys & ->)].
    + apply Hx, elem_of_dsts. eauto.
    + apply Hbx, elem_of_dsts. exists d. split; [done|]. rewrite Eb.
      destruct HD as [_ HwD], HA as [_ HwA]. rewrite Forall_forall in HwD, HwA.
      apply RouteKey_dstKey; auto.
Qed.

Section order.
Context (D A : list ManagedRoute) (DR AR : list ManagedRule) (platform : string) (k : kernel).
Context (HD : route_set D) (HA : route_set A) (HDR : NoDup (ruleKeys DR)) (HAR : NoDup (ruleKeys AR)).
Context (Hin : installed k A AR) (Hroom : room k D A DR AR).
Context (pre post : list PlanOp) (Hsplit : reconcile_ops D A DR AR platform = pre ++ post).

(** A rule that appeared finds every desired route in place. *)
Lemma rule_after_routes y d :
  y ∈ k_rules (run_ops k pre) -> y ∉ k_rules k -> d ∈ D ->
  k_routes (run_ops k pre) !! dstKey (mr_Route d) = Some (RouteKey (mr_Route d)).
Proof.
  intros Hy Hk Hd. rewrite reconcile_ops_eq in Hsplit by done.
  symmetry in Hsplit. apply app_eq_app in Hsplit as (l & [[-> El]|[E _]]).
  - rewrite run_ops_app, (proj1 (route_phase_run D A DR AR platform k HD HA Hin Hroom)).
    rewrite run_untouched.
    + simpl. apply lookup_union_Some_l. apply routes_of_in; [apply HD|done].
    + assert (Forall (fun op => op_dst op <> Some (dstKey (mr_Route d))) (l ++ post)) as Hf.
      { rewrite <- El, !Forall_app. split_and!; [by apply rule_ops_dst..|].
        apply del_ops_dst. intros (a & Ha & E)%elem_of_dsts.
        apply elem_of_old_routes in Ha as [_ Hx]. apply Hx, elem_of_dsts. eauto. }
      by apply Forall_app in Hf as [Hf _].
  - rewrite run_same_rules in Hy; [done|].
    pose proof (adds_ops_routes D A platform) as Hf. rewrite E in Hf.
    by apply Forall_app in Hf as [Hf _].
Qed.

(** While a rule to be deleted is there, the routes to be deleted are too. *)
Lemma routes_after_rule y a :
  y ∈ k_rules (run_ops k pre) -> y ∈ rules_of AR -> y ∉ rules_of DR ->
  a ∈ A -> dstKey (mr_Route a) ∉ dsts D ->
  k_routes (run_ops k pre) !! dstKey (mr_Route a) = Some (RouteKey (mr_Route a)).
Proof.
  intros Hy HyA HyD Ha Hx. rewrite reconcile_ops_eq in Hsplit by done.
  fold (new_rules DR AR) (old_rules DR AR) (old_routes D A) in Hsplit.
  rewrite !(app_assoc _ _ (map _ _)) in Hsplit.
  symmetry in Hsplit. apply app_eq_app in Hsplit as (l & [[-> El]|[E _]]).
  - exfalso. rewrite run_ops_app, run_same_rules in Hy.
    + rewrite !run_ops_app in Hy.
      rewrite (proj1 (route_phase_run D A DR AR platform k HD HA Hin Hroom)) in Hy.
      rewrite (proj1 (rule_phase_run D A DR AR platform k HDR Hroom)) in Hy.
      rewrite (proj1 (rule_del_run A DR AR platform k HAR Hin
        (mkKernel (routes_of D ∪ k_routes k) (rules_of (new_rules DR AR) ∪ k_rules k)) eq_refl)) in Hy.
      simpl in Hy.
      set_solver.
    + pose proof (del_ops_routes (old_routes D A) platform) as Hf. rewrite El in Hf. by apply Forall_app in Hf as [Hf _].
  - rewrite run_untouched.
    + destruct Hin as [HiA _]. rewrite Forall_forall in HiA. by apply HiA.
    + assert (Forall (fun op => op_dst op <> Some (dstKey (mr_Route a))) (pre ++ l)) as Hf.
      { rewrite <- E, !Forall_app. split_and!; [by apply adds_ops_touch|by apply rule_ops_dst..]. }
      by apply Forall_app in Hf as [Hf _].
Qed.
End order.

(** ** Plans with nothing to do *)

Lemma route_adds_none D A platform l : forall rep ops,
  (forall d, d ∈ l -> RouteKey (mr_Route d) ∈ rkeys A) ->
  route_adds l (indexRoutes A) (index_byDst (indexRoutes D) A) rep ops platform = (rep, ops).
Proof.
  induction l as [|d l IH]; intros rep ops Hl; simpl; [done|].
  rewrite (proj2 (indexRoutes_has A _)) by (apply Hl; by left). apply IH. intros. apply Hl. by right.
Qed.

Lemma route_adds_empty D A platform l : forall rep rep' ops,
  route_adds l (indexRoutes A) (index_byDst (indexRoutes D) A) rep ops platform = (rep', []) ->
  ops = [] /\ forall d, d ∈ l -> RouteKey (mr_Route d) ∈ rkeys A.
Proof.
  induction l as [|d l IH]; intros rep rep' ops Hl; simpl in Hl.
  - split; [congruence|set_solver].
  - destruct (has (indexRoutes A) (RouteKey (mr_Route d))) eqn:E.
    + destruct (IH _ _ _ Hl) as [-> H]. split; [done|]. intros d' [->|Hd]%elem_of_cons; [|by apply H].
      by apply indexRoutes_has.
    + destruct (replace_old _ _ _ _). destruct (IH _ _ _ Hl) as [E' _].
      by apply app_eq_nil in E' as [_ E'].
Qed.

Lemma map_keep_nil {X Y} (f : X -> bool) (g : X -> Y) l :
  map g (keep_if f l) = [] <-> forall x, x ∈ l -> f x = false.
Proof.
  split.
  - intros E%map_eq_nil x Hx. destruct (f x) eqn:Ef; [|done].
    assert (x ∈ keep_if f l) as H by (apply elem_of_keep_if; done). rewrite E in H. set_solver.
  - intros H. by rewrite keep_if_none.
Qed.

(** ** Theorems *)

(** A plan does what was asked. On a kernel that keeps one route per
    destination and holds what RiftRoute owns, with nobody else's route on a
    newly wanted destination, [Reconcile] returns a plan whose every operation
    takes effect (no add finds its destination taken, no delete removes
    another route), whose run leaves exactly the desired routes and rules in
    place of the owned ones and everyone else's as they were, and whose
    inverse, run after it, restores the kernel. *)
Theorem Reconcile_correct D A DR AR platform k :
  route_set D -> route_set A -> NoDup (ruleKeys DR) -> NoDup (ruleKeys AR) ->
  installed k A AR -> room k D A DR AR ->
  exists plan, Reconcile D A DR AR platform = Some plan /\
    run_clean k (pl_Ops plan) /\
    run_ops k (pl_Ops plan) =
      mkKernel (routes_of D ∪ (k_routes k ∖ routes_of A)) (rules_of DR ∪ (k_rules k ∖ rules_of AR)) /\
    run_ops (run_ops k (pl_Ops plan)) (pl_Inverse plan) = k.
Proof.
  intros HD HA HDR HAR Hin Hroom.
  destruct (reconcile_run D A DR AR platform k) as [Hc Hr]; [done..|].
  destruct (run_invert _ k platform Hc) as (inv & Ei & Hinv).
  exists (mkPlan (reconcile_ops D A DR AR platform) inv). unfold Reconcile. by rewrite Ei.
Qed.

(** C12: The order of a plan preserves connectivity at every point of its run:
    a policy rule that is new is only there once every desired route is; while
    a rule that will be deleted is still there, so is every owned route whose
    destination is no longer wanted; and a destination routed the same way
    before and after, or by neither set, is never touched. *)
Theorem Reconcile_order D A DR AR platform k pre post :
  route_set D -> route_set A -> NoDup (ruleKeys DR) -> NoDup (ruleKeys AR) ->
  installed k A AR -> room k D A DR AR ->
  reconcile_ops D A DR AR platform = pre ++ post ->
  (forall y d, y ∈ k_rules (run_ops k pre) -> y ∉ k_rules k -> d ∈ D ->
     k_routes (run_ops k pre) !! dstKey (mr_Route d) = Some (RouteKey (mr_Route d))) /\
  (forall y a, y ∈ k_rules (run_ops k pre) -> y ∈ rules_of AR -> y ∉ rules_of DR ->
     a ∈ A -> dstKey (mr_Route a) ∉ dsts D ->
     k_routes (run_ops k pre) !! dstKey (mr_Route a) = Some (RouteKey (mr_Route a))) /\
  (forall x, (x ∉ dsts D /\ x ∉ dsts A) \/
             (exists a, a ∈ A /\ RouteKey (mr_Route a) ∈ rkeys D /\ x = dstKey (mr_Route a)) ->
     k_routes (run_ops k pre) !! x = k_routes k !! x).
Proof.
  intros HD HA HDR HAR Hin Hroom Hs. split_and!.
  - intros y d. by eapply rule_after_routes.
  - intros y a. by eapply routes_after_rule.
  - intros x Hx. apply run_untouched.
    pose proof (reconcile_ops_dst D A DR AR platform x HD HA Hx) as Hf. rewrite Hs in Hf.
    by apply Forall_app in Hf as [Hf _].
Qed.

(** A plan with nothing to do finds every desired route among the owned ones. *)
Lemma reconcile_nil_owned D A DR AR platform d :
  reconcile_ops D A DR AR platform = [] -> d ∈ D -> RouteKey (mr_Route d) ∈ rkeys A.
Proof.
  unfold reconcile_ops. destruct (route_adds _ _ _ _ _ _) as [rep ops] eqn:E.
  intros [-> _]%app_eq_nil Hd. by apply (route_adds_empty _ _ _ _ _ _ _ E).
Qed.

(** A plan is empty exactly when the desired and the owned sets hold the
    same routes and the same rules, by key (so an apply that has nothing to do
    plans nothing, and a plan with nothing to do means nothing is missing). *)
Theorem Reconcile_in_sync D A DR AR platform :
  reconcile_ops D A DR AR platform = [] <->
  (forall x, x ∈ rkeys D <-> x ∈ rkeys A) /\ rules_of DR = rules_of AR.
Proof.
  unfold reconcile_ops. split.
  - destruct (route_adds _ _ _ _ _ _) as [rep ops] eqn:E.
    intros (E1 & (E2 & (E3 & E4)%app_eq_nil)%app_eq_nil)%app_eq_nil. subst ops.
    destruct (route_adds_empty _ _ _ _ _ _ _ E) as [_ HD]. rewrite route_adds_none in E by done.
    injection E as <-. rewrite map_keep_nil in E2. rewrite map_keep_nil in E3. rewrite map_keep_nil in E4. split.
    + intros x. rewrite !elem_of_rkeys. split; intros (r & Hr & <-).
      * apply elem_of_rkeys. by apply HD.
      * specialize (E4 r Hr). rewrite bool_decide_false, andb_true_r in E4 by set_solver.
        apply negb_false_iff, indexRoutes_has, elem_of_rkeys in E4. done.
    + apply set_eq. intros x. rewrite !elem_of_rules_of. split; intros (r & Hr & <-); apply elem_of_rules_of.
      * specialize (E2 r Hr). by apply negb_false_iff, indexRules_has in E2.
      * specialize (E3 r Hr). by apply negb_false_iff, indexRules_has in E3.
  - intros [HK HRl]. rewrite route_adds_none by (intros d Hd; apply HK, elem_of_rkeys; eauto). simpl.
    rewrite !(fun X Y f g l => proj2 (@map_keep_nil X Y f g l)); [done| | |].
    + intros a Ha. rewrite (proj2 (indexRoutes_has D _)) by (apply HK, elem_of_rkeys; eauto). done.
    + intros r Hr. apply negb_false_iff, indexRules_has. rewrite HRl. apply elem_of_rules_of. eauto.
    + intros r Hr. apply negb_false_iff, indexRules_has. rewrite <- HRl. apply elem_of_rules_of. eauto.
Qed.

(** The key identifies a route: two routes whose fields hold no separator
    have the same key exactly when they agree on family, table, destination,
    gateway, interface and on being a reject route. *)
Theorem RouteKey_identifies r1 r2 :
  route_wf r1 = true -> route_wf r2 = true ->
  RouteKey r1 = RouteKey r2 <->
  rt_Family r1 = rt_Family r2 /\ rt_Table r1 = rt_Table r2 /\ rt_DstCIDR r1 = rt_DstCIDR r2 /\
  rt_Gateway r1 = rt_Gateway r2 /\ rt_Iface r1 = rt_Iface r2 /\ rt_Reject r1 = rt_Reject r2.
Proof.
  intros H1 H2. split.
  - intros E. destruct (RouteKey_fields r1 r2 H1 H2 E) as (-> & -> & -> & -> & Et).
    apply route_wf_fields in H1 as (_ & _ & _ & _ & I1), H2 as (_ & _ & _ & _ & I2).
    by destruct (key_tail_inj r1 r2 I1 I2 Et) as [-> ->].
  - intros (E1 & E2 & E3 & E4 & E5 & E6). unfold RouteKey. by rewrite E1, E2, E3, E4, E5, E6.
Qed.

Definition rule_wf (r : PolicyRule) : bool :=
  no_bar (pr_Selector r) && no_bar (pr_Table r) && no_bar (pr_Family r) && no_bar (pr_RouteToIface r).

Lemma RuleKey_split r :
  RuleKey r = pretty (pr_Priority r) +:+ "|" +:+ pr_Selector r +:+ "|" +:+ pr_Table r +:+ "|" +:+
    pr_Family r +:+ (if negb (pr_RouteToIface r =s? "")
                     then "|" +:+ pr_RouteToIface r +:+ "|" +:+ pr_RouteToGW r else "").
Proof.
  unfold RuleKey. destruct (negb _); [|by rewrite append_nil_r]. by rewrite !append_assoc.
Qed.

Lemma RuleKey_fields r1 r2 :
  rule_wf r1 = true -> rule_wf r2 = true -> RuleKey r1 = RuleKey r2 ->
  pr_Priority r1 = pr_Priority r2 /\ pr_Selector r1 = pr_Selector r2 /\ pr_Table r1 = pr_Table r2 /\
  pr_Family r1 = pr_Family r2 /\ pr_RouteToIface r1 = pr_RouteToIface r2 /\
  (pr_RouteToIface r1 <> "" -> pr_RouteToGW r1 = pr_RouteToGW r2).
Proof.
  unfold rule_wf. intros H1 H2 E. bool_hyps. rewrite !RuleKey_split in E.
  apply bar_split in E as [Ep%(inj pretty) E]; [|apply pretty_Z_no_bar..].
  apply bar_split in E as [-> E]; [|done..]. apply bar_split in E as [-> E]; [|done..].
  destruct (String.eqb_spec (pr_RouteToIface r1) "") as [Ei1|Ei1],
           (String.eqb_spec (pr_RouteToIface r2) "") as [Ei2|Ei2]; simpl in E;
    rewrite ?append_nil_r in E.
  - split_and!; congruence.
  - assert (no_bar (pr_Family r1) = true) as Hb by done. rewrite E, no_bar_app in Hb. simpl in Hb.
    by rewrite andb_false_r in Hb.
  - assert (no_bar (pr_Family r2) = true) as Hb by done. rewrite <- E, no_bar_app in Hb. simpl in Hb.
    by rewrite andb_false_r in Hb.
  - change (String "|" ?s) with ("|" +:+ s) in E.
    apply bar_split in E as [-> E]; [|done..]. apply bar_split in E as [-> E]; [|done..]. done.
Qed.

(** The key identifies a policy rule, its route-to target included: the
    same key means the same priority, selector, table, family and route-to
    interface, and the same route-to gateway when there is an interface (a
    peer that comes back with another gateway is a different rule). *)
Theorem RuleKey_identifies r1 r2 :
  rule_wf r1 = true -> rule_wf r2 = true -> RuleKey r1 = RuleKey r2 ->
  pr_Priority r1 = pr_Priority r2 /\ pr_Selector r1 = pr_Selector r2 /\ pr_Table r1 = pr_Table r2 /\
  pr_Family r1 = pr_Family r2 /\ pr_RouteToIface r1 = pr_RouteToIface r2 /\
  (pr_RouteToIface r1 <> "" -> pr_RouteToGW r1 = pr_RouteToGW r2).
Proof. apply RuleKey_fields. Qed.

(** ** Witnesses *)

Definition ex_route (dst gw iface : string) : ManagedRoute :=
  mkMR (mkRoute dst gw iface 0 FamilyV4 OwnerRiftRoute "" "" "work" false false false) "work" 0.
Definition ex_rule (sel : string) : ManagedRule :=
  mkMRule (mkPolicyRule 5252 sel "5252" FamilyV4 "riftroute" "" "") "work" 0.

(** A gateway moves, one destination goes, one comes, one stays; a foreign
    default is there throughout. *)
Definition ex_actual := [ex_route "10.0.0.0/8" "192.168.1.1" "en0"; ex_route "172.16.0.0/12" "192.168.1.1" "en0";
                         ex_route "1.1.1.1/32" "192.168.1.1" "en0"].
Definition ex_desired := [ex_route "10.0.0.0/8" "10.9.9.1" "en1"; ex_route "1.1.1.1/32" "192.168.1.1" "en0";
                          ex_route "8.8.8.8/32" "10.9.9.1" "en1"].
Definition ex_kernel := mkKernel (<["v4||0.0.0.0/0" := "v4||0.0.0.0/0|192.168.1.1|en0"]> (routes_of ex_actual))
                                 {[RuleKey (ml_Rule (ex_rule "to 10.0.0.0/8"))]}.

Lemma Reconcile_correct_witness :
  exists plan, Reconcile ex_desired ex_actual [ex_rule "to 1.0.0.0/8"] [ex_rule "to 10.0.0.0/8"] "linux" = Some plan /\
    run_ops (run_ops ex_kernel (pl_Ops plan)) (pl_Inverse plan) = ex_kernel.
Proof.
  destruct (Reconcile_correct ex_desired ex_actual [ex_rule "to 1.0.0.0/8"] [ex_rule "to 10.0.0.0/8"] "linux"
              ex_kernel) as (plan & E & _ & _ & H);
    [apply (bool_decide_unpack (route_set ex_desired)); vm_compute; exact I
    |apply (bool_decide_unpack (route_set ex_actual)); vm_compute; exact I
    |apply (bool_decide_unpack (NoDup _)); vm_compute; exact I
    |apply (bool_decide_unpack (NoDup _)); vm_compute; exact I
    |apply (bool_decide_unpack (installed _ _ _)); vm_compute; exact I
    |apply (bool_decide_unpack (room _ _ _ _ _)); vm_compute; exact I
    |].
  exists plan. split; [exact E|exact H].
Defined.

Lemma Reconcile_order_witness :
  let ops := reconcile_ops ex_desired ex_actual [ex_rule "to 1.0.0.0/8"] [ex_rule "to 10.0.0.0/8"] "linux" in
  length ops = 6%nat /\
  k_routes (run_ops ex_kernel (take 4 ops)) !! "v4||8.8.8.8/32" = Some "v4||8.8.8.8/32|10.9.9.1|en1".
Proof.
  split; [vm_compute; reflexivity|].
  destruct (Reconcile_order ex_desired ex_actual [ex_rule "to 1.0.0.0/8"] [ex_rule "to 10.0.0.0/8"] "linux"
              ex_kernel
              (take 4 (reconcile_ops ex_desired ex_actual [ex_rule "to 1.0.0.0/8"] [ex_rule "to 10.0.0.0/8"] "linux"))
              (drop 4 (reconcile_ops ex_desired ex_actual [ex_rule "to 1.0.0.0/8"] [ex_rule "to 10.0.0.0/8"] "linux")))
    as (H & _ & _);
    [apply (bool_decide_unpack (route_set ex_desired)); vm_compute; exact I
    |apply (bool_decide_unpack (route_set ex_actual)); vm_compute; exact I
    |apply (bool_decide_unpack (NoDup _)); vm_compute; exact I
    |apply (bool_decide_unpack (NoDup _)); vm_compute; exact I
    |apply (bool_decide_unpack (installed _ _ _)); vm_compute; exact I
    |apply (bool_decide_unpack (room _ _ _ _ _)); vm_compute; exact I
    |symmetry; apply take_drop
    |].
  apply (H (RuleKey (ml_Rule (ex_rule "to 1.0.0.0/8"))) (ex_route "8.8.8.8/32" "10.9.9.1" "en1")).
  - apply (bool_decide_unpack (_ ∈ _)); vm_compute; exact I.
  - apply (bool_decide_unpack (_ ∉ _)); vm_compute; exact I.
  - apply (bool_decide_unpack (_ ∈ _)); vm_compute; exact I.
Defined.

Lemma RouteKey_identifies_witness :
  RouteKey (mr_Route (ex_route "10.0.0.0/8" "192.168.1.1" "en0")) <>
  RouteKey (mr_Route (ex_route "10.0.0.0/8" "10.9.9.1" "en0")).
Proof.
  intros E. apply RouteKey_identifies in E; [|reflexivity|reflexivity].
  destruct E as (_ & _ & _ & E & _). discriminate E.
Defined.

Lemma RuleKey_identifies_witness :
  let r gw := mkPolicyRule 5252 "to 10.0.0.0/8" "" FamilyV4 "riftroute" "utun4" gw in
  RuleKey (r "10.8.0.1") <> RuleKey (r "10.8.0.5").
Proof.
  intros r E. apply RuleKey_identifies in E; [|reflexivity|reflexivity].
  destruct E as (_ & _ & _ & _ & _ & E). discriminate E. discriminate.
Defined.
