(* ===== verification/Nets.v ===== *)
(** * Cutting networks around one another (internal/routing/tunnels.go, engine.go)

    The set operations the engine makes destinations with: [outsideTunnels]
    drops what lies inside a tunnel's networks, [aroundTunnels] cuts around
    them, [subtractNets] is set difference by repeated halving, [within] tests
    a block against an aggregated list. *)

From S2P Require Import Prelude.
From S2P Require Import Netip Aggregate.

(** ** Operations *)

(** [halves]: the upper half is the lower one with its first host bit set.
    Called on a prefix shorter than another of its family, so the bit is
    there. *)
Definition halves (p : prefix) : prefix * prefix :=
  let bits := p_bits p + 1 in
  let a := p_addr (Masked p) in
  let hi := set_val a (Z.lor (addr_val a) (Z.shiftl 1 (BitLen a - 1 - p_bits p))) in
  (PrefixFrom a bits, PrefixFrom hi bits).

(** What the first network of [nets] that decides says of [p]. *)
Inductive verdict : Type := Apart | Inside | Across.

Fixpoint subtract_verdict (p : prefix) (nets : list prefix) : verdict :=
  match nets with
  | [] => Apart
  | n :: nets' =>
      if negb (Bool.eqb (Is4 (p_addr n)) (Is4 (p_addr p))) then subtract_verdict p nets'
      else if holds n p then Inside
      else if (p_bits p <? p_bits n) && Contains p (p_addr n) then Across
      else subtract_verdict p nets'
  end.

(** Each recursive call is on a longer prefix, so the host bits bound the
    depth. *)
Fixpoint subtract_fuel (fuel : nat) (p : prefix) (nets : list prefix) : list prefix :=
  match fuel with
  | O => []
  | S fuel' =>
      match subtract_verdict p nets with
      | Apart => [p]
      | Inside => []
      | Across =>
          let '(lo, hi) := halves p in
          subtract_fuel fuel' lo nets ++ subtract_fuel fuel' hi nets
      end
  end.

Definition subtractNets (p : prefix) (nets : list prefix) : list prefix :=
  subtract_fuel (S (Z.to_nat (host_bits p))) p nets.

Definition inside_any (p : prefix) (nets : list prefix) : bool := existsb (fun n => holds n p) nets.

Definition outsideTunnels (prefixes nets : list prefix) : list prefix :=
  match nets with
  | [] => prefixes
  | _ => keep_if (fun p => negb (inside_any p nets)) prefixes
  end.

Definition aroundTunnels (prefixes nets : list prefix) : list prefix :=
  match nets with
  | [] => prefixes
  | _ => prefixes ≫= (fun p => subtractNets (Masked p) nets)
  end.

Definition within (pfx : prefix) (aggregated : list prefix) : bool :=
  existsb (fun a => holds a pfx) aggregated.

(** ** Subtraction *)

Lemma lor_disjoint x k : 0 <= k -> x mod 2 ^ (k + 1) = 0 -> Z.lor x (Z.shiftl 1 k) = x + 2 ^ k.
Proof.
  intros Hk Hx. rewrite Z.shiftl_1_l, <- Z.lxor_lor, Z.add_nocarry_lxor; [done| |].
  all: apply Z.bits_inj'; intros n Hn; rewrite Z.land_spec, Z.bits_0, Z.pow2_bits_eqb by lia.
  all: destruct (Z.eqb_spec k n) as [->|]; [|by rewrite andb_false_r]; rewrite andb_true_r.
  all: rewrite (Z.div_mod x (2 ^ (n + 1))), Hx, Z.add_0_r, Z.mul_comm by lia.
  all: rewrite Z.mul_pow2_bits_low by lia; done.
Qed.

Lemma halves_child p : splits p -> halves p = (child p false, child p true).
Proof.
  intros Hs. pose proof (splits_valid p Hs) as Hv. pose proof Hs as (Hok & Hm & Hb).
  pose proof (masked_val p Hok Hm Hv) as Ev. destruct (valid_IsValid p Hok Hv) as [Hva _].
  unfold halves. unfold masked in Hm. rewrite Hm.
  assert (forall a : addr, IsValid a = true -> Zone a = "" -> BitLen a = BitLen (p_addr p) ->
    PrefixFrom a (p_bits p + 1) = mkPrefix a (p_bits p + 1)) as Hpf.
  { intros a Ha Hz Hl. unfold PrefixFrom. rewrite Ha.
    rewrite (proj2 (Z.leb_le 0 _)), (proj2 (Z.leb_le _ (BitLen a))) by lia. simpl.
    destruct a; simpl in *; try done. by subst. }
  destruct Hok as (_ & Hz & _). unfold child.
  replace (BitLen (p_addr p) - 1 - p_bits p) with (host_bits p - 1) by (unfold host_bits; lia).
  rewrite lor_disjoint; [| unfold host_bits; lia |].
  2:{ rewrite Ev. replace (host_bits p - 1 + 1) with (host_bits p) by lia. apply Z.mod_mul.
      apply Z.pow_nonzero; unfold host_bits; lia. }
  f_equal; rewrite Hpf.
  - f_equal. rewrite Z.add_0_r. by destruct (p_addr p).
  - done.
  - done.
  - done.
  - done.
  - by destruct (p_addr p).
  - by destruct (p_addr p).
  - by destruct (p_addr p).
Qed.

Section subtract.
Context (nets : list prefix) (Hnets : Forall prefix_ok nets).

Lemma verdict_inside p l :
  subtract_verdict p l = Inside -> exists n, n ∈ l /\ holds n p = true.
Proof.
  induction l as [|n l IH]; simpl; [done|]. repeat case_match; try done; intros E; auto.
  - destruct (IH E) as (m & Hm & ?). exists m. split; [by right|done].
  - exists n. split; [by left|done].
  - destruct (IH E) as (m & Hm & ?). exists m. split; [by right|done].
Qed.

Lemma verdict_across p l :
  subtract_verdict p l = Across -> exists n, n ∈ l /\ p_bits p < p_bits n /\ Contains p (p_addr n) = true.
Proof.
  induction l as [|n l IH]; simpl; [done|]. repeat case_match; try done; intros E; auto.
  - destruct (IH E) as (m & Hm & ?). exists m. split; [by right|done].
  - exists n. bool_hyps. split_and!; [by left|done|done].
  - destruct (IH E) as (m & Hm & ?). exists m. split; [by right|done].
Qed.

Lemma verdict_apart p l :
  prefix_ok p -> Forall prefix_ok l -> subtract_verdict p l = Apart ->
  forall a, Contains p a = true -> covered l a = false.
Proof.
  intros Hp. induction 1 as [|n l Hn Hl IH]; simpl; [done|]. intros E a Ha.
  destruct (Contains n a) eqn:Hna; simpl.
  - exfalso. pose proof (Contains_family _ _ Ha) as El1. pose proof (Contains_family _ _ Hna) as El2.
    rewrite (BitLen_Is4 (p_addr n) (p_addr p)), eqb_reflx in E by lia. simpl in E.
    destruct (Z.le_gt_cases (p_bits n) (p_bits p)) as [Hle|Hgt].
    + by rewrite (Contains_nested n p a) in E.
    + assert (holds p n = true) as Hh by (apply (Contains_nested p n a); [done..|lia]).
      unfold holds in Hh. apply andb_prop in Hh as [_ Hh]. rewrite Hh in E.
      rewrite (proj2 (Z.ltb_lt _ _)) in E by lia. by destruct (holds n p).
  - apply IH; [|done]. by repeat case_match.
Qed.

(** Pieces of the two halves do not meet. *)
Lemma disjoint_halves p l0 l1 :
  splits p -> Forall canon l0 -> Forall canon l1 -> disjoint_list l0 -> disjoint_list l1 ->
  Forall (fun q => holds (child p false) q = true) l0 ->
  Forall (fun q => holds (child p true) q = true) l1 -> disjoint_list (l0 ++ l1).
Proof.
  intros Hs A1 B1 A2 B2 A3 B3. rewrite disjoint_list_spec by (by apply Forall_app).
  rewrite disjoint_list_spec in A2, B2 by done. destruct A2 as [An Ad], B2 as [Bn Bd].
  rewrite Forall_forall in A1, B1, A3, B3.
  assert (forall x y a, x ∈ l0 -> y ∈ l1 -> Contains x a = true -> Contains y a = true -> False) as Hx.
  { intros x y a Hxa Hya H1 H2. destruct (A1 x Hxa) as (Hxok & _), (B1 y Hya) as (Hyok & _).
    apply (child_disjoint p a Hs).
    - apply (holds_Contains _ x); [apply (child_ok p false Hs)|done|by apply A3|done].
    - apply (holds_Contains _ y); [apply (child_ok p true Hs)|done|by apply B3|done]. }
  split.
  - apply NoDup_app. split_and!; [done| |done]. intros x Hxa Hxb.
    destruct (A1 x Hxa) as (? & _ & ?). eapply (Hx x x (p_addr x)); try done; by apply Contains_self.
  - intros x y a [Hxa|Hxa]%elem_of_app [Hya|Hya]%elem_of_app H1 H2; eauto; exfalso; eauto.
Qed.

Lemma subtract_spec fuel : forall p,
  canon p -> host_bits p < Z.of_nat fuel ->
  let r := subtract_fuel fuel p nets in
  Forall canon r /\ disjoint_list r /\ Forall (fun q => holds p q = true) r /\
  forall a, covered r a = Contains p a && negb (covered nets a).
Proof.
  induction fuel as [|fuel IH]; intros p Hc Hf; pose proof Hc as (Hok & Hm & Hv);
    destruct (valid_IsValid p Hok Hv) as [Hva Hb].
  { unfold host_bits in Hf. lia. }
  cbn [subtract_fuel]. destruct (subtract_verdict p nets) eqn:E; cbv zeta.
  - split_and!; [by constructor|by simpl; split|constructor; [by apply holds_refl|constructor]|].
    intros a. simpl. rewrite orb_false_r. destruct (Contains p a) eqn:Ha; [|done].
    by rewrite (verdict_apart p nets Hok Hnets E a Ha).
  - apply verdict_inside in E as (n & Hn & H). split_and!; [constructor|done|constructor|].
    intros a. simpl. destruct (Contains p a) eqn:Ha; [|done].
    rewrite Forall_forall in Hnets. assert (covered nets a = true) as ->; [|done].
    apply covered_in. exists n. split; [done|]. eapply holds_Contains; [| |exact H|exact Ha]; auto.
  - apply verdict_across in E as (n & Hn & Hlt & Hpn).
    rewrite Forall_forall in Hnets. pose proof (Hnets n Hn) as (_ & _ & Hnb).
    pose proof (Contains_family _ _ Hpn) as El.
    assert (splits p) as Hs by (split_and!; [done|done|lia|destruct Hnb as [?|[_ ?]]; lia]).
    rewrite halves_child by done.
    assert (forall b, canon (child p b)) as Hcc.
    { intros b. destruct (child_ok p b Hs). split_and!; [done|done|by apply child_valid]. }
    assert (forall b, host_bits (child p b) < Z.of_nat fuel) as Hcf.
    { intros b. destruct (child_block p b Hs) as (-> & _). lia. }
    destruct (IH (child p false) (Hcc _) (Hcf _)) as (A1 & A2 & A3 & A4).
    destruct (IH (child p true) (Hcc _) (Hcf _)) as (B1 & B2 & B3 & B4).
    split_and!.
    + apply Forall_app. done.
    + by apply (disjoint_halves p).
    + apply Forall_app. split; apply Forall_forall; intros q Hq.
      * rewrite Forall_forall in A1, A3. eapply holds_trans; [done|apply (Hcc false)|apply (A1 q Hq)|by apply holds_child|by apply A3].
      * rewrite Forall_forall in B1, B3. eapply holds_trans; [done|apply (Hcc true)|apply (B1 q Hq)|by apply holds_child|by apply B3].
    + intros a. rewrite covered_app, A4, B4, (Contains_child p a Hs).
      by destruct (Contains (child p false) a), (Contains (child p true) a), (covered nets a).
Qed.

Lemma subtractNets_spec p :
  canon p ->
  Forall canon (subtractNets p nets) /\ disjoint_list (subtractNets p nets) /\
  Forall (fun q => holds p q = true) (subtractNets p nets) /\
  forall a, covered (subtractNets p nets) a = Contains p a && negb (covered nets a).
Proof.
  intros Hc. unfold subtractNets. apply subtract_spec; [done|].
  destruct Hc as (Hok & _ & Hv). destruct (valid_IsValid p Hok Hv) as [_ ?]. unfold host_bits. lia.
Qed.
End subtract.

(** ** Facts the engine uses *)

Lemma inside_any_spec p nets :
  inside_any p nets = true <-> exists n, n ∈ nets /\ holds n p = true.
Proof. apply existsb_in. Qed.

Lemma elem_of_outsideTunnels p prefixes nets :
  p ∈ outsideTunnels prefixes nets <-> p ∈ prefixes /\ inside_any p nets = false.
Proof.
  unfold outsideTunnels. destruct nets as [|n nets]; [simpl; tauto|].
  by rewrite elem_of_keep_if, negb_true_iff.
Qed.

Definition valid_prefix (p : prefix) : Prop := prefix_ok p /\ pfx_IsValid p = true.

#[export] Instance valid_prefix_dec p : Decision (valid_prefix p).
Proof. unfold valid_prefix. apply _. Defined.

Lemma aroundTunnels_spec prefixes nets :
  Forall valid_prefix prefixes -> Forall prefix_ok nets ->
  Forall valid_prefix (aroundTunnels prefixes nets) /\
  forall a, covered (aroundTunnels prefixes nets) a = covered prefixes a && negb (covered nets a).
Proof.
  intros Hp Hn. unfold aroundTunnels. destruct nets as [|n nets].
  { split; [done|]. intros a. by rewrite andb_true_r. }
  set (N := n :: nets) in *. clearbody N. induction Hp as [|p l [Hok Hv] Hl [IH1 IH2]]; simpl; [done|].
  destruct (subtractNets_spec N Hn (Masked p)) as (Hc & _ & _ & Hcov); [by apply canon_Masked|].
  split.
  - apply Forall_app. split; [|done]. eapply Forall_impl; [exact Hc|]. intros q (? & _ & ?). done.
  - intros a. rewrite covered_app, IH2, Hcov, Contains_Masked by done.
    by destruct (Contains p a), (covered l a), (covered N a).
Qed.

Lemma within_Aggregate pfx l :
  canon pfx -> Forall prefix_ok l ->
  within pfx (Aggregate l) = true <->
  forall a, addr_ok a -> Contains pfx a = true -> covered l a = true.
Proof.
  intros Hc Hl. destruct (Aggregate_spec l Hl) as (Hd & _ & Hcov & _ & _ & Hns).
  unfold within. rewrite existsb_in. split.
  - intros (q & Hq & H) a _ Ha. rewrite <- Hcov. apply covered_in. exists q. split; [done|].
    destruct Hd as [Hcan _]. rewrite Forall_forall in Hcan.
    apply (holds_Contains q pfx); [apply (Hcan q Hq)|apply Hc|done|done].
  - intros H. apply block_in_one; [done|done|done|]. intros a Ha Hpa. rewrite Hcov. by apply H.
Qed.

(** An aggregated prefix holds one of the prefixes it was made from. *)
Lemma Aggregate_member l p :
  Forall prefix_ok l -> p ∈ Aggregate l -> exists q, q ∈ l /\ pfx_IsValid q = true /\ holds p q = true.
Proof.
  intros Hl Hp. destruct (Aggregate_spec l Hl) as (Hd & _ & Hcov & _ & _ & Hns).
  pose proof Hd as [Hc Hdj]. rewrite disjoint_list_spec in Hdj by done. destruct Hdj as [_ Hdj].
  rewrite Forall_forall in Hc, Hl. destruct (Hc p Hp) as (Hok & Hm & Hv).
  pose proof (Contains_self p Hok Hv) as Hs.
  assert (covered l (p_addr p) = true) as (q & Hq & Hqa)%covered_in by (rewrite <- Hcov; apply covered_in; eauto).
  pose proof (Hl q Hq) as Hqok. pose proof (Contains_valid _ _ Hqa) as Hqv. exists q. split_and!; [done|done|].
  destruct (block_in_one (Aggregate l) (Masked q)) as (p' & Hp' & Hh); [done|done|by apply canon_Masked| |].
  { intros a _ Ha. rewrite Contains_Masked in Ha by done. rewrite Hcov. apply covered_in. eauto. }
  destruct (Hc p' Hp') as (Hok' & _ & _).
  assert (forall a, Contains q a = true -> Contains p' a = true) as Hup.
  { intros a Ha. apply (holds_Contains p' (Masked q)); [done|by apply Masked_ok|done|]. by rewrite Contains_Masked. }
  assert (p' = p) as -> by (apply (Hdj p' p (p_addr p)); auto).
  unfold holds in *. rewrite Masked_bits in Hh by done. apply andb_prop in Hh as [-> _]. simpl.
  apply Hup. by apply Contains_self.
Qed.

Lemma Aggregate_outside l nets p :
  Forall prefix_ok l -> Forall prefix_ok nets -> p ∈ Aggregate l ->
  (forall q, q ∈ l -> inside_any q nets = false) -> inside_any p nets = false.
Proof.
  intros Hl Hn Hp Hout. destruct (inside_any p nets) eqn:E; [|done].
  apply inside_any_spec in E as (n & Hnn & Hh). destruct (Aggregate_member l p Hl Hp) as (q & Hq & Hv & Hpq).
  rewrite <- (Hout q Hq). symmetry. apply inside_any_spec. exists n. split; [done|].
  pose proof (Aggregate_ok l) as Hc. rewrite Forall_forall in Hn, Hl. specialize (Hc ltac:(by apply Forall_forall)).
  rewrite Forall_forall in Hc. eapply (holds_trans n p q); [by apply Hn|apply (Hc p Hp)|by apply Hl|done|done].
Qed.

(** ** Theorems *)

(** [subtractNets] is set difference: the prefixes it returns are
    canonical, disjoint, all inside [p], and cover exactly the addresses of
    [p] outside every one of [nets] (so its halving always ends with the work
    done). *)
Theorem subtractNets_exact p nets :
  canon p -> Forall prefix_ok nets ->
  let r := subtractNets p nets in
  Forall canon r /\ disjoint_list r /\ Forall (fun q => holds p q = true) r /\
  forall a, covered r a = Contains p a && negb (covered nets a).
Proof. intros Hc Hn. by apply subtractNets_spec. Qed.

(** An include profile's destinations cut around the live tunnels'
    networks cover exactly what they covered outside those networks: no
    include rule captures a tunnel's traffic, and nothing else is lost. *)
Theorem aroundTunnels_exact prefixes nets a :
  Forall valid_prefix prefixes -> Forall prefix_ok nets ->
  covered (aroundTunnels prefixes nets) a = covered prefixes a && negb (covered nets a).
Proof. intros Hp Hn. by apply aroundTunnels_spec. Qed.

(** A block lies within one of the aggregated prefixes exactly when every
    address of it is covered by the list they were aggregated from: testing
    single prefixes of an aggregate is testing its union. *)
Theorem within_is_coverage pfx l :
  canon pfx -> Forall prefix_ok l ->
  within pfx (Aggregate l) = true <->
  forall a, addr_ok a -> Contains pfx a = true -> covered l a = true.
Proof. apply within_Aggregate. Qed.

(** ** Witnesses *)

Lemma subtractNets_exact_witness :
  subtractNets net10 [net10_1] <> [] /\
  covered (subtractNets net10 [net10_1]) (Addr4 167837697) = false.
Proof.
  split; [vm_compute; discriminate|].
  destruct (subtractNets_exact net10 [net10_1]) as (_ & _ & _ & H);
    [apply (bool_decide_unpack (canon net10)); vm_compute; exact I
    |apply (bool_decide_unpack (Forall prefix_ok _)); vm_compute; exact I|].
  rewrite H. reflexivity.
Defined.

Lemma aroundTunnels_exact_witness :
  covered (aroundTunnels [net10] [net10_1]) (Addr4 167837697) = false.
Proof.
  rewrite (aroundTunnels_exact [net10] [net10_1]);
    [reflexivity
    |apply (bool_decide_unpack (Forall valid_prefix _)); vm_compute; exact I
    |apply (bool_decide_unpack (Forall prefix_ok _)); vm_compute; exact I].
Defined.

Lemma within_is_coverage_witness :
  within net10 (Aggregate [net10_hi; net10_lo]) = true /\
  covered [net10_hi; net10_lo] (Addr4 167837697) = true.
Proof.
  split; [vm_compute; reflexivity|].
  destruct (within_is_coverage net10 [net10_hi; net10_lo]) as [H _];
    [apply (bool_decide_unpack (canon net10)); vm_compute; exact I
    |apply (bool_decide_unpack (Forall prefix_ok _)); vm_compute; exact I|].
  apply H; [vm_compute; reflexivity|vm_compute; split; [discriminate|reflexivity]|vm_compute; reflexivity].
Defined.
