(* ===== verification/Input.v ===== *)
(** * What the builder works from (internal/routing/engine.go)

    [DesiredInput] and the functions that read profiles, lists, domains and
    gateways out of it. Go maps that are only looked up are [gmap]s. A [range]
    over a map runs in an order Go does not fix: [Occupied] is a list in the
    order of one such run, and the loops over families take the order as an
    argument ([fam_order]). *)

From S2P Require Import Prelude.
From S2P Require Import Netip NetipText Aggregate Domain Nets.

(** ** Constants *)

Definition ModelBTable : string := "5252".
Definition ModelBRulePrio : Z := 5252.
Definition ModelBMark : string := "0x5252".
Definition TailscaleRulePrio : Z := ModelBRulePrio - 1.
Definition tailscaleTag : string := "tailscale".
Definition BypassTable : string := "5253".
Definition BypassRulePrio : Z := 5260.
Definition modelBProfileTag : string := "model-b".
Definition TunnelProfilePrefix : string := "tunnel:".

(** ** Input *)

Record TunnelInput : Type := mkTunnelInput {
  t_Name : string;
  t_Iface : string;
  t_V6 : bool;
  t_Block : bool;
  t_Routes : list string;
  t_Bypass : list addr;
  t_Servers : list addr;
}.

Record DesiredInput : Type := mkDesiredInput {
  in_Profiles : list Profile;
  in_GatewayV4 : addr;
  in_GatewayV6 : addr;
  in_PhysIfaceV4 : string;
  in_PhysIfaceV6 : string;
  in_PhysNetV4 : prefix;
  in_PhysNetV6 : prefix;
  in_VPNGatewayV4 : addr;
  in_VPNGatewayV6 : addr;
  in_VPNIfaceV4 : string;
  in_VPNIfaceV6 : string;
  in_Lists : gmap string (list string);
  in_Domains : gmap string (list string);
  in_Tunnels : list TunnelInput;
  in_Occupied : list (string * string);
  in_DNSServers : list addr;
  in_Anchors : list addr;
  in_Tailscale : list prefix;
  in_TailscaleTable : string;
  in_TailscaleExitNode : bool;
  in_Platform : string;
  in_PolicyRouting : bool;
  in_Now : Z;
}.

(** [iface, ok := in.Occupied[k]]. *)
Fixpoint assoc (l : list (string * string)) (k : string) : option string :=
  match l with
  | [] => None
  | (x, v) :: l' => if x =s? k then Some v else assoc l' k
  end.
Definition Occupied (inp : DesiredInput) (k : string) : option string := assoc (in_Occupied inp) k.

(** [m[k]] on a map of slices: a missing key is the empty slice. *)
Definition at_key {A} (m : gmap string (list A)) (k : string) : list A := default [] (m !! k).
Definition append_key {A} (m : gmap string (list A)) (k : string) (l : list A) : gmap string (list A) :=
  <[k := at_key m k ++ l]> m.

(** ** Helpers *)

Definition famOf (a : addr) : Family := if Is6 a then FamilyV6 else FamilyV4.

Definition protoFor (platform : string) : string := if platform =s? "linux" then "riftroute" else "".

Inductive gw_error : Type :=
| GwNone (fam : Family)                (* no physical gateway: auto cannot be resolved *)
| GwInvalid (gw : string)              (* the profile's gateway does not parse *)
| GwFamily (gw : string) (fam : Family). (* it is of the other family *)

Definition resolveGateway (profileGW : string) (fam : Family) (inp : DesiredInput)
    : gw_error + addr * string :=
  let '(iface, auto) :=
    if fam =s? FamilyV6 then (in_PhysIfaceV6 inp, in_GatewayV6 inp)
    else (in_PhysIfaceV4 inp, in_GatewayV4 inp) in
  if (profileGW =s? "") || (profileGW =s? "auto") then
    if IsValid auto then inr (auto, iface) else inl (GwNone fam)
  else
    match ParseAddr profileGW with
    | None => inl (GwInvalid profileGW)
    | Some a => if famOf a =s? fam then inr (a, iface) else inl (GwFamily profileGW fam)
    end.

Definition vpnFor (fam : Family) (inp : DesiredInput) : addr * string :=
  if fam =s? FamilyV6 then (in_VPNGatewayV6 inp, in_VPNIfaceV6 inp)
  else (in_VPNGatewayV4 inp, in_VPNIfaceV4 inp).

Definition ruleToPrefix (r : Rule) : option (prefix * Family) :=
  if r_Type r =s? RuleCIDR then
    p ← ParsePrefix (r_Value r); Some (p, famOf (p_addr p))
  else if r_Type r =s? RuleIP then
    a ← ParseAddr (r_Value r); Some (host_prefix a, famOf a)
  else None.

Definition entryToPrefix (s : string) : option (prefix * Family) :=
  match ParsePrefix s with
  | Some p => Some (p, famOf (p_addr p))
  | None => a ← ParseAddr s; Some (host_prefix a, famOf a)
  end.

(** ** A profile's destinations *)

Abbreviation byFam := (gmap string (list prefix)).

Definition add_entry (m : byFam) (e : option (prefix * Family)) : byFam :=
  match e with Some (p, fam) => append_key m fam [p] | None => m end.
Definition add_entries (m : byFam) (es : list string) : byFam :=
  fold_left (fun m e => add_entry m (entryToPrefix e)) es m.

Definition profilePrefixes (p : Profile) (inp : DesiredInput) : byFam :=
  let m := fold_left (fun m r =>
             match ruleToPrefix r with
             | Some e => add_entry m (Some e)
             | None => if r_Type r =s? RuleDomain then add_entries m (at_key (in_Domains inp) (r_Value r))
                       else m
             end) (pf_Rules p) ∅ in
  fold_left (fun m name => add_entries m (at_key (in_Lists inp) name)) (pf_Lists p) m.

(** The families of a map, in a given order. *)
Definition range_fams (fam_order : list Family) (m : byFam) : list (Family * list prefix) :=
  omap (fun fam => l ← m !! fam; Some (fam, l)) fam_order.

(** ** Tunnel-mode profiles *)

(** [s] as a tunnel's own list spells it: a host by its bare address. *)
Definition route_text (p : prefix) : string :=
  if p_bits p =? BitLen (p_addr p) then addr_String (p_addr p) else prefix_String p.

Definition tunnel_prefixes (fam_order : list Family) (inp : DesiredInput) : byFam :=
  fold_left (fun m p =>
    if negb (pf_Enabled p) || negb (pf_Mode p =s? ModeTunnel) || (pf_Tunnel p =s? "") then m
    else fold_left (fun m e => append_key m (pf_Tunnel p) (snd e))
           (range_fams fam_order (profilePrefixes p inp)) m) (in_Profiles inp) ∅.

Definition TunnelProfileRoutes (fam_order : list Family) (inp : DesiredInput)
    : gmap string (list string) :=
  omap (fun pfxs => match map route_text (Aggregate pfxs) with [] => None | l => Some l end)
    (tunnel_prefixes fam_order inp).

(** The strings of a list, each once, in order of first appearance. *)
Fixpoint dedup (seen : gset string) (l : list string) : list string :=
  match l with
  | [] => []
  | r :: l' => if bool_decide (r ∈ seen) then dedup seen l' else r :: dedup ({[r]} ∪ seen) l'
  end.

Definition set_routes (t : TunnelInput) (routes : list string) : TunnelInput :=
  mkTunnelInput (t_Name t) (t_Iface t) (t_V6 t) (t_Block t) routes (t_Bypass t) (t_Servers t).

Definition WithRoutes (tunnels : list TunnelInput) (extra : gmap string (list string)) : list TunnelInput :=
  if bool_decide (extra = ∅) then tunnels
  else map (fun t => match at_key extra (t_Name t) with
                     | [] => t
                     | add => set_routes t (dedup ∅ (t_Routes t ++ add))
                     end) tunnels.

(** ** Lemmas *)

Lemma famOf_BitLen a b : BitLen a = BitLen b -> famOf a = famOf b.
Proof. intros H. unfold famOf. by rewrite (BitLen_Is6 a b H). Qed.

Lemma famOf_v4 a : famOf a = FamilyV4 \/ famOf a = FamilyV6.
Proof. unfold famOf. case_if; auto. Qed.

Lemma host_prefix_valid a : addr_ok a -> IsValid a = true -> valid_prefix (host_prefix a).
Proof.
  intros Ha Hv. split; [by apply PrefixFrom_ok|]. unfold host_prefix, PrefixFrom. rewrite Hv.
  rewrite (proj2 (Z.leb_le 0 _)), Z.leb_refl by (by destruct a). simpl. unfold pfx_IsValid. simpl.
  apply Z.leb_le. by destruct a.
Qed.

Lemma host_prefix_addr a : p_addr (host_prefix a) = withoutZone a.
Proof. unfold host_prefix, PrefixFrom. by case_if. Qed.

Lemma host_prefix_canon a : addr_ok a -> IsValid a = true -> canon (host_prefix a).
Proof.
  intros Ha Hv. destruct (host_prefix_valid a Ha Hv) as [Hok Hpv]. split_and!; [done| |done].
  unfold masked. rewrite Masked_valid by done. unfold host_prefix, PrefixFrom in *.
  rewrite Hv in *. rewrite (proj2 (Z.leb_le 0 _)), Z.leb_refl in * by (by destruct a). simpl in *.
  f_equal. unfold host_bits. simpl.
  replace (BitLen (withoutZone a) - BitLen a) with 0 by (destruct a; simpl; lia).
  unfold clear_low. rewrite Z.shiftr_0_r, Z.shiftl_0_r. by destruct a.
Qed.

Lemma famOf_withoutZone a : famOf (withoutZone a) = famOf a.
Proof. by destruct a. Qed.

Lemma entryToPrefix_ok s p fam :
  entryToPrefix s = Some (p, fam) -> valid_prefix p /\ fam = famOf (p_addr p).
Proof.
  unfold entryToPrefix. destruct (ParsePrefix s) as [q|] eqn:E.
  - intros [= <- <-]. by apply ParsePrefix_ok in E.
  - destruct (ParseAddr s) as [a|] eqn:Ea; [|done]. simpl. intros [= <- <-].
    apply ParseAddr_ok in Ea as [Ha Hv]. split; [by apply host_prefix_valid|].
    by rewrite host_prefix_addr, famOf_withoutZone.
Qed.

Lemma ruleToPrefix_ok r p fam :
  ruleToPrefix r = Some (p, fam) -> valid_prefix p /\ fam = famOf (p_addr p).
Proof.
  unfold ruleToPrefix. repeat case_match; try done.
  - destruct (ParsePrefix _) as [q|] eqn:E; [|done]. simpl. intros [= <- <-].
    by apply ParsePrefix_ok in E.
  - destruct (ParseAddr _) as [a|] eqn:Ea; [|done]. simpl. intros [= <- <-].
    apply ParseAddr_ok in Ea as [Ha Hv]. split; [by apply host_prefix_valid|].
    by rewrite host_prefix_addr, famOf_withoutZone.
Qed.

Lemma at_append_key {A} (m : gmap string (list A)) k l x :
  at_key (append_key m k l) x = if decide (x = k) then at_key m k ++ l else at_key m x.
Proof.
  unfold append_key. unfold at_key at 1. case_decide as E.
  - subst x. by rewrite lookup_insert_eq.
  - by rewrite lookup_insert_ne.
Qed.

(** Every entry sits under its own family and is a valid prefix. *)
Definition byFam_ok (m : byFam) : Prop :=
  forall fam l, m !! fam = Some l ->
    Forall (fun p => valid_prefix p /\ famOf (p_addr p) = fam) l.

Lemma byFam_ok_at m fam :
  byFam_ok m -> Forall (fun p => valid_prefix p /\ famOf (p_addr p) = fam) (at_key m fam).
Proof.
  intros H. unfold at_key. destruct (m !! fam) eqn:E; simpl; [by apply H|constructor].
Qed.

Lemma append_key_ok m fam l :
  byFam_ok m -> Forall (fun p => valid_prefix p /\ famOf (p_addr p) = fam) l ->
  byFam_ok (append_key m fam l).
Proof.
  intros Hm Hl f l'. unfold append_key. destruct (decide (f = fam)) as [->|Hf].
  - rewrite lookup_insert_eq. intros [= <-]. apply Forall_app. split; [by apply byFam_ok_at|done].
  - rewrite lookup_insert_ne by done. apply Hm.
Qed.

Lemma add_entries_ok es m : byFam_ok m -> byFam_ok (add_entries m es).
Proof.
  revert m. induction es as [|e es IH]; intros m Hm; simpl; [done|]. apply IH.
  destruct (entryToPrefix e) as [[p fam]|] eqn:E; simpl; [|done].
  apply entryToPrefix_ok in E as [Hp ->]. apply append_key_ok; [done|]. by constructor.
Qed.

Lemma profilePrefixes_ok p inp : byFam_ok (profilePrefixes p inp).
Proof.
  unfold profilePrefixes.
  assert (forall ls m, byFam_ok m ->
    byFam_ok (fold_left (fun m name => add_entries m (at_key (in_Lists inp) name)) ls m)) as H.
  { induction ls as [|n ls IH]; intros m Hm; simpl; [done|]. by apply IH, add_entries_ok. }
  apply H. assert (byFam_ok ∅) as H0 by (intros f l E; by rewrite lookup_empty in E).
  revert H0. generalize (∅ : byFam). induction (pf_Rules p) as [|r rs IH]; intros m Hm; simpl; [done|].
  apply IH. destruct (ruleToPrefix r) as [[q fam]|] eqn:E; simpl.
  - apply ruleToPrefix_ok in E as [Hq ->]. apply append_key_ok; [done|]. by constructor.
  - case_if; [by apply add_entries_ok|done].
Qed.
