(* ===== verification/Tunnels.v ===== *)
(** * The managed tunnels' routes (internal/routing/tunnels.go)

    [PlanTunnels] decides every tunnel route on the current network: server
    pins first, then each tunnel's destinations, carved around what must not go
    into it. The state it threads (the routes and nets so far, what was left
    out, the claims) is a record; the loops are folds over it.

    [sort.Slice] in [othersInside] and [carve] is modelled by the stable sort:
    the order of equal elements only reaches the explanatory text. *)

From S2P Require Import Prelude.
From S2P Require Import Netip NetipText Aggregate Domain Reconcile Nets Input.

(** ** Claims *)

Record claim : Type := mkClaim { c_tunnel : string; c_pin : bool; c_refuse : bool }.

Definition claim_reason (c : claim) (tunnel : string) : string :=
  if c_pin c && (c_tunnel c =s? tunnel) then
    "it's the tunnel's own server, pinned to your physical gateway"
  else if c_pin c then
    "it's tunnel " +:+ c_tunnel c +:+ "'s server, pinned to your physical gateway"
  else if c_refuse c then
    "already blocked for tunnel " +:+ c_tunnel c +:+ " while it's down"
  else "already routed into tunnel " +:+ c_tunnel c.

Definition prefixKey (p : prefix) : string :=
  famOf (p_addr p) +:+ "||" +:+ prefix_String (Masked p).

Definition servers (t : TunnelInput) : list addr := t_Bypass t ++ t_Servers t.

(** ** What mustn't go into a tunnel *)

Record keptOut : Type := mkKeptOut {
  ko_addr : addr;
  ko_why : string;
  ko_net : prefix;
  ko_on : string;
}.

Definition maxCarved : Z := 1024.
Definition maxKeptResolvers : nat := 8.

Definition keep_router (pfx : prefix) (inp : DesiredInput) : list keptOut :=
  let '(gw, lan, on) :=
    if Is6 (p_addr pfx) then (WithZone (in_GatewayV6 inp) "", in_PhysNetV6 inp, in_PhysIfaceV6 inp)
    else (in_GatewayV4 inp, in_PhysNetV4 inp, in_PhysIfaceV4 inp) in
  if IsValid gw && Contains pfx gw then
    let why := "your router " +:+ addr_String gw in
    if pfx_IsValid lan && Contains lan gw then
      [mkKeptOut gw why (if p_bits lan <=? p_bits pfx then pfx else Masked lan) on]
    else [mkKeptOut gw why PrefixZero ""]
  else [].

(** The resolvers counted so far are kept per family: [n4] IPv4, [n6] others. *)
Fixpoint keep_resolvers (pfx : prefix) (dns : list addr) (n4 n6 : nat) : list keptOut :=
  match dns with
  | [] => []
  | a :: dns' =>
      if (maxKeptResolvers <=? (if Is4 a then n4 else n6))%nat then keep_resolvers pfx dns' n4 n6
      else
        let rest := if Is4 a then keep_resolvers pfx dns' (S n4) n6
                    else keep_resolvers pfx dns' n4 (S n6) in
        if Contains pfx a then mkKeptOut a ("your DNS server " +:+ addr_String a) PrefixZero "" :: rest
        else rest
  end.

Definition keep_anchors (pfx : prefix) (anchors : list addr) : list keptOut :=
  map (fun a => mkKeptOut a
         (addr_String a +:+ ", which RiftRoute probes to check a change kept you online") PrefixZero "")
    (keep_if (Contains pfx) anchors).

Definition keep_servers (pfx : prefix) (t : TunnelInput) (ts : list TunnelInput) (held : gset addr)
    : list keptOut :=
  ts ≫= (fun o =>
    map (fun a => mkKeptOut a
           (if t_Name o =s? t_Name t then "the tunnel's own server " +:+ addr_String a
            else "tunnel " +:+ t_Name o +:+ "'s server " +:+ addr_String a) PrefixZero "")
      (keep_if (fun a => Contains pfx a && negb (bool_decide (a ∈ held))) (servers o))).

(** One address, said once: the first reason. *)
Fixpoint dedup_kept (seen : gset addr) (l : list keptOut) : list keptOut :=
  match l with
  | [] => []
  | k :: l' =>
      if bool_decide (ko_addr k ∈ seen) then dedup_kept seen l'
      else k :: dedup_kept ({[ko_addr k]} ∪ seen) l'
  end.

Definition keepOut (pfx : prefix) (t : TunnelInput) (ts : list TunnelInput) (held : gset addr)
    (inp : DesiredInput) (essential : bool) : list keptOut :=
  dedup_kept ∅
    (keep_router pfx inp ++
     (if essential then [] else keep_resolvers pfx (in_DNSServers inp) 0 0) ++
     (if essential then [] else keep_anchors pfx (in_Anchors inp)) ++
     keep_servers pfx t ts held).

(** ** Carving *)

Record routeInside : Type := mkRouteInside { ri_net : prefix; ri_via : string }.

Definition strictly_in (pfx q : prefix) : bool :=
  Bool.eqb (Is4 (p_addr q)) (Is4 (p_addr pfx)) && (p_bits pfx <? p_bits q) && Contains pfx (p_addr q).

Definition othersInside (pfx : prefix) (name : string) (ts : list TunnelInput)
    (occupied : list (string * string)) : list routeInside :=
  let fromKernel := omap (fun kv =>
        q ← ParsePrefix (fst kv);
        if strictly_in pfx (Masked q) then Some (mkRouteInside (Masked q) (snd kv)) else None) occupied in
  let fromTunnels := ts ≫= (fun o =>
        if t_Name o =s? name then []
        else omap (fun v =>
               e ← entryToPrefix v;
               if strictly_in pfx (Masked (fst e))
               then Some (mkRouteInside (Masked (fst e)) ("tunnel " +:+ t_Name o)) else None)
             (t_Routes o)) in
  slice_stable (fun a b => str_less (prefix_String (ri_net a)) (prefix_String (ri_net b)))
    (fromKernel ++ fromTunnels).

(** The hole for one kept-out address, and what is said of it. *)
Fixpoint find_holder (k : keptOut) (holders : list routeInside) (found : bool) (hole : prefix)
    (why : string) : prefix * string :=
  match holders with
  | [] => (hole, why)
  | o :: holders' =>
      if negb (Contains (ri_net o) (ko_addr k)) || (found && (p_bits (ri_net o) <=? p_bits hole))
      then find_holder k holders' found hole why
      else
        let why := if IsSingleIP (ri_net o) then ko_why k +:+ ", routed via " +:+ ri_via o
                   else "the network of " +:+ ko_why k +:+ ", via " +:+ ri_via o in
        find_holder k holders' true (ri_net o) why
  end.

Definition hole_for (k : keptOut) (others : list routeInside) : prefix * string :=
  if pfx_IsValid (ko_net k) then
    (ko_net k, "the network of " +:+ ko_why k +:+ ", on " +:+ ko_on k)
  else find_holder k others false (host_prefix (ko_addr k)) (ko_why k).

Abbreviation reasons_map := (gmap prefix (list string)).
Definition reasons_at (m : reasons_map) (h : prefix) : list string := default [] (m !! h).

Definition carve_holes (keep : list keptOut) (others : list routeInside)
    : list prefix * reasons_map :=
  fold_left (fun acc k =>
    let '(holes, reasons) := acc in
    let '(hole, why) := hole_for k others in
    let holes := match reasons !! hole with Some _ => holes | None => holes ++ [hole] end in
    (holes, <[hole := reasons_at reasons hole ++ [why]]> reasons)) keep ([], ∅).

Definition carve_parts (pfx : prefix) (holes : list prefix) (others : list routeInside)
    (taken : gmap string claim) : list prefix :=
  keep_if (fun p => negb (existsb (fun o => holds (ri_net o) p) others) &&
                    negb (has taken (prefixKey p)))
    (subtractNets pfx holes).

Definition top_hole (h : prefix) (holes : list prefix) : prefix :=
  fold_left (fun top o => if (p_bits o <? p_bits top) && Contains o (p_addr h) then o else top) holes h.

Definition carve_except (holes : list prefix) (reasons : reasons_map) : list TunnelExcept :=
  let holes := slice_stable (fun a b => AddrLess (p_addr a) (p_addr b)) holes in
  let '(outer, reasons) :=
    fold_left (fun acc h =>
      let '(outer, reasons) := acc in
      let top := top_hole h holes in
      if bool_decide (top = h) then (outer ++ [h], reasons)
      else (outer, <[top := reasons_at reasons top ++ reasons_at reasons h]> reasons))
      holes ([], reasons) in
  map (fun h => mkTunnelExcept (if IsSingleIP h then addr_String (p_addr h) else prefix_String h)
                  (Join (reasons_at reasons h) "; ")) outer.

Definition carve (pfx : prefix) (keep : list keptOut) (others : list routeInside)
    (taken : gmap string claim) : list prefix * list TunnelExcept :=
  let '(holes, reasons) := carve_holes keep others in
  (carve_parts pfx holes others taken, carve_except holes reasons).

Definition exceptText (except : list TunnelExcept) : string :=
  Join (map (fun e => te_Net e +:+ " (" +:+ te_Reason e +:+ ")") except) ", ".

(** ** The plan *)

Definition TunnelRouteBlock (pfx : prefix) (inp : DesiredInput) : string :=
  match Occupied inp (prefix_String (Masked pfx)) with
  | Some iface => "already routed via " +:+ iface +:+ " by something else (another VPN or the system)"
  | None => ""
  end.

Definition unclaimedAggregate (prefixes : list prefix) (taken : gmap string claim) : list prefix :=
  let step acc p :=
    let '(out, seen) := (acc : list prefix * gset prefix) in
    if bool_decide (p ∈ seen) then acc else (out ++ [p], {[p]} ∪ seen) in
  fst (fold_left (fun acc agg =>
         let parts := if has taken (prefixKey agg) then keep_if (holds agg) prefixes else [agg] in
         fold_left step parts acc) (Aggregate prefixes) ([], ∅)).

Record TunnelPlan : Type := mkTunnelPlan {
  tp_Routes : list ManagedRoute;
  tp_Blocked : gmap string (list TunnelBlocked);
  tp_Narrowed : gmap string (list TunnelNarrowed);
  tp_nets : list prefix;
}.

Definition tp_add (tp : TunnelPlan) (rt : Route) (tag : string) (inp : DesiredInput) : TunnelPlan :=
  let rt := mkRoute (rt_DstCIDR rt) (rt_Gateway rt) (rt_Iface rt) (rt_Metric rt) (rt_Family rt)
              OwnerRiftRoute (protoFor (in_Platform inp)) (rt_Table rt) tag
              (rt_Cloned rt) (rt_Scoped rt) (rt_Reject rt) in
  mkTunnelPlan (tp_Routes tp ++ [mkMR rt tag (in_Now inp)]) (tp_Blocked tp) (tp_Narrowed tp) (tp_nets tp).

(** A route with only these fields set. *)
Definition plain_route (dst gw iface : string) (fam : Family) (reject : bool) : Route :=
  mkRoute dst gw iface 0 fam "" "" "" "" false false reject.

Record plan_state : Type := mkPlanState {
  ps_tp : TunnelPlan;
  ps_taken : gmap string claim;
  ps_held : gset addr;
}.

(** The first loop: server pins. *)
Definition pin_one (inp : DesiredInput) (t : TunnelInput) (st : plan_state) (a : addr) : plan_state :=
  let fam := famOf a in
  match resolveGateway "auto" fam inp with
  | inl _ => st
  | inr (gw, iface) =>
      let host := host_prefix a in
      match Occupied inp (prefix_String host) with
      | Some _ => st
      | None =>
          let held := {[a]} ∪ ps_held st in
          if has (ps_taken st) (prefixKey host) then mkPlanState (ps_tp st) (ps_taken st) held
          else
            mkPlanState
              (tp_add (ps_tp st) (plain_route (prefix_String host) (addr_String gw) iface fam false)
                 (TunnelProfilePrefix +:+ t_Name t) inp)
              (<[prefixKey host := mkClaim (t_Name t) true false]> (ps_taken st)) held
      end
  end.

Definition hold_one (inp : DesiredInput) (st : plan_state) (a : addr) : plan_state :=
  match Occupied inp (prefix_String (host_prefix a)) with
  | Some _ => mkPlanState (ps_tp st) (ps_taken st) ({[a]} ∪ ps_held st)
  | None => st
  end.

Definition pin_tunnel (inp : DesiredInput) (st : plan_state) (t : TunnelInput) : plan_state :=
  fold_left (hold_one inp) (servers t) (fold_left (pin_one inp t) (t_Bypass t) st).

(** The second loop's body for one listed route: what goes in, what is said. *)
Record route_verdict : Type := mkVerdict {
  v_parts : list prefix;             (* added to byFamily *)
  v_blocked : list TunnelBlocked;
  v_narrowed : list TunnelNarrowed;
}.

Definition tailscale_why (pfx : prefix) (nets : list prefix) (why : string) : string :=
  fold_left (fun why n =>
    if (why =s? "") && Bool.eqb (Is4 (p_addr n)) (Is4 (p_addr pfx)) && holds n pfx
    then "it's inside " +:+ prefix_String n +:+ ", which Tailscale routes — left to it" else why) nets why.

Definition route_why (inp : DesiredInput) (t : TunnelInput) (taken : gmap string claim) (pfx : prefix)
    (noV6 : bool) : string :=
  let why := if noV6 && negb (t_Block t) then "the tunnel has no IPv6 address" else "" in
  let why := if why =s? "" then TunnelRouteBlock pfx inp else why in
  let why := match taken !! prefixKey pfx with
             | Some c => if why =s? "" then claim_reason c (t_Name t) else why
             | None => why
             end in
  tailscale_why pfx (in_Tailscale inp) why.

(** The part of [pfx] that goes in, around what is kept out. *)
Definition route_parts (inp : DesiredInput) (ts : list TunnelInput) (held : gset addr)
    (taken : gmap string claim) (t : TunnelInput) (v : string) (pfx : prefix) (why : string)
    : list prefix * string * list TunnelNarrowed :=
  let keep := keepOut pfx t ts held inp false in
  if (why =s? "") && negb (length keep =? 0)%nat then
    let others := othersInside pfx (t_Name t) ts (in_Occupied inp) in
    let '(parts, except) := carve pfx keep others taken in
    let '(parts, except) :=
      if t_Block t && ((length parts =? 0)%nat || (maxCarved <? Z.of_nat (length parts)))
      then carve pfx (keepOut pfx t ts held inp true) others taken
      else (parts, except) in
    if (length parts =? 0)%nat then
      (parts, "nothing would be left once these are kept out: " +:+ exceptText except, [])
    else if maxCarved <? Z.of_nat (length parts) then
      (parts, "it would take " +:+ pretty (Z.of_nat (length parts)) +:+ " routes to go around "
              +:+ exceptText except +:+ "; list narrower networks", [])
    else (parts, why, [mkTunnelNarrowed v except])
  else ([pfx], why, []).

Definition route_one (inp : DesiredInput) (ts : list TunnelInput) (held : gset addr)
    (taken : gmap string claim) (t : TunnelInput) (v : string) (pfx : prefix) (fam : Family)
    : route_verdict :=
  let pfx := Masked pfx in
  let noV6 := negb (t_Iface t =s? "") && (fam =s? FamilyV6) && negb (t_V6 t) in
  let '(parts, why, narrowed) :=
    route_parts inp ts held taken t v pfx (route_why inp t taken pfx noV6) in
  let '(byF, why) :=
    if (why =s? "") && noV6 then
      (parts, "the tunnel has no IPv6 address, so it's refused (block when down)")
    else ([], why) in
  if negb (why =s? "") then mkVerdict byF [mkTunnelBlocked v why] narrowed
  else mkVerdict parts [] narrowed.

Definition note_tunnel (tp : TunnelPlan) (name : string) (v : route_verdict) : TunnelPlan :=
  mkTunnelPlan (tp_Routes tp)
    (match v_blocked v with [] => tp_Blocked tp | l => append_key (tp_Blocked tp) name l end)
    (match v_narrowed v with [] => tp_Narrowed tp | l => append_key (tp_Narrowed tp) name l end)
    (tp_nets tp).

Definition list_route (inp : DesiredInput) (ts : list TunnelInput) (t : TunnelInput)
    (taken : gmap string claim) (held : gset addr) (acc : TunnelPlan * byFam) (v : string)
    : TunnelPlan * byFam :=
  match entryToPrefix v with
  | None => acc
  | Some (pfx, fam) =>
      let r := route_one inp ts held taken t v pfx fam in
      (note_tunnel (fst acc) (t_Name t) r,
       match v_parts r with [] => snd acc | l => append_key (snd acc) fam l end)
  end.

(** Installing one family's destinations. *)
Definition install_one (inp : DesiredInput) (t : TunnelInput) (fam : Family) (refuse : bool)
    (acc : TunnelPlan * gmap string claim) (pfx : prefix) : TunnelPlan * gmap string claim :=
  let '(tp, taken) := acc in
  let tp := mkTunnelPlan (tp_Routes tp) (tp_Blocked tp) (tp_Narrowed tp) (tp_nets tp ++ [pfx]) in
  let rt := if refuse then plain_route (prefix_String pfx) "" "" fam true
            else plain_route (prefix_String pfx) "" (t_Iface t) fam false in
  (tp_add tp rt (TunnelProfilePrefix +:+ t_Name t) inp,
   <[prefixKey pfx := mkClaim (t_Name t) false refuse]> taken).

Definition install_family (inp : DesiredInput) (t : TunnelInput) (byF : byFam)
    (acc : TunnelPlan * gmap string claim) (fam : Family) : TunnelPlan * gmap string claim :=
  let refuse := (t_Iface t =s? "") || ((fam =s? FamilyV6) && negb (t_V6 t)) in
  fold_left (install_one inp t fam refuse) (unclaimedAggregate (at_key byF fam) (snd acc)) acc.

Definition plan_tunnel (inp : DesiredInput) (ts : list TunnelInput) (held : gset addr)
    (acc : TunnelPlan * gmap string claim) (t : TunnelInput) : TunnelPlan * gmap string claim :=
  let '(tp, byF) := fold_left (list_route inp ts t (snd acc) held) (t_Routes t) (fst acc, ∅) in
  if (t_Iface t =s? "") && negb (t_Block t) then (tp, snd acc)
  else fold_left (install_family inp t byF) [FamilyV4; FamilyV6] (tp, snd acc).

Definition tunnel_less (a b : TunnelInput) : bool :=
  let up := negb (t_Iface a =s? "") in
  if negb (Bool.eqb up (negb (t_Iface b =s? ""))) then up else str_less (t_Name a) (t_Name b).

Definition no_plan : TunnelPlan := mkTunnelPlan [] ∅ ∅ [].

Definition pin_phase (inp : DesiredInput) (ts : list TunnelInput) : plan_state :=
  fold_left (pin_tunnel inp) ts (mkPlanState no_plan ∅ ∅).

Definition PlanTunnels (inp : DesiredInput) : TunnelPlan :=
  let ts := slice_stable tunnel_less (in_Tunnels inp) in
  let st := pin_phase inp ts in
  fst (fold_left (plan_tunnel inp ts (ps_held st)) ts (ps_tp st, ps_taken st)).

(** ** Placing the plan among other routes and rules *)

(** [addRoute]: [seen] holds the keys of what [routes] has. *)
Definition addRoute (acc : gset string * list ManagedRoute) (rt : Route) (profile : string) (now : Z)
    : gset string * list ManagedRoute :=
  let '(seen, routes) := acc in
  let k := RouteKey rt in
  if bool_decide (k ∈ seen) then acc else ({[k]} ∪ seen, routes ++ [mkMR rt profile now]).

Fixpoint place_loop (l : list ManagedRoute) (taken : gset string) (acc : gset string * list ManagedRoute)
    : gset string * list ManagedRoute :=
  match l with
  | [] => acc
  | r :: l' =>
      let k := dstKey (mr_Route r) in
      if bool_decide (k ∈ taken) then place_loop l' taken acc
      else place_loop l' ({[k]} ∪ taken) (addRoute acc (mr_Route r) (mr_ProfileID r) (mr_CreatedAt r))
  end.

Definition place (tp : TunnelPlan) (acc : gset string * list ManagedRoute)
    : gset string * list ManagedRoute :=
  place_loop (tp_Routes tp) (list_to_set (dsts (snd acc))) acc.

Definition yields (tp : TunnelPlan) (o : ManagedRoute) : bool :=
  match ParsePrefix (rt_DstCIDR (mr_Route o)) with
  | Some pfx => (rt_Table (mr_Route o) =s? "") && (length (outsideTunnels [pfx] (tp_nets tp)) =? 0)%nat
  | None => false
  end.

Definition beside_step (tp : TunnelPlan) (acc : gset string * list ManagedRoute) (o : ManagedRoute)
    : gset string * list ManagedRoute :=
  if yields tp o then acc
  else
    let k := RouteKey (mr_Route o) in
    if bool_decide (k ∈ fst acc) then acc else ({[k]} ∪ fst acc, snd acc ++ [o]).

Definition Beside (tp : TunnelPlan) (others : list ManagedRoute) : list ManagedRoute :=
  snd (place tp (fold_left (beside_step tp) others (∅, []))).

Fixpoint ContainsByte (s : string) (c : Ascii.ascii) : bool :=
  match s with
  | EmptyString => false
  | String x s' => Ascii.eqb x c || ContainsByte s' c
  end.

Definition ruleDestination (r : PolicyRule) : option prefix :=
  dst ← CutPrefix (pr_Selector r) "to ";
  if ContainsByte dst (Ascii.ascii_of_nat 32) then None else fst <$> entryToPrefix dst.

Definition set_selector (r : ManagedRule) (sel : string) : ManagedRule :=
  let p := ml_Rule r in
  mkMRule (mkPolicyRule (pr_Priority p) sel (pr_Table p) (pr_Family p) (pr_Proto p) (pr_RouteToIface p)
             (pr_RouteToGW p)) (ml_ProfileID r) (ml_CreatedAt r).

Definition rules_step (acc : gset string * list ManagedRule) (r : ManagedRule)
    : gset string * list ManagedRule :=
  let k := RuleKey (ml_Rule r) in
  if bool_decide (k ∈ fst acc) then acc else ({[k]} ∪ fst acc, snd acc ++ [r]).

(** What one rule becomes beside the tunnels' networks. *)
Definition rule_beside (nets : list prefix) (r : ManagedRule) : list ManagedRule :=
  match ruleDestination (ml_Rule r) with
  | None => [r]
  | Some pfx =>
      let parts := aroundTunnels [pfx] nets in
      if bool_decide (parts = [Masked pfx]) then [r]
      else map (fun p => set_selector r ("to " +:+ prefix_String p)) parts
  end.

Definition RulesBeside (tp : TunnelPlan) (rules : list ManagedRule) : list ManagedRule :=
  match tp_nets tp with
  | [] => rules
  | nets => snd (fold_left rules_step (rules ≫= rule_beside nets) (∅, []))
  end.

(** [AppRuleCaptures]; [quote] is [strconv.Quote]. *)
Definition AppRuleCaptures (quote : string -> string) (tp : TunnelPlan) (rules : list ManagedRule)
    : gmap string (list TunnelBlocked) :=
  let apps := keep_if (fun r => negb (bool_decide (is_Some (ruleDestination r)))) (map ml_Rule rules) in
  fold_left (fun out t =>
    match CutPrefix (mr_ProfileID t) TunnelProfilePrefix with
    | None => out
    | Some name =>
        if negb (rt_Gateway (mr_Route t) =s? "") then out
        else fold_left (fun out a =>
               if negb (pr_Family a =s? rt_Family (mr_Route t)) then out
               else
                 let into := if negb (pr_RouteToIface a =s? "") then pr_RouteToIface a
                             else "your VPN (table " +:+ pr_Table a +:+ ")" in
                 append_key out name [mkTunnelBlocked (rt_DstCIDR (mr_Route t))
                   ("the include-mode app rule " +:+ quote (pr_Selector a) +:+
                    " sends that traffic into " +:+ into +:+ ", to this network too")]) apps out
    end) (match apps with [] => [] | _ => tp_Routes tp end) ∅.

(** ** Keys of destinations *)

Lemma famOf_Masked p : valid_prefix p -> famOf (p_addr (Masked p)) = famOf (p_addr p).
Proof. intros [Hok Hv]. apply famOf_BitLen. by apply Masked_BitLen. Qed.

Lemma prefixKey_canon p : canon p -> prefixKey p = famOf (p_addr p) +:+ "||" +:+ prefix_String p.
Proof. intros (_ & Hm & _). unfold prefixKey. unfold masked in Hm. by rewrite Hm. Qed.

Lemma dstKey_plain p gw iface fam rej :
  canon p -> famOf (p_addr p) = fam -> dstKey (plain_route (prefix_String p) gw iface fam rej) = prefixKey p.
Proof. intros Hc <-. rewrite prefixKey_canon by done. done. Qed.

Lemma prefixKey_inj p q : canon p -> canon q -> prefixKey p = prefixKey q -> p = q.
Proof.
  intros Hp Hq E. rewrite !prefixKey_canon in E by done.
  destruct Hp as (Hp & _ & Hvp), Hq as (Hq & _ & Hvq).
  apply prefix_String_inj; [done..|]. revert E. generalize (prefix_String p), (prefix_String q).
  intros s1 s2. unfold famOf. repeat case_match; simpl; intros [=]; done.
Qed.

Lemma canon_valid p : canon p -> valid_prefix p.
Proof. intros (? & _ & ?). done. Qed.

(** A canonical prefix inside what a list covers is of that list's family. *)
Lemma covered_family p l fam :
  canon p -> (forall a, Contains p a = true -> covered l a = true) ->
  Forall (fun q => famOf (p_addr q) = fam) l -> famOf (p_addr p) = fam.
Proof.
  intros (Hok & _ & Hv) Hcov Hf. pose proof (Contains_self p Hok Hv) as Hs.
  apply Hcov, covered_in in Hs as (q & Hq & Hqa). rewrite Forall_forall in Hf.
  rewrite <- (Hf q Hq). apply famOf_BitLen. symmetry. by apply Contains_family.
Qed.

(** ** [unclaimedAggregate] *)

Definition ua_step (acc : list prefix * gset prefix) (p : prefix) : list prefix * gset prefix :=
  let '(out, seen) := acc in if bool_decide (p ∈ seen) then acc else (out ++ [p], {[p]} ∪ seen).

Lemma ua_step_fold l : forall out seen,
  NoDup out -> (forall p, p ∈ out <-> p ∈ seen) ->
  let r := fold_left ua_step l (out, seen) in
  NoDup (fst r) /\ (forall p, p ∈ fst r <-> p ∈ snd r) /\ (forall p, p ∈ fst r <-> p ∈ out \/ p ∈ l).
Proof.
  induction l as [|q l IH]; intros out seen Hn He; simpl; [split_and!; [done..|set_solver]|].
  case_bool_decide as Hq.
  - destruct (IH out seen Hn He) as (H1 & H2 & H3). split_and!; [done..|].
    intros p. rewrite H3, elem_of_cons. split; [tauto|]. intros [?|[->|?]]; auto. left. by apply He.
  - destruct (IH (out ++ [q]) ({[q]} ∪ seen)) as (H1 & H2 & H3).
    + apply NoDup_app. split_and!; [done| |apply NoDup_singleton]. intros x Hx ->%list_elem_of_singleton.
      by apply Hq, He.
    + intros p. rewrite elem_of_app, list_elem_of_singleton, He. set_solver.
    + split_and!; [done..|]. intros p. rewrite H3, elem_of_app, list_elem_of_singleton, elem_of_cons. tauto.
Qed.

Definition ua_parts (prefixes : list prefix) (taken : gmap string claim) (agg : prefix) : list prefix :=
  if has taken (prefixKey agg) then keep_if (holds agg) prefixes else [agg].

Lemma unclaimedAggregate_elem prefixes taken :
  NoDup (unclaimedAggregate prefixes taken) /\
  forall p, p ∈ unclaimedAggregate prefixes taken <->
    exists agg, agg ∈ Aggregate prefixes /\ p ∈ ua_parts prefixes taken agg.
Proof.
  unfold unclaimedAggregate.
  assert (forall aggs acc, NoDup (fst acc) -> (forall p, p ∈ fst acc <-> p ∈ snd acc) ->
    let r := fold_left (fun acc agg => fold_left ua_step (ua_parts prefixes taken agg) acc) aggs acc in
    NoDup (fst r) /\ forall p, p ∈ fst r <-> p ∈ fst acc \/ exists agg, agg ∈ aggs /\ p ∈ ua_parts prefixes taken agg) as H.
  { induction aggs as [|agg aggs IH]; intros [out seen] Hn He; simpl.
    - split; [done|]. set_solver.
    - destruct (ua_step_fold (ua_parts prefixes taken agg) out seen Hn He) as (H1 & H2 & H3).
      destruct (IH _ H1 H2) as [H4 H5]. split; [done|]. intros p. rewrite H5, H3. simpl.
      setoid_rewrite elem_of_cons. naive_solver. }
  destruct (H (Aggregate prefixes) ([], ∅)) as [H1 H2]; [constructor|set_solver|].
  split; [done|]. intros p. rewrite H2. simpl. rewrite elem_of_nil. tauto.
Qed.

Definition unclaimed (taken : gmap string claim) (p : prefix) : Prop := has taken (prefixKey p) = false.

Lemma unclaimedAggregate_spec prefixes taken :
  Forall canon prefixes -> Forall (unclaimed taken) prefixes ->
  NoDup (unclaimedAggregate prefixes taken) /\
  Forall canon (unclaimedAggregate prefixes taken) /\
  Forall (unclaimed taken) (unclaimedAggregate prefixes taken) /\
  forall a, covered (unclaimedAggregate prefixes taken) a = covered prefixes a.
Proof.
  intros Hc Hu. assert (Forall prefix_ok prefixes) as Hok.
  { eapply Forall_impl; [exact Hc|]. by intros ? (? & _). }
  destruct (Aggregate_spec prefixes Hok) as (Hd & _ & Hcov & _ & _ & Hns).
  pose proof Hd as [Hca Hdj]. rewrite disjoint_list_spec in Hdj by done. destruct Hdj as [_ Hdj].
  destruct (unclaimedAggregate_elem prefixes taken) as [Hn He].
  rewrite Forall_forall in Hc, Hu, Hca.
  split_and!; [done|apply Forall_forall; intros p|apply Forall_forall; intros p|intros a; apply eq_true_iff_eq].
  - rewrite He. unfold ua_parts. intros (agg & Ha & Hp). case_match.
    + apply elem_of_keep_if in Hp as [Hp _]. by apply Hc.
    + apply list_elem_of_singleton in Hp as ->. by apply Hca.
  - rewrite He. unfold ua_parts. intros (agg & Ha & Hp). case_match eqn:E.
    + apply elem_of_keep_if in Hp as [Hp _]. by apply Hu.
    + apply list_elem_of_singleton in Hp as ->. done.
  - rewrite <- Hcov, !covered_in. setoid_rewrite He. unfold ua_parts. split.
    + intros (p & (agg & Ha & Hp) & Hpa). case_match.
      * apply elem_of_keep_if in Hp as [Hp Hh]. exists agg. split; [done|].
        apply (holds_Contains agg p); [apply (Hca agg Ha)|apply (Hc p Hp)|done|done].
      * apply list_elem_of_singleton in Hp as ->. eauto.
    + intros (agg & Ha & Haa). destruct (has taken (prefixKey agg)) eqn:E.
      * assert (covered prefixes a = true) as Hpa by (rewrite <- Hcov; apply covered_in; eauto).
        apply covered_in in Hpa as (q & Hq & Hqa).
        destruct (block_in_one (Aggregate prefixes) q Hd Hns (Hc q Hq)) as (agg' & Ha' & Hh).
        { intros b _ Hb. rewrite Hcov. apply covered_in. eauto. }
        assert (agg' = agg) as ->.
        { apply (Hdj agg' agg a); [done..| |done].
          apply (holds_Contains agg' q); [apply (Hca agg' Ha')|apply (Hc q Hq)|done|done]. }
        exists q. split; [|done]. exists agg. split; [done|]. rewrite E. by apply elem_of_keep_if.
      * exists agg. split; [|done]. exists agg. split; [done|]. rewrite E. by apply list_elem_of_singleton.
Qed.

(** ** What is kept out *)

Lemma dedup_kept_addrs l : forall seen a,
  a ∈ map ko_addr l -> a ∉ seen -> a ∈ map ko_addr (dedup_kept seen l).
Proof.
  induction l as [|k l IH]; intros seen a Ha Hs; simpl; [done|].
  simpl in Ha. apply elem_of_cons in Ha. case_bool_decide as Hk.
  - destruct Ha as [->|Ha]; [done|]. by apply IH.
  - simpl. rewrite elem_of_cons. destruct (decide (a = ko_addr k)) as [->|Hne]; [by left|].
    right. destruct Ha as [->|Ha]; [done|]. apply IH; [done|set_solver].
Qed.

Lemma dedup_kept_sub l : forall seen k, k ∈ dedup_kept seen l -> k ∈ l.
Proof.
  induction l as [|x l IH]; intros seen k; simpl; [done|]. case_bool_decide.
  - intros ?%IH. by right.
  - intros [->|?%IH]%elem_of_cons; [by left|by right].
Qed.

(** The resolvers a plan keeps out: the first of each family. *)
Definition kept_resolver (inp : DesiredInput) (a : addr) : Prop :=
  a ∈ take maxKeptResolvers (keep_if (fun b => Bool.eqb (Is4 b) (Is4 a)) (in_DNSServers inp)).

Lemma take_sub_cons {A} (n m : nat) (x : A) l :
  (n < m)%nat -> take (m - n) (x :: l) = x :: take (m - S n) l.
Proof. intros. by replace (m - n)%nat with (S (m - S n)) by lia. Qed.

Lemma keep_resolvers_addrs pfx dns : forall n4 n6 a,
  (n4 <= maxKeptResolvers)%nat -> (n6 <= maxKeptResolvers)%nat ->
  a ∈ take (maxKeptResolvers - (if Is4 a then n4 else n6)) (keep_if (fun b => Bool.eqb (Is4 b) (Is4 a)) dns) ->
  Contains pfx a = true -> a ∈ map ko_addr (keep_resolvers pfx dns n4 n6).
Proof.
  induction dns as [|b dns IH]; intros n4 n6 a H4 H6 Ha Hc; cbn [keep_resolvers].
  { simpl in Ha. rewrite take_nil in Ha. by apply elem_of_nil in Ha. }
  destruct (Nat.leb_spec maxKeptResolvers (if Is4 b then n4 else n6)) as [Hm|Hm].
  - apply IH; [done..| |done]. simpl in Ha. destruct (Is4 b) eqn:Eb, (Is4 a) eqn:Ea; simpl in Ha; try done.
    all: replace (maxKeptResolvers - _)%nat with 0%nat in Ha by lia; simpl in Ha; by apply elem_of_nil in Ha.
  - assert (a = b \/ a ∈ map ko_addr (if Is4 b then keep_resolvers pfx dns (S n4) n6
                                      else keep_resolvers pfx dns n4 (S n6))) as Hor.
    { destruct (decide (a = b)) as [->|Hne]; [by left|right].
      simpl in Ha. destruct (Is4 b) eqn:Eb, (Is4 a) eqn:Ea; simpl in Ha;
        rewrite ?take_sub_cons, ?elem_of_cons in Ha by done;
        (apply IH; [lia..|rewrite Ea; naive_solver|done]). }
    destruct (Contains pfx b) eqn:Eb; simpl.
    + rewrite elem_of_cons. destruct Hor; auto.
    + destruct Hor as [->|?]; [congruence|done].
Qed.

(** A server's address is a real one. *)
Definition server_ok (a : addr) : Prop := addr_ok a /\ IsValid a = true.

#[export] Instance server_ok_dec a : Decision (server_ok a).
Proof. unfold server_ok. apply _. Defined.

(** Representable input: addresses in range, as every [netip] value is. *)
Record input_ok (inp : DesiredInput) : Prop := mkInputOk {
  io_gw4 : addr_ok (in_GatewayV4 inp);
  io_gw6 : addr_ok (in_GatewayV6 inp);
  io_net4 : prefix_ok (in_PhysNetV4 inp);
  io_net6 : prefix_ok (in_PhysNetV6 inp);
  io_dns : Forall addr_ok (in_DNSServers inp);
  io_anchors : Forall addr_ok (in_Anchors inp);
  io_tailscale : Forall prefix_ok (in_Tailscale inp);
  io_servers : Forall (fun t => Forall server_ok (servers t)) (in_Tunnels inp);
}.

#[export] Instance input_ok_dec inp : Decision (input_ok inp).
Proof.
  refine (cast_if (decide (addr_ok (in_GatewayV4 inp) /\ addr_ok (in_GatewayV6 inp) /\
    prefix_ok (in_PhysNetV4 inp) /\ prefix_ok (in_PhysNetV6 inp) /\
    Forall addr_ok (in_DNSServers inp) /\ Forall addr_ok (in_Anchors inp) /\
    Forall prefix_ok (in_Tailscale inp) /\
    Forall (fun t => Forall server_ok (servers t)) (in_Tunnels inp)))).
  - abstract (constructor; tauto).
  - abstract (intros []; tauto).
Defined.

Definition router_of (inp : DesiredInput) (p : prefix) : addr :=
  if Is6 (p_addr p) then WithZone (in_GatewayV6 inp) "" else in_GatewayV4 inp.

(** What a kept-out entry is: an address of [pfx], with a network that holds it
    or none. *)
Definition kept_ok (pfx : prefix) (k : keptOut) : Prop :=
  addr_ok (ko_addr k) /\ Contains pfx (ko_addr k) = true /\
  (pfx_IsValid (ko_net k) = false \/ prefix_ok (ko_net k) /\ Contains (ko_net k) (ko_addr k) = true).

Section kept_out.
Context (inp : DesiredInput) (Hin : input_ok inp).
Context (ts : list TunnelInput) (Hts : Forall (fun t => Forall server_ok (servers t)) ts).
Context (pfx : prefix) (Hpfx : canon pfx).

Lemma keep_router_ok : Forall (kept_ok pfx) (keep_router pfx inp).
Proof.
  destruct Hin. pose proof Hpfx as (Hok & _ & _). unfold keep_router.
  assert (exists gw lan on, addr_ok gw /\ prefix_ok lan /\
    (if Is6 (p_addr pfx) then (WithZone (in_GatewayV6 inp) "", in_PhysNetV6 inp, in_PhysIfaceV6 inp)
     else (in_GatewayV4 inp, in_PhysNetV4 inp, in_PhysIfaceV4 inp)) = (gw, lan, on)) as (gw & lan & on & Hg & Hl & ->).
  { case_if; eexists _, _, _; (split_and!; [| |reflexivity]); try done. by apply addr_ok_withoutZone. }
  case_if; [|constructor]. bool_hyps. destruct (pfx_IsValid lan && Contains lan gw) eqn:E; (constructor; [|by constructor]).
  - bool_hyps. split_and!; [done|done|right]. simpl. case_if; [done|]. split; [by apply Masked_ok|].
    by rewrite Contains_Masked.
  - by split_and!; [..|left].
Qed.

Lemma keep_resolvers_ok dns n4 n6 : Forall addr_ok dns -> Forall (kept_ok pfx) (keep_resolvers pfx dns n4 n6).
Proof.
  intros H. revert n4 n6. induction H as [|a dns Ha Hd IH]; intros n4 n6; cbn [keep_resolvers]; [constructor|].
  case_if; [done|]. assert (Forall (kept_ok pfx) (if Is4 a then keep_resolvers pfx dns (S n4) n6
    else keep_resolvers pfx dns n4 (S n6))) as Hr by (case_if; apply IH).
  destruct (Contains pfx a) eqn:E; [|done]. constructor; [|done]. by split_and!; [..|left].
Qed.

Lemma keepOut_ok t held essential : Forall (kept_ok pfx) (keepOut pfx t ts held inp essential).
Proof.
  apply Forall_forall. intros k Hk. unfold keepOut in Hk. apply dedup_kept_sub in Hk.
  pose proof Hin as []. rewrite !elem_of_app in Hk. destruct Hk as [Hk|[Hk|[Hk|Hk]]].
  - pose proof keep_router_ok as H. rewrite Forall_forall in H. by apply H.
  - destruct essential; [by apply elem_of_nil in Hk|].
    pose proof (keep_resolvers_ok (in_DNSServers inp) 0 0 ltac:(done)) as H. rewrite Forall_forall in H. by apply H.
  - destruct essential; [by apply elem_of_nil in Hk|].
    apply list_elem_of_fmap in Hk as (a & -> & Ha). apply elem_of_keep_if in Ha as [Ha Hc].
    rewrite Forall_forall in io_anchors0. by split_and!; [apply io_anchors0|..|left].
  - apply list_elem_of_bind in Hk as (o & Hk & Ho). apply list_elem_of_fmap in Hk as (a & -> & Ha).
    apply elem_of_keep_if in Ha as [Ha Hc]. bool_hyps. rewrite Forall_forall in Hts.
    specialize (Hts o Ho). rewrite Forall_forall in Hts. by split_and!; [apply Hts|..|left].
Qed.

(** What must stay out is in the list. *)
Lemma keepOut_router t held essential :
  Contains pfx (router_of inp pfx) = true ->
  router_of inp pfx ∈ map ko_addr (keepOut pfx t ts held inp essential).
Proof.
  intros Hc. apply dedup_kept_addrs; [|set_solver]. rewrite map_app, elem_of_app. left.
  unfold keep_router. unfold router_of in *.
  destruct (Is6 (p_addr pfx)).
  all: match goal with |- ?a ∈ _ => assert (IsValid a = true) as ->
         by (pose proof (Contains_family _ _ Hc); destruct Hpfx as (Hok & _ & Hv);
             destruct (valid_IsValid pfx Hok Hv) as [Hva _];
             destruct (p_addr pfx), a; simpl in *; try done; lia) end.
  all: rewrite Hc; simpl; case_if; simpl; by apply list_elem_of_singleton.
Qed.

Lemma keepOut_server t held essential o a :
  o ∈ ts -> a ∈ servers o -> a ∉ held -> Contains pfx a = true ->
  a ∈ map ko_addr (keepOut pfx t ts held inp essential).
Proof.
  intros Ho Ha Hh Hc. apply dedup_kept_addrs; [|set_solver]. rewrite !map_app, !elem_of_app.
  right. right. right. unfold keep_servers. apply list_elem_of_fmap.
  eexists. split; [|apply list_elem_of_bind; exists o; split; [|exact Ho]; apply list_elem_of_fmap; eexists;
    split; [reflexivity|apply elem_of_keep_if; split; [exact Ha|]]].
  - done.
  - rewrite Hc. by rewrite bool_decide_false.
Qed.

Lemma keepOut_resolver t held a :
  kept_resolver inp a -> Contains pfx a = true -> a ∈ map ko_addr (keepOut pfx t ts held inp false).
Proof.
  intros Ha Hc. apply dedup_kept_addrs; [|set_solver]. rewrite !map_app, !elem_of_app. right. left.
  apply keep_resolvers_addrs; [lia..| |done]. unfold kept_resolver in Ha.
  by destruct (Is4 a); rewrite Nat.sub_0_r.
Qed.

Lemma keepOut_anchor t held a :
  a ∈ in_Anchors inp -> Contains pfx a = true -> a ∈ map ko_addr (keepOut pfx t ts held inp false).
Proof.
  intros Ha Hc. apply dedup_kept_addrs; [|set_solver]. rewrite !map_app, !elem_of_app. right. right. left.
  unfold keep_anchors. rewrite map_map. simpl. apply list_elem_of_fmap. exists a. split; [done|].
  by apply elem_of_keep_if.
Qed.
End kept_out.

(** ** Carving leaves out every kept-out address *)

Lemma othersInside_ok pfx name ts occ : Forall (fun o => canon (ri_net o)) (othersInside pfx name ts occ).
Proof.
  apply Forall_forall. intros o. unfold othersInside. rewrite elem_of_slice_stable, elem_of_app.
  intros [Ho|Ho].
  - apply list_elem_of_omap in Ho as (kv & _ & Ho).
    destruct (ParsePrefix (fst kv)) as [q|] eqn:E; [|done]. simpl in Ho. case_match; [|done].
    apply ParsePrefix_ok in E as [? ?]. simplify_eq. by apply canon_Masked.
  - apply list_elem_of_bind in Ho as (t & Ho & _). case_match; [by apply elem_of_nil in Ho|].
    apply list_elem_of_omap in Ho as (v & _ & Ho).
    destruct (entryToPrefix v) as [[q fam]|] eqn:E; [|done]. simpl in Ho. case_match; [|done].
    apply entryToPrefix_ok in E as [[? ?] _]. simplify_eq. by apply canon_Masked.
Qed.

Lemma find_holder_spec k holders : forall found hole why,
  Forall (fun o => canon (ri_net o)) holders ->
  prefix_ok hole -> Contains hole (ko_addr k) = true ->
  prefix_ok (fst (find_holder k holders found hole why)) /\
  Contains (fst (find_holder k holders found hole why)) (ko_addr k) = true.
Proof.
  induction holders as [|o holders IH]; intros found hole why Hf Hok Hc; cbn [find_holder]; [done|].
  inversion Hf as [|?? (Ho & _) Hf']; subst. case_if; [by apply IH|].
  apply IH; [done..|]. bool_hyps. by destruct (Contains (ri_net o) (ko_addr k)).
Qed.

Lemma host_prefix_Contains pfx a : addr_ok a -> Contains pfx a = true -> Contains (host_prefix a) a = true.
Proof.
  intros Ha Hc. assert (IsValid a = true /\ Zone a = "") as [Hv Hz].
  { split; [|by eapply Contains_zone]. unfold Contains in Hc. destruct a; [|done..].
    simpl in Hc. rewrite orb_true_r in Hc. simpl in Hc. by destruct (_ || _). }
  destruct (host_prefix_valid a Ha Hv) as [Hok Hpv].
  pose proof (Contains_self _ Hok Hpv) as Hs. rewrite host_prefix_addr in Hs.
  by replace (withoutZone a) with a in Hs by (destruct a; simpl in *; congruence).
Qed.

Lemma hole_for_spec pfx k others :
  kept_ok pfx k -> Forall (fun o => canon (ri_net o)) others ->
  prefix_ok (fst (hole_for k others)) /\ Contains (fst (hole_for k others)) (ko_addr k) = true.
Proof.
  intros (Ha & Hc & Hn) Ho. unfold hole_for. case_if.
  - simpl. destruct Hn as [?|?]; [congruence|done].
  - apply find_holder_spec; [done|by apply PrefixFrom_ok|by eapply host_prefix_Contains].
Qed.

Lemma carve_holes_spec pfx keep others :
  Forall (kept_ok pfx) keep -> Forall (fun o => canon (ri_net o)) others ->
  Forall prefix_ok (fst (carve_holes keep others)) /\
  forall k, k ∈ keep -> covered (fst (carve_holes keep others)) (ko_addr k) = true.
Proof.
  intros Hk Ho. unfold carve_holes.
  assert (forall holes (reasons : reasons_map),
    Forall prefix_ok holes -> (forall h, is_Some (reasons !! h) -> h ∈ holes) ->
    let r := fold_left (fun acc k =>
      let '(holes, reasons) := acc in
      let '(hole, why) := hole_for k others in
      let holes := match reasons !! hole with Some _ => holes | None => holes ++ [hole] end in
      (holes, <[hole := reasons_at reasons hole ++ [why]]> reasons)) keep (holes, reasons) in
    Forall prefix_ok (fst r) /\ (forall a, covered holes a = true -> covered (fst r) a = true) /\
    forall k, k ∈ keep -> covered (fst r) (ko_addr k) = true) as H.
  { induction Hk as [|k keep Hk1 Hkk IH]; intros holes reasons Hh Hr; cbn [fold_left].
    { split_and!; [done|done|]. intros k Hk. by apply elem_of_nil in Hk. }
    destruct (hole_for_spec pfx k others Hk1 Ho) as [Hok Hc].
    destruct (hole_for k others) as [hole why]. simpl in Hok, Hc.
    set (holes' := match reasons !! hole with Some _ => holes | None => holes ++ [hole] end).
    assert (Forall prefix_ok holes' /\ (forall h, h ∈ holes -> h ∈ holes') /\ hole ∈ holes') as (Hp & Hs & Hin).
    { unfold holes'. destruct (reasons !! hole) eqn:E; [split_and!; auto|].
      split_and!; [apply Forall_app; by split; [|constructor]|set_solver..]. }
    edestruct (IH holes' (<[hole := reasons_at reasons hole ++ [why]]> reasons)) as (H1 & H2 & H3).
    - done.
    - intros h Hh'. destruct (decide (h = hole)) as [->|Hne]; [done|].
      rewrite lookup_insert_ne in Hh' by done. auto.
    - split_and!; [done| |].
      + intros a Ha. apply H2. apply covered_in in Ha as (p & Hp' & Hpa). apply covered_in. eauto.
      + intros k' [->|Hk']%elem_of_cons; [|by apply H3]. apply H2, covered_in. eauto. }
  destruct (H [] ∅) as (H1 & _ & H3); [constructor| |done].
  intros h. rewrite lookup_empty. by intros [].
Qed.

Lemma carve_spec pfx keep others taken p :
  canon pfx -> Forall (kept_ok pfx) keep -> Forall (fun o => canon (ri_net o)) others ->
  p ∈ fst (carve pfx keep others taken) ->
  canon p /\ holds pfx p = true /\ unclaimed taken p /\ forall a, a ∈ map ko_addr keep -> Contains p a = false.
Proof.
  intros Hc Hk Ho. unfold carve. destruct (carve_holes_spec pfx keep others Hk Ho) as [Hh Hcov].
  destruct (carve_holes keep others) as [holes reasons]. simpl in *. unfold carve_parts.
  rewrite elem_of_keep_if. intros [Hp Hf]. bool_hyps.
  destruct (subtractNets_spec holes Hh pfx Hc) as (Hca & _ & Hho & Hex). rewrite Forall_forall in Hca, Hho.
  split_and!; [by apply Hca|by apply Hho|done|].
  intros a (k & -> & Hka)%list_elem_of_fmap. destruct (Contains p (ko_addr k)) eqn:E; [|done].
  assert (covered (subtractNets pfx holes) (ko_addr k) = true) as Hcv by (apply covered_in; eauto).
  rewrite Hex, (Hcov k Hka) in Hcv. by rewrite andb_false_r in Hcv.
Qed.

(** ** One listed route *)

(** A destination that carries nothing it mustn't: not the router, not a
    tunnel's server nothing else holds off, and (unless the tunnel blocks) no
    kept resolver and no probe address. *)
Record avoids (inp : DesiredInput) (ts : list TunnelInput) (held : gset addr) (t : TunnelInput)
    (p : prefix) : Prop := mkAvoids {
  av_router : Contains p (router_of inp p) = false;
  av_servers : forall o a, o ∈ ts -> a ∈ servers o -> a ∉ held -> Contains p a = false;
  av_dns : t_Block t = false -> forall a, kept_resolver inp a -> Contains p a = false;
  av_anchors : t_Block t = false -> forall a, a ∈ in_Anchors inp -> Contains p a = false;
}.

Lemma claim_reason_ne c name : claim_reason c name <> "".
Proof. unfold claim_reason. repeat case_match; done. Qed.

Lemma tailscale_why_empty pfx nets : forall why, tailscale_why pfx nets why = "" -> why = "".
Proof.
  unfold tailscale_why. induction nets as [|n nets IH]; intros why H; simpl in H; [done|].
  apply IH in H. by case_match.
Qed.

Lemma route_why_empty inp t taken pfx noV6 :
  route_why inp t taken pfx noV6 = "" ->
  taken !! prefixKey pfx = None /\ TunnelRouteBlock pfx inp = "" /\ (noV6 = true -> t_Block t = true).
Proof.
  unfold route_why. intros H%tailscale_why_empty.
  destruct (noV6 && negb (t_Block t)) eqn:E; simpl in H.
  - destruct (taken !! prefixKey pfx); done.
  - destruct (taken !! prefixKey pfx) as [c|].
    + destruct (String.eqb_spec (TunnelRouteBlock pfx inp) ""); [by apply claim_reason_ne in H|done].
    + split_and!; [done..|]. by destruct noV6, (t_Block t).
Qed.

Section one_route.
Context (inp : DesiredInput) (Hin : input_ok inp).
Context (ts : list TunnelInput) (Hts : Forall (fun t => Forall server_ok (servers t)) ts).
Context (held : gset addr) (taken : gmap string claim) (t : TunnelInput).

(** What a piece of a listed route satisfies. *)
Definition piece_ok (pfx p : prefix) : Prop :=
  canon p /\ holds pfx p = true /\ unclaimed taken p /\ avoids inp ts held t p.

Lemma avoids_of pfx p essential :
  canon pfx -> canon p -> holds pfx p = true ->
  (essential = true -> t_Block t = true) ->
  (forall a, a ∈ map ko_addr (keepOut pfx t ts held inp essential) -> Contains p a = false) ->
  avoids inp ts held t p.
Proof.
  intros Hc Hp Hh He Hk.
  assert (forall a, Contains p a = true -> Contains pfx a = true) as Hup.
  { intros a. apply holds_Contains; [apply Hc|apply Hp|done]. }
  assert (router_of inp p = router_of inp pfx) as Er.
  { unfold router_of. apply holds_spec in Hh as (_ & El & _); [|apply Hc|apply Hp].
    by rewrite (BitLen_Is6 _ _ El). }
  constructor.
  - destruct (Contains p (router_of inp p)) eqn:E; [|done]. rewrite <- E. apply Hk. rewrite Er in *.
    apply keepOut_router; auto.
  - intros o a Ho Ha Hn. destruct (Contains p a) eqn:E; [|done]. rewrite <- E. apply Hk.
    eapply keepOut_server; eauto.
  - intros Hb a Ha. destruct (Contains p a) eqn:E; [|done]. rewrite <- E. apply Hk.
    destruct essential; [by rewrite He in Hb|]. apply keepOut_resolver; auto.
  - intros Hb a Ha. destruct (Contains p a) eqn:E; [|done]. rewrite <- E. apply Hk.
    destruct essential; [by rewrite He in Hb|]. apply keepOut_anchor; auto.
Qed.

Lemma route_parts_ok v pfx why parts narrowed :
  canon pfx -> (why = "" -> taken !! prefixKey pfx = None) ->
  route_parts inp ts held taken t v pfx why = (parts, "", narrowed) ->
  Forall (piece_ok pfx) parts.
Proof.
  intros Hc Hw. unfold route_parts. destruct (String.eqb_spec why "") as [->|Hne]; simpl; [|by intros [= _ ?]].
  set (keep := keepOut pfx t ts held inp false).
  pose proof (othersInside_ok pfx (t_Name t) ts (in_Occupied inp)) as Ho.
  assert (forall e, (e = true -> t_Block t = true) ->
    Forall (piece_ok pfx) (fst (carve pfx (keepOut pfx t ts held inp e)
                                  (othersInside pfx (t_Name t) ts (in_Occupied inp)) taken))) as Hcv.
  { intros e He. apply Forall_forall. intros p Hp.
    apply carve_spec in Hp as (H1 & H2 & H3 & H4); [|done|by apply keepOut_ok|done].
    refine (conj H1 (conj H2 (conj H3 _))). exact (avoids_of pfx p e Hc H1 H2 He H4). }
  destruct (length keep =? 0)%nat eqn:El; simpl.
  - intros [= <- <-]. apply Nat.eqb_eq, length_zero_iff_nil in El. constructor; [|constructor].
    pose proof Hc as (Hok & Hm & Hv).
    refine (conj Hc (conj (holds_refl _ Hok Hv) (conj _ _))).
    + unfold unclaimed, has. rewrite Hw by done. apply bool_decide_false. by intros [].
    + eapply (avoids_of pfx pfx false); [done..|by apply holds_refl|done|].
      fold keep. rewrite El. intros a Ha. by apply elem_of_nil in Ha.
  - pose proof (Hcv false ltac:(done)) as H0. fold keep in H0.
    destruct (carve pfx keep _ _) as [parts0 except0]. simpl in H0.
    destruct (t_Block t && _) eqn:Eb.
    + apply andb_prop in Eb as [Eb _]. pose proof (Hcv true ltac:(done)) as H1.
      destruct (carve _ _ _ _) as [parts1 except1]. simpl in H1.
      repeat case_if; simpl; intros [=]; by subst.
    + repeat case_if; simpl; intros [=]; by subst.
Qed.

Lemma route_one_ok v pfx fam :
  valid_prefix pfx -> Forall (piece_ok (Masked pfx)) (v_parts (route_one inp ts held taken t v pfx fam)).
Proof.
  intros [Hok Hv]. unfold route_one. cbv zeta.
  set (noV6 := negb (t_Iface t =s? "") && (fam =s? FamilyV6) && negb (t_V6 t)).
  destruct (route_parts _ _ _ _ _ _ _ _) as [[parts why] narrowed] eqn:E.
  destruct (String.eqb_spec why "") as [->|Hne]; simpl.
  - assert (Forall (piece_ok (Masked pfx)) parts) as H.
    { eapply route_parts_ok; [by apply canon_Masked| |exact E]. intros Hw. by apply route_why_empty in Hw as [? _]. }
    destruct noV6; done.
  - destruct (String.eqb_spec why ""); [done|]. simpl. constructor.
Qed.
End one_route.

(** ** The loop over a tunnel's listed routes *)

(** ** A plan grows *)

(** A plan only grows as tunnels are planned. *)
Record grows (tp tp' : TunnelPlan) : Prop := mkGrows {
  gr_routes : forall r, r ∈ tp_Routes tp -> r ∈ tp_Routes tp';
  gr_blocked : forall n b, b ∈ at_key (tp_Blocked tp) n -> b ∈ at_key (tp_Blocked tp') n;
  gr_nets : forall p, p ∈ tp_nets tp -> p ∈ tp_nets tp';
}.

#[export] Instance grows_preorder : PreOrder grows.
Proof.
  split; [by intros tp|]. intros a b c [A1 A2 A3] [B1 B2 B3]. constructor; auto.
Qed.

Lemma fold_grows {A B} (get : A -> TunnelPlan) (f : A -> B -> A) l :
  (forall x y, grows (get x) (get (f x y))) -> forall x, grows (get x) (get (fold_left f l x)).
Proof.
  intros Hf. induction l as [|y l IH]; intros x; [done|]. cbn [fold_left]. etrans; [apply Hf|apply IH].
Qed.

Lemma at_key_grows {A} (m : gmap string (list A)) k l n b : b ∈ at_key m n -> b ∈ at_key (append_key m k l) n.
Proof. rewrite at_append_key. case_decide; [subst; rewrite elem_of_app; auto|done]. Qed.

Lemma note_tunnel_grows tp name v : grows tp (note_tunnel tp name v).
Proof.
  constructor; simpl; [done| |done]. intros n b Hb. case_match; [done|by apply at_key_grows].
Qed.

Lemma list_route_grows inp ts t taken held acc v : grows (fst acc) (fst (list_route inp ts t taken held acc v)).
Proof.
  unfold list_route. destruct (entryToPrefix v) as [[]|]; [apply note_tunnel_grows|done].
Qed.

Lemma install_one_grows inp t fam refuse acc p : grows (fst acc) (fst (install_one inp t fam refuse acc p)).
Proof.
  destruct acc as [tp taken]. constructor; simpl; [|done|]; intros x Hx; rewrite elem_of_app; by left.
Qed.

Section tunnels.
Context (inp : DesiredInput) (Hin : input_ok inp).
Context (ts : list TunnelInput) (Hts : Forall (fun t => Forall server_ok (servers t)) ts).
Context (held : gset addr).

(** An address some listed route of [t] holds. *)
Definition listed (t : TunnelInput) (a : addr) : Prop :=
  exists v pfx fam, v ∈ t_Routes t /\ entryToPrefix v = Some (pfx, fam) /\ Contains pfx a = true.

Definition gathered_at (t : TunnelInput) (taken : gmap string claim) (byF : byFam) (fam : Family) : Prop :=
  forall p, p ∈ at_key byF fam ->
    famOf (p_addr p) = fam /\ canon p /\ unclaimed taken p /\ avoids inp ts held t p /\
    forall a, Contains p a = true -> listed t a.

Definition gathered (t : TunnelInput) (taken : gmap string claim) (byF : byFam) : Prop :=
  forall fam, gathered_at t taken byF fam.

Lemma list_route_ok t taken acc v :
  v ∈ t_Routes t -> gathered t taken (snd acc) ->
  let r := list_route inp ts t taken held acc v in
  gathered t taken (snd r) /\ tp_Routes (fst r) = tp_Routes (fst acc) /\ tp_nets (fst r) = tp_nets (fst acc).
Proof.
  intros Hv Hg. unfold list_route. destruct (entryToPrefix v) as [[pfx fam]|] eqn:E; [|done]. simpl.
  split; [|done]. pose proof (entryToPrefix_ok v pfx fam E) as [Hp Hf].
  pose proof (route_one_ok inp Hin ts Hts held taken t v pfx fam Hp) as Hr.
  set (r := route_one inp ts held taken t v pfx fam) in *.
  assert (gathered t taken (append_key (snd acc) fam (v_parts r))) as Happ.
  { intros f p. rewrite at_append_key. case_decide as Ef; [|apply Hg].
    rewrite elem_of_app. intros [Hpp|Hpp]; [subst f; by apply Hg|].
    rewrite Forall_forall in Hr. destruct (Hr p Hpp) as (H1 & H2 & H3 & H4).
    refine (conj _ (conj H1 (conj H3 (conj H4 _)))).
    - rewrite Ef, Hf, <- (famOf_Masked pfx Hp). symmetry. apply famOf_BitLen.
      apply holds_spec in H2 as (_ & El & _); [done|apply Masked_ok, Hp|apply H1].
    - intros a Ha. exists v, pfx, fam. split_and!; [done..|]. rewrite <- Contains_Masked by apply Hp.
      eapply holds_Contains; [apply Masked_ok, Hp|apply H1|done|done]. }
  by destruct (v_parts r).
Qed.

Lemma list_routes_ok t taken l : forall acc,
  l ⊆ t_Routes t -> gathered t taken (snd acc) ->
  let r := fold_left (list_route inp ts t taken held) l acc in
  gathered t taken (snd r) /\ tp_Routes (fst r) = tp_Routes (fst acc) /\ tp_nets (fst r) = tp_nets (fst acc).
Proof.
  induction l as [|v l IH]; intros acc Hl Hg; [done|]. cbn [fold_left].
  destruct (list_route_ok t taken acc v) as (H1 & H2 & H3); [apply Hl; by left|done|].
  destruct (IH _ ltac:(set_solver) H1) as (H4 & H5 & H6). cbv zeta. rewrite H5, H6. done.
Qed.

(** ** Installing *)

(** What a tunnel's destination is. *)
Definition dest_ok (t : TunnelInput) (p : prefix) : Prop :=
  canon p /\ avoids inp ts held t p /\ forall a, Contains p a = true -> listed t a.

(** A route into (or refused for) a tunnel. *)
Definition dest_route (r : ManagedRoute) : Prop :=
  exists t p, t ∈ ts /\ dest_ok t p /\ (t_Iface t <> "" \/ t_Block t = true) /\
    mr_ProfileID r = TunnelProfilePrefix +:+ t_Name t /\
    rt_DstCIDR (mr_Route r) = prefix_String p /\ rt_Family (mr_Route r) = famOf (p_addr p) /\
    rt_Gateway (mr_Route r) = "" /\ rt_Table (mr_Route r) = "" /\
    (if rt_Reject (mr_Route r) then t_Block t = true /\ rt_Iface (mr_Route r) = ""
     else rt_Iface (mr_Route r) = t_Iface t /\ t_Iface t <> "").

(** The route that takes [a] into the tunnel's own interface, or refuses it: while
    the tunnel is down, and for IPv6 while it has no IPv6 address. *)
Definition carries (t : TunnelInput) (r : ManagedRoute) (a : addr) : Prop :=
  exists p, canon p /\ Contains p a = true /\
    rt_DstCIDR (mr_Route r) = prefix_String p /\ rt_Family (mr_Route r) = famOf (p_addr p) /\
    rt_Gateway (mr_Route r) = "" /\ rt_Table (mr_Route r) = "" /\
    mr_ProfileID r = TunnelProfilePrefix +:+ t_Name t /\
    rt_Reject (mr_Route r) = (t_Iface t =s? "") || ((famOf (p_addr p) =s? FamilyV6) && negb (t_V6 t)) /\
    rt_Iface (mr_Route r) = if rt_Reject (mr_Route r) then "" else t_Iface t.

(** A server pin. *)
Definition pin_route (r : ManagedRoute) : Prop :=
  exists t a gw iface, t ∈ ts /\ a ∈ t_Bypass t /\
    resolveGateway "auto" (famOf a) inp = inr (gw, iface) /\
    mr_ProfileID r = TunnelProfilePrefix +:+ t_Name t /\
    mr_Route r = mkRoute (prefix_String (host_prefix a)) (addr_String gw) iface 0 (famOf a) OwnerRiftRoute
                   (protoFor (in_Platform inp)) "" (TunnelProfilePrefix +:+ t_Name t) false false false.

Record plan_inv (acc : TunnelPlan * gmap string claim) : Prop := mkPlanInv {
  pi_nodup : NoDup (dsts (tp_Routes (fst acc)));
  pi_taken : forall x, x ∈ dsts (tp_Routes (fst acc)) -> has (snd acc) x = true;
  pi_kind : Forall (fun r => pin_route r \/ dest_route r) (tp_Routes (fst acc));
  pi_nets : Forall canon (tp_nets (fst acc));
}.

Lemma has_insert {A} (m : gmap string A) k v x :
  has (<[k := v]> m) x = bool_decide (x = k) || has m x.
Proof.
  apply eq_true_iff_eq. rewrite orb_true_iff, bool_decide_eq_true, !has_spec.
  rewrite lookup_insert_is_Some. destruct (decide (k = x)); naive_solver.
Qed.

Lemma plan_inv_add acc tp' taken' r x :
  plan_inv acc -> tp_Routes tp' = tp_Routes (fst acc) ++ [r] -> dstKey (mr_Route r) = x ->
  has (snd acc) x = false -> (exists c, taken' = <[x := c]> (snd acc)) -> (pin_route r \/ dest_route r) ->
  Forall canon (tp_nets tp') -> plan_inv (tp', taken').
Proof.
  intros [Hn Ht Hk Hc] Er Ex Hx (c & ->) Hr Hc'. constructor; simpl; [rewrite Er..|done].
  - unfold dsts. rewrite map_app. simpl. apply NoDup_app. split_and!; [done| |apply NoDup_singleton].
    intros y Hy ->%list_elem_of_singleton. rewrite Ex in Hy. apply Ht in Hy. congruence.
  - intros y. unfold dsts. rewrite map_app, elem_of_app. simpl. rewrite list_elem_of_singleton, has_insert.
    intros [Hy| ->]; [rewrite (Ht y Hy); apply orb_true_r|]. by rewrite Ex, bool_decide_true.
  - apply Forall_app. split; [done|]. by constructor.
Qed.

Lemma install_one_ok t fam refuse acc p :
  t ∈ ts -> (t_Iface t <> "" \/ t_Block t = true) -> (refuse = true -> t_Block t = true) ->
  (refuse = false -> t_Iface t <> "") ->
  dest_ok t p -> famOf (p_addr p) = fam -> unclaimed (snd acc) p -> plan_inv acc ->
  plan_inv (install_one inp t fam refuse acc p).
Proof.
  intros Ht Hup Hr1 Hr2 Hp Hf Hu Hi. destruct acc as [tp taken]. unfold install_one.
  eapply plan_inv_add; [exact Hi|reflexivity| |exact Hu|eauto| |].
  - destruct refuse; apply (dstKey_plain p); [apply Hp|done|apply Hp|done].
  - right. exists t, p. destruct refuse; simpl; split_and!; try done; try apply Hp; auto.
  - simpl. apply Forall_app. split; [apply Hi|]. constructor; [apply Hp|constructor].
Qed.

Lemma install_one_taken t fam refuse acc p :
  snd (install_one inp t fam refuse acc p) = <[prefixKey p := mkClaim (t_Name t) false refuse]> (snd acc).
Proof. by destruct acc. Qed.

Lemma install_one_nets t fam refuse acc p :
  tp_nets (fst (install_one inp t fam refuse acc p)) = tp_nets (fst acc) ++ [p].
Proof. by destruct acc. Qed.

Lemma install_fold_ok t fam refuse l : forall acc,
  t ∈ ts -> (t_Iface t <> "" \/ t_Block t = true) -> (refuse = true -> t_Block t = true) ->
  (refuse = false -> t_Iface t <> "") ->
  NoDup l -> Forall (fun p => dest_ok t p /\ famOf (p_addr p) = fam /\ unclaimed (snd acc) p) l ->
  plan_inv acc ->
  let r := fold_left (install_one inp t fam refuse) l acc in
  plan_inv r /\ tp_nets (fst r) = tp_nets (fst acc) ++ l /\
  forall q, canon q -> q ∉ l -> unclaimed (snd acc) q -> unclaimed (snd r) q.
Proof.
  induction l as [|p l IH]; intros acc Ht Hup Hr1 Hr2 Hn Hl Hi; cbn [fold_left].
  { split_and!; [done|by rewrite app_nil_r|done]. }
  apply NoDup_cons in Hn as [Hp Hn]. apply Forall_cons in Hl as [(Hd & Hf & Hu) Hl].
  assert (forall q, canon q -> q <> p -> unclaimed (snd acc) q ->
    unclaimed (snd (install_one inp t fam refuse acc p)) q) as Hun.
  { intros q Hq Hne Hqu. unfold unclaimed in *. rewrite install_one_taken, has_insert, Hqu, orb_false_r.
    apply bool_decide_false. intros E. apply Hne. apply prefixKey_inj; [done|apply Hd|done]. }
  destruct (IH (install_one inp t fam refuse acc p)) as (H1 & H2 & H3); [done..| | |].
  - rewrite Forall_forall in Hl |- *. intros q Hq. destruct (Hl q Hq) as (H1 & H2 & H3).
    split_and!; [apply H1..|done|]. apply Hun; [apply H1| |done]. congruence.
  - by apply install_one_ok.
  - cbv zeta. rewrite H2, install_one_nets, <- app_assoc. split_and!; [apply H1..|done|].
    intros q Hq Hnq Hqu. apply H3; [done|set_solver|]. apply Hun; [done|set_solver|done].
Qed.

Lemma install_fold_carries t fam l p a : forall acc, p ∈ l -> canon p -> famOf (p_addr p) = fam -> Contains p a = true ->
  exists r, r ∈ tp_Routes (fst (fold_left (install_one inp t fam ((t_Iface t =s? "") || ((fam =s? FamilyV6) && negb (t_V6 t)))) l acc)) /\ carries t r a.
Proof.
  set (refuse := _ || _). induction l as [|q l IH]; intros acc Hp Hc Hf Ha; [by apply elem_of_nil in Hp|]. cbn [fold_left].
  apply elem_of_cons in Hp as [<-|Hp]; [|by apply IH]. destruct acc as [tp taken].
  eexists. split; [apply (fold_grows fst (install_one inp t fam refuse) l (fun x y => install_one_grows inp t fam refuse x y) (install_one inp t fam refuse (tp, taken) p))|].
  - unfold install_one, tp_add. cbn [fst tp_Routes]. rewrite elem_of_app. right. by apply list_elem_of_singleton.
  - exists p. subst fam. destruct refuse eqn:E; cbn; unfold refuse in E; by rewrite E.
Qed.

(** Joining pieces keeps what they avoid. *)
Lemma avoids_union t l p :
  (forall a, Contains p a = true -> covered l a = true) -> Forall (avoids inp ts held t) l ->
  avoids inp ts held t p.
Proof.
  intros Hcov Hl. rewrite Forall_forall in Hl.
  assert (forall a, (forall q, q ∈ l -> Contains p a = true -> Contains q a = true -> False) ->
    Contains p a = false) as Hno.
  { intros a Ha. destruct (Contains p a) eqn:E; [|done]. exfalso.
    pose proof (Hcov a E) as Hc. apply covered_in in Hc as (q & Hq & Hqa). by apply (Ha q). }
  constructor.
  - apply Hno. intros q Hq Hp Hqa. destruct (Hl q Hq) as [Hr _ _ _].
    assert (router_of inp q = router_of inp p) as Er; [|by rewrite Er, Hqa in Hr].
    unfold router_of. rewrite (BitLen_Is6 (p_addr q) (p_addr p)); [done|].
    rewrite (Contains_family _ _ Hqa). symmetry. by apply Contains_family.
  - intros o a Ho Ha Hh. apply Hno. intros q Hq _ Hqa. destruct (Hl q Hq) as [_ Hs _ _].
    by rewrite (Hs o a) in Hqa.
  - intros Hb a Ha. apply Hno. intros q Hq _ Hqa. destruct (Hl q Hq) as [_ _ Hs _].
    by rewrite (Hs Hb a) in Hqa.
  - intros Hb a Ha. apply Hno. intros q Hq _ Hqa. destruct (Hl q Hq) as [_ _ _ Hs].
    by rewrite (Hs Hb a) in Hqa.
Qed.

Lemma gathered_installable t taken byF fam :
  gathered_at t taken byF fam ->
  let l := unclaimedAggregate (at_key byF fam) taken in
  NoDup l /\ Forall (fun p => dest_ok t p /\ famOf (p_addr p) = fam /\ unclaimed taken p) l /\
  forall a, covered l a = covered (at_key byF fam) a.
Proof.
  intros Hg. destruct (unclaimedAggregate_spec (at_key byF fam) taken) as (Hn & Hc & Hu & Hcov).
  - apply Forall_forall. intros p Hp. by apply (Hg p Hp).
  - apply Forall_forall. intros p Hp. by apply (Hg p Hp).
  - split_and!; [done| |done]. apply Forall_forall. intros p Hp.
    rewrite Forall_forall in Hc, Hu. pose proof (Hc p Hp) as Hcp.
    assert (forall a, Contains p a = true -> covered (at_key byF fam) a = true) as Hin'.
    { intros a Ha. rewrite <- Hcov. apply covered_in. eauto. }
    refine (conj (conj Hcp (conj _ _)) (conj _ (Hu p Hp))).
    + apply (avoids_union t (at_key byF fam)); [done|]. apply Forall_forall. intros q Hq. by apply (Hg q Hq).
    + intros a Ha. apply Hin', covered_in in Ha as (q & Hq & Hqa). by apply (Hg q Hq).
    + apply (covered_family p (at_key byF fam)); [done|done|]. apply Forall_forall. intros q Hq.
      by apply (Hg q Hq).
Qed.

Lemma install_family_ok t byF fam acc :
  t ∈ ts -> (t_Iface t <> "" \/ t_Block t = true) ->
  (fam = FamilyV6 -> t_Iface t <> "" -> t_V6 t = false -> at_key byF fam = [] \/ t_Block t = true) ->
  gathered_at t (snd acc) byF fam -> plan_inv acc ->
  let r := install_family inp t byF acc fam in
  plan_inv r /\
  (forall a, covered (at_key byF fam) a = true -> exists x, x ∈ tp_Routes (fst r) /\ carries t x a) /\
  forall q, canon q -> famOf (p_addr q) <> fam -> unclaimed (snd acc) q -> unclaimed (snd r) q.
Proof.
  intros Ht Hup H6 Hg Hi. unfold install_family.
  destruct (gathered_installable t (snd acc) byF fam Hg) as (Hn & Hl & Hcov).
  set (l := unclaimedAggregate (at_key byF fam) (snd acc)) in *.
  set (refuse := (t_Iface t =s? "") || ((fam =s? FamilyV6) && negb (t_V6 t))).
  destruct (decide (l = [])) as [El|Hl0].
  { rewrite El. simpl. split_and!; [apply Hi..| |done]. intros a. by rewrite <- Hcov, El. }
  assert (at_key byF fam <> []) as Hne.
  { intros E. apply Hl0. unfold l. by rewrite E. }
  destruct (install_fold_ok t fam refuse l acc) as (H1 & H2 & H3); try done.
  - unfold refuse. intros Hr. destruct Hup as [Hup|?]; [|done].
    destruct (String.eqb_spec (t_Iface t) ""); [done|]. simpl in Hr. bool_hyps. destruct H6; done.
  - unfold refuse. intros Hr. apply orb_false_elim in Hr as [Hr _]. by apply String.eqb_neq in Hr.
  - cbv zeta. split_and!; [apply H1..| |].
    + intros a. rewrite <- Hcov, covered_in. intros (p & Hp & Hpa). rewrite Forall_forall in Hl. destruct (Hl p Hp) as (Hd & Hf & _).
      apply (install_fold_carries t fam l p a); [done|apply Hd|done|done].
    + intros q Hq Hf. apply H3; [done|]. intros Hql. rewrite Forall_forall in Hl.
      by destruct (Hl q Hql) as (_ & Hf' & _).
Qed.

(** A live tunnel without IPv6 that does not block gathers no v6 destination. *)
Lemma route_one_noV6 t taken v pfx :
  t_Iface t <> "" -> t_V6 t = false -> t_Block t = false ->
  v_parts (route_one inp ts held taken t v pfx FamilyV6) = [].
Proof.
  intros Hi H6 Hb. unfold route_one. cbv zeta. rewrite H6, (proj2 (String.eqb_neq _ _) Hi). simpl negb.
  rewrite String.eqb_refl. simpl andb.
  assert (route_why inp t taken (Masked pfx) true <> "") as Hw.
  { intros (_ & _ & H)%route_why_empty. rewrite H in Hb; done. }
  unfold route_parts. rewrite (proj2 (String.eqb_neq _ _) Hw). simpl andb. cbv iota beta.
  rewrite (proj2 (String.eqb_neq _ _) Hw). simpl andb. cbv iota beta.
  by rewrite (proj2 (String.eqb_neq _ _) Hw).
Qed.

Lemma list_routes_noV6 t taken l : forall acc,
  t_Iface t <> "" -> t_V6 t = false -> t_Block t = false -> at_key (snd acc) FamilyV6 = [] ->
  at_key (snd (fold_left (list_route inp ts t taken held) l acc)) FamilyV6 = [].
Proof.
  induction l as [|v l IH]; intros acc Hi H6 Hb Ha; [done|]. cbn [fold_left]. apply IH; [done..|].
  unfold list_route. destruct (entryToPrefix v) as [[pfx fam]|] eqn:E; [|done]. simpl.
  destruct (decide (fam = FamilyV6)) as [->|Hf].
  - by rewrite route_one_noV6.
  - case_match; [done|]. rewrite at_append_key. by case_decide.
Qed.

Lemma plan_tunnel_ok acc t :
  t ∈ ts -> plan_inv acc -> plan_inv (plan_tunnel inp ts held acc t).
Proof.
  intros Ht Hi. unfold plan_tunnel.
  destruct (list_routes_ok t (snd acc) (t_Routes t) (fst acc, ∅)) as (Hg & Er & En); [done| |].
  { intros fam p Hp. unfold at_key in Hp. simpl in Hp. rewrite lookup_empty in Hp. by apply elem_of_nil in Hp. }
  pose proof (list_routes_noV6 t (snd acc) (t_Routes t) (fst acc, ∅)) as H6.
  destruct (fold_left _ (t_Routes t) _) as [tp byF]. simpl in Hg, Er, En, H6.
  assert (plan_inv (tp, snd acc)) as Hi0.
  { destruct Hi as [I1 I2 I3 I4]. constructor; simpl; rewrite ?Er, ?En; done. }
  destruct ((t_Iface t =s? "") && negb (t_Block t)) eqn:Eup; [done|].
  assert (t_Iface t <> "" \/ t_Block t = true) as Hup.
  { apply andb_false_iff in Eup as [Hup|Hup]; [left; by apply String.eqb_neq|right; by apply negb_false_iff]. }
  cbn [fold_left].
  destruct (install_family_ok t byF FamilyV4 (tp, snd acc)) as (H1 & _ & H3); [done..|].
  apply install_family_ok; [done|done| | |done].
  - intros _ Hif HV. destruct (t_Block t) eqn:Eb; [by right|left]. apply H6; [done..|].
    unfold at_key. by rewrite lookup_empty.
  - intros p Hp. destruct (Hg FamilyV6 p Hp) as (Hf & Hc & Hu & Hr).
    refine (conj Hf (conj Hc (conj _ Hr))). apply H3; [done|by rewrite Hf|done].
Qed.
End tunnels.

(** ** Server pins *)

#[local] Arguments String.append : simpl never.

Section pins.
Context (inp : DesiredInput) (ts : list TunnelInput).

(** After pinning: one route per destination, all pins; a server held off the
    tunnels has someone else's host route or a pin. *)
Record pin_inv (st : plan_state) : Prop := mkPinInv {
  pn_nodup : NoDup (dsts (tp_Routes (ps_tp st)));
  pn_taken : forall x, has (ps_taken st) x = true <-> x ∈ dsts (tp_Routes (ps_tp st));
  pn_kind : Forall (pin_route inp ts) (tp_Routes (ps_tp st));
  pn_nets : tp_nets (ps_tp st) = [];
  pn_held : forall a, a ∈ ps_held st ->
    is_Some (Occupied inp (prefix_String (host_prefix a))) \/
    prefixKey (host_prefix a) ∈ dsts (tp_Routes (ps_tp st));
}.

Definition pinned (st : plan_state) (a : addr) : Prop :=
  forall gw iface, resolveGateway "auto" (famOf a) inp = inr (gw, iface) ->
    Occupied inp (prefix_String (host_prefix a)) = None ->
    a ∈ ps_held st /\ prefixKey (host_prefix a) ∈ dsts (tp_Routes (ps_tp st)).

Lemma pin_one_ok t st a :
  t ∈ ts -> a ∈ t_Bypass t -> server_ok a -> pin_inv st ->
  let st' := pin_one inp t st a in
  pin_inv st' /\ pinned st' a /\ forall b, pinned st b -> pinned st' b.
Proof.
  intros Ht Ha [Hok Hv] Hi. pose proof Hi as [I1 I2 I3 I4 I5]. unfold pin_one.
  destruct (resolveGateway "auto" (famOf a) inp) as [e|[gw iface]] eqn:Eg.
  { split_and!; [done| |done]. intros ?? E. by rewrite Eg in E. }
  destruct (Occupied inp (prefix_String (host_prefix a))) eqn:Eo.
  { split_and!; [done| |done]. intros ?? _ E. by rewrite Eo in E. }
  destruct (has (ps_taken st) (prefixKey (host_prefix a))) eqn:Et.
  { apply I2 in Et. split_and!.
    - constructor; simpl; [done..|]. intros b [->%elem_of_singleton|Hb]%elem_of_union; [by right|by apply I5].
    - intros ?? _ _. simpl. split; [set_solver|done].
    - intros b Hb g i Hg Hoc. destruct (Hb g i Hg Hoc). simpl. split; [set_solver|done]. }
  assert (dstKey (mkRoute (prefix_String (host_prefix a)) (addr_String gw) iface 0 (famOf a) OwnerRiftRoute
            (protoFor (in_Platform inp)) "" (TunnelProfilePrefix +:+ t_Name t) false false false)
          = prefixKey (host_prefix a)) as Ek.
  { apply (dstKey_plain (host_prefix a) "" "" (famOf a) false); [by apply host_prefix_canon|].
    by rewrite host_prefix_addr, famOf_withoutZone. }
  assert (prefixKey (host_prefix a) ∉ dsts (tp_Routes (ps_tp st))) as Hnot by (rewrite <- I2, Et; done).
  split_and!.
  - constructor; simpl; unfold dsts; rewrite ?map_app; simpl; rewrite ?Ek; fold (dsts (tp_Routes (ps_tp st))).
    + apply NoDup_app. split_and!; [done| |apply NoDup_singleton]. intros x Hx ->%list_elem_of_singleton. exact (Hnot Hx).
    + intros x. rewrite has_insert, orb_true_iff, bool_decide_eq_true, I2, elem_of_app, list_elem_of_singleton. tauto.
    + apply Forall_app. split; [done|]. constructor; [|constructor]. exists t, a, gw, iface. done.
    + done.
    + intros b. rewrite elem_of_app, list_elem_of_singleton.
      intros [->%elem_of_singleton|Hb]%elem_of_union; [by right; right|].
      destruct (I5 b Hb); [by left|by right; left].
  - intros ?? _ _. simpl. unfold dsts. rewrite map_app, elem_of_app. simpl. rewrite Ek.
    split; [set_solver|]. right. by apply list_elem_of_singleton.
  - intros b Hb g i Hg Hoc. destruct (Hb g i Hg Hoc). simpl. unfold dsts. rewrite map_app, elem_of_app.
    split; [set_solver|by left].
Qed.

Lemma hold_one_ok st a :
  pin_inv st -> let st' := hold_one inp st a in pin_inv st' /\ forall b, pinned st b -> pinned st' b.
Proof.
  intros [I1 I2 I3 I4 I5]. unfold hold_one. destruct (Occupied _ _) eqn:Eo; [|done]. split.
  - constructor; simpl; [done..|]. intros b [->%elem_of_singleton|Hb]%elem_of_union; [left; by rewrite Eo|by apply I5].
  - intros b Hb g i Hg Hoc. destruct (Hb g i Hg Hoc). simpl. split; [set_solver|done].
Qed.

Lemma pin_tunnel_ok t st :
  t ∈ ts -> Forall server_ok (servers t) -> pin_inv st ->
  let st' := pin_tunnel inp st t in
  pin_inv st' /\ (forall a, a ∈ t_Bypass t -> pinned st' a) /\ forall b, pinned st b -> pinned st' b.
Proof.
  intros Ht Hs Hi. unfold pin_tunnel.
  assert (forall l st, pin_inv st ->
    let st' := fold_left (hold_one inp) l st in pin_inv st' /\ forall b, pinned st b -> pinned st' b) as Hh.
  { induction l as [|a l IH]; intros s0 H0; [done|]. cbn [fold_left].
    destruct (hold_one_ok s0 a H0) as [H1 H2]. destruct (IH _ H1) as [H3 H4]. split; [done|]. auto. }
  assert (forall l st, l ⊆ t_Bypass t -> pin_inv st ->
    let st' := fold_left (pin_one inp t) l st in
    pin_inv st' /\ (forall a, a ∈ l -> pinned st' a) /\ forall b, pinned st b -> pinned st' b) as Hp.
  { induction l as [|a l IH]; intros s0 Hl H0; [split_and!; [done| |done]; intros a Ha; by apply elem_of_nil in Ha|].
    cbn [fold_left]. destruct (pin_one_ok t s0 a) as (H1 & H2 & H3); [done|apply Hl; by left| |done|].
    - rewrite Forall_forall in Hs. apply Hs. unfold servers. apply elem_of_app. left. apply Hl. by left.
    - destruct (IH _ ltac:(set_solver) H1) as (H4 & H5 & H6). split_and!; [done| |auto].
      intros b [->|Hb]%elem_of_cons; auto. }
  destruct (Hp (t_Bypass t) st ltac:(done) Hi) as (H1 & H2 & H3).
  destruct (Hh (servers t) _ H1) as (H4 & H5). split_and!; [done|auto|auto].
Qed.

Lemma pin_phase_ok :
  Forall (fun t => Forall server_ok (servers t)) ts ->
  pin_inv (pin_phase inp ts) /\ forall t a, t ∈ ts -> a ∈ t_Bypass t -> pinned (pin_phase inp ts) a.
Proof.
  intros Hts. unfold pin_phase.
  assert (forall l st, l ⊆ ts -> pin_inv st ->
    let st' := fold_left (pin_tunnel inp) l st in
    pin_inv st' /\ (forall t a, t ∈ l -> a ∈ t_Bypass t -> pinned st' a) /\ forall b, pinned st b -> pinned st' b) as Hp.
  { induction l as [|t l IH]; intros s0 Hl H0; [split_and!; [done| |done]; intros t a Ht; by apply elem_of_nil in Ht|].
    cbn [fold_left]. assert (t ∈ ts) as Ht by (apply Hl; by left). rewrite Forall_forall in Hts.
    destruct (pin_tunnel_ok t s0 Ht (Hts t Ht) H0) as (H1 & H2 & H3).
    destruct (IH _ ltac:(set_solver) H1) as (H4 & H5 & H6). split_and!; [done| |auto].
    intros t' a [->|Ht']%elem_of_cons Ha; eauto. }
  destruct (Hp ts (mkPlanState no_plan ∅ ∅)) as (H1 & H2 & _); [done| |done].
  constructor; simpl; [constructor| |constructor|done|set_solver].
  intros x. rewrite has_spec, lookup_empty. split; [by intros []|]. intros H. by apply elem_of_nil in H.
Qed.
End pins.

(** ** The whole plan *)

Definition sorted_tunnels (inp : DesiredInput) : list TunnelInput := slice_stable tunnel_less (in_Tunnels inp).
Definition held_servers (inp : DesiredInput) : gset addr := ps_held (pin_phase inp (sorted_tunnels inp)).

Lemma elem_of_sorted_tunnels inp t : t ∈ sorted_tunnels inp <-> t ∈ in_Tunnels inp.
Proof. apply elem_of_slice_stable. Qed.

Lemma install_family_grows inp t byF acc fam : grows (fst acc) (fst (install_family inp t byF acc fam)).
Proof. unfold install_family. apply fold_grows. intros. apply install_one_grows. Qed.

Lemma plan_tunnel_grows inp ts held acc t : grows (fst acc) (fst (plan_tunnel inp ts held acc t)).
Proof.
  unfold plan_tunnel.
  pose proof (fold_grows fst (list_route inp ts t (snd acc) held) (t_Routes t)
    (fun x y => list_route_grows inp ts t (snd acc) held x y) (fst acc, ∅)) as Hg.
  destruct (fold_left _ (t_Routes t) _) as [tp byF]. simpl in Hg. case_if; [done|].
  etrans; [exact Hg|]. apply (fold_grows fst (install_family inp t byF) _
    (fun x y => install_family_grows inp t byF x y) (tp, snd acc)).
Qed.

Section whole.
Context (inp : DesiredInput) (Hin : input_ok inp).
Abbreviation ts := (sorted_tunnels inp).
Abbreviation held := (held_servers inp).
Abbreviation st0 := (pin_phase inp ts).

Lemma sorted_servers_ok : Forall (fun t => Forall server_ok (servers t)) ts.
Proof.
  destruct Hin. apply Forall_forall. intros t Ht%elem_of_sorted_tunnels.
  rewrite Forall_forall in io_servers0. by apply io_servers0.
Qed.

Lemma plan_fold_ok l : forall acc,
  l ⊆ ts -> plan_inv inp ts held acc -> plan_inv inp ts held (fold_left (plan_tunnel inp ts held) l acc).
Proof.
  induction l as [|t l IH]; intros acc Hl Hi; [done|]. cbn [fold_left]. apply IH; [set_solver|].
  apply plan_tunnel_ok; [done|apply sorted_servers_ok|apply Hl; by left|done].
Qed.

Lemma PlanTunnels_inv :
  exists taken, plan_inv inp ts held (PlanTunnels inp, taken) /\ grows (ps_tp st0) (PlanTunnels inp).
Proof.
  destruct (pin_phase_ok inp ts sorted_servers_ok) as [[I1 I2 I3 I4 I5] _].
  exists (snd (fold_left (plan_tunnel inp ts held) ts (ps_tp st0, ps_taken st0))). split.
  - replace (PlanTunnels inp, _) with (fold_left (plan_tunnel inp ts held) ts (ps_tp st0, ps_taken st0))
      by (rewrite (surjective_pairing (fold_left _ _ _)); done).
    apply plan_fold_ok; [done|]. constructor; simpl; [done|by intros x; rewrite I2| |by rewrite I4].
    eapply Forall_impl; [exact I3|]. intros r Hr. by left.
  - apply (fold_grows fst (plan_tunnel inp ts held) ts (fun x y => plan_tunnel_grows inp ts held x y)
      (ps_tp st0, ps_taken st0)).
Qed.

Lemma PlanTunnels_nets : Forall prefix_ok (tp_nets (PlanTunnels inp)).
Proof. destruct PlanTunnels_inv as (taken & [_ _ _ Hn] & _). eapply Forall_impl; [exact Hn|]. by intros ? (? & _). Qed.

(** ** Nothing listed is lost *)

Lemma route_one_clear taken t v pfx fam :
  keepOut (Masked pfx) t ts held inp false = [] ->
  v_blocked (route_one inp ts held taken t v pfx fam) = [] ->
  v_parts (route_one inp ts held taken t v pfx fam) = [Masked pfx].
Proof.
  intros Hk. unfold route_one. cbv zeta. set (noV6 := negb _ && _ && _).
  assert (forall why, route_parts inp ts held taken t v (Masked pfx) why = ([Masked pfx], why, [])) as Hp.
  { intros why. unfold route_parts. rewrite Hk. simpl length. by rewrite andb_false_r. }
  rewrite Hp. set (why := route_why _ _ _ _ _). destruct ((why =s? "") && noV6); [done|].
  destruct (why =s? ""); done.
Qed.

Lemma list_fold_keeps t taken l : forall acc fam p,
  p ∈ at_key (snd acc) fam -> p ∈ at_key (snd (fold_left (list_route inp ts t taken held) l acc)) fam.
Proof.
  induction l as [|v l IH]; intros acc fam p Hp; [done|]. cbn [fold_left]. apply IH.
  unfold list_route. destruct (entryToPrefix v) as [[pfx f]|]; [|done]. simpl. case_match; [done|].
  by apply at_key_grows.
Qed.

Lemma list_fold_has t taken l v pfx fam : forall acc,
  v ∈ l -> entryToPrefix v = Some (pfx, fam) -> keepOut (Masked pfx) t ts held inp false = [] ->
  let r := fold_left (list_route inp ts t taken held) l acc in
  Masked pfx ∈ at_key (snd r) fam \/ exists why, mkTunnelBlocked v why ∈ at_key (tp_Blocked (fst r)) (t_Name t).
Proof.
  induction l as [|w l IH]; intros acc Hv E Hk; [by apply elem_of_nil in Hv|]. cbn [fold_left]. cbv zeta.
  apply elem_of_cons in Hv as [<-|Hv]; [|by apply IH].
  destruct (v_blocked (route_one inp ts held taken t v pfx fam)) as [|b bl] eqn:Eb.
  - left. apply list_fold_keeps. unfold list_route. rewrite E. simpl. rewrite route_one_clear by done.
    rewrite at_append_key, decide_True by done. rewrite elem_of_app. right. by apply list_elem_of_singleton.
  - right. assert (exists why bl', b :: bl = mkTunnelBlocked v why :: bl') as (why & bl' & Ebl).
    { rewrite <- Eb. unfold route_one. cbv zeta. unfold route_one in Eb. cbv zeta in Eb.
      destruct (route_parts _ _ _ _ _ _ _ _) as [[parts w0] nar]. destruct (_ && _); simpl in *; [eauto|].
      destruct (negb _); simpl in *; [eauto|done]. }
    exists why. pose proof (fold_grows fst (list_route inp ts t taken held) l
      (fun x y => list_route_grows inp ts t taken held x y) (list_route inp ts t taken held acc v)) as [_ G _].
    apply G. unfold list_route. rewrite E. simpl. rewrite Eb, Ebl, at_append_key, decide_True by done.
    rewrite elem_of_app. right. by left.
Qed.

Lemma plan_tunnel_delivers acc t v pfx fam :
  t ∈ ts -> plan_inv inp ts held acc -> (t_Iface t <> "" \/ t_Block t = true) ->
  v ∈ t_Routes t -> entryToPrefix v = Some (pfx, fam) -> keepOut (Masked pfx) t ts held inp false = [] ->
  let r := plan_tunnel inp ts held acc t in
  (forall a, Contains pfx a = true -> exists x, x ∈ tp_Routes (fst r) /\ carries t x a) \/
  exists why, mkTunnelBlocked v why ∈ at_key (tp_Blocked (fst r)) (t_Name t).
Proof.
  intros Ht Hi Hup Hv E Hk. cbv zeta. unfold plan_tunnel.
  destruct (list_routes_ok inp Hin ts sorted_servers_ok held t (snd acc) (t_Routes t) (fst acc, ∅)) as (Hg & Er & En); [done| |].
  { intros f p Hp. unfold at_key in Hp. simpl in Hp. rewrite lookup_empty in Hp. by apply elem_of_nil in Hp. }
  pose proof (list_routes_noV6 inp ts held t (snd acc) (t_Routes t) (fst acc, ∅)) as H6.
  pose proof (list_fold_has t (snd acc) (t_Routes t) v pfx fam (fst acc, ∅) Hv E Hk) as Hd.
  destruct (fold_left _ (t_Routes t) _) as [tp byF]. simpl in Hg, Er, En, H6, Hd.
  assert (plan_inv inp ts held (tp, snd acc)) as Hi0.
  { destruct Hi as [I1 I2 I3 I4]. constructor; simpl; rewrite ?Er, ?En; done. }
  assert ((t_Iface t =s? "") && negb (t_Block t) = false) as ->.
  { apply andb_false_iff. destruct Hup as [?%String.eqb_neq|Hb]; [by left|right; by rewrite Hb]. }
  cbn [fold_left]. destruct Hd as [Hp|(why & Hb)]; [left|right].
  - destruct (install_family_ok inp Hin ts sorted_servers_ok held t byF FamilyV4 (tp, snd acc)) as (H1 & H2 & H3); [done..|].
    destruct (install_family_ok inp Hin ts sorted_servers_ok held t byF FamilyV6 (install_family inp t byF (tp, snd acc) FamilyV4))
      as (_ & H5 & _); [done|done| | |done|].
    + intros _ Hif HV. destruct (t_Block t) eqn:Eb; [by right|left]. apply H6; [done..|].
      unfold at_key. by rewrite lookup_empty.
    + intros p' Hp'. destruct (Hg FamilyV6 p' Hp') as (Hf & Hc & Hu & Hr).
      refine (conj Hf (conj Hc (conj _ Hr))). apply H3; [done|by rewrite Hf|done].
    + intros a Ha. cbv zeta in *. apply entryToPrefix_ok in E as [[Hok Hvp] Hf].
      assert (covered (at_key byF fam) a = true) as Hca.
      { apply covered_in. exists (Masked pfx). by rewrite Contains_Masked. }
      destruct (famOf_v4 (p_addr pfx)) as [E4|E4]; rewrite <- Hf in E4; rewrite E4 in Hca; [|by apply H5].
      destruct (H2 a Hca) as (x & Hx & Hxa). exists x. split; [by apply install_family_grows|done].
  - exists why.
    pose proof (fold_grows fst (install_family inp t byF) [FamilyV4; FamilyV6]
      (fun x y => install_family_grows inp t byF x y) (tp, snd acc)) as [_ G _]. by apply G.
Qed.

Lemma plan_fold_delivers t v pfx fam l : forall acc,
  t ∈ l -> l ⊆ ts -> plan_inv inp ts held acc -> (t_Iface t <> "" \/ t_Block t = true) ->
  v ∈ t_Routes t -> entryToPrefix v = Some (pfx, fam) -> keepOut (Masked pfx) t ts held inp false = [] ->
  let r := fold_left (plan_tunnel inp ts held) l acc in
  (forall a, Contains pfx a = true -> exists x, x ∈ tp_Routes (fst r) /\ carries t x a) \/
  exists why, mkTunnelBlocked v why ∈ at_key (tp_Blocked (fst r)) (t_Name t).
Proof.
  induction l as [|t0 l IH]; intros acc Ht Hl Hi Hup Hv E Hk; [by apply elem_of_nil in Ht|].
  cbn [fold_left]. cbv zeta. apply elem_of_cons in Ht as [<-|Ht].
  - destruct (fold_grows fst (plan_tunnel inp ts held) l (fun x y => plan_tunnel_grows inp ts held x y)
      (plan_tunnel inp ts held acc t)) as [G0 G1 _].
    destruct (plan_tunnel_delivers acc t v pfx fam) as [H|(why & H)]; try done; [apply Hl; by left| |].
    + left. intros a Ha. destruct (H a Ha) as (x & Hx & Hxa). eauto.
    + right. exists why. by apply G1.
  - apply IH; try done; [set_solver|]. apply plan_tunnel_ok; [done|apply sorted_servers_ok|apply Hl; by left|done].
Qed.
End whole.

Lemma plan_delivers inp t v pfx fam :
  input_ok inp -> t ∈ in_Tunnels inp -> (t_Iface t <> "" \/ t_Block t = true) ->
  v ∈ t_Routes t -> entryToPrefix v = Some (pfx, fam) ->
  keepOut (Masked pfx) t (sorted_tunnels inp) (held_servers inp) inp false = [] ->
  (forall a, Contains pfx a = true -> exists r, r ∈ tp_Routes (PlanTunnels inp) /\ carries t r a) \/
  exists why, mkTunnelBlocked v why ∈ at_key (tp_Blocked (PlanTunnels inp)) (t_Name t).
Proof.
  intros Hin Ht Hup Hv E Hk.
  destruct (pin_phase_ok inp (sorted_tunnels inp) (sorted_servers_ok inp Hin)) as [[I1 I2 I3 I4 _] _].
  apply (plan_fold_delivers inp Hin t v pfx fam (sorted_tunnels inp)); try done.
  - by apply elem_of_sorted_tunnels.
  - constructor; simpl; [done|by intros x; rewrite I2| |].
    eapply Forall_impl; [exact I3|]. intros r Hr. by left.
    by setoid_rewrite I4.
Qed.

(** ** Theorems *)

(** No two routes of a tunnel plan share a destination: the kernel keeps
    one route per destination, and the guardrails refuse a whole apply over a
    destination with two next hops. *)
Theorem PlanTunnels_one_per_destination inp :
  input_ok inp -> NoDup (dsts (tp_Routes (PlanTunnels inp))).
Proof. intros Hin. by destruct (PlanTunnels_inv inp Hin) as (taken & [Hn _ _ _] & _). Qed.

(** C14: No tunnel plan can cut the connection. Every route of the plan is
    either a server pin via the physical gateway, or a destination of a tunnel
    that is up or set to block, made of addresses that tunnel lists, which
    holds neither the router nor a server of any tunnel that no host route (a
    pin of the plan, or someone else's) holds off the tunnels, and, unless the
    tunnel blocks, none of the kept resolvers and no address RiftRoute probes.
    It goes into that tunnel's own interface, or is refused, which only a
    blocking tunnel's is. *)
Theorem PlanTunnels_safe inp r :
  input_ok inp -> r ∈ tp_Routes (PlanTunnels inp) ->
  pin_route inp (in_Tunnels inp) r \/
  exists t p, t ∈ in_Tunnels inp /\ (t_Iface t <> "" \/ t_Block t = true) /\
    rt_DstCIDR (mr_Route r) = prefix_String p /\ rt_Gateway (mr_Route r) = "" /\
    mr_ProfileID r = TunnelProfilePrefix +:+ t_Name t /\
    (if rt_Reject (mr_Route r) then t_Block t = true else rt_Iface (mr_Route r) = t_Iface t) /\
    (forall a, Contains p a = true -> listed t a) /\
    Contains p (router_of inp p) = false /\
    (forall o a, o ∈ in_Tunnels inp -> a ∈ servers o -> Contains p a = true ->
       is_Some (Occupied inp (prefix_String (host_prefix a))) \/
       prefixKey (host_prefix a) ∈ dsts (tp_Routes (PlanTunnels inp))) /\
    (t_Block t = false -> forall a, kept_resolver inp a \/ a ∈ in_Anchors inp -> Contains p a = false).
Proof.
  intros Hin Hr. destruct (PlanTunnels_inv inp Hin) as (taken & [_ _ Hk _] & [Hg _ _]).
  destruct (pin_phase_ok inp (sorted_tunnels inp) (sorted_servers_ok inp Hin)) as [[_ _ _ _ Hheld] _].
  rewrite Forall_forall in Hk. destruct (Hk r Hr) as [(t & a & gw & iface & Ht & H)|Hd].
  { left. exists t, a, gw, iface. split; [by apply elem_of_sorted_tunnels|done]. }
  right. destruct Hd as (t & p & Ht & (Hc & [A1 A2 A3 A4] & Hl) & Hup & Hid & Hdst & Hfam & Hgw & Htab & Hrej).
  exists t, p. split_and!; try done.
  - by apply elem_of_sorted_tunnels.
  - by destruct (rt_Reject (mr_Route r)), Hrej.
  - intros o a Ho Ha Hpa. destruct (decide (a ∈ held_servers inp)) as [Hh|Hh].
    + destruct (Hheld a Hh) as [?|(r' & Hr' & E)%elem_of_dsts]; [by left|right].
      rewrite <- E. apply elem_of_dsts. eauto.
    + by rewrite (A2 o a) in Hpa by (by rewrite ?elem_of_sorted_tunnels).
  - intros Hb a [Ha|Ha]; [by apply A3|by apply A4].
Qed.

(** Every server a tunnel pins is pinned: for each of its bypass
    addresses, when the physical network has a gateway of that family and
    nobody else has a host route for it, the plan routes exactly that host,
    and the route there is a pin via the physical gateway. *)
Theorem PlanTunnels_pins inp t a gw iface :
  input_ok inp -> t ∈ in_Tunnels inp -> a ∈ t_Bypass t ->
  resolveGateway "auto" (famOf a) inp = inr (gw, iface) ->
  Occupied inp (prefix_String (host_prefix a)) = None ->
  exists r, r ∈ tp_Routes (PlanTunnels inp) /\ dstKey (mr_Route r) = prefixKey (host_prefix a) /\
    pin_route inp (in_Tunnels inp) r.
Proof.
  intros Hin Ht Ha Hg Ho. destruct (PlanTunnels_inv inp Hin) as (taken & _ & [Hgr _ _]).
  destruct (pin_phase_ok inp (sorted_tunnels inp) (sorted_servers_ok inp Hin)) as [[_ _ Hk _ _] Hp].
  destruct (Hp t a (proj2 (elem_of_sorted_tunnels inp t) Ht) Ha gw iface Hg Ho) as [_ Hx].
  apply elem_of_dsts in Hx as (r & Hr & E). exists r. split_and!; [by apply Hgr|done|].
  rewrite Forall_forall in Hk. destruct (Hk r Hr) as (t' & a' & gw' & if' & Ht' & H).
  exists t', a', gw', if'. split; [by apply elem_of_sorted_tunnels|done].
Qed.

(** C31: Nothing listed is lost silently: a destination listed by a tunnel that
    is up or blocking, holding no address that must be kept out of it, is
    reported blocked with its reason, or every address of it has a route of the
    plan, the tunnel's own: into its interface, or refused while the tunnel is
    down, and for IPv6 while it has no IPv6 address. *)
Theorem PlanTunnels_delivers inp t v pfx fam :
  input_ok inp -> t ∈ in_Tunnels inp -> (t_Iface t <> "" \/ t_Block t = true) ->
  v ∈ t_Routes t -> entryToPrefix v = Some (pfx, fam) ->
  keepOut (Masked pfx) t (sorted_tunnels inp) (held_servers inp) inp false = [] ->
  (forall a, Contains pfx a = true -> exists r, r ∈ tp_Routes (PlanTunnels inp) /\ carries t r a) \/
  exists why, mkTunnelBlocked v why ∈ at_key (tp_Blocked (PlanTunnels inp)) (t_Name t).
Proof. apply plan_delivers. Qed.

(** ** Witnesses *)

(** A live tunnel whose 10.0.0.0/8 holds the router, and one that is down and
    blocks. *)
Definition ex_office := mkTunnelInput "office" "utun5" false false ["10.0.0.0/8"; "192.168.70.0/24"]
                          [Addr4 3405803781] [].
Definition ex_home := mkTunnelInput "home" "" false true ["172.16.0.0/12"] [] [].
Definition ex_in := mkDesiredInput [] (Addr4 167837953) AddrZero "en0" "" (mkPrefix (Addr4 167837952) 24) PrefixZero
  AddrZero AddrZero "" "" ∅ ∅ [ex_home; ex_office] [("192.168.1.0/24", "en1")] [Addr4 134744072] [Addr4 16843009] [] "" false
  "linux" true 0.

Lemma ex_in_ok : input_ok ex_in.
Proof. apply (bool_decide_unpack (input_ok ex_in)). vm_compute. exact I. Defined.

Lemma PlanTunnels_one_per_destination_witness :
  length (tp_Routes (PlanTunnels ex_in)) = 19%nat /\ NoDup (dsts (tp_Routes (PlanTunnels ex_in))).
Proof.
  split; [vm_compute; reflexivity|]. apply (PlanTunnels_one_per_destination ex_in). exact ex_in_ok.
Defined.

Lemma PlanTunnels_safe_witness :
  Forall (fun r => rt_Reject (mr_Route r) = true -> exists t, t ∈ in_Tunnels ex_in /\ t_Block t = true)
    (tp_Routes (PlanTunnels ex_in)).
Proof.
  apply Forall_forall. intros r Hr Hrej. destruct (PlanTunnels_safe ex_in r ex_in_ok Hr) as [H|H].
  - destruct H as (t & a & gw & iface & _ & _ & _ & _ & E). rewrite E in Hrej. discriminate Hrej.
  - destruct H as (t & p & Ht & _ & _ & _ & _ & Hb & _). rewrite Hrej in Hb. exists t. split; [exact Ht|exact Hb].
Defined.

Lemma PlanTunnels_pins_witness :
  exists r, r ∈ tp_Routes (PlanTunnels ex_in) /\ dstKey (mr_Route r) = "v4||203.0.113.5/32" /\
    pin_route ex_in (in_Tunnels ex_in) r.
Proof.
  apply (PlanTunnels_pins ex_in ex_office (Addr4 3405803781) (Addr4 167837953) "en0").
  - exact ex_in_ok.
  - right. left.
  - left.
  - vm_compute. reflexivity.
  - vm_compute. reflexivity.
Defined.

Lemma PlanTunnels_delivers_witness :
  (forall a, Contains (mkPrefix (Addr4 3232253440) 24) a = true -> exists r, r ∈ tp_Routes (PlanTunnels ex_in) /\ carries ex_office r a) \/
  exists why, mkTunnelBlocked "192.168.70.0/24" why ∈ at_key (tp_Blocked (PlanTunnels ex_in)) "office".
Proof.
  apply (PlanTunnels_delivers ex_in ex_office "192.168.70.0/24" (mkPrefix (Addr4 3232253440) 24) FamilyV4).
  - exact ex_in_ok.
  - right. left.
  - left. discriminate.
  - right. left.
  - vm_compute. reflexivity.
  - vm_compute. reflexivity.
Defined.
