(* ===== verification/Installed.v ===== *)
(** * Owned routes against the kernel's table (internal/routing/tunnels.go, second half)

    [IndexInstalled] indexes a table read; [VerifyRoutes] splits the owned
    routes into what is really there, what is missing and what another
    program's route displaced. The kernel read is an argument, one answer per
    family; the families it was asked for are recorded. *)

From Stdlib Require Import Ascii.
From S2P Require Import Prelude.
From S2P Require Import Netip NetipText Aggregate Domain Reconcile Nets Input Tunnels.

(** ** Keys as a table read lists them *)

Definition set_dst (r : Route) (dst : string) : Route :=
  mkRoute dst (rt_Gateway r) (rt_Iface r) (rt_Metric r) (rt_Family r) (rt_Owner r) (rt_Proto r)
    (rt_Table r) (rt_Profile r) (rt_Cloned r) (rt_Scoped r) (rt_Reject r).

Definition maskedDstKey (r : Route) : string :=
  dstKey (match ParsePrefix (rt_DstCIDR r) with
          | Some pfx => set_dst r (prefix_String (Masked pfx))
          | None => r
          end).

(** Bytes 2 and 3 of a 16-byte address: bits 96 to 111. *)
Definition clear_scope (n : Z) : Z := Z.ldiff n (Z.shiftl 65535 96).

Definition gatewayKey (s : string) : string :=
  match ParseAddr s with
  | None => s
  | Some a =>
      let a := WithZone (Unmap a) "" in
      let a := if Is6 a && IsLinkLocalUnicast a then Addr6 (clear_scope (addr_val a)) "" else a in
      addr_String a
  end.

Definition SameGateway (a b : string) : bool := gatewayKey a =s? gatewayKey b.

Definition KernelKey (r : Route) : string :=
  let k := maskedDstKey r +:+ "|" +:+ gatewayKey (rt_Gateway r) +:+ "|" +:+ rt_Iface r in
  if rt_Reject r then k +:+ "|reject" else k.

Definition effectiveMetric (r : Route) : Z :=
  if 0 <? rt_Metric r then rt_Metric r
  else if rt_Family r =s? FamilyV6 then 1024 else 0.

(** ** The index *)

Record Installed : Type := mkInstalled { is_routes : gset string; is_lowest : gmap string Z }.

Definition index_one (inst : Installed) (k : Route) : Installed :=
  if rt_Cloned k then inst
  else
    let dst := maskedDstKey k in
    let lowest :=
      if rt_Scoped k then is_lowest inst
      else match is_lowest inst !! dst with
           | Some m => if rt_Metric k <? m then <[dst := rt_Metric k]> (is_lowest inst) else is_lowest inst
           | None => <[dst := rt_Metric k]> (is_lowest inst)
           end in
    if rt_Reject k then mkInstalled ({[dst +:+ "|reject"]} ∪ is_routes inst) lowest
    else
      let routes := {[dst +:+ "|dev " +:+ rt_Iface k]} ∪ is_routes inst in
      let routes := if negb (rt_Gateway k =s? "")
                    then {[dst +:+ "|via " +:+ gatewayKey (rt_Gateway k)]} ∪ routes else routes in
      mkInstalled routes lowest.

Definition IndexInstalled (kernel : list Route) : Installed := fold_left index_one kernel (mkInstalled ∅ ∅).

Definition Has (inst : Installed) (r : Route) : bool :=
  if rt_Reject r then bool_decide (maskedDstKey r +:+ "|reject" ∈ is_routes inst)
  else if negb (rt_Gateway r =s? "") then
    bool_decide (maskedDstKey r +:+ "|via " +:+ gatewayKey (rt_Gateway r) ∈ is_routes inst)
  else bool_decide (maskedDstKey r +:+ "|dev " +:+ rt_Iface r ∈ is_routes inst).

Definition Outranked (inst : Installed) (r : Route) : bool :=
  match is_lowest inst !! maskedDstKey r with
  | Some lowest => lowest <=? effectiveMetric r
  | None => false
  end.

Definition IsTunnelRoute (o : ManagedRoute) : bool := HasPrefix (mr_ProfileID o) TunnelProfilePrefix.

(** ** Verifying *)

Record Verified : Type := mkVerified {
  vf_Kept : list ManagedRoute;
  vf_Missing : list ManagedRoute;
  vf_Taken : list ManagedRoute;
}.

Record verify_state : Type := mkVerifyState {
  vs_kernel : gmap string (option Installed);   (* per family, [None] after a failed read *)
  vs_reads : list Family;                        (* the families [read] was called for *)
  vs_v : Verified;
}.

Section verify.
Context (wanted : gmap string ManagedRoute) (read : Family -> option (list Route)) (held : gset string)
        (only : option (ManagedRoute -> bool)).

Definition accepted (o : ManagedRoute) : bool := match only with None => true | Some f => f o end.

Definition verify_one (st : verify_state) (o : ManagedRoute) : verify_state :=
  let fam := rt_Family (mr_Route o) in
  let '(inst, kernel, reads) :=
    if has wanted (RouteKey (mr_Route o)) && accepted o then
      match vs_kernel st !! fam with
      | Some inst => (inst, vs_kernel st, vs_reads st)
      | None => let inst := IndexInstalled <$> read fam in
                (inst, <[fam := inst]> (vs_kernel st), vs_reads st ++ [fam])
      end
    else (None, vs_kernel st, vs_reads st) in
  let v := vs_v st in
  let keep (v : Verified) := mkVerified (vf_Kept v ++ [o]) (vf_Missing v) (vf_Taken v) in
  let v' :=
    match inst with
    | None => keep v
    | Some inst =>
        if Has inst (mr_Route o) then keep v
        else if Outranked inst (mr_Route o) then
          keep (mkVerified (vf_Kept v) (vf_Missing v) (vf_Taken v ++ [o]))
        else if bool_decide (RouteKey (mr_Route o) ∈ held) && negb (IsTunnelRoute o) then keep v
        else mkVerified (vf_Kept v) (vf_Missing v ++ [o]) (vf_Taken v)
    end in
  mkVerifyState kernel reads v'.

Definition verify_loop (owned : list ManagedRoute) : verify_state :=
  fold_left verify_one owned (mkVerifyState ∅ [] (mkVerified [] [] [])).
End verify.

Definition VerifyRoutes (owned desired : list ManagedRoute) (read : Family -> option (list Route))
    (held : gset string) (only : option (ManagedRoute -> bool)) : Verified :=
  vs_v (verify_loop (indexRoutes desired) read held only owned).

(** ** What a table read says of a route *)

(** The destination part of a key, split in its fields. *)
Lemma maskedDstKey_fields r :
  route_wf r = true ->
  exists dst, no_bar dst = true /\ maskedDstKey r = rt_Family r +:+ "|" +:+ rt_Table r +:+ "|" +:+ dst.
Proof.
  intros (_ & _ & Hd & _)%route_wf_fields. unfold maskedDstKey.
  destruct (ParsePrefix (rt_DstCIDR r)) as [p|] eqn:E.
  - exists (prefix_String (Masked p)). split; [|done]. apply prefix_String_no_bar, Masked_ok.
    by apply ParsePrefix_ok in E as [? _].
  - by exists (rt_DstCIDR r).
Qed.

Lemma masked_key_inj r1 r2 s1 s2 :
  route_wf r1 = true -> route_wf r2 = true ->
  maskedDstKey r1 +:+ "|" +:+ s1 = maskedDstKey r2 +:+ "|" +:+ s2 -> maskedDstKey r1 = maskedDstKey r2 /\ s1 = s2.
Proof.
  intros H1 H2. destruct (maskedDstKey_fields r1 H1) as (d1 & Hd1 & ->).
  destruct (maskedDstKey_fields r2 H2) as (d2 & Hd2 & ->).
  apply route_wf_fields in H1 as (F1 & T1 & _), H2 as (F2 & T2 & _).
  rewrite !append_assoc. intros E.
  apply bar_split in E as [-> E]; [|done..]. apply bar_split in E as [-> E]; [|done..].
  apply bar_split in E as [-> ->]; done.
Qed.

(** The kernel entry [k] is the route [r] RiftRoute installed. *)
Definition same_route (k r : Route) : bool :=
  (maskedDstKey k =s? maskedDstKey r) &&
  (if rt_Reject r then rt_Reject k
   else negb (rt_Reject k) &&
        if negb (rt_Gateway r =s? "") then negb (rt_Gateway k =s? "") && SameGateway (rt_Gateway k) (rt_Gateway r)
        else rt_Iface k =s? rt_Iface r).

Definition entry_keys (k : Route) : gset string :=
  if rt_Cloned k then ∅
  else if rt_Reject k then {[maskedDstKey k +:+ "|reject"]}
  else {[maskedDstKey k +:+ "|dev " +:+ rt_Iface k]} ∪
       (if negb (rt_Gateway k =s? "") then {[maskedDstKey k +:+ "|via " +:+ gatewayKey (rt_Gateway k)]} else ∅).

Lemma index_one_routes inst k : is_routes (index_one inst k) = entry_keys k ∪ is_routes inst.
Proof.
  unfold index_one, entry_keys. destruct (rt_Cloned k); [set_solver|]. destruct (rt_Reject k); [done|].
  simpl. destruct (negb _); set_solver.
Qed.

Lemma elem_of_index_routes ks : forall inst x,
  x ∈ is_routes (fold_left index_one ks inst) <-> x ∈ is_routes inst \/ exists k, k ∈ ks /\ x ∈ entry_keys k.
Proof.
  induction ks as [|k ks IH]; intros inst x; simpl.
  - split; [by left|]. intros [?|(k & Hk & _)]; [done|by apply elem_of_nil in Hk].
  - rewrite IH, index_one_routes, elem_of_union. setoid_rewrite elem_of_cons. naive_solver.
Qed.

(** The key [Has] looks up. *)
Definition want_key (r : Route) : string :=
  maskedDstKey r +:+ "|" +:+
  (if rt_Reject r then "reject"
   else if negb (rt_Gateway r =s? "") then "via " +:+ gatewayKey (rt_Gateway r) else "dev " +:+ rt_Iface r).

Lemma Has_want inst r : Has inst r = bool_decide (want_key r ∈ is_routes inst).
Proof. unfold Has, want_key. by destruct (rt_Reject r), (rt_Gateway r =s? ""). Qed.

(** An entry is indexed under a route's key exactly when it is that route. *)
Lemma entry_match k r :
  route_wf k = true -> route_wf r = true ->
  want_key r ∈ entry_keys k <-> rt_Cloned k = false /\ same_route k r = true.
Proof.
  intros Hk Hr. unfold want_key, entry_keys, same_route, SameGateway.
  assert (forall s1 s2, maskedDstKey r +:+ "|" +:+ s1 = maskedDstKey k +:+ "|" +:+ s2 <->
    maskedDstKey k = maskedDstKey r /\ s1 = s2) as Hinj.
  { intros s1 s2. split; [|by intros [-> ->]]. intros E. by apply (masked_key_inj r k) in E as [-> ->]. }
  change "|reject" with ("|" +:+ "reject").
  change ("|dev " +:+ ?s) with ("|" +:+ ("dev " +:+ s)). change ("|via " +:+ ?s) with ("|" +:+ ("via " +:+ s)).
  rewrite andb_true_iff, String.eqb_eq.
  destruct (rt_Cloned k); [set_solver|].
  destruct (rt_Reject k), (rt_Reject r), (negb (rt_Gateway k =s? "")), (negb (rt_Gateway r =s? ""));
    rewrite ?elem_of_union, ?elem_of_singleton, ?elem_of_empty, ?Hinj; simpl; rewrite ?String.eqb_eq;
    intuition congruence.
Qed.

(** [Has] finds a route exactly when some entry of the read is that route. *)
Lemma Has_spec ks r :
  route_wf r = true -> Forall (fun k => route_wf k = true) ks ->
  Has (IndexInstalled ks) r = true <-> exists k, k ∈ ks /\ rt_Cloned k = false /\ same_route k r = true.
Proof.
  intros Hr Hk. rewrite Forall_forall in Hk. unfold IndexInstalled.
  rewrite Has_want, bool_decide_eq_true, elem_of_index_routes. simpl. split.
  - intros [H|(k & Hks & H)]; [set_solver|]. exists k. split; [done|]. apply entry_match; auto.
  - intros (k & Hks & H). right. exists k. split; [done|]. apply entry_match; auto.
Qed.

(** [Outranked]: some unscoped entry to the same destination has a metric no
    higher. *)
Lemma lowest_spec ks : forall inst x m,
  (exists m0, is_lowest (fold_left index_one ks inst) !! x = Some m0 /\ m0 <= m) <->
  (exists m0, is_lowest inst !! x = Some m0 /\ m0 <= m) \/
  exists k, k ∈ ks /\ rt_Cloned k = false /\ rt_Scoped k = false /\ maskedDstKey k = x /\ rt_Metric k <= m.
Proof.
  induction ks as [|k ks IH]; intros inst x m; cbn [fold_left].
  { split; [by left|]. intros [?|(k & Hk & _)]; [done|by apply elem_of_nil in Hk]. }
  rewrite IH. clear IH.
  assert ((exists m0, is_lowest (index_one inst k) !! x = Some m0 /\ m0 <= m) <->
    (exists m0, is_lowest inst !! x = Some m0 /\ m0 <= m) \/
    rt_Cloned k = false /\ rt_Scoped k = false /\ maskedDstKey k = x /\ rt_Metric k <= m) as Hone.
  { unfold index_one. destruct (rt_Cloned k); [naive_solver|].
    replace (is_lowest (if rt_Reject k then _ else _)) with
      (if rt_Scoped k then is_lowest inst else
       match is_lowest inst !! maskedDstKey k with
       | Some m => if rt_Metric k <? m then <[maskedDstKey k := rt_Metric k]> (is_lowest inst) else is_lowest inst
       | None => <[maskedDstKey k := rt_Metric k]> (is_lowest inst)
       end) by (destruct (rt_Reject k); done).
    destruct (rt_Scoped k); [naive_solver|].
    destruct (decide (maskedDstKey k = x)) as [<-|Hx].
    - destruct (is_lowest inst !! maskedDstKey k) as [m1|] eqn:E.
      + destruct (Z.ltb_spec (rt_Metric k) m1); rewrite ?lookup_insert_eq, ?E.
        * split; [intros (? & [= <-] & ?); by right|]. intros [(? & [= <-] & ?)|(_ & _ & _ & ?)]; eexists; (split; [done|lia]).
        * split; [by left|]. intros [?|(_ & _ & _ & ?)]; [done|]. eexists. split; [done|lia].
      + rewrite lookup_insert_eq. split; [intros (? & [= <-] & ?); by right|].
        intros [(? & ? & ?)|(_ & _ & _ & ?)]; [done|]. eauto.
    - assert (forall (m' : gmap string Z), <[maskedDstKey k := rt_Metric k]> m' !! x = m' !! x) as Hne
        by (intros; by rewrite lookup_insert_ne).
      repeat case_match; rewrite ?Hne; naive_solver. }
  rewrite Hone. setoid_rewrite elem_of_cons. naive_solver.
Qed.

Lemma Outranked_spec ks r :
  Outranked (IndexInstalled ks) r = true <->
  exists k, k ∈ ks /\ rt_Cloned k = false /\ rt_Scoped k = false /\ maskedDstKey k = maskedDstKey r /\
    rt_Metric k <= effectiveMetric r.
Proof.
  unfold Outranked, IndexInstalled.
  pose proof (lowest_spec ks (mkInstalled ∅ ∅) (maskedDstKey r) (effectiveMetric r)) as H. simpl in H.
  transitivity (exists m0, is_lowest (fold_left index_one ks (mkInstalled ∅ ∅)) !! maskedDstKey r = Some m0 /\
                  m0 <= effectiveMetric r).
  - destruct (_ !! _) as [m|].
    + rewrite Z.leb_le. split; [eauto|]. by intros (? & [= <-] & ?).
    + split; [done|]. by intros (? & ? & _).
  - rewrite H. split; [|by right]. intros [(? & E & _)|?]; [by rewrite lookup_empty in E|done].
Qed.

(** ** [VerifyRoutes] *)

Section verify_facts.
Context (wanted : gmap string ManagedRoute) (read : Family -> option (list Route)) (held : gset string)
        (only : option (ManagedRoute -> bool)).

(** What the records are checked against for [o], if anything. *)
Definition checked (o : ManagedRoute) : option Installed :=
  if has wanted (RouteKey (mr_Route o)) && accepted only o
  then IndexInstalled <$> read (rt_Family (mr_Route o)) else None.

Definition is_missing (o : ManagedRoute) : bool :=
  match checked o with
  | None => false
  | Some inst => negb (Has inst (mr_Route o)) && negb (Outranked inst (mr_Route o)) &&
                 negb (bool_decide (RouteKey (mr_Route o) ∈ held) && negb (IsTunnelRoute o))
  end.

Definition is_taken (o : ManagedRoute) : bool :=
  match checked o with
  | None => false
  | Some inst => negb (Has inst (mr_Route o)) && Outranked inst (mr_Route o)
  end.

(** The cache holds what a read of that family said, and each family was read
    once. *)
Record verify_inv (st : verify_state) : Prop := mkVerifyInv {
  vi_cache : forall fam inst, vs_kernel st !! fam = Some inst -> inst = IndexInstalled <$> read fam;
  vi_reads : forall fam, fam ∈ vs_reads st <-> is_Some (vs_kernel st !! fam);
  vi_once : NoDup (vs_reads st);
}.

Lemma verify_one_ok st o :
  verify_inv st ->
  let st' := verify_one wanted read held only st o in
  verify_inv st' /\
  vs_v st' = mkVerified (vf_Kept (vs_v st) ++ (if is_missing o then [] else [o]))
                        (vf_Missing (vs_v st) ++ (if is_missing o then [o] else []))
                        (vf_Taken (vs_v st) ++ (if is_taken o then [o] else [])).
Proof.
  intros Hi. pose proof Hi as [I1 I2 I3]. unfold verify_one, is_missing, is_taken, checked.
  destruct (has wanted (RouteKey (mr_Route o)) && accepted only o) eqn:E.
  2:{ simpl. rewrite !app_nil_r. done. }
  destruct (vs_kernel st !! rt_Family (mr_Route o)) as [inst|] eqn:Ek; simpl.
  all: split; [|].
  - done.
  - rewrite (I1 _ _ Ek). destruct (IndexInstalled <$> read _) as [i|]; simpl; [|by rewrite !app_nil_r].
    destruct (Has i (mr_Route o)), (Outranked i (mr_Route o)), (bool_decide _), (IsTunnelRoute o);
      simpl; by rewrite ?app_nil_r.
  - constructor; simpl.
    + intros fam inst. destruct (decide (fam = rt_Family (mr_Route o))) as [->|Hne].
      * rewrite lookup_insert_eq. by intros [= <-].
      * rewrite lookup_insert_ne by done. apply I1.
    + intros fam. rewrite elem_of_app, list_elem_of_singleton, I2, lookup_insert_is_Some.
      destruct (decide (rt_Family (mr_Route o) = fam)); naive_solver.
    + apply NoDup_app. split_and!; [done| |apply NoDup_singleton].
      intros fam Hf ->%list_elem_of_singleton. apply I2 in Hf. rewrite Ek in Hf. by destruct Hf.
  - destruct (IndexInstalled <$> read _) as [i|]; simpl; [|by rewrite !app_nil_r].
    destruct (Has i (mr_Route o)), (Outranked i (mr_Route o)), (bool_decide _), (IsTunnelRoute o);
      simpl; by rewrite ?app_nil_r.
Qed.

Lemma verify_fold_ok l : forall st,
  verify_inv st ->
  let st' := fold_left (verify_one wanted read held only) l st in
  verify_inv st' /\
  vs_v st' = mkVerified (vf_Kept (vs_v st) ++ keep_if (fun o => negb (is_missing o)) l)
                        (vf_Missing (vs_v st) ++ keep_if is_missing l)
                        (vf_Taken (vs_v st) ++ keep_if is_taken l).
Proof.
  induction l as [|o l IH]; intros st Hi; cbn [fold_left].
  - split; [done|]. simpl. rewrite !app_nil_r. by destruct (vs_v st).
  - destruct (verify_one_ok st o Hi) as [H1 H2]. destruct (IH _ H1) as [H3 H4]. split; [done|].
    cbv zeta. rewrite H4, H2. simpl.
    destruct (is_missing o), (is_taken o); simpl; by rewrite <- ?app_assoc, ?app_nil_r.
Qed.
End verify_facts.

Lemma VerifyRoutes_eq owned desired read held only :
  VerifyRoutes owned desired read held only =
  mkVerified (keep_if (fun o => negb (is_missing (indexRoutes desired) read held only o)) owned)
             (keep_if (is_missing (indexRoutes desired) read held only) owned)
             (keep_if (is_taken (indexRoutes desired) read only) owned).
Proof.
  unfold VerifyRoutes, verify_loop.
  destruct (verify_fold_ok (indexRoutes desired) read held only owned (mkVerifyState ∅ [] (mkVerified [] [] [])))
    as [_ H]; [|done].
  constructor; simpl; [|intros fam; rewrite lookup_empty|constructor].
  - intros fam inst. by rewrite lookup_empty.
  - rewrite elem_of_nil. split; [done|]. by intros [].
Qed.

Lemma keep_if_split {A} (f : A -> bool) l : keep_if (fun x => negb (f x)) l ++ keep_if f l ≡ₚ l.
Proof.
  induction l as [|x l IH]; simpl; [done|]. destruct (f x); simpl; [|by rewrite IH].
  by rewrite <- Permutation_middle, IH.
Qed.

(** ** Gateway spellings *)

Lemma clear_scope_bits n i :
  0 <= i -> Z.testbit (clear_scope n) i = Z.testbit n i && negb ((96 <=? i) && (i <? 112)).
Proof.
  intros Hi. unfold clear_scope. rewrite Z.ldiff_spec, Z.shiftl_spec by done. f_equal. f_equal.
  change 65535 with (Z.ones 16).
  destruct (Z.leb_spec 96 i); simpl.
  - rewrite Z.testbit_ones_nonneg by lia. apply eq_true_iff_eq. rewrite !Z.ltb_lt. lia.
  - by rewrite Z.testbit_neg_r by lia.
Qed.

Lemma clear_scope_nonneg n : 0 <= n -> 0 <= clear_scope n.
Proof. intros. unfold clear_scope. apply Z.ldiff_nonneg. auto. Qed.

Lemma high_bits_bound n w : 0 <= n -> 0 < w -> (forall i, w <= i -> Z.testbit n i = false) -> n < 2 ^ w.
Proof.
  intros Hn Hw H. destruct (Z.eq_dec n 0) as [->|Hnz]; [lia|].
  apply Z.log2_lt_pow2; [lia|]. destruct (Z.lt_ge_cases (Z.log2 n) w) as [|Hge]; [done|].
  specialize (H (Z.log2 n) Hge). rewrite Z.bit_log2 in H by lia. done.
Qed.

Lemma testbit_high n w i : 0 <= n < 2 ^ w -> 0 <= w <= i -> Z.testbit n i = false.
Proof.
  intros Hn Hi. destruct (Z.eq_dec n 0) as [->|Hnz]; [apply Z.bits_0|].
  apply Z.bits_above_log2; [lia|]. apply Z.lt_le_trans with w; [|lia]. apply Z.log2_lt_pow2; lia.
Qed.

(** An address with a scope embedded in its third and fourth bytes. *)
Definition embed_scope (n scope : Z) : Z := Z.lor (clear_scope n) (Z.shiftl scope 96).

Lemma embed_scope_bits n scope i :
  0 <= i -> 0 <= scope < 65536 ->
  Z.testbit (embed_scope n scope) i =
  (Z.testbit n i && negb ((96 <=? i) && (i <? 112))) || ((96 <=? i) && (i <? 112) && Z.testbit scope (i - 96)).
Proof.
  intros Hi Hs. unfold embed_scope. rewrite Z.lor_spec, clear_scope_bits, Z.shiftl_spec by done. f_equal.
  destruct (Z.leb_spec 96 i); simpl; [|by rewrite Z.testbit_neg_r by lia].
  destruct (Z.ltb_spec i 112); simpl; [done|]. apply (testbit_high scope 16); lia.
Qed.

Lemma embed_scope_clear n scope :
  0 <= scope < 65536 -> clear_scope (embed_scope n scope) = clear_scope n.
Proof.
  intros Hs. apply Z.bits_inj'. intros i Hi. rewrite !clear_scope_bits, embed_scope_bits by done.
  destruct ((96 <=? i) && (i <? 112)); simpl; rewrite ?andb_false_r, ?andb_true_r, ?orb_false_r; done.
Qed.

Lemma embed_scope_ok n scope :
  0 <= n < 2 ^ 128 -> 0 <= scope < 65536 ->
  0 <= embed_scope n scope < 2 ^ 128 /\ Z.shiftr (embed_scope n scope) 118 = Z.shiftr n 118.
Proof.
  intros Hn Hs. assert (0 <= embed_scope n scope) as H0.
  { unfold embed_scope. apply Z.lor_nonneg. split; [apply clear_scope_nonneg; lia|].
    apply Z.shiftl_nonneg. lia. }
  split; [split; [done|]|].
  - apply high_bits_bound; [done|lia|]. intros i Hi. rewrite embed_scope_bits by lia.
    rewrite (testbit_high n 128) by lia. rewrite (proj2 (Z.ltb_ge i 112)) by lia. by rewrite andb_false_r.
  - apply Z.bits_inj'. intros i Hi. rewrite !Z.shiftr_spec, embed_scope_bits by lia.
    rewrite (proj2 (Z.ltb_ge (i + 118) 112)) by lia. rewrite !andb_false_r. simpl.
    by rewrite andb_true_r, orb_false_r.
Qed.

Lemma gatewayKey_ll n zone :
  0 <= n < 2 ^ 128 -> Z.shiftr n 118 = 1018 ->
  gatewayKey (addr_String (Addr6 n zone)) = addr_String (Addr6 (clear_scope n) "").
Proof.
  intros Hn Hl. unfold gatewayKey. rewrite ParseAddr_String by done.
  assert (Is4In6 (Addr6 n zone) = false /\ Is4In6 (Addr6 n "") = false) as [E1 E2].
  { unfold Is4In6. rewrite (proj2 (Z.eqb_neq (Z.shiftr n 32) 65535)); [done|]. intros E.
    assert (Z.shiftr n 118 = Z.shiftr (Z.shiftr n 32) 86) as E' by (rewrite Z.shiftr_shiftr; [done|lia]).
    rewrite E in E'. rewrite Hl in E'. done. }
  assert (forall z, Is4In6 (Addr6 n z) = false -> Unmap (Addr6 n z) = Addr6 n z) as Hu
    by (intros z E; unfold Unmap; by rewrite E).
  rewrite (Hu zone E1). cbn [WithZone]. unfold IsLinkLocalUnicast. rewrite (Hu "" E2), Hl. done.
Qed.

(** ** Theorems *)

(** [VerifyRoutes] splits the owned routes: every one is kept or missing,
    once; a route is missing exactly when the desired set wants it, the check
    covers it, its family's table could be read, no (uncloned) entry there is
    that route, no unscoped entry to its destination outranks it by metric, and
    it is a tunnel's route or not held. What is taken stays kept. A family's
    table is read at most once. *)
Theorem VerifyRoutes_exact owned desired read held only :
  Forall (fun o => route_wf (mr_Route o) = true) owned ->
  (forall fam ks, read fam = Some ks -> Forall (fun k => route_wf k = true) ks) ->
  let v := VerifyRoutes owned desired read held only in
  vf_Kept v ++ vf_Missing v ≡ₚ owned /\
  (forall o, o ∈ vf_Taken v -> o ∈ vf_Kept v) /\
  (forall o, o ∈ vf_Missing v <->
     o ∈ owned /\ RouteKey (mr_Route o) ∈ rkeys desired /\ accepted only o = true /\
     exists ks, read (rt_Family (mr_Route o)) = Some ks /\
       ~ (exists k, k ∈ ks /\ rt_Cloned k = false /\ same_route k (mr_Route o) = true) /\
       ~ (exists k, k ∈ ks /\ rt_Cloned k = false /\ rt_Scoped k = false /\
            maskedDstKey k = maskedDstKey (mr_Route o) /\ rt_Metric k <= effectiveMetric (mr_Route o)) /\
       (IsTunnelRoute o = true \/ RouteKey (mr_Route o) ∉ held)) /\
  NoDup (vs_reads (verify_loop (indexRoutes desired) read held only owned)).
Proof.
  intros Hw Hread. rewrite Forall_forall in Hw. cbv zeta. rewrite VerifyRoutes_eq. simpl. split_and!.
  - apply keep_if_split.
  - intros o. rewrite !elem_of_keep_if. intros [Ho Ht]. split; [done|]. unfold is_taken in Ht.
    unfold is_missing. case_match; [|done]. bool_hyps. by rewrite H0, H1.
  - intros o. rewrite elem_of_keep_if. unfold is_missing, checked. split.
    + intros [Ho H]. case_match eqn:E; [|done]. case_match eqn:Ew; [|done]. apply andb_prop in Ew as [Ew Ea].
      destruct (read _) as [ks|] eqn:Er; [|done]. simpl in E. injection E as <-.
      split_and!; [done|by apply indexRoutes_has|done|]. exists ks.
      rewrite !andb_true_iff, !negb_true_iff in H. destruct H as [[Hnh Hno] Hnb]. split_and!; [done| | |].
      * rewrite <- Has_spec; [congruence|by apply Hw|by eapply Hread].
      * rewrite <- Outranked_spec. congruence.
      * apply andb_false_iff in Hnb as [Hnb|Hnb]; [right; by apply bool_decide_eq_false in Hnb|left].
        by apply negb_false_iff in Hnb.
    + intros (Ho & Hk & Ha & ks & Er & Hh & Hor & Hheld). split; [done|].
      apply indexRoutes_has in Hk. rewrite Hk, Ha, Er. simpl.
      rewrite <- Has_spec, not_true_iff_false in Hh; [|by apply Hw|by eapply Hread].
      rewrite <- Outranked_spec, not_true_iff_false in Hor. rewrite Hh, Hor. simpl.
      destruct Hheld as [->|Hn]; [by rewrite andb_false_r|by rewrite bool_decide_false].
  - unfold verify_loop.
    destruct (verify_fold_ok (indexRoutes desired) read held only owned (mkVerifyState ∅ [] (mkVerified [] [] [])))
      as [[_ _ H] _]; [|done].
    constructor; simpl; [intros fam inst; by rewrite lookup_empty|intros fam; rewrite lookup_empty|constructor].
    rewrite elem_of_nil. split; [done|]. by intros [].
Qed.

(** A failed table read changes nothing: with no family readable, every
    owned route is kept and none is missing (the records are trusted). *)
Theorem VerifyRoutes_unreadable owned desired held only :
  VerifyRoutes owned desired (fun _ => None) held only = mkVerified owned [] [].
Proof.
  rewrite VerifyRoutes_eq.
  assert (forall o, checked (indexRoutes desired) (fun _ => None) only o = None) as Hc
    by (intros o; unfold checked; by case_if).
  f_equal; [apply keep_if_all|apply keep_if_none|apply keep_if_none]; intros o _;
    unfold is_missing, is_taken; by rewrite Hc.
Qed.

(** A gateway is compared by what it names, not by its spelling: a
    link-local IPv6 gateway (fe80::/10) has one key whether it is written with
    its zone, without it, or with a scope embedded in its third and fourth
    bytes. *)
Theorem gatewayKey_spelling n zone scope :
  0 <= n < 2 ^ 128 -> Z.shiftr n 118 = 1018 -> 0 <= scope < 65536 ->
  SameGateway (addr_String (Addr6 n zone)) (addr_String (Addr6 n "")) = true /\
  SameGateway (addr_String (Addr6 (embed_scope n scope) "")) (addr_String (Addr6 n "")) = true.
Proof.
  intros Hn Hl Hs. destruct (embed_scope_ok n scope Hn Hs) as [Hok Hsh].
  unfold SameGateway. rewrite !gatewayKey_ll by (try rewrite Hsh; done).
  rewrite embed_scope_clear by done. by rewrite String.eqb_refl.
Qed.

(** ** Witnesses *)

Definition ex_gone := ex_route "172.16.0.0/12" "192.168.1.1" "en0".
Definition ex_there := ex_route "10.0.0.0/8" "192.168.1.1" "en0".
Definition ex_read (fam : Family) : option (list Route) :=
  if fam =s? FamilyV4 then Some [mr_Route ex_there] else None.

Lemma VerifyRoutes_exact_witness :
  ex_gone ∈ vf_Missing (VerifyRoutes [ex_there; ex_gone] [ex_there; ex_gone] ex_read ∅ None).
Proof.
  apply (VerifyRoutes_exact [ex_there; ex_gone] [ex_there; ex_gone] ex_read ∅ None).
  - repeat constructor.
  - intros fam ks. unfold ex_read. destruct (fam =s? FamilyV4); [|discriminate].
    intros E. injection E as <-. repeat constructor.
  - split; [right; left|]. split; [right; left|]. split; [reflexivity|].
    exists [mr_Route ex_there]. split; [reflexivity|].
    split; [intros (k & Hk & _ & E); apply list_elem_of_singleton in Hk; subst k; vm_compute in E; discriminate E|].
    split; [intros (k & Hk & _ & _ & E & _); apply list_elem_of_singleton in Hk; subst k; vm_compute in E; discriminate E|].
    right. apply not_elem_of_empty.
Defined.

Lemma gatewayKey_spelling_witness :
  SameGateway "fe80::1%en0" "fe80::1" = true /\ SameGateway "fe80:4::1" "fe80::1" = true.
Proof.
  apply (gatewayKey_spelling 338288524927261089654018896841347694593 "en0" 4);
    [split; [discriminate|reflexivity]|reflexivity|split; [discriminate|reflexivity]].
Defined.
