(* ===== verification/Engine.v ===== *)
(** * Desired state (internal/routing/engine.go, first half)

    [BuildDesired] derives the managed routes and rules from the enabled
    profiles. Its error returns are values of [build_error]; the slices and
    maps it fills are the fields of [build_state]. Loops over a map of families
    run in [fam_order]. *)

From S2P Require Import Prelude.
From S2P Require Import Netip NetipText Aggregate Domain Reconcile Nets Input Tunnels.

Inductive build_error : Type :=
| ErrNoPolicyRouting (profile : string)
| ErrDarwinNoTunnel (profile : string) (fam : Family)
| ErrDarwinApp (profile value : string)
| ErrDarwinAppNoTunnel (profile value : string)
| ErrProfileGateway (profile : string) (e : gw_error)
| ErrNoTunnel (fam : Family).

Record build_state : Type := mkBuild {
  b_seenRoute : gset string;
  b_routes : list ManagedRoute;
  b_seenRule : gset string;
  b_rules : list ManagedRule;
  b_fams : gset string;          (* includeFamilies *)
}.

Definition b_add_rule (st : build_state) (pr : PolicyRule) (profile : string) (now : Z) : build_state * bool :=
  let k := RuleKey pr in
  if bool_decide (k ∈ b_seenRule st) then (st, false)
  else (mkBuild (b_seenRoute st) (b_routes st) ({[k]} ∪ b_seenRule st)
          (b_rules st ++ [mkMRule pr profile now]) (b_fams st), true).

Definition b_add_route (st : build_state) (rt : Route) (profile : string) (now : Z) : build_state :=
  let '(seen, routes) := addRoute (b_seenRoute st, b_routes st) rt profile now in
  mkBuild seen routes (b_seenRule st) (b_rules st) (b_fams st).

Section build.
Context (fam_order : list Family) (inp : DesiredInput).

(** *** Include mode on Linux *)

(** [addRule]: a new rule also marks its family. *)
Definition add_include (p : Profile) (fam : Family) (st : build_state) (pr : PolicyRule) : build_state :=
  let '(st', fresh) := b_add_rule st pr (pf_ID p) (in_Now inp) in
  if fresh then mkBuild (b_seenRoute st') (b_routes st') (b_seenRule st') (b_rules st') ({[fam]} ∪ b_fams st')
  else st'.

Definition dest_rule (fam : Family) (pfx : prefix) : PolicyRule :=
  mkPolicyRule ModelBRulePrio ("to " +:+ prefix_String pfx) ModelBTable fam (protoFor (in_Platform inp)) "" "".
Definition app_rule : PolicyRule :=
  mkPolicyRule ModelBRulePrio ("fwmark " +:+ ModelBMark) ModelBTable FamilyV4 (protoFor (in_Platform inp)) "" "".

Definition linux_include (p : Profile) (byF : byFam) (st : build_state) : build_state :=
  let st := fold_left (fun st e =>
              fold_left (fun st pfx => add_include p (fst e) st (dest_rule (fst e) pfx))
                (Aggregate (snd e)) st) (range_fams fam_order byF) st in
  if existsb (fun r => r_Type r =s? RuleApp) (pf_Rules p) then add_include p FamilyV4 st app_rule else st.

(** *** Include mode on macOS *)

Definition pf_rule (selector : string) (fam : Family) : option PolicyRule :=
  let '(vpnGW, vpnIface) := vpnFor fam inp in
  if vpnIface =s? "" then None
  else Some (mkPolicyRule ModelBRulePrio selector "" fam "riftroute" vpnIface
               (if IsValid vpnGW then addr_String vpnGW else "")).

Definition add_pf (p : Profile) (st : build_state) (pr : PolicyRule) : build_state :=
  fst (b_add_rule st pr (pf_ID p) (in_Now inp)).

Definition pf_pass (fam : Family) (value : string) (n : prefix) : PolicyRule :=
  mkPolicyRule TailscaleRulePrio ("to " +:+ prefix_String (Masked n) +:+ " user " +:+ value) "" fam "riftroute" "" "".

Definition darwin_app (p : Profile) (st : build_state) (r : Rule) : build_error + build_state :=
  if negb (r_Type r =s? RuleApp) then inr st
  else if negb (IsUIDLike (r_Value r)) then inl (ErrDarwinApp (pf_Name p) (r_Value r))
  else
    let '(st, emitted) :=
      fold_left (fun acc fam =>
        match pf_rule ("user " +:+ r_Value r) fam with
        | None => acc
        | Some pr =>
            (fold_left (fun st n => if famOf (p_addr n) =s? fam then add_pf p st (pf_pass fam (r_Value r) n) else st)
               (in_Tailscale inp) (add_pf p (fst acc) pr), true)
        end) [FamilyV4; FamilyV6] (st, false) in
    if emitted then inr st else inl (ErrDarwinAppNoTunnel (pf_Name p) (r_Value r)).

Definition buildDarwinInclude (p : Profile) (byF : byFam) (st : build_state) : build_error + build_state :=
  let? st := fold_err (fun st e =>
               fold_err (fun st pfx =>
                 match pf_rule ("to " +:+ prefix_String pfx) (fst e) with
                 | None => inl (ErrDarwinNoTunnel (pf_Name p) (fst e))
                 | Some pr => inr (add_pf p st pr)
                 end) (Aggregate (snd e)) st) (range_fams fam_order byF) st in
  fold_err (darwin_app p) (pf_Rules p) st.

(** *** Exclude mode *)

Definition exclude_rt (p : Profile) (fam : Family) (gw : addr) (iface : string) (pfx : prefix) : Route :=
  mkRoute (prefix_String pfx) (addr_String gw) iface 0 fam OwnerRiftRoute (protoFor (in_Platform inp)) ""
    (pf_ID p) false false false.

(** [skipped], [families] and [skipErr] ride along. *)
Record exclude_state : Type := mkExclude {
  x_st : build_state;
  x_skipped : Z;
  x_families : Z;
  x_err : option gw_error;
}.

Definition exclude_family (p : Profile) (nets : list prefix) (x : exclude_state) (e : Family * list prefix)
    : build_error + exclude_state :=
  let '(fam, prefixes) := e in
  let prefixes := outsideTunnels (outsideTunnels prefixes nets) (in_Tailscale inp) in
  if (length prefixes =? 0)%nat then inr x
  else
    let families := x_families x + 1 in
    match resolveGateway (pf_Gateway p) fam inp with
    | inl err =>
        if bool_decide (is_Some (ParseAddr (pf_Gateway p))) || (pf_Gateway p =s? "") || (pf_Gateway p =s? "auto")
        then inr (mkExclude (x_st x) (x_skipped x + 1) families (Some err))
        else inl (ErrProfileGateway (pf_Name p) err)
    | inr (gw, iface) =>
        inr (mkExclude
               (fold_left (fun st pfx => b_add_route st (exclude_rt p fam gw iface pfx) (pf_ID p) (in_Now inp))
                  (Aggregate prefixes) (x_st x))
               (x_skipped x) families (x_err x))
    end.

Definition exclude_profile (p : Profile) (nets : list prefix) (st : build_state) : build_error + build_state :=
  let? x := fold_err (exclude_family p nets) (range_fams fam_order (profilePrefixes p inp)) (mkExclude st 0 0 None) in
  match x_err x with
  | Some err => if (0 <? x_families x) && (x_skipped x =? x_families x)
                then inl (ErrProfileGateway (pf_Name p) err) else inr (x_st x)
  | None => inr (x_st x)
  end.

(** *** One profile, then the whole set *)

Definition around (nets : list prefix) (l : list prefix) : list prefix :=
  let l := aroundTunnels l nets in
  if in_Platform inp =s? "darwin" then aroundTunnels l (in_Tailscale inp) else l.

Definition build_profile (nets : list prefix) (st : build_state) (p : Profile) : build_error + build_state :=
  if negb (pf_Enabled p) || (pf_Mode p =s? ModeTunnel) then inr st
  else if pf_Mode p =s? ModeInclude then
    if negb (in_PolicyRouting inp) then inl (ErrNoPolicyRouting (pf_Name p))
    else
      let byF := around nets <$> profilePrefixes p inp in
      if in_Platform inp =s? "darwin" then buildDarwinInclude p byF st
      else inr (linux_include p byF st)
  else exclude_profile p nets st.

Definition default_rt (fam : Family) (vpnGW : addr) (vpnIface : string) : Route :=
  mkRoute (if fam =s? FamilyV6 then "::/0" else "0.0.0.0/0")
    (if IsValid vpnGW then addr_String vpnGW else "") vpnIface 0 fam OwnerRiftRoute
    (protoFor (in_Platform inp)) ModelBTable modelBProfileTag false false false.

Definition build_default (st : build_state) (fam : Family) : build_error + build_state :=
  let '(vpnGW, vpnIface) := vpnFor fam inp in
  if vpnIface =s? "" then inl (ErrNoTunnel fam)
  else inr (b_add_route st (default_rt fam vpnGW vpnIface) modelBProfileTag (in_Now inp)).

(** *** Beside a Tailscale *)

Definition set_table (r : ManagedRoute) (table : string) : ManagedRoute :=
  let rt := mr_Route r in
  mkMR (mkRoute (rt_DstCIDR rt) (rt_Gateway rt) (rt_Iface rt) (rt_Metric rt) (rt_Family rt) (rt_Owner rt)
          (rt_Proto rt) table (rt_Profile rt) (rt_Cloned rt) (rt_Scoped rt) (rt_Reject rt))
       (mr_ProfileID r) (mr_CreatedAt r).

Definition tailscale_rule (fam : Family) : ManagedRule :=
  mkMRule (mkPolicyRule TailscaleRulePrio "from all suppress_prefixlength 0" (in_TailscaleTable inp) fam
             (protoFor (in_Platform inp)) "" "") tailscaleTag (in_Now inp).
Definition bypass_rule (fam : Family) : ManagedRule :=
  mkMRule (mkPolicyRule BypassRulePrio "from all" BypassTable fam (protoFor (in_Platform inp)) "" "")
    tailscaleTag (in_Now inp).

Definition BesideTailscale (routes : list ManagedRoute) (rules : list ManagedRule)
    : list ManagedRoute * list ManagedRule :=
  let routes := keep_if (fun r => negb (rt_Table (mr_Route r) =s? BypassTable)) routes in
  let rules := keep_if (fun r => negb ((pr_Table (ml_Rule r) =s? BypassTable) ||
                 ((pr_Priority (ml_Rule r) =? TailscaleRulePrio) && negb (pr_Table (ml_Rule r) =s? "")))) rules in
  if (in_TailscaleTable inp =s? "") || (in_Platform inp =s? "darwin") then (routes, rules)
  else
    let fams := map (fun n => famOf (p_addr n)) (in_Tailscale inp) in
    let rules := rules ++ map tailscale_rule (keep_if (fun fam => bool_decide (fam ∈ fams)) [FamilyV4; FamilyV6]) in
    if negb (in_TailscaleExitNode inp) then (routes, rules)
    else
      let main := keep_if (fun r => rt_Table (mr_Route r) =s? "") routes in
      let families := map (fun r => rt_Family (mr_Route r)) main in
      (routes ++ map (fun r => set_table r BypassTable) main,
       rules ++ map bypass_rule (keep_if (fun fam => bool_decide (fam ∈ families)) [FamilyV4; FamilyV6])).

(** *** The builder *)

Definition by_priority (profs : list Profile) : list Profile :=
  slice_stable (fun a b => pf_Priority b <? pf_Priority a) profs.
Definition sort_routes (l : list ManagedRoute) : list ManagedRoute :=
  slice_stable (fun a b => str_less (RouteKey (mr_Route a)) (RouteKey (mr_Route b))) l.
Definition sort_rules (l : list ManagedRule) : list ManagedRule :=
  slice_stable (fun a b => str_less (RuleKey (ml_Rule a)) (RuleKey (ml_Rule b))) l.

Definition build_set : build_error + build_state :=
  let tunnels := PlanTunnels inp in
  let? st := fold_err (build_profile (tp_nets tunnels)) (by_priority (in_Profiles inp)) (mkBuild ∅ [] ∅ [] ∅) in
  let '(seen, routes) := place tunnels (b_seenRoute st, b_routes st) in
  let st := mkBuild seen routes (b_seenRule st) (b_rules st) (b_fams st) in
  fold_err build_default (keep_if (fun fam => bool_decide (fam ∈ b_fams st)) fam_order) st.

Definition BuildDesired : build_error + list ManagedRoute * list ManagedRule :=
  let? st := build_set in
  let '(routes, rules) := BesideTailscale (b_routes st) (b_rules st) in
  inr (sort_routes routes, sort_rules rules).
End build.

(** ** The builder's invariant *)

Section build_inv.
Context (P : ManagedRoute -> Prop) (Q : ManagedRule -> Prop).

Record binv (st : build_state) : Prop := mkBinv {
  bi_seen : forall x, x ∈ b_seenRoute st <-> x ∈ rkeys (b_routes st);
  bi_keys : NoDup (rkeys (b_routes st));
  bi_rseen : forall x, x ∈ b_seenRule st <-> x ∈ ruleKeys (b_rules st);
  bi_rkeys : NoDup (ruleKeys (b_rules st));
  bi_P : Forall P (b_routes st);
  bi_Q : Forall Q (b_rules st);
  bi_fams : forall r, r ∈ b_rules st -> pr_Table (ml_Rule r) = ModelBTable -> pr_Family (ml_Rule r) ∈ b_fams st;
}.

Lemma NoDup_snoc {A} (l : list A) x : NoDup l -> x ∉ l -> NoDup (l ++ [x]).
Proof.
  intros Hn Hx. apply NoDup_app. split_and!; [done| |apply NoDup_singleton].
  by intros y Hy ->%list_elem_of_singleton.
Qed.

Lemma addRoute_inv seen routes rt profile now :
  (forall x, x ∈ seen <-> x ∈ rkeys routes) -> NoDup (rkeys routes) -> Forall P routes ->
  P (mkMR rt profile now) ->
  let r := addRoute (seen, routes) rt profile now in
  (forall x, x ∈ fst r <-> x ∈ rkeys (snd r)) /\ NoDup (rkeys (snd r)) /\ Forall P (snd r) /\
  (forall x, x ∈ routes -> x ∈ snd r) /\ RouteKey rt ∈ rkeys (snd r).
Proof.
  intros Hs Hn HP Hp. unfold addRoute. cbv zeta. case_bool_decide as Hk.
  - split_and!; [done..|]. by apply Hs.
  - unfold rkeys. simpl. rewrite map_app. simpl. split_and!.
    + intros x. rewrite elem_of_union, elem_of_singleton, elem_of_app, list_elem_of_singleton, Hs. tauto.
    + apply NoDup_snoc; [done|]. by rewrite Hs in Hk.
    + apply Forall_app. split; [done|]. by constructor.
    + intros x Hx. apply elem_of_app. by left.
    + apply elem_of_app. right. by apply list_elem_of_singleton.
Qed.

Lemma binv_add_route st rt profile now :
  binv st -> P (mkMR rt profile now) -> binv (b_add_route st rt profile now).
Proof.
  intros [I1 I2 I3 I4 I5 I6 I7] Hp. unfold b_add_route.
  destruct (addRoute_inv (b_seenRoute st) (b_routes st) rt profile now) as (H1 & H2 & H3 & _); [done..|].
  destruct (addRoute _ _ _ _) as [seen routes]. by constructor.
Qed.

Lemma binv_add_rule st pr profile now :
  binv st -> Q (mkMRule pr profile now) -> pr_Table pr <> ModelBTable ->
  binv (fst (b_add_rule st pr profile now)).
Proof.
  intros [I1 I2 I3 I4 I5 I6 I7] Hq Ht. unfold b_add_rule. case_bool_decide as Hk; [done|].
  constructor; simpl; unfold ruleKeys; rewrite ?map_app; simpl; try done.
  - intros x. rewrite elem_of_union, elem_of_singleton, elem_of_app, list_elem_of_singleton, I3. tauto.
  - apply NoDup_snoc; [done|]. by rewrite I3 in Hk.
  - apply Forall_app. split; [done|]. by constructor.
  - intros r [Hr|Hr]%elem_of_app; [by apply I7|]. apply list_elem_of_singleton in Hr as ->. done.
Qed.

Lemma binv_add_include inp p fam st pr :
  binv st -> Q (mkMRule pr (pf_ID p) (in_Now inp)) -> pr_Family pr = fam -> binv (add_include inp p fam st pr).
Proof.
  intros [I1 I2 I3 I4 I5 I6 I7] Hq Hf. unfold add_include, b_add_rule. case_bool_decide as Hk; [done|].
  constructor; simpl; unfold ruleKeys; rewrite ?map_app; simpl; try done.
  - intros x. rewrite elem_of_union, elem_of_singleton, elem_of_app, list_elem_of_singleton, I3. tauto.
  - apply NoDup_snoc; [done|]. by rewrite I3 in Hk.
  - apply Forall_app. split; [done|]. by constructor.
  - intros r [Hr|Hr]%elem_of_app Ht; [apply elem_of_union; right; by apply I7|].
    apply list_elem_of_singleton in Hr as ->. simpl. set_solver.
Qed.

Lemma fold_left_inv {A B} (R : A -> Prop) (f : A -> B -> A) l :
  (forall a b, b ∈ l -> R a -> R (f a b)) -> forall a, R a -> R (fold_left f l a).
Proof.
  induction l as [|b l IH]; intros Hf a Ha; simpl; [done|]. apply IH; [|apply Hf; [by left|done]].
  intros x y Hy. apply Hf. by right.
Qed.

(** *** Each mode keeps it *)

Context (fam_order : list Family) (inp : DesiredInput).

Lemma elem_of_range_fams (m : byFam) fam l : (fam, l) ∈ range_fams fam_order m -> m !! fam = Some l.
Proof.
  unfold range_fams. intros (f & _ & H)%list_elem_of_omap. destruct (m !! f) eqn:E; [|done]. simpl in H. congruence.
Qed.

Lemma linux_include_inv p byF st :
  (forall fam l pfx, byF !! fam = Some l -> pfx ∈ Aggregate l ->
     Q (mkMRule (dest_rule inp fam pfx) (pf_ID p) (in_Now inp))) ->
  (existsb (fun r => r_Type r =s? RuleApp) (pf_Rules p) = true ->
     Q (mkMRule (app_rule inp) (pf_ID p) (in_Now inp))) ->
  binv st -> binv (linux_include fam_order inp p byF st).
Proof.
  intros Hd Ha Hi. unfold linux_include.
  assert (binv (fold_left (fun st e => fold_left (fun st pfx => add_include inp p (fst e) st (dest_rule inp (fst e) pfx))
                (Aggregate (snd e)) st) (range_fams fam_order byF) st)) as H.
  { apply fold_left_inv; [|done]. intros s [fam l] He%elem_of_range_fams Hs. simpl.
    apply fold_left_inv; [|done]. intros s' pfx Hp Hs'. apply binv_add_include; [done|by eapply Hd|done]. }
  destruct (existsb _ _) eqn:E; [|done]. apply binv_add_include; auto.
Qed.

Lemma darwin_include_inv p byF st st' :
  (forall fam l pfx pr, byF !! fam = Some l -> pfx ∈ Aggregate l ->
     pf_rule inp ("to " +:+ prefix_String pfx) fam = Some pr -> Q (mkMRule pr (pf_ID p) (in_Now inp))) ->
  (forall rl pr, rl ∈ pf_Rules p -> r_Type rl = RuleApp -> IsUIDLike (r_Value rl) = true ->
     (exists fam, pf_rule inp ("user " +:+ r_Value rl) fam = Some pr) \/
     (exists fam n, n ∈ in_Tailscale inp /\ pr = pf_pass fam (r_Value rl) n) ->
     Q (mkMRule pr (pf_ID p) (in_Now inp))) ->
  binv st -> buildDarwinInclude fam_order inp p byF st = inr st' -> binv st'.
Proof.
  intros Hd Ha Hi. unfold buildDarwinInclude.
  assert (forall s pr, pr_Table pr = "" -> Q (mkMRule pr (pf_ID p) (in_Now inp)) -> binv s ->
    binv (add_pf inp p s pr)) as Hadd.
  { intros s pr Ht Hq Hs. apply binv_add_rule; [done|done|by rewrite Ht]. }
  assert (forall sel fam pr, pf_rule inp sel fam = Some pr -> pr_Table pr = "") as Hpf.
  { intros sel fam pr. unfold pf_rule. destruct (vpnFor fam inp). case_if; [done|]. by intros [= <-]. }
  unfold try at 1. destruct (fold_err _ (range_fams fam_order byF) st) as [|st1] eqn:E1; [done|].
  assert (binv st1) as H1.
  { revert E1. apply fold_err_ind; [|done]. intros s [fam l] s' He%elem_of_range_fams Hs. simpl.
    apply fold_err_ind; [|done]. intros a b a' Hb Hab. destruct (pf_rule _ _ _) eqn:Ep; [|done].
    intros [= <-]. apply Hadd; [by eapply Hpf|by eapply Hd|done]. }
  apply fold_err_ind; [|done]. intros s rl s' Hrl Hs. unfold darwin_app.
  destruct (String.eqb_spec (r_Type rl) RuleApp) as [Et|]; cbn [negb]; [|by intros [= <-]].
  destruct (IsUIDLike (r_Value rl)) eqn:Eu; cbn [negb]; [|done].
  set (f := fun acc fam => _). set (acc := fold_left f _ _).
  assert (binv (fst acc)) as Hacc.
  { unfold acc. apply (fold_left_inv (fun acc => binv (fst acc))); [|done]. intros [s0 e] fam _ Hs0. unfold f.
    destruct (pf_rule _ _ _) as [pr|] eqn:Ep; [|done]. simpl.
    apply fold_left_inv; [|apply Hadd; [by eapply Hpf| |done]; eapply Ha; eauto].
    intros s1 n Hn Hs1. case_if; [|done]. apply Hadd; [done| |done]. eapply Ha; eauto. }
  clearbody acc. destruct acc as [s1 e]. case_if; [|done]. by intros [= <-].
Qed.

Lemma exclude_profile_inv p nets st st' :
  (forall fam l pfx gw iface, profilePrefixes p inp !! fam = Some l ->
     pfx ∈ Aggregate (outsideTunnels (outsideTunnels l nets) (in_Tailscale inp)) ->
     resolveGateway (pf_Gateway p) fam inp = inr (gw, iface) ->
     P (mkMR (exclude_rt inp p fam gw iface pfx) (pf_ID p) (in_Now inp))) ->
  binv st -> exclude_profile fam_order inp p nets st = inr st' -> binv st'.
Proof.
  intros Hp Hi. unfold exclude_profile, try.
  destruct (fold_err _ _ _) as [|x] eqn:E; [done|].
  assert (binv (x_st x)) as Hx.
  { revert E. apply (fold_err_ind (fun x => binv (x_st x))); [|done].
    intros y [fam l] y' He%elem_of_range_fams Hy. unfold exclude_family. case_if; [by intros [= <-]|].
    destruct (resolveGateway _ _ _) as [err|[gw iface]] eqn:Eg.
    - case_if; [|done]. by intros [= <-].
    - intros [= <-]. simpl. apply fold_left_inv; [|done]. intros s pfx Hpfx Hs.
      apply binv_add_route; [done|]. by eapply Hp. }
  destruct (x_err x); [case_if; [done|]|]; by intros [= <-].
Qed.
End build_inv.

(** ** Where the desired routes and rules come from *)

Section origins.
Context (fam_order : list Family) (inp : DesiredInput) (Hin : input_ok inp).
Abbreviation tunnel_nets := (tp_nets (PlanTunnels inp)).

(** An exclude profile's bypass route. *)
Definition from_exclude (r : ManagedRoute) : Prop :=
  exists p fam pfx gw iface, p ∈ in_Profiles inp /\ pf_Enabled p = true /\
    pf_Mode p <> ModeInclude /\ pf_Mode p <> ModeTunnel /\
    resolveGateway (pf_Gateway p) fam inp = inr (gw, iface) /\
    r = mkMR (exclude_rt inp p fam gw iface pfx) (pf_ID p) (in_Now inp) /\
    canon pfx /\ famOf (p_addr pfx) = fam /\
    inside_any pfx tunnel_nets = false /\ inside_any pfx (in_Tailscale inp) = false /\
    forall a, Contains pfx a = true -> covered (at_key (profilePrefixes p inp) fam) a = true.

(** The default of the include table. *)
Definition from_default (r : ManagedRoute) : Prop :=
  exists fam gw iface, (fam = FamilyV4 \/ fam = FamilyV6) /\ vpnFor fam inp = (gw, iface) /\ iface <> "" /\
    r = mkMR (default_rt inp fam gw iface) modelBProfileTag (in_Now inp).

Definition route_origin (r : ManagedRoute) : Prop :=
  from_exclude r \/ r ∈ tp_Routes (PlanTunnels inp) \/ from_default r.

(** An include profile's destination rule: never over a tunnel's network. *)
Definition from_include (r : ManagedRule) : Prop :=
  exists p fam pfx, p ∈ in_Profiles inp /\ pf_Enabled p = true /\ pf_Mode p = ModeInclude /\
    ml_ProfileID r = pf_ID p /\ canon pfx /\ famOf (p_addr pfx) = fam /\
    (if in_Platform inp =s? "darwin" then pf_rule inp ("to " +:+ prefix_String pfx) fam = Some (ml_Rule r)
     else ml_Rule r = dest_rule inp fam pfx) /\
    forall a, Contains pfx a = true ->
      covered (at_key (profilePrefixes p inp) fam) a = true /\ covered tunnel_nets a = false /\
      (in_Platform inp = "darwin" -> covered (in_Tailscale inp) a = false).

(** An app rule's. *)
Definition from_app (r : ManagedRule) : Prop :=
  exists p rl, p ∈ in_Profiles inp /\ pf_Enabled p = true /\ pf_Mode p = ModeInclude /\ rl ∈ pf_Rules p /\
    r_Type rl = RuleApp /\
    (if in_Platform inp =s? "darwin" then
       IsUIDLike (r_Value rl) = true /\
       ((exists fam, pf_rule inp ("user " +:+ r_Value rl) fam = Some (ml_Rule r)) \/
        (exists fam n, n ∈ in_Tailscale inp /\ ml_Rule r = pf_pass fam (r_Value rl) n))
     else ml_Rule r = app_rule inp).

Definition rule_origin (r : ManagedRule) : Prop := from_include r \/ from_app r.

Lemma tunnel_nets_ok : Forall prefix_ok tunnel_nets.
Proof.
  destruct (PlanTunnels_inv inp Hin) as (taken & [_ _ _ Hc] & _). eapply Forall_impl; [exact Hc|].
  by intros p (? & _).
Qed.

Lemma profile_prefixes_valid p fam l :
  profilePrefixes p inp !! fam = Some l ->
  Forall valid_prefix l /\ Forall (fun q => famOf (p_addr q) = fam) l.
Proof.
  intros H%profilePrefixes_ok. split; (eapply Forall_impl; [exact H|]); by intros q [??].
Qed.

Lemma valid_ok l : Forall valid_prefix l -> Forall prefix_ok l.
Proof. intros H. eapply Forall_impl; [exact H|]. by intros q [? _]. Qed.

Lemma exclude_origin p nets fam l pfx gw iface :
  nets = tunnel_nets ->
  p ∈ in_Profiles inp -> pf_Enabled p = true -> pf_Mode p <> ModeInclude -> pf_Mode p <> ModeTunnel ->
  profilePrefixes p inp !! fam = Some l ->
  pfx ∈ Aggregate (outsideTunnels (outsideTunnels l nets) (in_Tailscale inp)) ->
  resolveGateway (pf_Gateway p) fam inp = inr (gw, iface) ->
  route_origin (mkMR (exclude_rt inp p fam gw iface pfx) (pf_ID p) (in_Now inp)).
Proof.
  intros -> Hp He Hm1 Hm2 El Hpfx Hg. left. destruct (profile_prefixes_valid p fam l El) as [Hv%valid_ok Hf].
  pose proof tunnel_nets_ok as Hn. pose proof (io_tailscale inp Hin) as Ht.
  set (l' := outsideTunnels _ _) in *.
  assert (forall q, q ∈ l' -> q ∈ l /\ inside_any q tunnel_nets = false /\ inside_any q (in_Tailscale inp) = false) as Hl'.
  { intros q Hq. unfold l' in Hq. rewrite !elem_of_outsideTunnels in Hq. tauto. }
  assert (Forall prefix_ok l') as Hok'.
  { apply Forall_forall. intros q [Hq _]%Hl'. rewrite Forall_forall in Hv. by apply Hv. }
  pose proof (Aggregate_ok l' Hok') as Hc. rewrite Forall_forall in Hc.
  assert (forall a, Contains pfx a = true -> covered l a = true) as Hcov.
  { intros a Ha. assert (covered l' a = true) as (q & [Hq _]%Hl' & Hqa)%covered_in.
    - rewrite <- (Aggregate_cover l') by done. apply covered_in. eauto.
    - apply covered_in. eauto. }
  exists p, fam, pfx, gw, iface. split_and!; try done; try apply (Hc pfx Hpfx).
  - by apply (covered_family pfx l); [apply Hc|..].
  - apply (Aggregate_outside l'); [done..|]. intros q Hq. by apply Hl'.
  - apply (Aggregate_outside l'); [done..|]. intros q Hq. by apply Hl'.
  - intros a Ha. unfold at_key. rewrite El. by apply Hcov.
Qed.

(** Cutting around the tunnels, then aggregating, keeps to the profile's own
    destinations and off the tunnels'. *)
Lemma around_origin p fam l pfx :
  (around inp tunnel_nets <$> profilePrefixes p inp) !! fam = Some l -> pfx ∈ Aggregate l ->
  canon pfx /\ famOf (p_addr pfx) = fam /\
  forall a, Contains pfx a = true ->
    covered (at_key (profilePrefixes p inp) fam) a = true /\ covered tunnel_nets a = false /\
    (in_Platform inp = "darwin" -> covered (in_Tailscale inp) a = false).
Proof.
  rewrite lookup_fmap. destruct (profilePrefixes p inp !! fam) as [l0|] eqn:El; [|done]. simpl. intros [= <-] Hpfx.
  destruct (profile_prefixes_valid p fam l0 El) as [Hv Hf].
  pose proof tunnel_nets_ok as Hn. pose proof (io_tailscale inp Hin) as Ht.
  destruct (aroundTunnels_spec l0 tunnel_nets Hv Hn) as [Hv1 Hc1].
  destruct (aroundTunnels_spec _ (in_Tailscale inp) Hv1 Ht) as [Hv2 Hc2].
  assert (Forall valid_prefix (around inp tunnel_nets l0) /\
    forall a, covered (around inp tunnel_nets l0) a = true -> covered l0 a = true /\ covered tunnel_nets a = false /\
      (in_Platform inp = "darwin" -> covered (in_Tailscale inp) a = false)) as [Hva Hca].
  { unfold around. destruct (String.eqb_spec (in_Platform inp) "darwin").
    - split; [done|]. intros a. rewrite Hc2, Hc1. intros. bool_hyps. done.
    - split; [done|]. intros a. rewrite Hc1. intros. bool_hyps. split_and!; [done..|]. congruence. }
  pose proof (Aggregate_ok _ (valid_ok _ Hva)) as Hc. rewrite Forall_forall in Hc.
  assert (forall a, Contains pfx a = true -> covered (around inp tunnel_nets l0) a = true) as Hcov.
  { intros a Ha. rewrite <- Aggregate_cover by (by apply valid_ok). apply covered_in. eauto. }
  unfold at_key. rewrite El. simpl. refine (conj (Hc pfx Hpfx) (conj _ _)).
  - apply (covered_family pfx l0); [by apply Hc| |done]. intros a Ha. by apply Hca, Hcov.
  - intros a Ha. by apply Hca, Hcov.
Qed.

Lemma build_profile_inv st p st' :
  p ∈ in_Profiles inp -> binv route_origin rule_origin st ->
  build_profile fam_order inp tunnel_nets st p = inr st' -> binv route_origin rule_origin st'.
Proof.
  intros Hp Hi. unfold build_profile. destruct (pf_Enabled p) eqn:He; simpl; [|by intros [= <-]].
  destruct (String.eqb_spec (pf_Mode p) ModeTunnel) as [|Hmt]; [by intros [= <-]|].
  destruct (String.eqb_spec (pf_Mode p) ModeInclude) as [Hmi|Hmi].
  - case_if; [done|]. destruct (in_Platform inp =s? "darwin") eqn:Hpl.
    + apply darwin_include_inv; [| |done].
      * intros fam l pfx pr El Hpfx Hpr. left. destruct (around_origin p fam l pfx El Hpfx) as (H1 & H2 & H3).
        exists p, fam, pfx. simpl. rewrite Hpl. split_and!; try done; apply H1.
      * intros rl pr Hrl Ht Hu Hpr. right. exists p, rl. rewrite Hpl. split_and!; done.
    + intros [= <-]. apply linux_include_inv; [| |done].
      * intros fam l pfx El Hpfx. left. destruct (around_origin p fam l pfx El Hpfx) as (H1 & H2 & H3).
        exists p, fam, pfx. simpl. rewrite Hpl. split_and!; try done; apply H1.
      * intros (rl & Hrl & Ht)%existsb_in. apply String.eqb_eq in Ht. right. exists p, rl.
        rewrite Hpl. split_and!; done.
  - apply exclude_profile_inv; [|done]. intros fam l pfx gw iface El Hpfx Hg. by eapply exclude_origin.
Qed.

(** *** Placing the tunnels' routes *)

Lemma famOf_no_bar a : no_bar (famOf a) = true.
Proof. by destruct (famOf_v4 a) as [-> | ->]. Qed.

Lemma route_origin_wf r : route_origin r -> dst_wf (mr_Route r).
Proof.
  intros [H|[H|H]].
  - destruct H as (p & fam & pfx & gw & iface & _ & _ & _ & _ & _ & -> & (Hc & _) & <- & _).
    split_and!; simpl; [apply famOf_no_bar|done|by apply prefix_String_no_bar].
  - destruct (PlanTunnels_inv inp Hin) as (taken & [_ _ Hk _] & _). rewrite Forall_forall in Hk.
    destruct (Hk r H) as [(t & a & gw & iface & Ht & Ha & _ & _ & ->)|(t & p & _ & ((Hc & _) & _) & _ & _ & E1 & E2 & _ & E3 & _)].
    + split_and!; simpl; [apply famOf_no_bar|done|]. apply prefix_String_no_bar, PrefixFrom_ok.
      pose proof (sorted_servers_ok inp Hin) as Hs. rewrite Forall_forall in Hs. specialize (Hs t Ht).
      rewrite Forall_forall in Hs. apply Hs, elem_of_app. by left.
    + unfold dst_wf. rewrite E1, E2, E3. split_and!; [apply famOf_no_bar|done|by apply prefix_String_no_bar].
  - destruct H as (fam & gw & iface & Hf & _ & _ & ->). split_and!; simpl; [by destruct Hf as [-> | ->]|done|by case_if].
Qed.

Lemma place_loop_ok l : forall taken acc,
  (forall x, x ∈ fst acc <-> x ∈ rkeys (snd acc)) -> NoDup (rkeys (snd acc)) -> Forall route_origin (snd acc) ->
  (forall r, r ∈ l -> r ∈ tp_Routes (PlanTunnels inp)) ->
  (forall x, x ∈ taken <-> x ∈ dsts (snd acc)) ->
  let r := place_loop l taken acc in
  (forall x, x ∈ fst r <-> x ∈ rkeys (snd r)) /\ NoDup (rkeys (snd r)) /\ Forall route_origin (snd r) /\
  (forall x, x ∈ snd acc -> x ∈ snd r) /\ (forall x, x ∈ dsts l -> x ∈ dsts (snd r)).
Proof.
  induction l as [|r l IH]; intros taken acc Hs Hn Ho Hl Ht; cbn [place_loop].
  { split_and!; [done..|]. intros x Hx. by apply elem_of_nil in Hx. }
  assert (forall x, x ∈ l -> x ∈ tp_Routes (PlanTunnels inp)) as Hl' by (intros; apply Hl; by right).
  case_bool_decide as Hk.
  - destruct (IH taken acc Hs Hn Ho Hl' Ht) as (H1 & H2 & H3 & H4 & H5). split_and!; [done..|].
    intros x [->|Hx]%elem_of_cons; [|by apply H5]. apply Ht, elem_of_dsts in Hk as (r0 & Hr0 & <-).
    apply elem_of_dsts. eauto.
  - destruct acc as [seen routes]. simpl in *.
    assert (route_origin r) as Hr by (right; left; apply Hl; by left).
    assert (mkMR (mr_Route r) (mr_ProfileID r) (mr_CreatedAt r) = r) as Er by (by destruct r).
    destruct (addRoute_inv route_origin seen routes (mr_Route r) (mr_ProfileID r) (mr_CreatedAt r))
      as (A1 & A2 & A3 & A4 & A5); [done..|by rewrite Er|].
    assert (RouteKey (mr_Route r) ∉ seen) as Hseen.
    { rewrite Hs. intros (r0 & Hr0 & E)%elem_of_rkeys. apply Hk, Ht, elem_of_dsts. exists r0. split; [done|].
      rewrite Forall_forall in Ho. apply RouteKey_dst; [by apply route_origin_wf, Ho|by apply route_origin_wf|done]. }
    assert (snd (addRoute (seen, routes) (mr_Route r) (mr_ProfileID r) (mr_CreatedAt r)) = routes ++ [r]) as E.
    { unfold addRoute. rewrite bool_decide_false by done. by rewrite Er. }
    edestruct (IH ({[dstKey (mr_Route r)]} ∪ taken) (addRoute (seen, routes) (mr_Route r) (mr_ProfileID r) (mr_CreatedAt r)))
      as (H1 & H2 & H3 & H4 & H5); [done..| |].
    + intros x. rewrite E. unfold dsts. rewrite map_app, elem_of_app. simpl.
      rewrite list_elem_of_singleton, elem_of_union, elem_of_singleton, Ht. unfold dsts. tauto.
    + cbv zeta. split_and!; [done..| |].
      * intros x Hx. by apply H4, A4.
      * intros x [->|Hx]%elem_of_cons; [|by apply H5]. apply elem_of_dsts. exists r. split; [|done].
        apply H4. rewrite E. apply elem_of_app. right. by apply list_elem_of_singleton.
Qed.

Lemma place_ok st :
  binv route_origin rule_origin st ->
  let r := place (PlanTunnels inp) (b_seenRoute st, b_routes st) in
  binv route_origin rule_origin (mkBuild (fst r) (snd r) (b_seenRule st) (b_rules st) (b_fams st)) /\
  (forall x, x ∈ b_routes st -> x ∈ snd r) /\
  (forall x, x ∈ dsts (tp_Routes (PlanTunnels inp)) -> x ∈ dsts (snd r)).
Proof.
  intros [I1 I2 I3 I4 I5 I6 I7]. unfold place. simpl.
  destruct (place_loop_ok (tp_Routes (PlanTunnels inp)) (list_to_set (dsts (b_routes st))) (b_seenRoute st, b_routes st))
    as (H1 & H2 & H3 & H4 & H5); [done..| |].
  - intros x. by rewrite elem_of_list_to_set.
  - split_and!; [|done..]. by constructor.
Qed.

(** *** The table's defaults *)

Context (Hord : fam_order ≡ₚ [FamilyV4; FamilyV6]).

Lemma build_default_inv st fam st' :
  fam = FamilyV4 \/ fam = FamilyV6 -> binv route_origin rule_origin st -> build_default inp st fam = inr st' ->
  binv route_origin rule_origin st' /\ (forall r, r ∈ b_routes st -> r ∈ b_routes st') /\
  b_rules st' = b_rules st /\ b_fams st' = b_fams st /\
  exists gw iface, vpnFor fam inp = (gw, iface) /\ iface <> "" /\
    RouteKey (default_rt inp fam gw iface) ∈ rkeys (b_routes st').
Proof.
  intros Hf Hi. unfold build_default. destruct (vpnFor fam inp) as [gw iface] eqn:Ev.
  destruct (String.eqb_spec iface "") as [|Hne]; [done|]. intros [= <-].
  assert (route_origin (mkMR (default_rt inp fam gw iface) modelBProfileTag (in_Now inp))) as Ho.
  { right. right. exists fam, gw, iface. done. }
  split; [by apply binv_add_route|]. destruct Hi as [I1 I2 _ _ I5 _ _]. unfold b_add_route.
  destruct (addRoute_inv route_origin (b_seenRoute st) (b_routes st) (default_rt inp fam gw iface) modelBProfileTag
    (in_Now inp)) as (_ & _ & _ & H4 & H5); [done..|].
  destruct (addRoute _ _ _ _) as [seen routes]. simpl. split_and!; [done..|]. eauto.
Qed.

Lemma build_set_inv st :
  build_set fam_order inp = inr st ->
  binv route_origin rule_origin st /\
  (forall x, x ∈ dsts (tp_Routes (PlanTunnels inp)) -> x ∈ dsts (b_routes st)) /\
  (forall r, r ∈ b_rules st -> pr_Table (ml_Rule r) = ModelBTable ->
     pr_Family (ml_Rule r) = FamilyV4 \/ pr_Family (ml_Rule r) = FamilyV6 ->
     exists gw iface, vpnFor (pr_Family (ml_Rule r)) inp = (gw, iface) /\ iface <> "" /\
       RouteKey (default_rt inp (pr_Family (ml_Rule r)) gw iface) ∈ rkeys (b_routes st)).
Proof.
  unfold build_set, try. destruct (fold_err _ (by_priority _) _) as [|st1] eqn:E1; [done|].
  assert (binv route_origin rule_origin st1) as H1.
  { revert E1. apply fold_err_ind.
    - intros a p a' Hp. apply build_profile_inv. unfold by_priority in Hp. by rewrite elem_of_slice_stable in Hp.
    - constructor; simpl; [set_solver|apply NoDup_nil_2|set_solver|apply NoDup_nil_2|constructor|constructor|].
      intros r Hr. by apply elem_of_nil in Hr. }
  destruct (place_ok st1 H1) as (H2 & _ & H3). destruct (place _ _) as [seen routes]. simpl in H2, H3.
  set (st2 := mkBuild seen routes (b_seenRule st1) (b_rules st1) (b_fams st1)) in *.
  intros E2.
  assert (forall fam, fam ∈ keep_if (fun fam => bool_decide (fam ∈ b_fams st2)) fam_order ->
    fam = FamilyV4 \/ fam = FamilyV6) as Hfo.
  { intros fam Hf. apply elem_of_keep_if in Hf as [Hf _]. rewrite Hord in Hf. set_solver. }
  set (I st := binv route_origin rule_origin st /\ b_rules st = b_rules st1 /\ b_fams st = b_fams st1 /\
                forall r, r ∈ routes -> r ∈ b_routes st).
  assert (I st2) as HI2 by done.
  assert (forall a fam a', fam ∈ keep_if (fun fam => bool_decide (fam ∈ b_fams st2)) fam_order -> I a ->
    build_default inp a fam = inr a' -> I a' /\ forall x, x ∈ rkeys (b_routes a) -> x ∈ rkeys (b_routes a')) as Hstep.
  { intros a fam a' Hf (J1 & J2 & J3 & J4) E. destruct (build_default_inv a fam a' (Hfo fam Hf) J1 E) as (K1 & K2 & K3 & K4 & _).
    split; [split_and!; try done; [apply K1..|congruence|congruence|auto]|].
    intros x. rewrite !elem_of_rkeys. naive_solver. }
  pose proof (fold_err_ind I (build_default inp) _ (fun a b a' Hb Ha E => proj1 (Hstep a b a' Hb Ha E)) st2 st HI2 E2)
    as (J1 & J2 & J3 & J4).
  refine (conj J1 (conj _ _)).
  - intros x Hx. apply H3, elem_of_dsts in Hx as (r & Hr & <-). apply elem_of_dsts. eauto.
  - intros r Hr Ht Hf. destruct (vpnFor (pr_Family (ml_Rule r)) inp) as [gw iface] eqn:Ev. exists gw, iface.
    assert (iface <> "" /\ RouteKey (default_rt inp (pr_Family (ml_Rule r)) gw iface) ∈ rkeys (b_routes st)) as [??]; [|done].
    refine (fold_err_at I (fun a => iface <> "" /\ RouteKey (default_rt inp (pr_Family (ml_Rule r)) gw iface) ∈ rkeys (b_routes a))
      (build_default inp) _ (pr_Family (ml_Rule r)) _ _ _ st2 st HI2 E2).
    + apply elem_of_keep_if. split; [rewrite Hord; set_solver|]. apply bool_decide_eq_true. simpl. rewrite <- J3.
      destruct J1 as [_ _ _ _ _ _ J7]. by apply J7.
    + intros a y a' Hy Ha E. destruct (Hstep a y a' Hy Ha E) as [? Hk]. split; [done|]. intros [??]. auto.
    + intros a a' (J & _) E. destruct (build_default_inv a _ a' Hf J E) as (_ & _ & _ & _ & gw' & if' & E' & ? & ?).
      rewrite Ev in E'. by injection E' as <- <-.
Qed.
End origins.

(** ** Beside a Tailscale *)

Section beside.
Context (inp : DesiredInput) (Hin : input_ok inp).

Lemma origin_table r : route_origin inp r -> rt_Table (mr_Route r) = "" \/ rt_Table (mr_Route r) = ModelBTable.
Proof.
  intros [H|[H|H]].
  - destruct H as (p & fam & pfx & gw & iface & _ & _ & _ & _ & _ & -> & _). by left.
  - left. destruct (PlanTunnels_inv inp Hin) as (taken & [_ _ Hk _] & _). rewrite Forall_forall in Hk.
    destruct (Hk r H) as [(t & a & gw & iface & _ & _ & _ & _ & ->)|(t & p & _ & _ & _ & _ & _ & _ & _ & E & _)]; done.
  - destruct H as (fam & gw & iface & _ & _ & _ & ->). by right.
Qed.

Lemma origin_family r :
  route_origin inp r -> rt_Family (mr_Route r) = FamilyV4 \/ rt_Family (mr_Route r) = FamilyV6.
Proof.
  intros [H|[H|H]].
  - destruct H as (p & fam & pfx & gw & iface & _ & _ & _ & _ & _ & -> & _ & <- & _). apply famOf_v4.
  - destruct (PlanTunnels_inv inp Hin) as (taken & [_ _ Hk _] & _). rewrite Forall_forall in Hk.
    destruct (Hk r H) as [(t & a & gw & iface & _ & _ & _ & _ & ->)|(t & p & _ & _ & _ & _ & _ & E & _)].
    + apply famOf_v4.
    + rewrite E. apply famOf_v4.
  - destruct H as (fam & gw & iface & Hf & _ & _ & ->). done.
Qed.

(** The rules a profile makes: on macOS none has a table; elsewhere all have
    Model B's priority and table. *)
Lemma origin_rule r :
  rule_origin inp r ->
  if in_Platform inp =s? "darwin" then pr_Table (ml_Rule r) = ""
  else pr_Table (ml_Rule r) = ModelBTable /\ pr_Priority (ml_Rule r) = ModelBRulePrio /\
       (pr_Family (ml_Rule r) = FamilyV4 \/ pr_Family (ml_Rule r) = FamilyV6).
Proof.
  assert (forall sel fam pr, pf_rule inp sel fam = Some pr -> pr_Table pr = "") as Hpf.
  { intros sel fam pr. unfold pf_rule. destruct (vpnFor fam inp). case_if; [done|]. by intros [= <-]. }
  intros [(p & fam & pfx & _ & _ & _ & _ & _ & Hf & H & _)|(p & rl & _ & _ & _ & _ & _ & H)].
  - destruct (in_Platform inp =s? "darwin"); [by eapply Hpf|]. rewrite H. split_and!; [done..|].
    simpl. rewrite <- Hf. apply famOf_v4.
  - destruct (in_Platform inp =s? "darwin").
    + destruct H as [_ [(fam & H)|(fam & n & _ & ->)]]; [by eapply Hpf|done].
    + rewrite H. split_and!; [done..|by left].
Qed.

(** What [BesideTailscale] adds to a desired set, which holds none of it. *)
Definition main_routes (routes : list ManagedRoute) : list ManagedRoute :=
  keep_if (fun r => rt_Table (mr_Route r) =s? "") routes.
Definition ts_families : list Family :=
  keep_if (fun fam => bool_decide (fam ∈ map (fun n => famOf (p_addr n)) (in_Tailscale inp))) [FamilyV4; FamilyV6].
Definition main_families (routes : list ManagedRoute) : list Family :=
  keep_if (fun fam => bool_decide (fam ∈ map (fun r => rt_Family (mr_Route r)) (main_routes routes))) [FamilyV4; FamilyV6].

Definition with_tailscale : bool := negb ((in_TailscaleTable inp =s? "") || (in_Platform inp =s? "darwin")).

Lemma BesideTailscale_eq routes rules :
  Forall (route_origin inp) routes -> Forall (rule_origin inp) rules ->
  BesideTailscale inp routes rules =
  (routes ++ (if with_tailscale && in_TailscaleExitNode inp
              then map (fun r => set_table r BypassTable) (main_routes routes) else []),
   rules ++ (if with_tailscale then map (tailscale_rule inp) ts_families else []) ++
            (if with_tailscale && in_TailscaleExitNode inp then map (bypass_rule inp) (main_families routes) else [])).
Proof.
  intros Hr Hl. rewrite Forall_forall in Hr. rewrite Forall_forall in Hl. unfold BesideTailscale, with_tailscale.
  assert (keep_if (fun r => negb (rt_Table (mr_Route r) =s? BypassTable)) routes = routes) as E1.
  { apply keep_if_all. intros r Hr'. apply Hr, origin_table in Hr' as [-> | ->]; done. }
  assert (keep_if (fun r => negb ((pr_Table (ml_Rule r) =s? BypassTable) ||
            ((pr_Priority (ml_Rule r) =? TailscaleRulePrio) && negb (pr_Table (ml_Rule r) =s? "")))) rules = rules) as E2.
  { apply keep_if_all. intros r Hr'. apply Hl, origin_rule in Hr'. destruct (in_Platform inp =s? "darwin").
    - rewrite Hr'. simpl. by rewrite andb_false_r.
    - destruct Hr' as (-> & -> & _). done. }
  rewrite E1, E2. destruct ((in_TailscaleTable inp =s? "") || (in_Platform inp =s? "darwin")); simpl.
  { by rewrite !app_nil_r. }
  destruct (in_TailscaleExitNode inp); simpl; [by rewrite <- app_assoc|by rewrite !app_nil_r].
Qed.

(** *** Its keys are new *)

Lemma set_table_key r table :
  RouteKey (mr_Route (set_table r table)) =
  rt_Family (mr_Route r) +:+ "|" +:+ table +:+ "|" +:+ rt_DstCIDR (mr_Route r) +:+ "|" +:+
  rt_Gateway (mr_Route r) +:+ "|" +:+ key_tail (mr_Route r).
Proof. by rewrite RouteKey_split. Qed.

Lemma table_of_key r1 r2 :
  dst_wf (mr_Route r1) -> dst_wf (mr_Route r2) -> RouteKey (mr_Route r1) = RouteKey (mr_Route r2) ->
  rt_Table (mr_Route r1) = rt_Table (mr_Route r2).
Proof.
  intros (F1 & T1 & _) (F2 & T2 & _) E. rewrite !RouteKey_split in E.
  apply bar_split in E as [_ E]; [|done..]. by apply bar_split in E as [-> _].
Qed.

Lemma copies_keys routes :
  Forall (route_origin inp) routes -> NoDup (rkeys routes) ->
  NoDup (rkeys (routes ++ map (fun r => set_table r BypassTable) (main_routes routes))).
Proof.
  intros Ho Hn. rewrite Forall_forall in Ho.
  assert (forall r, r ∈ main_routes routes -> r ∈ routes /\ rt_Table (mr_Route r) = "") as Hm.
  { intros r. unfold main_routes. rewrite elem_of_keep_if. by intros [? ?%String.eqb_eq]. }
  unfold rkeys at 1. rewrite map_app, map_map. apply NoDup_app. split_and!; [done| |].
  - intros x (r & -> & Hr)%list_elem_of_fmap (r' & E & [Hr' _]%Hm)%list_elem_of_fmap.
    pose proof (route_origin_wf inp Hin r (Ho r Hr)) as W. pose proof (route_origin_wf inp Hin r' (Ho r' Hr')) as (W1 & _ & W3).
    apply table_of_key in E; [|done|done].
    simpl in E. destruct (origin_table r (Ho r Hr)) as [E0|E0]; rewrite E0 in E; done.
  - assert (NoDup (rkeys (main_routes routes))) as Hn'.
    { eapply sublist_NoDup; [exact Hn|]. apply sublist_map, keep_if_sublist. }
    apply NoDup_fmap_2_strong; [|by eapply NoDup_fmap_1].
    intros r1 r2 Hr1 Hr2 E. apply (NoDup_map_inj _ _ _ _ Hn' Hr1 Hr2).
    destruct (Hm r1 Hr1) as [Hi1 E1], (Hm r2 Hr2) as [Hi2 E2].
    destruct (route_origin_wf inp Hin r1 (Ho r1 Hi1)) as (W1 & _), (route_origin_wf inp Hin r2 (Ho r2 Hi2)) as (W2 & _).
    rewrite !set_table_key in E. rewrite !RouteKey_split, E1, E2.
    apply bar_split in E as [-> E]; [|done..]. apply bar_split in E as [_ E]; [|done..]. by rewrite E.
Qed.

Lemma rule_key_prio r1 r2 : RuleKey r1 = RuleKey r2 -> pr_Priority r1 = pr_Priority r2.
Proof.
  intros E. rewrite !RuleKey_split in E.
  by apply bar_split in E as [E%(inj pretty) _]; [|apply pretty_Z_no_bar..].
Qed.

(** Rules that differ only in their family have different keys. *)
Lemma fam_rules_keys (mk : Family -> ManagedRule) fams :
  (forall f1 f2, RuleKey (ml_Rule (mk f1)) = RuleKey (ml_Rule (mk f2)) -> f1 = f2) ->
  NoDup fams -> NoDup (ruleKeys (map mk fams)).
Proof.
  intros Hmk Hn. unfold ruleKeys. rewrite map_map. apply NoDup_fmap_2_strong; [|done]. intros; by apply Hmk.
Qed.

Lemma two_families f : NoDup (keep_if f [FamilyV4; FamilyV6]).
Proof. eapply sublist_NoDup; [|apply keep_if_sublist]. by apply (bool_decide_unpack (NoDup _)). Qed.

Lemma tailscale_key f1 f2 :
  RuleKey (ml_Rule (tailscale_rule inp f1)) = RuleKey (ml_Rule (tailscale_rule inp f2)) -> f1 = f2.
Proof. intros E. unfold RuleKey in E. simpl in E. by simplify_eq. Qed.

Lemma bypass_key f1 f2 :
  RuleKey (ml_Rule (bypass_rule inp f1)) = RuleKey (ml_Rule (bypass_rule inp f2)) -> f1 = f2.
Proof. intros E. unfold RuleKey in E. simpl in E. by simplify_eq. Qed.

Lemma beside_rule_keys routes rules :
  Forall (rule_origin inp) rules -> NoDup (ruleKeys rules) ->
  NoDup (ruleKeys (rules ++ (if with_tailscale then map (tailscale_rule inp) ts_families else []) ++
    (if with_tailscale && in_TailscaleExitNode inp then map (bypass_rule inp) (main_families routes) else []))).
Proof.
  intros Ho Hn. rewrite Forall_forall in Ho. destruct with_tailscale eqn:Ew; [|by rewrite app_nil_r].
  assert (in_Platform inp =s? "darwin" = false) as Epl.
  { unfold with_tailscale in Ew. apply negb_true_iff, orb_false_elim in Ew as [_ ->]. done. }
  set (L2 := map (tailscale_rule inp) ts_families).
  set (L3 := if true && in_TailscaleExitNode inp then _ else _).
  assert (NoDup (ruleKeys L2)) as N2 by (apply fam_rules_keys; [apply tailscale_key|apply two_families]).
  assert (NoDup (ruleKeys L3)) as N3.
  { unfold L3. destruct (true && _); [|apply NoDup_nil_2]. apply fam_rules_keys; [apply bypass_key|apply two_families]. }
  assert (forall r, r ∈ rules -> pr_Priority (ml_Rule r) = ModelBRulePrio) as P1.
  { intros r Hr%Ho%origin_rule. rewrite Epl in Hr. by destruct Hr as (_ & ? & _). }
  assert (forall r, r ∈ L2 -> pr_Priority (ml_Rule r) = TailscaleRulePrio) as P2.
  { intros r (f & -> & _)%list_elem_of_fmap. done. }
  assert (forall r, r ∈ L3 -> pr_Priority (ml_Rule r) = BypassRulePrio) as P3.
  { unfold L3. destruct (true && _); intros r Hr; [|by apply elem_of_nil in Hr]. by apply list_elem_of_fmap in Hr as (f & -> & _). }
  unfold ruleKeys in *. rewrite !map_app. rewrite !NoDup_app. split_and!; [done| |done| |done].
  - intros x (r & -> & Hr)%list_elem_of_fmap [(r' & E & Hr')%list_elem_of_fmap|(r' & E & Hr')%list_elem_of_fmap]%elem_of_app;
      apply rule_key_prio in E; rewrite (P1 r Hr) in E; [rewrite (P2 r' Hr') in E|rewrite (P3 r' Hr') in E]; done.
  - intros x (r & -> & Hr)%list_elem_of_fmap (r' & E & Hr')%list_elem_of_fmap.
    apply rule_key_prio in E. by rewrite (P2 r Hr), (P3 r' Hr') in E.
Qed.

End beside.

(** ** The result *)

Section result.
Context (fam_order : list Family) (inp : DesiredInput) (Hin : input_ok inp).
Context (Hord : fam_order ≡ₚ [FamilyV4; FamilyV6]).
Context (routes : list ManagedRoute) (rules : list ManagedRule).
Context (Hres : BuildDesired fam_order inp = inr (routes, rules)).

(** A desired set is the built set with what a Tailscale beside it needs, in
    key order. *)
Lemma BuildDesired_eq :
  exists st, build_set fam_order inp = inr st /\ binv (route_origin inp) (rule_origin inp) st /\
    routes = sort_routes (b_routes st ++ (if with_tailscale inp && in_TailscaleExitNode inp
              then map (fun r => set_table r BypassTable) (main_routes (b_routes st)) else [])) /\
    rules = sort_rules (b_rules st ++ (if with_tailscale inp then map (tailscale_rule inp) (ts_families inp) else []) ++
              (if with_tailscale inp && in_TailscaleExitNode inp
               then map (bypass_rule inp) (main_families (b_routes st)) else [])).
Proof.
  unfold BuildDesired, try in Hres. destruct (build_set fam_order inp) as [|st] eqn:E; [done|].
  destruct (build_set_inv fam_order inp Hin Hord st E) as (Hi & _). exists st. split_and!; [done|done|..];
    (rewrite BesideTailscale_eq in Hres; [|done|apply Hi|apply Hi]; by injection Hres as <- <-).
Qed.

End result.

Lemma elem_of_result_routes inp routes st :
  routes = sort_routes (b_routes st ++ (if with_tailscale inp && in_TailscaleExitNode inp
              then map (fun r => set_table r BypassTable) (main_routes (b_routes st)) else [])) ->
  forall r, r ∈ routes <-> r ∈ b_routes st \/
    with_tailscale inp = true /\ in_TailscaleExitNode inp = true /\
    exists r0, r0 ∈ b_routes st /\ rt_Table (mr_Route r0) = "" /\ r = set_table r0 BypassTable.
Proof.
  intros -> r. unfold sort_routes. rewrite elem_of_slice_stable, elem_of_app.
  destruct (with_tailscale inp && in_TailscaleExitNode inp) eqn:E.
  - apply andb_prop in E as [-> ->]. unfold main_routes. rewrite list_elem_of_fmap.
    setoid_rewrite elem_of_keep_if. setoid_rewrite String.eqb_eq. naive_solver.
  - apply andb_false_iff in E. rewrite elem_of_nil. destruct E as [-> | ->]; naive_solver.
Qed.

(** ** Theorems *)

(** A desired set names each route and each rule once, and lists the routes
    in key order: nothing is installed twice, whatever the profiles, tunnels
    and a Tailscale beside them contribute. *)
Theorem BuildDesired_unique fam_order inp routes rules :
  input_ok inp -> fam_order ≡ₚ [FamilyV4; FamilyV6] -> BuildDesired fam_order inp = inr (routes, rules) ->
  NoDup (rkeys routes) /\ NoDup (ruleKeys rules) /\
  StronglySorted (fun a b => str_less (RouteKey (mr_Route b)) (RouteKey (mr_Route a)) = false) routes.
Proof.
  intros Hin Hord Hres. destruct (BuildDesired_eq fam_order inp Hin Hord routes rules Hres)
    as (st & _ & [_ I2 _ I4 I5 I6 _] & -> & ->). split_and!.
  - unfold sort_routes. unfold rkeys. rewrite (Permutation_map _ (slice_stable_perm _ _)).
    destruct (_ && _); [by apply (copies_keys inp)|by rewrite app_nil_r].
  - unfold sort_rules. unfold ruleKeys. rewrite (Permutation_map _ (slice_stable_perm _ _)).
    by apply beside_rule_keys.
  - apply slice_stable_sorted.
    apply (lt_of_sw (fun a b => String.compare (RouteKey (mr_Route a)) (RouteKey (mr_Route b)))).
Qed.

(** C15: Where traffic is sent, the tunnels win. Every main-table route of a
    desired set is one of the tunnels' or an enabled exclude profile's bypass
    route, whose destination lies inside none of the tunnels' networks and none
    a Tailscale routes, holds only addresses that profile lists, and goes via
    the gateway that profile resolves to; every rule is an include profile's
    destination rule, which selects only addresses that profile lists, and none of
    the tunnels' networks (on macOS, nor a Tailscale's), or Tailscale's own, or
    one of an app rule. Those last select by application or user and not by
    destination, so they do capture what such an app sends to a tunnel's
    networks. *)
Theorem BuildDesired_tunnels_win fam_order inp routes rules :
  input_ok inp -> fam_order ≡ₚ [FamilyV4; FamilyV6] -> BuildDesired fam_order inp = inr (routes, rules) ->
  (forall r, r ∈ routes -> rt_Table (mr_Route r) = "" ->
     from_exclude inp r \/ r ∈ tp_Routes (PlanTunnels inp)) /\
  (forall r, r ∈ rules ->
     from_include inp r \/ from_app inp r \/
     with_tailscale inp = true /\ exists fam, r = tailscale_rule inp fam \/ r = bypass_rule inp fam).
Proof.
  intros Hin Hord Hres. destruct (BuildDesired_eq fam_order inp Hin Hord routes rules Hres)
    as (st & _ & [_ _ _ _ I5 I6 _] & Er & El).
  rewrite Forall_forall in I5. rewrite Forall_forall in I6. split.
  - intros r Hr Ht. apply (elem_of_result_routes inp routes st Er) in Hr as [Hr|(_ & _ & r0 & _ & _ & ->)]; [|done].
    destruct (I5 r Hr) as [?|[?|(fam & gw & iface & _ & _ & _ & ->)]]; [by left|by right|done].
  - intros r Hr. rewrite El in Hr. unfold sort_rules in Hr. rewrite elem_of_slice_stable, !elem_of_app in Hr.
    destruct Hr as [Hr|[Hr|Hr]].
    + destruct (I6 r Hr); auto.
    + right. right. destruct (with_tailscale inp); [|by apply elem_of_nil in Hr].
      apply list_elem_of_fmap in Hr as (fam & -> & _). eauto.
    + right. right. destruct (with_tailscale inp); [|by apply elem_of_nil in Hr].
      destruct (true && _); [|by apply elem_of_nil in Hr]. apply list_elem_of_fmap in Hr as (fam & -> & _). eauto.
Qed.

(** A policy rule never points at an empty table: each rule of a desired
    set that looks up Model B's table has, in the same set, that table's
    default route of its family, into the VPN's live interface. *)
Theorem BuildDesired_table_default fam_order inp routes rules r :
  input_ok inp -> fam_order ≡ₚ [FamilyV4; FamilyV6] -> BuildDesired fam_order inp = inr (routes, rules) ->
  r ∈ rules -> pr_Table (ml_Rule r) = ModelBTable -> in_TailscaleTable inp <> ModelBTable ->
  exists gw iface, vpnFor (pr_Family (ml_Rule r)) inp = (gw, iface) /\ iface <> "" /\
    RouteKey (default_rt inp (pr_Family (ml_Rule r)) gw iface) ∈ rkeys routes.
Proof.
  intros Hin Hord Hres Hr Ht Hts. destruct (BuildDesired_eq fam_order inp Hin Hord routes rules Hres)
    as (st & Es & [_ _ _ _ I5 I6 _] & Er & El).
  assert (r ∈ b_rules st) as Hb.
  { rewrite El in Hr. unfold sort_rules in Hr. rewrite elem_of_slice_stable, !elem_of_app in Hr.
    destruct Hr as [Hr|[Hr|Hr]]; [done|exfalso..].
    - destruct (with_tailscale inp); [|by apply elem_of_nil in Hr].
      apply list_elem_of_fmap in Hr as (fam & -> & _). by apply Hts.
    - destruct (with_tailscale inp && _); [|by apply elem_of_nil in Hr].
      by apply list_elem_of_fmap in Hr as (fam & -> & _). }
  rewrite Forall_forall in I6. pose proof (origin_rule inp r (I6 r Hb)) as Ho.
  destruct (build_set_inv fam_order inp Hin Hord st Es) as (_ & _ & Hd).
  destruct (in_Platform inp =s? "darwin"); [by rewrite Ht in Ho|]. destruct Ho as (_ & _ & Hf).
  destruct (Hd r Hb Ht Hf) as (gw & iface & Ev & Hi & Hk). exists gw, iface. split_and!; [done..|].
  apply elem_of_rkeys in Hk as (r0 & Hr0 & E). apply elem_of_rkeys. exists r0. split; [|done].
  apply (elem_of_result_routes inp routes st Er). by left.
Qed.

(** A built set routes every destination of the tunnel plan (a pin may
    meet a profile's host route for the same server, which then carries it);
    and with a Tailscale exit node on, every main-table route has its copy in
    the table looked up before the exit node's, with the rule that looks it up,
    while no other route is in that table. *)
Theorem BuildDesired_complete fam_order inp routes rules :
  input_ok inp -> fam_order ≡ₚ [FamilyV4; FamilyV6] -> BuildDesired fam_order inp = inr (routes, rules) ->
  (forall x, x ∈ dsts (tp_Routes (PlanTunnels inp)) -> x ∈ dsts routes) /\
  (with_tailscale inp = true -> in_TailscaleExitNode inp = true ->
     forall r, r ∈ routes -> rt_Table (mr_Route r) = "" ->
       set_table r BypassTable ∈ routes /\ bypass_rule inp (rt_Family (mr_Route r)) ∈ rules) /\
  (forall r, r ∈ routes -> rt_Table (mr_Route r) = BypassTable ->
     exists r0, r0 ∈ routes /\ rt_Table (mr_Route r0) = "" /\ r = set_table r0 BypassTable).
Proof.
  intros Hin Hord Hres. destruct (BuildDesired_eq fam_order inp Hin Hord routes rules Hres)
    as (st & Es & [_ _ _ _ I5 _ _] & Er & El). rewrite Forall_forall in I5.
  pose proof (elem_of_result_routes inp routes st Er) as He. split_and!.
  - destruct (build_set_inv fam_order inp Hin Hord st Es) as (_ & Hd & _). intros x Hx.
    apply Hd, elem_of_dsts in Hx as (r & Hr & <-). apply elem_of_dsts. exists r. split; [|done]. apply He. by left.
  - intros Hw Hex r Hr Ht. apply He in Hr as [Hr|(_ & _ & r0 & _ & _ & ->)]; [|done]. split.
    + apply He. right. split_and!; eauto.
    + rewrite El, Hw, Hex. unfold sort_rules. rewrite elem_of_slice_stable, !elem_of_app. right. right. simpl.
      apply list_elem_of_fmap. eexists. split; [done|]. unfold main_families. apply elem_of_keep_if. split.
      * destruct (origin_family inp Hin r (I5 r Hr)) as [-> | ->]; set_solver.
      * apply bool_decide_eq_true, list_elem_of_fmap. exists r. split; [done|]. unfold main_routes.
        apply elem_of_keep_if. by rewrite Ht.
  - intros r Hr Ht. apply He in Hr as [Hr|(_ & _ & r0 & Hr0 & Ht0 & ->)].
    + destruct (origin_table inp Hin r (I5 r Hr)) as [E|E]; rewrite Ht in E; done.
    + exists r0. split_and!; [apply He; by left|done|done].
Qed.

(** ** Witnesses *)

(** An exclude and an include profile, a live tunnel over part of both, a VPN
    to include into, and a Tailscale exit node. *)
Definition ex_bypass := mkProfile "bypass" "Bypass" "" true ModeExclude "auto" 10
  [mkRule RuleCIDR "192.168.0.0/16" ""; mkRule RuleIP "192.168.70.9" ""] [] [] "".
Definition ex_into := mkProfile "into" "Into" "" true ModeInclude "" 5 [mkRule RuleCIDR "10.0.0.0/7" ""] [] [] "".
Definition ex_build := mkDesiredInput [ex_into; ex_bypass] (Addr4 3232235777) AddrZero "en0" ""
  (mkPrefix (Addr4 3232235776) 24) PrefixZero (Addr4 2886729729) AddrZero "wg0" "" ∅ ∅ [ex_office; ex_home] []
  [Addr4 134744072] [Addr4 16843009] [mkPrefix (Addr4 1681915904) 10] "52" true "linux" true 0.

Lemma ex_build_ok : input_ok ex_build.
Proof. apply (bool_decide_unpack (input_ok ex_build)). vm_compute. exact I. Defined.

Lemma BuildDesired_unique_witness :
  match BuildDesired [FamilyV6; FamilyV4] ex_build with
  | inr (routes, rules) => (4 <= length routes)%nat /\ NoDup (rkeys routes)
  | inl _ => False
  end.
Proof.
  destruct (BuildDesired [FamilyV6; FamilyV4] ex_build) as [e|[routes rules]] eqn:E;
    [vm_compute in E; discriminate E|].
  split; [vm_compute in E; injection E as <- <-; vm_compute; lia|].
  apply (BuildDesired_unique [FamilyV6; FamilyV4] ex_build routes rules ex_build_ok); [|exact E].
  apply Permutation_swap.
Defined.

Lemma BuildDesired_tunnels_win_witness :
  match BuildDesired [FamilyV4; FamilyV6] ex_build with
  | inr (routes, rules) => Forall (fun r => rt_Table (mr_Route r) = "" ->
      from_exclude ex_build r \/ r ∈ tp_Routes (PlanTunnels ex_build)) routes
  | inl _ => False
  end.
Proof.
  destruct (BuildDesired [FamilyV4; FamilyV6] ex_build) as [e|[routes rules]] eqn:E;
    [vm_compute in E; discriminate E|].
  apply Forall_forall.
  apply (BuildDesired_tunnels_win [FamilyV4; FamilyV6] ex_build routes rules ex_build_ok); [reflexivity|exact E].
Defined.

Lemma BuildDesired_table_default_witness :
  match BuildDesired [FamilyV4; FamilyV6] ex_build with
  | inr (routes, rules) => "v4|5252|0.0.0.0/0|172.16.0.1|wg0" ∈ rkeys routes
  | inl _ => False
  end.
Proof.
  destruct (BuildDesired [FamilyV4; FamilyV6] ex_build) as [e|[routes rules]] eqn:E;
    [vm_compute in E; discriminate E|].
  destruct (BuildDesired_table_default [FamilyV4; FamilyV6] ex_build routes rules
              (mkMRule (dest_rule ex_build FamilyV4 (mkPrefix (Addr4 184549376) 8)) "into" 0) ex_build_ok)
    as (gw & iface & Ev & _ & H); [reflexivity|exact E| |reflexivity|discriminate|].
  - vm_compute in E. injection E as <- <-. apply (bool_decide_unpack (_ ∈ _)). vm_compute. exact I.
  - vm_compute in Ev. injection Ev as <- <-. exact H.
Defined.

Lemma BuildDesired_complete_witness :
  match BuildDesired [FamilyV4; FamilyV6] ex_build with
  | inr (routes, rules) => "v4||203.0.113.5/32" ∈ dsts routes
  | inl _ => False
  end.
Proof.
  destruct (BuildDesired [FamilyV4; FamilyV6] ex_build) as [e|[routes rules]] eqn:E;
    [vm_compute in E; discriminate E|].
  apply (BuildDesired_complete [FamilyV4; FamilyV6] ex_build routes rules ex_build_ok); [reflexivity|exact E|].
  apply (bool_decide_unpack (_ ∈ _)). vm_compute. exact I.
Defined.

(** With an exit node on and only IPv4 Tailscale networks, an IPv6 main-table
    route is copied to the bypass table with no Tailscale rule ahead of it for
    its family. *)
Example copy_without_tailscale_rule :
  let r := mkMR (mkRoute "2001:db8::/32" "fe80::1" "en0" 0 FamilyV6 OwnerRiftRoute "riftroute" "" "work" false false false)
             "work" 0 in
  set_table r BypassTable ∈ fst (BesideTailscale ex_build [r] []) /\
  map (fun l => (pr_Priority (ml_Rule l), pr_Family (ml_Rule l))) (snd (BesideTailscale ex_build [r] [])) =
    [(TailscaleRulePrio, FamilyV4); (BypassRulePrio, FamilyV6)].
Proof. split; [apply (bool_decide_unpack (_ ∈ _)); vm_compute; exact I|vm_compute; reflexivity]. Qed.
