(* ===== verification/Simulate.v ===== *)
(** * Route-explain and conflicts (internal/routing/simulate.go, conflict.go)

    [Simulate] is a longest-prefix match over a list of routes; [Drift]
    compares its answer with the kernel's; [DetectConflicts] reports
    overlapping routes with different next hops. *)

From S2P Require Import Prelude.
From S2P Require Import Netip NetipText Aggregate Domain Reconcile Nets Input.

(** ** Simulate *)

(** The loop: [best] is the index of the best route so far and [bestBits] its
    prefix length, both -1 at first. *)
Fixpoint sim_loop (routes : list Route) (target : addr) (i best bestBits : Z) : Z * Z :=
  match routes with
  | [] => (best, bestBits)
  | r :: routes' =>
      match ParsePrefix (rt_DstCIDR r) with
      | None => sim_loop routes' target (i + 1) best bestBits
      | Some pfx =>
          if negb (Bool.eqb (Is4 (p_addr pfx)) (Is4 target)) then sim_loop routes' target (i + 1) best bestBits
          else if Contains pfx target && (bestBits <? p_bits pfx)
          then sim_loop routes' target (i + 1) i (p_bits pfx)
          else sim_loop routes' target (i + 1) best bestBits
      end
  end.

(** [vpnByIface]: [None] is a nil map. *)
Definition Simulate (routes : list Route) (target : addr) (vpnByIface : option (gmap string bool)) : RouteDecision :=
  let '(best, _) := sim_loop routes target 0 (-1) (-1) in
  let fam := if Is6 target then FamilyV6 else FamilyV4 in
  let text := addr_String target in
  let none := mkRouteDecision text "simulated" "" "" "" fam "" "" false "" "" false false in
  if 0 <=? best then
    match routes !! Z.to_nat best with
    | None => none (* out of range: excluded by [sim_loop_index] *)
    | Some r =>
        if rt_Reject r then
          mkRouteDecision text "simulated" (rt_DstCIDR r) "" "" fam (rt_Owner r) (rt_Profile r) false "" "" false true
        else
          mkRouteDecision text "simulated" (rt_DstCIDR r) (rt_Gateway r) (rt_Iface r) fam (rt_Owner r) (rt_Profile r)
            (match vpnByIface with
             | Some m => default false (m !! rt_Iface r)
             | None => rt_Owner r =s? OwnerVPN
             end) "" "" true false
    end
  else none.

Definition Drift (kernel simulated : RouteDecision) : bool :=
  if negb (Bool.eqb (rd_Reachable kernel) (rd_Reachable simulated)) ||
     negb (Bool.eqb (rd_Rejected kernel) (rd_Rejected simulated)) then true
  else if negb (rd_Reachable kernel) then false
  else negb (rd_Iface kernel =s? rd_Iface simulated) || negb (Bool.eqb (rd_ViaVPN kernel) (rd_ViaVPN simulated)).

(** ** Conflicts *)

Definition conflict_label (r : ManagedRoute) : string :=
  let prof := if mr_ProfileID r =s? "" then rt_Profile (mr_Route r) else mr_ProfileID r in
  let rt := mr_Route r in
  if rt_Reject rt then rt_DstCIDR rt +:+ " reject (" +:+ prof +:+ ")"
  else rt_DstCIDR rt +:+ " via " +:+ rt_Gateway rt +:+ " dev " +:+ rt_Iface rt +:+ " (" +:+ prof +:+ ")".

Definition conflict_entries (routes : list ManagedRoute) : list (prefix * ManagedRoute) :=
  omap (fun r => p ← ParsePrefix (rt_DstCIDR (mr_Route r)); Some (Masked p, r)) routes.

Definition same_next_hop (a b : Route) : bool :=
  (rt_Gateway a =s? rt_Gateway b) && (rt_Iface a =s? rt_Iface b) && Bool.eqb (rt_Reject a) (rt_Reject b).

Definition conflict_of (a b : prefix * ManagedRoute) : option Conflict :=
  if negb (Bool.eqb (Is4 (p_addr (fst a))) (Is4 (p_addr (fst b)))) then None
  else if negb (Overlaps (fst a) (fst b)) then None
  else if same_next_hop (mr_Route (snd a)) (mr_Route (snd b)) then None
  else
    let '(kind, detail) :=
      if p_bits (fst a) =? p_bits (fst b) then ("duplicate", "same destination routed two different ways")
      else ("shadowed",
            "the more-specific route wins (longest-prefix match); the broader one is partly shadowed") in
    Some (mkConflict kind (conflict_label (snd a)) (conflict_label (snd b)) detail).

(** The two nested loops, [i < j]. *)
Fixpoint conflict_pairs (es : list (prefix * ManagedRoute)) : list Conflict :=
  match es with
  | [] => []
  | a :: es' => omap (conflict_of a) es' ++ conflict_pairs es'
  end.

Definition DetectConflicts (routes : list ManagedRoute) : list Conflict := conflict_pairs (conflict_entries routes).

(** ** Longest-prefix match *)

(** A route matches a target with its prefix's length. *)
Definition match_bits (target : addr) (r : Route) : option Z :=
  pfx ← ParsePrefix (rt_DstCIDR r);
  if Bool.eqb (Is4 (p_addr pfx)) (Is4 target) && Contains pfx target then Some (p_bits pfx) else None.

Lemma sim_step target r i best bb routes :
  sim_loop (r :: routes) target i best bb =
  match match_bits target r with
  | Some b => if bb <? b then sim_loop routes target (i + 1) i b else sim_loop routes target (i + 1) best bb
  | None => sim_loop routes target (i + 1) best bb
  end.
Proof.
  cbn [sim_loop]. unfold match_bits. destruct (ParsePrefix (rt_DstCIDR r)) as [pfx|]; [simpl|done].
  destruct (Bool.eqb _ _); simpl; [|done]. destruct (Contains pfx target); simpl; [|done]. by case_if.
Qed.

(** The index points at the first route of greatest length, if any matches. *)
Lemma sim_loop_spec target routes : forall i best bb best' bb',
  sim_loop routes target i best bb = (best', bb') ->
  bb <= bb' /\
  (forall r b, r ∈ routes -> match_bits target r = Some b -> b <= bb') /\
  ((best' = best /\ bb' = bb) \/
   exists n r, best' = i + Z.of_nat n /\ routes !! n = Some r /\ match_bits target r = Some bb' /\ bb < bb' /\
     forall m r' b', (m < n)%nat -> routes !! m = Some r' -> match_bits target r' = Some b' -> b' < bb').
Proof.
  induction routes as [|r routes IH]; intros i best bb best' bb' H.
  { simpl in H. injection H as <- <-. split_and!; [lia| |by left]. intros r b Hr. by apply elem_of_nil in Hr. }
  rewrite sim_step in H. destruct (match_bits target r) as [b|] eqn:E; [destruct (Z.ltb_spec bb b) as [Hlt|Hge]|];
    apply IH in H as (H1 & H2 & H3); (split_and!; [lia| |]).
  - intros r' b' [->|Hr]%elem_of_cons Hm; [rewrite E in Hm; injection Hm as <-; lia|by eapply H2].
  - right. destruct H3 as [[-> ->]|(n & r0 & -> & Hn & Hm & Hb & Hfirst)].
    + exists 0%nat, r. split_and!; [lia|done|done|lia|lia].
    + exists (S n), r0. split_and!; [lia|done|done|lia|].
      intros [|m] r' b' Hmn Hl Hmb; [|by apply (Hfirst m r'); [lia|..]]. simpl in Hl. injection Hl as <-.
      rewrite E in Hmb. injection Hmb as <-. lia.
  - intros r' b' [->|Hr]%elem_of_cons Hm; [rewrite E in Hm; injection Hm as <-; lia|by eapply H2].
  - destruct H3 as [?|(n & r0 & -> & Hn & Hm & Hb & Hfirst)]; [by left|right].
    exists (S n), r0. split_and!; [lia|done|done|lia|].
    intros [|m] r' b' Hmn Hl Hmb; [|by apply (Hfirst m r'); [lia|..]]. simpl in Hl. injection Hl as <-.
    rewrite E in Hmb. injection Hmb as <-. lia.
  - intros r' b' [->|Hr]%elem_of_cons Hm; [congruence|by eapply H2].
  - destruct H3 as [?|(n & r0 & -> & Hn & Hm & Hb & Hfirst)]; [by left|right].
    exists (S n), r0. split_and!; [lia|done|done|lia|].
    intros [|m] r' b' Hmn Hl Hmb; [|by apply (Hfirst m r'); [lia|..]]. simpl in Hl. injection Hl as <-. congruence.
Qed.

Lemma match_bits_nonneg target r b : match_bits target r = Some b -> 0 <= b.
Proof.
  unfold match_bits. destruct (ParsePrefix _) as [p|] eqn:E; [|done]. simpl.
  apply ParsePrefix_ok in E as [_ Hv]. case_if; [|done]. intros [= <-]. unfold pfx_IsValid in Hv. by bool_hyps.
Qed.

(** ** Overlaps *)

Lemma AddrPrefix_Masked a b : AddrPrefix a b = Masked (mkPrefix a b).
Proof. done. Qed.

Lemma Overlaps_le p q :
  canon p -> canon q -> Is4 (p_addr p) = Is4 (p_addr q) -> p_bits p <= p_bits q ->
  Overlaps p q = holds p q.
Proof.
  intros (Hok & Hm & Hv) (Hokq & Hmq & Hvq) H4 Hle. unfold Overlaps. rewrite Hv, Hvq. simpl.
  case_bool_decide as Epq; [subst; symmetry; by apply holds_refl|]. rewrite H4, eqb_reflx. simpl.
  destruct (valid_IsValid p Hok Hv) as [Hva Hb], (valid_IsValid q Hokq Hvq) as [Hvaq Hbq].
  assert (BitLen (p_addr p) = BitLen (p_addr q)) as El.
  { destruct (p_addr p), (p_addr q); simpl in *; done. }
  rewrite Z.min_l by done.
  assert (prefix_ok (mkPrefix (p_addr q) (p_bits p))) as Hok'.
  { destruct Hokq as (? & ? & _). split_and!; [done|done|]. right. simpl. split; [done|lia]. }
  assert (pfx_IsValid (mkPrefix (p_addr q) (p_bits p)) = true) as Hv' by (unfold pfx_IsValid in *; simpl; done).
  change (AddrPrefix (p_addr p) (p_bits p)) with (Masked p). unfold masked in Hm. rewrite Hm.
  rewrite AddrPrefix_Masked.
  assert (p_addr p = p_addr (Masked (mkPrefix (p_addr q) (p_bits p))) <-> holds p q = true) as Heq.
  { split.
    - intros E. unfold holds. rewrite (proj2 (Z.leb_le _ _)) by lia. simpl.
      assert (p = Masked (mkPrefix (p_addr q) (p_bits p))) as ->.
      { destruct p as [a b]. simpl in E |- *. rewrite (Masked_valid (mkPrefix (p_addr q) b)) in E |- * by done.
        simpl in *. by rewrite E. }
      simpl. rewrite Contains_Masked; [by apply (Contains_self (mkPrefix (p_addr q) (p_bits p)))|done].
    - intros H. f_equal. apply holds_antisym; [done|by apply Masked_ok|done|by apply Masked_masked|..].
      + unfold holds in *. rewrite Masked_bits by done. simpl. rewrite Z.leb_refl. simpl.
        apply andb_prop in H as [_ H].
        apply (Contains_nested p (Masked (mkPrefix (p_addr q) (p_bits p))) (p_addr q)) in H as H'; try done.
        * unfold holds in H'. by apply andb_prop in H' as [_ ?].
        * by apply Masked_ok.
        * rewrite Contains_Masked by done. by apply (Contains_self (mkPrefix (p_addr q) (p_bits p))).
        * rewrite Masked_bits by done. simpl. lia.
      + apply (Contains_nested _ p (p_addr q)); [by apply Masked_ok|done| | |].
        * rewrite Contains_Masked by done. by apply (Contains_self (mkPrefix (p_addr q) (p_bits p))).
        * unfold holds in H. by apply andb_prop in H as [_ ?].
        * rewrite Masked_bits by done. simpl. lia. }
  destruct (Z.eqb_spec (p_bits p) 0) as [E0|_].
  - symmetry. apply holds_spec; [done..|]. split_and!; [lia|lia|done|].
    unfold host_bits. rewrite E0, Z.sub_0_r. destruct Hok as (Ha & _), Hokq as (Haq & _).
    unfold addr_ok in *. rewrite El in *. rewrite !Z.div_small by lia. done.
  - apply eq_true_iff_eq. by rewrite bool_decide_eq_true.
Qed.

Lemma Overlaps_comm p q : Overlaps p q = Overlaps q p.
Proof.
  unfold Overlaps. rewrite (orb_comm (negb (pfx_IsValid p))), Z.min_comm. case_if; [done|].
  rewrite (bool_decide_ext (p = q) (q = p)) by (split; congruence). case_if; [done|].
  replace (Bool.eqb (Is4 (p_addr p)) (Is4 (p_addr q))) with (Bool.eqb (Is4 (p_addr q)) (Is4 (p_addr p)))
    by (by destruct (Is4 (p_addr p)), (Is4 (p_addr q))). case_if; [done|]. case_if; [done|].
  apply bool_decide_ext. split; congruence.
Qed.

(** Two networks overlap exactly when some address is in both. *)
Lemma Overlaps_spec p q :
  canon p -> canon q ->
  Bool.eqb (Is4 (p_addr p)) (Is4 (p_addr q)) && Overlaps p q = true <->
  exists a, Contains p a = true /\ Contains q a = true.
Proof.
  intros Hp Hq.
  assert (forall p q, canon p -> canon q -> Is4 (p_addr p) = Is4 (p_addr q) -> p_bits p <= p_bits q ->
    Overlaps p q = true <-> exists a, Contains p a = true /\ Contains q a = true) as Hle.
  { clear. intros p q Hp Hq H4 Hle. rewrite Overlaps_le by done. split.
    - intros H. exists (p_addr q). unfold holds in H. apply andb_prop in H as [_ H]. split; [done|].
      destruct Hq as (? & _ & ?). by apply Contains_self.
    - intros (a & Ha & Hb). apply (Contains_nested p q a); [apply Hp|apply Hq|done..]. }
  destruct (Bool.eqb_spec (Is4 (p_addr p)) (Is4 (p_addr q))) as [H4|H4]; simpl.
  - destruct (Z.le_ge_cases (p_bits p) (p_bits q)); [by apply Hle|].
    rewrite Overlaps_comm, Hle by done. naive_solver.
  - split; [done|]. intros (a & Ha & Hb). exfalso. apply H4. apply BitLen_Is4.
    rewrite (Contains_family _ _ Ha). symmetry. by apply Contains_family.
Qed.

(** [a] comes before [b] in a list. *)
Fixpoint before {A} (a b : A) (l : list A) : Prop :=
  match l with
  | [] => False
  | x :: l' => x = a /\ b ∈ l' \/ before a b l'
  end.

(** Two routes conflict: some address goes to both, by different next hops. *)
Definition conflicting (a b : ManagedRoute) (c : Conflict) : Prop :=
  exists pa pb, ParsePrefix (rt_DstCIDR (mr_Route a)) = Some pa /\ ParsePrefix (rt_DstCIDR (mr_Route b)) = Some pb /\
    (exists x, Contains pa x = true /\ Contains pb x = true) /\
    same_next_hop (mr_Route a) (mr_Route b) = false /\
    cf_A c = conflict_label a /\ cf_B c = conflict_label b /\
    (cf_Kind c, cf_Detail c) =
      (if bool_decide (Masked pa = Masked pb) then ("duplicate", "same destination routed two different ways")
       else ("shadowed",
             "the more-specific route wins (longest-prefix match); the broader one is partly shadowed")).

Lemma conflict_of_spec a b c pa pb :
  ParsePrefix (rt_DstCIDR (mr_Route a)) = Some pa -> ParsePrefix (rt_DstCIDR (mr_Route b)) = Some pb ->
  conflict_of (Masked pa, a) (Masked pb, b) = Some c <-> conflicting a b c.
Proof.
  intros Ea Eb. pose proof (ParsePrefix_ok _ _ Ea) as [Hoka Hva]. pose proof (ParsePrefix_ok _ _ Eb) as [Hokb Hvb].
  pose proof (canon_Masked pa Hoka Hva) as Ca. pose proof (canon_Masked pb Hokb Hvb) as Cb.
  pose proof (Overlaps_spec _ _ Ca Cb) as Ho. setoid_rewrite Contains_Masked in Ho; [|done..].
  assert (Bool.eqb (Is4 (p_addr (Masked pa))) (Is4 (p_addr (Masked pb))) = true -> Overlaps (Masked pa) (Masked pb) = true ->
    (p_bits (Masked pa) =? p_bits (Masked pb)) = bool_decide (Masked pa = Masked pb)) as Hk.
  { intros H1 H2. apply eq_true_iff_eq. rewrite Z.eqb_eq, bool_decide_eq_true. split; [|by intros ->]. intros E.
    assert (exists x, Contains pa x = true /\ Contains pb x = true) as (x & Hx & Hy) by (apply Ho; by rewrite H1, H2).
    rewrite <- Contains_Masked in Hx, Hy by done.
    apply holds_antisym; try apply Ca; try apply Cb; eapply (Contains_nested _ _ x);
      try apply Ca; try apply Cb; first [done|lia]. }
  unfold conflicting, conflict_of. cbn [fst snd]. split.
  - intros H. exists pa, pb. rewrite <- Ho. destruct (Bool.eqb _ _); simpl in H |- *; [|done].
    destruct (Overlaps _ _); simpl in H |- *; [|done]. destruct (same_next_hop _ _); [done|].
    rewrite Hk in H by done. destruct (bool_decide _); injection H as <-; done.
  - intros (pa' & pb' & E1 & E2 & Hx & Hs & HA & HB & Hkd). rewrite Ea in E1. rewrite Eb in E2.
    injection E1 as <-. injection E2 as <-. apply Ho in Hx. apply andb_prop in Hx as [H1 H2].
    rewrite Hk, H1, H2, Hs by done. simpl. destruct c as [k la lb d]. simpl in *. subst.
    destruct (bool_decide _); by injection Hkd as -> ->.
Qed.

Lemma elem_of_conflict_entries routes e :
  e ∈ conflict_entries routes <->
  exists r p, r ∈ routes /\ ParsePrefix (rt_DstCIDR (mr_Route r)) = Some p /\ e = (Masked p, r).
Proof.
  unfold conflict_entries. rewrite list_elem_of_omap. split.
  - intros (r & Hr & H). destruct (ParsePrefix _) as [p|] eqn:E; [|done]. simpl in H. injection H as <-. eauto.
  - intros (r & p & Hr & E & ->). exists r. split; [done|]. by rewrite E.
Qed.

(** ** Theorems *)

(** [Simulate] is longest-prefix match: when no route holds the target it
    answers unreachable; otherwise it answers with the first route, in the
    order given, whose prefix holds the target and is as long as any that does:
    refused if that is a reject route, else reachable through its gateway and
    interface. *)
Theorem Simulate_longest_prefix routes target vpn :
  let d := Simulate routes target vpn in
  ((forall r, r ∈ routes -> match_bits target r = None) /\
     rd_Reachable d = false /\ rd_Rejected d = false /\ rd_MatchedCIDR d = "") \/
  exists n r b, routes !! n = Some r /\ match_bits target r = Some b /\
    (forall r' b', r' ∈ routes -> match_bits target r' = Some b' -> b' <= b) /\
    (forall m r' b', (m < n)%nat -> routes !! m = Some r' -> match_bits target r' = Some b' -> b' < b) /\
    rd_MatchedCIDR d = rt_DstCIDR r /\
    (if rt_Reject r then rd_Rejected d = true /\ rd_Reachable d = false
     else rd_Rejected d = false /\ rd_Reachable d = true /\ rd_Gateway d = rt_Gateway r /\ rd_Iface d = rt_Iface r).
Proof.
  cbv zeta. unfold Simulate. destruct (sim_loop routes target 0 (-1) (-1)) as [best bb] eqn:E.
  destruct (sim_loop_spec target routes _ _ _ _ _ E) as (_ & Hmax & [[-> ->]|(n & r & -> & Hn & Hm & _ & Hfirst)]).
  - left. simpl. split_and!; [|done..]. intros r Hr. destruct (match_bits target r) as [b|] eqn:Em; [|done].
    pose proof (match_bits_nonneg _ _ _ Em). specialize (Hmax r b Hr Em). lia.
  - right. exists n, r, bb. split_and!; try done.
    all: rewrite (proj2 (Z.leb_le 0 _)) by lia; replace (Z.to_nat (0 + Z.of_nat n)) with n by lia; rewrite Hn;
      by destruct (rt_Reject r).
Qed.

(** [DetectConflicts] reports exactly the conflicting pairs, in order of
    appearance: two routes of the list that send some address to different next
    hops, as a duplicate when they have the same destination and as shadowed
    otherwise; nothing else. *)
Theorem DetectConflicts_exact routes c :
  c ∈ DetectConflicts routes <-> exists a b, before a b routes /\ conflicting a b c.
Proof.
  unfold DetectConflicts. induction routes as [|r routes IH]; simpl.
  { split; [intros H; by apply elem_of_nil in H|naive_solver]. }
  destruct (ParsePrefix (rt_DstCIDR (mr_Route r))) as [p|] eqn:E; simpl.
  - rewrite elem_of_app, IH, list_elem_of_omap. split.
    + intros [(e & He & Hc)|(a & b & Hb & Hc)]; [|naive_solver].
      apply elem_of_conflict_entries in He as (b & pb & Hb & Eb & ->).
      exists r, b. split; [by left|]. by eapply conflict_of_spec.
    + intros (a & b & [[<- Hb]|Hb] & Hc); [left|right; eauto].
      pose proof Hc as (pa & pb & Ea & Eb & _). exists (Masked pb, b). split.
      * apply elem_of_conflict_entries. eauto.
      * by eapply conflict_of_spec.
  - rewrite IH. split; [naive_solver|]. intros (a & b & [[<- Hb]|Hb] & Hc); [|eauto].
    destruct Hc as (pa & pb & Ea & _). congruence.
Qed.

(** [DetectConflicts] compares routes across routing tables: the default
    route of the include table and a bypass route of the main table are
    reported as shadowing each other, though no lookup sees both tables' routes
    together. *)
Theorem DetectConflicts_crosses_tables :
  let bypass := mkMR (mkRoute "192.168.0.0/16" "192.168.1.1" "en0" 0 FamilyV4 OwnerRiftRoute "riftroute" "" "bypass"
                        false false false) "bypass" 0 in
  let include := mkMR (mkRoute "0.0.0.0/0" "" "wg0" 0 FamilyV4 OwnerRiftRoute "riftroute" ModelBTable modelBProfileTag
                        false false false) modelBProfileTag 0 in
  map cf_Kind (DetectConflicts [include; bypass]) = ["shadowed"].
Proof. vm_compute. reflexivity. Qed.
