(* ===== verification/Destinations.v ===== *)
(** * What the enabled profiles route (internal/routing/engine.go, Destinations)

    Which destinations the profiles route, by mode and family, as if no tunnel
    were up: what tells a recorded route or rule that is still wanted from one
    that is not. *)

From S2P Require Import Prelude.
From S2P Require Import Netip NetipText Aggregate Domain Reconcile Nets Input Tunnels.

Record Destinations : Type := mkDestinations {
  d_exclude : byFam;                           (* aggregated *)
  d_include : byFam;                           (* aggregated *)
  d_unsure : gmap string (gset string);        (* per profile, the families it may route more of *)
  d_mode : gmap string Mode;
  d_includes : list (string * byFam);          (* the include profiles' own, in profile order *)
}.

(** [into[fam] = append(into[fam], pfxs...)] for every family of [own]. *)
Definition append_all (into own : byFam) : byFam :=
  union_with (fun a b => Some (a ++ b)) into own.

Definition has_fam (addrs : list string) (fam : Family) : bool :=
  existsb (fun ip => match entryToPrefix ip with Some (_, f) => f =s? fam | None => false end) addrs.

Definition unsure_rule (inp : DesiredInput) (id : string) (m : gmap string (gset string)) (r : Rule)
    : gmap string (gset string) :=
  if negb (r_Type r =s? RuleDomain) then m
  else fold_left (fun m fam =>
         if has_fam (at_key (in_Domains inp) (r_Value r)) fam then m
         else <[id := {[fam]} ∪ default ∅ (m !! id)]> m) [FamilyV4; FamilyV6] m.

Definition dest_profile (inp : DesiredInput) (d : Destinations) (p : Profile) : Destinations :=
  if negb (pf_Enabled p) || (pf_Mode p =s? ModeTunnel) then d
  else
    let own := profilePrefixes p inp in
    let incl := pf_Mode p =s? ModeInclude in
    mkDestinations
      (if incl then d_exclude d else append_all (d_exclude d) own)
      (if incl then append_all (d_include d) own else d_include d)
      (fold_left (unsure_rule inp (pf_ID p)) (pf_Rules p) (d_unsure d))
      (<[pf_ID p := pf_Mode p]> (d_mode d))
      (if incl then d_includes d ++ [(pf_ID p, Aggregate <$> own)] else d_includes d).

Definition gather_destinations (inp : DesiredInput) : Destinations :=
  fold_left (dest_profile inp) (in_Profiles inp) (mkDestinations ∅ ∅ ∅ ∅ []).

Definition ProfileDestinations (inp : DesiredInput) : Destinations :=
  let d := gather_destinations inp in
  mkDestinations (Aggregate <$> d_exclude d) (Aggregate <$> d_include d) (d_unsure d) (d_mode d) (d_includes d).

Definition unsureOf (d : Destinations) (profile : string) (include : bool) (fam : Family) : bool :=
  match d_mode d !! profile with
  | Some m => Bool.eqb (m =s? ModeInclude) include && bool_decide (fam ∈ default ∅ (d_unsure d !! profile))
  | None => false
  end.

Definition HoldsRoute (d : Destinations) (r : ManagedRoute) : bool :=
  if negb (rt_Table (mr_Route r) =s? "") then true
  else match ParsePrefix (rt_DstCIDR (mr_Route r)) with
       | None => true
       | Some pfx => within (Masked pfx) (at_key (d_exclude d) (rt_Family (mr_Route r))) ||
                     unsureOf d (mr_ProfileID r) false (rt_Family (mr_Route r))
       end.

Definition ruleNet (r : PolicyRule) : option prefix :=
  dst ← CutPrefix (pr_Selector r) "to "; pfx ← ParsePrefix dst; Some (Masked pfx).

Definition HoldsRule (d : Destinations) (r : ManagedRule) : bool :=
  match ruleNet (ml_Rule r) with
  | None => true
  | Some pfx => within pfx (at_key (d_include d) (pr_Family (ml_Rule r))) ||
                unsureOf d (ml_ProfileID r) true (pr_Family (ml_Rule r))
  end.

(** The tightest so far, and its length. *)
Definition owner_step (pfx : prefix) (id : string) (acc : string * Z) (a : prefix) : string * Z :=
  if holds a pfx && (snd acc <? p_bits a) then (id, p_bits a) else acc.

Definition IncludeOwner (d : Destinations) (r : PolicyRule) : string :=
  match ruleNet r with
  | None => ""
  | Some pfx =>
      fst (fold_left (fun acc e => fold_left (owner_step pfx (fst e)) (at_key (snd e) (pr_Family r)) acc)
             (d_includes d) ("", -1))
  end.

(** ** The profiles' destinations of one mode and family *)

Definition routed_by (inp : DesiredInput) (include : bool) (fam : Family) : list prefix :=
  in_Profiles inp ≫= (fun p =>
    if pf_Enabled p && negb (pf_Mode p =s? ModeTunnel) && Bool.eqb (pf_Mode p =s? ModeInclude) include
    then at_key (profilePrefixes p inp) fam else []).

Lemma at_append_all into own fam : at_key (append_all into own) fam = at_key into fam ++ at_key own fam.
Proof.
  unfold at_key, append_all. rewrite lookup_union_with.
  destruct (into !! fam), (own !! fam); simpl; by rewrite ?app_nil_r.
Qed.

Lemma gather_spec inp fam :
  at_key (d_exclude (gather_destinations inp)) fam = routed_by inp false fam /\
  at_key (d_include (gather_destinations inp)) fam = routed_by inp true fam.
Proof.
  unfold gather_destinations, routed_by.
  assert (forall l d,
    at_key (d_exclude (fold_left (dest_profile inp) l d)) fam =
      at_key (d_exclude d) fam ++ (l ≫= (fun p =>
        if pf_Enabled p && negb (pf_Mode p =s? ModeTunnel) && Bool.eqb (pf_Mode p =s? ModeInclude) false
        then at_key (profilePrefixes p inp) fam else [])) /\
    at_key (d_include (fold_left (dest_profile inp) l d)) fam =
      at_key (d_include d) fam ++ (l ≫= (fun p =>
        if pf_Enabled p && negb (pf_Mode p =s? ModeTunnel) && Bool.eqb (pf_Mode p =s? ModeInclude) true
        then at_key (profilePrefixes p inp) fam else []))) as H.
  { induction l as [|p l IH]; intros d; cbn [fold_left mbind list_bind]; [by rewrite !app_nil_r|].
    destruct (IH (dest_profile inp d p)) as [-> ->]. unfold dest_profile.
    destruct (pf_Enabled p), (pf_Mode p =s? ModeTunnel); simpl; try done.
    destruct (pf_Mode p =s? ModeInclude); simpl; by rewrite at_append_all, <- app_assoc. }
  destruct (H (in_Profiles inp) (mkDestinations ∅ ∅ ∅ ∅ [])) as [-> ->]. done.
Qed.

Lemma routed_by_valid inp include fam : Forall prefix_ok (routed_by inp include fam).
Proof.
  apply Forall_forall. intros q (p & Hq & _)%list_elem_of_bind. case_match; [|by apply elem_of_nil in Hq].
  pose proof (byFam_ok_at _ fam (profilePrefixes_ok p inp)) as Hf. rewrite Forall_forall in Hf.
  by destruct (Hf q Hq) as [[? _] _].
Qed.

Lemma dest_within inp pfx fam :
  canon pfx ->
  (within pfx (at_key (d_exclude (ProfileDestinations inp)) fam) = true <->
     forall a, addr_ok a -> Contains pfx a = true -> covered (routed_by inp false fam) a = true) /\
  (within pfx (at_key (d_include (ProfileDestinations inp)) fam) = true <->
     forall a, addr_ok a -> Contains pfx a = true -> covered (routed_by inp true fam) a = true).
Proof.
  intros Hc. destruct (gather_spec inp fam) as [Ee Ei].
  assert (forall m : byFam, at_key (Aggregate <$> m) fam = Aggregate (at_key m fam)) as Ha.
  { intros m. unfold at_key. rewrite lookup_fmap. by destruct (m !! fam). }
  unfold ProfileDestinations. simpl. rewrite !Ha, Ee, Ei.
  split; apply within_Aggregate; [done|apply routed_by_valid|done|apply routed_by_valid].
Qed.

(** ** Theorems *)

(** A recorded route is still wanted exactly when every address of its
    destination is routed by the enabled exclude profiles together, when it
    can be judged: a main-table route with a readable destination whose own
    profile has an address for each of its domains. One that can't be judged
    holds. *)
Theorem HoldsRoute_exact inp r :
  (HoldsRoute (ProfileDestinations inp) r = true <->
   rt_Table (mr_Route r) <> "" \/
   ParsePrefix (rt_DstCIDR (mr_Route r)) = None \/
   unsureOf (ProfileDestinations inp) (mr_ProfileID r) false (rt_Family (mr_Route r)) = true \/
   exists pfx, ParsePrefix (rt_DstCIDR (mr_Route r)) = Some pfx /\
     forall a, addr_ok a -> Contains pfx a = true -> covered (routed_by inp false (rt_Family (mr_Route r))) a = true).
Proof.
  unfold HoldsRoute. destruct (String.eqb_spec (rt_Table (mr_Route r)) "") as [Et|Et]; simpl; [|tauto].
  destruct (ParsePrefix (rt_DstCIDR (mr_Route r))) as [pfx|] eqn:E; [|tauto].
  pose proof (ParsePrefix_ok _ _ E) as [Hok Hv].
  destruct (dest_within inp (Masked pfx) (rt_Family (mr_Route r)) (canon_Masked pfx Hok Hv)) as [Hw _].
  rewrite orb_true_iff, Hw. setoid_rewrite Contains_Masked; [|done]. split.
  - intros [H|H]; [right; right; right; eauto|tauto].
  - intros [?|[?|[?|(p' & [= <-] & H)]]]; [done..|by right|by left].
Qed.

(** A recorded destination rule is still wanted exactly when every address
    of its network is routed by the enabled include profiles together, or its
    own profile is unsure of its family; a rule that selects by anything else
    holds. *)
Theorem HoldsRule_exact inp r :
  HoldsRule (ProfileDestinations inp) r = true <->
  ruleNet (ml_Rule r) = None \/
  unsureOf (ProfileDestinations inp) (ml_ProfileID r) true (pr_Family (ml_Rule r)) = true \/
  exists pfx, ruleNet (ml_Rule r) = Some pfx /\
    forall a, addr_ok a -> Contains pfx a = true -> covered (routed_by inp true (pr_Family (ml_Rule r))) a = true.
Proof.
  unfold HoldsRule. destruct (ruleNet (ml_Rule r)) as [pfx|] eqn:E; [|tauto].
  assert (canon pfx) as Hc.
  { unfold ruleNet in E. destruct (CutPrefix _ _); [|done]. simpl in E.
    destruct (ParsePrefix _) as [q|] eqn:Eq; [|done]. simpl in E. injection E as <-.
    apply ParsePrefix_ok in Eq as [??]. by apply canon_Masked. }
  destruct (dest_within inp pfx (pr_Family (ml_Rule r)) Hc) as [_ Hw]. rewrite orb_true_iff, Hw. split.
  - intros [H|H]; [right; right; eauto|tauto].
  - intros [?|[?|(p' & [= <-] & H)]]; [done|by right|by left].
Qed.

(** The owner loop keeps the first tightest holder. *)
Lemma owner_fold_spec pfx fam l : forall acc o t,
  fold_left (fun acc e => fold_left (owner_step pfx (fst e)) (at_key (snd e) fam) acc) l acc = (o, t) ->
  snd acc <= t /\
  (forall e a, e ∈ l -> a ∈ at_key (snd e) fam -> holds a pfx = true -> p_bits a <= t) /\
  ((o, t) = acc \/ exists e a, e ∈ l /\ a ∈ at_key (snd e) fam /\ holds a pfx = true /\ o = fst e /\ t = p_bits a).
Proof.
  assert (forall id nets acc o t, fold_left (owner_step pfx id) nets acc = (o, t) ->
    snd acc <= t /\ (forall a, a ∈ nets -> holds a pfx = true -> p_bits a <= t) /\
    ((o, t) = acc \/ exists a, a ∈ nets /\ holds a pfx = true /\ o = id /\ t = p_bits a)) as Hin.
  { intros id nets. induction nets as [|a nets IH]; intros acc o t H; simpl in H.
    - subst acc. split_and!; [simpl; lia| |by left]. intros a Ha. by apply elem_of_nil in Ha.
    - unfold owner_step at 2 in H. destruct (holds a pfx && (snd acc <? p_bits a)) eqn:E; apply IH in H as (H1 & H2 & H3).
      + apply andb_prop in E as [Eh El]. apply Z.ltb_lt in El. simpl in H1. split_and!; [lia| |].
        * intros b [->|Hb]%elem_of_cons Hh; [lia|by apply H2].
        * right. destruct H3 as [[= -> ->]|(b & Hb & ? & ? & ?)]; [exists a|exists b]; (split; [|done]); [by left|by right].
      + split_and!; [done| |].
        * intros b [->|Hb]%elem_of_cons Hh; [|by apply H2]. rewrite Hh in E. simpl in E. apply Z.ltb_ge in E. lia.
        * destruct H3 as [?|(b & Hb & ?)]; [by left|right; exists b; split; [by right|done]]. }
  induction l as [|e l IH]; intros acc o t H; cbn [fold_left] in H.
  - subst acc. split_and!; [simpl; lia| |by left]. intros e a He. by apply elem_of_nil in He.
  - destruct (fold_left (owner_step pfx (fst e)) (at_key (snd e) fam) acc) as [o1 t1] eqn:E1.
    destruct (Hin _ _ _ _ _ E1) as (A1 & A2 & A3). destruct (IH _ _ _ H) as (B1 & B2 & B3). simpl in B1.
    split_and!; [lia| |].
    + intros e' a [->|He]%elem_of_cons Ha Hh; [specialize (A2 a Ha Hh); lia|by eapply B2].
    + destruct B3 as [[= -> ->]|(e' & a & He & ?)].
      * destruct A3 as [?|(a & Ha & ? & ? & ?)]; [by left|right]. exists e, a. split_and!; [by left|done..].
      * right. exists e', a. split; [by right|done].
Qed.

(** The owner of a destination rule read from the kernel is the include
    profile that routes its whole network most tightly: when none does the
    answer is empty; otherwise it is a profile with an aggregated network
    holding the rule's, and no include profile has a longer one that does. *)
Theorem IncludeOwner_tightest d r pfx :
  ruleNet r = Some pfx ->
  (IncludeOwner d r = "" /\
     forall e a, e ∈ d_includes d -> a ∈ at_key (snd e) (pr_Family r) -> holds a pfx = false) \/
  exists e a, e ∈ d_includes d /\ a ∈ at_key (snd e) (pr_Family r) /\ holds a pfx = true /\
    IncludeOwner d r = fst e /\
    forall e' a', e' ∈ d_includes d -> a' ∈ at_key (snd e') (pr_Family r) -> holds a' pfx = true -> p_bits a' <= p_bits a.
Proof.
  intros E. unfold IncludeOwner. rewrite E.
  destruct (fold_left _ (d_includes d) ("", -1)) as [o t] eqn:Ef.
  destruct (owner_fold_spec pfx (pr_Family r) _ _ _ _ Ef) as (_ & Hmax & [[= -> ->]|(e & a & He & Ha & Hh & -> & ->)]).
  - left. split; [done|]. intros e a He Ha. destruct (holds a pfx) eqn:Eh; [|done].
    pose proof (Hmax e a He Ha Eh). apply holds_valid in Eh as [Hv _]. unfold pfx_IsValid in Hv. apply Z.leb_le in Hv. lia.
  - right. exists e, a. split_and!; done.
Qed.

(** ** Witness *)

Definition ex_dests := mkDestinations ∅ ∅ ∅ ∅ [("wide", {[FamilyV4 := [net10]]}); ("narrow", {[FamilyV4 := [net10_1]]})].

Lemma IncludeOwner_tightest_witness :
  IncludeOwner ex_dests (mkPolicyRule 5252 "to 10.1.2.0/24" "5252" FamilyV4 "" "" "") = "narrow" /\
  exists e, e ∈ d_includes ex_dests /\
    IncludeOwner ex_dests (mkPolicyRule 5252 "to 10.1.2.0/24" "5252" FamilyV4 "" "" "") = fst e.
Proof.
  split; [vm_compute; reflexivity|].
  destruct (IncludeOwner_tightest ex_dests (mkPolicyRule 5252 "to 10.1.2.0/24" "5252" FamilyV4 "" "" "")
              (mkPrefix (Addr4 167838208) 24)) as [H|H]; [vm_compute; reflexivity| |].
  - destruct H as [E _]. vm_compute in E. discriminate E.
  - destruct H as (e & a & He & _ & _ & E & _). exists e. split; [exact He|exact E].
Defined.
