(* ===== verification/Tailscale.v ===== *)
(** * Tailscale beside RiftRoute (internal/tailscale/tailscale.go)

    Recognizing a running Tailscale from the kernel's state: its interface
    among the host's, and from the routes into it the networks it routes and
    whether its exit node is on. *)

From S2P Require Import Prelude.
From S2P Require Import Netip NetipText Aggregate Domain Nets.

(** ** Its own ranges *)

Definition CGNAT : prefix := mkPrefix (Addr4 1681915904) 10.
Definition ULA : prefix := mkPrefix (Addr6 336928495290377064170890405512231256064 "") 48.
Definition MagicDNS : addr := Addr4 1684300900.

Example own_ranges : Some CGNAT = ParsePrefix "100.64.0.0/10" /\ Some ULA = ParsePrefix "fd7a:115c:a1e0::/48" /\
  Some MagicDNS = ParseAddr "100.100.100.100".
Proof. repeat split. Qed.

Definition LinuxTable : string := "52".
Definition maxNetworks : nat := 256.

(** ** Its interface *)

(** [p, err := netip.ParsePrefix(r.DstCIDR)] and the guards after it. *)
Definition magic_step (acc : string * Z) (r : Route) : string * Z :=
  match ParsePrefix (rt_DstCIDR r) with
  | None => acc
  | Some p =>
      if rt_Scoped r || negb (rt_Table r =s? "") || rt_Reject r || negb (Contains p MagicDNS) || (p_bits p <=? snd acc)
      then acc else (rt_Iface r, p_bits p)
  end.

Definition magicDNSIface (routes : list Route) : string := fst (fold_left magic_step routes ("", 0)).

(** One utun's addresses: [None] when one is in the IPv6 range (the loop
    returns), else whether one is in the IPv4 range. *)
Fixpoint utun_addrs (addrs : list string) (v4 : bool) : option bool :=
  match addrs with
  | [] => Some v4
  | a :: addrs' =>
      match ParsePrefix a with
      | None => utun_addrs addrs' v4
      | Some p =>
          if Contains ULA (p_addr p) then None
          else utun_addrs addrs' (v4 || Contains CGNAT (p_addr p))
      end
  end.

Fixpoint find_loop (magic : bool) (magicVia : string) (ifaces : list Iface) (name : string) (ok : bool)
    : string * bool * bool :=
  match ifaces with
  | [] => (name, false, ok)
  | i :: ifaces' =>
      if negb (if_Up i) then find_loop magic magicVia ifaces' name ok
      else if HasPrefix (if_Name i) "tailscale" then (if_Name i, true, true)
      else if negb (HasPrefix (if_Name i) "utun") then find_loop magic magicVia ifaces' name ok
      else match utun_addrs (if_Addrs i) false with
           | None => (if_Name i, true, true)
           | Some v4 =>
               if v4 && magic && (negb ok || (if_Name i =s? magicVia))
               then find_loop magic magicVia ifaces' (if_Name i) true
               else find_loop magic magicVia ifaces' name ok
           end
  end.

(** The interface's name, whether it is surely Tailscale's, and whether there
    is one. *)
Definition Find (ifaces : list Iface) (routes : list Route) (resolvers : list addr) : string * bool * bool :=
  find_loop (bool_decide (MagicDNS ∈ resolvers)) (magicDNSIface routes) ifaces "" false.

(** ** What it routes *)

Definition containedIn (p : prefix) (nets : list prefix) : bool :=
  existsb (fun n => Bool.eqb (Is4 (p_addr n)) (Is4 (p_addr p)) && (p_bits n <=? p_bits p) && Contains n (p_addr p)) nets.

(** [Addr.IsMulticast]: 224.0.0.0/4, ff00::/8. *)
Definition IsMulticast (a : addr) : bool :=
  match Unmap a with
  | Addr4 n => Z.shiftr n 28 =? 14
  | Addr6 n _ => Z.shiftr n 120 =? 255
  | AddrZero => false
  end.

Definition broadcast : addr := Addr4 4294967295.

Record detect_state : Type := mkDetect { dt_exit : bool; dt_halves : Z; dt_extra : list prefix }.

(** The destination of a route that counts as Tailscale's. *)
Definition detect_route (iface : string) (r : Route) : option prefix :=
  if rt_Reject r || rt_Scoped r || (negb (rt_Table r =s? "") && negb (rt_Table r =s? LinuxTable)) then None
  else if (rt_Table r =s? "") && negb (rt_Iface r =s? iface) then None
  else match ParsePrefix (rt_DstCIDR r) with
       | None => None
       | Some p =>
           if rt_Iface r =s? "" then None
           else if IsMulticast (p_addr p) || bool_decide (p_addr p = broadcast) then None
           else Some p
       end.

Definition detect_step (iface : string) (sure : bool) (st : detect_state) (r : Route) : detect_state :=
  match detect_route iface r with
  | None => st
  | Some p =>
      let m := Masked p in
      let s := prefix_String m in
      if (s =s? "0.0.0.0/0") || (s =s? "::/0") then mkDetect true (dt_halves st) (dt_extra st)
      else if (s =s? "0.0.0.0/1") || (s =s? "128.0.0.0/1") then mkDetect (dt_exit st) (dt_halves st + 1) (dt_extra st)
      else if sure && negb (containedIn m [CGNAT; ULA]) && negb (containedIn m (dt_extra st))
      then mkDetect (dt_exit st) (dt_halves st) (dt_extra st ++ [m])
      else st
  end.

Definition detect_routes (iface : string) (sure : bool) (routes : list Route) : detect_state :=
  fold_left (detect_step iface sure) routes (mkDetect false 0 []).

(** The networks it routes beyond its two ranges, the widest first. *)
Definition detect_nets (iface : string) (sure : bool) (routes : list Route) : list prefix :=
  [CGNAT; ULA] ++ take maxNetworks
    (slice_stable (fun a b => p_bits a - p_bits b <? 0) (dt_extra (detect_routes iface sure routes))).

Definition Detect (ifaces : list Iface) (routes : list Route) (resolvers : list addr) : option TailscaleStatus :=
  let '(name, sure, ok) := Find ifaces routes resolvers in
  if negb ok then None
  else
    let st := detect_routes name sure routes in
    Some (mkTailscale name (dt_exit st || (dt_halves st =? 2)) (map prefix_String (detect_nets name sure routes))).

Definition Networks (st : TailscaleStatus) : list prefix := omap ParsePrefix (ts_Networks st).

(** ** What is detected *)

Lemma CGNAT_canon : canon CGNAT.
Proof. apply (bool_decide_unpack (canon CGNAT)). by vm_compute. Qed.
Lemma ULA_canon : canon ULA.
Proof. apply (bool_decide_unpack (canon ULA)). by vm_compute. Qed.

Lemma detect_route_ok iface r p : detect_route iface r = Some p -> valid_prefix p.
Proof.
  unfold detect_route. intros H. repeat case_match; try done. simplify_eq. by eapply ParsePrefix_ok.
Qed.

(** A default route, or a half of one: the exit node's, not a network. *)
Definition exit_route (p : prefix) : bool :=
  existsb (String.eqb (prefix_String (Masked p))) ["0.0.0.0/0"; "::/0"; "0.0.0.0/1"; "128.0.0.0/1"].

Lemma containedIn_covers p nets a :
  valid_prefix p -> Forall canon nets -> containedIn p nets = true -> Contains p a = true -> covered nets a = true.
Proof.
  intros [Hp _] Hn H Ha. unfold containedIn in H. apply existsb_in in H as (n & Hin & H). bool_hyps.
  apply covered_in. exists n. split; [done|]. rewrite Forall_forall in Hn.
  apply (holds_Contains n p); [by apply Hn|done| |done].
  unfold holds. apply andb_true_iff. split; [by apply Z.leb_le|done].
Qed.

Lemma containedIn_self p nets : canon p -> p ∈ nets -> containedIn p nets = true.
Proof.
  intros (Hok & _ & Hv) Hin. apply existsb_in. exists p. split; [done|].
  rewrite eqb_reflx, Z.leb_refl. by apply Contains_self.
Qed.

Lemma containedIn_mono p l1 l2 : (forall x, x ∈ l1 -> x ∈ l2) -> containedIn p l1 = true -> containedIn p l2 = true.
Proof. intros Hs H. apply existsb_in in H as (x & Hx & H). apply existsb_in. eauto. Qed.

Section detected.
Context (iface : string) (sure : bool).

(** Every extra network is a counted route's; every counted route that is not
    the exit node's is inside a network, when the interface is surely its. *)
Record detect_inv (seen : list Route) (st : detect_state) : Prop := mkDetectInv {
  di_from : Forall (fun n => sure = true /\ exists r p, r ∈ seen /\ detect_route iface r = Some p /\ n = Masked p)
              (dt_extra st);
  di_covers : sure = true -> forall r p, r ∈ seen -> detect_route iface r = Some p -> exit_route p = false ->
    containedIn (Masked p) ([CGNAT; ULA] ++ dt_extra st) = true;
}.

Lemma detect_inv_weaken seen r st st' :
  dt_extra st' = dt_extra st -> detect_inv seen st ->
  (sure = true -> forall p, detect_route iface r = Some p -> exit_route p = false ->
    containedIn (Masked p) ([CGNAT; ULA] ++ dt_extra st) = true) ->
  detect_inv (seen ++ [r]) st'.
Proof.
  intros He [H1 H2] Hr. split; rewrite He.
  - eapply Forall_impl; [exact H1|]. intros n (Hs & x & p & Hx & Hn). split; [done|]. exists x, p.
    rewrite elem_of_app. auto.
  - intros Hs x p [Hx| ->%list_elem_of_singleton]%elem_of_app; [by apply H2|by apply Hr].
Qed.

Lemma detect_step_inv seen st r : detect_inv seen st -> detect_inv (seen ++ [r]) (detect_step iface sure st r).
Proof.
  intros Hi. unfold detect_step. destruct (detect_route iface r) as [p|] eqn:E;
    [|apply (detect_inv_weaken _ _ st); [done..|]; intros _ q Hq; congruence].
  pose proof (detect_route_ok _ _ _ E) as [Hok Hv]. pose proof (canon_Masked p Hok Hv) as Hc.
  case_match eqn:E1; [|case_match eqn:E2; [|case_match eqn:E3]].
  - apply (detect_inv_weaken _ _ st); [done..|]. intros _ q Hq. rewrite E in Hq. injection Hq as <-.
    unfold exit_route. simpl. by destruct (_ =s? "0.0.0.0/0"), (_ =s? "::/0").
  - apply (detect_inv_weaken _ _ st); [done..|]. intros _ q Hq. rewrite E in Hq. injection Hq as <-.
    unfold exit_route. simpl. by destruct (_ =s? "0.0.0.0/0"), (_ =s? "::/0"), (_ =s? "0.0.0.0/1"), (_ =s? "128.0.0.0/1").
  - bool_hyps. destruct Hi as [Hf Hcov]. split; cbn [dt_extra].
    + apply Forall_app. split.
      * eapply Forall_impl; [exact Hf|]. intros n (Hs & x & q & Hx & Hn). split; [done|]. exists x, q.
        rewrite elem_of_app. auto.
      * constructor; [|constructor]. split; [done|]. exists r, p. rewrite elem_of_app, list_elem_of_singleton. auto.
    + intros Hs x q [Hx|Hx%list_elem_of_singleton]%elem_of_app Hq Hnx.
      * eapply containedIn_mono; [|by apply (Hcov Hs x q)]. intros y. rewrite !elem_of_app. tauto.
      * assert (q = p) as -> by congruence. apply containedIn_self; [done|]. set_solver.
  - apply (detect_inv_weaken _ _ st); [done..|]. intros Hs q Hq _. rewrite E in Hq. injection Hq as <-.
    rewrite Hs, andb_true_l in E3. apply andb_false_iff in E3 as [Hin|Hin]; apply negb_false_iff in Hin;
      (eapply containedIn_mono; [|exact Hin]); set_solver.
Qed.

Lemma detect_routes_inv routes : detect_inv routes (detect_routes iface sure routes).
Proof.
  unfold detect_routes. change routes with ([] ++ routes) at 1.
  assert (detect_inv [] (mkDetect false 0 [])) as H0 by (split; [constructor|intros _ r p Hr; by apply elem_of_nil in Hr]).
  revert H0. generalize (mkDetect false 0 []), (@nil Route).
  induction routes as [|r rs IH]; intros st seen Hi; simpl; [by rewrite app_nil_r|].
  replace (seen ++ r :: rs) with ((seen ++ [r]) ++ rs) by (by rewrite <- app_assoc).
  by apply IH, detect_step_inv.
Qed.

Lemma detect_nets_canon routes : Forall canon (detect_nets iface sure routes).
Proof.
  unfold detect_nets. apply Forall_app. split; [constructor; [apply CGNAT_canon|constructor; [apply ULA_canon|constructor]]|].
  apply Forall_take. rewrite slice_stable_perm. eapply Forall_impl; [apply (detect_routes_inv routes)|].
  intros n (_ & r & p & _ & Hr & ->). destruct (detect_route_ok _ _ _ Hr). by apply canon_Masked.
Qed.
End detected.

Lemma parse_printed nets : Forall canon nets -> omap ParsePrefix (map prefix_String nets) = nets.
Proof.
  induction 1 as [|n nets (Hok & _ & Hv) _ IH]; [done|]. cbn. rewrite ParsePrefix_String by done.
  by f_equal.
Qed.

(** what is detected of a Tailscale. The status's networks read back are the
    two ranges of its own followed by at most [maxNetworks] more; each of those
    is the destination of a route of its interface or table, on an interface
    that is surely Tailscale's; and when fewer than that many were counted, the
    networks cover every address such a route other than the exit node's
    takes. *)
Theorem Detect_networks ifaces routes resolvers st :
  Detect ifaces routes resolvers = Some st ->
  exists name sure extra, Find ifaces routes resolvers = (name, sure, true) /\ ts_Iface st = name /\
    Networks st = [CGNAT; ULA] ++ extra /\ ts_Networks st = map prefix_String (Networks st) /\
    (length extra <= maxNetworks)%nat /\
    Forall (fun n => sure = true /\ exists r p, r ∈ routes /\ detect_route name r = Some p /\ n = Masked p) extra /\
    (sure = true -> (length extra < maxNetworks)%nat -> forall r p a, r ∈ routes -> detect_route name r = Some p ->
       exit_route p = false -> Contains p a = true -> covered (Networks st) a = true).
Proof.
  unfold Detect. destruct (Find ifaces routes resolvers) as [[name sure] ok] eqn:Ef. destruct ok; [|done].
  cbn [negb]. intros H. apply (inj Some) in H. subst st. exists name, sure. unfold Networks. cbn [ts_Networks ts_Iface].
  rewrite parse_printed by apply detect_nets_canon. unfold detect_nets.
  set (st := detect_routes name sure routes). set (sorted := slice_stable _ (dt_extra st)).
  pose proof (detect_routes_inv name sure routes) as [H1 H2]. fold st in H1, H2.
  assert (sorted ≡ₚ dt_extra st) as Hp by apply slice_stable_perm.
  exists (take maxNetworks sorted). split_and!; [done..| | |].
  - rewrite length_take. lia.
  - apply Forall_take. by rewrite Hp.
  - intros Hs Hl r p a Hr Hd Hx Ha. destruct (detect_route_ok _ _ _ Hd) as [Hok Hv].
    rewrite length_take in Hl. rewrite take_ge by lia.
    apply (containedIn_covers (Masked p)); [|shelve| |by rewrite Contains_Masked].
    + split; [by apply Masked_ok|by rewrite Masked_valid_iff].
    + eapply containedIn_mono; [|by eapply (H2 Hs r p)]. intros x. rewrite !elem_of_app, Hp. done.
    Unshelve. pose proof (detect_nets_canon name sure routes) as Hc. unfold detect_nets in Hc. fold st sorted in Hc.
    by rewrite (take_ge sorted) in Hc by lia.
Qed.

(** A Mac with a Tailscale that routes a subnet. *)
Definition ex_ts_ifaces : list Iface :=
  [mkIface "en0" true "phys" ["192.168.1.9/24"] 1500 false;
   mkIface "utun4" true "utun" ["100.101.102.103/32"; "fd7a:115c:a1e0::1/48"] 1280 true].
Definition ex_ts_route (dst iface : string) : Route :=
  mkRoute dst "" iface 0 FamilyV4 OwnerSystem "" "" "" false false false.
Definition ex_ts_routes : list Route :=
  [ex_ts_route "0.0.0.0/0" "en0"; ex_ts_route "10.20.0.0/16" "utun4"; ex_ts_route "100.64.0.0/10" "utun4"].

Lemma Detect_networks_witness :
  exists name sure (extra : list prefix), Find ex_ts_ifaces ex_ts_routes [] = (name, sure, true) /\ name = "utun4" /\
    (sure = true -> (length extra < maxNetworks)%nat -> forall r p a, r ∈ ex_ts_routes -> detect_route name r = Some p ->
       exit_route p = false -> Contains p a = true ->
       covered (Networks (mkTailscale "utun4" false ["100.64.0.0/10"; "fd7a:115c:a1e0::/48"; "10.20.0.0/16"])) a = true).
Proof.
  destruct (Detect_networks ex_ts_ifaces ex_ts_routes []
              (mkTailscale "utun4" false ["100.64.0.0/10"; "fd7a:115c:a1e0::/48"; "10.20.0.0/16"]))
    as (name & sure & extra & H1 & H2 & _ & _ & _ & _ & H3); [vm_compute; reflexivity|].
  exists name, sure, extra. split; [exact H1|]. split; [symmetry; exact H2|exact H3].
Defined.

(** Half of the address space listed twice counts as a whole default. *)
Example half_twice_is_exit_node :
  ts_ExitNode <$> Detect ex_ts_ifaces [ex_ts_route "0.0.0.0/1" "utun4"; ex_ts_route "0.0.0.0/1" "utun4"] [] = Some true.
Proof. reflexivity. Qed.
