(* ===== verification/Yielded.v ===== *)
(** * What gave way to live tunnels (internal/core/yielded.go)

    The record of the profiles' routes and include rules that yielded to live
    tunnels, how a tunnel apply puts them back, and what of it is still wanted.
    The profiles' destinations are read at most once and may be unreadable:
    they are an [option]. *)

From S2P Require Import Prelude.
From S2P Require Import Netip NetipText Aggregate Domain Reconcile Nets Input Tunnels Installed Destinations.

Record yieldedRule : Type := mkYieldedRule { yr_Rule : ManagedRule; yr_Pieces : list ManagedRule }.
Record yielded : Type := mkYielded { y_Routes : list ManagedRoute; y_Rules : list yieldedRule }.
Definition nothing_yielded : yielded := mkYielded [] [].

(** The items of a list whose key was not met yet, in order: the [have] maps of
    the loops below. *)
Section once.
Context {A : Type} (key : A -> string).

Fixpoint once (have : gset string) (l : list A) : list A :=
  match l with
  | [] => []
  | x :: l' => if bool_decide (key x ∈ have) then once have l' else x :: once ({[key x]} ∪ have) l'
  end.
End once.

Definition route_key (r : ManagedRoute) : string := RouteKey (mr_Route r).
Definition rule_key (r : ManagedRule) : string := RuleKey (ml_Rule r).

(** ** Judging the record *)

Definition stillWanted (y : yielded) (dest : option Destinations) : yielded :=
  if (length (y_Routes y) =? 0)%nat && (length (y_Rules y) =? 0)%nat then y
  else match dest with
       | None => y
       | Some d => mkYielded (keep_if (HoldsRoute d) (y_Routes y)) (keep_if (fun r => HoldsRule d (yr_Rule r)) (y_Rules y))
       end.

Definition set_owner (id : string) (r : ManagedRule) : ManagedRule := mkMRule (ml_Rule r) id (ml_CreatedAt r).

Definition attributed (y : yielded) (dest : option Destinations) : yielded :=
  match dest with
  | None => y
  | Some d =>
      mkYielded (y_Routes y)
        (map (fun r => if negb (ml_ProfileID (yr_Rule r) =s? "") then r
                       else mkYieldedRule (set_owner (IncludeOwner d (ml_Rule (yr_Rule r))) (yr_Rule r)) (yr_Pieces r))
             (y_Rules y))
  end.

(** ** Putting back *)

Definition putBackRoutes (y : yielded) (routes : list ManagedRoute) : list ManagedRoute :=
  routes ++ once route_key (list_to_set (map route_key routes)) (y_Routes y).

Definition pieces_of (y : yielded) : gset string :=
  list_to_set (map rule_key (y_Rules y ≫= yr_Pieces)).

Definition putBackRules (y : yielded) (rules : list ManagedRule) : list ManagedRule :=
  match y_Rules y with
  | [] => rules
  | _ => once rule_key ∅ (keep_if (fun r => negb (bool_decide (rule_key r ∈ pieces_of y))) rules ++ map yr_Rule (y_Rules y))
  end.

(** ** Recording *)

Definition whole (tp : TunnelPlan) (r : ManagedRule) : bool :=
  match RulesBeside tp [r] with
  | [p] => rule_key p =s? rule_key r
  | _ => false
  end.

Definition yieldedTo (tp : TunnelPlan) (routes : list ManagedRoute) (rules : list ManagedRule)
    (placed : list ManagedRoute) : yielded :=
  let kept : gset string := list_to_set (map route_key placed) in
  mkYielded
    (keep_if (fun r => negb (bool_decide (route_key r ∈ kept)) && negb (mr_ProfileID r =s? "")) routes)
    (map (fun r => mkYieldedRule r (RulesBeside tp [r])) (keep_if (fun r => negb (whole tp r)) rules)).

(** ** Each key once *)

Section once_facts.
Context {A : Type} (key : A -> string).

Lemma once_in l : forall have x, x ∈ once key have l -> x ∈ l.
Proof.
  induction l as [|y l IH]; intros have x; simpl; [done|]. case_if; rewrite ?elem_of_cons; naive_solver.
Qed.

Lemma once_keys l : forall have k, k ∈ map key (once key have l) <-> k ∈ map key l /\ k ∉ have.
Proof.
  induction l as [|y l IH]; intros have k; simpl; [rewrite elem_of_nil; tauto|].
  case_if; bool_hyps; simpl; rewrite ?elem_of_cons, IH; [naive_solver|].
  destruct (decide (k = key y)); set_solver.
Qed.

Lemma once_nodup l : forall have, NoDup (map key (once key have l)).
Proof.
  induction l as [|y l IH]; intros have; simpl; [constructor|]. case_if; simpl; [done|]. constructor; [|done].
  rewrite once_keys. set_solver.
Qed.
End once_facts.

(** ** The loops of the plan, by key *)

Lemma beside_steps tp l : forall acc,
  snd (fold_left (beside_step tp) l acc) = snd acc ++ once route_key (fst acc) (keep_if (fun o => negb (yields tp o)) l).
Proof.
  induction l as [|o l IH]; intros acc; simpl; [by rewrite app_nil_r|]. rewrite IH. unfold beside_step.
  destruct (yields tp o); simpl; [done|]. fold (route_key o). case_if; simpl; [done|]. by rewrite <- app_assoc.
Qed.

Lemma rules_steps l : forall acc,
  snd (fold_left rules_step l acc) = snd acc ++ once rule_key (fst acc) l.
Proof.
  induction l as [|o l IH]; intros acc; simpl; [by rewrite app_nil_r|]. rewrite IH. unfold rules_step.
  fold (rule_key o). case_if; simpl; [done|]. by rewrite <- app_assoc.
Qed.

Lemma place_loop_in l : forall taken acc r, r ∈ snd (place_loop l taken acc) -> r ∈ snd acc \/ r ∈ l.
Proof.
  induction l as [|[rt pid at'] l IH]; intros taken [seen routes] r; simpl; [auto|]. rewrite elem_of_cons.
  case_if; [intros H%IH; simpl in *; tauto|]. intros H%IH. simpl in H. case_match; simpl in H; [tauto|].
  rewrite elem_of_app, list_elem_of_singleton in H. tauto.
Qed.

Lemma place_loop_keeps l : forall taken acc r, r ∈ snd acc -> r ∈ snd (place_loop l taken acc).
Proof.
  induction l as [|[rt pid at'] l IH]; intros taken [seen routes] r Hr; simpl; [done|].
  case_if; apply IH; [done|]. simpl. case_if; simpl in *; [done|]. rewrite elem_of_app. auto.
Qed.

(** [Beside] holds the routes that do not yield, by key, and routes of the plan. *)
Lemma Beside_in tp others r :
  r ∈ Beside tp others -> r ∈ tp_Routes tp \/ r ∈ others /\ yields tp r = false.
Proof.
  unfold Beside, place. intros [H|H]%place_loop_in; [|by left]. right. rewrite beside_steps in H. simpl in H.
  apply once_in, elem_of_keep_if in H as [H1 H2]. by bool_hyps.
Qed.

Lemma Beside_keys tp others r :
  r ∈ others -> yields tp r = false -> exists r', r' ∈ Beside tp others /\ r' ∈ others /\ route_key r' = route_key r.
Proof.
  intros Hr Hy. set (l := keep_if (fun o => negb (yields tp o)) others).
  assert (route_key r ∈ map route_key (once route_key ∅ l)) as Hk.
  { apply once_keys. split; [|set_solver]. apply list_elem_of_fmap. exists r. split; [done|]. apply elem_of_keep_if.
    by rewrite Hy. }
  apply list_elem_of_fmap in Hk as (r' & Hk & Hr'). exists r'. split_and!; [| |done].
  - unfold Beside, place. apply place_loop_keeps. rewrite beside_steps. done.
  - apply once_in, elem_of_keep_if in Hr' as [? _]. done.
Qed.

Lemma RulesBeside_cons tp rules :
  (exists nets, RulesBeside tp rules = once rule_key ∅ (rules ≫= rule_beside nets) /\
     forall r, RulesBeside tp [r] = once rule_key ∅ (rule_beside nets r)) \/
  RulesBeside tp rules = rules /\ (forall r, RulesBeside tp [r] = [r]).
Proof.
  unfold RulesBeside. destruct (tp_nets tp) as [|n nets]; [by right|]. left. exists (n :: nets). split.
  - by rewrite rules_steps.
  - intros r. rewrite rules_steps. simpl. by rewrite app_nil_r.
Qed.

(** By key, what the rules become is what each becomes on its own. *)
Lemma RulesBeside_keys tp rules k :
  k ∈ map rule_key (RulesBeside tp rules) <-> exists r, r ∈ rules /\ k ∈ map rule_key (RulesBeside tp [r]).
Proof.
  destruct (RulesBeside_cons tp rules) as [(nets & H1 & H2)|[H1 H2]]; rewrite H1; setoid_rewrite H2.
  - setoid_rewrite once_keys. rewrite list_elem_of_fmap. setoid_rewrite list_elem_of_bind.
    setoid_rewrite list_elem_of_fmap. set_solver.
  - rewrite list_elem_of_fmap. setoid_rewrite list_elem_of_fmap. setoid_rewrite list_elem_of_singleton. naive_solver.
Qed.

(** A rule that selects a part of another's destination outside these networks,
    and is that rule but for it. *)
Definition cut_around (nets : list prefix) (r l : ManagedRule) : Prop :=
  exists pfx q, ruleDestination (ml_Rule r) = Some pfx /\ valid_prefix q /\ l = set_selector r ("to " +:+ prefix_String q) /\
    forall a, Contains q a = true -> Contains pfx a = true /\ covered nets a = false.

Lemma ruleDestination_ok r pfx : ruleDestination r = Some pfx -> valid_prefix pfx.
Proof.
  unfold ruleDestination. destruct (CutPrefix (pr_Selector r) "to ") as [dst|]; [|done]. simpl. destruct (ContainsByte _ _); [done|].
  destruct (entryToPrefix dst) as [[p fam]|] eqn:E; [|done]. simpl. intros [= <-]. by apply entryToPrefix_ok in E as [? _].
Qed.

Lemma RulesBeside_in tp rules l : Forall prefix_ok (tp_nets tp) ->
  l ∈ RulesBeside tp rules -> exists r, r ∈ rules /\ (l = r \/ cut_around (tp_nets tp) r l).
Proof.
  intros Hn. unfold RulesBeside. destruct (tp_nets tp) as [|n ns]; [by eauto|]. set (nets := n :: ns) in *. rewrite rules_steps.
  intros H%once_in. apply list_elem_of_bind in H as (r & H & Hr). exists r. split; [done|]. unfold rule_beside in H.
  destruct (ruleDestination (ml_Rule r)) as [pfx|] eqn:Ed; [|left; by apply list_elem_of_singleton in H].
  destruct (bool_decide _); [left; by apply list_elem_of_singleton in H|]. right.
  apply list_elem_of_fmap in H as (q & -> & Hq). exists pfx, q.
  destruct (aroundTunnels_spec [pfx] nets) as [Hv Hc]; [constructor; [by eapply ruleDestination_ok|constructor]|done|].
  rewrite Forall_forall in Hv. split_and!; [done|by apply Hv|done|]. intros a Ha.
  assert (covered (aroundTunnels [pfx] nets) a = true) as Hca by (apply covered_in; eauto).
  rewrite Hc in Hca. bool_hyps. split; [|done]. match goal with H : covered [pfx] a = true |- _ => apply covered_in in H as (x & ->%list_elem_of_singleton & ?) end. done.
Qed.

(** ** Every route of a plan bears its tunnel's tag *)

Definition tagged (tp : TunnelPlan) : Prop := Forall (fun r => IsTunnelRoute r = true) (tp_Routes tp).

Lemma fold_keeps {A B} (P : A -> Prop) (f : A -> B -> A) l :
  (forall x y, P x -> P (f x y)) -> forall x, P x -> P (fold_left f l x).
Proof. intros Hf. induction l; intros x Hx; simpl; auto. Qed.

Lemma tp_add_tagged tp rt name inp : tagged tp -> tagged (tp_add tp rt (TunnelProfilePrefix +:+ name) inp).
Proof.
  intros H. unfold tagged, tp_add. simpl. apply Forall_app. split; [done|]. constructor; [|constructor].
  apply (HasPrefix_app TunnelProfilePrefix name).
Qed.

Lemma pin_phase_tagged inp ts : tagged (ps_tp (pin_phase inp ts)).
Proof.
  unfold pin_phase. apply (fold_keeps (fun st => tagged (ps_tp st))); [|constructor]. intros st t Ht.
  unfold pin_tunnel. apply (fold_keeps (fun st => tagged (ps_tp st))).
  - intros x a Hx. unfold hold_one. by case_match.
  - apply (fold_keeps (fun st => tagged (ps_tp st))); [|done]. intros x a Hx. unfold pin_one.
    repeat case_match; try done. by apply tp_add_tagged.
Qed.

Lemma plan_tunnel_tagged inp ts held acc t : tagged (fst acc) -> tagged (fst (plan_tunnel inp ts held acc t)).
Proof.
  intros Ha. unfold plan_tunnel.
  assert (tagged (fst (fold_left (list_route inp ts t (snd acc) held) (t_Routes t) (fst acc, ∅)))) as Hl.
  { apply (fold_keeps (fun x : TunnelPlan * byFam => tagged (fst x))); [|done]. intros x v Hx. unfold list_route.
    by destruct (entryToPrefix v) as [[]|]. }
  destruct (fold_left _ (t_Routes t) _) as [tp byF]. simpl in Hl. case_if; [done|].
  apply (fold_keeps (fun x : TunnelPlan * gmap string claim => tagged (fst x))); [|done]. intros x fam Hx.
  apply (fold_keeps (fun x : TunnelPlan * gmap string claim => tagged (fst x))); [|done]. intros [tq tk] p Hq.
  by apply tp_add_tagged.
Qed.

Lemma PlanTunnels_tagged inp : tagged (PlanTunnels inp).
Proof.
  unfold PlanTunnels. apply (fold_keeps (fun x : TunnelPlan * gmap string claim => tagged (fst x))).
  - intros x t Hx. by apply plan_tunnel_tagged.
  - apply pin_phase_tagged.
Qed.

(** ** A tunnel comes and goes *)

(** The owned routes that are not a tunnel's: what a tunnel apply carries over. *)
Definition not_tunnel (owned : list ManagedRoute) : list ManagedRoute := keep_if (fun o => negb (IsTunnelRoute o)) owned.

Lemma put_back_key y routes r : r ∈ y_Routes y -> route_key r ∈ map route_key (putBackRoutes y routes).
Proof.
  intros Hr. unfold putBackRoutes. rewrite map_app, elem_of_app.
  destruct (decide (route_key r ∈ map route_key routes)) as [H|H]; [by left|right].
  apply once_keys. split; [by apply list_elem_of_fmap_2|]. by rewrite elem_of_list_to_set.
Qed.

Lemma whole_key tp r : whole tp r = true -> forall k, k ∈ map rule_key (RulesBeside tp [r]) <-> k = rule_key r.
Proof.
  unfold whole. destruct (RulesBeside tp [r]) as [|p [|]]; try done. intros H k. bool_hyps. simpl.
  rewrite list_elem_of_singleton, H. done.
Qed.

(** The rules put back, by key. *)
Lemma put_back_rule_keys tp rules routes placed k :
  let y := yieldedTo tp routes rules placed in
  k ∈ map rule_key (putBackRules y (RulesBeside tp rules)) <->
  (exists r, r ∈ rules /\ whole tp r = false /\ k = rule_key r) \/
  (exists r, r ∈ rules /\ whole tp r = true /\ k = rule_key r /\ k ∉ pieces_of y).
Proof.
  intros y. set (cut := keep_if (fun r => negb (whole tp r)) rules).
  assert (forall r, r ∈ cut <-> r ∈ rules /\ whole tp r = false) as Hcut.
  { intros r. unfold cut. rewrite elem_of_keep_if, negb_true_iff. done. }
  assert (Hp : forall x, x ∈ pieces_of y <-> exists r, r ∈ cut /\ x ∈ map rule_key (RulesBeside tp [r])).
  { intros x. unfold pieces_of. rewrite elem_of_list_to_set, list_elem_of_fmap.
    setoid_rewrite list_elem_of_bind. setoid_rewrite list_elem_of_fmap. unfold y, yieldedTo. cbn [y_Rules]. fold cut. set_solver. }
  assert (k ∈ map rule_key (putBackRules y (RulesBeside tp rules)) <->
          (k ∈ map rule_key (RulesBeside tp rules) /\ k ∉ pieces_of y) \/ k ∈ map rule_key cut) as ->.
  { unfold putBackRules. destruct (y_Rules y) as [|yr yrs] eqn:E.
    - assert (cut = []) as Hc by (unfold y, yieldedTo in E; cbn in E; fold cut in E; by destruct cut).
      rewrite Hp, Hc. set_solver.
    - rewrite <- E, once_keys, map_app, elem_of_app.
      assert (map yr_Rule (y_Rules y) = cut) as -> by (unfold y, yieldedTo; cbn [y_Rules]; rewrite map_map; apply map_id).
      assert (k ∈ map rule_key (keep_if (fun r => negb (bool_decide (rule_key r ∈ pieces_of y))) (RulesBeside tp rules)) <->
              k ∈ map rule_key (RulesBeside tp rules) /\ k ∉ pieces_of y) as ->; [|set_solver].
      rewrite !list_elem_of_fmap. setoid_rewrite elem_of_keep_if. setoid_rewrite negb_true_iff.
      setoid_rewrite bool_decide_eq_false. naive_solver. }
  rewrite RulesBeside_keys, list_elem_of_fmap. setoid_rewrite Hcut. split.
  - intros [[(r & Hr & Hk) Hn]|(r & -> & Hr & Hw)]; [|left; eauto].
    destruct (whole tp r) eqn:Hw.
    + right. exists r. apply whole_key in Hk; [|done]. auto.
    + destruct Hn. apply Hp. exists r. by rewrite Hcut.
  - intros [(r & Hr & Hw & ->)|(r & Hr & Hw & -> & Hn)]; [right; eauto|]. left. split; [|done]. exists r.
    split; [done|]. by apply whole_key.
Qed.

(** C30: what gives way to a tunnel comes back when it goes. In a tunnel apply the
    routes and rules in place are put beside the tunnels' (Beside, RulesBeside:
    whole or not at all, unlike a full apply, which builds them anew) and what
    yields is recorded; putting
    the record back over what is then installed, less the tunnels' own routes,
    gives only routes that were there, and every route that was there and had a
    profile, unless the tunnels route its very key themselves. It gives the key
    of every rule that was there, less one that is a piece of a rule put back,
    and no other. *)
Theorem yielded_comes_back inp others rules :
  let tp := PlanTunnels inp in
  let placed := Beside tp others in
  let y := yieldedTo tp others rules placed in
  let routes := putBackRoutes y (not_tunnel placed) in
  let back := putBackRules y (RulesBeside tp rules) in
  Forall (fun o => IsTunnelRoute o = false) others ->
  (forall r, r ∈ routes -> r ∈ others) /\
  (forall r, r ∈ others -> mr_ProfileID r <> "" ->
     route_key r ∈ map route_key routes \/ route_key r ∈ map route_key (tp_Routes tp)) /\
  (forall k, k ∈ map rule_key back -> k ∈ map rule_key rules) /\
  (forall r, r ∈ rules -> rule_key r ∈ map rule_key back \/
     exists r', r' ∈ rules /\ rule_key r' ∈ map rule_key back /\ rule_key r ∈ map rule_key (RulesBeside tp [r'])).
Proof.
  intros tp placed y routes back Ho. rewrite Forall_forall in Ho.
  pose proof (PlanTunnels_tagged inp) as Ht. fold tp in Ht. unfold tagged in Ht. rewrite Forall_forall in Ht.
  split_and!.
  - intros r [Hr|Hr]%elem_of_app.
    + apply elem_of_keep_if in Hr as [Hr Hn]. bool_hyps. apply Beside_in in Hr as [Hr|[Hr _]]; [|done].
      rewrite (Ht r Hr) in Hn. done.
    + apply once_in, elem_of_keep_if in Hr as [Hr _]. done.
  - intros r Hr Hp. destruct (decide (route_key r ∈ map route_key placed)) as [Hk|Hk].
    + apply list_elem_of_fmap in Hk as (r' & Hk & Hr').
      destruct (Beside_in _ _ _ Hr') as [Hin|[Hin _]]; [right; rewrite Hk; by apply list_elem_of_fmap_2|left].
      rewrite Hk. apply list_elem_of_fmap_2, elem_of_app. left. apply elem_of_keep_if. by rewrite (Ho r' Hin).
    + left. apply put_back_key, elem_of_keep_if. split; [done|]. rewrite bool_decide_eq_false_2 by set_solver.
      simpl. apply negb_true_iff. by apply String.eqb_neq.
  - intros k Hk%put_back_rule_keys. rewrite list_elem_of_fmap. naive_solver.
  - intros r Hr. destruct (whole tp r) eqn:Hw; [|left; apply put_back_rule_keys; left; eauto].
    destruct (decide (rule_key r ∈ pieces_of y)) as [Hin|Hn]; [|left; apply put_back_rule_keys; right; eauto].
    right. unfold pieces_of in Hin. rewrite elem_of_list_to_set, list_elem_of_fmap in Hin.
    destruct Hin as (p & Hk & Hin). apply list_elem_of_bind in Hin as (yr & Hin & Hyr).
    apply list_elem_of_fmap in Hyr as (r' & -> & Hr'). cbn [yr_Pieces] in Hin.
    apply elem_of_keep_if in Hr' as [Hr' Hw']. bool_hyps. exists r'. split_and!; [done| |].
    + apply put_back_rule_keys. left. eauto.
    + rewrite Hk. by apply list_elem_of_fmap_2.
Qed.

Definition ex_yields := [ex_route "10.1.0.0/16" "192.168.1.1" "en0"; ex_route "172.20.0.0/16" "192.168.1.1" "en0"].
Definition ex_cut := [ex_rule "to 10.0.0.0/7"; ex_rule "to 11.0.0.0/8"].

Lemma yielded_comes_back_witness :
  Beside (PlanTunnels ex_in) ex_yields <> ex_yields /\
  forall r, r ∈ ex_cut ->
    rule_key r ∈ map rule_key (putBackRules (yieldedTo (PlanTunnels ex_in) ex_yields ex_cut
                                 (Beside (PlanTunnels ex_in) ex_yields)) (RulesBeside (PlanTunnels ex_in) ex_cut)) \/
    exists r', r' ∈ ex_cut /\
      rule_key r' ∈ map rule_key (putBackRules (yieldedTo (PlanTunnels ex_in) ex_yields ex_cut
                                   (Beside (PlanTunnels ex_in) ex_yields)) (RulesBeside (PlanTunnels ex_in) ex_cut)) /\
      rule_key r ∈ map rule_key (RulesBeside (PlanTunnels ex_in) [r']).
Proof.
  split; [by vm_compute|].
  apply (yielded_comes_back ex_in ex_yields ex_cut).
  apply (bool_decide_unpack (Forall (fun o => IsTunnelRoute o = false) ex_yields)). vm_compute. exact I.
Defined.
