(* ===== verification/Provider.v ===== *)
(** * The seam to the kernel (internal/provider)

    [RouteProvider] is the Go interface: what reads a state answers, what a
    mutation answers and the state it leaves. A client is written against the
    class alone. [ProviderLaws] is what the Apply Protocol relies on of a
    provider: a mutation that fails changed nothing, and one that succeeded can
    be taken back by its inverse. [Base] is the provider of an unsupported
    platform; the in-memory provider is in FakeProvider. *)

From S2P Require Import Prelude.
From S2P Require Import Netip NetipText Domain Reconcile.

(** ** Errors

    [fmt.Errorf] keeps its format and what it was given; [%w] wraps. *)
Inductive error : Type :=
| Errorf (format : string) (args : list string)
| Wrapf (format : string) (args : list string) (cause : error).

#[export] Instance error_eq_dec : EqDecision error.
Proof. solve_decision. Defined.

(** ** The interface *)

Class RouteProvider (S : Type) : Type := {
  ListRoutes : Family -> S -> error + list Route;
  ListRules : Family -> S -> error + list PolicyRule;
  LookupRoute : addr -> S -> error + RouteDecision;
  DefaultGateway : Family -> S -> error + addr * string;
  Interfaces : S -> error + list Iface;
  DNSConfig : S -> error + DNSState;
  AddRoute : ManagedRoute -> S -> option error * S;
  DelRoute : ManagedRoute -> S -> option error * S;
  AddRule : ManagedRule -> S -> option error * S;
  DelRule : ManagedRule -> S -> option error * S;
  FlushOwned : S -> option error * S;
  GetCapabilities : S -> Capabilities;
  Name : S -> string;
}.

(** ** A platform with no backend (base.go) *)

Inductive Base : Type := mkBase.

Definition ErrNotImplemented : error := Errorf "riftroute: not implemented for this platform" [].

#[export] Instance BaseProvider : RouteProvider Base := {
  ListRoutes _ _ := inl ErrNotImplemented;
  ListRules _ _ := inl ErrNotImplemented;
  LookupRoute _ _ := inl ErrNotImplemented;
  DefaultGateway _ _ := inl ErrNotImplemented;
  Interfaces _ := inl ErrNotImplemented;
  DNSConfig _ := inl ErrNotImplemented;
  AddRoute _ s := (Some ErrNotImplemented, s);
  DelRoute _ s := (Some ErrNotImplemented, s);
  AddRule _ s := (Some ErrNotImplemented, s);
  DelRule _ s := (Some ErrNotImplemented, s);
  FlushOwned s := (Some ErrNotImplemented, s);
  GetCapabilities _ := mkCapabilities "unsupported" false false false false false false false "";
  Name _ := "unsupported";
}.

(** ** One operation of a plan, and the one that takes it back
    (safety/executor.go) *)

Definition inverseOp (op : PlanOp) : PlanOp :=
  let kind :=
    match op_Kind op with
    | OpAddRoute => OpDelRoute
    | OpDelRoute => OpAddRoute
    | OpAddRule => OpDelRule
    | OpDelRule => OpAddRule
    | OpOther k => OpOther k
    end in
  mkPlanOp kind (op_Route op) (op_Rule op) (op_Command op) (op_Human op).

Section Operations.
Context {S : Type} `{!RouteProvider S}.

Definition do_op (op : PlanOp) (s : S) : option error * S :=
  match op_Kind op with
  | OpAddRoute =>
      match op_Route op with
      | None => (Some (Errorf "add_route op missing route" []), s)
      | Some r => AddRoute r s
      end
  | OpDelRoute =>
      match op_Route op with
      | None => (Some (Errorf "del_route op missing route" []), s)
      | Some r => DelRoute r s
      end
  | OpAddRule =>
      match op_Rule op with
      | None => (Some (Errorf "add_rule op missing rule" []), s)
      | Some r => AddRule r s
      end
  | OpDelRule =>
      match op_Rule op with
      | None => (Some (Errorf "del_rule op missing rule" []), s)
      | Some r => DelRule r s
      end
  | OpOther kind => (Some (Errorf "unknown op kind %q" [kind]), s)
  end.
End Operations.

(** ** What a provider promises

    [same] is what the clients cannot tell apart. [undoable op s] says op can
    be taken back where it runs: it adds what is not there, or deletes what is
    there as recorded, and the inverse is not refused. *)
Class ProviderLaws (S : Type) `{RP : !RouteProvider S} : Type := {
  same : relation S;
  same_equiv : Equivalence same;
  undoable : PlanOp -> S -> Prop;
  do_error op s e s' : do_op op s = (Some e, s') -> same s' s;
  do_undo op s s' t : undoable op s -> do_op op s = (None, s') -> same t s' ->
    exists t', do_op (inverseOp op) t = (None, t') /\ same t' s;
}.
#[export] Existing Instance same_equiv.

(** A platform without a backend refuses everything, and so keeps everything. *)
#[export] Instance BaseLaws : ProviderLaws Base.
Proof.
  refine {| same := eq; undoable _ _ := False |}.
  - intros op [] e [] _. done.
  - done.
Defined.
