(* ===== verification/DnsCache.v ===== *)
(** * The cache of domain answers (internal/dns/resolver.go)

    The resolver is an argument: what it answers for a name. A lookup reads
    the clock before it asks and after; both are arguments. Go's zero time is
    [None]: nothing is recent against it. The names of one call are looked up
    together, each under its own entry, in an order nothing fixes. *)

From S2P Require Import Prelude.
From S2P Require Import Netip NetipText Domain Provider.

Definition second : Z := 1000000000.
Definition failTTL : Z := 120 * second.

Record cacheEntry : Type := mkEntry { ce_addrs : list addr; ce_at : option Z; ce_failed : option Z }.
Definition no_entry : cacheEntry := mkEntry [] None None.

Record Cache : Type := mkCache { dc_ttl : Z; dc_entries : gmap string cacheEntry }.

Definition NewCache (ttl : Z) : Cache := mkCache (if ttl <=? 0 then 60 * second else ttl) ∅.

Definition set_entry (c : Cache) (host : string) (e : cacheEntry) : Cache :=
  mkCache (dc_ttl c) (<[host := e]> (dc_entries c)).

(** [now.Sub(t) < d]. *)
Definition within_time (now : Z) (t : option Z) (d : Z) : bool :=
  match t with None => false | Some t => now - t <? d end.

Definition fresh (now : Z) (host : string) (c : Cache) : bool :=
  match dc_entries c !! host with
  | None => false
  | Some e => within_time now (ce_at e) (dc_ttl c) || within_time now (ce_failed e) failTTL
  end.

Definition addr_less (a b : addr) : bool := lt_of (AddrCompare a b).
Definition sortAddrs (l : list addr) : list addr := slice_stable addr_less l.
Definition sameAddrs (a b : list addr) : bool := bool_decide (a = b).

Section resolver.
Context (resolve : string -> error + list addr).

(** One lookup: the answer, whether the resolver was asked, whether the failure
    is told ([onFail]), the cache after. [canceled] says the caller gave up
    ([ctx.Err() != nil]). *)
Record looked : Type := mkLooked { lk_addrs : list addr; lk_asked : bool; lk_told : bool; lk_cache : Cache }.

Definition Lookup (canceled : bool) (now now' : Z) (host : string) (c : Cache) : looked :=
  if fresh now host c then mkLooked (ce_addrs (default no_entry (dc_entries c !! host))) false false c
  else match resolve host with
       | inl _ =>
           let e := default no_entry (dc_entries c !! host) in
           if canceled then mkLooked (ce_addrs e) true false c
           else mkLooked (ce_addrs e) true true (set_entry c host (mkEntry (ce_addrs e) (ce_at e) (Some now')))
       | inr addrs =>
           let addrs := sortAddrs addrs in
           mkLooked addrs true false (set_entry c host (mkEntry addrs (Some now') None))
       end.

(** [each]: every distinct name once. *)
Fixpoint distinct (seen : gset string) (hosts : list string) : list string :=
  match hosts with
  | [] => []
  | h :: hosts' => if bool_decide (h ∈ seen) then distinct seen hosts' else h :: distinct ({[h]} ∪ seen) hosts'
  end.

Definition lookup_step (canceled : bool) (now now' : Z) (acc : gmap string (list addr) * Cache) (h : string)
    : gmap string (list addr) * Cache :=
  let r := Lookup canceled now now' h (snd acc) in (<[h := lk_addrs r]> (fst acc), lk_cache r).

(** The names, in the order their lookups finish. *)
Definition LookupAll (canceled : bool) (now now' : Z) (order : list string) (c : Cache)
    : gmap string (list addr) * Cache :=
  fold_left (lookup_step canceled now now') order (∅, c).

Definition refresh_step (now : Z) (acc : bool * Cache) (h : string) : bool * Cache :=
  match resolve h with
  | inl _ => acc
  | inr addrs =>
      let addrs := sortAddrs addrs in
      let prev := default no_entry (dc_entries (snd acc) !! h) in
      (fst acc || negb (sameAddrs (ce_addrs prev) addrs), set_entry (snd acc) h (mkEntry addrs (Some now) None))
  end.

Definition Refresh (now : Z) (order : list string) (c : Cache) : bool * Cache :=
  fold_left (refresh_step now) order (false, c).
End resolver.

(** ** One lookup *)

Definition answer (c : Cache) (host : string) : list addr := ce_addrs (default no_entry (dc_entries c !! host)).

(** The fresh test reads only the name's own entry. *)
Lemma fresh_entry now h c c' : dc_ttl c = dc_ttl c' -> dc_entries c !! h = dc_entries c' !! h -> fresh now h c = fresh now h c'.
Proof. unfold fresh. by intros -> ->. Qed.

Lemma Lookup_ttl resolve canceled now now' h c : dc_ttl (lk_cache (Lookup resolve canceled now now' h c)) = dc_ttl c.
Proof. unfold Lookup. by repeat case_match. Qed.

Lemma Lookup_other resolve canceled now now' h c h' : h' <> h ->
  dc_entries (lk_cache (Lookup resolve canceled now now' h c)) !! h' = dc_entries c !! h'.
Proof. intros Hh. unfold Lookup. repeat case_match; simpl; [done|done|..]; by rewrite lookup_insert_ne. Qed.

(** What a lookup answers and leaves depends on the name's own entry only. *)
Lemma Lookup_local resolve canceled now now' h c c' :
  dc_ttl c = dc_ttl c' -> dc_entries c !! h = dc_entries c' !! h ->
  lk_addrs (Lookup resolve canceled now now' h c) = lk_addrs (Lookup resolve canceled now now' h c') /\
  dc_entries (lk_cache (Lookup resolve canceled now now' h c)) !! h =
  dc_entries (lk_cache (Lookup resolve canceled now now' h c')) !! h.
Proof.
  intros Ht He. unfold Lookup. rewrite (fresh_entry now h c c' Ht He), <- He.
  repeat case_match; simpl; rewrite ?lookup_insert_eq; auto.
Qed.

(** a domain rule never loses its addresses to a failing resolver, and a
    name is asked again only when its answer or its failure has expired. A
    lookup within the lifetime of either answers from the cache without asking
    and changes nothing. An answered one is kept sorted; asked again before the
    lifetime is over it is not asked. A failed one keeps the last good answer
    and its time, and, unless the caller gave up, the name is not asked for
    [failTTL]. *)
Theorem Lookup_keeps_answers resolve canceled now now' host c :
  let r := Lookup resolve canceled now now' host c in
  let again := fun t => lk_asked (Lookup resolve canceled t t host (lk_cache r)) in
  (fresh now host c = true -> r = mkLooked (answer c host) false false c) /\
  (fresh now host c = false ->
     lk_asked r = true /\
     match resolve host with
     | inr addrs => lk_addrs r = answer (lk_cache r) host /\ lk_addrs r = sortAddrs addrs /\
         forall t, now' <= t < now' + dc_ttl c -> again t = false
     | inl _ => lk_addrs r = answer c host /\ answer (lk_cache r) host = answer c host /\
         (canceled = true -> lk_cache r = c) /\
         (canceled = false -> lk_told r = true /\ forall t, now' <= t < now' + failTTL -> again t = false)
     end).
Proof.
  intros r again.
  assert (Hag : forall t e, within_time t (ce_at e) (dc_ttl c) || within_time t (ce_failed e) failTTL = true ->
    lk_asked (Lookup resolve canceled t t host (set_entry c host e)) = false).
  { intros t e H. unfold Lookup, fresh. simpl. rewrite lookup_insert_eq. simpl. by rewrite H. }
  split; intros Hf; [unfold r, Lookup; by rewrite Hf|].
  unfold again. clear again. remember r as r' eqn:Hr. unfold r, Lookup in Hr. clear r. rewrite Hf in Hr.
  destruct (resolve host) as [err|addrs] eqn:E.
  - destruct canceled; subst r'; cbn [lk_asked lk_addrs lk_cache lk_told]; split_and!; try done.
    + unfold answer. simpl. by rewrite lookup_insert_eq.
    + intros _. split; [done|]. intros t Ht. apply Hag. simpl. apply orb_true_iff. right. apply Z.ltb_lt. lia.
  - subst r'. cbn [lk_asked lk_addrs lk_cache lk_told]. split_and!; [done| |done|].
    + unfold answer. simpl. by rewrite lookup_insert_eq.
    + intros t Ht. apply Hag. simpl. apply orb_true_iff. left. apply Z.ltb_lt. lia.
Qed.

(** ** Many names *)

Lemma lookup_step_comm resolve canceled now now' acc h1 h2 : h1 <> h2 ->
  lookup_step resolve canceled now now' (lookup_step resolve canceled now now' acc h1) h2 =
  lookup_step resolve canceled now now' (lookup_step resolve canceled now now' acc h2) h1.
Proof.
  intros Hh. destruct acc as [m c]. unfold lookup_step. cbn [fst snd].
  set (L := Lookup resolve canceled now now').
  assert (forall a b x, a <> b -> lk_addrs (L b (lk_cache (L a x))) = lk_addrs (L b x) /\
            dc_entries (lk_cache (L b (lk_cache (L a x)))) !! b = dc_entries (lk_cache (L b x)) !! b) as Hl.
  { intros a b x Hab. apply Lookup_local; [apply Lookup_ttl|]. by apply Lookup_other. }
  f_equal.
  - rewrite (proj1 (Hl h1 h2 c Hh)), (proj1 (Hl h2 h1 c (not_eq_sym Hh))). by rewrite insert_insert_ne.
  - assert (forall x y : Cache, dc_ttl x = dc_ttl y -> dc_entries x = dc_entries y -> x = y) as Hc.
    { intros [] []; simpl. by intros -> ->. }
    apply Hc; [unfold L; by rewrite !Lookup_ttl|]. apply map_eq. intros h. unfold L.
    destruct (decide (h = h2)) as [->|H2]; [|destruct (decide (h = h1)) as [->|H1]].
    + rewrite (Lookup_other _ _ _ _ h1) by done. by apply Hl.
    + rewrite (Lookup_other _ _ _ _ h2) by done. symmetry. apply Hl. done.
    + by rewrite !Lookup_other.
Qed.

(** A fold whose steps commute pairwise does not depend on the order. *)
Lemma fold_left_perm {A B} (f : A -> B -> A) l1 l2 :
  (forall a x y, x <> y -> f (f a x) y = f (f a y) x) -> NoDup l1 -> l1 ≡ₚ l2 ->
  forall a, fold_left f l1 a = fold_left f l2 a.
Proof.
  intros Hf Hn Hp. induction Hp as [|x l1 l2 Hp IH|x y l|l1 l2 l3 H12 IH1 H23 IH2]; intros a; simpl; [done|..].
  - apply NoDup_cons in Hn as [_ Hn]. by apply IH.
  - apply NoDup_cons in Hn as [Hx Hn]. rewrite Hf; [done|]. set_solver.
  - rewrite IH1 by done. apply IH2. by rewrite <- H12.
Qed.

Lemma distinct_spec hosts : forall seen,
  NoDup (distinct seen hosts) /\ forall h, h ∈ distinct seen hosts <-> h ∈ hosts /\ h ∉ seen.
Proof.
  induction hosts as [|x hosts IH]; intros seen; simpl.
  - split; [constructor|]. set_solver.
  - case_if; bool_hyps.
    + destruct (IH seen) as [H1 H2]. split; [done|]. intros h. rewrite H2. set_solver.
    + destruct (IH ({[x]} ∪ seen)) as [H1 H2]. split.
      * constructor; [|done]. rewrite H2. set_solver.
      * intros h. rewrite elem_of_cons, H2. destruct (decide (h = x)); set_solver.
Qed.

(** Each name's result, whatever the order. *)
Lemma lookups_at resolve canceled now now' order : NoDup order -> forall acc h, h ∈ order ->
  fst (fold_left (lookup_step resolve canceled now now') order acc) !! h =
  Some (lk_addrs (Lookup resolve canceled now now' h (snd acc))).
Proof.
  assert (Hout : forall l acc h, h ∉ l -> fst (fold_left (lookup_step resolve canceled now now') l acc) !! h = fst acc !! h).
  { induction l as [|x l IH]; intros acc h Hh; simpl; [done|]. rewrite IH by set_solver. simpl. rewrite lookup_insert_ne by set_solver. done. }
  induction order as [|x order IH]; intros Hn acc h Hh; [set_solver|]. apply NoDup_cons in Hn as [Hx Hn]. simpl.
  destruct (decide (h = x)) as [->|Hne].
  - rewrite Hout by done. simpl. by rewrite lookup_insert_eq.
  - rewrite IH by set_solver. simpl. f_equal. apply Lookup_local; [apply Lookup_ttl|by apply Lookup_other].
Qed.

(** looking names up together is looking each up alone: whatever the order
    in which the lookups of the distinct names finish, the cache ends the same,
    and each name's answer is that of its own lookup. *)
Theorem LookupAll_order resolve canceled now now' hosts order c :
  order ≡ₚ distinct ∅ hosts ->
  LookupAll resolve canceled now now' order c = LookupAll resolve canceled now now' (distinct ∅ hosts) c /\
  forall h, h ∈ hosts ->
    fst (LookupAll resolve canceled now now' order c) !! h = Some (lk_addrs (Lookup resolve canceled now now' h c)).
Proof.
  intros Hp. destruct (distinct_spec hosts ∅) as [Hn Hin]. split.
  - apply fold_left_perm; [intros; by apply lookup_step_comm| |done]. by rewrite Hp.
  - intros h Hh. apply (lookups_at resolve canceled now now' order); [by rewrite Hp|]. rewrite Hp, Hin. set_solver.
Qed.

Definition ex_resolve (h : string) : error + list addr :=
  if h =s? "a.example" then inr [Addr4 2; Addr4 1] else inl (Errorf "no such host" [h]).

Lemma LookupAll_order_witness :
  LookupAll ex_resolve false 5 6 ["b.example"; "a.example"] (NewCache 60) =
  LookupAll ex_resolve false 5 6 ["a.example"; "b.example"] (NewCache 60).
Proof.
  refine (proj1 (LookupAll_order ex_resolve false 5 6 ["a.example"; "b.example"; "a.example"] ["b.example"; "a.example"] (NewCache 60) _)).
  vm_compute. constructor.
Defined.


(** The re-resolver reports a change exactly when a name it could resolve has
    another answer than the cached one. *)
Lemma Refresh_exact resolve now order c : NoDup order ->
  fst (Refresh resolve now order c) = true <->
  exists h addrs, h ∈ order /\ resolve h = inr addrs /\ answer c h <> sortAddrs addrs.
Proof.
  unfold Refresh. intros Hn.
  assert (forall acc, fst (fold_left (refresh_step resolve now) order acc) = true <-> fst acc = true \/
    exists h addrs, h ∈ order /\ resolve h = inr addrs /\ answer (snd acc) h <> sortAddrs addrs) as H.
  { induction order as [|x l IH]; intros acc; simpl; [setoid_rewrite elem_of_nil; naive_solver|].
    apply NoDup_cons in Hn as [Hx Hn]. rewrite (IH Hn).
    setoid_rewrite elem_of_cons. unfold refresh_step. destruct (resolve x) as [e|addrs] eqn:E.
    { split; [intros [?|(h & a & ?)]; [by left|right; exists h, a; tauto]|].
      intros [?|(h & a & [->|Hh] & Hr & Hd)]; [by left|congruence|right; eauto]. }
    cbn [fst snd].
    rewrite orb_true_iff, negb_true_iff. unfold sameAddrs. rewrite bool_decide_eq_false. fold (answer (snd acc) x).
    assert (forall h, h ∈ l -> answer (set_entry (snd acc) x (mkEntry (sortAddrs addrs) (Some now) None)) h = answer (snd acc) h) as Ha.
    { intros h Hh. unfold answer. simpl. rewrite lookup_insert_ne by set_solver. done. }
    split.
    - intros [[?|?]|(h & a & Hh & Hr & Hd)]; [by left|right; exists x, addrs; auto|].
      right. exists h, a. rewrite Ha in Hd by done. auto.
    - intros [?|(h & a & [->|Hh] & Hr & Hd)]; [auto|left; right; congruence|].
      right. exists h, a. rewrite Ha by done. auto. }
  rewrite H. cbn [fst snd]. split; [|by right]. by intros [?|?].
Qed.
