(* ===== verification/FakeProvider.v ===== *)
(** * The in-memory provider (internal/provider/fake/fake.go)

    A simulated routing table, rule set and interface list, with the failures
    tests inject. It implements [RouteProvider]; [FakeLaws] discharges
    [ProviderLaws], telling states apart only up to the order of their routes
    and rules. *)

From S2P Require Import Prelude.
From S2P Require Import Netip NetipText Domain Reconcile Simulate Provider.

(** A map of booleans, and a set kept as one: what is true in it. *)
Record Fake : Type := mkFake {
  f_ifaces : list Iface;
  f_routesV4 : list Route;
  f_routesV6 : list Route;
  f_rules : list PolicyRule;
  f_dns : DNSState;
  f_physGW : gmap string addr;
  f_physIface : string;
  f_caps : Capabilities;
  f_managedKey : gset string;
  f_tables : gmap string (list Route);
  f_failAdd : gset string;
  f_failDel : gset string;
}.

Definition set_ifaces (f : Fake) l := mkFake l (f_routesV4 f) (f_routesV6 f) (f_rules f) (f_dns f)
  (f_physGW f) (f_physIface f) (f_caps f) (f_managedKey f) (f_tables f) (f_failAdd f) (f_failDel f).
Definition set_routesV4 (f : Fake) l := mkFake (f_ifaces f) l (f_routesV6 f) (f_rules f) (f_dns f)
  (f_physGW f) (f_physIface f) (f_caps f) (f_managedKey f) (f_tables f) (f_failAdd f) (f_failDel f).
Definition set_routesV6 (f : Fake) l := mkFake (f_ifaces f) (f_routesV4 f) l (f_rules f) (f_dns f)
  (f_physGW f) (f_physIface f) (f_caps f) (f_managedKey f) (f_tables f) (f_failAdd f) (f_failDel f).
Definition set_rules (f : Fake) l := mkFake (f_ifaces f) (f_routesV4 f) (f_routesV6 f) l (f_dns f)
  (f_physGW f) (f_physIface f) (f_caps f) (f_managedKey f) (f_tables f) (f_failAdd f) (f_failDel f).
Definition set_managedKey (f : Fake) m := mkFake (f_ifaces f) (f_routesV4 f) (f_routesV6 f) (f_rules f)
  (f_dns f) (f_physGW f) (f_physIface f) (f_caps f) m (f_tables f) (f_failAdd f) (f_failDel f).
Definition set_tables (f : Fake) t := mkFake (f_ifaces f) (f_routesV4 f) (f_routesV6 f) (f_rules f)
  (f_dns f) (f_physGW f) (f_physIface f) (f_caps f) (f_managedKey f) t (f_failAdd f) (f_failDel f).
Definition set_fails (f : Fake) a d := mkFake (f_ifaces f) (f_routesV4 f) (f_routesV6 f) (f_rules f)
  (f_dns f) (f_physGW f) (f_physIface f) (f_caps f) (f_managedKey f) (f_tables f) a d.
Definition set_phys (f : Fake) gw iface := mkFake (f_ifaces f) (f_routesV4 f) (f_routesV6 f) (f_rules f)
  (f_dns f) gw iface (f_caps f) (f_managedKey f) (f_tables f) (f_failAdd f) (f_failDel f).
Definition set_dns (f : Fake) d := mkFake (f_ifaces f) (f_routesV4 f) (f_routesV6 f) (f_rules f)
  d (f_physGW f) (f_physIface f) (f_caps f) (f_managedKey f) (f_tables f) (f_failAdd f) (f_failDel f).

Definition sys_route (dst gw iface : string) (fam owner : string) : Route :=
  mkRoute dst gw iface 0 fam owner "" "" "" false false false.

Definition seed_ifaces : list Iface :=
  [mkIface "lo0" true IfaceKindLoopback ["127.0.0.1/8"; "::1/128"] 16384 false;
   mkIface "en0" true IfaceKindPhysical ["192.168.1.50/24"; "fe80::1c%en0/64"] 1500 false;
   mkIface "utun3" true IfaceKindUtun ["10.8.0.2/32"] 1400 true].

Definition seed_v4 : list Route :=
  [sys_route "0.0.0.0/0" "10.8.0.1" "utun3" FamilyV4 OwnerVPN;
   sys_route "10.8.0.0/24" "" "utun3" FamilyV4 OwnerVPN;
   sys_route "192.168.1.0/24" "" "en0" FamilyV4 OwnerSystem;
   sys_route "127.0.0.0/8" "" "lo0" FamilyV4 OwnerSystem].

Definition seed_v6 : list Route :=
  [sys_route "::1/128" "" "lo0" FamilyV6 OwnerSystem;
   sys_route "fe80::/64" "" "en0" FamilyV6 OwnerSystem].

Definition seed_rules : list PolicyRule :=
  [mkPolicyRule 0 "from all" "local" FamilyV4 "" "" "";
   mkPolicyRule 32766 "from all" "main" FamilyV4 "" "" "";
   mkPolicyRule 32767 "from all" "default" FamilyV4 "" "" ""].

Definition New : Fake :=
  mkFake seed_ifaces seed_v4 seed_v6 seed_rules
    (mkDNSState ["10.8.0.1"] ["corp.example.com"] "utun3")
    {[FamilyV4 := Addr4 3232235777]} "en0"
    (mkCapabilities "fake" true true true true true true true "fake") ∅ ∅ ∅ ∅.

(** ** Internals *)

(** The table a family is kept in: everything but v6 is with v4. *)
Definition table_of (fam : Family) (f : Fake) : list Route :=
  if fam =s? FamilyV6 then f_routesV6 f else f_routesV4 f.
Definition set_table_of (fam : Family) (f : Fake) (l : list Route) : Fake :=
  if fam =s? FamilyV6 then set_routesV6 f l else set_routesV4 f l.

Definition appendRoute (rt : Route) (f : Fake) : Fake :=
  set_table_of (rt_Family rt) f (table_of (rt_Family rt) f ++ [rt]).

Definition removeRoute (fam : Family) (idx : nat) (f : Fake) : Fake :=
  set_table_of fam f (delete idx (table_of fam f)).

Definition same_entry (rt r : Route) : bool :=
  (rt_DstCIDR r =s? rt_DstCIDR rt) && (rt_Gateway r =s? rt_Gateway rt) && (rt_Iface r =s? rt_Iface rt)
  && (rt_Table r =s? rt_Table rt) && Bool.eqb (rt_Reject r) (rt_Reject rt).

(** The loops that look for an index; -1 is [None]. *)
Fixpoint find_index {A} (P : A -> bool) (l : list A) : option nat :=
  match l with
  | [] => None
  | x :: l' => if P x then Some O else S <$> find_index P l'
  end.

Definition indexOf (rt : Route) (f : Fake) : option nat :=
  find_index (same_entry rt) (table_of (rt_Family rt) f).

Definition indexOfCIDR (fam : Family) (cidr : string) (f : Fake) : option nat :=
  find_index (fun r => rt_DstCIDR r =s? cidr) (table_of fam f).

Definition filterOwned (l : list Route) : list Route :=
  keep_if (fun r => negb (rt_Owner r =s? OwnerRiftRoute)) l.

Definition routeKey (r : Route) : string :=
  let k := rt_Family r +:+ "|" +:+ rt_Table r +:+ "|" +:+ rt_DstCIDR r +:+ "|" +:+
           rt_Gateway r +:+ "|" +:+ rt_Iface r in
  if rt_Reject r then k +:+ "|reject" else k.

Fixpoint ifaceIsVPN (ifaces : list Iface) (name : string) : bool :=
  match ifaces with
  | [] => false
  | i :: ifaces' => if if_Name i =s? name then if_IsVPN i else ifaceIsVPN ifaces' name
  end.

(** ** Reads *)

Definition fake_ListRoutes (family : Family) (f : Fake) : error + list Route :=
  if family =s? FamilyV4 then inr (f_routesV4 f)
  else if family =s? FamilyV6 then inr (f_routesV6 f)
  else inl (Errorf "fake: unknown family %q" [family]).

Definition fake_ListRules (family : Family) (f : Fake) : error + list PolicyRule :=
  inr (keep_if (fun r => pr_Family r =s? family) (f_rules f)).

Definition fake_DefaultGateway (family : Family) (f : Fake) : error + addr * string :=
  match f_physGW f !! family with
  | None => inl (Errorf "fake: no physical gateway for %s" [family])
  | Some gw => inr (gw, f_physIface f)
  end.

(** The loop of [LookupRoute]; unlike [Simulate]'s it compares no families: the
    table holds one. *)
Fixpoint lookup_loop (routes : list Route) (dst : addr) (best : option Route) (bestBits : Z)
    : option Route :=
  match routes with
  | [] => best
  | r :: routes' =>
      match ParsePrefix (rt_DstCIDR r) with
      | None => lookup_loop routes' dst best bestBits
      | Some pfx =>
          if Contains pfx dst && (bestBits <? p_bits pfx)
          then lookup_loop routes' dst (Some r) (p_bits pfx)
          else lookup_loop routes' dst best bestBits
      end
  end.

Definition fake_LookupRoute (dst : addr) (f : Fake) : error + RouteDecision :=
  let fam := if Is6 dst then FamilyV6 else FamilyV4 in
  let routes := if Is6 dst then f_routesV6 f else f_routesV4 f in
  let target := addr_String dst in
  inr match lookup_loop routes dst None (-1) with
      | None => mkRouteDecision target "kernel" "" "" "" fam "" "" false "" "" false false
      | Some r =>
          if rt_Reject r then
            mkRouteDecision target "kernel" (rt_DstCIDR r) "" "" fam (rt_Owner r) (rt_Profile r) false
              "" "" false true
          else
            mkRouteDecision target "kernel" (rt_DstCIDR r) (rt_Gateway r) (rt_Iface r) fam (rt_Owner r)
              (rt_Profile r) (ifaceIsVPN (f_ifaces f) (rt_Iface r)) "" "" true false
      end.

Definition ListTable (family : Family) (table : string) (f : Fake) : list Route :=
  keep_if (fun r => rt_Family r =s? family) (default [] (f_tables f !! table)).

Definition CountManaged (f : Fake) : Z :=
  Z.of_nat (length (keep_if (fun r => rt_Owner r =s? OwnerRiftRoute) (f_routesV4 f ++ f_routesV6 f))).

(** ** Mutations *)

Definition with_owner (rt : Route) (owner proto profile : string) : Route :=
  mkRoute (rt_DstCIDR rt) (rt_Gateway rt) (rt_Iface rt) (rt_Metric rt) (rt_Family rt) owner proto
    (rt_Table rt) profile (rt_Cloned rt) (rt_Scoped rt) (rt_Reject rt).

(** The route as the table keeps it: tagged ours when a profile adds it. *)
Definition stamp (r : ManagedRoute) : Route :=
  let rt := mr_Route r in
  if negb (mr_ProfileID r =s? "") then with_owner rt OwnerRiftRoute "riftroute" (mr_ProfileID r)
  else if rt_Owner rt =s? "" then with_owner rt OwnerSystem (rt_Proto rt) (rt_Profile rt)
  else rt.

Definition mark (r : ManagedRoute) (key : string) (f : Fake) : Fake :=
  if negb (mr_ProfileID r =s? "") then set_managedKey f ({[key]} ∪ f_managedKey f) else f.

Definition fake_AddRoute (r : ManagedRoute) (f : Fake) : option error * Fake :=
  if bool_decide (rt_DstCIDR (mr_Route r) ∈ f_failAdd f)
  then (Some (Errorf "fake: injected AddRoute failure for %s" [rt_DstCIDR (mr_Route r)]), f)
  else
    let rt := stamp r in
    let key := routeKey rt in
    match indexOf rt f with
    | Some _ => (None, mark r key f)
    | None => (None, mark r key (appendRoute rt f))
    end.

Definition unmark (key : string) (f : Fake) : Fake := set_managedKey f (f_managedKey f ∖ {[key]}).

Definition fake_DelRoute (r : ManagedRoute) (f : Fake) : option error * Fake :=
  if bool_decide (rt_DstCIDR (mr_Route r) ∈ f_failDel f)
  then (Some (Errorf "fake: injected DelRoute failure for %s" [rt_DstCIDR (mr_Route r)]), f)
  else if mr_ProfileID r =s? "" then
    let rt := mr_Route r in
    match indexOf rt f with
    | Some idx => (None, unmark (routeKey rt) (removeRoute (rt_Family rt) idx f))
    | None =>
        let rt := with_owner rt OwnerRiftRoute "riftroute" (rt_Profile rt) in
        match indexOf rt f with
        | Some idx => (None, unmark (routeKey rt) (removeRoute (rt_Family rt) idx f))
        | None => (None, f)
        end
    end
  else
    let rt := with_owner (mr_Route r) OwnerRiftRoute "riftroute" (mr_ProfileID r) in
    let key := routeKey rt in
    if negb (bool_decide (key ∈ f_managedKey f))
    then (Some (Errorf "fake: refusing to delete unowned route %s" [rt_DstCIDR rt]), f)
    else
      match indexOf rt f with
      | None => (None, unmark key f)
      | Some idx => (None, unmark key (removeRoute (rt_Family rt) idx f))
      end.

Definition with_proto (pr : PolicyRule) (proto : string) : PolicyRule :=
  mkPolicyRule (pr_Priority pr) (pr_Selector pr) (pr_Table pr) (pr_Family pr) proto (pr_RouteToIface pr)
    (pr_RouteToGW pr).

Definition rule_less (a b : PolicyRule) : bool := pr_Priority a <? pr_Priority b.

Definition fake_AddRule (r : ManagedRule) (f : Fake) : option error * Fake :=
  (None, set_rules f (slice_stable rule_less (f_rules f ++ [with_proto (ml_Rule r) "riftroute"]))).

Definition same_rule (r pr : PolicyRule) : bool :=
  (pr_Priority pr =? pr_Priority r) && (pr_Selector pr =s? pr_Selector r) && (pr_Table pr =s? pr_Table r)
  && (pr_Family pr =s? pr_Family r) && (pr_RouteToIface pr =s? pr_RouteToIface r)
  && (pr_RouteToGW pr =s? pr_RouteToGW r).

Definition fake_DelRule (r : ManagedRule) (f : Fake) : option error * Fake :=
  match find_index (same_rule (ml_Rule r)) (f_rules f) with
  | Some i => (None, set_rules f (delete i (f_rules f)))
  | None => (None, f)
  end.

Definition fake_FlushOwned (f : Fake) : option error * Fake :=
  let f := set_routesV4 f (filterOwned (f_routesV4 f)) in
  let f := set_routesV6 f (filterOwned (f_routesV6 f)) in
  let f := set_rules f (keep_if (fun r => negb (pr_Proto r =s? "riftroute")) (f_rules f)) in
  (None, set_managedKey f ∅).

#[export] Instance FakeProvider : RouteProvider Fake := {
  ListRoutes := fake_ListRoutes;
  ListRules := fake_ListRules;
  LookupRoute := fake_LookupRoute;
  DefaultGateway := fake_DefaultGateway;
  Interfaces f := inr (f_ifaces f);
  DNSConfig f := inr (f_dns f);
  AddRoute := fake_AddRoute;
  DelRoute := fake_DelRoute;
  AddRule := fake_AddRule;
  DelRule := fake_DelRule;
  FlushOwned := fake_FlushOwned;
  GetCapabilities := f_caps;
  Name _ := "fake";
}.

(** ** What tests and a dev daemon do to it *)

Definition set_in (m : gset string) (k : string) (b : bool) : gset string :=
  if b then {[k]} ∪ m else m ∖ {[k]}.

Definition FailAddRoute (cidr : string) (fail : bool) (f : Fake) : Fake :=
  set_fails f (set_in (f_failAdd f) cidr fail) (f_failDel f).
Definition FailDelRoute (cidr : string) (fail : bool) (f : Fake) : Fake :=
  set_fails f (f_failAdd f) (set_in (f_failDel f) cidr fail).

Definition set_up (i : Iface) (up : bool) : Iface :=
  mkIface (if_Name i) up (if_Kind i) (if_Addrs i) (if_MTU i) (if_IsVPN i).

Definition drop_index {A} (i : option nat) (l : list A) : list A :=
  match i with Some i => delete i l | None => l end.

Definition SetVPN (up : bool) (f : Fake) : Fake :=
  let f := set_ifaces f (map (fun i => if if_Name i =s? "utun3" then set_up i up else i) (f_ifaces f)) in
  let rest := drop_index (indexOfCIDR FamilyV4 "0.0.0.0/0" f) (f_routesV4 f) in
  set_routesV4 f
    (if up then sys_route "0.0.0.0/0" "10.8.0.1" "utun3" FamilyV4 OwnerVPN :: rest
     else rest ++ [sys_route "0.0.0.0/0" "192.168.1.1" "en0" FamilyV4 OwnerSystem]).

Definition PurgeIface (iface : string) (f : Fake) : Fake :=
  let keep := keep_if (fun r => negb (rt_Iface r =s? iface)) in
  set_routesV6 (set_routesV4 f (keep (f_routesV4 f))) (keep (f_routesV6 f)).

Definition SetPhysGateway (fam : Family) (gw : addr) (iface : string) (f : Fake) : Fake :=
  set_phys f (<[fam := gw]> (f_physGW f)) iface.

Definition SetDNS (servers : list string) (f : Fake) : Fake :=
  set_dns f (mkDNSState servers (dns_SearchDomains (f_dns f)) (dns_Iface (f_dns f))).

Definition drop_iface (name : string) (l : list Iface) : list Iface :=
  drop_index (find_index (fun i => if_Name i =s? name) l) l.

Definition SetTunnelIface (name addr : string) (up : bool) (f : Fake) : Fake :=
  let rest := drop_iface name (f_ifaces f) in
  set_ifaces f (if up then rest ++ [mkIface name true IfaceKindUtun [addr +:+ "/24"] 0 true] else rest).

Definition ts_route (dst : string) : Route :=
  mkRoute dst "" "tailscale0" 0 FamilyV4 OwnerVPN "" "52" "" false false false.

Definition SetTailscale (up exitNode : bool) (f : Fake) : Fake :=
  let rest := drop_iface "tailscale0" (f_ifaces f) in
  let tables := delete "52" (f_tables f) in
  if negb up then set_tables (set_ifaces f rest) tables
  else
    let routes := [ts_route "100.88.0.4/32"; ts_route "100.100.100.100/32"; ts_route "10.20.0.0/16"] in
    let routes := if exitNode then routes ++ [ts_route "0.0.0.0/0"] else routes in
    set_tables
      (set_ifaces f (rest ++ [mkIface "tailscale0" true IfaceKindOther ["100.101.2.3/32"] 1280 false]))
      (<["52" := routes]> tables).

(** ** Finding and removing an entry *)

Section find.
Context {A : Type} (P : A -> bool).

Lemma find_index_none l : find_index P l = None <-> forall x, x ∈ l -> P x = false.
Proof.
  induction l as [|y l IH]; simpl; [split; [intros _ x Hx; by apply elem_of_nil in Hx|done]|].
  destruct (P y) eqn:E.
  - split; [done|]. intros H. rewrite (H y) in E by by left. done.
  - rewrite fmap_None, IH. split.
    + intros H x [->|Hx]%elem_of_cons; auto.
    + intros H x Hx. apply H. by right.
Qed.

Lemma find_index_some l i : find_index P l = Some i ->
  exists x, l !! i = Some x /\ P x = true /\ l ≡ₚ x :: delete i l.
Proof.
  revert i. induction l as [|y l IH]; simpl; intros i H; [done|].
  destruct (P y) eqn:E; [simplify_eq; by exists y|].
  apply fmap_Some in H as (j & Hj & ->). destruct (IH j Hj) as (x & Hx & HP & Hp).
  exists x. split; [done|]. split; [done|]. simpl.
  rewrite Hp at 1. apply Permutation_swap.
Qed.

Lemma perm_split l : l ≡ₚ keep_if P l ++ keep_if (fun x => negb (P x)) l.
Proof.
  induction l as [|y l IH]; simpl; [done|]. destruct (P y); simpl; rewrite IH at 1; [done|].
  apply Permutation_middle.
Qed.

(** With one match in a list, any order of it, that is the one removed. *)
Lemma find_index_only l x rest :
  l ≡ₚ x :: rest -> P x = true -> (forall y, y ∈ rest -> P y = false) ->
  exists i, find_index P l = Some i /\ delete i l ≡ₚ rest.
Proof.
  intros Hl Hx Hrest. destruct (find_index P l) as [i|] eqn:E.
  - exists i. split; [done|]. destruct (find_index_some l i E) as (y & _ & Hy & Hp).
    assert (x :: rest ≡ₚ y :: delete i l) as Hp' by (by rewrite <- Hl).
    assert (y = x) as ->.
    { assert (y ∈ x :: rest) as [->|Hin]%elem_of_cons by (rewrite Hp'; by left); [done|].
      rewrite Hrest in Hy; done. }
    symmetry. by apply (Permutation_cons_inv Hp').
  - exfalso. rewrite find_index_none in E. rewrite (E x) in Hx; [done|]. rewrite Hl. by left.
Qed.
End find.

Lemma same_entry_refl rt o p pf : same_entry rt (with_owner rt o p pf) = true.
Proof. unfold same_entry. simpl. rewrite !String.eqb_refl. by destruct (rt_Reject rt). Qed.

Lemma same_entry_stamp rt r : same_entry (stamp rt) r = same_entry (mr_Route rt) r.
Proof. unfold stamp. repeat case_if; done. Qed.

Lemma same_entry_stamp_r r : same_entry (mr_Route r) (stamp r) = true.
Proof.
  unfold stamp. repeat case_if; try apply same_entry_refl.
  unfold same_entry. rewrite !String.eqb_refl. by destruct (rt_Reject _).
Qed.

Lemma stamp_key r : routeKey (stamp r) = routeKey (mr_Route r).
Proof. unfold stamp. repeat case_if; done. Qed.

Lemma stamp_family r : rt_Family (stamp r) = rt_Family (mr_Route r).
Proof. unfold stamp. repeat case_if; done. Qed.

Lemma indexOf_stamp r f : indexOf (stamp r) f = indexOf (mr_Route r) f.
Proof.
  unfold indexOf. rewrite stamp_family. generalize (table_of (rt_Family (mr_Route r)) f).
  induction l as [|x l IH]; simpl; [done|]. by rewrite same_entry_stamp, IH.
Qed.

Lemma indexOf_owner rt o p pf f : indexOf (with_owner rt o p pf) f = indexOf rt f.
Proof. done. Qed.

(** ** States no client tells apart *)

Record fake_same (f g : Fake) : Prop := mkSame {
  fs_v4 : f_routesV4 f ≡ₚ f_routesV4 g;
  fs_v6 : f_routesV6 f ≡ₚ f_routesV6 g;
  fs_rules : f_rules f ≡ₚ f_rules g;
  fs_rest : set_rules (set_routesV6 (set_routesV4 f []) []) [] = set_rules (set_routesV6 (set_routesV4 g []) []) [];
}.

#[export] Instance fake_same_equiv : Equivalence fake_same.
Proof.
  split.
  - intros f. by split.
  - intros f g []. by split.
  - intros f g h [H1 H2 H3 H4] [G1 G2 G3 G4]. split; [by rewrite H1|by rewrite H2|by rewrite H3|by rewrite H4].
Qed.

Lemma fake_same_table fam f g : fake_same f g -> table_of fam f ≡ₚ table_of fam g.
Proof. intros []. unfold table_of. by case_if. Qed.

Lemma fake_same_fields f g : fake_same f g ->
  f_managedKey f = f_managedKey g /\ f_failAdd f = f_failAdd g /\ f_failDel f = f_failDel g.
Proof.
  intros [_ _ _ H].
  exact (conj (f_equal f_managedKey H) (conj (f_equal f_failAdd H) (f_equal f_failDel H))).
Qed.

#[export] Instance set_table_of_proper fam : Proper (fake_same ==> Permutation ==> fake_same) (set_table_of fam).
Proof.
  intros f g [H1 H2 H3 H4] l l' Hl. unfold set_table_of. case_if; by split.
Qed.

#[export] Instance set_managedKey_proper : Proper (fake_same ==> eq ==> fake_same) set_managedKey.
Proof.
  intros f g [H1 H2 H3 H4] m ? <-. split; [done..|].
  change (set_managedKey (set_rules (set_routesV6 (set_routesV4 f []) []) []) m =
          set_managedKey (set_rules (set_routesV6 (set_routesV4 g []) []) []) m). by rewrite H4.
Qed.

#[export] Instance set_rules_proper : Proper (fake_same ==> Permutation ==> fake_same) set_rules.
Proof. intros f g [H1 H2 H3 H4] l l' Hl. by split. Qed.

Lemma set_table_of_id fam f : set_table_of fam f (table_of fam f) = f.
Proof. unfold set_table_of, table_of. case_if; by destruct f. Qed.
Lemma set_table_of_twice fam f l l' : set_table_of fam (set_table_of fam f l) l' = set_table_of fam f l'.
Proof. unfold set_table_of. by case_if. Qed.
Lemma table_of_set fam f l : table_of fam (set_table_of fam f l) = l.
Proof. unfold table_of, set_table_of. by case_if. Qed.
Lemma set_table_managed fam f l m : set_table_of fam (set_managedKey f m) l = set_managedKey (set_table_of fam f l) m.
Proof. unfold set_table_of. by case_if. Qed.
Lemma table_of_managed fam f m : table_of fam (set_managedKey f m) = table_of fam f.
Proof. unfold table_of. by case_if. Qed.
Lemma managed_set_table fam f l : f_managedKey (set_table_of fam f l) = f_managedKey f.
Proof. unfold set_table_of. by case_if. Qed.
Lemma fails_set_table fam f l :
  f_failAdd (set_table_of fam f l) = f_failAdd f /\ f_failDel (set_table_of fam f l) = f_failDel f.
Proof. unfold set_table_of. by case_if. Qed.
Lemma set_managed_id f : set_managedKey f (f_managedKey f) = f.
Proof. by destruct f. Qed.

(** ** The provider's promise *)

(** A state with one table and the owned keys replaced. *)
Definition put (fam : Family) (l : list Route) (m : gset string) (f : Fake) : Fake :=
  set_managedKey (set_table_of fam f l) m.

Lemma put_same fam l l' m f g : fake_same f g -> l ≡ₚ l' -> fake_same (put fam l m f) (put fam l' m g).
Proof. intros H Hl. unfold put. by rewrite H, Hl. Qed.

Lemma put_put fam l l' m m' f : put fam l' m' (put fam l m f) = put fam l' m' f.
Proof. unfold put. by rewrite set_table_managed, set_table_of_twice. Qed.

Lemma put_id fam f : put fam (table_of fam f) (f_managedKey f) f = f.
Proof. unfold put. by rewrite set_table_of_id, set_managed_id. Qed.

Lemma put_fields fam l m f :
  table_of fam (put fam l m f) = l /\ f_managedKey (put fam l m f) = m /\
  f_failAdd (put fam l m f) = f_failAdd f /\ f_failDel (put fam l m f) = f_failDel f.
Proof.
  unfold put. rewrite table_of_managed, table_of_set. destruct (fails_set_table fam f l). by simpl.
Qed.

(** What a change of the routes leaves, in those terms. *)
Lemma add_put r f :
  rt_DstCIDR (mr_Route r) ∉ f_failAdd f ->
  fake_AddRoute r f =
  (None, put (rt_Family (mr_Route r))
           (match indexOf (mr_Route r) f with
            | Some _ => table_of (rt_Family (mr_Route r)) f
            | None => table_of (rt_Family (mr_Route r)) f ++ [stamp r] end)
           (if mr_ProfileID r =s? "" then f_managedKey f
            else {[routeKey (mr_Route r)]} ∪ f_managedKey f) f).
Proof.
  intros Hf. unfold fake_AddRoute. rewrite bool_decide_eq_false_2 by done.
  rewrite indexOf_stamp, stamp_key. unfold mark, put, appendRoute. rewrite stamp_family.
  destruct (indexOf (mr_Route r) f); destruct (mr_ProfileID r =s? ""); simpl; f_equal.
  - by rewrite set_table_of_id, set_managed_id.
  - by rewrite set_table_of_id.
  - rewrite <- (managed_set_table (rt_Family (mr_Route r)) f
                  (table_of (rt_Family (mr_Route r)) f ++ [stamp r])).
    by rewrite set_managed_id.
  - by rewrite managed_set_table.
Qed.

Lemma del_put r f i :
  rt_DstCIDR (mr_Route r) ∉ f_failDel f -> indexOf (mr_Route r) f = Some i ->
  (mr_ProfileID r <> "" -> routeKey (mr_Route r) ∈ f_managedKey f) ->
  fake_DelRoute r f =
  (None, put (rt_Family (mr_Route r)) (delete i (table_of (rt_Family (mr_Route r)) f))
           (f_managedKey f ∖ {[routeKey (mr_Route r)]}) f).
Proof.
  intros Hf Hi Hm. unfold fake_DelRoute. rewrite bool_decide_eq_false_2 by done.
  unfold unmark, removeRoute, put.
  destruct (mr_ProfileID r =s? "") eqn:E.
  - rewrite Hi. by rewrite managed_set_table.
  - bool_hyps. change (routeKey (with_owner (mr_Route r) OwnerRiftRoute "riftroute" (mr_ProfileID r)))
      with (routeKey (mr_Route r)).
    rewrite bool_decide_eq_true_2 by auto. cbn [negb].
    rewrite indexOf_owner, Hi, managed_set_table. done.
Qed.

Definition fake_undoable (op : PlanOp) (f : Fake) : Prop :=
  match op_Kind op, op_Route op, op_Rule op with
  | OpAddRoute, Some r, _ =>
      indexOf (mr_Route r) f = None /\ rt_DstCIDR (mr_Route r) ∉ f_failDel f /\
      routeKey (mr_Route r) ∉ f_managedKey f
  | OpDelRoute, Some r, _ =>
      keep_if (same_entry (mr_Route r)) (table_of (rt_Family (mr_Route r)) f) = [stamp r] /\
      rt_DstCIDR (mr_Route r) ∉ f_failAdd f /\
      (routeKey (mr_Route r) ∈ f_managedKey f <-> mr_ProfileID r <> "")
  | OpAddRule, _, Some r => find_index (same_rule (ml_Rule r)) (f_rules f) = None
  | OpDelRule, _, Some r =>
      keep_if (same_rule (ml_Rule r)) (f_rules f) = [with_proto (ml_Rule r) "riftroute"]
  | _, _, _ => True
  end.

#[export] Instance fake_undoable_dec op f : Decision (fake_undoable op f).
Proof. unfold fake_undoable. repeat case_match; apply _. Defined.

Lemma undo_add_route r f f' t :
  indexOf (mr_Route r) f = None -> rt_DstCIDR (mr_Route r) ∉ f_failDel f ->
  routeKey (mr_Route r) ∉ f_managedKey f ->
  fake_AddRoute r f = (None, f') -> fake_same t f' ->
  exists t', fake_DelRoute r t = (None, t') /\ fake_same t' f.
Proof.
  intros Hi Hd Hk Ha Ht. set (fam := rt_Family (mr_Route r)) in *.
  assert (rt_DstCIDR (mr_Route r) ∉ f_failAdd f) as Hfa.
  { unfold fake_AddRoute in Ha. destruct (bool_decide _) eqn:E in Ha; [done|]. by bool_hyps. }
  rewrite add_put, Hi in Ha by done. fold fam in Ha. simplify_eq.
  set (m' := if mr_ProfileID r =s? "" then _ else _) in Ht.
  pose proof (fake_same_table fam _ _ Ht) as Htab.
  destruct (fake_same_fields _ _ Ht) as (Hm & _ & Hfd).
  destruct (put_fields fam (table_of fam f ++ [stamp r]) m' f) as (E1 & E2 & _ & E4).
  rewrite E1 in Htab. rewrite E2 in Hm. rewrite E4 in Hfd.
  assert (table_of fam t ≡ₚ stamp r :: table_of fam f) as Hperm
    by (rewrite Htab; symmetry; apply Permutation_cons_append).
  destruct (find_index_only (same_entry (mr_Route r)) _ _ _ Hperm) as (i & Hfi & Hdel).
  { apply same_entry_stamp_r. }
  { by apply find_index_none. }
  eexists. split.
  - apply del_put; [by rewrite Hfd|exact Hfi|]. rewrite Hm. subst m'. intros Hp.
    rewrite (proj2 (String.eqb_neq _ _) Hp). set_solver.
  - fold fam. rewrite (put_same fam _ (table_of fam f) _ _ _ Ht Hdel), put_put, Hm.
    replace (m' ∖ _) with (f_managedKey f); [by rewrite put_id|].
    apply set_eq. intros k. subst m'. case_if; set_solver.
Qed.

Lemma undo_del_route r f f' t :
  keep_if (same_entry (mr_Route r)) (table_of (rt_Family (mr_Route r)) f) = [stamp r] ->
  rt_DstCIDR (mr_Route r) ∉ f_failAdd f ->
  (routeKey (mr_Route r) ∈ f_managedKey f <-> mr_ProfileID r <> "") ->
  fake_DelRoute r f = (None, f') -> fake_same t f' ->
  exists t', fake_AddRoute r t = (None, t') /\ fake_same t' f.
Proof.
  intros Hone Ha Hk Hd Ht. set (fam := rt_Family (mr_Route r)) in *.
  set (rest := keep_if (fun x => negb (same_entry (mr_Route r) x)) (table_of fam f)).
  assert (table_of fam f ≡ₚ stamp r :: rest) as Hsplit.
  { rewrite (perm_split (same_entry (mr_Route r)) (table_of fam f)) at 1. by rewrite Hone. }
  assert (forall y, y ∈ rest -> same_entry (mr_Route r) y = false) as Hrest.
  { intros y [_ Hy]%elem_of_keep_if. by bool_hyps. }
  destruct (find_index_only (same_entry (mr_Route r)) _ _ _ Hsplit (same_entry_stamp_r r) Hrest)
    as (i & Hfi & Hdel).
  assert (rt_DstCIDR (mr_Route r) ∉ f_failDel f) as Hfd.
  { unfold fake_DelRoute in Hd. destruct (bool_decide _) eqn:E in Hd; [done|]. by bool_hyps. }
  rewrite (del_put r f i) in Hd by (first [done|exact Hfi|apply Hk]). fold fam in Hd. simplify_eq.
  set (m' := f_managedKey f ∖ _) in Ht.
  pose proof (fake_same_table fam _ _ Ht) as Htab.
  destruct (fake_same_fields _ _ Ht) as (Hm & Hfa & _).
  destruct (put_fields fam (delete i (table_of fam f)) m' f) as (E1 & E2 & E3 & _).
  rewrite E1, Hdel in Htab. rewrite E2 in Hm. rewrite E3 in Hfa.
  eexists. split; [apply add_put; by rewrite Hfa|].
  assert (indexOf (mr_Route r) t = None) as ->.
  { apply find_index_none. intros y Hy. apply Hrest. fold fam in Hy. by rewrite Htab in Hy. }
  fold fam. rewrite (put_same fam _ (table_of fam f) _ _ _ Ht).
  - rewrite put_put, Hm. match goal with |- fake_same (put _ _ ?m _) _ => replace m with (f_managedKey f) end;
      [by rewrite put_id|].
    apply set_eq. intros k. subst m'. destruct (mr_ProfileID r =s? "") eqn:E; bool_hyps.
    + assert (routeKey (mr_Route r) ∉ f_managedKey f) by tauto. set_solver.
    + assert (routeKey (mr_Route r) ∈ f_managedKey f) by tauto.
      destruct (decide (k = routeKey (mr_Route r))); set_solver.
  - rewrite Htab, Hsplit. symmetry. apply Permutation_cons_append.
Qed.

Lemma slice_rules_perm l pr : slice_stable rule_less (l ++ [pr]) ≡ₚ pr :: l.
Proof. rewrite slice_stable_perm. symmetry. apply Permutation_cons_append. Qed.

Lemma same_rule_refl pr proto : same_rule pr (with_proto pr proto) = true.
Proof. unfold same_rule. simpl. by rewrite Z.eqb_refl, !String.eqb_refl. Qed.

Lemma set_rules_id f : set_rules f (f_rules f) = f.
Proof. by destruct f. Qed.

Lemma undo_add_rule r f f' t :
  find_index (same_rule (ml_Rule r)) (f_rules f) = None ->
  fake_AddRule r f = (None, f') -> fake_same t f' ->
  exists t', fake_DelRule r t = (None, t') /\ fake_same t' f.
Proof.
  unfold fake_AddRule. intros Hn [= <-] Ht. pose proof (fs_rules _ _ Ht) as Hp. simpl in Hp.
  rewrite slice_rules_perm in Hp.
  destruct (find_index_only (same_rule (ml_Rule r)) _ _ _ Hp (same_rule_refl _ _)) as (i & Hi & Hdel).
  { by apply find_index_none. }
  unfold fake_DelRule. rewrite Hi. eexists. split; [done|].
  rewrite Hdel, Ht. change (fake_same (set_rules f (f_rules f)) f). by rewrite set_rules_id.
Qed.

Lemma undo_del_rule r f f' t :
  keep_if (same_rule (ml_Rule r)) (f_rules f) = [with_proto (ml_Rule r) "riftroute"] ->
  fake_DelRule r f = (None, f') -> fake_same t f' ->
  exists t', fake_AddRule r t = (None, t') /\ fake_same t' f.
Proof.
  intros Hone Hd Ht.
  pose proof (perm_split (same_rule (ml_Rule r)) (f_rules f)) as Hsplit. rewrite Hone in Hsplit.
  destruct (find_index_only (same_rule (ml_Rule r)) _ _ _ Hsplit (same_rule_refl _ _)) as (i & Hi & Hdel).
  { intros y [_ Hy]%elem_of_keep_if. by bool_hyps. }
  unfold fake_DelRule in Hd. rewrite Hi in Hd. injection Hd as <-.
  eexists. split; [done|]. pose proof (fs_rules _ _ Ht) as Hp. simpl in Hp.
  rewrite slice_rules_perm, Hp, Hdel, Ht.
  change (fake_same (set_rules f (with_proto (ml_Rule r) "riftroute" ::
            keep_if (fun x => negb (same_rule (ml_Rule r) x)) (f_rules f))) f).
  transitivity (set_rules f (f_rules f)); [by rewrite Hsplit at 2|by rewrite set_rules_id].
Qed.

#[export] Instance FakeLaws : ProviderLaws Fake.
Proof.
  refine {| same := fake_same; undoable := fake_undoable |}.
  - intros op s e s' H. assert (s' = s) as ->; [|done]. revert H. unfold do_op.
    destruct (op_Kind op), (op_Route op), (op_Rule op); simpl;
      unfold fake_AddRoute, fake_DelRoute, fake_AddRule, fake_DelRule;
      repeat case_match; naive_solver.
  - intros op s s' t Hu H Ht. revert Hu H. unfold do_op, fake_undoable, inverseOp.
    destruct (op_Kind op); simpl.
    + destruct (op_Route op) as [r|]; [|done]. intros (H1 & H2 & H3) H. by eapply undo_add_route.
    + destruct (op_Route op) as [r|]; [|done]. intros (H1 & H2 & H3) H. by eapply undo_del_route.
    + destruct (op_Route op), (op_Rule op) as [r|]; try done; intros H1 H; by eapply undo_add_rule.
    + destruct (op_Route op), (op_Rule op) as [r|]; try done; intros H1 H; by eapply undo_del_rule.
    + done.
Defined.

(** Adding a rule twice leaves two copies of it, and one delete removes one:
    unlike [AddRoute], [AddRule] is not idempotent. *)
Example AddRule_not_idempotent :
  let r := mkMRule (mkPolicyRule 5252 "to 10.0.0.0/8" "5252" FamilyV4 "" "" "") "work" 0 in
  let twice := snd (AddRule r (snd (AddRule r New))) in
  count_occ PolicyRule_eq_dec (f_rules twice) (with_proto (ml_Rule r) "riftroute") = 2%nat /\
  count_occ PolicyRule_eq_dec (f_rules (snd (DelRule r twice))) (with_proto (ml_Rule r) "riftroute") = 1%nat.
Proof. vm_compute. split; reflexivity. Qed.
