(* ===== verification/Netmon.v ===== *)
(** * The network monitor (internal/netmon)

    The poller diffs successive snapshots of what the provider shows and emits
    an event per difference. A snapshot is a function of the provider's state
    and, where a read fails, of the snapshot before. Times are left out of the
    events; the channel of events drops what does not fit. *)

From S2P Require Import Prelude.
From S2P Require Import Netip NetipText Domain Input Tunnels Provider FakeProvider.

Inductive EventType : Type :=
| EventVPNUp | EventVPNDown | EventDefaultRouteChanged | EventLinkChanged | EventAddrChanged | EventDNSChanged
| EventPhysicalGatewayChanged | EventWake.

Record Event : Type := mkEvent { e_Type : EventType; e_Iface : string; e_Detail : string }.

Record snapshot : Type := mkNetSnapshot {
  ns_vpnUp : list string;
  ns_vpnOn : bool;
  ns_defaultV4 : string;
  ns_defaultV6 : string;
  ns_physV4 : string;
  ns_physV6 : string;
  ns_dns : string;
  ns_ifaces : string;
  ns_tsExit : string;
}.

Definition sorted_join (l : list string) : string := Join (slice_stable str_less l) ",".

(** ** Reading *)

Definition defaultKeysFrom (routes : list Route) (fam : Family) : string * string :=
  let want := if fam =s? FamilyV6 then "::/0" else "0.0.0.0/0" in
  let defs := keep_if (fun r => (rt_DstCIDR r =s? want) && (rt_Table r =s? "")) routes in
  (match defs with [] => "" | r :: _ => rt_Gateway r +:+ "|" +:+ rt_Iface r +:+ "|" +:+ rt_Owner r end,
   sorted_join (map (fun r => rt_Gateway r +:+ "|" +:+ rt_Iface r)
     (keep_if (fun r => negb (rt_Gateway r =s? "") && negb (rt_Owner r =s? OwnerVPN) && negb (rt_Owner r =s? OwnerRiftRoute)) defs))).

(** [strings.Contains]. *)
Fixpoint Contains_str (s sub : string) : bool :=
  HasPrefix s sub || match s with EmptyString => false | String _ s' => Contains_str s' sub end.

Section poller.
Context {S : Type} `{!RouteProvider S} (ListTable : option (Family -> string -> S -> error + list Route)).

Definition prevOr (prev : option snapshot) (get : snapshot -> string) : string :=
  match prev with None => "" | Some x => get x end.

Definition defaultKeys (fam : Family) (prevDef prevPhys : string) (p : S) : string * string :=
  match ListRoutes fam p with
  | inl _ => (prevDef, prevPhys)
  | inr routes => defaultKeysFrom routes fam
  end.

Fixpoint exit_defaults (lister : Family -> string -> S -> error + list Route) (fams : list Family) (p : S) : option (list string) :=
  match fams with
  | [] => Some []
  | fam :: fams' =>
      match lister fam "52" p with
      | inl _ => None
      | inr rs =>
          rest ← exit_defaults lister fams' p;
          Some (map (fun r => rt_DstCIDR r +:+ "|" +:+ rt_Iface r)
                  (keep_if (fun r => (rt_DstCIDR r =s? "0.0.0.0/0") || (rt_DstCIDR r =s? "::/0")) rs) ++ rest)
      end
  end.

Definition tailscaleExit (ifaces prevVal : string) (p : S) : string :=
  match ListTable with
  | None => ""
  | Some lister =>
      if negb (Contains_str ifaces "tailscale") then ""
      else match exit_defaults lister [FamilyV4; FamilyV6] p with None => prevVal | Some out => Join out "," end
  end.

Definition iface_state (i : Iface) : string := if_Name i +:+ ":" +:+ (if if_Up i then "up" else "down").

(** The tunnels that are up, whether any is, and the interfaces' states. *)
Definition iface_fields (prev : option snapshot) (p : S) : list string * bool * string :=
  match Interfaces p with
  | inr l =>
      let up := map if_Name (keep_if (fun i => if_IsVPN i && if_Up i) l) in
      (slice_stable str_less up, negb (length up =? 0)%nat, sorted_join (map iface_state l))
  | inl _ => match prev with Some x => (ns_vpnUp x, ns_vpnOn x, ns_ifaces x) | None => ([], false, "") end
  end.

Definition capture (prev : option snapshot) (p : S) : snapshot :=
  let '(vpnUp, vpnOn, ifaces) := iface_fields prev p in
  let '(d4, p4) := defaultKeys FamilyV4 (prevOr prev ns_defaultV4) (prevOr prev ns_physV4) p in
  let '(d6, p6) := defaultKeys FamilyV6 (prevOr prev ns_defaultV6) (prevOr prev ns_physV6) p in
  let dns := match DNSConfig p with inr c => Join (dns_Servers c) "," | inl _ => prevOr prev ns_dns end in
  mkNetSnapshot vpnUp vpnOn d4 d6 p4 p6 dns ifaces (tailscaleExit ifaces (prevOr prev ns_tsExit) p).

(** ** Diffing *)

Definition orNone (s : string) : string := if s =s? "" then "off" else s.

Definition change (a b : string) (ev : Event) : list Event := if a =s? b then [] else [ev].

Definition diff_events (prev cur : snapshot) : list Event :=
  (if negb (ns_vpnOn prev) && ns_vpnOn cur then [mkEvent EventVPNUp (Join (ns_vpnUp cur) ",") "tunnel came up"]
   else if ns_vpnOn prev && negb (ns_vpnOn cur) then [mkEvent EventVPNDown (Join (ns_vpnUp prev) ",") "tunnel went down"]
   else []) ++
  change (ns_defaultV4 prev) (ns_defaultV4 cur) (mkEvent EventDefaultRouteChanged "" ("v4 default: " +:+ ns_defaultV4 cur)) ++
  change (ns_defaultV6 prev) (ns_defaultV6 cur) (mkEvent EventDefaultRouteChanged "" ("v6 default: " +:+ ns_defaultV6 cur)) ++
  change (ns_physV4 prev) (ns_physV4 cur) (mkEvent EventPhysicalGatewayChanged "" ("v4 physical gateway: " +:+ ns_physV4 cur)) ++
  change (ns_physV6 prev) (ns_physV6 cur) (mkEvent EventPhysicalGatewayChanged "" ("v6 physical gateway: " +:+ ns_physV6 cur)) ++
  change (ns_dns prev) (ns_dns cur) (mkEvent EventDNSChanged "" (ns_dns cur)) ++
  change (ns_ifaces prev) (ns_ifaces cur) (mkEvent EventLinkChanged "" "interface set changed") ++
  change (ns_tsExit prev) (ns_tsExit cur)
    (mkEvent EventDefaultRouteChanged "" ("Tailscale's exit node: " +:+ orNone (ns_tsExit cur))).

(** The last snapshot, and the channel (64 events). *)
Record Poller : Type := mkPoller { po_last : option snapshot; po_out : list Event }.
Definition outCap : nat := 64.

(** A full channel drops the event. *)
Definition send (out : list Event) (ev : Event) : list Event := if (length out <? outCap)%nat then out ++ [ev] else out.

Definition PollOnce (p : S) (po : Poller) : list Event * Poller :=
  let cur := capture (po_last po) p in
  match po_last po with
  | None => ([], mkPoller (Some cur) (po_out po))
  | Some prev => let evs := diff_events prev cur in (evs, mkPoller (Some cur) (fold_left send evs (po_out po)))
  end.
End poller.

(** ** What is reported *)

(** Every field an event is about; [ns_vpnUp] is told with [ns_vpnOn]. *)
Definition same_network (a b : snapshot) : Prop :=
  ns_vpnOn a = ns_vpnOn b /\ ns_defaultV4 a = ns_defaultV4 b /\ ns_defaultV6 a = ns_defaultV6 b /\
  ns_physV4 a = ns_physV4 b /\ ns_physV6 a = ns_physV6 b /\ ns_dns a = ns_dns b /\ ns_ifaces a = ns_ifaces b /\
  ns_tsExit a = ns_tsExit b.

Lemma change_nil a b ev : change a b ev = [] <-> a = b.
Proof. unfold change. destruct (a =s? b) eqn:E; bool_hyps; split; done. Qed.

Lemma diff_events_nil a b : diff_events a b = [] <-> same_network a b.
Proof.
  unfold diff_events, same_network. rewrite !app_nil, !change_nil.
  assert ((if negb (ns_vpnOn a) && ns_vpnOn b then [mkEvent EventVPNUp (Join (ns_vpnUp b) ",") "tunnel came up"]
           else if ns_vpnOn a && negb (ns_vpnOn b) then [mkEvent EventVPNDown (Join (ns_vpnUp a) ",") "tunnel went down"]
           else []) = [] <-> ns_vpnOn a = ns_vpnOn b) as ->; [|tauto].
  by destruct (ns_vpnOn a), (ns_vpnOn b).
Qed.

(** A read that fails: nothing of it is new. *)
Section failing.
Context {S : Type} `{!RouteProvider S} (ListTable : option (Family -> string -> S -> error + list Route)).

(** [q] is [p] with any of its reads failing. *)
Record fewer_reads (p q : S) : Prop := mkFewer {
  fr_ifaces : Interfaces q = Interfaces p \/ exists e, Interfaces q = inl e;
  fr_routes : forall fam, ListRoutes fam q = ListRoutes fam p \/ exists e, ListRoutes fam q = inl e;
  fr_dns : DNSConfig q = DNSConfig p \/ exists e, DNSConfig q = inl e;
  fr_table : forall lister fam, ListTable = Some lister -> lister fam "52" q = lister fam "52" p \/ exists e, lister fam "52" q = inl e;
}.

Lemma defaultKeys_fewer p q fam x y : fewer_reads p q ->
  defaultKeys fam (fst (defaultKeys fam x y p)) (snd (defaultKeys fam x y p)) q = defaultKeys fam x y p.
Proof.
  intros H. unfold defaultKeys. destruct (fr_routes p q H fam) as [->|[e ->]]; [|by destruct (match ListRoutes fam p with inl _ => _ | inr _ => _ end)].
  by destruct (ListRoutes fam p).
Qed.

Lemma exit_defaults_fewer lister p q fams : fewer_reads p q -> ListTable = Some lister ->
  exit_defaults lister fams q = None \/ exit_defaults lister fams q = exit_defaults lister fams p.
Proof.
  intros H Hl. induction fams as [|fam fams IH]; simpl; [by right|].
  destruct (fr_table p q H lister fam Hl) as [->|[e ->]]; [|by left]. destruct (lister fam "52" p) as [e|rs]; [by left|].
  destruct IH as [->| ->]; [by left|by right].
Qed.

Lemma tailscaleExit_fewer p q ifaces x : fewer_reads p q ->
  tailscaleExit ListTable ifaces (tailscaleExit ListTable ifaces x p) q = tailscaleExit ListTable ifaces x p.
Proof.
  intros H. unfold tailscaleExit. destruct ListTable as [lister|] eqn:El; [|done].
  destruct (negb _); [done|]. destruct (exit_defaults_fewer lister p q [FamilyV4; FamilyV6] H El) as [->| ->]; [done|].
  by destruct (exit_defaults lister _ p).
Qed.

Lemma capture_fewer prev p q : fewer_reads p q ->
  capture ListTable (Some (capture ListTable prev p)) q = capture ListTable prev p.
Proof.
  intros H. unfold capture at 2. destruct (iface_fields prev p) as [[vpnUp vpnOn] ifaces] eqn:Ei.
  destruct (defaultKeys FamilyV4 _ _ p) as [d4 p4] eqn:E4. destruct (defaultKeys FamilyV6 _ _ p) as [d6 p6] eqn:E6.
  unfold capture at 2. rewrite Ei, E4, E6. unfold capture. set (x := mkNetSnapshot _ _ _ _ _ _ _ _ _).
  assert (iface_fields (Some x) q = (vpnUp, vpnOn, ifaces)) as ->.
  { unfold iface_fields in *. destruct (fr_ifaces p q H) as [->|[e ->]]; [|done]. destruct (Interfaces p); [done|exact Ei]. }
  unfold x. cbn [prevOr ns_defaultV4 ns_physV4 ns_defaultV6 ns_physV6 ns_dns ns_tsExit]. clear x.
  pose proof (defaultKeys_fewer p q FamilyV4 (prevOr prev ns_defaultV4) (prevOr prev ns_physV4) H) as H4. rewrite E4 in H4. simpl in H4.
  pose proof (defaultKeys_fewer p q FamilyV6 (prevOr prev ns_defaultV6) (prevOr prev ns_physV6) H) as H6. rewrite E6 in H6. simpl in H6.
  rewrite H4, H6, tailscaleExit_fewer by done. f_equal.
  destruct (fr_dns p q H) as [->|[e ->]]; [|done]. by destruct (DNSConfig p).
Qed.

(** a poll reports a network change exactly when there is one: nothing on
    the first poll, otherwise an event exactly when something it watches differs
    from the poll before; and polling again while the network is the same, or
    while any of its reads fail, reports nothing. *)
Theorem poll_reports_changes (po : Poller) (p q : S) :
  let '(evs, po1) := PollOnce ListTable p po in
  (po_last po = None -> evs = []) /\
  (forall prev, po_last po = Some prev -> evs = [] <-> same_network prev (capture ListTable (Some prev) p)) /\
  (fewer_reads p q -> fst (PollOnce ListTable q po1) = []).
Proof.
  unfold PollOnce. destruct (po_last po) as [prev|] eqn:E; cbn [fst po_last].
  - split; [done|]. split; [intros x [= <-]; apply diff_events_nil|]. intros H. rewrite capture_fewer by done.
    by apply diff_events_nil.
  - split; [done|]. split; [done|]. intros H. rewrite capture_fewer by done. by apply diff_events_nil.
Qed.
End failing.

(** A baseline poll whose reads fail reports their values as changes next. *)
Example failed_baseline_reports :
  let po := mkPoller (Some (capture None None mkBase)) [] in
  map e_Type (diff_events (capture None None mkBase) (capture None (po_last po) New)) =
  [EventVPNUp; EventDefaultRouteChanged; EventDNSChanged; EventLinkChanged].
Proof. reflexivity. Qed.
