(* ===== verification/Killswitch.v ===== *)
(** * The kill switch (internal/killswitch)

    What the kill switch guards and lets through, derived from live state; the
    pf and nftables rules it renders; what it reads back from pfctl and nft;
    the cache of its status; and the manager as an interface, with the
    in-memory one. Running the commands is I/O: of the real manager the
    generation-guarded status cache is modelled, with what a query answers as
    an argument. *)

From Stdlib Require Import Ascii.
From S2P Require Import Prelude.
From S2P Require Import Netip NetipText Domain Input Tunnels Provider Netmon.

(** ** Configuration *)

Record Config : Type := mkConfig {
  kc_PhysIfaces : list string;
  kc_Gateway : string;
  kc_LANSubnets : list string;
  kc_Bypass : list string;
}.

#[export] Instance Config_eq_dec : EqDecision Config.
Proof. solve_decision. Defined.

Definition no_config : Config := mkConfig [] "" [] [].

Definition Config_Empty (c : Config) : bool := (length (kc_PhysIfaces c) =? 0)%nat.

Definition ks_sorted (v : list string) : list string := slice_stable str_less v.

Definition sameSet (a b : list string) : bool := bool_decide (ks_sorted a = ks_sorted b).

Definition Config_Equal (c o : Config) : bool :=
  (kc_Gateway c =s? kc_Gateway o) && sameSet (kc_PhysIfaces c) (kc_PhysIfaces o) &&
  sameSet (kc_LANSubnets c) (kc_LANSubnets o) && sameSet (kc_Bypass c) (kc_Bypass o).

Definition guardable (i : Iface) : bool :=
  (if_Kind i =s? IfaceKindPhysical) || HasPrefix (if_Name i) "wwan" || HasPrefix (if_Name i) "usb".

(** ** Derive *)

Definition is_uplink (uplinks : list string) (name : string) : bool :=
  existsb (fun u => (u =s? name) && negb (u =s? "")) uplinks.

Definition guarded_ifaces (ifaces : list Iface) (uplinks : list string) : list Iface :=
  keep_if (fun i => if_Up i && negb (if_IsVPN i) && (guardable i || is_uplink uplinks (if_Name i))) ifaces.

Definition lan_of (addr_text : string) : option string :=
  pfx ← ParsePrefix addr_text;
  if IsLinkLocalUnicast (p_addr pfx) then None else Some (prefix_String (Masked pfx)).

Definition bypass_of (mr : ManagedRoute) : option string :=
  pfx ← ParsePrefix (rt_DstCIDR (mr_Route mr));
  if p_bits pfx =? 0 then None else Some (prefix_String (Masked pfx)).

(** [seenBypass] is by the route's own text. *)
Fixpoint bypass_loop (phys : list string) (seen : gset string) (owned : list ManagedRoute) : list string :=
  match owned with
  | [] => []
  | mr :: owned' =>
      let r := mr_Route mr in
      if negb (rt_Table r =s? "") || negb (bool_decide (rt_Iface r ∈ phys)) || bool_decide (rt_DstCIDR r ∈ seen)
      then bypass_loop phys seen owned'
      else match bypass_of mr with
           | None => bypass_loop phys seen owned'
           | Some s => s :: bypass_loop phys ({[rt_DstCIDR r]} ∪ seen) owned'
           end
  end.

Definition Derive (ifaces : list Iface) (gateway : addr) (uplinks : list string) (owned : list ManagedRoute) : Config :=
  let guarded := guarded_ifaces ifaces uplinks in
  let phys := map if_Name guarded in
  mkConfig (ks_sorted phys) (if IsValid gateway then addr_String gateway else "")
    (ks_sorted (dedup ∅ (guarded ≫= fun i => omap lan_of (if_Addrs i))))
    (ks_sorted (bypass_loop phys ∅ owned)).

(** ** Rules *)

Definition nftTable : string := "riftroute_ks".
Definition pfAnchor : string := "riftroute_ks".
Definition pfUsers : string := "user { 499 >< 65534 65534 >< 2147483646 }".
Definition nftUsers : string := "meta skuid { 1000-61183, 65520-65533, 65535-4294967294 }".
Definition pfHookBegin : string := "# >>> riftroute kill switch (managed — do not edit) >>>".
Definition pfHookEnd : string := "# <<< riftroute kill switch (managed — do not edit) <<<".

Definition vpnUDPPorts : list Z := [500; 4500; 51820; 1194].
Definition vpnTCPPorts : list Z := [1194].
Definition localV4 : list string := ["169.254.0.0/16"; "224.0.0.0/4"; "255.255.255.255"].
Definition localV6 : list string := ["fe80::/10"; "ff00::/8"].

Definition allowList (cfg : Config) : list string :=
  dedup ∅ (keep_if (fun v => negb (v =s? ""))
    ([kc_Gateway cfg] ++ kc_LANSubnets cfg ++ kc_Bypass cfg ++ localV4 ++ localV6)).

(** The ranges between the ports left out, which are in order. *)
Fixpoint port_ranges (lo : Z) (skip : list Z) : list (Z * Z) :=
  match skip with
  | [] => if lo <=? 65535 then [(lo, 65535)] else []
  | p :: skip' => (if lo <? p then [(lo, p - 1)] else []) ++ port_ranges (p + 1) skip'
  end.

Definition sort_ints (l : list Z) : list Z := slice_stable Z.ltb l.

Definition range_text (r : Z * Z) : string := pretty (fst r) +:+ ":" +:+ pretty (snd r).

Definition portsExcept (skip : list Z) : string := Join (map range_text (port_ranges 0 (sort_ints skip))) " ".

Definition nl : string := String (ascii_of_nat 10) "".

Definition PfRuleset (cfg : Config) : string :=
  let on := Join (kc_PhysIfaces cfg) " " in
  let block proto ports := "block return out on { " +:+ on +:+ " } proto " +:+ proto +:+ " to ! <rr_ks_allow> port { " +:+
                           portsExcept ports +:+ " } " +:+ pfUsers +:+ nl in
  "# RiftRoute kill switch: your apps reach the internet only through a VPN tunnel." +:+ nl +:+
  "table <rr_ks_allow> persist { " +:+ Join (allowList cfg) " " +:+ " }" +:+ nl +:+
  block "udp" vpnUDPPorts +:+ block "tcp" vpnTCPPorts.

Definition joinInts (v : list Z) (sep : string) : string := Join (map pretty v) sep.

Definition nft_set (name typ : string) (elems : list string) : string :=
  "  set " +:+ name +:+ " {" +:+ nl +:+ "    type " +:+ typ +:+ nl +:+ "    flags interval" +:+ nl +:+ "    auto-merge" +:+ nl +:+
  (match elems with [] => "" | _ => "    elements = { " +:+ Join elems ", " +:+ " }" +:+ nl end) +:+ "  }" +:+ nl.

(** [quote] is [%q]. *)
Definition NftRuleset (quote : string -> string) (cfg : Config) : string :=
  let v6 := keep_if (fun a => Contains_str a ":") (allowList cfg) in
  let v4 := keep_if (fun a => negb (Contains_str a ":")) (allowList cfg) in
  "add table inet " +:+ nftTable +:+ nl +:+ "delete table inet " +:+ nftTable +:+ nl +:+
  "table inet " +:+ nftTable +:+ " {" +:+ nl +:+
  nft_set "allow4" "ipv4_addr" v4 +:+ nft_set "allow6" "ipv6_addr" v6 +:+
  "  chain output {" +:+ nl +:+
  "    type filter hook output priority 0; policy accept;" +:+ nl +:+
  "    oifname != { " +:+ Join (map quote (kc_PhysIfaces cfg)) ", " +:+ " } accept" +:+ nl +:+
  "    ip daddr @allow4 accept" +:+ nl +:+ "    ip6 daddr @allow6 accept" +:+ nl +:+
  "    udp dport { " +:+ joinInts vpnUDPPorts ", " +:+ " } accept" +:+ nl +:+
  "    tcp dport { " +:+ joinInts vpnTCPPorts ", " +:+ " } accept" +:+ nl +:+
  "    rt ipsec exists accept" +:+ nl +:+
  "    " +:+ nftUsers +:+ " meta l4proto { tcp, udp } counter reject" +:+ nl +:+ "  }" +:+ nl +:+ "}" +:+ nl.

(** ** Reading back *)

Definition PfHooked (mainRules : string) : bool :=
  Contains_str mainRules ("anchor " +:+ String (ascii_of_nat 34) (pfAnchor +:+ String (ascii_of_nat 34) "")).

(** [strings.Split(s, "\n")], and [strings.TrimSpace] on ASCII text. *)
Fixpoint split_lines_go (s cur : string) : list string :=
  match s with
  | EmptyString => [cur]
  | String c s' => if Ascii.eqb c (ascii_of_nat 10) then cur :: split_lines_go s' "" else split_lines_go s' (cur +:+ String c "")
  end.
Definition split_lines (s : string) : list string := split_lines_go s "".

Fixpoint TrimLeft (s : string) : string :=
  match s with EmptyString => "" | String c s' => if is_space c then TrimLeft s' else s end.

Definition PfRunning (info : string) : bool :=
  match List.find (fun line => HasPrefix (TrimLeft line) "Status:") (split_lines info) with
  | Some line => Contains_str line "Enabled"
  | None => false
  end.

(** [\s*] of a regular expression. *)
Definition re_space (c : ascii) : bool :=
  let r := code c in (r =? 32) || ((9 <=? r) && (r <=? 10)) || ((12 <=? r) && (r <=? 13)).
Fixpoint skip_spaces (s : string) : string :=
  match s with EmptyString => "" | String c s' => if re_space c then skip_spaces s' else s end.

(** A run of digits, and the rest; then its value as a uint64: one too large
    does not scan and leaves 0. *)
Fixpoint take_digits (s : string) (acc : Z) (seen : bool) : option (Z * string) :=
  match s with
  | String c s' => if is_digit c then take_digits s' (acc * 10 + (code c - 48)) true
                   else if seen then Some (acc, s) else None
  | EmptyString => if seen then Some (acc, "") else None
  end.

Definition scan_uint64 (v : Z) : Z := if v <? 2 ^ 64 then v else 0.

(** The matches of [pre\s*(\d+)] ([spaces]) or [pre(\d+)], one after another,
    summed modulo 2^64. *)
Fixpoint sum_from (fuel : nat) (pre : string) (spaces : bool) (s : string) (n : Z) : Z :=
  match fuel with
  | O => n
  | Datatypes.S fuel =>
      match s with
      | EmptyString => n
      | String _ s' =>
          match (rest ← CutPrefix s pre; take_digits (if spaces then skip_spaces rest else rest) 0 false) with
          | Some (v, rest) => sum_from fuel pre spaces rest ((n + scan_uint64 v) mod 2 ^ 64)
          | None => sum_from fuel pre spaces s' n
          end
      end
  end.

Definition ParsePfBlocked (out : string) : Z := sum_from (String.length out) "Packets:" true out 0.
Definition ParseNftBlocked (out : string) : Z := sum_from (String.length out) "counter packets " false out 0.

(** ** The manager, as an interface *)

Record Status : Type := mkStatus { ks_Loaded : bool; ks_Effective : bool }.

Definition ErrNoInterface : error := Errorf "kill switch: no physical network interface is up to guard" [].

Class Manager (M : Type) : Type := {
  ks_Enable : Config -> M -> option error * M;
  ks_Disable : M -> option error * M;
  ks_Status : M -> Status;
  ks_Blocked : M -> error + Z;
}.
Definition ks_Enabled {M} `{!Manager M} (m : M) : bool := ks_Effective (ks_Status m).

(** The in-memory manager. *)
Record FakeKS : Type := mkFakeKS {
  fk_on : bool;
  fk_last : Config;
  fk_Enables : Z;
  fk_BlockedPackets : Z;
  fk_BlockAfterEnable : Z;
}.

Definition fake_ks_Enable (cfg : Config) (f : FakeKS) : option error * FakeKS :=
  if Config_Empty cfg then (Some ErrNoInterface, f)
  else (None, mkFakeKS true cfg (fk_Enables f + 1) (fk_BlockAfterEnable f) (fk_BlockAfterEnable f)).

Definition fake_ks_Disable (f : FakeKS) : option error * FakeKS :=
  (None, mkFakeKS false (fk_last f) (fk_Enables f) (fk_BlockedPackets f) (fk_BlockAfterEnable f)).

#[export] Instance FakeManager : Manager FakeKS := {
  ks_Enable := fake_ks_Enable;
  ks_Disable := fake_ks_Disable;
  ks_Status f := mkStatus (fk_on f) (fk_on f);
  ks_Blocked f := inr (fk_BlockedPackets f);
}.

(** ** The status cache of the real manager *)

Definition statusTTL : Z := 3 * 1000000000.

Record status_cache : Type := mkCacheOf { sc_cached : Status; sc_cachedAt : option Z; sc_gen : Z }.

(** The first half of [Status]: the cached one, or the generation the read
    begins in. *)
Definition status_begin (now : Z) (c : status_cache) : Status + Z :=
  match sc_cachedAt c with
  | Some t => if now - t <? statusTTL then inl (sc_cached c) else inr (sc_gen c)
  | None => inr (sc_gen c)
  end.

(** The second: what was read, kept unless a change came between. *)
Definition status_end (gen : Z) (st : Status) (now : Z) (c : status_cache) : status_cache :=
  if sc_gen c =? gen then mkCacheOf st (Some now) (sc_gen c) else c.

Definition invalidate (c : status_cache) : status_cache := mkCacheOf (sc_cached c) None (sc_gen c + 1).

(** The pf status from what pfctl answers: the anchor's rules ([None] when the
    command failed), the main rules, the info. *)
Definition pf_status (anchor : option string) (main info : string) : Status :=
  match anchor with
  | None => mkStatus false false
  | Some out => if TrimLeft out =s? "" then mkStatus false false else mkStatus true (PfHooked main && PfRunning info)
  end.

(** ** The ports left open *)

Definition in_range (p : Z) (r : Z * Z) : Prop := fst r <= p <= snd r.

#[export] Instance Zltb_sw : StrictWeak Z.ltb.
Proof. split; intros x y; [|intros z]; rewrite ?Z.ltb_lt, ?Z.ltb_ge; lia. Qed.

Lemma port_ranges_spec skip : forall lo p,
  StronglySorted (fun x y => y <? x = false) skip -> Forall (fun q => q <= 65535) skip -> 0 <= lo -> Forall (fun q => lo - 1 <= q) skip ->
  (exists r, r ∈ port_ranges lo skip /\ in_range p r) <-> lo <= p <= 65535 /\ p ∉ skip.
Proof.
  induction skip as [|q skip IH]; intros lo p Hs Hmax Hlo Hmin; simpl.
  - destruct (lo <=? 65535) eqn:E; bool_hyps.
    + setoid_rewrite list_elem_of_singleton. unfold in_range. split; [intros (r & -> & H); simpl in H; set_solver|].
      intros [H _]. exists (lo, 65535). done.
    + split; [intros (r & H & _); by apply elem_of_nil in H|lia].
  - apply StronglySorted_inv in Hs as [Hs Hq]. apply Forall_cons in Hmax as [Hq1 Hmax]. apply Forall_cons in Hmin as [Hq2 Hmin].
    assert (Forall (fun x => q <= x) skip) as Hge by (eapply Forall_impl; [exact Hq|]; intros x Hx; simpl in Hx; apply Z.ltb_ge in Hx; done).
    assert (0 <= q + 1) as H0 by lia.
    specialize (IH (q + 1) p Hs Hmax H0 ltac:(eapply Forall_impl; [exact Hge|]; intros x Hx; simpl in *; lia)).
    setoid_rewrite elem_of_app. rewrite not_elem_of_cons.
    assert ((exists r, r ∈ (if lo <? q then [(lo, q - 1)] else []) /\ in_range p r) <-> lo <= p < q) as Hhead.
    { unfold in_range. destruct (lo <? q) eqn:E; bool_hyps.
      - setoid_rewrite list_elem_of_singleton. split; [intros (r & -> & H); simpl in H; lia|]. intros H. exists (lo, q - 1). split; [done|simpl; lia].
      - split; [intros (r & H & _); by apply elem_of_nil in H|lia]. }
    split.
    + intros (r & [Hr|Hr] & Hin).
      * destruct (proj1 Hhead) as [? ?]; [eauto|]. split_and!; [lia|lia|lia|]. intros Hp. rewrite Forall_forall in Hge. specialize (Hge p Hp). simpl in Hge. lia.
      * destruct (proj1 IH) as [[? ?] ?]; [eauto|]. split_and!; [lia|lia|lia|done].
    + intros [[H1 H2] [H3 H4]]. destruct (decide (p < q)) as [Hlt|Hnlt].
      * destruct (proj2 Hhead) as (r & Hr & Hin); [lia|]. eauto.
      * destruct (proj2 IH) as (r & Hr & Hin); [split; [lia|done]|]. eauto.
Qed.

(** the kill switch blocks every port but the VPN ones: the ranges it renders
    hold exactly the ports from 0 to 65535 that are not left out, whatever the
    order they are given in. *)
Theorem portsExcept_exact (skip : list Z) (p : Z) :
  Forall (fun q => 0 <= q <= 65535) skip ->
  portsExcept skip = Join (map range_text (port_ranges 0 (sort_ints skip))) " " /\
  ((exists r, r ∈ port_ranges 0 (sort_ints skip) /\ in_range p r) <-> 0 <= p <= 65535 /\ p ∉ skip).
Proof.
  intros Hr. split; [done|]. unfold sort_ints. rewrite port_ranges_spec.
  - by setoid_rewrite elem_of_slice_stable.
  - apply slice_stable_sorted. apply _.
  - rewrite slice_stable_perm. eapply Forall_impl; [exact Hr|]. simpl. lia.
  - lia.
  - rewrite slice_stable_perm. eapply Forall_impl; [exact Hr|]. simpl. lia.
Qed.

Lemma portsExcept_exact_witness :
  portsExcept vpnUDPPorts = "0:499 501:1193 1195:4499 4501:51819 51821:65535" /\
  ((exists r, r ∈ port_ranges 0 (sort_ints vpnUDPPorts) /\ in_range 443 r) <-> 0 <= 443 <= 65535 /\ 443 ∉ vpnUDPPorts).
Proof.
  split; [reflexivity|]. refine (proj2 (portsExcept_exact vpnUDPPorts 443 _)).
  apply (bool_decide_unpack (Forall (fun q => 0 <= q <= 65535) vpnUDPPorts)). vm_compute. exact I.
Defined.

(** ** What user apps may still reach *)

Lemma dedup_in l : forall seen x, x ∈ dedup seen l <-> x ∈ l /\ x ∉ seen.
Proof.
  induction l as [|y l IH]; intros seen x; simpl; [set_solver|].
  case_if; bool_hyps; rewrite ?elem_of_cons, IH; [naive_solver|]. destruct (decide (x = y)); set_solver.
Qed.

Lemma bypass_loop_in phys owned : forall seen s, s ∈ bypass_loop phys seen owned ->
  exists mr, mr ∈ owned /\ rt_Table (mr_Route mr) = "" /\ rt_Iface (mr_Route mr) ∈ phys /\ bypass_of mr = Some s.
Proof.
  induction owned as [|mr owned IH]; intros seen s; simpl; [by rewrite elem_of_nil|].
  destruct (negb (rt_Table (mr_Route mr) =s? "") || _ || _) eqn:E; [|destruct (bypass_of mr) eqn:Eb].
  - intros (x & ? & ?)%IH. exists x. rewrite elem_of_cons. tauto.
  - bool_hyps. rewrite elem_of_cons. intros [->|(x & ? & ?)%IH]; [exists mr|exists x]; rewrite elem_of_cons; tauto.
  - intros (x & ? & ?)%IH. exists x. rewrite elem_of_cons. tauto.
Qed.

(** C33: which addresses the kill switch opens to user apps. It guards interfaces
    that are up and no VPN's, and the allow list of its configuration, the
    destinations its rules exempt, holds only the gateway, the network of an
    address of a guarded interface, the destination of an owned route in the main
    table, through a guarded interface, that is no default route, and the local
    scopes. Beside the list the rules exempt, for any destination, the standard
    VPN ports and what is neither TCP nor UDP (IPsec among it), and all that
    system accounts send; this is not about those. *)
Theorem allowed_only ifaces gateway uplinks owned v :
  let cfg := Derive ifaces gateway uplinks owned in
  (forall name, name ∈ kc_PhysIfaces cfg -> exists i, i ∈ ifaces /\ if_Name i = name /\ if_Up i = true /\ if_IsVPN i = false) /\
  (v ∈ allowList cfg ->
     v = addr_String gateway /\ IsValid gateway = true \/
     (exists i a p, i ∈ ifaces /\ if_Name i ∈ kc_PhysIfaces cfg /\ a ∈ if_Addrs i /\ ParsePrefix a = Some p /\ v = prefix_String (Masked p)) \/
     (exists mr p, mr ∈ owned /\ rt_Table (mr_Route mr) = "" /\ rt_Iface (mr_Route mr) ∈ kc_PhysIfaces cfg /\
        ParsePrefix (rt_DstCIDR (mr_Route mr)) = Some p /\ p_bits p <> 0 /\ v = prefix_String (Masked p)) \/
     v ∈ localV4 ++ localV6).
Proof.
  intros cfg.
  assert (forall name, name ∈ kc_PhysIfaces cfg <-> exists i, i ∈ guarded_ifaces ifaces uplinks /\ if_Name i = name) as Hp.
  { intros name. unfold cfg, Derive. cbn [kc_PhysIfaces]. unfold ks_sorted. rewrite elem_of_slice_stable, list_elem_of_fmap. naive_solver. }
  assert (forall i, i ∈ guarded_ifaces ifaces uplinks -> i ∈ ifaces /\ if_Up i = true /\ if_IsVPN i = false) as Hg.
  { intros i [Hi H]%elem_of_keep_if. by bool_hyps. }
  split.
  - intros name (i & Hi & <-)%Hp. destruct (Hg i Hi) as (? & ? & ?). eauto.
  - unfold allowList. rewrite dedup_in, elem_of_keep_if. intros [[Hv Hne] _]. bool_hyps.
    rewrite !elem_of_app, list_elem_of_singleton in Hv. destruct Hv as [Hv|[Hv|[Hv|Hv]]].
    + left. unfold cfg, Derive in Hv. cbn [kc_Gateway] in Hv. by destruct (IsValid gateway).
    + right. left. unfold cfg, Derive in Hv. cbn [kc_LANSubnets] in Hv. unfold ks_sorted in Hv.
      rewrite elem_of_slice_stable, dedup_in in Hv. destruct Hv as [Hv _]. apply list_elem_of_bind in Hv as (i & Hv & Hi).
      apply list_elem_of_omap in Hv as (a & Ha & Hl). unfold lan_of in Hl. destruct (ParsePrefix a) as [p|] eqn:Ep; [|done].
      simpl in Hl. destruct (IsLinkLocalUnicast _); [done|]. injection Hl as <-. exists i, a, p.
      destruct (Hg i Hi) as (? & ? & ?). split_and!; try done. apply Hp. eauto.
    + right. right. left. unfold cfg, Derive in Hv. cbn [kc_Bypass] in Hv. unfold ks_sorted in Hv. rewrite elem_of_slice_stable in Hv.
      apply bypass_loop_in in Hv as (mr & Hmr & Ht & Hif & Hb). unfold bypass_of in Hb.
      destruct (ParsePrefix _) as [p|] eqn:Ep; [|done]. simpl in Hb. destruct (p_bits p =? 0) eqn:E0; [done|]. bool_hyps.
      injection Hb as <-. exists mr, p. split_and!; try done. apply Hp. apply list_elem_of_fmap in Hif as (i & -> & Hi). eauto.
    + right. right. right. rewrite elem_of_app. done.
Qed.

(** ** The status shown is of the current generation *)

(** A read in flight began in some generation; every change ends by starting
    the next one. *)
Record status_world : Type := mkWorld { sw_cache : status_cache; sw_reads : list Z; sw_read_in : option Z }.

Inductive status_step : status_world -> status_world -> Prop :=
| ss_begin w now gen :
    status_begin now (sw_cache w) = inr gen ->
    status_step w (mkWorld (sw_cache w) (gen :: sw_reads w) (sw_read_in w))
| ss_end w gen st now :
    gen ∈ sw_reads w ->
    status_step w (mkWorld (status_end gen st now (sw_cache w)) (sw_reads w)
                     (if sc_gen (sw_cache w) =? gen then Some gen else sw_read_in w))
| ss_change w : status_step w (mkWorld (invalidate (sw_cache w)) (sw_reads w) (sw_read_in w)).

Definition status_start : status_world := mkWorld (mkCacheOf (mkStatus false false) None 0) [] None.

(** a status shown from the cache was read after the last change: whatever the
    interleaving of queries, which take their time, with changes, the cached
    status is one whose query began in the current generation. *)
Theorem status_current w now st :
  rtc status_step status_start w -> status_begin now (sw_cache w) = inl st ->
  sw_read_in w = Some (sc_gen (sw_cache w)).
Proof.
  intros Hr.
  assert (sc_cachedAt (sw_cache w) <> None -> sw_read_in w = Some (sc_gen (sw_cache w))) as Hi.
  { revert w Hr. apply (rtc_ind_r (fun w => sc_cachedAt (sw_cache w) <> None -> sw_read_in w = Some (sc_gen (sw_cache w)))); [done|].
    intros w1 w2 _ Hstep IH. destruct Hstep as [w now' gen Hb|w gen s now' Hg|w]; simpl in *; [done| |done].
    unfold status_end. destruct (sc_gen (sw_cache w) =? gen) eqn:E; simpl; [|done]. bool_hyps. by subst. }
  intros H. apply Hi. unfold status_begin in H. by destruct (sc_cachedAt _).
Qed.

Lemma status_current_witness :
  sw_read_in (mkWorld (mkCacheOf (mkStatus true true) (Some 5) 1) [1] (Some 1)) = Some 1.
Proof.
  refine (status_current (mkWorld (mkCacheOf (mkStatus true true) (Some 5) 1) [1] (Some 1)) 6 (mkStatus true true) _ _); [|reflexivity].
  eapply rtc_l; [apply ss_change|]. eapply rtc_l; [apply (ss_begin _ 3 1); reflexivity|].
  eapply rtc_l; [apply (ss_end _ 1 (mkStatus true true) 5); left|]. apply rtc_refl.
Defined.
