(* ===== verification/Pfconf.v ===== *)
(** * Edits of pf.conf (internal/pfconf)

    The marked blocks two parts of RiftRoute each hook an anchor into the
    packet-filter configuration with: inserting one and taking it out again as
    functions on the file's text. Writing the file is I/O. *)

From Stdlib Require Import Ascii.
From S2P Require Import Prelude.
From S2P Require Import Netip NetipText Domain Netmon Killswitch.

(** [strings.Index]: the text before the first occurrence, and from it on. *)
Fixpoint find_sub (s sub : string) : option (string * string) :=
  if HasPrefix s sub then Some ("", s)
  else match s with
       | EmptyString => None
       | String c s' => '(pre, rest) ← find_sub s' sub; Some (String c pre, rest)
       end.

Fixpoint str_drop (n : nat) (s : string) : string :=
  match n, s with O, _ => s | Datatypes.S n', String _ s' => str_drop n' s' | _, EmptyString => "" end.

Definition newline : ascii := ascii_of_nat 10.

Fixpoint HasSuffix_nl (s : string) : bool :=
  match s with EmptyString => false | String c EmptyString => Ascii.eqb c newline | String _ s' => HasSuffix_nl s' end.

Definition Block_text (begin_ end_ anchor : string) : string :=
  begin_ +:+ nl +:+ "anchor " +:+ String (ascii_of_nat 34) (anchor +:+ String (ascii_of_nat 34) nl) +:+ end_ +:+ nl.

Definition Has_block (conf begin_ : string) : bool := Contains_str conf begin_.

Definition Insert (conf begin_ end_ anchor : string) : string :=
  if Has_block conf begin_ then conf
  else
    let conf := if negb (conf =s? "") && negb (HasSuffix_nl conf) then conf +:+ nl else conf in
    conf +:+ Block_text begin_ end_ anchor.

Definition Remove (conf begin_ end_ : string) : string :=
  match find_sub conf begin_ with
  | None => conf
  | Some (pre, tail) =>
      match find_sub tail end_ with
      | None => conf
      | Some (_, rest) =>
          pre +:+ match str_drop (String.length end_) rest with
                  | String c s' => if Ascii.eqb c newline then s' else String c s'
                  | EmptyString => ""
                  end
      end
  end.

(** ** Text *)

Lemma HasPrefix_spec s p : HasPrefix s p = true <-> exists t, s = p +:+ t.
Proof.
  unfold HasPrefix. rewrite bool_decide_eq_true. revert p. induction s as [|c s IH]; intros [|a p].
  - split; [by exists ""|by exists ""].
  - split; [intros [x Hx]; done|intros [t Ht]; done].
  - split; [by exists (String c s)|by exists (String c s)].
  - simpl. destruct (Ascii.eqb a c) eqn:E.
    + apply Ascii.eqb_eq in E. subst. rewrite IH. split; intros [t Ht]; exists t; [by rewrite Ht|].
      change (String c p +:+ t) with (String c (p +:+ t)) in Ht. by injection Ht.
    + apply Ascii.eqb_neq in E. split; [intros [x Hx]; done|]. intros [t Ht].
      change (String a p +:+ t) with (String a (p +:+ t)) in Ht. injection Ht as -> _. done.
Qed.

Definition no_newline (s : string) : bool := str_forall (fun c => negb (Ascii.eqb c newline)) s.

(** A prefix of [a ++ b] is one of [a], or starts with all of [a]. *)
Lemma prefix_app a b p : HasPrefix (a +:+ b) p = true -> HasPrefix a p = true \/ exists q, p = a +:+ q /\ HasPrefix b q = true.
Proof.
  revert p. induction a as [|c a IH]; intros p H; [right; by exists p|]. destruct p as [|x p]; [by left|].
  unfold HasPrefix in *. change (String c a +:+ b) with (String c (a +:+ b)) in H. simpl in *.
  destruct (Ascii.eqb x c) eqn:E; [|done]. apply Ascii.eqb_eq in E. subst.
  destruct (IH p H) as [?|(q & -> & ?)]; [by left|right]. by exists q.
Qed.

Lemma ends_nl s : HasSuffix_nl s = true -> exists t, s = t +:+ nl.
Proof.
  induction s as [|c [|c' s'] IH]; [done| |].
  - simpl. intros H. apply Ascii.eqb_eq in H. subst. by exists "".
  - intros H. destruct (IH H) as [t Ht]. exists (String c t). by rewrite Ht.
Qed.

Lemma find_sub_none s sub : find_sub s sub = None <-> Contains_str s sub = false.
Proof.
  induction s as [|c s IH]; cbn [find_sub Contains_str]; [by destruct (HasPrefix "" sub)|].
  destruct (HasPrefix (String c s) sub); simpl; [done|]. destruct (find_sub s sub) as [[]|]; simpl; [|naive_solver].
  destruct (Contains_str s sub); naive_solver.
Qed.

(** A mark on one line is first found where it was put, after whole lines that
    do not hold it. *)
Lemma find_after conf mark_ rest :
  no_newline mark_ = true -> mark_ <> "" -> (conf = "" \/ HasSuffix_nl conf = true) -> Contains_str conf mark_ = false ->
  find_sub (conf +:+ mark_ +:+ rest) mark_ = Some (conf, mark_ +:+ rest).
Proof.
  intros Hn Hne. induction conf as [|c conf IH]; intros Hc Hno.
  - change ("" +:+ mark_ +:+ rest) with (mark_ +:+ rest).
    assert (HasPrefix (mark_ +:+ rest) mark_ = true) as H by (apply HasPrefix_spec; by exists rest).
    destruct (mark_ +:+ rest) as [|x s] eqn:E; cbn [find_sub]; by rewrite H.
  - change (String c conf +:+ mark_ +:+ rest) with (String c (conf +:+ mark_ +:+ rest)). cbn [find_sub Contains_str] in *.
    apply orb_false_iff in Hno as [Hp Hno].
    assert (HasPrefix (String c (conf +:+ mark_ +:+ rest)) mark_ = false) as ->.
    { destruct (HasPrefix (String c (conf +:+ mark_ +:+ rest)) mark_) eqn:E; [|done]. exfalso.
      apply (prefix_app (String c conf)) in E as [E|(q & Hq & _)]; [by rewrite E in Hp|].
      destruct Hc as [?|Hc]; [done|]. apply ends_nl in Hc as [t Ht]. rewrite Hq, Ht in Hn. unfold no_newline in Hn.
      rewrite !str_forall_app in Hn. simpl in Hn. by rewrite andb_false_r in Hn. }
    rewrite IH; [done| |done]. destruct Hc as [?|Hc]; [done|]. destruct conf; [by left|by right].
Qed.

Lemma Contains_app_nl conf mark_ : no_newline mark_ = true -> mark_ <> "" -> Contains_str conf mark_ = false ->
  Contains_str (conf +:+ nl) mark_ = false.
Proof.
  intros Hn Hne. induction conf as [|c conf IH]; intros Hno.
  - destruct mark_ as [|x m]; [done|]. change ("" +:+ nl) with nl. cbn [Contains_str]. unfold nl. cbn [Contains_str].
    destruct (HasPrefix (String newline "") (String x m)) eqn:E.
    + exfalso. apply HasPrefix_spec in E as [t Ht]. change (String x m +:+ t) with (String x (m +:+ t)) in Ht.
      injection Ht as <- _. done.
    + unfold newline in E. rewrite E. destruct (HasPrefix "" (String x m)) eqn:E'; [|done].
      apply HasPrefix_spec in E' as [t Ht]. done.
  - change (String c conf +:+ nl) with (String c (conf +:+ nl)). cbn [Contains_str] in *. apply orb_false_iff in Hno as [Hp Hno].
    rewrite IH by done. rewrite orb_false_r. destruct (HasPrefix (String c (conf +:+ nl)) mark_) eqn:E; [|done].
    apply (prefix_app (String c conf)) in E as [E|(q & Hq & Hp')]; [by rewrite E in Hp|].
    apply HasPrefix_spec in Hp' as [t Ht]. destruct q as [|x q].
    + rewrite append_nil_r in Hq. subst mark_. exfalso.
      assert (HasPrefix (String c conf) (String c conf) = true) as H by (apply HasPrefix_spec; exists ""; by rewrite append_nil_r).
      by rewrite H in Hp.
    + change (String x q +:+ t) with (String x (q +:+ t)) in Ht. injection Ht as <- _. subst mark_. unfold no_newline in Hn.
      rewrite str_forall_app in Hn. simpl in Hn. by rewrite andb_false_r in Hn.
Qed.

Lemma ends_nl_app s : HasSuffix_nl (s +:+ nl) = true.
Proof. induction s as [|c [|c' s'] IH]; [done|done|]. exact IH. Qed.

Lemma str_drop_app a b : str_drop (String.length a) (a +:+ b) = b.
Proof. induction a as [|c a IH]; [done|]. exact IH. Qed.

(** Marks and an anchor that can be told apart in the block they make. *)
Definition marks_ok (begin_ end_ anchor : string) : bool :=
  no_newline begin_ && negb (begin_ =s? "") && no_newline end_ && negb (end_ =s? "") &&
  match find_sub (Block_text begin_ end_ anchor) end_ with
  | Some (_, rest) => rest =s? end_ +:+ nl
  | None => false
  end.

(** taking a hook out of pf.conf undoes putting it in: the rest of the file is
    as it was, but for a newline at its end if it had none; inserting it again
    and removing it again change nothing. *)
Theorem hook_roundtrip (conf begin_ end_ anchor : string) :
  marks_ok begin_ end_ anchor = true -> Has_block conf begin_ = false ->
  let hooked := Insert conf begin_ end_ anchor in
  let whole_lines := if negb (conf =s? "") && negb (HasSuffix_nl conf) then conf +:+ nl else conf in
  Has_block hooked begin_ = true /\ Insert hooked begin_ end_ anchor = hooked /\
  Remove hooked begin_ end_ = whole_lines /\ Remove whole_lines begin_ end_ = whole_lines.
Proof.
  intros Hm Hno hooked whole_lines. unfold marks_ok in Hm. bool_hyps.
  assert (hooked = whole_lines +:+ Block_text begin_ end_ anchor) as Eh by (unfold hooked, Insert; by rewrite Hno).
  assert (Contains_str whole_lines begin_ = false) as Hw.
  { unfold whole_lines. destruct (negb (conf =s? "") && negb (HasSuffix_nl conf)); [by apply Contains_app_nl|done]. }
  assert (whole_lines = "" \/ HasSuffix_nl whole_lines = true) as Hl.
  { unfold whole_lines. destruct (negb (conf =s? "") && negb (HasSuffix_nl conf)) eqn:E; [right; apply ends_nl_app|].
    apply andb_false_iff in E as [E|E]; bool_hyps; [left|right]; done. }
  pose proof (find_after whole_lines begin_ (nl +:+ "anchor " +:+ String (ascii_of_nat 34) (anchor +:+ String (ascii_of_nat 34) nl) +:+ end_ +:+ nl))
    as Hf. fold (Block_text begin_ end_ anchor) in Hf. rewrite <- Eh in Hf. specialize (Hf ltac:(done) ltac:(done) Hl Hw).
  assert (Has_block hooked begin_ = true) as Hhas.
  { unfold Has_block. destruct (Contains_str hooked begin_) eqn:E; [done|]. apply find_sub_none in E. by rewrite Hf in E. }
  split_and!; [done|unfold Insert; by rewrite Hhas| |].
  - unfold Remove. rewrite Hf. destruct (find_sub (Block_text begin_ end_ anchor) end_) as [[mid rest]|] eqn:Ee; [|done].
    bool_hyps. subst rest. rewrite str_drop_app. cbn. by rewrite append_nil_r.
  - unfold Remove. apply find_sub_none in Hw. by rewrite Hw.
Qed.

Lemma hook_roundtrip_witness :
  Remove (Insert "anchor apple" pfHookBegin pfHookEnd pfAnchor) pfHookBegin pfHookEnd = "anchor apple" +:+ nl.
Proof.
  refine (proj1 (proj2 (proj2 (hook_roundtrip "anchor apple" pfHookBegin pfHookEnd pfAnchor _ _)))); vm_compute; reflexivity.
Defined.
