(* ===== verification/Update.v ===== *)
(** * Updates: versions, signed manifests and the decision (internal/update)

    The version order, the manifest of a release and what makes one acceptable,
    the verification of its signature and the rules that decide whether it is
    installed. Cryptography, base64, JSON and [url.Parse] are arguments. Text is
    bytes; the spaces trimmed are the ASCII ones. Lowercasing a host is exact as
    far as comparing it with an ASCII name goes: it folds the ASCII letters and
    the two other characters whose lower case is ASCII. *)

From Stdlib Require Import Ascii.
From S2P Require Import Prelude.
From S2P Require Import Netip NetipText Domain Provider Netmon Killswitch.

(** ** Text *)

Fixpoint TrimRight (s : string) : string :=
  match s with
  | EmptyString => ""
  | String c s' => match TrimRight s' with
                   | EmptyString => if is_space c then "" else String c ""
                   | t => String c t
                   end
  end.
Definition TrimSpace (s : string) : string := TrimRight (TrimLeft s).

(** The text before the first of [-+], and whether there is one. *)
Definition is_suffix_mark (c : ascii) : bool := Ascii.eqb c "-" || Ascii.eqb c "+".
Fixpoint before_mark (s : string) : string :=
  match s with EmptyString => "" | String c s' => if is_suffix_mark c then "" else String c (before_mark s') end.
Definition ContainsMark (s : string) : bool := negb (str_forall (fun c => negb (is_suffix_mark c)) s).

Fixpoint split_on (sep : ascii) (s cur : string) : list string :=
  match s with
  | EmptyString => [cur]
  | String c s' => if Ascii.eqb c sep then cur :: split_on sep s' "" else split_on sep s' (cur +:+ String c "")
  end.
Definition Split (s : string) (sep : ascii) : list string := split_on sep s "".

(** [strconv.Atoi]: a 64-bit int. *)
Definition Atoi (s : string) : option Z :=
  let '(neg, digits) :=
    match s with
    | String c s' => if Ascii.eqb c "-" then (true, s') else if Ascii.eqb c "+" then (false, s') else (false, s)
    | EmptyString => (false, s)
    end in
  if digits =s? "" then None
  else n ← digits_val digits 0;
       let v := if neg : bool then - n else n in
       if (- 2 ^ 63 <=? v) && (v <=? 2 ^ 63 - 1) then Some v else None.

(** ** Versions (update.go) *)

Definition parseSemver (v : string) : option (Z * Z * Z) :=
  let v := before_mark (TrimPrefix (TrimSpace v) "v") in
  match Split v "." with
  | [a; b; c] => x ← Atoi a; y ← Atoi b; z ← Atoi c; Some (x, y, z)
  | _ => None
  end.

Definition Newer (current candidate : string) : bool :=
  match parseSemver current, parseSemver candidate with
  | Some (c0, c1, c2), Some (n0, n1, n2) =>
      if negb (n0 =? c0) then c0 <? n0 else if negb (n1 =? c1) then c1 <? n1 else if negb (n2 =? c2) then c2 <? n2 else false
  | _, _ => false
  end.

Definition IsRelease (v : string) : bool :=
  let v := TrimPrefix (TrimSpace v) "v" in
  if ContainsMark v then false else bool_decide (is_Some (parseSemver v)).

(** ** Manifests (manifest.go) *)

Definition ManifestSchema : Z := 1.
Definition MaxAssetSize : Z := Z.shiftl 200 20.

Record ManifestAsset : Type := mkAsset {
  as_OS : string; as_Arch : string; as_Kind : string; as_URL : string; as_SHA256 : string; as_Size : Z }.

Record Manifest : Type := mkManifest {
  mf_Schema : Z;
  mf_Channel : string;
  mf_Version : string;
  mf_Published : Z;
  mf_NotesURL : string;
  mf_MinFrom : string;
  mf_Assets : list ManifestAsset;
}.

Record Signature : Type := mkSignature { sg_KeyID : string; sg_Alg : string; sg_Sig : string }.

Record Advice : Type := mkAdvice { ad_RolloutPercent : Z; ad_Halt : bool }.

Definition ErrUnknownKey : error := Errorf "manifest signed by an unknown key" [].
Definition ErrBadSignature : error := Errorf "manifest signature does not verify" [].

Definition is_lower (c : ascii) : bool := (97 <=? code c) && (code c <=? 122).
Definition is_hex_lower (c : ascii) : bool := is_digit c || ((97 <=? code c) && (code c <=? 102)).

(** [^[0-9a-f]{64}$] and [^[a-z][a-z0-9-]{0,31}$]. *)
Definition reSHA256 (s : string) : bool := (String.length s =? 64)%nat && str_forall is_hex_lower s.
Definition reChannel (s : string) : bool :=
  match s with
  | EmptyString => false
  | String c s' => is_lower c && (String.length s' <=? 31)%nat && str_forall (fun c => is_lower c || is_digit c || Ascii.eqb c "-") s'
  end.

(** What the code reads of a [url.URL]: [Hostname()] and [Port()] of its host. *)
Record URL : Type := mkURL { u_Scheme : string; u_User : option string; u_Host : string; u_Port : string }.

(** [strings.ToLower], for comparing with ASCII text: U+0130 and U+212A become i
    and k. *)
Definition is_upper (c : ascii) : bool := (65 <=? code c) && (code c <=? 90).
Definition to_lower (c : ascii) : ascii := ascii_of_N (Z.to_N (code c + 32)).
Definition byte_is (n : Z) (c : ascii) : bool := code c =? n.

Fixpoint lower_text (s : string) : string :=
  match s with
  | EmptyString => ""
  | String c s' =>
      if is_upper c then String (to_lower c) (lower_text s')
      else match s' with
           | String d s'' =>
               if byte_is 196 c && byte_is 176 d then String "i" (lower_text s'')
               else match s'' with
                    | String e s3 => if byte_is 226 c && byte_is 132 d && byte_is 170 e then String "k" (lower_text s3) else String c (lower_text s')
                    | EmptyString => String c (lower_text s')
                    end
           | EmptyString => String c ""
           end
  end.

Definition assetHosts : list string :=
  ["github.com"; "objects.githubusercontent.com"; "release-assets.githubusercontent.com"; "riftroute.tellnew.tech"].

Definition asset_key (a : ManifestAsset) : string := as_OS a +:+ "/" +:+ as_Arch a +:+ "/" +:+ as_Kind a.

Section manifest.
Context (url_Parse : string -> option URL).

Definition AllowedAssetURL (u : string) : bool :=
  match url_Parse u with
  | None => false
  | Some p => (u_Scheme p =s? "https") && bool_decide (u_User p = None) && bool_decide (lower_text (u_Host p) ∈ assetHosts) && (u_Port p =s? "")
  end.

Fixpoint validate_assets (seen : gset string) (l : list ManifestAsset) : option error :=
  match l with
  | [] => None
  | a :: l' =>
      let k := asset_key a in
      if (as_OS a =s? "") || (as_Arch a =s? "") || (as_Kind a =s? "") then
        Some (Errorf "manifest asset %q: os, arch and kind are required" [as_URL a])
      else if bool_decide (k ∈ seen) then Some (Errorf "manifest lists %s twice" [k])
      else if negb (AllowedAssetURL (as_URL a)) then Some (Errorf "manifest asset URL %q not allowed" [as_URL a])
      else if negb (reSHA256 (as_SHA256 a)) then Some (Errorf "manifest asset %s: bad sha256" [k])
      else if (as_Size a <=? 0) || (MaxAssetSize <? as_Size a) then
        Some (Errorf "manifest asset %s: size %d out of range" [k; pretty (as_Size a)])
      else validate_assets ({[k]} ∪ seen) l'
  end.

Definition Validate (m : Manifest) : option error :=
  if negb (mf_Schema m =? ManifestSchema) then
    Some (Errorf "manifest schema %d not supported (want %d)" [pretty (mf_Schema m); pretty ManifestSchema])
  else if negb (reChannel (mf_Channel m)) then Some (Errorf "manifest channel %q invalid" [mf_Channel m])
  else if negb (IsRelease (mf_Version m)) then Some (Errorf "manifest version %q is not a release version" [mf_Version m])
  else if negb (mf_MinFrom m =s? "") && negb (IsRelease (mf_MinFrom m)) then
    Some (Errorf "manifest min_from %q invalid" [mf_MinFrom m])
  else match mf_Assets m with
       | [] => Some (Errorf "manifest lists no assets" [])
       | l => validate_assets ∅ l
       end.

(** The signature's decoding and check; keys are the trusted ones by name. *)
Section verify.
Context {Key : Type} (json_sig : string -> error + Signature) (json_manifest : string -> error + Manifest).
Context (base64 : string -> option string) (ed25519_Verify : Key -> string -> string -> bool).

Definition SignatureSize : nat := 64.

Definition Verify (manifest sig : string) (trusted : gmap string Key) : error + Manifest :=
  match json_sig sig with
  | inl e => inl (Wrapf "signature file: %w" [] e)
  | inr s =>
      if negb (sg_Alg s =s? "ed25519") then inl (Errorf "signature algorithm %q not supported" [sg_Alg s])
      else match trusted !! sg_KeyID s with
      | None => inl (Wrapf "%w (%s)" [sg_KeyID s] ErrUnknownKey)
      | Some pub =>
          match base64 (sg_Sig s) with
          | None => inl ErrBadSignature
          | Some raw =>
              if negb (String.length raw =? SignatureSize)%nat then inl ErrBadSignature
              else if negb (ed25519_Verify pub manifest raw) then inl ErrBadSignature
              else match json_manifest manifest with
              | inl e => inl (Wrapf "manifest: %w" [] e)
              | inr m => match Validate m with Some e => inl e | None => inr m end
              end
          end
      end
  end.
End verify.
End manifest.

Definition Manifest_Asset (m : Manifest) (goos goarch kind : string) : option ManifestAsset :=
  List.find (fun a => (as_OS a =s? goos) && (as_Arch a =s? goarch) && (as_Kind a =s? kind)) (mf_Assets m).

(** ** The decision *)

Inductive Action : Type := ActionNone | ActionHold | ActionNotify | ActionInstall.

#[export] Instance Action_eq_dec : EqDecision Action.
Proof. solve_decision. Defined.

Record Decision : Type := mkDecision { dn_Action : Action; dn_Reason : string }.

Record DecideInput : Type := mkDecideInput {
  di_Current : string;
  di_Mode : string;
  di_Manifest : Manifest;
  di_Advice : option Advice;
  di_Bucket : Z;
  di_GOOS : string;
  di_GOARCH : string;
  di_SelfUpdatable : bool;
  di_Skip : string;
}.

Definition clampPercent (p : Z) : Z := if p <? 0 then 0 else if 100 <? p then 100 else p.

(** What the advice holds back. *)
Definition advice_hold (version : string) (advice : option Advice) (bucket : Z) : option Decision :=
  match advice with
  | None => None
  | Some a =>
      if ad_Halt a then Some (mkDecision ActionHold ("the rollout of " +:+ version +:+ " is paused"))
      else if clampPercent (ad_RolloutPercent a) <=? bucket then
        Some (mkDecision ActionHold (version +:+ " is rolling out gradually (" +:+ pretty (clampPercent (ad_RolloutPercent a)) +:+ "%)"))
      else None
  end.

Definition Decide (i : DecideInput) : Decision :=
  let m := di_Manifest i in
  let v := mf_Version m in
  if di_Mode i =s? "off" then mkDecision ActionNone "updates are off"
  else if negb (Newer (di_Current i) v) then mkDecision ActionNone "up to date"
  else if negb (di_Skip i =s? "") && negb (Newer (di_Skip i) v) then
    mkDecision ActionNone (v +:+ " didn't work on this computer and is skipped; a newer release will be offered")
  else match advice_hold v (di_Advice i) (di_Bucket i) with
  | Some d => d
  | None =>
      match Manifest_Asset m (di_GOOS i) (di_GOARCH i) "tarball" with
      | None => mkDecision ActionNotify (v +:+ " is available (no automatic install for " +:+ di_GOOS i +:+ "/" +:+ di_GOARCH i +:+ ")")
      | Some _ =>
          if negb (di_Mode i =s? "auto") then mkDecision ActionNotify (v +:+ " is available")
          else if negb (IsRelease (di_Current i)) then
            mkDecision ActionNotify (v +:+ " is available (this is a development build; install it yourself)")
          else if negb (di_SelfUpdatable i) then
            mkDecision ActionNotify (v +:+ " is available (this install is managed elsewhere; update it the way you installed it)")
          else if negb (mf_MinFrom m =s? "") && Newer (di_Current i) (mf_MinFrom m) then
            mkDecision ActionNotify (v +:+ " is available (too big a jump from " +:+ di_Current i +:+ " to install on its own)")
          else mkDecision ActionInstall ("installing " +:+ v)
      end
  end.

(** A check that an empty setting turns off. *)
Lemma unset_or s b : negb (s =s? "") && b = false <-> s = "" \/ b = false.
Proof. destruct (s =s? "") eqn:E; bool_hyps; simpl; naive_solver. Qed.

(** ** The version order *)

(** newer is a strict order on versions, total on those that parse, and a
    version that does not parse is neither newer nor older than any other. *)
Theorem Newer_order (a b c : string) :
  Newer a a = false /\ (Newer a b = true -> Newer b c = true -> Newer a c = true) /\
  (forall x y, parseSemver a = Some x -> parseSemver b = Some y -> x = y \/ Newer a b = true \/ Newer b a = true) /\
  (parseSemver a = None -> Newer a b = false /\ Newer b a = false).
Proof.
  unfold Newer.
  destruct (parseSemver a) as [[[a0 a1] a2]|], (parseSemver b) as [[[b0 b1] b2]|], (parseSemver c) as [[[c0 c1] c2]|];
    rewrite ?Z.eqb_refl; split_and!; try done.
  all: try (intros x y [= <-] [= <-]). all: repeat case_match; bool_hyps; subst; intros; bool_hyps; try done; try lia; try (by auto).
  all: try (right; left; lia); try (right; right; lia).
Qed.

(** ** Texts a manifest may hold *)

(** A host as the code's lower case takes it for the name [w]. *)
Definition dotted_I : string := String (ascii_of_nat 196) (String (ascii_of_nat 176) "").
Definition kelvin_sign : string := String (ascii_of_nat 226) (String (ascii_of_nat 132) (String (ascii_of_nat 170) "")).

Inductive spelled : string -> string -> Prop :=
| spelled_nil : spelled "" ""
| spelled_char c w h : spelled w h -> spelled (String c w) (String c h)
| spelled_capital c w h : is_upper c = true -> spelled w h -> spelled (String (to_lower c) w) (String c h)
| spelled_dotted w h : spelled w h -> spelled (String "i" w) (dotted_I +:+ h)
| spelled_kelvin w h : spelled w h -> spelled (String "k" w) (kelvin_sign +:+ h).

Definition plain_name (w : string) : bool := str_forall (fun c => (code c <? 128) && negb (is_upper c)) w.

Lemma byte_is_code n c : (n < 256)%nat -> byte_is (Z.of_nat n) c = true -> c = ascii_of_nat n.
Proof.
  unfold byte_is, code. intros Hn H%Z.eqb_eq. rewrite <- (ascii_N_embedding c). unfold ascii_of_nat. f_equal. lia.
Qed.

Lemma lower_text_char c h : is_upper c = false -> code c < 128 -> lower_text (String c h) = String c (lower_text h).
Proof.
  intros Hu Hc. cbn [lower_text]. rewrite Hu. assert (byte_is 196 c = false /\ byte_is 226 c = false) as [E1 E2] by (unfold byte_is; rewrite !Z.eqb_neq; lia).
  destruct h as [|d h]; [done|]. rewrite E1. cbn [andb]. destruct h as [|e h]; [done|]. by rewrite E2.
Qed.

Lemma spelled_lower w h : plain_name w = true -> spelled w h -> lower_text h = w.
Proof.
  intros Hw H. induction H as [|c w h _ IH|c w h Hu _ IH|w h _ IH|w h _ IH]; [done|..];
    unfold plain_name in *; cbn [str_forall] in Hw; apply andb_true_iff in Hw as [Hc Hw]; specialize (IH Hw).
  - apply andb_true_iff in Hc as [Hc Hu]. rewrite lower_text_char; [by rewrite IH|by apply negb_true_iff|lia].
  - cbn [lower_text]. by rewrite Hu, IH.
  - cbn. by rewrite IH.
  - cbn. by rewrite IH.
Qed.

Lemma lower_spelled h : spelled (lower_text h) h.
Proof.
  remember (String.length h) as n eqn:En. revert h En. induction (lt_wf n) as [n _ IH]. intros [|c h] ->; [constructor|].
  assert (forall x, (String.length x < String.length (String c h))%nat -> spelled (lower_text x) x) as H by (intros x Hx; by apply (IH _ Hx)). clear IH.
  cbn [lower_text]. destruct (is_upper c) eqn:Hu; [apply spelled_capital; [done|apply H; cbn; lia]|].
  destruct h as [|d h]; [apply (spelled_char c ""); constructor|].
  destruct (byte_is 196 c && byte_is 176 d) eqn:E1.
  { apply andb_true_iff in E1 as [->%(byte_is_code 196) ->%(byte_is_code 176)]; [|lia..]. apply spelled_dotted, H. cbn. lia. }
  assert (spelled (lower_text (String d h)) (String d h)) as Hd by (apply H; cbn; lia).
  destruct h as [|e h]; [by apply spelled_char|]. destruct (byte_is 226 c && byte_is 132 d && byte_is 170 e) eqn:E2; [|by apply spelled_char].
  apply andb_true_iff in E2 as [E2 E5]. apply andb_true_iff in E2 as [E3 E4].
  apply (byte_is_code 226) in E3 as ->; [|lia]. apply (byte_is_code 132) in E4 as ->; [|lia]. apply (byte_is_code 170) in E5 as ->; [|lia].
  apply spelled_kelvin, H. cbn. lia.
Qed.

(** A part of a version: decimal digits, within an int. *)
Definition number (s : string) : Prop := s <> "" /\ exists n, digits_val s 0 = Some n /\ n < 2 ^ 63.

(** A release version: three numbers. A leading v, blanks after it and one more v
    are let by. *)
Definition release (v : string) : Prop :=
  exists a b c, number a /\ number b /\ number c /\
    TrimPrefix (TrimSpace (TrimPrefix (TrimSpace v) "v")) "v" = a +:+ "." +:+ b +:+ "." +:+ c.

Lemma TrimSpace_chars P s : (forall c, is_space c = true -> P c = true) -> str_forall P (TrimSpace s) = str_forall P s.
Proof.
  intros HP. assert (forall t, str_forall P (TrimLeft t) = str_forall P t) as Hl.
  { induction t as [|c t IH]; [done|]. cbn [TrimLeft]. destruct (is_space c) eqn:E; [|done]. cbn [str_forall]. by rewrite (HP c E), IH. }
  assert (forall t, str_forall P (TrimRight t) = str_forall P t) as Hr.
  { induction t as [|c t IH]; [done|]. cbn [TrimRight]. destruct (TrimRight t) as [|d u] eqn:E; cbn [str_forall] in *; rewrite <- IH; [|done].
    destruct (is_space c) eqn:Ec; cbn [str_forall]; [by rewrite (HP c Ec)|done]. }
  unfold TrimSpace. by rewrite Hr, Hl.
Qed.

Lemma TrimPrefix_v P s : P "v"%char = true -> str_forall P (TrimPrefix s "v") = str_forall P s.
Proof.
  intros HP. unfold TrimPrefix. destruct s as [|c s]; [done|]. cbn [CutPrefix]. destruct (Ascii.eqb_spec "v" c) as [<-|]; [|done].
  destruct s; cbn [CutPrefix default str_forall]; by rewrite HP.
Qed.

Lemma cur_char cur c s : (cur +:+ String c "") +:+ s = cur +:+ String c s.
Proof. by rewrite append_assoc. Qed.

Lemma split_on_join sep s : forall cur, Join (split_on sep s cur) (String sep "") = cur +:+ s.
Proof.
  induction s as [|c s IH]; intros cur; cbn [split_on]; [by rewrite append_nil_r|]. destruct (Ascii.eqb_spec c sep) as [->|]; [|by rewrite IH, cur_char].
  specialize (IH ""). destruct (split_on sep s "") as [|x l] eqn:E; [by destruct s; cbn in E; repeat case_match|].
  change (Join (cur :: x :: l) (String sep "")) with (cur +:+ String sep "" +:+ Join (x :: l) (String sep "")). by rewrite IH.
Qed.

Lemma split_on_sep sep s : forall t cur, str_forall (fun c => negb (Ascii.eqb c sep)) s = true ->
  split_on sep (s +:+ String sep t) cur = (cur +:+ s) :: split_on sep t "".
Proof.
  induction s as [|c s IH]; intros t cur H; [cbn; by rewrite Ascii.eqb_refl, append_nil_r|]. cbn [str_forall] in H. apply andb_true_iff in H as [Hc H].
  change (String c s +:+ String sep t) with (String c (s +:+ String sep t)). cbn [split_on]. apply negb_true_iff in Hc. rewrite Hc, IH by done. by rewrite cur_char.
Qed.

Lemma split_on_none sep s : forall cur, str_forall (fun c => negb (Ascii.eqb c sep)) s = true -> split_on sep s cur = [cur +:+ s].
Proof.
  induction s as [|c s IH]; intros cur H; [cbn; by rewrite append_nil_r|]. cbn [str_forall] in H. apply andb_true_iff in H as [Hc H].
  cbn [split_on]. apply negb_true_iff in Hc. rewrite Hc, IH by done. by rewrite cur_char.
Qed.

Lemma digits_val_chars s : forall acc n, digits_val s acc = Some n -> 0 <= acc -> str_forall is_digit s = true /\ 0 <= n.
Proof.
  induction s as [|c s IH]; intros acc n; cbn [digits_val str_forall]; [by intros [= <-]|]. destruct (is_digit c) eqn:E; [|done]. intros H Ha. apply IH in H; [done|].
  unfold is_digit in E. bool_hyps. lia.
Qed.

Definition unmarked (s : string) : bool := str_forall (fun c => negb (is_suffix_mark c)) s.

Lemma before_unmarked s : unmarked s = true -> before_mark s = s.
Proof.
  unfold unmarked. induction s as [|c s IH]; cbn [str_forall before_mark]; [done|]. rewrite andb_true_iff, negb_true_iff. intros [-> H]. by rewrite IH.
Qed.

Lemma Atoi_number s : unmarked s = true -> (exists n, Atoi s = Some n) <-> number s.
Proof.
  intros Hu. unfold Atoi, number.
  assert ((match s with String c s' => if Ascii.eqb c "-" then (true, s') else if Ascii.eqb c "+" then (false, s') else (false, s) | EmptyString => (false, s) end) = (false, s)) as ->.
  { destruct s as [|c s]; [done|]. unfold unmarked in Hu. cbn [str_forall] in Hu. apply andb_true_iff in Hu as [Hc _]. unfold is_suffix_mark in Hc. by destruct (Ascii.eqb c "-"), (Ascii.eqb c "+"). }
  destruct (String.eqb_spec s "") as [->|Hs]; [naive_solver|]. destruct (digits_val s 0) as [n|] eqn:E; cbn [mbind option_bind]; [|naive_solver].
  destruct (digits_val_chars s 0 n E) as [_ Hn]; [lia|]. destruct ((- 2 ^ 63 <=? n) && (n <=? 2 ^ 63 - 1)) eqn:Er.
  - split; [|by eauto]. intros _. split; [done|]. exists n. split; [done|]. lia.
  - split; [naive_solver|]. intros (_ & n' & [= <-] & Hlt). lia.
Qed.

Lemma number_chars (P : ascii -> bool) s : (forall c, is_digit c = true -> P c = true) -> number s -> str_forall P s = true.
Proof. intros HP (_ & n & H & _). apply digits_val_chars in H as [H _]; [|lia]. revert H. by apply str_forall_impl. Qed.

Lemma IsRelease_exact v : IsRelease v = true <-> release v.
Proof.
  unfold IsRelease, release, parseSemver, ContainsMark. set (v1 := TrimPrefix (TrimSpace v) "v"). set (w := TrimPrefix (TrimSpace v1) "v").
  assert (unmarked w = str_forall (fun c => negb (is_suffix_mark c)) v1) as <-.
  { unfold unmarked, w. rewrite TrimPrefix_v, TrimSpace_chars; [done| |done]. intros c Hc. unfold is_space, is_suffix_mark in *.
    destruct (Ascii.eqb_spec c "-") as [->|]; [done|]. by destruct (Ascii.eqb_spec c "+") as [->|]. }
  assert (forall c, is_digit c = true -> negb (is_suffix_mark c) = true /\ negb (Ascii.eqb c ".") = true) as Hd.
  { intros c Hc. unfold is_suffix_mark. destruct (Ascii.eqb_spec c "-") as [->|]; [done|]. destruct (Ascii.eqb_spec c "+") as [->|]; [done|]. by destruct (Ascii.eqb_spec c ".") as [->|]. }
  split.
  - destruct (unmarked w) eqn:Eu; [|done]. cbn [negb]. rewrite before_unmarked by done. pose proof (split_on_join "." w "") as Hj. unfold Split.
    rewrite bool_decide_eq_true. destruct (split_on "." w "") as [|a [|b [|c [|]]]] eqn:Es; try (by intros [? ?]).
    cbn [Join] in Hj. change ("" +:+ w) with w in Hj.
    assert (unmarked a = true /\ unmarked b = true /\ unmarked c = true) as (Ha & Hb & Hc).
    { unfold unmarked in *. rewrite <- Hj, !str_forall_app in Eu. bool_hyps. done. }
    destruct (Atoi a) as [x|] eqn:Ea; cbn [mbind option_bind]; [|by intros [? ?]]. destruct (Atoi b) as [y|] eqn:Eb; cbn [mbind option_bind]; [|by intros [? ?]].
    destruct (Atoi c) as [z|] eqn:Ec; cbn [mbind option_bind]; [|by intros [? ?]]. intros _. exists a, b, c.
    split_and!; [by apply Atoi_number; eauto..|]. by rewrite <- Hj.
  - intros (a & b & c & Ha & Hb & Hc & Hw). rewrite Hw.
    assert (forall x, number x -> unmarked x = true /\ str_forall (fun c => negb (Ascii.eqb c ".")) x = true) as Hx.
    { intros x Hx. split; (apply number_chars; [|done]); intros; by apply Hd. }
    destruct (Hx a Ha) as [Ua Da], (Hx b Hb) as [Ub Db], (Hx c Hc) as [Uc Dc].
    assert (unmarked (a +:+ "." +:+ b +:+ "." +:+ c) = true) as Hu by (unfold unmarked in *; rewrite !str_forall_app, Ua, Ub, Uc; done).
    rewrite Hu. cbn [negb]. rewrite before_unmarked by done. unfold Split.
    change ("." +:+ b +:+ "." +:+ c) with (String "." (b +:+ String "." c)). rewrite !split_on_sep, split_on_none by done. cbn [String.append].
    destruct (proj2 (Atoi_number a Ua) Ha) as [x ->], (proj2 (Atoi_number b Ub) Hb) as [y ->], (proj2 (Atoi_number c Uc) Hc) as [z ->].
    cbn [mbind option_bind]. by apply bool_decide_eq_true.
Qed.

(** ** Manifests *)

Section manifest_facts.
Context (url_Parse : string -> option URL).

(** Where a download may come from: over https, from one of four hosts, with no
    user and no port. *)
Definition allowed_url (u : string) : Prop :=
  exists p, url_Parse u = Some p /\ u_Scheme p = "https" /\ u_User p = None /\ u_Port p = "" /\
    exists w, w ∈ ["github.com"; "objects.githubusercontent.com"; "release-assets.githubusercontent.com"; "riftroute.tellnew.tech"] /\ spelled w (u_Host p).

(** 32 bytes in lower-case hexadecimal. *)
Definition sha256_text (s : string) : Prop :=
  String.length s = 64%nat /\ Forall (fun c => c ∈ String.list_ascii_of_string "0123456789abcdef") (String.list_ascii_of_string s).

Definition asset_ok (a : ManifestAsset) : Prop :=
  as_OS a <> "" /\ as_Arch a <> "" /\ as_Kind a <> "" /\ allowed_url (as_URL a) /\ sha256_text (as_SHA256 a) /\ 0 < as_Size a <= 200 * 1024 * 1024.

(** A name of at most 32 lower-case letters, digits and hyphens, a letter first. *)
Definition channel_name (s : string) : Prop :=
  exists c s', s = String c s' /\ (String.length s <= 32)%nat /\ c ∈ String.list_ascii_of_string "abcdefghijklmnopqrstuvwxyz" /\
    Forall (fun c => c ∈ String.list_ascii_of_string "abcdefghijklmnopqrstuvwxyz0123456789-") (String.list_ascii_of_string s').

Definition manifest_ok (m : Manifest) : Prop :=
  mf_Schema m = 1 /\ channel_name (mf_Channel m) /\ release (mf_Version m) /\
  (mf_MinFrom m = "" \/ release (mf_MinFrom m)) /\ mf_Assets m <> [] /\
  NoDup (map (fun a => (as_OS a +:+ "/" +:+ as_Arch a +:+ "/" +:+ as_Kind a)) (mf_Assets m)) /\ Forall asset_ok (mf_Assets m).

Lemma AllowedAssetURL_exact u : AllowedAssetURL url_Parse u = true <-> allowed_url u.
Proof.
  unfold AllowedAssetURL, allowed_url. destruct (url_Parse u) as [p|]; [|split; [done|naive_solver]].
  rewrite !andb_true_iff, !bool_decide_eq_true, !String.eqb_eq. split.
  - intros [[[Hs Hu] Hh] Hp]. exists p. split_and!; try done. exists (lower_text (u_Host p)). split; [done|apply lower_spelled].
  - intros (x & [= <-] & Hs & Hu & Hp & w & Hw & Hsp). split_and!; try done. rewrite (spelled_lower w); [done| |done].
    assert (Forall (fun w => plain_name w = true) assetHosts) as Hall by (repeat constructor). rewrite Forall_forall in Hall. by apply Hall.
Qed.

(** A character class as the list of its characters. *)
Lemma class_chars (P : ascii -> bool) (chars s : string) :
  (forall c, P c = true <-> c ∈ String.list_ascii_of_string chars) -> str_forall P s = true <-> Forall (fun c => c ∈ String.list_ascii_of_string chars) (String.list_ascii_of_string s).
Proof.
  intros HP. induction s as [|c s IH]; cbn [str_forall String.list_ascii_of_string]; [by split|]. by rewrite andb_true_iff, Forall_cons, HP, IH.
Qed.

Lemma char_list (P : ascii -> bool) (chars : string) :
  forallb (fun n => Bool.eqb (P (ascii_of_nat n)) (bool_decide (ascii_of_nat n ∈ String.list_ascii_of_string chars))) (seq 0 256) = true ->
  forall c, P c = true <-> c ∈ String.list_ascii_of_string chars.
Proof.
  rewrite forallb_forall. intros H c. specialize (H (nat_of_ascii c)). rewrite ascii_nat_embedding in H.
  rewrite (Bool.eqb_prop _ _ (H ltac:(apply in_seq; pose proof (nat_ascii_bounded c); lia))). apply bool_decide_eq_true.
Qed.

Lemma reSHA256_exact s : reSHA256 s = true <-> sha256_text s.
Proof.
  unfold reSHA256, sha256_text. rewrite andb_true_iff, Nat.eqb_eq. by rewrite (class_chars is_hex_lower "0123456789abcdef") by (apply char_list; vm_compute; reflexivity).
Qed.

Lemma reChannel_exact s : reChannel s = true <-> channel_name s.
Proof.
  unfold reChannel, channel_name. destruct s as [|c s]; [split; [done|naive_solver]|].
  rewrite !andb_true_iff, Nat.leb_le. rewrite (char_list is_lower "abcdefghijklmnopqrstuvwxyz") by (vm_compute; reflexivity).
  rewrite (class_chars _ "abcdefghijklmnopqrstuvwxyz0123456789-") by (apply char_list; vm_compute; reflexivity). cbn [String.length]. split.
  - intros [[Hc Hl] Hs]. exists c, s. split_and!; [done|lia|done..].
  - intros (c' & s' & [= <- <-] & Hl & Hc & Hs). split_and!; [done|lia|done].
Qed.

Lemma validate_assets_exact l : forall seen, validate_assets url_Parse seen l = None <->
  Forall asset_ok l /\ NoDup (map asset_key l) /\ Forall (fun a => asset_key a ∉ seen) l.
Proof.
  induction l as [|a l IH]; intros seen; simpl; [by repeat split; constructor|].
  rewrite !Forall_cons, NoDup_cons. unfold asset_ok at 1. split.
  - repeat case_if; intros H; try done. bool_hyps. apply IH in H as (? & ? & Hs).
    rewrite Forall_forall in Hs. split_and!; try done; try (unfold MaxAssetSize in *; lia); [by apply AllowedAssetURL_exact|by apply reSHA256_exact|..].
    + intros Hk. apply list_elem_of_fmap in Hk as (b & Hb & Hin). specialize (Hs b Hin). simpl in Hs. set_solver.
    + apply Forall_forall. intros b Hb. specialize (Hs b Hb). simpl in Hs. set_solver.
  - intros [[(? & ? & ? & HU%AllowedAssetURL_exact & HS%reSHA256_exact & ?) ?] [[Hk Hnd] [Hn Hf]]]. change (200 * 1024 * 1024) with MaxAssetSize in *.
    repeat case_if; bool_hyps; try done; try lia; try congruence.
    apply IH. split_and!; [done..|]. rewrite Forall_forall in *. intros b Hb. specialize (Hf b Hb). simpl in *.
      apply not_elem_of_union. split; [|done]. apply not_elem_of_singleton. intros E. apply Hk. rewrite <- E.
      apply list_elem_of_fmap. eauto.
Qed.

Lemma Validate_exact m : Validate url_Parse m = None <-> manifest_ok m.
Proof.
  unfold Validate, manifest_ok. rewrite <- reChannel_exact, <- !IsRelease_exact. split.
  - repeat case_if; intros H; try done. destruct (mf_Assets m) as [|a l] eqn:E; [done|].
    apply validate_assets_exact in H as (? & ? & _). bool_hyps. split_and!; try done.
    apply unset_or in Heqb2 as [?|?]; bool_hyps; auto.
  - intros (? & ? & ? & Hm & Hne & ? & ?). repeat case_if; bool_hyps; try done; try congruence.
    + destruct Hm; congruence.
    + destruct (mf_Assets m) as [|a l] eqn:E; [done|]. apply validate_assets_exact. split_and!; [done..|].
      apply Forall_forall. set_solver.
Qed.

(** C35: a manifest is accepted exactly when it is what a trusted key signed, byte
    for byte, and passes the checks: the one schema and a channel name; a version,
    and a minimum version if any, of three numbers (a v before it is let by, and
    another, which no comparison of versions takes); every download over https
    from one of four hosts, without user or port, with a SHA-256 in lower-case
    hexadecimal and a size up to 200 MiB; and no platform listed twice. A host is
    compared in any case, as Go folds it, so also with U+0130 for an i. *)
Theorem Verify_exact {Key} json_sig json_manifest base64 (ed25519_Verify : Key -> string -> string -> bool)
    (manifest sig : string) (trusted : gmap string Key) (m : Manifest) :
  Verify url_Parse json_sig json_manifest base64 ed25519_Verify manifest sig trusted = inr m <->
  (exists s pub raw, json_sig sig = inr s /\ sg_Alg s = "ed25519" /\ trusted !! sg_KeyID s = Some pub /\
     base64 (sg_Sig s) = Some raw /\ String.length raw = SignatureSize /\ ed25519_Verify pub manifest raw = true) /\
  json_manifest manifest = inr m /\ manifest_ok m.
Proof.
  unfold Verify. rewrite <- Validate_exact. split.
  - intros H. repeat case_match; simplify_eq; bool_hyps.
    match goal with H : Nat.eqb _ _ = true |- _ => apply Nat.eqb_eq in H end. split_and!; [|done..].
    do 3 eexists. split_and!; done.
  - intros ((s & pub & raw & -> & -> & -> & -> & -> & ->) & -> & ->). done.
Qed.
End manifest_facts.

(** ** The decision *)

(** an update is installed exactly when every rule allows it: automatic
    updates, a version newer than the running one and than one rolled back
    from, no halt and a rollout that reached this install, a tarball for the
    platform, a release build that may replace itself, and no minimum version
    above the running one. *)
Theorem Decide_installs_exactly (i : DecideInput) :
  dn_Action (Decide i) = ActionInstall <->
  di_Mode i = "auto" /\ Newer (di_Current i) (mf_Version (di_Manifest i)) = true /\
  (di_Skip i = "" \/ Newer (di_Skip i) (mf_Version (di_Manifest i)) = true) /\
  (forall a, di_Advice i = Some a -> ad_Halt a = false /\ di_Bucket i < clampPercent (ad_RolloutPercent a)) /\
  is_Some (Manifest_Asset (di_Manifest i) (di_GOOS i) (di_GOARCH i) "tarball") /\
  IsRelease (di_Current i) = true /\ di_SelfUpdatable i = true /\
  (mf_MinFrom (di_Manifest i) = "" \/ Newer (di_Current i) (mf_MinFrom (di_Manifest i)) = false).
Proof.
  unfold Decide, advice_hold. split.
  - intros H. repeat (case_match; simpl in H; try done); bool_hyps; split_and!; try done; try naive_solver.
    all: try (intros b [= <-]; split; [done|lia]).
    all: repeat match goal with H : _ && _ = false |- _ => apply unset_or in H as [?|?] end; bool_hyps; auto.
  - intros (Hm & Hn & Hs & Ha & [x Hx] & Hr & Hu & Hf). rewrite Hm, Hn, Hx, Hr, Hu. simpl.
    assert (negb (di_Skip i =s? "") && negb (Newer (di_Skip i) (mf_Version (di_Manifest i))) = false) as -> by (apply unset_or; rewrite negb_false_iff; done).
    assert (negb (mf_MinFrom (di_Manifest i) =s? "") && Newer (di_Current i) (mf_MinFrom (di_Manifest i)) = false) as -> by by apply unset_or.
    destruct (di_Advice i) as [a|]; [|done]. destruct (Ha a eq_refl) as [-> Hb].
    destruct (clampPercent (ad_RolloutPercent a) <=? di_Bucket i) eqn:E; [bool_hyps; lia|done].
Qed.

Definition set_advice (i : DecideInput) (a : option Advice) : DecideInput :=
  mkDecideInput (di_Current i) (di_Mode i) (di_Manifest i) a (di_Bucket i) (di_GOOS i) (di_GOARCH i) (di_SelfUpdatable i) (di_Skip i).

(** the server's unsigned advice can only hold an update back: with any
    advice the decision is the one without it, or a hold where an update would
    have been offered; and a rollout that grows never takes an update away. *)
Theorem advice_only_holds (i : DecideInput) (a : Advice) :
  let plain := Decide (set_advice i None) in
  (Decide (set_advice i (Some a)) = plain \/
   (dn_Action (Decide (set_advice i (Some a))) = ActionHold /\ dn_Action plain <> ActionNone)) /\
  (forall p, ad_RolloutPercent a <= p -> dn_Action (Decide (set_advice i (Some a))) = ActionInstall ->
     dn_Action (Decide (set_advice i (Some (mkAdvice p (ad_Halt a))))) = ActionInstall).
Proof.
  simpl. split.
  - unfold Decide, advice_hold, set_advice. simpl. repeat case_if; auto; right; split; try done; repeat case_match; done.
  - intros p Hp. unfold Decide, advice_hold, set_advice. simpl. do 4 (case_if; try done).
    assert (clampPercent (ad_RolloutPercent a) <= clampPercent p) as Hc by (unfold clampPercent; repeat case_if; bool_hyps; lia).
    destruct (clampPercent (ad_RolloutPercent a) <=? di_Bucket i) eqn:E1; [done|].
    destruct (clampPercent p <=? di_Bucket i) eqn:E2; [bool_hyps; lia|done].
Qed.

(** ** Examples *)

Definition ex_url (u : string) : option URL := Some (mkURL "https" None "github.com" "").
Definition ex_hash : string := "0123456789abcdef0123456789abcdef0123456789abcdef0123456789abcdef".
Definition ex_manifest (min_from : string) : Manifest :=
  mkManifest 1 "stable" "2.0.0" 0 "" min_from [mkAsset "linux" "amd64" "tarball" "https://github.com/x" ex_hash 1000].
Definition ex_decide (min_from : string) : DecideInput :=
  mkDecideInput "1.0.0" "auto" (ex_manifest min_from) None 0 "linux" "amd64" true "".

(** The host check folds case as Unicode does: a host that is another name passes
    for github.com. *)
Lemma dotted_host_allowed :
  AllowedAssetURL (fun _ => Some (mkURL "https" None ("g" +:+ dotted_I +:+ "thub.com") "")) "" = true /\ "g" +:+ dotted_I +:+ "thub.com" <> "github.com".
Proof. by vm_compute. Qed.

(** a release check that is looser than the version parser. [IsRelease] takes
    the leading v off before parsing, which takes one off again, so a manifest
    with a doubled v in [min_from] is valid; but no version compares to it, and
    the guard against too big a jump is off. *)
Theorem min_from_double_v :
  IsRelease "vv1.5.0" = true /\ parseSemver "vv1.5.0" = None /\ Validate ex_url (ex_manifest "vv1.5.0") = None /\
  dn_Action (Decide (ex_decide "v1.5.0")) = ActionNotify /\ dn_Action (Decide (ex_decide "vv1.5.0")) = ActionInstall.
Proof. vm_compute. split_and!; reflexivity. Qed.
