(* ===== verification/Text.v ===== *)
(** * Words and substrings

    Facts on the text the providers print and read: the words of a line joined
    with spaces, and what a line of words contains. *)

From Stdlib Require Import Ascii.
From S2P Require Import Prelude.
From S2P Require Import Netip NetipText Domain Netmon Killswitch Pfconf.

Definition no_space (s : string) : bool := str_forall (fun c => negb (is_space c)) s.
Definition is_word (w : string) : Prop := w <> "" /\ no_space w = true.

Lemma length_append (a b : string) : String.length (a +:+ b) = (String.length a + String.length b)%nat.
Proof. induction a as [|c a IH]; [done|]. cbn. by rewrite IH. Qed.

Lemma append_inj_l (a b c : string) : a +:+ b = a +:+ c -> b = c.
Proof. induction a as [|x a IH]; [done|]. cbn. intros [= H]. by apply IH. Qed.

Lemma no_slash_contains s : str_forall (fun c => negb (Ascii.eqb c slash)) s = true -> Contains_str s "/" = false.
Proof.
  induction s as [|c s IH]; [done|]. cbn [str_forall]. intros [Hc Hs]%andb_prop. cbn. rewrite (IH Hs), orb_false_r.
  unfold HasPrefix. cbn [CutPrefix]. by destruct (Ascii.eqb_spec slash c) as [<-|].
Qed.


Lemma fields_of_word (w : string) : forall t cur, no_space w = true -> fields_go (w +:+ t) cur = fields_go t (cur +:+ w).
Proof.
  induction w as [|c w IH]; intros t cur H; simpl; [by rewrite append_nil_r|].
  unfold no_space in *. simpl in H. destruct (is_space c); [done|]. simpl in H. rewrite IH by done. by rewrite append_assoc.
Qed.

Lemma Fields_words l : Forall is_word l -> Fields (Join l " ") = l.
Proof.
  unfold Fields. induction 1 as [|w l [Hn Hw] Hl IH]; [done|]. destruct l as [|w' l].
  - cbn. rewrite <- (append_nil_r w), fields_of_word by done. cbn. rewrite append_nil_r. by destruct (String.eqb_spec w "").
  - change (Join (w :: w' :: l) " ") with (w +:+ String " " (Join (w' :: l) " ")). rewrite fields_of_word by done.
    cbn [fields_go is_space]. change (is_space " ") with true. cbv iota. rewrite IH. cbn. by destruct (String.eqb_spec w "").
Qed.


(** ** What a line of words contains *)

Lemma HasPrefix_cons c s d p : HasPrefix (String c s) (String d p) = Ascii.eqb d c && HasPrefix s p.
Proof. unfold HasPrefix. cbn. by destruct (Ascii.eqb d c). Qed.

Lemma HasPrefix_empty s : HasPrefix s "" = true.
Proof. unfold HasPrefix. by destruct s. Qed.

Lemma no_space_cons c s : no_space (String c s) = true -> is_space c = false /\ no_space s = true.
Proof. unfold no_space. cbn. destruct (is_space c); [done|]. done. Qed.

Lemma space_eqb c : is_space c = false -> Ascii.eqb c " " = false /\ Ascii.eqb " " c = false.
Proof. intros H. split; apply Ascii.eqb_neq; by intros <- || intros ->. Qed.

Lemma HasPrefix_word v t sub : no_space sub = true -> HasPrefix (v +:+ String " " t) sub = HasPrefix v sub.
Proof.
  revert sub. induction v as [|c v IH]; intros [|d sub] H; rewrite ?HasPrefix_empty; try done.
  - change ("" +:+ String " " t) with (String " " t). apply no_space_cons in H as [Hd _]. rewrite HasPrefix_cons. by rewrite (proj1 (space_eqb d Hd)).
  - change (String c v +:+ String " " t) with (String c (v +:+ String " " t)). apply no_space_cons in H as [_ H]. by rewrite !HasPrefix_cons, IH.
Qed.

Lemma Contains_cons c s sub : Contains_str (String c s) sub = HasPrefix (String c s) sub || Contains_str s sub.
Proof. done. Qed.

Lemma contains_split w t sub : sub <> "" -> no_space sub = true -> Contains_str (w +:+ String " " t) sub = Contains_str w sub || Contains_str t sub.
Proof.
  intros Hne Hs. induction w as [|c w IH].
  - change ("" +:+ String " " t) with (String " " t). rewrite Contains_cons, (HasPrefix_word "" t) by done. cbn [Contains_str]. by rewrite orb_false_r.
  - change (String c w +:+ String " " t) with (String c (w +:+ String " " t)). rewrite !Contains_cons, IH, orb_assoc. f_equal. f_equal.
    apply (HasPrefix_word (String c w) t sub Hs).
Qed.

Lemma contains_join l sub : sub <> "" -> no_space sub = true -> Contains_str (Join l " ") sub = existsb (fun w => Contains_str w sub) l.
Proof.
  intros Hne Hs. induction l as [|w l IH]; [by destruct sub|]. destruct l as [|v l].
  - cbn. by rewrite orb_false_r.
  - change (Join (w :: v :: l) " ") with (w +:+ String " " (Join (v :: l) " ")). by rewrite contains_split, IH.
Qed.

(** A word that is neither the first nor the last. *)
Fixpoint inner (l : list string) (x : string) : bool :=
  match l with [] | [_] => false | w :: l' => (w =s? x) || inner l' x end.

Lemma HasPrefix_spaced v l x : no_space v = true -> no_space x = true ->
  HasPrefix (Join (v :: l) " ") (x +:+ " ") = (v =s? x) && negb (bool_decide (l = [])).
Proof.
  intros Hv Hx. assert (forall v x t, no_space v = true -> no_space x = true -> HasPrefix (v +:+ String " " t) (x +:+ " ") = (v =s? x)) as Haux.
  { clear. induction v as [|c v IH]; intros [|d x] t Hv Hx; cbn [String.append String.eqb].
    - by rewrite HasPrefix_cons, HasPrefix_empty.
    - apply no_space_cons in Hx as [Hd _]. rewrite HasPrefix_cons. by rewrite (proj1 (space_eqb d Hd)).
    - apply no_space_cons in Hv as [Hc _]. rewrite HasPrefix_cons. by rewrite (proj2 (space_eqb c Hc)).
    - apply no_space_cons in Hv as [_ Hv], Hx as [_ Hx]. rewrite HasPrefix_cons, IH by done. rewrite Ascii.eqb_sym. by destruct (Ascii.eqb c d). }
  destruct l as [|u l].
  - cbn [Join]. rewrite bool_decide_eq_true_2, andb_false_r by done. clear Haux. revert x Hx. induction v as [|c v IH]; intros [|d x] Hx; try done.
    + apply no_space_cons in Hv as [Hc _]. cbn [String.append]. rewrite HasPrefix_cons. by rewrite (proj2 (space_eqb c Hc)).
    + apply no_space_cons in Hv as [_ Hv], Hx as [_ Hx]. cbn [String.append]. rewrite HasPrefix_cons, IH by done. apply andb_false_r.
  - change (Join (v :: u :: l) " ") with (v +:+ String " " (Join (u :: l) " ")). rewrite Haux by done. by rewrite bool_decide_eq_false_2, andb_true_r.
Qed.

Lemma contains_spaced_word w t y : no_space w = true ->
  Contains_str (w +:+ String " " t) (String " " y) = HasPrefix t y || Contains_str t (String " " y).
Proof.
  induction w as [|c w IH]; intros H.
  - change ("" +:+ String " " t) with (String " " t). by rewrite Contains_cons, HasPrefix_cons.
  - apply no_space_cons in H as [Hc H]. change (String c w +:+ String " " t) with (String c (w +:+ String " " t)).
    rewrite Contains_cons, HasPrefix_cons, (proj2 (space_eqb c Hc)). by apply IH.
Qed.

Lemma contains_spaced w l x : Forall (fun v => no_space v = true) (w :: l) -> no_space x = true ->
  Contains_str (Join (w :: l) " ") (" " +:+ x +:+ " ") = inner l x.
Proof.
  intros Hl Hx. change (" " +:+ x +:+ " ") with (String " " (x +:+ " ")). revert w Hl. induction l as [|v l IH]; intros w [Hw Hl]%Forall_cons.
  - cbn [Join inner]. induction w as [|c w IHw]; [done|]. apply no_space_cons in Hw as [Hc Hw]. rewrite Contains_cons, HasPrefix_cons, (proj2 (space_eqb c Hc)). by apply IHw.
  - change (Join (w :: v :: l) " ") with (w +:+ String " " (Join (v :: l) " ")). rewrite contains_spaced_word by done. rewrite IH by done.
    apply Forall_cons in Hl as [Hv _]. rewrite HasPrefix_spaced by done. destruct l as [|u l]; [by rewrite andb_false_r|].
    rewrite bool_decide_eq_false_2, andb_true_r by done. done.
Qed.

(** ** Lines *)

Lemma split_lines_first l r cur : str_forall (fun c => negb (Ascii.eqb c newline)) l = true ->
  split_lines_go (l +:+ String newline r) cur = (cur +:+ l) :: split_lines_go r "".
Proof.
  revert cur. induction l as [|c l IH]; intros cur H; [by rewrite append_nil_r|]. cbn [str_forall] in H. apply andb_prop in H as [Hc Hl].
  change ((String c l +:+ String newline r)) with (String c (l +:+ String newline r)). cbn [split_lines_go]. unfold newline in Hc. rewrite (negb_true_iff _) in Hc.
  rewrite Hc, IH by done. by rewrite append_assoc.
Qed.
