(* ===== verification/PfAnchor.v ===== *)
(** * The macOS policy anchor (internal/provider/macos, pf.go and pf_rules.go)

    Policy rules as packet-filter rules in an anchor of RiftRoute's own: their
    text, reading them back, and the read-modify-write of the anchor with its
    hook in pf.conf, its enable token and its read cache. Running pfctl and the
    files are the host's ([PfHost]). *)

From Stdlib Require Import Ascii.
From S2P Require Import Prelude.
From S2P Require Import Netip NetipText Domain Reconcile Input Provider Netmon Killswitch Pfconf Update Text.

(** ** Rules as text *)

Definition pfAnchorName : string := "riftroute".
Definition pfOwnerLabel : string := "riftroute".

Definition quoted (s : string) : string := String (ascii_of_nat 34) (s +:+ String (ascii_of_nat 34) "").

Definition pf_selector (sel : string) : string :=
  if HasPrefix sel "to " then "from any " +:+ sel else if HasPrefix sel "user " then "from any to any " +:+ sel else sel.

Definition renderPFRule (r : PolicyRule) : string :=
  let af := if pr_Family r =s? FamilyV6 then "inet6" else "inet" in
  let target := if pr_RouteToGW r =s? "" then pr_RouteToIface r else "(" +:+ pr_RouteToIface r +:+ " " +:+ pr_RouteToGW r +:+ ")" in
  let sel := pf_selector (pr_Selector r) in
  if target =s? "" then "pass out quick " +:+ af +:+ " " +:+ sel +:+ " label " +:+ quoted pfOwnerLabel
  else "pass out quick route-to " +:+ target +:+ " " +:+ af +:+ " " +:+ sel +:+ " label " +:+ quoted pfOwnerLabel.

Definition by_key (rules : list PolicyRule) : list PolicyRule := slice_stable (fun a b => str_less (RuleKey a) (RuleKey b)) rules.

Definition RenderAnchor (rules : list PolicyRule) : string := fold_left (fun b r => b +:+ renderPFRule r +:+ nl) (by_key rules) "".

(** ** Reading them back *)

(** [route-to\s+(?:\(([^)]+)\)|(\S+))], the first place it matches: the text
    of the target. *)
Fixpoint up_to_paren (s : string) : option string :=
  match s with
  | EmptyString => None
  | String c s' => if Ascii.eqb c ")" then Some "" else String c <$> up_to_paren s'
  end.

Fixpoint non_space (s : string) : string :=
  match s with EmptyString => "" | String c s' => if re_space c then "" else String c (non_space s') end.

Definition re_target (s : string) : option string :=
  match s with
  | String c _ =>
      if re_space c then
        let t := skip_spaces s in
        let bare := match non_space t with "" => None | w => Some w end in
        match t with
        | String "(" t' => match up_to_paren t' with Some "" | None => bare | p => p end
        | _ => bare
        end
      else None
  | EmptyString => None
  end.

Fixpoint reRouteTo (s : string) : option string :=
  match (if HasPrefix s "route-to" then re_target (str_drop 8 s) else None) with
  | Some t => Some t
  | None => match s with EmptyString => None | String _ s' => reRouteTo s' end
  end.

Definition normalizePFDst (dst : string) : string :=
  if Contains_str dst "/" then dst else match ParseAddr dst with Some a => prefix_String (PrefixFrom a (BitLen a)) | None => dst end.

Definition label_tok : string := "label " +:+ String (ascii_of_nat 34) "".

Definition extractLabel (line : string) : option string :=
  match find_sub line label_tok with
  | None => None
  | Some (_, rest) => fst <$> find_sub (str_drop 7 rest) (String (ascii_of_nat 34) "")
  end.

(** The value after the word [user], an equals sign skipped. *)
Definition user_value (after : list string) : option string :=
  match after with
  | [] => None
  | v :: rest => Some (if v =s? "=" then match rest with v' :: _ => v' | [] => v end else v)
  end.

Fixpoint find_user (fields : list string) : option string :=
  match fields with
  | [] => None
  | f :: rest => if f =s? "user" then match user_value rest with Some v => Some v | None => find_user rest end else find_user rest
  end.

Fixpoint find_to (fields : list string) : option string :=
  match fields with
  | [] => None
  | f :: rest => if f =s? "to" then match rest with dst :: _ => if dst =s? "any" then find_to rest else Some dst | [] => None end else find_to rest
  end.

Definition line_family (line : string) : Family := if Contains_str line " inet6 " then FamilyV6 else FamilyV4.

(** The words of a pass: its destination, and the user, the last one named. *)
Fixpoint pass_words (fields : list string) (to user : string) : string * string :=
  match fields with
  | [] => (to, user)
  | f :: rest =>
      match rest with
      | [] => (to, user)
      | next :: _ =>
          if (f =s? "to") && negb (next =s? "any") && (to =s? "") then pass_words rest (normalizePFDst next) user
          else if f =s? "user" then pass_words rest to (default user (user_value rest))
          else pass_words rest to user
      end
  end.

Definition parsePFPassText (line : string) : option PolicyRule :=
  if negb (HasPrefix (TrimSpace line) "pass ") then None
  else
    let '(to, user) := pass_words (Fields line) "" "" in
    if (to =s? "") || (user =s? "") then None
    else Some (mkPolicyRule TailscaleRulePrio ("to " +:+ to +:+ " user " +:+ user) "" (line_family line) "riftroute" "" "").

Definition parsePFRuleText (line : string) : option PolicyRule :=
  match reRouteTo line with
  | None => if Contains_str line "route-to" then None else parsePFPassText line
  | Some raw =>
      match Fields raw with
      | [] => None
      | iface :: rest =>
          let rule sel := Some (mkPolicyRule ModelBRulePrio sel "" (line_family line) "riftroute" iface (default "" (head rest))) in
          match find_user (Fields line) with
          | Some v => rule ("user " +:+ v)
          | None => match find_to (Fields line) with Some dst => rule ("to " +:+ normalizePFDst dst) | None => None end
          end
      end
  end.

Definition parse_anchor_line (line : string) : option PolicyRule :=
  match extractLabel line with Some l => if l =s? pfOwnerLabel then parsePFRuleText line else None | None => None end.

Fixpoint distinct_rules (seen : gset string) (rules : list PolicyRule) : list PolicyRule :=
  match rules with
  | [] => []
  | r :: rest => if bool_decide (RuleKey r ∈ seen) then distinct_rules seen rest else r :: distinct_rules ({[RuleKey r]} ∪ seen) rest
  end.

Definition parseAnchorRules (out : string) : list PolicyRule := distinct_rules ∅ (omap parse_anchor_line (split_lines out)).

(** ** The hook in pf.conf *)

Definition pf_hook_begin : string := "# >>> riftroute (managed — do not edit) >>>".
Definition pf_hook_end : string := "# <<< riftroute (managed — do not edit) <<<".

Definition pfHasHook (conf : string) : bool := Contains_str conf pf_hook_begin.

Definition pfInsertHook (conf : string) : string :=
  if pfHasHook conf then conf
  else (if negb (conf =s? "") && negb (HasSuffix_nl conf) then conf +:+ nl else conf) +:+ Block_text pf_hook_begin pf_hook_end pfAnchorName.

Definition pfRemoveHook (conf : string) : string :=
  match find_sub conf pf_hook_begin with
  | None => conf
  | Some (pre, _) =>
      match find_sub conf pf_hook_end with
      | None => pre
      | Some (_, rest) => pre +:+ TrimPrefix (str_drop (String.length pf_hook_end) rest) nl
      end
  end.

(** ** The anchor (pf.go) *)

Class PfHost (W : Type) : Type := {
  (** Runs pfctl: what it printed, its error. *)
  pfctl : list string -> W -> string * option error * W;
  (** [pfctl -a riftroute -f -], fed the rules. *)
  pf_load : string -> W -> option error * W;
  read_pf_conf : W -> error + string;
  write_pf_conf : string -> W -> option error * W;
  pf_backup : string -> W -> W;
  read_token : W -> option string;
  write_token : string -> W -> W;
  remove_token : W -> W;
  pf_now : W -> Z;
}.

Definition pfReadTTL : Z := 2 * 1000000000.

(** The digits of [(?i)token\s*:\s*(\d+)] at its first match, on ASCII
    text. *)
Definition lower_ascii (c : ascii) : ascii := if (65 <=? code c) && (code c <=? 90) then chr (code c + 32) else c.

Fixpoint fold_prefix (s pre : string) : option string :=
  match pre, s with
  | EmptyString, _ => Some s
  | String a pre', String b s' => if Ascii.eqb a (lower_ascii b) then fold_prefix s' pre' else None
  | _, EmptyString => None
  end.

Fixpoint leading_digits (s : string) : string :=
  match s with String c s' => if is_digit c then String c (leading_digits s') else "" | EmptyString => "" end.

Definition token_at (s : string) : option string :=
  match fold_prefix s "token" with
  | None => None
  | Some t =>
      match skip_spaces t with
      | String ":" t => match leading_digits (skip_spaces t) with "" => None | d => Some d end
      | _ => None
      end
  end.

Fixpoint reEnableToken (s : string) : option string :=
  match token_at s with
  | Some d => Some d
  | None => match s with EmptyString => None | String _ s' => reEnableToken s' end
  end.

(** The provider's state: the host, and the cached anchor with its time. *)
Record PfState (W : Type) : Type := mkPfState { ps_host : W; ps_cache : option (list PolicyRule * Z) }.
Arguments mkPfState {W} _ _.
Arguments ps_host {W} _.
Arguments ps_cache {W} _.

Section anchor.
Context {W : Type} `{!PfHost W}.
Implicit Types w : W.

Definition pf_try (args : list string) (w : W) : W := let '(_, _, w') := pfctl args w in w'.

Definition readAnchor (w : W) : (error + list PolicyRule) * W :=
  let '(out, err, w') := pfctl ["-a"; pfAnchorName; "-sr"] w in
  (match err with
   | None => inr (parseAnchorRules out)
   | Some e => if Contains_str out "not found" then inr [] else inl (Wrapf "pfctl -a %s -sr: %w: %s" [pfAnchorName; TrimSpace out] e)
   end, w').

Definition ensureEnabled (w : W) : W :=
  match read_token w with
  | Some _ => w
  | None => let '(out, _, w') := pfctl ["-E"] w in match reEnableToken out with Some t => write_token t w' | None => w' end
  end.

Definition releaseEnableToken (w : W) : W :=
  match read_token w with
  | None => w
  | Some tok => let t := TrimSpace tok in remove_token (if t =s? "" then w else pf_try ["-X"; t] w)
  end.

Definition pfConfPath : string := "/etc/pf.conf".

Definition ensureHook (w : W) : option error * W :=
  match read_pf_conf w with
  | inl e => (Some (Wrapf "macos: read %s: %w" [pfConfPath] e), w)
  | inr conf =>
      if pfHasHook conf then (None, w)
      else
        match write_pf_conf (pfInsertHook conf) (pf_backup conf w) with
        | (Some e, w') => (Some (Wrapf "macos: write %s: %w" [pfConfPath] e), w')
        | (None, w') =>
            let '(out, err, w'') := pfctl ["-f"; pfConfPath] w' in
            (match err with Some e => Some (Wrapf "macos: reload pf.conf: %w: %s" [TrimSpace out] e) | None => None end, w'')
        end
  end.

Definition dropHook (w : W) : option error * W :=
  match read_pf_conf w with
  | inl _ => (None, w)
  | inr conf =>
      if negb (pfHasHook conf) then (None, w)
      else
        match write_pf_conf (pfRemoveHook conf) w with
        | (Some e, w') => (Some (Wrapf "macos: restore %s: %w" [pfConfPath] e), w')
        | (None, w') => (None, pf_try ["-f"; pfConfPath] w')
        end
  end.

(** Empties the anchor and leaves no trace of it. *)
Definition tear_down (w : W) : option error * W :=
  let '(err, w') := dropHook (pf_try ["-a"; pfAnchorName; "-F"; "rules"] w) in (err, releaseEnableToken w').

Definition loadAnchor (rules : list PolicyRule) (w : W) : option error * W :=
  match rules with
  | [] => tear_down w
  | _ =>
      match ensureHook w with
      | (Some e, w') => (Some e, w')
      | (None, w') =>
          match pf_load (RenderAnchor rules) w' with
          | (Some e, w'') => (Some (Wrapf "macos: load pf anchor %s: %w" [pfAnchorName] e), w'')
          | (None, w'') => (None, ensureEnabled w'')
          end
      end
  end.

Definition has_key (key : string) (r : PolicyRule) : bool := RuleKey r =s? key.

Definition pf_AddRule (mr : ManagedRule) (s : PfState W) : option error * PfState W :=
  let r := ml_Rule mr in
  if (TrimSpace (pr_RouteToIface r) =s? "") && negb (pr_Priority r =? TailscaleRulePrio) then
    (Some (Errorf "macos: policy rule %q has no route-to interface" [pr_Selector r]), s)
  else
    match readAnchor (ps_host s) with
    | (inl e, w) => (Some (Wrapf "macos: cannot read pf anchor before add: %w" [] e), mkPfState w (ps_cache s))
    | (inr cur, w) =>
        if existsb (has_key (RuleKey r)) cur then (None, mkPfState w (ps_cache s))
        else let '(err, w') := loadAnchor (cur ++ [r]) w in (err, mkPfState w' None)
    end.

Definition pf_DelRule (mr : ManagedRule) (s : PfState W) : option error * PfState W :=
  match readAnchor (ps_host s) with
  | (inl e, w) => (Some (Wrapf "macos: cannot read pf anchor before delete: %w" [] e), mkPfState w (ps_cache s))
  | (inr cur, w) =>
      let kept := keep_if (fun r => negb (has_key (RuleKey (ml_Rule mr)) r)) cur in
      if (length kept =? length cur)%nat then (None, mkPfState w (ps_cache s))
      else let '(err, w') := loadAnchor kept w in (err, mkPfState w' None)
  end.

Definition cachedAnchorRules (s : PfState W) : (error + list PolicyRule) * PfState W :=
  let fresh :=
    match readAnchor (ps_host s) with
    | (inl e, w) => (inl e, mkPfState w (ps_cache s))
    | (inr rules, w) => (inr rules, mkPfState w (Some (rules, pf_now w)))
    end in
  match ps_cache s with
  | Some (rules, at_) => if pf_now (ps_host s) - at_ <? pfReadTTL then (inr rules, s) else fresh
  | None => fresh
  end.

Definition pf_ListRules (family : Family) (s : PfState W) : (error + list PolicyRule) * PfState W :=
  match cachedAnchorRules s with
  | (inl _, s') => (inr [], s')
  | (inr all, s') => (inr (keep_if (fun r => pr_Family r =s? family) all), s')
  end.

Definition pf_FlushOwned (s : PfState W) : option error * PfState W := let '(err, w) := tear_down (ps_host s) in (err, mkPfState w None).

End anchor.
