(* ===== verification/PfFacts.v ===== *)
(** * The anchor reads back what it was given

    The rules the engine makes for macOS, as pfctl prints them back, parse to
    themselves: in either form of host addresses, of users and of state flags.
    So what is in the anchor is recognized, kept and deleted by identity. The
    passes beside a Tailscale are ahead of the route-to of the same user. *)

From Stdlib Require Import Ascii Btauto.
From S2P Require Import Prelude.
From S2P Require Import Netip NetipText Aggregate Domain Reconcile Nets Input Tunnels Engine Provider Netmon Killswitch Pfconf Update Text PfAnchor.

(** ** What pfctl prints *)

Inductive shape : Type := ToNet (p : prefix) | OfUser (u : string) | PassUser (p : prefix) (u : string).

(** The choices pfctl makes: a host without its length, an equals sign before a
    user, the state flags written out. *)
Record echo : Type := mkEcho { ec_bare : bool; ec_equals : bool; ec_flags : bool }.

Definition dst_word (ec : echo) (p : prefix) : string :=
  if ec_bare ec && (p_bits p =? BitLen (p_addr p)) then addr_String (p_addr p) else prefix_String p.
Definition user_words (ec : echo) (u : string) : list string := "user" :: (if ec_equals ec then ["="; u] else [u]).

Definition selector_words (ec : echo) (sh : shape) : list string :=
  match sh with
  | ToNet p => ["to"; dst_word ec p]
  | OfUser u => "to" :: "any" :: user_words ec u
  | PassUser p u => "to" :: dst_word ec p :: user_words ec u
  end.

Definition target_words (iface gw : string) : list string :=
  if iface =s? "" then [] else "route-to" :: (if gw =s? "" then [iface] else ["(" +:+ iface; gw +:+ ")"]).

Definition flag_words (ec : echo) : list string := if ec_flags ec then ["flags"; "S/SA"; "keep"; "state"] else [].

Definition af_word (fam : Family) : string := if fam =s? FamilyV6 then "inet6" else "inet".

Definition body_words (ec : echo) (fam : Family) (sh : shape) : list string := af_word fam :: "from" :: "any" :: selector_words ec sh ++ flag_words ec.

Definition echo_words (ec : echo) (fam : Family) (iface gw : string) (sh : shape) : list string :=
  "pass" :: "out" :: "quick" :: target_words iface gw ++ body_words ec fam sh ++ ["label"; quoted pfOwnerLabel].

Definition echo_line (ec : echo) (fam : Family) (iface gw : string) (sh : shape) : string := Join (echo_words ec fam iface gw sh) " ".

(** The rule the engine made. *)
Definition shape_rule (fam : Family) (iface gw : string) (sh : shape) : PolicyRule :=
  match sh with
  | ToNet p => mkPolicyRule ModelBRulePrio ("to " +:+ prefix_String p) "" fam "riftroute" iface gw
  | OfUser u => mkPolicyRule ModelBRulePrio ("user " +:+ u) "" fam "riftroute" iface gw
  | PassUser p u => mkPolicyRule TailscaleRulePrio ("to " +:+ prefix_String p +:+ " user " +:+ u) "" fam "riftroute" "" ""
  end.

(** ** Words that are not in the way *)

Definition no_quote (s : string) : bool := str_forall (fun c => negb (Ascii.eqb c (ascii_of_nat 34))) s.

Definition iface_char (c : ascii) : bool := negb (is_space c) && negb (Ascii.eqb c (ascii_of_nat 34)) && negb (Ascii.eqb c "(") && negb (Ascii.eqb c ")").

Definition iface_ok (iface : string) : Prop := iface <> "" /\ str_forall iface_char iface = true /\ iface <> "user" /\ iface <> "to" /\ iface <> "inet6".

Definition user_ok (u : string) : Prop := IsUIDLike u = true /\ u <> "inet6".

Record shape_ok (fam : Family) (iface gw : string) (sh : shape) : Prop := mkShapeOk {
  so_fam : fam = FamilyV4 \/ fam = FamilyV6;
  so_target : match sh with PassUser _ _ => iface = "" | _ => iface_ok iface end;
  so_gw : gw = "" \/ exists a, addr_ok a /\ IsValid a = true /\ Zone a = "" /\ gw = addr_String a;
  so_prefix : match sh with ToNet p | PassUser p _ => canon p | OfUser _ => True end;
  so_user : match sh with
            | OfUser u => user_ok u
            | PassUser _ u => user_ok u /\ u <> "user" /\ Contains_str u "route-to" = false
            | ToNet _ => True
            end;
}.

(** *** Their characters *)

Definition plain_char (c : ascii) : bool := negb (is_space c) && negb (Ascii.eqb c (ascii_of_nat 34)).
Definition plain_word (w : string) : Prop := w <> "" /\ str_forall plain_char w = true.

Lemma plain_is_word w : plain_word w -> is_word w /\ no_quote w = true.
Proof.
  intros [Hn H]. split; [split; [done|]|]; unfold no_space, no_quote; (eapply str_forall_impl; [|exact H]); intros c Hc; unfold plain_char in Hc;
    by apply andb_prop in Hc as [? ?].
Qed.

(** A word of addresses, lengths and users is plain. *)
Lemma code_plain c : 33 <= code c -> code c <> 34 -> plain_char c = true.
Proof.
  intros H1 H2. unfold plain_char, is_space. cbv zeta. rewrite (proj2 (Z.eqb_neq _ 32)), (proj2 (Z.leb_gt _ 13)), andb_false_r by lia. cbn.
  destruct (Ascii.eqb_spec c (ascii_of_nat 34)) as [->|]; [|done]. by vm_compute in H2.
Qed.

Lemma addr_char_plain c : addr_char c = true -> plain_char c = true.
Proof.
  unfold addr_char. intros H. apply andb_prop in H as [H _]. apply andb_prop in H as [_ H%Z.leb_le]. apply code_plain; lia.
Qed.

Lemma pretty_Z_plain (n : Z) : 0 <= n <= 128 -> plain_word (pretty n).
Proof.
  intros Hn. assert (forallb (fun b => negb (pretty b =s? "") && str_forall plain_char (pretty b)) (map Z.of_nat (seq 0 129)) = true) as H by (vm_compute; reflexivity).
  rewrite forallb_forall in H. specialize (H n). rewrite List.in_map_iff in H. apply andb_prop in H as [H1 H2].
  - split; [|done]. intros E. by rewrite E in H1.
  - exists (Z.to_nat n). split; [lia|]. apply List.in_seq. lia.
Qed.

Lemma plain_word_app a b : plain_word a -> plain_word b -> plain_word (a +:+ b).
Proof. intros [Ha1 Ha2] [_ Hb]. split; [by destruct a|]. by rewrite str_forall_app, Ha2. Qed.

Lemma addr_plain a : addr_ok a -> IsValid a = true -> Zone a = "" -> plain_word (addr_String a).
Proof.
  intros Ha Hv Hz. split.
  - intros E. pose proof (ParseAddr_String a Ha Hv) as H. by rewrite E in H.
  - eapply str_forall_impl; [exact addr_char_plain|]. by apply addr_String_chars.
Qed.

Lemma canon_parts p : canon p -> prefix_ok p /\ pfx_IsValid p = true /\ addr_ok (p_addr p) /\ IsValid (p_addr p) = true /\ Zone (p_addr p) = "" /\ 0 <= p_bits p <= BitLen (p_addr p).
Proof.
  intros (Hok & _ & Hv). destruct (valid_IsValid p Hok Hv) as [Ha Hb]. pose proof Hok as (H1 & H2 & _). done.
Qed.

Lemma prefix_plain p : canon p -> plain_word (prefix_String p).
Proof.
  intros (Hok & Hv & Ha & Hva & Hz & Hb)%canon_parts. unfold prefix_String. rewrite Hv. apply plain_word_app; [by apply addr_plain|]. apply plain_word_app; [done|].
  apply pretty_Z_plain. destruct (p_addr p); cbn in Hb; lia.
Qed.

Lemma dst_word_plain ec p : canon p -> plain_word (dst_word ec p).
Proof. intros H. unfold dst_word. pose proof (canon_parts p H) as (_ & _ & ? & ? & ? & _). case_if; [by apply addr_plain|by apply prefix_plain]. Qed.

Lemma user_plain u : IsUIDLike u = true -> plain_word u.
Proof.
  unfold IsUIDLike. destruct (String.eqb_spec u ""); [done|]. intros H. split; [done|]. eapply str_forall_impl; [|exact H].
  intros c Hc. unfold uid_char in Hc. cbv zeta in Hc. apply code_plain; repeat (apply orb_prop in Hc as [Hc|Hc]); rewrite ?andb_true_iff, ?Z.leb_le, ?Z.eqb_eq in Hc; lia.
Qed.

Lemma iface_plain iface : iface_ok iface -> plain_word iface.
Proof.
  intros (Hn & H & _). split; [done|]. eapply str_forall_impl; [|exact H]. intros c Hc. unfold iface_char in Hc.
  rewrite !andb_true_iff in Hc. unfold plain_char. rewrite andb_true_iff. tauto.
Qed.

(** *** The words of a line *)

Lemma target_plain iface gw : (iface = "" \/ iface_ok iface) -> (gw = "" \/ plain_word gw) -> Forall plain_word (target_words iface gw).
Proof.
  intros Hi Hg. unfold target_words. destruct (String.eqb_spec iface ""); [constructor|]. destruct Hi as [|Hi]; [done|]. apply iface_plain in Hi.
  constructor; [done|]. destruct (String.eqb_spec gw ""); [by apply Forall_singleton|]. destruct Hg as [|Hg]; [done|].
  apply Forall_cons. split; [by apply (plain_word_app "(")|]. apply Forall_singleton. by apply plain_word_app.
Qed.

Lemma body_plain ec fam iface gw sh : shape_ok fam iface gw sh -> Forall plain_word (body_words ec fam sh).
Proof.
  intros [Hf _ _ Hp Hu]. unfold body_words. constructor; [by destruct Hf as [->| ->]|]. repeat (constructor; [done|]).
  apply Forall_app. split.
  - unfold selector_words, user_words. destruct sh as [p|u|p u].
    + constructor; [done|]. apply Forall_singleton. by apply dst_word_plain.
    + destruct Hu as [Hu%user_plain _]. repeat (constructor; [done|]). destruct (ec_equals ec); repeat (constructor; [done|]); constructor.
    + destruct Hu as ((Hu%user_plain & _) & _). constructor; [done|]. constructor; [by apply dst_word_plain|]. constructor; [done|].
      destruct (ec_equals ec); repeat (constructor; [done|]); constructor.
  - unfold flag_words. destruct (ec_flags ec); repeat (constructor; [done|]); constructor.
Qed.

(** *** The label *)

Lemma Join_app l r : l <> [] -> r <> [] -> Join (l ++ r) " " = Join l " " +:+ " " +:+ Join r " ".
Proof.
  intros Hl Hr. induction l as [|x l IH]; [done|]. destruct l as [|y l]; [by destruct r|].
  change (Join ((x :: y :: l) ++ r) " ") with (x +:+ " " +:+ Join ((y :: l) ++ r) " "). rewrite IH by done.
  change (Join (x :: y :: l) " ") with (x +:+ " " +:+ Join (y :: l) " "). by rewrite !append_assoc.
Qed.

Lemma Join_forall P l : P " "%char = true -> Forall (fun w => str_forall P w = true) l -> str_forall P (Join l " ") = true.
Proof.
  intros Hs. induction 1 as [|w l Hw Hl IH]; [done|]. destruct l as [|v l]; [done|].
  change (Join (w :: v :: l) " ") with (w +:+ String " " (Join (v :: l) " ")). rewrite str_forall_app, Hw. cbn [str_forall andb]. by rewrite Hs, IH.
Qed.

Lemma label_first s t : no_quote s = true -> s <> "" -> HasPrefix (s +:+ label_tok +:+ t) label_tok = false.
Proof.
  intros Hq Hne. destruct (HasPrefix _ _) eqn:E; [|done]. apply HasPrefix_spec in E as [r E].
  assert (forall a b, no_quote a = true -> cut_at (ascii_of_nat 34) (a +:+ String (ascii_of_nat 34) b) = Some (a, b)) as Hcut by (intros; by apply cut_at_app).
  apply (f_equal (cut_at (ascii_of_nat 34))) in E. unfold label_tok in E. rewrite !append_assoc in E. cbn [String.append] in E.
  change (String (ascii_of_nat 34) ("" +:+ ?x)) with (String (ascii_of_nat 34) x) in E.
  change (s +:+ String "l" ?x) with (s +:+ ("label " +:+ String (ascii_of_nat 34) t)) in E.
  rewrite <- append_assoc in E. rewrite Hcut in E by (unfold no_quote in *; by rewrite str_forall_app, Hq). cbn in E. injection E as E _.
  apply (f_equal String.length) in E. rewrite length_append in E. cbn in E. destruct s; [done|]. cbn in E. lia.
Qed.

Lemma find_label s t : no_quote s = true -> find_sub (s +:+ label_tok +:+ t) label_tok = Some (s, label_tok +:+ t).
Proof.
  induction s as [|c s IH]; intros H.
  - change ("" +:+ ?x) with x. destruct (label_tok +:+ t) eqn:E; [by apply (f_equal String.length) in E; rewrite length_append in E|]. rewrite <- E.
    assert (HasPrefix (label_tok +:+ t) label_tok = true) as Hp by (apply HasPrefix_spec; by exists t).
    rewrite E in *. cbn [find_sub]. by rewrite Hp.
  - pose proof (label_first (String c s) t H ltac:(done)) as Hf. change (String c s +:+ label_tok +:+ t) with (String c (s +:+ label_tok +:+ t)) in *.
    cbn [find_sub]. rewrite Hf. unfold no_quote in *. cbn in H. apply andb_prop in H as [_ H]. by rewrite IH.
Qed.

Lemma label_read s : no_quote s = true -> extractLabel (s +:+ " " +:+ "label " +:+ quoted pfOwnerLabel) = Some pfOwnerLabel.
Proof.
  intros H. unfold extractLabel. change ("label " +:+ quoted pfOwnerLabel) with (label_tok +:+ (pfOwnerLabel +:+ String (ascii_of_nat 34) "")).
  rewrite <- append_assoc. rewrite find_label by (unfold no_quote in *; by rewrite str_forall_app, H). vm_compute. reflexivity.
Qed.

(** *** The family *)

Lemma inner_snoc l q x : inner (l ++ [q]) x = existsb (fun w => w =s? x) l.
Proof.
  induction l as [|w l IH]; [done|]. cbn [app existsb]. rewrite <- IH. cbn [inner]. by destruct (l ++ [q]) eqn:E; [destruct l|].
Qed.

(** Between a dot and an f: what addresses and lengths are made of. *)
Definition dst_char (c : ascii) : bool := (46 <=? code c) && (code c <=? 102).

Lemma dst_chars_ne w x : str_forall dst_char w = true -> str_forall dst_char x = false -> (w =s? x) = false.
Proof. intros H1 H2. apply String.eqb_neq. intros ->. congruence. Qed.

Lemma addr_dst_chars a : Zone a = "" -> IsValid a = true -> str_forall dst_char (addr_String a) = true.
Proof.
  intros Hz Hv. eapply str_forall_impl; [|by apply addr_String_chars]. intros c H. unfold addr_char in H. unfold dst_char.
  rewrite !andb_true_iff in *. tauto.
Qed.

Lemma bits_dst_chars b : 0 <= b <= 128 -> str_forall dst_char (pretty b) = true.
Proof.
  intros Hb. assert (forallb (fun b => str_forall dst_char (pretty b)) (map Z.of_nat (seq 0 129)) = true) as H by (vm_compute; reflexivity).
  rewrite forallb_forall in H. apply H. rewrite List.in_map_iff. exists (Z.to_nat b). split; [lia|]. apply List.in_seq. lia.
Qed.

Lemma prefix_dst_chars p : canon p -> str_forall dst_char (prefix_String p) = true.
Proof.
  intros (_ & Hv & Ha & Hva & Hz & Hb)%canon_parts. unfold prefix_String. rewrite Hv, str_forall_app, addr_dst_chars by done. cbn [str_forall andb].
  apply bits_dst_chars. destruct (p_addr p); cbn in Hb; lia.
Qed.

Lemma dst_word_chars ec p : canon p -> str_forall dst_char (dst_word ec p) = true.
Proof. intros H. unfold dst_word. case_if; [|by apply prefix_dst_chars]. destruct (canon_parts p H) as (_ & _ & ? & ? & ? & _). by apply addr_dst_chars. Qed.

Lemma dst_word_norm ec p : canon p -> normalizePFDst (dst_word ec p) = prefix_String p.
Proof.
  intros H. pose proof (canon_parts p H) as (Hok & Hv & Ha & Hva & Hz & Hb). unfold normalizePFDst, dst_word.
  destruct (ec_bare ec && (p_bits p =? BitLen (p_addr p))) eqn:E.
  - apply andb_prop in E as [_ E%Z.eqb_eq]. rewrite no_slash_contains by (by apply addr_chars_no_slash, addr_String_chars).
    rewrite ParseAddr_String by done. f_equal. unfold PrefixFrom. rewrite Hva, (proj2 (Z.leb_le 0 _)), Z.leb_refl by lia. cbn.
    destruct p as [[| |n z] b]; cbn in *; subst; done.
  - assert (Contains_str (prefix_String p) "/" = true) as ->; [|done]. unfold prefix_String. rewrite Hv.
    generalize (addr_String (p_addr p)). intros s. induction s as [|c s IH]; [change ("" +:+ "/" +:+ pretty (p_bits p)) with (String "/" (pretty (p_bits p))); by rewrite Contains_cons, HasPrefix_cons, HasPrefix_empty|].
    change (String c s +:+ "/" +:+ pretty (p_bits p)) with (String c (s +:+ "/" +:+ pretty (p_bits p))). rewrite Contains_cons, IH. apply orb_true_r.
Qed.

(** *** A whole line *)

Lemma words_plain ec fam iface gw sh : shape_ok fam iface gw sh ->
  Forall plain_word ("pass" :: "out" :: "quick" :: target_words iface gw ++ body_words ec fam sh).
Proof.
  intros H. repeat (constructor; [done|]). apply Forall_app. split; [|by eapply body_plain]. destruct H as [_ Ht Hg _ _]. apply target_plain.
  - destruct sh; [by right..|by left].
  - destruct Hg as [->|(a & Ha & Hv & Hz & ->)]; [by left|]. right. by apply addr_plain.
Qed.

Lemma line_split ec fam iface gw sh :
  echo_line ec fam iface gw sh = Join ("pass" :: "out" :: "quick" :: target_words iface gw ++ body_words ec fam sh) " " +:+ " " +:+ "label " +:+ quoted pfOwnerLabel.
Proof.
  unfold echo_line, echo_words. rewrite app_assoc.
  change ("pass" :: "out" :: "quick" :: ?l ++ ["label"; quoted pfOwnerLabel]) with (("pass" :: "out" :: "quick" :: l) ++ ["label"; quoted pfOwnerLabel]).
  by rewrite Join_app.
Qed.

Lemma line_label ec fam iface gw sh : shape_ok fam iface gw sh -> extractLabel (echo_line ec fam iface gw sh) = Some pfOwnerLabel.
Proof.
  intros H. rewrite line_split. apply label_read. apply Join_forall; [done|].
  eapply Forall_impl; [exact (words_plain ec _ _ _ _ H)|]. intros w Hw. by apply plain_is_word.
Qed.

Lemma line_fields ec fam iface gw sh : shape_ok fam iface gw sh -> Fields (echo_line ec fam iface gw sh) = echo_words ec fam iface gw sh.
Proof.
  intros H. unfold echo_line. apply Fields_words. unfold echo_words. rewrite app_assoc.
  change ("pass" :: "out" :: "quick" :: ?l ++ ["label"; quoted pfOwnerLabel]) with (("pass" :: "out" :: "quick" :: l) ++ ["label"; quoted pfOwnerLabel]).
  apply Forall_app. split; [|repeat (constructor; [done|]); constructor].
  eapply Forall_impl; [exact (words_plain ec _ _ _ _ H)|]. intros w Hw. by apply plain_is_word.
Qed.

Lemma target_no x iface gw : (iface = "" \/ (iface <> x /\ iface_ok iface)) -> (gw = "" \/ exists a, addr_ok a /\ IsValid a = true /\ Zone a = "" /\ gw = addr_String a) ->
  x <> "route-to" -> (forall s, x <> "(" +:+ s) -> (forall s, x <> s +:+ ")") -> existsb (fun w => w =s? x) (target_words iface gw) = false.
Proof.
  intros Hi Hg Hx1 Hx2 Hx3. unfold target_words. destruct (String.eqb_spec iface ""); [done|]. destruct Hi as [|[Hi _]]; [done|]. cbn [existsb].
  rewrite (proj2 (String.eqb_neq "route-to" x)) by done. destruct (String.eqb_spec gw ""); cbn [existsb].
  - by rewrite (proj2 (String.eqb_neq _ _)) by done.
  - rewrite !(proj2 (String.eqb_neq _ _)); [done|intros E; by apply (Hx3 gw)|intros E; by apply (Hx2 iface)].
Qed.

Lemma body_no x ec fam iface gw sh : shape_ok fam iface gw sh -> str_forall dst_char x = false -> x ∉ ["from"; "any"; "to"; "user"; "flags"; "S/SA"; "keep"; "state"] ->
  match sh with ToNet _ => True | OfUser u | PassUser _ u => u <> x end ->
  existsb (fun w => w =s? x) (body_words ec fam sh) = (af_word fam =s? x).
Proof.
  intros H Hx Hl Hu. unfold body_words. cbn [existsb]. rewrite existsb_app. destruct H as [_ _ _ Hp _].
  assert (forall w, w ∈ ["from"; "any"; "to"; "user"; "flags"; "S/SA"; "keep"; "state"] -> (w =s? x) = false) as Hn.
  { intros w Hw. apply String.eqb_neq. by intros ->. }
  rewrite (Hn "from"), (Hn "any") by set_solver. cbn [orb].
  assert (existsb (fun w => w =s? x) (flag_words ec) = false) as ->.
  { unfold flag_words. destruct (ec_flags ec); [|done]. cbn [existsb]. by rewrite (Hn "flags"), (Hn "S/SA"), (Hn "keep"), (Hn "state") by set_solver. }
  assert ((("=" =s? x)%string) = false) as He by (by apply String.eqb_neq; intros <-).
  enough (existsb (fun w => w =s? x) (selector_words ec sh) = false) as -> by btauto.
  unfold selector_words, user_words. destruct sh as [p|u|p u]; cbn [existsb]; rewrite ?(Hn "to"), ?(Hn "any"), ?(Hn "user") by set_solver;
    rewrite ?(dst_chars_ne (dst_word ec p)) by (done || by apply dst_word_chars); try done;
    destruct (ec_equals ec); cbn [existsb]; rewrite ?He, (proj2 (String.eqb_neq u x)) by done; done.
Qed.

Lemma line_fam ec fam iface gw sh : shape_ok fam iface gw sh -> line_family (echo_line ec fam iface gw sh) = fam.
Proof.
  intros H. unfold line_family, echo_line, echo_words. change " inet6 " with (" " +:+ "inet6" +:+ " ").
  rewrite contains_spaced; [|apply Forall_cons; split; [done|]|done].
  - rewrite !app_assoc. change ("out" :: "quick" :: ?l ++ ["label"; quoted pfOwnerLabel]) with (("out" :: "quick" :: l) ++ ["label"; quoted pfOwnerLabel]).
    change (?l ++ ["label"; quoted pfOwnerLabel]) with (l ++ (["label"] ++ [quoted pfOwnerLabel])). rewrite app_assoc, inner_snoc, !existsb_app.
    cbn [existsb]. rewrite existsb_app. change ("out" =s? "inet6") with false. change ("quick" =s? "inet6") with false. change ("label" =s? "inet6") with false.
    pose proof H as [Hf Ht Hg _ Hu]. rewrite target_no; [|destruct sh; [right; by destruct Ht as (? & ? & ? & ? & ?)..|by left]|done|done|done|].
    2: { intros s E. apply (f_equal (fun x => str_forall iface_char x)) in E. rewrite str_forall_app in E. cbn in E. by rewrite andb_false_r in E. }
    rewrite (body_no "inet6" ec fam iface gw sh H); [|done|set_solver|destruct sh as [|u|? u]; [done|by destruct Hu|by destruct Hu as [[_ ?] _]]].
    by destruct Hf as [->| ->].
  - rewrite app_assoc. repeat (constructor; [done|]). apply Forall_app. split; [|by repeat (constructor; [done|])].
    pose proof (words_plain ec _ _ _ _ H) as Hw. do 3 apply Forall_cons in Hw as [_ Hw]. eapply Forall_impl; [exact Hw|]. intros w Hp. by apply plain_is_word in Hp as [[_ ?] _].
Qed.

(** *** The target *)

Lemma up_to_paren_app s t : str_forall (fun c => negb (Ascii.eqb c ")")) s = true -> up_to_paren (s +:+ String ")" t) = Some s.
Proof.
  induction s as [|c s IH]; [done|]. cbn [str_forall]. intros [Hc Hs]%andb_prop. change (String c s +:+ String ")" t) with (String c (s +:+ String ")" t)).
  cbn [up_to_paren]. apply negb_true_iff in Hc. by rewrite Hc, IH.
Qed.

Lemma non_space_app s t : no_space s = true -> non_space (s +:+ String " " t) = s.
Proof.
  induction s as [|c s IH]; [done|]. intros [Hc Hs]%no_space_cons. change (String c s +:+ String " " t) with (String c (s +:+ String " " t)). cbn [non_space].
  assert (re_space c = false) as ->; [|by rewrite IH]. unfold re_space, is_space in *. cbv zeta in *. apply orb_false_elim in Hc as [H1 H2].
  rewrite H1. apply andb_false_iff in H2. destruct (Z.leb_spec 9 (code c)), (Z.leb_spec (code c) 13), (Z.leb_spec 12 (code c)), (Z.leb_spec (code c) 10); cbn; naive_solver lia.
Qed.

Lemma re_space_word c s : no_space (String c s) = true -> re_space c = false.
Proof. intros H. pose proof (non_space_app (String c s) "" H) as E. cbn in E. by destruct (re_space c). Qed.

Lemma re_target_bare iface t : iface_ok iface -> re_target (String " " (iface +:+ String " " t)) = Some iface.
Proof.
  intros H. pose proof (iface_plain _ H) as Hp. apply plain_is_word in Hp as [[Hn Hs] _]. destruct H as (_ & Hc & _). destruct iface as [|c i]; [done|].
  cbn [re_target]. change (re_space " ") with true. cbv iota zeta.
  change (skip_spaces (String " " ?x)) with (skip_spaces x). change (String c i +:+ String " " t) with (String c (i +:+ String " " t)).
  assert (skip_spaces (String c (i +:+ String " " t)) = String c (i +:+ String " " t)) as -> by (cbn; by rewrite (re_space_word c i Hs)).
  change (String c (i +:+ String " " t)) with (String c i +:+ String " " t). rewrite non_space_app by done.
  cbn [str_forall] in Hc. apply andb_prop in Hc as [Hc _]. unfold iface_char in Hc. rewrite !andb_true_iff in Hc. destruct Hc as (((_ & _) & Hp) & _).
  change (String c i +:+ String " " t) with (String c (i +:+ String " " t)). clear - Hp.
  destruct c as [[] [] [] [] [] [] [] []]; try reflexivity. by vm_compute in Hp.
Qed.

Lemma re_target_paren iface gw t : iface_ok iface -> str_forall addr_char gw = true ->
  re_target (String " " ("(" +:+ iface +:+ " " +:+ gw +:+ ")" +:+ t)) = Some (iface +:+ " " +:+ gw).
Proof.
  intros (Hn & Hc & _) Hg. cbn [re_target]. change (re_space " ") with true. cbv iota zeta.
  change (skip_spaces (String " " ("(" +:+ ?x))) with (String "(" x).
  assert (up_to_paren (iface +:+ " " +:+ gw +:+ ")" +:+ t) = Some (iface +:+ " " +:+ gw)) as E.
  { replace (iface +:+ " " +:+ gw +:+ ")" +:+ t) with ((iface +:+ " " +:+ gw) +:+ String ")" t) by (by rewrite !append_assoc).
    apply up_to_paren_app. rewrite str_forall_app. cbn [str_forall]. rewrite andb_true_iff. split.
    - eapply str_forall_impl; [|exact Hc]. intros c H. unfold iface_char in H. rewrite !andb_true_iff in H. tauto.
    - cbn. eapply str_forall_impl; [|exact Hg]. intros c H. unfold addr_char in H. rewrite !andb_true_iff, Z.leb_le in H.
      destruct (Ascii.eqb_spec c ")") as [->|]; [|done]. exfalso. destruct H as [[_ H] _]. by vm_compute in H. }
  cbv iota beta. rewrite E. by destruct iface.
Qed.

Lemma reRouteTo_skip c s : Ascii.eqb "r" c = false -> reRouteTo (String c s) = reRouteTo s.
Proof. intros H. cbn [reRouteTo]. by rewrite HasPrefix_cons, H. Qed.

Lemma reRouteTo_at t x : re_target t = Some x -> reRouteTo ("pass out quick route-to" +:+ t) = Some x.
Proof.
  intros H. change ("pass out quick route-to" +:+ t) with ("pass out quick " +:+ ("route-to" +:+ t)). set (r := "route-to" +:+ t). cbn [String.append].
  rewrite !reRouteTo_skip by done. assert (HasPrefix r "route-to" = true) as E by (apply HasPrefix_spec; by exists t).
  assert (str_drop 8 r = t) as Ed by done. clearbody r. destruct r as [|c r0]; [done|]. cbn [reRouteTo]. by rewrite E, Ed, H.
Qed.

Lemma reRouteTo_none s : Contains_str s "route-to" = false -> reRouteTo s = None.
Proof.
  induction s as [|c s IH]; [done|]. rewrite Contains_cons. intros [H1 H2]%orb_false_elim. cbn [reRouteTo]. rewrite H1. by apply IH.
Qed.

Lemma dst_no_target w : str_forall dst_char w = true -> Contains_str w "route-to" = false.
Proof.
  induction w as [|c w IH]; [done|]. cbn [str_forall]. intros [Hc Hw]%andb_prop. rewrite Contains_cons, HasPrefix_cons, (IH Hw), orb_false_r.
  destruct (Ascii.eqb_spec "r" c) as [<-|]; [|done]. by vm_compute in Hc.
Qed.

Lemma pass_no_target ec fam p u : shape_ok fam "" "" (PassUser p u) -> Contains_str (echo_line ec fam "" "" (PassUser p u)) "route-to" = false.
Proof.
  intros [Hf _ _ Hp (_ & _ & Hu)]. unfold echo_line. rewrite contains_join by done. unfold echo_words, body_words, target_words, selector_words, user_words, flag_words.
  destruct Hf as [->| ->], (ec_equals ec), (ec_flags ec); cbn [String.eqb app existsb];
    rewrite (dst_no_target (dst_word ec p)), Hu by (by apply dst_word_chars); vm_compute; reflexivity.
Qed.

(** *** The selector *)

Lemma find_user_app l r v : existsb (fun w => w =s? "user") l = false -> user_value r = Some v -> find_user (l ++ "user" :: r) = Some v.
Proof. intros Hl Hv. induction l as [|w l IH]; [cbn; by rewrite Hv|]. cbn [existsb] in Hl. apply orb_false_elim in Hl as [Hw Hl]. cbn. rewrite Hw. by apply IH. Qed.

Lemma find_user_none l : existsb (fun w => w =s? "user") l = false -> find_user l = None.
Proof. induction l as [|w l IH]; [done|]. cbn [existsb find_user]. intros [-> H]%orb_false_elim. by apply IH. Qed.

Lemma find_to_app l d r : existsb (fun w => w =s? "to") l = false -> d <> "any" -> find_to (l ++ "to" :: d :: r) = Some d.
Proof.
  intros Hl Hd. induction l as [|w l IH]; [cbn; by rewrite (proj2 (String.eqb_neq _ _) Hd)|]. cbn [existsb] in Hl. apply orb_false_elim in Hl as [Hw Hl]. cbn. rewrite Hw. by apply IH.
Qed.

Lemma user_value_words ec u r : IsUIDLike u = true -> user_value ((if ec_equals ec then ["="; u] else [u]) ++ r) = Some u.
Proof. intros H. destruct (ec_equals ec); cbn; [done|]. destruct (String.eqb_spec u "=") as [->|]; done. Qed.

(** The words up to the selector. *)
Definition head_words (fam : Family) (iface gw : string) : list string := "pass" :: "out" :: "quick" :: target_words iface gw ++ [af_word fam; "from"; "any"].

Lemma head_no x fam iface gw sh : shape_ok fam iface gw sh -> x = "user" \/ x = "to" -> existsb (fun w => w =s? x) (head_words fam iface gw) = false.
Proof.
  intros [Hf Ht Hg _ _] Hx. unfold head_words. cbn [existsb]. rewrite existsb_app, target_no.
  - destruct Hx as [->| ->], Hf as [->| ->]; done.
  - destruct sh; [right; pose proof Ht as (? & ? & ? & ? & ?); by destruct Hx as [->| ->]..|by left].
  - done.
  - by destruct Hx as [->| ->].
  - intros s. by destruct Hx as [->| ->].
  - intros s E. assert (str_forall iface_char x = true) as Hi by (by destruct Hx as [->| ->]). rewrite E, str_forall_app in Hi. cbn in Hi. by rewrite andb_false_r in Hi.
Qed.

Lemma words_head ec fam iface gw sh : echo_words ec fam iface gw sh = head_words fam iface gw ++ selector_words ec sh ++ flag_words ec ++ ["label"; quoted pfOwnerLabel].
Proof. unfold echo_words, head_words, body_words. cbn [app]. do 3 f_equal. by rewrite <- !app_assoc. Qed.

Lemma flags_no_user ec : existsb (fun w => w =s? "user") (flag_words ec ++ ["label"; quoted pfOwnerLabel]) = false.
Proof. unfold flag_words. by destruct (ec_flags ec). Qed.

Lemma target_read ec fam iface gw sh : shape_ok fam iface gw sh -> iface_ok iface ->
  reRouteTo (echo_line ec fam iface gw sh) = Some (if gw =s? "" then iface else iface +:+ " " +:+ gw).
Proof.
  intros [_ _ Hg _ _] Hi. unfold echo_line, echo_words, target_words. rewrite (proj2 (String.eqb_neq iface "")) by apply Hi.
  destruct (String.eqb_spec gw "") as [->|Hne]; cbn [app].
  - change (Join ("pass" :: "out" :: "quick" :: "route-to" :: iface :: af_word fam :: ?l) " ") with ("pass out quick route-to" +:+ String " " (iface +:+ String " " (Join (af_word fam :: l) " "))).
    by apply reRouteTo_at, re_target_bare.
  - destruct Hg as [|(a & _ & Hv & Hz & ->)]; [done|].
    change (Join ("pass" :: "out" :: "quick" :: "route-to" :: ("(" +:+ iface) :: (addr_String a +:+ ")") :: af_word fam :: ?l) " ") with
      ("pass out quick route-to" +:+ String " " (("(" +:+ iface) +:+ " " +:+ ((addr_String a +:+ ")") +:+ String " " (Join (af_word fam :: l) " ")))).
    apply reRouteTo_at. rewrite !append_assoc. apply re_target_paren; [done|by apply addr_String_chars].
Qed.

Lemma target_fields iface gw : iface_ok iface -> (gw = "" \/ plain_word gw) -> Fields (if gw =s? "" then iface else iface +:+ " " +:+ gw) = iface :: (if gw =s? "" then [] else [gw]).
Proof.
  intros Hi Hg. apply iface_plain, plain_is_word in Hi as [Hi _]. destruct (String.eqb_spec gw "").
  - apply (Fields_words [iface]). by apply Forall_singleton.
  - destruct Hg as [|Hg]; [done|]. apply plain_is_word in Hg as [Hg _]. apply (Fields_words [iface; gw]). constructor; [done|by apply Forall_singleton].
Qed.

(** The walk over the words of a pass. *)
Lemma pass_words_skip f rest to user : (f =s? "to") = false -> (f =s? "user") = false -> pass_words (f :: rest) to user = pass_words rest to user.
Proof. intros H1 H2. cbn [pass_words]. rewrite H1, H2. by destruct rest. Qed.

(** With a destination found, the word [to] is only a word. *)
Lemma pass_words_skip_set f rest to user : (to =s? "") = false -> (f =s? "user") = false -> pass_words (f :: rest) to user = pass_words rest to user.
Proof. intros H1 H2. destruct rest; [done|]. cbn [pass_words]. by rewrite H1, H2, andb_false_r. Qed.

Lemma pass_words_head l rest to user : existsb (fun w => w =s? "to") l = false -> existsb (fun w => w =s? "user") l = false ->
  pass_words (l ++ rest) to user = pass_words rest to user.
Proof.
  induction l as [|w l IH]; [done|]. cbn [existsb app]. intros [H1 H2]%orb_false_elim [H3 H4]%orb_false_elim. rewrite pass_words_skip by done. by apply IH.
Qed.

Lemma pass_words_to d rest user : (d =s? "any") = false -> pass_words ("to" :: d :: rest) "" user = pass_words (d :: rest) (normalizePFDst d) user.
Proof. intros H. cbn [pass_words]. by rewrite H. Qed.

Lemma pass_words_user rest to user x v : user_value rest = Some v -> x = v -> pass_words ("user" :: rest) to user = pass_words rest to x.
Proof. intros H ->. destruct rest as [|n r]; [done|]. cbn [pass_words]. rewrite H. by rewrite andb_false_l. Qed.

Lemma pass_words_tail ec to user : pass_words (flag_words ec ++ ["label"; quoted pfOwnerLabel]) to user = (to, user).
Proof. unfold flag_words. by destruct (ec_flags ec). Qed.

(** A line pfctl prints for a rule of the engine parses to the rule. *)
Lemma line_parses ec fam iface gw sh : shape_ok fam iface gw sh -> (match sh with PassUser _ _ => gw = "" | _ => True end) ->
  parse_anchor_line (echo_line ec fam iface gw sh) = Some (shape_rule fam iface gw sh).
Proof.
  intros H Hgw. unfold parse_anchor_line. rewrite line_label by done. cbn [String.eqb]. change (pfOwnerLabel =s? pfOwnerLabel) with true. cbv iota.
  pose proof H as [Hf Ht Hg Hp Hu]. assert (gw = "" \/ plain_word gw) as Hgp.
  { destruct Hg as [->|(a & ? & ? & ? & ->)]; [by left|right; by apply addr_plain]. }
  assert (forall i, default "" (head (if i =s? "" then [] else [i])) = i) as Hd by (intros i; by destruct (String.eqb_spec i "") as [->|]).
  unfold parsePFRuleText. destruct sh as [p|u|p u]; cbn [shape_rule].
  - rewrite target_read, target_fields, line_fields, line_fam, words_head by done. cbv zeta.
    rewrite find_user_none.
    2: { rewrite existsb_app, (existsb_app _ (selector_words _ _)), flags_no_user, orb_false_r. rewrite (head_no "user" fam iface gw (ToNet p)) by auto. cbn [selector_words existsb orb].
         by rewrite (dst_chars_ne (dst_word ec p)) by (done || by apply dst_word_chars). }
    cbn [selector_words app]. rewrite find_to_app; [by rewrite dst_word_norm, Hd|apply (head_no "to" fam iface gw (ToNet p)); auto|].
    intros E. pose proof (dst_word_chars ec p Hp) as Hc. by rewrite E in Hc.
  - rewrite target_read, target_fields, line_fields, line_fam, words_head by done. cbv zeta. cbn [selector_words].
    unfold user_words. change ("to" :: "any" :: "user" :: ?l) with (["to"; "any"] ++ "user" :: l). rewrite <- app_assoc, app_assoc. cbn [app].
    erewrite find_user_app; [by rewrite Hd| |apply user_value_words, Hu].
    rewrite existsb_app, (head_no "user" fam iface gw (OfUser u)) by auto. done.
  - subst iface gw. rewrite reRouteTo_none, pass_no_target by (done || by apply pass_no_target). unfold parsePFPassText.
    destruct Hu as ((Hu & _) & Huu & _).
    assert (HasPrefix (TrimSpace (echo_line ec fam "" "" (PassUser p u))) "pass " = true) as ->.
    { rewrite line_split. unfold TrimSpace. set (s := Join _ " " +:+ " " +:+ "label " +:+ quoted pfOwnerLabel).
      assert (TrimLeft s = s) as -> by done.
      assert (forall s c, is_space c = false -> TrimRight (s +:+ String c "") = s +:+ String c "") as Htr.
      { clear. intros s c Hc. induction s as [|d s IH]; [cbn; by rewrite Hc|]. change (String d s +:+ String c "") with (String d (s +:+ String c "")).
        cbn [TrimRight]. rewrite IH. by destruct s. }
      assert (s = (Join ("pass" :: "out" :: "quick" :: target_words "" "" ++ body_words ec fam (PassUser p u)) " " +:+ (" label " +:+ String (ascii_of_nat 34) "riftroute")) +:+ String (ascii_of_nat 34) "") as ->.
      { unfold s. rewrite append_assoc. done. }
      rewrite Htr by done. rewrite append_assoc. apply HasPrefix_spec. eexists. reflexivity. }
    cbn [negb]. rewrite line_fields by done.
    assert (pass_words (echo_words ec fam "" "" (PassUser p u)) "" "" = (prefix_String p, u)) as ->.
    { pose proof (dst_word_norm ec p Hp) as Hn. pose proof (dst_word_chars ec p Hp) as Hc. pose proof (prefix_plain p Hp) as [Hne _].
      assert ((dst_word ec p =s? "any") = false) as E1 by (by apply dst_chars_ne). assert ((dst_word ec p =s? "to") = false) as E2 by (by apply dst_chars_ne).
      assert ((dst_word ec p =s? "user") = false) as E3 by (by apply dst_chars_ne).
      assert ((prefix_String p =s? "") = false) as E4 by (by apply String.eqb_neq). assert ((u =s? "user") = false) as E5 by (by apply String.eqb_neq).
      assert ((u =s? "=") = false) as E6 by (by apply String.eqb_neq; intros ->).
      rewrite words_head. cbn [selector_words]. rewrite <- app_comm_cons. rewrite pass_words_head by (apply (head_no "to" fam "" "" (PassUser p u)) || apply (head_no "user" fam "" "" (PassUser p u)); auto).
      cbn [app]. rewrite pass_words_to, Hn by done. rewrite pass_words_skip by done. unfold user_words. rewrite <- app_comm_cons.
      rewrite (pass_words_user _ _ _ u u) by (done || by apply user_value_words). destruct (ec_equals ec); cbn [app].
      + rewrite pass_words_skip by done. by rewrite pass_words_skip_set, pass_words_tail by done.
      + by rewrite pass_words_skip_set, pass_words_tail by done. }
    rewrite (proj2 (String.eqb_neq (prefix_String p) "")), line_fam by (done || apply prefix_plain, Hp).
    destruct (String.eqb_spec u "") as [->|]; [done|]. done.
Qed.

(** ** The whole anchor *)

Record pf_item : Type := mkItem { it_fam : Family; it_iface : string; it_gw : string; it_shape : shape }.

Definition pf_item_rule (i : pf_item) : PolicyRule := shape_rule (it_fam i) (it_iface i) (it_gw i) (it_shape i).

Definition pf_item_ok (i : pf_item) : Prop :=
  shape_ok (it_fam i) (it_iface i) (it_gw i) (it_shape i) /\ match it_shape i with PassUser _ _ => it_gw i = "" | _ => True end.

Definition pf_item_line (ec : echo) (i : pf_item) : string := echo_line ec (it_fam i) (it_iface i) (it_gw i) (it_shape i).

(** What pfctl prints, its choices free for each rule. *)
Definition printed (ecs : pf_item -> echo) (l : list pf_item) : string := fold_left (fun b i => b +:+ pf_item_line (ecs i) i +:+ nl) l "".

Definition items_by_key (l : list pf_item) : list pf_item := slice_stable (fun a b => str_less (RuleKey (pf_item_rule a)) (RuleKey (pf_item_rule b))) l.

Lemma rendered_line i : pf_item_ok i -> renderPFRule (pf_item_rule i) = pf_item_line (mkEcho false false false) i.
Proof.
  intros [[Hf Ht Hg Hp Hu] Hgw]. destruct i as [fam iface gw sh]. cbn [it_fam it_iface it_gw it_shape] in *. unfold pf_item_line, pf_item_rule, renderPFRule, echo_line, echo_words, body_words, target_words, selector_words, user_words, flag_words, af_word, dst_word.
  cbn [it_fam it_iface it_gw it_shape ec_bare ec_equals ec_flags andb].
  destruct sh as [p|u|p u]; cbn [shape_rule pr_Family pr_Selector pr_RouteToIface pr_RouteToGW]; unfold pf_selector.
  - rewrite (proj2 (HasPrefix_spec ("to " +:+ _) _)) by eauto. assert (iface <> "") as Hi by apply Ht. rewrite (proj2 (String.eqb_neq iface "")) by done.
    destruct (String.eqb_spec gw ""); [rewrite (proj2 (String.eqb_neq iface "")) by done|change ("(" +:+ ?x =s? "") with false; cbv iota];
      cbn [app Join]; rewrite ?append_assoc; destruct Hf as [->| ->]; done.
  - change (HasPrefix ("user " +:+ u) "to ") with false. cbv iota. rewrite (proj2 (HasPrefix_spec ("user " +:+ _) _)) by eauto. assert (iface <> "") as Hi by apply Ht. rewrite (proj2 (String.eqb_neq iface "")) by done.
    destruct (String.eqb_spec gw ""); [rewrite (proj2 (String.eqb_neq iface "")) by done|change ("(" +:+ ?x =s? "") with false; cbv iota];
      cbn [app Join]; rewrite ?append_assoc; destruct Hf as [->| ->]; done.
  - subst. rewrite (proj2 (HasPrefix_spec ("to " +:+ _) _)) by eauto. cbn [String.eqb app Join]. rewrite !append_assoc. destruct Hf as [->| ->]; done.
Qed.

Lemma pf_item_line_no_newline ec i : pf_item_ok i -> str_forall (fun c => negb (Ascii.eqb c newline)) (pf_item_line ec i) = true.
Proof.
  intros [H _]. unfold pf_item_line. rewrite line_split, str_forall_app, andb_true_iff. split; [|vm_compute; reflexivity]. apply Join_forall; [done|].
  eapply Forall_impl; [exact (words_plain ec _ _ _ _ H)|]. intros w [_ Hw]. eapply str_forall_impl; [|exact Hw]. intros c Hc.
  destruct (Ascii.eqb_spec c newline) as [->|]; [by vm_compute in Hc|done].
Qed.

Lemma fold_lines {A} (f : A -> string) l b : fold_left (fun b i => b +:+ f i +:+ nl) l b = b +:+ fold_left (fun b i => b +:+ f i +:+ nl) l "".
Proof.
  revert b. induction l as [|x l IH]; intros b; cbn [fold_left]; [by rewrite append_nil_r|]. rewrite IH, (IH ("" +:+ _)). by rewrite !append_assoc.
Qed.

Lemma printed_lines ecs l : Forall pf_item_ok l -> omap parse_anchor_line (split_lines (printed ecs l)) = map pf_item_rule l.
Proof.
  unfold printed, split_lines. induction 1 as [|i l Hi Hl IH]; [done|]. cbn [fold_left]. rewrite fold_lines.
  change ("" +:+ ?x) with x. rewrite append_assoc. change (nl +:+ ?x) with (String newline x). rewrite split_lines_first by (by apply pf_item_line_no_newline).
  cbn [omap list_omap map]. change ("" +:+ ?x) with x. unfold pf_item_line at 1. rewrite line_parses by apply Hi. f_equal. exact IH.
Qed.

Lemma distinct_rules_id seen l : NoDup (map RuleKey l) -> (forall r, r ∈ l -> RuleKey r ∉ seen) -> distinct_rules seen l = l.
Proof.
  revert seen. induction l as [|r l IH]; intros seen Hd Hs; [done|]. cbn [distinct_rules map] in *. apply NoDup_cons in Hd as [Hn Hd].
  rewrite bool_decide_eq_false_2 by (apply Hs; left). f_equal. apply IH; [done|]. intros x Hx. apply not_elem_of_union. split.
  - apply not_elem_of_singleton. intros E. apply Hn. rewrite <- E. by apply list_elem_of_fmap_2.
  - apply Hs. by right.
Qed.

(** C22: the anchor reads back what it was given: the rules the engine makes are
    written one line each in the order of their identities, and whatever forms
    pfctl chooses for a host address, a user or the state flags when it prints
    them, reading them gives exactly those rules, in that order. *)
Theorem anchor_roundtrip (l : list pf_item) (ecs : pf_item -> echo) : Forall pf_item_ok l -> NoDup (map (fun i => RuleKey (pf_item_rule i)) l) ->
  RenderAnchor (map pf_item_rule l) = printed (fun _ => mkEcho false false false) (items_by_key l) /\
  parseAnchorRules (printed ecs (items_by_key l)) = by_key (map pf_item_rule l) /\
  parseAnchorRules (RenderAnchor (map pf_item_rule l)) = by_key (map pf_item_rule l).
Proof.
  intros Hok Hd. assert (by_key (map pf_item_rule l) = map pf_item_rule (items_by_key l)) as Hs by (symmetry; apply (slice_stable_map (fun a b => str_less (RuleKey a) (RuleKey b)))).
  assert (Forall pf_item_ok (items_by_key l)) as Hok'.
  { rewrite Forall_forall in *. intros i Hi. apply Hok. by apply elem_of_slice_stable in Hi. }
  assert (RenderAnchor (map pf_item_rule l) = printed (fun _ => mkEcho false false false) (items_by_key l)) as Hr.
  { unfold RenderAnchor, printed. rewrite Hs. generalize "". clear - Hok'. induction Hok' as [|i k Hi Hk IH]; intros b; [done|]. cbn [map fold_left]. by rewrite rendered_line, IH. }
  assert (forall ecs, parseAnchorRules (printed ecs (items_by_key l)) = by_key (map pf_item_rule l)) as Hp.
  { intros ecs'. unfold parseAnchorRules. rewrite printed_lines, <- Hs by done. apply distinct_rules_id; [|set_solver].
    unfold by_key. rewrite (Permutation_map _ (slice_stable_perm _ _)), map_map. done. }
  split; [done|]. split; [apply Hp|]. rewrite Hr. apply Hp.
Qed.

Definition ex_net : prefix := mkPrefix (Addr4 (10 * 16777216)) 8.
Definition ex_host : prefix := mkPrefix (Addr4 (100 * 16777216 + 1)) 32.
Definition ex_items : list pf_item := [mkItem FamilyV4 "en0" "192.168.1.1" (ToNet ex_net); mkItem FamilyV6 "utun3" "" (OfUser "501"); mkItem FamilyV4 "" "" (PassUser ex_host "501")].

Lemma ex_items_ok : Forall pf_item_ok ex_items.
Proof.
  assert (canon ex_net /\ canon ex_host) as [Hn Hh] by (split; apply (bool_decide_unpack (canon _)); vm_compute; exact I).
  assert (addr_ok (Addr4 (192 * 16777216 + 168 * 65536 + 257))) as Ha by (apply (bool_decide_unpack (addr_ok _)); vm_compute; exact I).
  repeat apply Forall_cons_2; try apply Forall_nil_2; (split; [|done]); (split; [first [by left|by right]|cbn|cbn|cbn|cbn]); try done; try (by left).
  right. exists (Addr4 (192 * 16777216 + 168 * 65536 + 257)). by repeat split.
Qed.

Lemma anchor_roundtrip_witness : parseAnchorRules (printed (fun _ => mkEcho true true true) (items_by_key ex_items)) = by_key (map pf_item_rule ex_items).
Proof.
  refine (proj1 (proj2 (anchor_roundtrip ex_items (fun _ => mkEcho true true true) ex_items_ok _))).
  apply (bool_decide_unpack (NoDup (map (fun i => RuleKey (pf_item_rule i)) ex_items))). vm_compute. exact I.
Defined.

(** ** Taking the hook out *)

(** a block whose end mark is missing takes the rest of pf.conf with it:
    what the user wrote after the begin mark is lost, where the shared editor of
    pf.conf keeps the file as it is. *)
Theorem truncated_hook_takes_rest (pre post : string) :
  (pre = "" \/ HasSuffix_nl pre = true) -> Contains_str pre pf_hook_begin = false ->
  Contains_str (pre +:+ pf_hook_begin +:+ post) pf_hook_end = false ->
  pfRemoveHook (pre +:+ pf_hook_begin +:+ post) = pre /\ Remove (pre +:+ pf_hook_begin +:+ post) pf_hook_begin pf_hook_end = pre +:+ pf_hook_begin +:+ post.
Proof.
  intros Hl Hb He. assert (find_sub (pre +:+ pf_hook_begin +:+ post) pf_hook_begin = Some (pre, pf_hook_begin +:+ post)) as Hf by (by apply find_after).
  split.
  - unfold pfRemoveHook. rewrite Hf. by rewrite (proj2 (find_sub_none _ _) He).
  - unfold Remove. rewrite Hf. assert (Contains_str (pf_hook_begin +:+ post) pf_hook_end = false) as Ht.
    { clear - He. revert He. generalize (pf_hook_begin +:+ post). intros t. induction pre as [|c pre IH]; [done|].
      change (String c pre +:+ t) with (String c (pre +:+ t)). rewrite Contains_cons. intros [_ H]%orb_false_elim. by apply IH. }
    by rewrite (proj2 (find_sub_none _ _) Ht).
Qed.

Lemma truncated_hook_takes_rest_witness :
  pfRemoveHook (("scrub-anchor x" +:+ nl) +:+ pf_hook_begin +:+ (nl +:+ "block in all")) = "scrub-anchor x" +:+ nl.
Proof.
  refine (proj1 (truncated_hook_takes_rest ("scrub-anchor x" +:+ nl) (nl +:+ "block in all") _ _ _)); [right|..]; vm_compute; reflexivity.
Defined.
