(* ===== verification/Config.v ===== *)
(** * Configuration files and lists (internal/config, internal/lists)

    The config file's shape, its semantic checks and the conversion to and from
    profiles and lists; the same checks for a single profile or list; and the
    entries read from a list's text. Decoding YAML and TOML, [url.Parse] (the
    scheme it finds) and [time.ParseDuration] are arguments, as is the line of
    each field. Text is bytes; the spaces trimmed are the ASCII ones. A message
    is an error value that keeps its format and arguments. *)

From Stdlib Require Import Ascii Btauto.
From S2P Require Import Prelude.
From S2P Require Import Netip NetipText Domain Input Provider Netmon Killswitch Update.

(** ** The file (config.go) *)

Record RuleConfig : Type := mkRuleConfig { rc_Type : string; rc_Value : string; rc_Comment : string }.

Record ProfileConfig : Type := mkProfileConfig {
  pc_Name : string;
  pc_Description : string;
  pc_Enabled : bool;
  pc_Mode : string;
  pc_Gateway : string;
  pc_Priority : Z;
  pc_Rules : list RuleConfig;
  pc_Lists : list string;
  pc_IPVersion : list string;
  pc_Tunnel : string;
}.

Record ListConfig : Type := mkListConfig { lc_Name : string; lc_Static : list string; lc_Source : string; lc_Refresh : string }.

Record SplitDNSConfig : Type := mkSplitDNSConfig { sc_Domain : string; sc_Resolver : string }.

Record ConnectivityGuard : Type := mkGuard {
  cg_Enabled : bool; cg_Anchors : list string; cg_ConfirmTimeout : string; cg_GuardWindow : string;
}.

Record Settings : Type := mkSettings {
  se_IPVersion : list string;
  se_DefaultMode : string;
  se_AutoApplyOnChange : bool;
  se_KillSwitch : bool;
  se_ConnectivityGuard : ConnectivityGuard;
  se_SplitDNS : list SplitDNSConfig;
  se_Updates : string;
  se_Telemetry : string;
}.

Record FileConfig : Type := mkFileConfig {
  fc_Version : Z; fc_Settings : Settings; fc_Profiles : list ProfileConfig; fc_Lists : list ListConfig;
}.

Definition orDefault (v def : string) : string := if TrimSpace v =s? "" then def else v.

Definition rule_of (r : RuleConfig) : Rule := mkRule (rc_Type r) (rc_Value r) (rc_Comment r).

Definition profile_of (pc : ProfileConfig) : Profile :=
  mkProfile ("cfg:" +:+ pc_Name pc) (pc_Name pc) (pc_Description pc) (pc_Enabled pc) (orDefault (pc_Mode pc) ModeExclude)
    (orDefault (pc_Gateway pc) "auto") (pc_Priority pc) (map rule_of (pc_Rules pc)) (pc_Lists pc) (pc_IPVersion pc) (TrimSpace (pc_Tunnel pc)).

Definition list_of (lc : ListConfig) : NamedList := mkNamedList (lc_Name lc) (lc_Static lc) (lc_Source lc) (lc_Refresh lc) None "" [].

Definition ToDomain (c : FileConfig) : list Profile * list NamedList := (map profile_of (fc_Profiles c), map list_of (fc_Lists c)).

Definition rule_config (r : Rule) : RuleConfig := mkRuleConfig (r_Type r) (r_Value r) (r_Comment r).

Definition profile_config (p : Profile) : ProfileConfig :=
  mkProfileConfig (pf_Name p) (pf_Description p) (pf_Enabled p) (pf_Mode p) (pf_Gateway p) (pf_Priority p) (map rule_config (pf_Rules p))
    (pf_Lists p) (pf_IPVersion p) (pf_Tunnel p).

Definition list_config (l : NamedList) : ListConfig := mkListConfig (nl_Name l) (nl_Static l) (nl_Source l) (nl_Refresh l).

Definition FromDomain (profiles : list Profile) (lists : list NamedList) (splitDNS : list SplitDNSRoute) (prefs : option Preferences) : FileConfig :=
  mkFileConfig 1
    (mkSettings [] "" false false (mkGuard false [] "" "") (map (fun sd => mkSplitDNSConfig (sd_Domain sd) (sd_Resolver sd)) splitDNS)
       (match prefs with Some p => pf_Updates p | None => "" end) (match prefs with Some p => pf_Telemetry p | None => "" end))
    (map profile_config profiles) (map list_config lists).

Definition config_patch (c : FileConfig) : PreferencesPatch :=
  let set v := let v := TrimSpace v in if v =s? "" then None else Some v in
  mkPatch (set (se_Updates (fc_Settings c))) (set (se_Telemetry (fc_Settings c))).

Definition SplitDNSRoutes (c : FileConfig) : list SplitDNSRoute :=
  map (fun s => mkSplitDNS (sc_Domain s) (sc_Resolver s) 0) (se_SplitDNS (fc_Settings c)).

(** ** Issues (validate.go) *)

Inductive Severity : Type := SevError | SevWarning.

Record Issue : Type := mkConfigIssue { iss_Severity : Severity; iss_Line : Z; iss_Field : string; iss_Msg : error }.

Definition is_error (i : Issue) : bool := match iss_Severity i with SevError => true | SevWarning => false end.
Definition HasErrors (l : list Issue) : bool := existsb is_error l.
Definition issues_of (s : Severity) (l : list Issue) : list Issue :=
  keep_if (fun i => match s, iss_Severity i with SevError, SevError | SevWarning, SevWarning => true | _, _ => false end) l.

(** A finding before its line is looked up: its severity, path, field and
    text. *)
Record diagnostic : Type := mkDiag { dg_sev : Severity; dg_path : string; dg_field : string; dg_msg : error }.

Definition err_if (b : bool) (path field : string) (e : error) : list diagnostic := if b then [mkDiag SevError path field e] else [].

(** The field's line: its own, or that of the nearest containing path. The
    paths cut at each [.] and [\[], the longest first. *)
Fixpoint cuts (s before : string) : list string :=
  match s with
  | EmptyString => []
  | String c s' => cuts s' (before +:+ String c "") ++ (if (code c =? 46) || (code c =? 91) then [before] else [])
  end.

Fixpoint first_line (lines : gmap string Z) (paths : list string) : Z :=
  match paths with
  | [] => 0
  | p :: paths' => match lines !! p with Some l => l | None => first_line lines paths' end
  end.

Definition lineOf (lines : option (gmap string Z)) (path : string) : Z :=
  match lines with None => 0 | Some li => first_line li (path :: cuts path "") end.

(** ** Fields *)

Definition is_letter (c : ascii) : bool := ((65 <=? code c) && (code c <=? 90)) || ((97 <=? code c) && (code c <=? 122)).
Definition is_alphanum (c : ascii) : bool := is_letter c || is_digit c.

(** [(?i)^AS\d+$]; folding case, [S] also matches the long s (two bytes). *)
Definition reASN (s : string) : bool :=
  let digits t := negb (t =s? "") && str_forall is_digit t in
  match s with
  | String a s' =>
      if (code a =? 65) || (code a =? 97) then
        match s' with
        | String b t =>
            if (code b =? 83) || (code b =? 115) then digits t
            else match t with String c t' => (code b =? 197) && (code c =? 191) && digits t' | EmptyString => false end
        | EmptyString => false
        end
      else false
  | EmptyString => false
  end.

Definition reCountry (s : string) : bool := (String.length s =? 2)%nat && str_forall is_letter s.

Fixpoint ends_alphanum (s : string) : bool :=
  match s with EmptyString => false | String c EmptyString => is_alphanum c | String _ s' => ends_alphanum s' end.

Definition reLabel (s : string) : bool :=
  match s with
  | EmptyString => false
  | String c _ => is_alphanum c && ends_alphanum s && (String.length s <=? 63)%nat && str_forall (fun c => is_alphanum c || (code c =? 45)) s
  end.

(** The text before a final dot. *)
Fixpoint trim_dot (s : string) : string :=
  match s with
  | EmptyString => ""
  | String c EmptyString => if code c =? 46 then "" else s
  | String c s' => String c (trim_dot s')
  end.

Definition isValidDomain (s : string) : bool :=
  let s := trim_dot s in
  if (s =s? "") || (253 <? Z.of_nat (String.length s)) then false
  else let labels := Split (TrimPrefix s "*.") "." in
       (2 <=? length labels)%nat && forallb reLabel labels.

Definition isCIDROrIP (s : string) : bool := bool_decide (is_Some (ParsePrefix s)) || bool_decide (is_Some (ParseAddr s)).

(** ** Rules and profiles *)

Definition validateRule (base type value : string) : list diagnostic :=
  let bad p f e := [mkDiag SevError (base +:+ p) f e] in
  let value_if (ok : bool) e := if ok then [] else bad ".value" "rules.value" e in
  if TrimSpace value =s? "" then bad ".value" "rules.value" (Errorf "rule value is required" [])
  else if type =s? "cidr" then value_if (bool_decide (is_Some (ParsePrefix value))) (Errorf "invalid CIDR %q" [value])
  else if type =s? "ip" then value_if (bool_decide (is_Some (ParseAddr value))) (Errorf "invalid IP %q" [value])
  else if type =s? "domain" then value_if (isValidDomain value) (Errorf "invalid domain %q" [value])
  else if type =s? "asn" then value_if (reASN value) (Errorf "invalid ASN %q (expected form ASNNNN)" [value])
  else if type =s? "country" then value_if (reCountry value) (Errorf "invalid country code %q (expected 2 letters)" [value])
  else if type =s? "app" then []
  else if type =s? "" then bad ".type" "rules.type" (Errorf "rule type is required (cidr|ip|domain|asn|country|app)" [])
  else bad ".type" "rules.type" (Errorf "unknown rule type %q" [type]).

Definition indexed {A} (l : list A) : list (Z * A) := imap (fun i x => (Z.of_nat i, x)) l.

Definition app_tunnel_msg : error := Errorf "per-app rules can't go through a tunnel yet — use include mode for them, or remove the app rule" [].
Definition app_exclude_msg : error :=
  Errorf "per-app rules only take effect in include mode — switch the profile to include, or remove the app rule" [].

(** Fields and texts. *)
Definition tunnelModeIssues (mode tunnel : string) (types : list string) : list (string * error) :=
  let tunnel := TrimSpace tunnel in
  (if (mode =s? "tunnel") && (tunnel =s? "") then
     [("tunnel", Errorf "a tunnel-mode profile names the tunnel its destinations go into" [])]
   else if negb (mode =s? "tunnel") && negb (tunnel =s? "") then
     [("tunnel", Errorf "only a tunnel-mode profile goes into a tunnel; set mode: tunnel, or remove tunnel" [])]
   else []) ++
  (if mode =s? "tunnel" then
     omap (fun '(j, t) => if t =s? "app" then Some ("rules[" +:+ pretty (j : Z) +:+ "]", app_tunnel_msg) else None) (indexed types)
   else []).

Definition uid_msg (v : string) : error :=
  Errorf "on macOS, per-app rules match by uid/username (PF socket owner); %q is not a uid/username" [v].

Definition mode_or (mode : string) : string := if mode =s? "" then "exclude" else mode.
Definition mode_bad (mode : string) : bool := negb (mode =s? "exclude") && negb (mode =s? "include") && negb (mode =s? "tunnel").
Definition gateway_bad (g : string) : bool := negb (g =s? "") && negb (g =s? "auto") && bool_decide (ParseAddr g = None).

(** A profile of the file, at [base]. *)
Definition file_profile (platform base : string) (known : string -> bool) (p : ProfileConfig) : list diagnostic :=
  let mode := mode_or (pc_Mode p) in
  err_if (mode_bad mode) (base +:+ ".mode") "profiles.mode" (Errorf "invalid mode %q (expected exclude, include or tunnel)" [pc_Mode p]) ++
  map (fun '(f, e) => mkDiag SevError (base +:+ "." +:+ f) ("profiles." +:+ f) e) (tunnelModeIssues mode (pc_Tunnel p) (map rc_Type (pc_Rules p))) ++
  (if (mode =s? "include") && (platform =s? "darwin") then
     indexed (pc_Rules p) ≫= fun '(j, r) =>
       err_if ((rc_Type r =s? "app") && negb (rc_Value r =s? "") && negb (IsUIDLike (rc_Value r)))
         (base +:+ ".rules[" +:+ pretty (j : Z) +:+ "].value") "rules.value" (uid_msg (rc_Value r))
   else []) ++
  (if mode =s? "exclude" then
     indexed (pc_Rules p) ≫= fun '(j, r) => err_if (rc_Type r =s? "app") (base +:+ ".rules[" +:+ pretty (j : Z) +:+ "]") "rules.type" app_exclude_msg
   else []) ++
  err_if (gateway_bad (pc_Gateway p)) (base +:+ ".gateway") "profiles.gateway"
    (Errorf "gateway must be %q or a valid IP, got %q" ["auto"; pc_Gateway p]) ++
  (pc_Lists p ≫= fun ref => err_if (negb (known ref)) (base +:+ ".lists") "profiles.lists"
                              (Errorf "profile %q references unknown list %q" [pc_Name p; ref])) ++
  (if bool_decide (pc_Rules p = []) && bool_decide (pc_Lists p = []) then
     [mkDiag SevWarning base "profiles" (Errorf "profile %q has no rules or lists; it will install nothing" [pc_Name p])] else []) ++
  (indexed (pc_Rules p) ≫= fun '(j, r) => validateRule (base +:+ ".rules[" +:+ pretty (j : Z) +:+ "]") (rc_Type r) (rc_Value r)).

(** A single profile. *)
Definition profile_diags (p : Profile) (platform : string) (knownLists : option (gset string)) : list diagnostic :=
  let mode := mode_or (pf_Mode p) in
  err_if (TrimSpace (pf_Name p) =s? "") "" "name" (Errorf "profile name is required" []) ++
  err_if (HasPrefix (pf_ID p) TunnelProfilePrefix) "" "id" (Errorf "profile ids starting with %q are reserved for tunnels" [TunnelProfilePrefix]) ++
  err_if (mode_bad mode) "" "mode" (Errorf "invalid mode %q (expected exclude, include or tunnel)" [pf_Mode p]) ++
  map (fun '(f, e) => mkDiag SevError "" f e) (tunnelModeIssues mode (pf_Tunnel p) (map r_Type (pf_Rules p))) ++
  (if (mode =s? "include") && (platform =s? "darwin") then
     pf_Rules p ≫= fun r => err_if ((r_Type r =s? RuleApp) && negb (r_Value r =s? "") && negb (IsUIDLike (r_Value r))) "" "rules.value" (uid_msg (r_Value r))
   else []) ++
  (if mode =s? "exclude" then pf_Rules p ≫= fun r => err_if (r_Type r =s? RuleApp) "" "rules.type" app_exclude_msg else []) ++
  err_if (gateway_bad (pf_Gateway p)) "" "gateway" (Errorf "gateway must be %q or a valid IP, got %q" ["auto"; pf_Gateway p]) ++
  (pf_Lists p ≫= fun ref => err_if (match knownLists with Some k => negb (bool_decide (ref ∈ k)) | None => false end) "" "lists"
                              (Errorf "references unknown list %q" [ref])) ++
  (if bool_decide (pf_Rules p = []) && bool_decide (pf_Lists p = []) then
     [mkDiag SevWarning "" "rules" (Errorf "profile has no rules or lists; it will install nothing" [])] else []) ++
  (indexed (pf_Rules p) ≫= fun '(j, r) => validateRule ("rules[" +:+ pretty (j : Z) +:+ "]") (r_Type r) (r_Value r)).

Definition unlined (d : diagnostic) : Issue := mkConfigIssue (dg_sev d) 0 (dg_field d) (dg_msg d).

Definition ValidateProfile (p : Profile) (platform : string) (knownLists : option (gset string)) : list Issue :=
  map unlined (profile_diags p platform knownLists).

(** ** Lists and the whole file *)

Section file.
Context (url_scheme : string -> option string) (ParseDuration : string -> option Z).

Definition not_https (s : string) : bool := negb (bool_decide (url_scheme s = Some "https")).
Definition bad_duration (v : string) : bool := negb (v =s? "") && bool_decide (ParseDuration v = None).
Definition checkDuration (path field v : string) : list diagnostic := err_if (bad_duration v) path field (Errorf "invalid duration %q" [v]).

Definition ValidateList (l : NamedList) : list Issue :=
  map unlined
    (err_if (TrimSpace (nl_Name l) =s? "") "" "name" (Errorf "list name is required" []) ++
     err_if ((nl_Source l =s? "") && bool_decide (nl_Static l = [])) "" "entries" (Errorf "a list needs static entries or a remote source" []) ++
     (nl_Static l ≫= fun e => err_if (negb (isCIDROrIP e)) "" "entries" (Errorf "invalid CIDR/IP %q" [e])) ++
     (if nl_Source l =s? "" then []
      else err_if (not_https (nl_Source l)) "" "source" (Errorf "remote list source must be an https URL, got %q" [nl_Source l]) ++
           err_if (bad_duration (nl_Refresh l)) "" "refresh" (Errorf "invalid refresh interval %q (e.g. 24h)" [nl_Refresh l]))).

Definition check_settings (s : Settings) : list diagnostic :=
  (indexed (se_IPVersion s) ≫= fun '(i, v) =>
     err_if (negb (v =s? "v4") && negb (v =s? "v6")) ("settings.ip_version[" +:+ pretty (i : Z) +:+ "]") "settings.ip_version"
       (Errorf "invalid ip_version %q (expected v4 or v6)" [v])) ++
  (let m := se_DefaultMode s in
   err_if (negb (m =s? "") && negb (m =s? "exclude") && negb (m =s? "include")) "settings.default_mode" "settings.default_mode"
     (Errorf "invalid default_mode %q (expected exclude or include)" [m])) ++
  (let v := TrimSpace (se_Updates s) in
   err_if (negb (v =s? "") && negb (UpdateMode_Valid v)) "settings.updates" "settings.updates" (Errorf "invalid updates %q (expected auto, notify, or off)" [v])) ++
  (let v := TrimSpace (se_Telemetry s) in
   err_if (negb (v =s? "") && negb (TelemetryLevel_Valid v)) "settings.telemetry" "settings.telemetry"
     (Errorf "invalid telemetry %q (expected full, basic, or off)" [v])) ++
  checkDuration "settings.connectivity_guard.confirm_timeout" "confirm_timeout" (cg_ConfirmTimeout (se_ConnectivityGuard s)) ++
  checkDuration "settings.connectivity_guard.guard_window" "guard_window" (cg_GuardWindow (se_ConnectivityGuard s)) ++
  (indexed (cg_Anchors (se_ConnectivityGuard s)) ≫= fun '(i, a) =>
     err_if (negb (a =s? "gateway") && bool_decide (ParseAddr a = None)) ("settings.connectivity_guard.anchors[" +:+ pretty (i : Z) +:+ "]") "anchors"
       (Errorf "invalid anchor %q (expected %q or an IP)" [a; "gateway"])) ++
  (indexed (se_SplitDNS s) ≫= fun '(i, sd) =>
     let base := "settings.split_dns[" +:+ pretty (i : Z) +:+ "]" in
     err_if (negb (isValidDomain (sc_Domain sd))) (base +:+ ".domain") "split_dns.domain" (Errorf "invalid domain %q" [sc_Domain sd]) ++
     err_if (bool_decide (ParseAddr (sc_Resolver sd) = None)) (base +:+ ".resolver") "split_dns.resolver"
       (Errorf "resolver must be an IP, got %q" [sc_Resolver sd])).

Definition check_list (base : string) (seen : gset string) (l : ListConfig) : list diagnostic :=
  (if TrimSpace (lc_Name l) =s? "" then err_if true (base +:+ ".name") "lists.name" (Errorf "list name is required" [])
   else err_if (bool_decide (lc_Name l ∈ seen)) (base +:+ ".name") "lists.name" (Errorf "duplicate list name %q" [lc_Name l])) ++
  err_if ((lc_Source l =s? "") && bool_decide (lc_Static l = [])) base "lists"
    (Errorf "list %q must have either static entries or a remote source" [lc_Name l]) ++
  (indexed (lc_Static l) ≫= fun '(j, e) =>
     err_if (negb (isCIDROrIP e)) (base +:+ ".static[" +:+ pretty (j : Z) +:+ "]") "lists.static" (Errorf "invalid CIDR/IP %q" [e])) ++
  (if lc_Source l =s? "" then []
   else err_if (not_https (lc_Source l)) (base +:+ ".source") "lists.source" (Errorf "remote list source must be an https URL, got %q" [lc_Source l]) ++
        checkDuration (base +:+ ".refresh") "lists.refresh" (lc_Refresh l)).

(** The names seen so far: a blank one is not recorded. *)
Definition see (name : string) (seen : gset string) : gset string := if TrimSpace name =s? "" then seen else {[name]} ∪ seen.

Fixpoint check_lists (i : Z) (seen : gset string) (ls : list ListConfig) : list diagnostic :=
  match ls with
  | [] => []
  | l :: ls' => check_list ("lists[" +:+ pretty i +:+ "]") seen l ++ check_lists (i + 1) (see (lc_Name l) seen) ls'
  end.

Definition known_lists (ls : list ListConfig) : gset string := fold_left (fun k l => see (lc_Name l) k) ls ∅.

Definition check_profile (platform base : string) (known seen : gset string) (p : ProfileConfig) : list diagnostic :=
  (if TrimSpace (pc_Name p) =s? "" then err_if true (base +:+ ".name") "profiles.name" (Errorf "profile name is required" [])
   else err_if (bool_decide (pc_Name p ∈ seen)) (base +:+ ".name") "profiles.name" (Errorf "duplicate profile name %q" [pc_Name p])) ++
  file_profile platform base (fun ref => bool_decide (ref ∈ known)) p.

Fixpoint check_profiles (platform : string) (known : gset string) (i : Z) (seen : gset string) (ps : list ProfileConfig) : list diagnostic :=
  match ps with
  | [] => []
  | p :: ps' => check_profile platform ("profiles[" +:+ pretty i +:+ "]") known seen p ++ check_profiles platform known (i + 1) (see (pc_Name p) seen) ps'
  end.

Definition validate_diags (c : FileConfig) (platform : string) : list diagnostic :=
  err_if (negb (fc_Version c =? 1)) "version" "version" (Errorf "unsupported config version %d (expected 1)" [pretty (fc_Version c)]) ++
  check_settings (fc_Settings c) ++ check_lists 0 ∅ (fc_Lists c) ++
  check_profiles platform (known_lists (fc_Lists c)) 0 ∅ (fc_Profiles c).

Definition validate (c : FileConfig) (lines : option (gmap string Z)) (platform : string) : list Issue :=
  slice_stable (fun a b => iss_Line a <? iss_Line b)
    (map (fun d => mkConfigIssue (dg_sev d) (lineOf lines (dg_path d)) (dg_field d) (dg_msg d)) (validate_diags c platform)).

End file.

(** ** Lines of a YAML document *)

Inductive YKind : Type := DocumentNode | SequenceNode | MappingNode | ScalarNode | AliasNode.
Inductive YNode : Type := mkNode (kind : YKind) (value : string) (line : Z) (content : list YNode).

Definition nd_Value (n : YNode) : string := let '(mkNode _ v _ _) := n in v.
Definition nd_Line (n : YNode) : Z := let '(mkNode _ _ l _) := n in l.

Fixpoint walk (prefix : string) (n : YNode) (idx : gmap string Z) {struct n} : gmap string Z :=
  let '(mkNode kind _ line content) := n in
  match kind with
  | DocumentNode =>
      (fix go l idx := match l with [] => idx | c :: l' => go l' (walk prefix c idx) end) content idx
  | MappingNode =>
      (fix go l idx :=
         match l with
         | k :: v :: l' =>
             let path := if prefix =s? "" then nd_Value k else prefix +:+ "." +:+ nd_Value k in
             go l' (walk path v (<[path := nd_Line k]> idx))
         | _ => idx
         end) content idx
  | SequenceNode =>
      (fix go (i : Z) l idx :=
         match l with
         | [] => idx
         | c :: l' => let path := prefix +:+ "[" +:+ pretty i +:+ "]" in go (i + 1) l' (walk path c (<[path := nd_Line c]> idx))
         end) 0 content idx
  | ScalarNode => if prefix =s? "" then idx else <[prefix := line]> idx
  | AliasNode => idx
  end.

Definition buildLineIndex (root : YNode) : gmap string Z := walk "" root ∅.

(** ** Parsing *)

Inductive Format : Type := FormatYAML | FormatTOML.

Fixpoint HasSuffix (s suffix : string) : bool :=
  (s =s? suffix) || match s with String _ s' => HasSuffix s' suffix | EmptyString => false end.

Definition DetectFormat (path : string) : Format := if HasSuffix path ".toml" then FormatTOML else FormatYAML.

Section parse.
Context (url_scheme : string -> option string) (ParseDuration : string -> option Z).
(** The decoders: TOML; YAML text to its tree, and a tree to the config. A
    YAML error comes with the line its message names. *)
Context (toml_Unmarshal : string -> error + FileConfig) (yaml_Unmarshal : string -> error * Z + YNode)
  (yaml_Decode : YNode -> error * Z + FileConfig).

Definition parse_failed (line : Z) (what : string) (e : error) : option FileConfig * list Issue :=
  (None, [mkConfigIssue SevError line "" (Wrapf (what +:+ " error: %w") [] e)]).

Definition ParseBytes (data : string) (format : Format) (platform : string) : option FileConfig * list Issue :=
  let checked cfg lines := (Some cfg, validate url_scheme ParseDuration cfg lines platform) in
  match format with
  | FormatTOML => match toml_Unmarshal data with inl e => parse_failed 0 "TOML parse" e | inr cfg => checked cfg None end
  | FormatYAML =>
      match yaml_Unmarshal data with
      | inl (e, line) => parse_failed line "YAML parse" e
      | inr root => match yaml_Decode root with
                    | inl (e, line) => parse_failed line "YAML decode" e
                    | inr cfg => checked cfg (Some (buildLineIndex root))
                    end
      end
  end.

(** [read]: the file's bytes, or why it could not be read. *)
Definition ParseFile (read : error + string) (path platform : string) : error + option FileConfig * list Issue :=
  match read with
  | inl e => inl (Wrapf "read config: %w" [] e)
  | inr data => inr (ParseBytes data (DetectFormat path) platform)
  end.

End parse.

(** ** A list's text (lists.go) *)

Definition maxLine : Z := 1024 * 1024.

(** [bufio.Scanner]: lines without their end, up to the first that does not
    fit its buffer. *)
Fixpoint fitting (limit : Z) (lines : list string) : list string :=
  match lines with
  | [] => []
  | l :: lines' => if Z.of_nat (String.length l) <? limit then l :: fitting limit lines' else []
  end.

(** The text before the first space, tab, [#] or [;]. *)
Fixpoint before_comment (s : string) : string :=
  match s with
  | EmptyString => ""
  | String c s' => if (code c =? 32) || (code c =? 9) || (code c =? 35) || (code c =? 59) then "" else String c (before_comment s')
  end.

Definition normalize (s : string) : option string :=
  match ParsePrefix s with
  | Some p => Some (prefix_String (Masked p))
  | None => addr_String <$> ParseAddr s
  end.

(** One line; a comment leaves nothing, and nothing does not parse. *)
Definition parse_entry (line : string) : option string := normalize (TrimSpace (before_comment (TrimSpace line))).

Definition ParseEntries (data : string) : list string := omap parse_entry (fitting maxLine (split_lines data)).

Definition MaxBytes : Z := 8 * 1024 * 1024.

(** The whole download: [newRequest] is why the request cannot be made, [get]
    its status and the bytes its body gives up to one past the limit, or why
    reading broke off before. *)
Definition Fetch (newRequest : string -> option error) (get : string -> error + Z * (error + string)) (sha256_hex : string -> string) (source : string)
    : error + list string * string :=
  if negb (HasPrefix source "https://") then inl (Errorf "remote list source must be an https URL, got %q" [source])
  else match newRequest source with
       | Some e => inl e
       | None =>
           match get source with
           | inl e => inl (Wrapf "fetch list: %w" [] e)
           | inr (status, body) =>
               if negb (status =? 200) then inl (Errorf "fetch list: HTTP %d" [pretty status])
               else match body with
                    | inl e => inl e
                    | inr data => if MaxBytes <? Z.of_nat (String.length data) then inl (Errorf "remote list exceeds %d bytes" [pretty MaxBytes])
                                  else inr (ParseEntries data, sha256_hex data)
                    end
           end
       end.

(** ** Lemmas *)

Definition dg_error (d : diagnostic) : bool := match dg_sev d with SevError => true | SevWarning => false end.
Definition errs (l : list diagnostic) : bool := existsb dg_error l.

Lemma HasErrors_unlined l : HasErrors (map unlined l) = errs l.
Proof. induction l as [|d l IH]; [done|]. unfold HasErrors, errs in *. cbn [map existsb]. by rewrite IH. Qed.

Lemma errs_app l1 l2 : errs (l1 ++ l2) = errs l1 || errs l2.
Proof. apply existsb_app. Qed.

Lemma errs_err_if b path field e : errs (err_if b path field e) = b.
Proof. by destruct b. Qed.

Lemma errs_bind {A} (f : A -> list diagnostic) l : errs (l ≫= f) = existsb (fun x => errs (f x)) l.
Proof. induction l as [|x l IH]; [done|]. cbn. by rewrite errs_app, IH. Qed.

Lemma existsb_ext {A} (f g : A -> bool) l : (forall x, f x = g x) -> existsb f l = existsb g l.
Proof. intros H. induction l as [|x l IH]; [done|]. cbn. by rewrite H, IH. Qed.

Lemma errs_binds {A} (f : A -> list diagnostic) (g : A -> bool) l : (forall x, errs (f x) = g x) -> errs (l ≫= f) = existsb g l.
Proof. intros H. rewrite errs_bind. by apply existsb_ext. Qed.

Lemma existsb_imap {A B} (h : nat -> A -> B) (g : B -> bool) (f : A -> bool) l :
  (forall i x, g (h i x) = f x) -> existsb g (imap h l) = existsb f l.
Proof. revert h. induction l as [|x l IH]; intros h H; [done|]. rewrite imap_cons. cbn. by rewrite H, (IH (h ∘ S)) by (intros; apply H). Qed.

Lemma existsb_indexed {A} (f : A -> bool) (l : list A) : existsb (fun '(_, x) => f x) (indexed l) = existsb f l.
Proof. by apply existsb_imap. Qed.

Lemma errs_indexed {A} (f : Z * A -> list diagnostic) (g : A -> bool) l :
  (forall j x, errs (f (j, x)) = g x) -> errs (indexed l ≫= f) = existsb g l.
Proof.
  intros H. rewrite errs_bind, <- (existsb_indexed g l). apply existsb_ext. intros [j x]. apply H.
Qed.

Lemma existsb_map {A B} (f : A -> B) (g : B -> bool) l : existsb g (map f l) = existsb (fun x => g (f x)) l.
Proof. induction l as [|x l IH]; [done|]. cbn. by rewrite IH. Qed.

(** Whether a rule is refused. *)
Definition rule_bad (type value : string) : bool :=
  (TrimSpace value =s? "") ||
  (if type =s? "cidr" then negb (bool_decide (is_Some (ParsePrefix value)))
   else if type =s? "ip" then negb (bool_decide (is_Some (ParseAddr value)))
   else if type =s? "domain" then negb (isValidDomain value)
   else if type =s? "asn" then negb (reASN value)
   else if type =s? "country" then negb (reCountry value)
   else negb (type =s? "app")).

Lemma errs_rule base type value : errs (validateRule base type value) = rule_bad type value.
Proof. unfold validateRule, rule_bad. repeat (case_match; try done). Qed.

Definition tunnel_bad (mode tunnel : string) (types : list string) : bool :=
  (if mode =s? "tunnel" then TrimSpace tunnel =s? "" else negb (TrimSpace tunnel =s? "")) ||
  (mode =s? "tunnel") && existsb (fun t => t =s? "app") types.

Lemma errs_tunnel (f : string * error -> diagnostic) mode tunnel types :
  (forall x, dg_sev (f x) = SevError) -> errs (map f (tunnelModeIssues mode tunnel types)) = tunnel_bad mode tunnel types.
Proof.
  intros Hf. assert (forall l, errs (map f l) = negb (bool_decide (l = []))) as Hn.
  { intros [|x l]; [done|]. cbn. unfold dg_error. by rewrite Hf. }
  rewrite Hn. unfold tunnelModeIssues, tunnel_bad. destruct (mode =s? "tunnel"); cbn [andb negb].
  - destruct (TrimSpace tunnel =s? ""); [done|]. cbn [app orb]. rewrite <- (existsb_indexed (fun t => t =s? "app")).
    induction (indexed types) as [|[j t] l IH]; [done|]. cbn. destruct (t =s? "app"); [done|]. apply IH.
  - by destruct (TrimSpace tunnel =s? "").
Qed.

(** The errors of a profile, whichever way it comes in: without those of its
    name, its id and its lists. *)
Definition body_bad (platform mode tunnel gateway : string) (rules : list (string * string)) : bool :=
  mode_bad mode || tunnel_bad mode tunnel (map fst rules) ||
  (mode =s? "include") && (platform =s? "darwin") && existsb (fun '(t, v) => (t =s? "app") && negb (v =s? "") && negb (IsUIDLike v)) rules ||
  (mode =s? "exclude") && existsb (fun '(t, v) => t =s? "app") rules ||
  gateway_bad gateway || existsb (fun '(t, v) => rule_bad t v) rules.

Lemma errs_if (b : bool) l : errs (if b then l else []) = b && errs l.
Proof. by destruct b. Qed.

Lemma errs_warning (b : bool) path field e : errs (if b then [mkDiag SevWarning path field e] else []) = false.
Proof. by destruct b. Qed.

Lemma errs_file platform base known p :
  errs (file_profile platform base known p) =
  body_bad platform (mode_or (pc_Mode p)) (pc_Tunnel p) (pc_Gateway p) (map (fun r => (rc_Type r, rc_Value r)) (pc_Rules p)) ||
  existsb (fun ref => negb (known ref)) (pc_Lists p).
Proof.
  unfold file_profile, body_bad. cbv zeta. rewrite !errs_app, errs_warning, !errs_if, !errs_err_if.
  rewrite (errs_tunnel (fun '(f, e) => _)) by (by intros []).
  do 2 (rewrite (errs_indexed _ _ _ (fun _ _ => errs_err_if _ _ _ _))). rewrite (errs_indexed _ _ _ (fun _ _ => errs_rule _ _ _)).
  rewrite (errs_binds _ _ _ (fun _ => errs_err_if _ _ _ _)).
  rewrite !map_map, !existsb_map. cbn [fst snd orb]. change (fun x : RuleConfig => rc_Type x) with rc_Type. btauto.
Qed.

Lemma errs_single p platform k :
  errs (profile_diags p platform k) =
  (TrimSpace (pf_Name p) =s? "") || HasPrefix (pf_ID p) TunnelProfilePrefix ||
  body_bad platform (mode_or (pf_Mode p)) (pf_Tunnel p) (pf_Gateway p) (map (fun r => (r_Type r, r_Value r)) (pf_Rules p)) ||
  existsb (fun ref => match k with Some k => negb (bool_decide (ref ∈ k)) | None => false end) (pf_Lists p).
Proof.
  unfold profile_diags, body_bad. cbv zeta. rewrite !errs_app, errs_warning, !errs_if, !errs_err_if.
  rewrite (errs_tunnel (fun '(f, e) => _)) by (by intros []).
  rewrite (errs_indexed _ _ _ (fun _ _ => errs_rule _ _ _)).
  do 3 (rewrite (errs_binds _ _ _ (fun _ => errs_err_if _ _ _ _))).
  rewrite !map_map, !existsb_map. cbn [fst snd orb]. unfold RuleApp. change (fun x : Rule => r_Type x) with r_Type. btauto.
Qed.
