(* ===== verification/ConfigFacts.v ===== *)
(** * What the configuration checks promise

    An accepted profile never makes the route builder fail on its own text;
    the builder of the desktop app and the file accept the same profiles; an
    export of what was accepted is accepted again and reads back; an accepted
    list's entries all reach the engine. *)

From Stdlib Require Import Ascii Btauto.
From S2P Require Import Prelude.
From S2P Require Import Netip NetipText Domain Nets Input Tunnels Engine Provider Netmon Killswitch Pfconf Update Text Config.

(** ** Errors of a fold *)

Lemma fold_err_inl {E A B} (f : A -> B -> E + A) l a e :
  fold_err f l a = inl e -> exists a' b, b ∈ l /\ f a' b = inl e.
Proof.
  revert a. induction l as [|b l IH]; intros a; [done|]. simpl. destruct (f a b) eqn:Ef; simpl.
  - intros [= ->]. exists a, b. split; [by left|done].
  - intros (a' & b' & Hb & H)%IH. exists a', b'. split; [by right|done].
Qed.

(** ** Accepted profiles and the engine *)

(** What the host lacks: policy routing, a tunnel's interface or a gateway of
    its own. *)
Definition environmental (e : build_error) : Prop :=
  match e with
  | ErrNoPolicyRouting _ | ErrDarwinNoTunnel _ _ | ErrDarwinAppNoTunnel _ _ | ErrNoTunnel _ | ErrProfileGateway _ (GwNone _) => True
  | ErrDarwinApp _ _ | ErrProfileGateway _ (GwInvalid _ | GwFamily _ _) => False
  end.

(** A mistake of the profile's own that no check looks for: it names a gateway by
    address and has destinations of the other family. *)
Definition gateway_family (inp : DesiredInput) (p : Profile) (e : build_error) : Prop :=
  exists a fam d l, ParseAddr (pf_Gateway p) = Some a /\ fam <> famOf a /\ profilePrefixes p inp !! fam = Some (d :: l) /\
    e = ErrProfileGateway (pf_Name p) (GwFamily (pf_Gateway p) fam).

Definition mismatched (inp : DesiredInput) (e : build_error) : Prop :=
  exists p, p ∈ in_Profiles inp /\ pf_Mode p <> ModeInclude /\ gateway_family inp p e.

Definition profile_accepted (p : Profile) (platform : string) (k : option (gset string)) : Prop := HasErrors (ValidateProfile p platform k) = false.

Lemma accepted_body p platform k :
  profile_accepted p platform k ->
  body_bad platform (mode_or (pf_Mode p)) (pf_Tunnel p) (pf_Gateway p) (map (fun r => (r_Type r, r_Value r)) (pf_Rules p)) = false.
Proof.
  unfold profile_accepted, ValidateProfile. rewrite HasErrors_unlined, errs_single. intros H.
  apply orb_false_elim in H as [H _]. by apply orb_false_elim in H as [_ H].
Qed.

Lemma existsb_perm {A} (f : A -> bool) l1 l2 : l1 ≡ₚ l2 -> existsb f l1 = existsb f l2.
Proof. induction 1; cbn; [done|congruence|btauto|congruence]. Qed.

Lemma existsb_elem {A} (f : A -> bool) l x : existsb f l = false -> x ∈ l -> f x = false.
Proof.
  intros H Hx. destruct (f x) eqn:E; [|done]. rewrite <- H. symmetry. apply existsb_exists. exists x.
  split; [by apply list_elem_of_In|done].
Qed.

(** A body without errors, part by part. *)
Record body_ok (platform mode tunnel gateway : string) (rules : list (string * string)) : Prop := mkBodyOk {
  bo_mode : mode_bad mode = false;
  bo_tunnel : tunnel_bad mode tunnel (map fst rules) = false;
  bo_uid : mode = "include" -> platform = "darwin" -> forall v, ("app", v) ∈ rules -> v = "" \/ IsUIDLike v = true;
  bo_app : mode = "exclude" -> forall v, ("app", v) ∉ rules;
  bo_gateway : gateway_bad gateway = false;
  bo_rules : forall t v, (t, v) ∈ rules -> rule_bad t v = false;
}.

Lemma body_ok_intro platform mode tunnel gateway rules :
  body_bad platform mode tunnel gateway rules = false -> body_ok platform mode tunnel gateway rules.
Proof.
  unfold body_bad. intros H. apply orb_false_elim in H as [H Hr]. apply orb_false_elim in H as [H Hg].
  apply orb_false_elim in H as [H Ha]. apply orb_false_elim in H as [H Hu]. apply orb_false_elim in H as [Hm Ht].
  constructor; [done|done| | |done|].
  - intros -> -> v Hv. simpl in Hu. pose proof (existsb_elem _ _ _ Hu Hv) as H. cbn beta iota in H. simpl in H.
    destruct (String.eqb_spec v ""); [by left|]. right. by destruct (IsUIDLike v).
  - intros -> v Hv. simpl in Ha. by pose proof (existsb_elem _ _ _ Ha Hv).
  - intros t v Hv. exact (existsb_elem _ _ _ Hr Hv).
Qed.

Lemma accepted_gateway p platform k fam inp :
  profile_accepted p platform k -> resolveGateway (pf_Gateway p) fam inp <> inl (GwInvalid (pf_Gateway p)).
Proof.
  intros H%accepted_body%body_ok_intro%bo_gateway. unfold resolveGateway. unfold gateway_bad in H.
  destruct (fam =s? FamilyV6); cbv beta iota; (destruct (pf_Gateway p =s? ""), (pf_Gateway p =s? "auto"); cbn [orb negb andb] in *;
    [case_if; done..|]; apply bool_decide_eq_false in H; destruct (ParseAddr (pf_Gateway p)); [case_if; done|done]).
Qed.

Lemma resolveGateway_invalid gw g fam inp : resolveGateway gw fam inp = inl (GwInvalid g) -> g = gw.
Proof. unfold resolveGateway. repeat case_match; congruence. Qed.

Lemma accepted_resolve fam inp p nets l err k :
  profile_accepted p (in_Platform inp) k -> profilePrefixes p inp !! fam = Some l -> outsideTunnels (outsideTunnels l nets) (in_Tailscale inp) <> [] ->
  resolveGateway (pf_Gateway p) fam inp = inl err ->
  environmental (ErrProfileGateway (pf_Name p) err) \/ gateway_family inp p (ErrProfileGateway (pf_Name p) err).
Proof.
  intros Hp Hl Hne E. destruct err as [|g|g fam']; [by left| |].
  - pose proof (resolveGateway_invalid _ _ _ _ E) as ->. by apply (accepted_gateway p (in_Platform inp) k fam inp Hp) in E.
  - right. revert E. unfold resolveGateway. destruct (if fam =s? FamilyV6 then _ else _) as [??]. case_if; [by case_if|].
    destruct (ParseAddr (pf_Gateway p)) as [x|] eqn:Ex; [|done]. destruct (String.eqb_spec (famOf x) fam) as [|Hn]; [done|]. intros [= <- <-].
    destruct l as [|d l]; [by destruct nets, (in_Tailscale inp)|]. exists x, fam, d, l. split_and!; [done|congruence|done..].
Qed.

Lemma accepted_exclude fam_order inp p nets st e k :
  profile_accepted p (in_Platform inp) k -> exclude_profile fam_order inp p nets st = inl e -> environmental e \/ gateway_family inp p e.
Proof.
  intros Hp. unfold exclude_profile, try. set (Q err := environmental (ErrProfileGateway (pf_Name p) err) \/ gateway_family inp p (ErrProfileGateway (pf_Name p) err)).
  assert (forall x ent, ent ∈ range_fams fam_order (profilePrefixes p inp) ->
    match exclude_family inp p nets x ent with
    | inl e => exists err, e = ErrProfileGateway (pf_Name p) err /\ Q err
    | inr x' => x_err x' = x_err x \/ exists err, x_err x' = Some err /\ Q err
    end) as Hstep.
  { intros x [fam l] Hl%elem_of_range_fams. unfold exclude_family. destruct (length _ =? 0)%nat eqn:E; [by left|].
    destruct (resolveGateway _ _ _) as [err|[??]] eqn:Er; [|by left].
    assert (Q err) as HQ. { eapply accepted_resolve; [done..| |done]. intros Hn. by rewrite Hn in E. }
    case_if; [right|]; by exists err. }
  destruct (fold_err _ _ _) as [e'|x] eqn:E.
  - intros [= ->]. apply fold_err_inl in E as (x & ent & He & E). specialize (Hstep x ent He). rewrite E in Hstep. by destruct Hstep as (err & -> & HQ).
  - assert (forall err, x_err x = Some err -> Q err) as Hx.
    { revert E. apply (fold_err_ind (fun x => forall err, x_err x = Some err -> Q err)); [|done].
      intros a ent a' He Ha Hs err. specialize (Hstep a ent He). rewrite Hs in Hstep. destruct Hstep as [->|(err' & -> & HQ)]; [apply Ha|by intros [= <-]]. }
    destruct (x_err x); [|done]. case_if; [|done]. intros [= <-]. by apply Hx.
Qed.

Lemma accepted_darwin fam_order inp p byF st e k :
  profile_accepted p (in_Platform inp) k -> in_Platform inp = "darwin" -> pf_Mode p = ModeInclude ->
  buildDarwinInclude fam_order inp p byF st = inl e -> environmental e.
Proof.
  intros Hp%accepted_body%body_ok_intro Hd Hm. unfold buildDarwinInclude, try. destruct (fold_err _ (range_fams _ _) _) eqn:E.
  - intros [= <-]. apply fold_err_inl in E as (? & [fam l] & _ & E). apply fold_err_inl in E as (? & pfx & _ & E).
    destruct (pf_rule _ _ _); [done|]. by injection E as <-.
  - intros (a & r & Hr & E')%fold_err_inl. revert E'. unfold darwin_app.
    destruct (String.eqb_spec (r_Type r) RuleApp) as [Et|]; [|done]. cbn [negb].
    destruct (IsUIDLike (r_Value r)) eqn:Eu; cbn [negb].
    + destruct (fold_left _ _ _) as [? []]; [done|]. by intros [= <-].
    + exfalso. assert (("app", r_Value r) ∈ map (fun r => (r_Type r, r_Value r)) (pf_Rules p)) as Hin.
      { apply list_elem_of_fmap. exists r. by rewrite Et. }
      pose proof (bo_rules _ _ _ _ _ Hp _ _ Hin) as Hb.
      destruct (bo_uid _ _ _ _ _ Hp) with (v := r_Value r) as [Hv|Hv]; [by rewrite Hm|done|done| |congruence].
      by rewrite Hv in Hb.
Qed.

(** Once the checks accepted every profile for the host's platform, an error of
    [BuildDesired] is about the host (no policy routing, no tunnel interface, no
    gateway of the family), or a profile names a gateway of another family than
    a destination of its own; never a gateway that does not parse nor an app rule
    that macOS cannot match. *)
Theorem accepted_profiles_build fam_order inp k e :
  Forall (fun p => profile_accepted p (in_Platform inp) k) (in_Profiles inp) ->
  BuildDesired fam_order inp = inl e -> environmental e \/ mismatched inp e.
Proof.
  intros Hall. unfold BuildDesired, try at 1. destruct (build_set fam_order inp) as [e'|st] eqn:E; [|by destruct (BesideTailscale _ _ _)].
  intros [= ->]. revert E. unfold build_set, try at 1. destruct (fold_err (build_profile _ _ _) _ _) as [e'|st] eqn:E.
  - intros [= ->]. apply fold_err_inl in E as (st & p & Hp & E).
    assert (p ∈ in_Profiles inp) as Hin by (revert Hp; unfold by_priority; by rewrite slice_stable_perm).
    assert (profile_accepted p (in_Platform inp) k) as Ha by (rewrite Forall_forall in Hall; by apply Hall).
    revert E. unfold build_profile. case_if; [done|]. destruct (String.eqb_spec (pf_Mode p) ModeInclude) as [Em|].
    + case_if; [intros [= <-]; by left|]. cbv zeta. destruct (String.eqb_spec (in_Platform inp) "darwin"); [|done]. left. by eapply accepted_darwin.
    + intros E. destruct (accepted_exclude _ _ _ _ _ _ _ Ha E) as [|Hg]; [by left|]. right. by exists p.
  - destruct (place _ _) as [??]. cbv zeta. intros (? & fam & _ & E')%fold_err_inl. revert E'. unfold build_default.
    destruct (vpnFor fam inp) as [??]. case_if; [|done]. intros [= <-]. by left.
Qed.

(** ** The file and the builder agree *)

(** what the desktop builder checks is what the file is checked for: a
    profile passes [ValidateProfile] exactly when it has a name, does not use
    a tunnel's reserved id, and its entry in a file passes the file's checks
    (whatever its place in the file), the lists it may name being the same. *)
Theorem builder_agrees_with_file p platform base known :
  HasErrors (ValidateProfile p platform (Some known)) =
  (TrimSpace (pf_Name p) =s? "") || HasPrefix (pf_ID p) TunnelProfilePrefix ||
  HasErrors (map unlined (file_profile platform base (fun ref => bool_decide (ref ∈ known)) (profile_config p))).
Proof.
  unfold ValidateProfile. rewrite !HasErrors_unlined, errs_single, errs_file. unfold profile_config. cbn [pc_Mode pc_Tunnel pc_Gateway pc_Rules pc_Lists].
  rewrite map_map. cbn [rule_config rc_Type rc_Value]. by rewrite <- !orb_assoc.
Qed.

(** ** Export and import *)

Section export.
Context (url_scheme : string -> option string) (ParseDuration : string -> option Z).

Definition list_bad (static : list string) (source refresh : string) : bool :=
  (source =s? "") && bool_decide (static = []) || existsb (fun e => negb (isCIDROrIP e)) static ||
  negb (source =s? "") && (not_https url_scheme source || bad_duration ParseDuration refresh).

Lemma errs_unless (b : bool) l : errs (if b then [] else l) = negb b && errs l.
Proof. by destruct b. Qed.

Lemma errs_check_list base seen l :
  errs (check_list url_scheme ParseDuration base seen l) =
  (TrimSpace (lc_Name l) =s? "") || bool_decide (lc_Name l ∈ seen) && negb (TrimSpace (lc_Name l) =s? "") || list_bad (lc_Static l) (lc_Source l) (lc_Refresh l).
Proof.
  unfold check_list, list_bad, checkDuration. rewrite !errs_app, errs_unless, errs_app, !errs_err_if.
  rewrite (errs_indexed _ _ _ (fun _ _ => errs_err_if _ _ _ _)). destruct (TrimSpace (lc_Name l) =s? ""); rewrite ?errs_err_if; btauto.
Qed.

Lemma errs_validate_list l :
  HasErrors (ValidateList url_scheme ParseDuration l) = (TrimSpace (nl_Name l) =s? "") || list_bad (nl_Static l) (nl_Source l) (nl_Refresh l).
Proof.
  unfold ValidateList, list_bad. rewrite HasErrors_unlined, !errs_app, errs_unless, errs_app, !errs_err_if.
  rewrite (errs_binds _ _ _ (fun _ => errs_err_if _ _ _ _)). btauto.
Qed.

Lemma elem_of_see name n seen : TrimSpace name <> "" -> n ∈ see name seen <-> n = name \/ n ∈ seen.
Proof. intros H. unfold see. rewrite (proj2 (String.eqb_neq _ _) H). set_solver. Qed.

Definition list_accepted (l : NamedList) : Prop := HasErrors (ValidateList url_scheme ParseDuration l) = false.

Lemma listed_name l : list_accepted l -> TrimSpace (nl_Name l) <> "".
Proof. unfold list_accepted. rewrite errs_validate_list. intros [H _]%orb_false_elim. by apply String.eqb_neq in H. Qed.

Lemma check_lists_ok ls : forall i seen, Forall list_accepted ls -> NoDup (map nl_Name ls) -> (forall l, l ∈ ls -> nl_Name l ∉ seen) ->
  errs (check_lists url_scheme ParseDuration i seen (map list_config ls)) = false.
Proof.
  induction ls as [|l ls IH]; intros i seen Hl Hn Hs; [done|]. apply Forall_cons in Hl as [Hl Hls].
  apply NoDup_cons in Hn as [Hn Hnd]. cbn [map check_lists]. rewrite errs_app, errs_check_list. cbn [list_config lc_Name lc_Static lc_Source lc_Refresh].
  pose proof (listed_name l Hl) as Hb. unfold list_accepted in Hl. rewrite errs_validate_list in Hl. apply orb_false_elim in Hl as [-> ->].
  rewrite bool_decide_eq_false_2 by (apply Hs; by left). cbn [orb andb]. apply IH; [done|done|].
  intros l' Hl'. rewrite elem_of_see by done. intros [E|Hin].
  - apply Hn. rewrite <- E. by apply list_elem_of_fmap_2.
  - revert Hin. apply Hs. by right.
Qed.

Lemma known_lists_of ls : Forall list_accepted ls -> known_lists (map list_config ls) ≡ list_to_set (map nl_Name ls).
Proof.
  intros H. unfold known_lists.
  enough (forall k, fold_left (fun k l => see (lc_Name l) k) (map list_config ls) k ≡ k ∪ list_to_set (map nl_Name ls)) as E by (rewrite E; set_solver).
  induction H as [|l ls Hl _ IH]; intros k; [set_solver|]. cbn [map fold_left list_to_set]. rewrite IH. intros n.
  rewrite !elem_of_union. cbn [list_config lc_Name]. rewrite elem_of_see by (by apply listed_name). set_solver.
Qed.

(** Accepted alone, a profile is accepted in the file that lists its lists. *)
Lemma check_profiles_ok platform known ps : forall i seen,
  Forall (fun p => profile_accepted p platform (Some known)) ps -> NoDup (map pf_Name ps) -> (forall p, p ∈ ps -> pf_Name p ∉ seen) ->
  errs (check_profiles platform known i seen (map profile_config ps)) = false.
Proof.
  induction ps as [|p ps IH]; intros i seen Hp Hn Hs; [done|]. apply Forall_cons in Hp as [Hp Hps].
  apply NoDup_cons in Hn as [Hn Hnd]. cbn [map check_profiles]. unfold check_profile. cbn [profile_config pc_Name].
  unfold profile_accepted, ValidateProfile in Hp. rewrite HasErrors_unlined, errs_single in Hp.
  apply orb_false_elim in Hp as [Hp Hl]. apply orb_false_elim in Hp as [Hp Hb]. apply orb_false_elim in Hp as [Hname _].
  rewrite !errs_app, errs_file, Hname, errs_err_if, bool_decide_eq_false_2 by (apply Hs; by left).
  cbn [pc_Mode pc_Tunnel pc_Gateway pc_Rules pc_Lists profile_config]. rewrite map_map. cbn [rule_config rc_Type rc_Value].
  rewrite Hb, Hl. cbn [orb]. apply IH; [done|done|].
  intros p' Hp'. rewrite elem_of_see by (by apply String.eqb_neq). intros [E|Hin].
  - apply Hn. rewrite <- E. by apply list_elem_of_fmap_2.
  - revert Hin. apply Hs. by right.
Qed.

Lemma accepted_ext p platform k1 k2 : k1 ≡ k2 -> profile_accepted p platform (Some k1) -> profile_accepted p platform (Some k2).
Proof.
  intros E. unfold profile_accepted, ValidateProfile. rewrite !HasErrors_unlined, !errs_single. intros H. rewrite <- H. f_equal.
  apply existsb_ext. intros x. f_equal. apply bool_decide_ext. by rewrite E.
Qed.

(** ** Blank text *)

Lemma TrimRight_blank s : TrimRight s = "" -> str_forall is_space s = true.
Proof.
  induction s as [|c s IH]; [done|]. cbn. destruct (TrimRight s) as [|d t] eqn:E; [|done].
  destruct (is_space c); [|done]. intros _. by apply IH.
Qed.

Lemma TrimSpace_blank s : TrimSpace s = "" -> str_forall is_space s = true.
Proof.
  unfold TrimSpace. induction s as [|c s IH]; [done|]. cbn [TrimLeft str_forall]. destruct (is_space c) eqn:E; [by intros H; rewrite IH|].
  intros H%TrimRight_blank. cbn in H. by rewrite E in H.
Qed.

Lemma ParseAddr_blank s : str_forall is_space s = true -> ParseAddr s = None.
Proof.
  intros H. unfold ParseAddr. enough (addr_kind s = None) as -> by done.
  induction s as [|c s IH]; [done|]. cbn [str_forall] in H. apply andb_prop in H as [Hc Hs]. cbn [addr_kind].
  rewrite IH by done. destruct (Ascii.eqb_spec c dot) as [->|]; [done|]. destruct (Ascii.eqb_spec c colon) as [->|]; [done|].
  by destruct (Ascii.eqb_spec c percent) as [->|].
Qed.

Lemma gateway_ok_nonblank g : gateway_bad g = false -> TrimSpace g <> "" \/ g = "".
Proof.
  unfold gateway_bad. destruct (String.eqb_spec g ""); [by right|]. destruct (String.eqb_spec g "auto") as [->|]; [by left|].
  cbn. intros H%bool_decide_eq_false. left. intros Ht. by apply H, ParseAddr_blank, TrimSpace_blank.
Qed.

(** ** What comes back *)

(** A stored profile read back from its export: its id is the file's, what was
    left to the default is spelled out. *)
Definition read_back (p : Profile) : Profile :=
  mkProfile ("cfg:" +:+ pf_Name p) (pf_Name p) (pf_Description p) (pf_Enabled p) (mode_or (pf_Mode p))
    (if pf_Gateway p =s? "" then "auto" else pf_Gateway p) (pf_Priority p) (pf_Rules p) (pf_Lists p) (pf_IPVersion p) (TrimSpace (pf_Tunnel p)).

Lemma orDefault_nonblank v def : TrimSpace v <> "" \/ v = "" -> orDefault v def = if v =s? "" then def else v.
Proof.
  unfold orDefault. intros [H | ->]; [|done]. rewrite (proj2 (String.eqb_neq _ _) H). by destruct (String.eqb_spec v "") as [->|].
Qed.

Lemma mode_ok_nonblank m : mode_bad (mode_or m) = false -> TrimSpace m <> "" \/ m = "".
Proof.
  unfold mode_bad, mode_or. destruct (String.eqb_spec m ""); [by right|]. intros H. left.
  destruct (String.eqb_spec m "exclude") as [->|]; [done|]. destruct (String.eqb_spec m "include") as [->|]; [done|].
  by destruct (String.eqb_spec m "tunnel") as [->|].
Qed.

Lemma profile_read_back p platform k : profile_accepted p platform k -> profile_of (profile_config p) = read_back p.
Proof.
  intros H%accepted_body%body_ok_intro. unfold profile_of, profile_config, read_back.
  cbn [pc_Name pc_Description pc_Enabled pc_Mode pc_Gateway pc_Priority pc_Rules pc_Lists pc_IPVersion pc_Tunnel].
  rewrite orDefault_nonblank by (apply mode_ok_nonblank, (bo_mode _ _ _ _ _ H)).
  rewrite orDefault_nonblank by (apply gateway_ok_nonblank, (bo_gateway _ _ _ _ _ H)).
  rewrite map_map. f_equal. rewrite <- (map_id (pf_Rules p)) at 2. apply map_ext. by intros [].
Qed.

Definition split_dns_ok (s : SplitDNSRoute) : Prop := isValidDomain (sd_Domain s) = true /\ ParseAddr (sd_Resolver s) <> None.
Definition prefs_ok (o : option Preferences) : Prop :=
  match o with Some p => UpdateMode_Valid (pf_Updates p) = true /\ TelemetryLevel_Valid (pf_Telemetry p) = true | None => True end.

Lemma update_mode_trim v : UpdateMode_Valid v = true -> UpdateMode_Valid (TrimSpace v) = true.
Proof. unfold UpdateMode_Valid. rewrite !orb_true_iff, !String.eqb_eq. intros [[-> | ->] | ->]; vm_compute; auto. Qed.

Lemma telemetry_trim v : TelemetryLevel_Valid v = true -> TelemetryLevel_Valid (TrimSpace v) = true.
Proof. unfold TelemetryLevel_Valid. rewrite !orb_true_iff, !String.eqb_eq. intros [[-> | ->] | ->]; vm_compute; auto. Qed.

Lemma check_settings_ok profiles lists splitDNS prefs :
  Forall split_dns_ok splitDNS -> prefs_ok prefs ->
  errs (check_settings ParseDuration (fc_Settings (FromDomain profiles lists splitDNS prefs))) = false.
Proof.
  intros Hs Hp. unfold check_settings, checkDuration.
  cbn [FromDomain fc_Settings se_IPVersion se_DefaultMode se_Updates se_Telemetry se_ConnectivityGuard se_SplitDNS cg_ConfirmTimeout cg_GuardWindow cg_Anchors].
  cbv zeta. rewrite !errs_app, !errs_err_if.
  rewrite (errs_indexed _ (fun sd => negb (isValidDomain (sc_Domain sd)) || bool_decide (ParseAddr (sc_Resolver sd) = None)))
    by (intros; by rewrite errs_app, !errs_err_if).
  rewrite existsb_map. repeat (apply orb_false_intro); try done.
  - destruct prefs as [p|]; [|done]. destruct Hp as [Hu _]. by rewrite (update_mode_trim _ Hu), andb_false_r.
  - destruct prefs as [p|]; [|done]. destruct Hp as [_ Ht]. by rewrite (telemetry_trim _ Ht), andb_false_r.
  - cbn. induction Hs as [|sd l [Hd Hr] _ IH]; [done|]. cbn. rewrite Hd, IH. by rewrite bool_decide_eq_false_2.
Qed.

Lemma HasErrors_validate c lines platform : HasErrors (validate url_scheme ParseDuration c lines platform) = errs (validate_diags url_scheme ParseDuration c platform).
Proof.
  unfold validate, HasErrors. set (l := map _ _). rewrite (existsb_perm is_error _ l) by apply slice_stable_perm.
  unfold l, errs. by rewrite existsb_map.
Qed.


End export.

(** ** A list's entries *)

Lemma entryToPrefix_some s : is_Some (entryToPrefix s) <-> isCIDROrIP s = true.
Proof.
  unfold entryToPrefix, isCIDROrIP. destruct (ParsePrefix s); [by split; [|eauto]|].
  destruct (ParseAddr s); [by split; [|eauto]|]. by split; [intros []|].
Qed.

Lemma normalize_usable s t : normalize s = Some t -> isCIDROrIP t = true.
Proof.
  unfold normalize, isCIDROrIP. destruct (ParsePrefix s) as [p|] eqn:E.
  - intros [= <-]. apply ParsePrefix_ok in E as [Hp Hv]. rewrite ParsePrefix_String; [done|by apply Masked_ok|by rewrite Masked_valid_iff].
  - destruct (ParseAddr s) as [a|] eqn:Ea; [|done]. intros [= <-]. apply ParseAddr_ok in Ea as [Ha Hv].
    rewrite (ParseAddr_String a) by done. by rewrite orb_true_r.
Qed.

(** every entry of an accepted list reaches the engine: whether it was
    written in the file or parsed from the fetched text, it names a valid
    prefix, so none is dropped silently when the profile's destinations are
    collected. *)
Theorem list_entries_usable url_scheme ParseDuration l data e :
  list_accepted url_scheme ParseDuration l -> nl_Resolved l = ParseEntries data -> e ∈ Entries l ->
  exists p fam, entryToPrefix e = Some (p, fam) /\ valid_prefix p /\ fam = famOf (p_addr p).
Proof.
  intros Hl Hr He. assert (isCIDROrIP e = true) as H.
  { revert He. unfold Entries. rewrite elem_of_app, Hr. intros [Hs|(s & _ & Hs)%list_elem_of_omap]; [|by eapply normalize_usable].
    unfold list_accepted in Hl. rewrite errs_validate_list in Hl. apply orb_false_elim in Hl as [_ Hl]. unfold list_bad in Hl.
    apply orb_false_elim in Hl as [Hl _]. apply orb_false_elim in Hl as [_ Hl]. pose proof (existsb_elem _ _ _ Hl Hs) as E.
    by apply negb_false_iff. }
  apply entryToPrefix_some in H as [[p fam] E]. exists p, fam. split; [done|]. by apply entryToPrefix_ok in E.
Qed.

(** ** Long lines *)

(** a line of 1 MiB or more ends a remote list: whatever follows it is not
    read, and nothing reports it. The other unreadable lines are skipped one by
    one. *)
Theorem long_line_ends_list l rest :
  str_forall (fun c => negb (Ascii.eqb c newline)) l = true -> maxLine <= Z.of_nat (String.length l) ->
  ParseEntries (l +:+ String newline rest) = [] /\
  (forall s, str_forall (fun c => negb (Ascii.eqb c newline)) s = true -> Z.of_nat (String.length s) < maxLine -> parse_entry s = None ->
     ParseEntries (s +:+ String newline rest) = ParseEntries rest).
Proof.
  intros Hl Hlen. unfold ParseEntries, split_lines. split.
  - rewrite split_lines_first by done. cbn. rewrite (proj2 (Z.ltb_ge _ _)) by done. done.
  - intros s Hs Hsl Hp. rewrite split_lines_first by done. cbn [fitting]. change ("" +:+ s) with s. rewrite (proj2 (Z.ltb_lt _ _)) by done.
    cbn. by rewrite Hp.
Qed.

(** A source the checks accept may still never be fetched: [url.Parse] lowers
    the scheme, [Fetch] compares it as written. *)
Lemma uppercase_source_accepted url_scheme ParseDuration newRequest get sha256_hex :
  url_scheme "HTTPS://lists.example/a" = Some "https" ->
  HasErrors (ValidateList url_scheme ParseDuration (mkNamedList "a" [] "HTTPS://lists.example/a" "" None "" [])) = false /\
  Fetch newRequest get sha256_hex "HTTPS://lists.example/a" = inl (Errorf "remote list source must be an https URL, got %q" ["HTTPS://lists.example/a"]).
Proof. intros H. rewrite errs_validate_list. unfold list_bad, not_https. cbn [nl_Source nl_Name nl_Static nl_Refresh]. rewrite H. done. Qed.

(** ** Witnesses *)

Fixpoint repeat_char (c : ascii) (n : nat) : string := match n with O => "" | S n => String c (repeat_char c n) end.

Lemma repeat_char_length c n : String.length (repeat_char c n) = n.
Proof. induction n as [|n IH]; [done|]. cbn. by rewrite IH. Qed.

Lemma repeat_char_forall P c n : P c = true -> str_forall P (repeat_char c n) = true.
Proof. intros H. induction n as [|n IH]; [done|]. cbn. by rewrite H, IH. Qed.

Lemma long_line_ends_list_witness :
  ParseEntries (repeat_char "x" (Z.to_nat maxLine) +:+ String newline "10.0.0.0/8") = [] /\ ParseEntries ("junk" +:+ String newline "10.0.0.0/8") = ["10.0.0.0/8"].
Proof.
  destruct (long_line_ends_list (repeat_char "x" (Z.to_nat maxLine)) "10.0.0.0/8") as [H1 H2].
  - by apply repeat_char_forall.
  - rewrite repeat_char_length, Z2Nat.id; unfold maxLine; lia.
  - split; [exact H1|]. rewrite H2; [vm_compute; reflexivity..].
Defined.

Module Demo.

Definition office : Profile :=
  mkProfile "p1" "Office" "" true "include" "" 10 [mkRule "cidr" "10.8.0.0/16" ""; mkRule "app" "alice" ""] ["nets"] [] "".
Definition direct : Profile := mkProfile "p2" "Direct" "" true "" "192.168.1.1" 0 [mkRule "domain" "example.org" "news"] [] ["v4"] "".
Definition nets : NamedList := mkNamedList "nets" ["203.0.113.0/24"] "https://lists.example/a" "24h" (Some 7) "abc" ["198.51.100.7"].

Definition host (profiles : list Profile) : DesiredInput :=
  mkDesiredInput profiles AddrZero AddrZero "" "" PrefixZero PrefixZero AddrZero AddrZero "" "" ∅ ∅ [] [] [] [] [] "" false "darwin" false 0.

Definition scheme (s : string) : option string := if HasPrefix s "https://" then Some "https" else None.
Definition duration (s : string) : option Z := if s =s? "24h" then Some 86400 else None.

End Demo.

(** The checks accept a profile whose gateway is of another family than its only
    destination, and with it no desired set is built at all, for any profile. *)
Lemma accepted_gateway_family :
  let p := mkProfile "lab" "Lab" "" true ModeExclude "192.168.1.1" 0 [mkRule RuleCIDR "2001:db8::/32" ""] [] [] "" in
  profile_accepted p "darwin" None /\ profile_accepted Demo.direct "darwin" None /\
  BuildDesired [FamilyV4; FamilyV6] (Demo.host [p; Demo.direct]) = inl (ErrProfileGateway "Lab" (GwFamily "192.168.1.1" FamilyV6)).
Proof. split_and!; vm_compute; reflexivity. Qed.

Lemma accepted_profiles_build_witness :
  BuildDesired [FamilyV4] (Demo.host [Demo.office]) = inl (ErrNoPolicyRouting "Office") /\ (environmental (ErrNoPolicyRouting "Office") \/ mismatched (Demo.host [Demo.office]) (ErrNoPolicyRouting "Office")).
Proof.
  assert (BuildDesired [FamilyV4] (Demo.host [Demo.office]) = inl (ErrNoPolicyRouting "Office")) as H by (vm_compute; reflexivity).
  split; [exact H|]. apply (accepted_profiles_build [FamilyV4] (Demo.host [Demo.office]) None); [|exact H].
  constructor; [vm_compute; reflexivity|constructor].
Defined.

(** A split-DNS route with a port of its own does not survive an export. *)
Lemma export_loses_port :
  SplitDNSRoutes (FromDomain [] [] [mkSplitDNS "corp.example" "10.0.0.53" 5353] None) = [mkSplitDNS "corp.example" "10.0.0.53" 0].
Proof. by vm_compute. Qed.


Lemma list_entries_usable_witness : exists p fam, entryToPrefix "198.51.100.7" = Some (p, fam) /\ valid_prefix p /\ fam = famOf (p_addr p).
Proof.
  apply (list_entries_usable Demo.scheme Demo.duration Demo.nets "198.51.100.7 # a host").
  - vm_compute. reflexivity.
  - vm_compute. reflexivity.
  - right. left.
Defined.
