(* ===== verification/LinuxProvider.v ===== *)
(** * The Linux provider (internal/provider/linux)

    The provider over the [ip] command: what it runs and how it reads what
    [ip] prints. Running a command, decoding JSON, the interfaces and
    resolv.conf are the host's ([LinuxHost]); a command that changes the host
    leaves a new state. Text is bytes; the spaces split at are the ASCII ones. *)

From Stdlib Require Import Ascii.
From S2P Require Import Prelude.
From S2P Require Import Netip NetipText Domain Reconcile Input Provider Netmon Killswitch Update Config.

(** ** What ip reports (linux_parse.go) *)

Record ipRoute : Type := mkIpRoute {
  ir_Type : string; ir_Dst : string; ir_Gateway : string; ir_Dev : string; ir_Protocol : string; ir_Metric : Z; ir_Table : string; ir_Scope : string;
}.

Record ipRule : Type := mkIpRule {
  il_Priority : Z; il_Src : string; il_SrcLen : Z; il_Dst : string; il_DstLen : Z; il_Table : string; il_FwMark : string; il_Protocol : string;
  il_IifName : string; il_OifName : string; il_SuppressPrefixLen : option Z;
}.

Definition withLen (a : string) (length : Z) : string :=
  if (a =s? "") || Contains_str a "/" || (length <=? 0) then a else a +:+ "/" +:+ pretty length.

Definition normalizeDst (dst : string) (family : Family) : string :=
  if (dst =s? "") || (dst =s? "default") then (if family =s? FamilyV6 then "::/0" else "0.0.0.0/0")
  else if negb (Contains_str dst "/") then (if family =s? FamilyV6 then dst +:+ "/128" else dst +:+ "/32")
  else dst.

Definition routeProtoNum : string := "152".
Definition routeProtoName : string := "riftroute".
Definition isOurProto (p : string) : bool := (p =s? routeProtoNum) || (p =s? routeProtoName).
Definition canonicalProto (p : string) : string := if isOurProto p then routeProtoName else p.

Definition IfaceKindTun : string := "tun".
Definition IfaceKindWG : string := "wg".
Definition IfaceKindBridge : string := "bridge".

Definition any_prefix (name : string) (prefixes : list string) : bool := existsb (HasPrefix name) prefixes.

Definition classifyIface (name : string) : string * bool :=
  if name =s? "lo" then (IfaceKindLoopback, false)
  else if HasPrefix name "wg" then (IfaceKindWG, true)
  else if any_prefix name ["tun"; "tap"; "ppp"; "ipsec"; "utun"] then (IfaceKindTun, true)
  else if any_prefix name ["br"; "docker"; "virbr"] then (IfaceKindBridge, false)
  else if any_prefix name ["en"; "eth"; "wl"; "wlan"] then (IfaceKindPhysical, false)
  else (IfaceKindOther, false).

Definition isTunnel (name : string) : bool := snd (classifyIface name).

Definition ownerForLinux (protocol dev : string) : Owner :=
  if isOurProto protocol then OwnerRiftRoute else if isTunnel dev then OwnerVPN else OwnerSystem.

Definition rejectType (t : string) : bool := (t =s? "unreachable") || (t =s? "prohibit") || (t =s? "blackhole").

Definition rejectedLookup (stderr : string) : bool := Contains_str stderr "No route to host" || Contains_str stderr "Permission denied".

(** A route, from what is known of it. *)
Definition read_route (family : Family) (reject : bool) (dst gw dev protocol : string) (metric : Z) : Route :=
  mkRoute (normalizeDst dst family) gw dev metric family (ownerForLinux protocol dev) (canonicalProto protocol) "" "" false false reject.

Definition parse_route (family : Family) (r : ipRoute) : Route :=
  if rejectType (ir_Type r) then
    mkRoute (normalizeDst (ir_Dst r) family) "" "" (ir_Metric r) family (ownerForLinux (ir_Protocol r) (ir_Dev r)) (canonicalProto (ir_Protocol r)) "" "" false false true
  else read_route family false (ir_Dst r) (ir_Gateway r) (ir_Dev r) (ir_Protocol r) (ir_Metric r).

Definition ruleSelector (r : ipRule) : string :=
  Join ((if negb (il_Dst r =s? "") then ["to " +:+ withLen (il_Dst r) (il_DstLen r)]
         else if negb (il_Src r =s? "") then ["from " +:+ withLen (il_Src r) (il_SrcLen r)]
         else ["from all"]) ++
        (if il_FwMark r =s? "" then [] else ["fwmark " +:+ il_FwMark r]) ++
        (if il_IifName r =s? "" then [] else ["iif " +:+ il_IifName r]) ++
        (if il_OifName r =s? "" then [] else ["oif " +:+ il_OifName r]) ++
        (match il_SuppressPrefixLen r with Some n => ["suppress_prefixlength " +:+ pretty n] | None => [] end)) " ".

Definition parse_rule (family : Family) (r : ipRule) : PolicyRule :=
  mkPolicyRule (il_Priority r) (ruleSelector r) (il_Table r) family (canonicalProto (il_Protocol r)) "" "".

(** The family of a rule recorded without one: its selector address's. *)
Definition selector_family (selector : string) : Family :=
  fold_left (fun fam f =>
    if match ParsePrefix f with Some p => Is6 (p_addr p) | None => false end then FamilyV6
    else if match ParseAddr f with Some a => Is6 a | None => false end then FamilyV6
    else fam) (Fields selector) FamilyV4.

Definition ruleArgs (verb : string) (mr : ManagedRule) : list string :=
  let r := ml_Rule mr in
  let fam := if pr_Family r =s? "" then selector_family (pr_Selector r) else pr_Family r in
  [if fam =s? FamilyV6 then "-6" else "-4"; "rule"; verb] ++ Fields (pr_Selector r) ++ ["lookup"; pr_Table r; "priority"; pretty (pr_Priority r)].

Definition decision (target : string) (family : Family) (gw dev : string) (owner : Owner) : RouteDecision :=
  mkRouteDecision target "kernel" "" gw dev family owner "" (isTunnel dev) "" "" (negb (dev =s? "")) false.

Definition no_decision (target : string) (family : Family) (rejected : bool) : RouteDecision :=
  mkRouteDecision target "kernel" "" "" "" family "" "" false "" "" false rejected.

Definition parse_get (raw : list ipRoute) (target : string) (family : Family) : RouteDecision :=
  match raw with
  | [] => no_decision target family false
  | r :: _ => decision target family (ir_Gateway r) (ir_Dev r) (ownerForLinux (ir_Protocol r) (ir_Dev r))
  end.

(** *** Text, for an ip without JSON *)

(** What the words of a line say: each keyword takes the word after it, the
    last one counts. *)
Record words : Type := mkWords { w_via : string; w_dev : string; w_proto : string; w_metric : Z }.

Fixpoint read_words (f : list string) (w : words) : words :=
  match f with
  | k :: (v :: _) as f' =>
      read_words f'
        (if k =s? "via" then mkWords v (w_dev w) (w_proto w) (w_metric w)
         else if k =s? "dev" then mkWords (w_via w) v (w_proto w) (w_metric w)
         else if k =s? "proto" then mkWords (w_via w) (w_dev w) v (w_metric w)
         else if k =s? "metric" then mkWords (w_via w) (w_dev w) (w_proto w) (default (w_metric w) (Atoi v))
         else w)
  | _ => w
  end.

Definition no_words : words := mkWords "" "" "" 0.

Definition parse_line (family : Family) (line : string) : option Route :=
  let of_words reject f :=
    match f with
    | [] => None
    | dst :: f' => let w := read_words f' no_words in Some (read_route family reject dst (w_via w) (w_dev w) (w_proto w) (w_metric w))
    end in
  match Fields line with
  | [] => None
  | t :: f' => if rejectType t then of_words true f' else if t =s? "unicast" then of_words false f' else of_words false (t :: f')
  end.

Definition parseRoutesText (text : string) (family : Family) : list Route := omap (parse_line family) (split_lines text).

Definition parseRouteGetText (text target : string) (family : Family) : RouteDecision :=
  let w := read_words (Fields text) no_words in
  decision target family (w_via w) (w_dev w) "".

(** ** The host *)

Class LinuxHost (W : Type) : Type := {
  (** A command's output, or its error and what it printed on stderr. *)
  Output : list string -> W -> error * string + string;
  (** A command that may change the host: what it printed, its error. *)
  CombinedOutput : list string -> W -> string * option error * W;
  decode_routes : string -> option (list ipRoute);
  decode_rules : string -> option (list ipRule);
  net_Interfaces : W -> error + list (string * bool * list string * Z);
  resolv_conf : W -> error + string;
}.

Definition famFlag (family : Family) : string := if family =s? FamilyV6 then "-6" else "-4".
Definition defaultCIDR (family : Family) : string := if family =s? FamilyV6 then "::/0" else "0.0.0.0/0".

Section linux.
Context {W : Type} `{!LinuxHost W}.
Implicit Types w : W.

(** *** Reading (linux_read.go) *)

Definition stamp (table : string) (r : Route) : Route :=
  if table =s? "" then r
  else mkRoute (rt_DstCIDR r) (rt_Gateway r) (rt_Iface r) (rt_Metric r) (rt_Family r) (rt_Owner r) (rt_Proto r) table (rt_Profile r) (rt_Cloned r) (rt_Scoped r) (rt_Reject r).

Definition listTable (family : Family) (table : string) (w : W) : error + list Route :=
  let args := [famFlag family; "route"; "show"] ++ (if table =s? "" then [] else ["table"; table]) in
  let text :=
    match Output ("ip" :: args) w with
    | inl (e, _) => inl (Wrapf "linux: ip route show: %w" [] e)
    | inr out => inr (map (stamp table) (parseRoutesText out family))
    end in
  match Output ("ip" :: "-j" :: args) w with
  | inl _ => text
  | inr out => match decode_routes out with Some raw => inr (map (stamp table) (map (parse_route family) raw)) | None => text end
  end.

Definition linux_ListRoutes (family : Family) (w : W) : error + list Route :=
  match listTable family "" w with
  | inl e => inl e
  | inr routes =>
      inr (fold_left (fun rs t => match listTable family t w with inr extra => rs ++ extra | inl _ => rs end) [ModelBTable; BypassTable] routes)
  end.

Definition linux_ListRules (family : Family) (w : W) : error + list PolicyRule :=
  match Output ["ip"; "-j"; famFlag family; "rule"; "show"] w with
  | inl _ => inr []
  | inr out => match decode_rules out with Some raw => inr (map (parse_rule family) raw) | None => inr [] end
  end.

Definition linux_LookupRoute (dst : addr) (w : W) : error + RouteDecision :=
  let family := if Is6 dst then FamilyV6 else FamilyV4 in
  let target := addr_String dst in
  let text :=
    match Output ["ip"; "route"; "get"; target] w with
    | inl (_, stderr) => inr (no_decision target family (rejectedLookup stderr))
    | inr out => inr (parseRouteGetText out target family)
    end in
  match Output ["ip"; "-j"; "route"; "get"; target] w with
  | inl _ => text
  | inr out => match decode_routes out with Some raw => inr (parse_get raw target family) | None => text end
  end.

Definition linux_Interfaces (w : W) : error + list Iface :=
  match net_Interfaces w with
  | inl e => inl e
  | inr ifs => inr (map (fun '(name, up, addrs, mtu) => let '(kind, isVPN) := classifyIface name in mkIface name up kind addrs mtu isVPN) ifs)
  end.

Definition scanLine : Z := 64 * 1024.

Definition resolv_line (st : DNSState) (line : string) : DNSState :=
  match Fields line with
  | k :: v :: rest =>
      if k =s? "nameserver" then mkDNSState (dns_Servers st ++ [v]) (dns_SearchDomains st) (dns_Iface st)
      else if (k =s? "search") || (k =s? "domain") then mkDNSState (dns_Servers st) (dns_SearchDomains st ++ v :: rest) (dns_Iface st)
      else st
  | _ => st
  end.

Definition linux_DNSConfig (w : W) : error + DNSState :=
  match resolv_conf w with
  | inl e => inl e
  | inr text => inr (fold_left resolv_line (fitting scanLine (split_lines text)) (mkDNSState [] [] ""))
  end.

Fixpoint find_gateway (def : string) (fallback : string * string) (routes : list Route) : (addr * string) + (string * string) :=
  match routes with
  | [] => inr fallback
  | r :: routes' =>
      if negb (rt_DstCIDR r =s? def) || (rt_Gateway r =s? "") then find_gateway def fallback routes'
      else
        let next := find_gateway def (if fst fallback =s? "" then (rt_Gateway r, rt_Iface r) else fallback) routes' in
        if isTunnel (rt_Iface r) then next
        else match ParseAddr (rt_Gateway r) with Some a => inl (a, rt_Iface r) | None => next end
  end.

Definition linux_DefaultGateway (family : Family) (w : W) : error + addr * string :=
  let none := inl (Errorf "linux: no default gateway for %s" [family]) in
  match linux_ListRoutes family w with
  | inl e => inl e
  | inr routes =>
      match find_gateway (defaultCIDR family) ("", "") routes with
      | inl gw => inr gw
      | inr (gw, iface) => if gw =s? "" then none else match ParseAddr gw with Some a => inr (a, iface) | None => none end
      end
  end.

(** *** Changing (linux_mutate.go) *)

Definition proto_char (c : ascii) : bool := is_lower c || is_digit c || (code c =? 45) || (code c =? 95).

Definition protoArg (proto : string) : string :=
  if (proto =s? "") || (proto =s? routeProtoName) then routeProtoNum else if str_forall proto_char proto then proto else routeProtoNum.

Definition bad_dst (r : Route) : option error :=
  match ParsePrefix (rt_DstCIDR r) with None => Some (Errorf "linux: invalid destination CIDR %q" [rt_DstCIDR r]) | Some _ => None end.

Definition validateManaged (mr : ManagedRoute) : option error :=
  let r := mr_Route mr in
  match bad_dst r with
  | Some e => Some e
  | None =>
      if negb (rt_Gateway r =s? "") && bool_decide (ParseAddr (rt_Gateway r) = None) then Some (Errorf "linux: invalid gateway %q" [rt_Gateway r])
      else if rt_Reject r then
        if negb (rt_Gateway r =s? "") || negb (rt_Iface r =s? "") then Some (Errorf "linux: a reject route has no gateway or interface" []) else None
      else if TrimSpace (rt_Iface r) =s? "" then Some (Errorf "linux: empty interface" []) else None
  end.

Definition table_args (r : Route) : list string := if rt_Table r =s? "" then [] else ["table"; rt_Table r].

Definition add_args (r : Route) : list string :=
  let proto := ["proto"; protoArg (rt_Proto r)] in
  (if rt_Reject r then ["route"; "add"; "unreachable"; rt_DstCIDR r] ++ proto
   else if negb (rt_Gateway r =s? "") then ["route"; "add"; rt_DstCIDR r; "via"; rt_Gateway r; "dev"; rt_Iface r] ++ proto
   else ["route"; "add"; rt_DstCIDR r; "dev"; rt_Iface r] ++ proto) ++
  (if 0 <? rt_Metric r then ["metric"; pretty (rt_Metric r)] else []) ++ table_args r.

Definition del_args (r : Route) : list string :=
  (if rt_Reject r then ["route"; "del"; "unreachable"; rt_DstCIDR r] else ["route"; "del"; rt_DstCIDR r]) ++
  ["proto"; protoArg (rt_Proto r)] ++ table_args r.

(** Runs ip; an error whose text holds one of [fine] is no error. *)
Definition ip_run (args fine : list string) (what : string) (subject : list string) (w : W) : option error * W :=
  let '(out, err, w') := CombinedOutput ("ip" :: args) w in
  match err with
  | None => (None, w')
  | Some e => if existsb (Contains_str out) fine then (None, w') else (Some (Wrapf (what +:+ ": %w: %s") (subject ++ [TrimSpace out]) e), w')
  end.

Definition linux_AddRoute (mr : ManagedRoute) (w : W) : option error * W :=
  match validateManaged mr with
  | Some e => (Some e, w)
  | None => ip_run (add_args (mr_Route mr)) ["File exists"] "ip route add %s" [rt_DstCIDR (mr_Route mr)] w
  end.

Definition linux_DelRoute (mr : ManagedRoute) (w : W) : option error * W :=
  match bad_dst (mr_Route mr) with
  | Some e => (Some e, w)
  | None => ip_run (del_args (mr_Route mr)) ["No such process"; "Cannot find"] "ip route del %s" [rt_DstCIDR (mr_Route mr)] w
  end.

Definition linux_AddRule (mr : ManagedRule) (w : W) : option error * W :=
  let base := ruleArgs "add" mr in
  let '(out, err, w') := CombinedOutput ("ip" :: base ++ ["protocol"; routeProtoNum]) w in
  match err with
  | None => (None, w')
  | Some e =>
      if Contains_str out "File exists" then (None, w')
      else if Contains_str out "protocol" then ip_run base ["File exists"] "ip rule add" [] w'
      else (Some (Wrapf "ip rule add: %w: %s" [TrimSpace out] e), w')
  end.

Definition linux_DelRule (mr : ManagedRule) (w : W) : option error * W := ip_run (ruleArgs "del" mr) ["No such"; "Cannot find"] "ip rule del" [] w.

(** A command run for its effect alone. *)
Definition ip_try (args : list string) (w : W) : W := let '(_, _, w') := CombinedOutput ("ip" :: args) w in w'.

Definition flush_rule (acc : option error * W) (r : PolicyRule) : option error * W :=
  if negb (pr_Proto r =s? routeProtoName) then acc
  else
    let '(err, w') := linux_DelRule (mkMRule r "" 0) (snd acc) in
    (match fst acc with Some e => Some e | None => err end, w').

Definition famOf_flag (flag : string) : Family := if flag =s? "-6" then FamilyV6 else FamilyV4.

Definition flush_family (acc : option error * W) (fam : string) : option error * W :=
  let w := ip_try [fam; "route"; "flush"; "proto"; routeProtoNum] (snd acc) in
  let w := ip_try [fam; "route"; "flush"; "proto"; routeProtoNum; "table"; ModelBTable] w in
  let w := ip_try [fam; "route"; "flush"; "proto"; routeProtoNum; "table"; BypassTable] w in
  let '(out, err, w) := CombinedOutput ["ip"; "-j"; fam; "rule"; "show"] w in
  match err with
  | Some _ => (fst acc, w)
  | None =>
      match decode_rules out with
      | Some raw => fold_left flush_rule (map (parse_rule (famOf_flag fam)) raw) (fst acc, w)
      | None => (fst acc, w)
      end
  end.

Definition linux_FlushOwned (w : W) : option error * W := fold_left flush_family ["-4"; "-6"] (None, w).

Definition linux_Capabilities : Capabilities := mkCapabilities "linux" true true true true true true false "nftables".

Definition LinuxProvider : RouteProvider W := {|
  ListRoutes := linux_ListRoutes;
  ListRules := linux_ListRules;
  LookupRoute := linux_LookupRoute;
  DefaultGateway := linux_DefaultGateway;
  Interfaces := linux_Interfaces;
  DNSConfig := linux_DNSConfig;
  AddRoute := linux_AddRoute;
  DelRoute := linux_DelRoute;
  AddRule := linux_AddRule;
  DelRule := linux_DelRule;
  FlushOwned := linux_FlushOwned;
  GetCapabilities _ := linux_Capabilities;
  Name _ := "linux";
|}.
End linux.
