(* ===== verification/MacProvider.v ===== *)
(** * Routes on macOS (internal/provider/tablecache.go, internal/provider/macos)

    Reading the routing table, the interfaces, the resolvers and the physical
    gateway; adding and deleting routes with route(8), which deletes by
    destination alone, so a managed delete first looks whose route is there, in
    a copy of the table kept for the batch. The host is a class ([MacHost]):
    the parsed routing table, the commands, the interfaces. *)

From Stdlib Require Import Ascii.
From S2P Require Import Prelude.
From S2P Require Import Netip NetipText Aggregate Domain Reconcile Input Installed Provider Netmon Killswitch Update Text Config LinuxProvider.

(** ** The table cache (tablecache.go) *)

(** The cache a batch carries in its context, if it does. *)
Notation tableCache := (gmap Family (list Route)).

Definition WithTableCache (ctx : option tableCache) : option tableCache := match ctx with Some c => Some c | None => Some ∅ end.

Definition CachedRoutes (ctx : option tableCache) (fam : Family) (read : Family -> error + list Route) : (error + list Route) * option tableCache :=
  match ctx with
  | None => (read fam, None)
  | Some c =>
      match c !! fam with
      | Some rs => (inr rs, ctx)
      | None => match read fam with inl e => (inl e, ctx) | inr rs => (inr rs, Some (<[fam := rs]> c)) end
      end
  end.

Definition familyOf (dst : option prefix) (fam : Family) : Family :=
  match dst with
  | None => fam
  | Some p => if negb (pfx_IsValid p) then fam else if Is6 (p_addr p) then FamilyV6 else FamilyV4
  end.

Definition with_dst (r : Route) (dst : string) : Route :=
  mkRoute dst (rt_Gateway r) (rt_Iface r) (rt_Metric r) (rt_Family r) (rt_Owner r) (rt_Proto r) (rt_Table r) (rt_Profile r) (rt_Cloned r) (rt_Scoped r) (rt_Reject r).

(** What a change does to the cached table of the route's family. *)
Definition recache (ctx : option tableCache) (r : Route) (f : prefix -> list Route -> list Route) : option tableCache :=
  match ctx with
  | None => None
  | Some c =>
      let dst := ParsePrefix (rt_DstCIDR r) in
      let fam := familyOf dst (rt_Family r) in
      match c !! fam with
      | None => ctx
      | Some rs => match dst with None => Some (delete fam c) | Some p => Some (<[fam := f p rs]> c) end
      end
  end.

Definition RouteAdded (ctx : option tableCache) (r : Route) : option tableCache :=
  recache ctx r (fun p rs => rs ++ [with_dst r (prefix_String (Masked p))]).

Definition same_dst (p : prefix) (k : Route) : bool :=
  match ParsePrefix (rt_DstCIDR k) with Some kp => bool_decide (Masked kp = Masked p) | None => false end.

Definition RouteDeleted (ctx : option tableCache) (r : Route) : option tableCache :=
  recache ctx r (fun p rs => keep_if (fun k => negb (same_dst p k && (rt_Table k =s? rt_Table r))) rs).

(** ** Changing routes (macos_mutate.go) *)

Definition iface_name_char (c : ascii) : bool :=
  is_lower c || ((65 <=? code c) && (code c <=? 90)) || is_digit c || Ascii.eqb c "." || Ascii.eqb c "-".
Definition validIfaceName (s : string) : bool := negb (s =s? "") && (Z.of_nat (String.length s) <=? 32) && str_forall iface_name_char s.

Definition macRouteArgs (action : string) (mr : ManagedRoute) : error + list string :=
  let r := mr_Route mr in
  match ParsePrefix (rt_DstCIDR r) with
  | None => inl (Errorf "macos: invalid destination CIDR %q" [rt_DstCIDR r])
  | Some pfx =>
      let gw := ParseAddr (rt_Gateway r) in
      let v6 := Is6 (p_addr pfx) in
      if match gw with Some a => negb (Bool.eqb (Is4 (p_addr pfx)) (Is4 a)) | None => false end then inl (Errorf "macos: gateway/destination family mismatch" [])
      else
        let args := ["-n"; action] ++ (if v6 then ["-inet6"] else []) ++
                    (if p_bits pfx =? BitLen (p_addr pfx) then ["-host"; addr_String (p_addr pfx)] else ["-net"; prefix_String (Masked pfx)]) in
        let is_delete := action =s? "delete" in
        if is_delete && rt_Reject r then inr args
        else if rt_Reject r then
          if bool_decide (is_Some gw) || negb (rt_Iface r =s? "") then inl (Errorf "macos: a reject route has no gateway or interface" [])
          else inr (args ++ [if v6 then "::1" else "127.0.0.1"; "-reject"])
        else match gw with
             | Some a => inr (args ++ [addr_String a])
             | None =>
                 if is_delete then inr args
                 else if negb (validIfaceName (rt_Iface r)) then inl (Errorf "macos: route without a gateway needs a valid interface, got %q" [rt_Iface r])
                 else inr (args ++ ["-interface"; rt_Iface r])
             end
  end.

(** The kernel's entry [k] is the route [r] for the destination [dst]. *)
Definition is_ours (dst : prefix) (r k : Route) : bool :=
  match ParsePrefix (rt_DstCIDR k) with
  | None => false
  | Some kp =>
      if rt_Cloned k || negb (bool_decide (Masked kp = Masked dst)) then false
      else if rt_Reject r || rt_Reject k then rt_Reject r && rt_Reject k
      else if negb (rt_Gateway r =s? "") then negb (rt_Gateway k =s? "") && SameGateway (rt_Gateway k) (rt_Gateway r)
      else rt_Iface k =s? rt_Iface r
  end.

Section mutate.
Context {W : Type} (list_ : Family -> W -> error + list Route) (route : list string -> W -> string * option error * W).
Implicit Types w : W.

Definition stillOurs (ctx : option tableCache) (r : Route) (w : W) : (error + bool) * option tableCache :=
  match ParsePrefix (rt_DstCIDR r) with
  | None => (inl (Errorf "netip.ParsePrefix(%q)" [rt_DstCIDR r]), ctx)
  | Some dst =>
      let fam := if Is6 (p_addr dst) then FamilyV6 else FamilyV4 in
      match CachedRoutes ctx fam (fun f => list_ f w) with
      | (inl e, ctx') => (inl e, ctx')
      | (inr kernel, ctx') => (inr (existsb (is_ours dst r) kernel), ctx')
      end
  end.

Definition mac_AddRoute (ctx : option tableCache) (mr : ManagedRoute) (w : W) : option error * option tableCache * W :=
  match macRouteArgs "add" mr with
  | inl e => (Some e, ctx, w)
  | inr args =>
      let '(out, err, w') := route args w in
      match err with
      | None => (None, RouteAdded ctx (mr_Route mr), w')
      | Some e =>
          if Contains_str out "File exists" then (None, ctx, w')
          else (Some (Wrapf "route add %s: %w: %s" [rt_DstCIDR (mr_Route mr); TrimSpace out] e), ctx, w')
      end
  end.

Definition delete_args (ctx : option tableCache) (mr : ManagedRoute) (args : list string) (w : W) : option error * option tableCache * W :=
  let '(out, err, w') := route args w in
  match err with
  | None => (None, RouteDeleted ctx (mr_Route mr), w')
  | Some e =>
      if Contains_str out "not in table" || Contains_str out "No such" then (None, RouteDeleted ctx (mr_Route mr), w')
      else (Some (Wrapf "route delete %s: %w: %s" [rt_DstCIDR (mr_Route mr); TrimSpace out] e), ctx, w')
  end.

Definition mac_DelRoute (ctx : option tableCache) (mr : ManagedRoute) (w : W) : option error * option tableCache * W :=
  match macRouteArgs "delete" mr with
  | inl e => (Some e, ctx, w)
  | inr args =>
      if mr_ProfileID mr =s? "" then delete_args ctx mr args w
      else
        match stillOurs ctx (mr_Route mr) w with
        | (inl e, ctx') => (Some (Wrapf "route delete %s: can't tell whether the route is still RiftRoute's: %w" [rt_DstCIDR (mr_Route mr)] e), ctx', w)
        | (inr ours, ctx') => if ours then delete_args ctx' mr args w else (None, ctx', w)
        end
  end.

End mutate.

(** ** Reading (macos_read.go) *)

(** An address of a route message: an absent one is [None]. *)
Inductive rt_addr : Type := Inet4Addr (n : Z) | Inet6Addr (n : Z) | LinkAddr.

Record RouteMessage : Type := mkRouteMessage { rb_Flags : Z; rb_Index : Z; rb_Addrs : list (option rt_addr) }.

Definition RTF_UP : Z := 1.
Definition RTF_HOST : Z := 4.
Definition RTF_REJECT : Z := 8.
Definition RTF_BLACKHOLE : Z := 4096.
Definition RTF_WASCLONED : Z := 131072.
Definition RTF_IFSCOPE : Z := 16777216.
Definition has_flag (flags f : Z) : bool := negb (Z.land flags f =? 0).

Definition rtaxDst : nat := 0.
Definition rtaxGateway : nat := 1.
Definition rtaxNetmask : nat := 2.

Definition addrToNetip (addrs : list (option rt_addr)) (idx : nat) : option addr :=
  match addrs !! idx with
  | Some (Some (Inet4Addr n)) => Some (Addr4 n)
  | Some (Some (Inet6Addr n)) => Some (Addr6 n "")
  | _ => None
  end.

(** The leading ones of a mask of [w] bits. *)
Fixpoint countBits (w : nat) (mask : Z) : Z :=
  match w with
  | O => 0
  | S w' => if Z.testbit mask (Z.of_nat w') then 1 + countBits w' mask else 0
  end.

Definition maskBits (addrs : list (option rt_addr)) (isV4 : bool) : Z :=
  match addrs !! rtaxNetmask with
  | Some (Some (Inet4Addr n)) => countBits 32 n
  | Some (Some (Inet6Addr n)) => countBits 128 n
  | Some (Some LinkAddr) => if isV4 then 32 else 128
  | _ => 0
  end.

Definition mac_classifyIface (name : string) : string * bool :=
  if (name =s? "lo0") || HasPrefix name "lo" then (IfaceKindLoopback, false)
  else if HasPrefix name "utun" then (IfaceKindUtun, true)
  else if HasPrefix name "wg" then (IfaceKindWG, true)
  else if any_prefix name ["tun"; "tap"; "ipsec"; "ppp"] then (IfaceKindTun, true)
  else if HasPrefix name "bridge" then (IfaceKindBridge, false)
  else if any_prefix name ["en"; "eth"] then (IfaceKindPhysical, false)
  else (IfaceKindOther, false).

Definition is_vpn (name : string) : bool := snd (mac_classifyIface name).

(** An interface of the host; of an address, its text and whether it is IPv4. *)
Record net_iface : Type := mkNetIface { ni_Index : Z; ni_Name : string; ni_Up : bool; ni_Loopback : bool; ni_Addrs : list (string * bool); ni_MTU : Z }.

Class MacHost (W : Type) : Type := {
  FetchRIB : Family -> W -> error + string;
  (** The route messages of a table; [None] for a message of another kind. *)
  ParseRIB : string -> error + list (option RouteMessage);
  mac_ifaces : W -> error + list net_iface;
  (** A command's output. *)
  mac_run : list string -> W -> error + string;
}.

Definition ifaceIndexNames (ifs : error + list net_iface) : Z -> string :=
  match ifs with
  | inl _ => fun _ => ""
  | inr l => fun i => fold_left (fun name f => if ni_Index f =? i then ni_Name f else name) l ""
  end.

Definition vpnInterfaceSet (ifs : error + list net_iface) (name : string) : bool :=
  match ifs with inl _ => false | inr l => existsb (fun f => (ni_Name f =s? name) && is_vpn (ni_Name f)) l end.

(** One message of the table, for the interfaces of the host. *)
Definition rib_route (family : Family) (names : Z -> string) (vpn : string -> bool) (m : option RouteMessage) : option Route :=
  rm ← m;
  if negb (has_flag (rb_Flags rm) RTF_UP) then None
  else
    dst ← addrToNetip (rb_Addrs rm) rtaxDst;
    if negb (Bool.eqb (family =s? FamilyV4) (Is4 dst)) then None
    else
      let bits := if has_flag (rb_Flags rm) RTF_HOST then BitLen dst else maskBits (rb_Addrs rm) (Is4 dst) in
      let gw := match addrToNetip (rb_Addrs rm) rtaxGateway with Some g => addr_String g | None => "" end in
      let ifName := names (rb_Index rm) in
      let owner := if vpn ifName then OwnerVPN else OwnerSystem in
      let reject := has_flag (rb_Flags rm) (Z.lor RTF_REJECT RTF_BLACKHOLE) in
      Some (mkRoute (prefix_String (Masked (PrefixFrom dst bits))) (if reject then "" else gw) (if reject then "" else ifName) 0 family
              (if reject then OwnerSystem else owner) "" "" "" (has_flag (rb_Flags rm) RTF_WASCLONED) (has_flag (rb_Flags rm) RTF_IFSCOPE) reject).

(** The text after the first colon. *)
Definition afterColon (line : string) : string := match cut_at ":" line with Some (_, t) => TrimSpace t | None => "" end.

(** The lines a [bufio.Scanner] reads, trimmed. *)
Definition scan_lines (out : string) : list string := map TrimSpace (fitting scanLine (split_lines out)).

Definition route_get_line (acc : string * string) (line : string) : string * string :=
  if HasPrefix line "gateway:" then (afterColon line, snd acc)
  else if HasPrefix line "interface:" then (fst acc, afterColon line)
  else acc.

Definition parseRouteGet (out : string) : string * string := fold_left route_get_line (scan_lines out) ("", "").

(** [strings.Trim(s, "<>")]. *)
Definition angle (c : ascii) : bool := Ascii.eqb c "<" || Ascii.eqb c ">".
Fixpoint trim_angle_left (s : string) : string := match s with String c s' => if angle c then trim_angle_left s' else s | EmptyString => "" end.
Fixpoint trim_angle_right (s : string) : string :=
  match s with
  | EmptyString => ""
  | String c s' => match trim_angle_right s' with EmptyString => if angle c then "" else String c "" | t => String c t end
  end.

Definition routeGetRejects (out : string) : bool :=
  existsb (fun line =>
    match CutPrefix line "flags:" with
    | Some flags => existsb (fun f => (f =s? "REJECT") || (f =s? "BLACKHOLE")) (Split (trim_angle_right (trim_angle_left (TrimSpace flags))) ",")
    | None => false
    end) (scan_lines out).

Definition dns_line (st : DNSState) (line : string) : DNSState :=
  let v := afterColon line in
  if HasPrefix line "nameserver[" then
    if negb (v =s? "") && negb (existsb (fun s => s =s? v) (dns_Servers st)) then mkDNSState (dns_Servers st ++ [v]) (dns_SearchDomains st) (dns_Iface st) else st
  else if HasPrefix line "search domain[" then
    if negb (v =s? "") then mkDNSState (dns_Servers st) (dns_SearchDomains st ++ [v]) (dns_Iface st) else st
  else st.

(** *** The physical gateway (gateway.go) *)

Fixpoint pickPhysicalDefault (routes : list Route) (isVPN : string -> bool) : option (addr * string) :=
  match routes with
  | [] => None
  | r :: rest =>
      if negb (rt_Table r =s? "") || negb (rt_DstCIDR r =s? "0.0.0.0/0") || isVPN (rt_Iface r) then pickPhysicalDefault rest isVPN
      else match ParseAddr (rt_Gateway r) with
           | Some a => if Is4 a then Some (a, rt_Iface r) else pickPhysicalDefault rest isVPN
           | None => pickPhysicalDefault rest isVPN
           end
  end.

Definition physicalWinner (win : error + addr * string) (isPhysical : string -> bool) : option (addr * string) :=
  match win with
  | inl _ => None
  | inr (gw, iface) => if negb (Is4 gw) || (iface =s? "") || negb (isPhysical iface) then None else Some (gw, iface)
  end.

Definition is_physical (name : string) : bool := let '(kind, isVPN) := mac_classifyIface name in (kind =s? IfaceKindPhysical) && negb isVPN.

Section read.
Context {W : Type} `{!MacHost W}.

Definition mac_ListRoutes (family : Family) (w : W) : error + list Route :=
  match FetchRIB family w with
  | inl e => inl (Wrapf "macos: fetch RIB: %w" [] e)
  | inr rib =>
      match ParseRIB rib with
      | inl e => inl (Wrapf "macos: parse RIB: %w" [] e)
      | inr msgs => inr (omap (rib_route family (ifaceIndexNames (mac_ifaces w)) (vpnInterfaceSet (mac_ifaces w))) msgs)
      end
  end.

Definition mac_Interfaces (w : W) : error + list Iface :=
  match mac_ifaces w with
  | inl e => inl e
  | inr ifs => inr (map (fun f => let '(kind, isVPN) := mac_classifyIface (ni_Name f) in mkIface (ni_Name f) (ni_Up f) kind (map fst (ni_Addrs f)) (ni_MTU f) isVPN) ifs)
  end.

Definition mac_DNSConfig (w : W) : error + DNSState :=
  match mac_run ["scutil"; "--dns"] w with
  | inl e => inl e
  | inr out => inr (fold_left dns_line (scan_lines out) (mkDNSState [] [] ""))
  end.

(** The next hop of the default route that wins; an error may come with an
    interface the callers do not use. *)
Definition defaultViaRouteGet (v6 : bool) (w : W) : error + addr * string :=
  match mac_run (["route"; "-n"; "get"] ++ (if v6 then ["-inet6"] else []) ++ ["default"]) w with
  | inl e => inl (Wrapf "macos: no default route: %w" [] e)
  | inr out =>
      let '(gw, ifn) := parseRouteGet out in
      match ParseAddr gw with Some a => inr (a, ifn) | None => inl (Errorf "macos: default has no gateway address" []) end
  end.

Definition primaryPhysicalIface (w : W) : string :=
  match mac_ifaces w with
  | inl _ => ""
  | inr ifs =>
      match List.find (fun f => ni_Up f && negb (ni_Loopback f) && negb (is_vpn (ni_Name f)) && existsb snd (ni_Addrs f)) ifs with
      | Some f => ni_Name f
      | None => ""
      end
  end.

(** The router option of the primary physical interface. *)
Definition dhcp_router (w : W) : option (addr * string) :=
  let phys := primaryPhysicalIface w in
  if phys =s? "" then None
  else match mac_run ["ipconfig"; "getoption"; phys; "router"] w with
       | inl _ => None
       | inr out => (fun a => (a, phys)) <$> ParseAddr (TrimSpace out)
       end.

Definition mac_DefaultGateway (family : Family) (w : W) : error + addr * string :=
  if family =s? FamilyV6 then defaultViaRouteGet true w
  else
    let win := defaultViaRouteGet false w in
    match physicalWinner win is_physical with
    | Some gw => inr gw
    | None =>
        match dhcp_router w with
        | Some gw => inr gw
        | None =>
            match (match mac_ListRoutes FamilyV4 w with inr routes => pickPhysicalDefault routes is_vpn | inl _ => None end) with
            | Some gw => inr gw
            | None => win
            end
        end
    end.

Definition mac_LookupRoute (dst : addr) (w : W) : error + RouteDecision :=
  let target := addr_String dst in
  let fam := if Is6 dst then FamilyV6 else FamilyV4 in
  match mac_run (["route"; "-n"; "get"] ++ (if Is6 dst then ["-inet6"] else []) ++ [target]) w with
  | inl _ => inr (no_decision target fam false)
  | inr out =>
      if routeGetRejects out then inr (no_decision target fam true)
      else let '(gw, ifn) := parseRouteGet out in
           inr (mkRouteDecision target "kernel" "" gw ifn fam "" "" (is_vpn ifn) "" "" (negb (ifn =s? "")) false)
  end.

End read.

Definition mac_Capabilities : Capabilities := mkCapabilities "darwin" true false true false true true true "pf".
