(* ===== verification/MacFacts.v ===== *)
(** * Deleting only one's own, and the physical gateway

    A managed delete runs route(8) only while the table shows RiftRoute's route
    for the destination; a batch of changes with a table cache behaves as one
    that reads the table every time, while nobody else changes it; and the
    gateway found with a VPN up is the physical one whenever the host shows
    one. *)

From S2P Require Import Prelude.
From S2P Require Import Netip NetipText Aggregate Domain Reconcile Input Installed Provider Netmon Killswitch Update Text Config LinuxProvider MacProvider.

Section batch.
Context {W : Type} (list_ : Family -> W -> error + list Route) (route : list string -> W -> string * option error * W).

Inductive mac_change : Type := AddR (mr : ManagedRoute) | DelR (mr : ManagedRoute).
Definition change_route (c : mac_change) : ManagedRoute := match c with AddR mr | DelR mr => mr end.

Definition run_change (ctx : option tableCache) (c : mac_change) (w : W) : option error * option tableCache * W :=
  match c with AddR mr => mac_AddRoute route ctx mr w | DelR mr => mac_DelRoute list_ route ctx mr w end.

(** A batch: the result of every change, and the host after it. *)
Fixpoint run_batch (ctx : option tableCache) (cs : list mac_change) (w : W) : list (option error) * W :=
  match cs with
  | [] => ([], w)
  | c :: cs' =>
      let '(err, ctx', w') := run_change ctx c w in
      let '(errs, w'') := run_batch ctx' cs' w' in (err :: errs, w'')
  end.

Definition dst_family (dst : prefix) : Family := if Is6 (p_addr dst) then FamilyV6 else FamilyV4.
Definition table (fam : Family) (w : W) : list Route := match list_ fam w with inr rs => rs | inl _ => [] end.

(** Whether the table shows a route as RiftRoute's. *)
Definition shows (dst : prefix) (q : Route) (rs : list Route) : bool := existsb (is_ours dst q) rs.

(** What route(8) does for a change, seen through the table: an added route is
    listed as it was given, a deleted destination is gone, and a command that
    fails changes nothing. No other table than the main one is involved. *)
Record lawful (mr : ManagedRoute) : Prop := mkLawful {
  la_table : rt_Table (mr_Route mr) = "";
  la_add : forall args w out err w' dst q qd, prefix_ok qd -> pfx_IsValid qd = true -> macRouteArgs "add" mr = inr args -> route args w = (out, err, w') -> ParsePrefix (rt_DstCIDR (mr_Route mr)) = Some dst ->
    shows qd q (table (dst_family qd) w') =
    shows qd q (table (dst_family qd) w) || (match err with None => is_ours qd q (with_dst (mr_Route mr) (prefix_String (Masked dst))) | Some _ => false end);
  la_del : forall args w out err w' dst q qd, prefix_ok qd -> pfx_IsValid qd = true -> macRouteArgs "delete" mr = inr args -> route args w = (out, err, w') -> ParsePrefix (rt_DstCIDR (mr_Route mr)) = Some dst ->
    shows qd q (table (dst_family qd) w') =
    shows qd q (table (dst_family qd) w) && negb (match err with None => bool_decide (Masked qd = Masked dst) | Some _ => false end);
  la_gone : forall args w out e w' dst q, macRouteArgs "delete" mr = inr args -> route args w = (out, Some e, w') -> ParsePrefix (rt_DstCIDR (mr_Route mr)) = Some dst ->
    Contains_str out "not in table" || Contains_str out "No such" = true -> shows dst q (table (dst_family dst) w) = false;
}.

(** The cache agrees with the table on whose routes are there. *)
Definition coherent (ctx : option tableCache) (w : W) : Prop :=
  match ctx with
  | None => True
  | Some c => forall fam rs, c !! fam = Some rs ->
      Forall (fun k => rt_Table k = "") rs /\
      forall dst q, prefix_ok dst -> pfx_IsValid dst = true -> dst_family dst = fam -> shows dst q rs = shows dst q (table fam w)
  end.

Context (list_total : forall fam w, exists rs, list_ fam w = inr rs /\ Forall (fun k => rt_Table k = "") rs).

Lemma familyOf_parsed s p fam : ParsePrefix s = Some p -> familyOf (Some p) fam = dst_family p.
Proof. intros H. apply ParsePrefix_ok in H as [_ Hv]. unfold familyOf. by rewrite Hv. Qed.

Lemma args_parse action mr args : macRouteArgs action mr = inr args -> exists dst, ParsePrefix (rt_DstCIDR (mr_Route mr)) = Some dst.
Proof. unfold macRouteArgs. destruct (ParsePrefix _); [eauto|done]. Qed.

Lemma masked_family a b : prefix_ok a -> prefix_ok b -> pfx_IsValid a = true -> pfx_IsValid b = true -> Masked a = Masked b -> dst_family a = dst_family b.
Proof.
  intros Ha Hb Va Vb E. pose proof (Masked_BitLen a Ha Va) as Ea. rewrite E, (Masked_BitLen b Hb Vb) in Ea. unfold dst_family.
  destruct (p_addr a), (p_addr b); cbn in *; congruence.
Qed.

Lemma shows_app dst q a b : shows dst q (a ++ b) = shows dst q a || shows dst q b.
Proof. apply existsb_app. Qed.

(** An entry of another family is never the route. *)
Lemma other_family dst qd q k kp : prefix_ok qd -> pfx_IsValid qd = true -> ParsePrefix (rt_DstCIDR k) = Some kp -> dst_family kp = dst_family dst ->
  dst_family qd <> dst_family dst -> is_ours qd q k = false.
Proof.
  intros Hq Vq Hk Hf Hne. unfold is_ours. rewrite Hk. apply ParsePrefix_ok in Hk as [Hk Vk].
  rewrite bool_decide_eq_false_2; [by rewrite orb_true_r|]. intros E. apply Hne. rewrite <- Hf. symmetry. by apply masked_family.
Qed.

Lemma added_parses r dst s : ParsePrefix s = Some dst -> ParsePrefix (rt_DstCIDR (with_dst r (prefix_String (Masked dst)))) = Some (Masked dst).
Proof. intros H. apply ParsePrefix_ok in H as [Ho Hv]. cbn. apply ParsePrefix_String; [by apply Masked_ok|by rewrite Masked_valid_iff]. Qed.

Lemma masked_dst_family dst : prefix_ok dst -> pfx_IsValid dst = true -> dst_family (Masked dst) = dst_family dst.
Proof. intros Ho Hv. pose proof (Masked_BitLen dst Ho Hv) as E. unfold dst_family. destruct (p_addr (Masked dst)), (p_addr dst); cbn in *; congruence. Qed.

Lemma added_coherent ctx mr args w out w' : lawful mr -> macRouteArgs "add" mr = inr args -> route args w = (out, None, w') ->
  coherent ctx w -> coherent (RouteAdded ctx (mr_Route mr)) w'.
Proof.
  intros [Ht Ha _ _] Hargs Hr Hc. destruct ctx as [c|]; [|done]. destruct (args_parse _ _ _ Hargs) as [dst Hd].
  pose proof (ParsePrefix_ok _ _ Hd) as [Ho Hv]. set (k := with_dst (mr_Route mr) (prefix_String (Masked dst))) in *.
  assert (forall fam rs, c !! fam = Some rs -> forall qd q, prefix_ok qd -> pfx_IsValid qd = true -> dst_family qd = fam ->
            shows qd q rs || is_ours qd q k = shows qd q (table fam w')) as Hs.
  { intros fam rs E qd q Hq Vq <-. rewrite (Ha _ _ _ _ _ _ q qd Hq Vq Hargs Hr Hd). destruct (Hc _ _ E) as [_ ->]; done. }
  assert (forall fam rs, c !! fam = Some rs -> fam <> dst_family dst -> Forall (fun k => rt_Table k = "") rs /\
            forall qd q, prefix_ok qd -> pfx_IsValid qd = true -> dst_family qd = fam -> shows qd q rs = shows qd q (table fam w')) as Hother.
  { intros fam rs E Hf. split; [by destruct (Hc _ _ E)|]. intros qd q Hq Vq E'. rewrite <- (Hs _ _ E) by done.
    rewrite (other_family dst _ _ k (Masked dst)), orb_false_r; [done|done|done|by eapply added_parses|by apply masked_dst_family|congruence]. }
  unfold RouteAdded, recache. rewrite Hd, (familyOf_parsed _ _ _ Hd). destruct (c !! dst_family dst) as [rs|] eqn:E.
  - intros fam rs' E'. destruct (decide (fam = dst_family dst)) as [->|Hf].
    + rewrite lookup_insert_eq in E'. injection E' as <-. destruct (Hc _ _ E) as [Hall _]. split.
      * apply Forall_app. split; [done|]. by apply Forall_singleton.
      * intros qd q Hq Vq Hf. rewrite shows_app. unfold shows at 2. cbn [existsb]. rewrite orb_false_r. by apply Hs.
    + rewrite lookup_insert_ne in E' by done. by apply Hother.
  - intros fam rs' E'. apply Hother; [done|]. intros ->. congruence.
Qed.

(** Without a table read for the family nothing is known, and nothing is
    claimed. *)
Lemma same_dst_ours dst k qd q : prefix_ok qd -> pfx_IsValid qd = true -> Masked qd = Masked dst -> same_dst dst k = false -> is_ours qd q k = false.
Proof.
  intros _ _ E. unfold same_dst, is_ours. destruct (ParsePrefix (rt_DstCIDR k)) as [kp|]; [|done]. rewrite <- E. intros ->. by rewrite orb_true_r.
Qed.

Lemma shows_kept dst qd q rs : Forall (fun k => rt_Table k = "") rs -> prefix_ok qd -> pfx_IsValid qd = true ->
  shows qd q (keep_if (fun k => negb (same_dst dst k && (rt_Table k =s? ""))) rs) = shows qd q rs && negb (bool_decide (Masked qd = Masked dst)).
Proof.
  intros Ht Hq Vq. set (f := fun k => negb (same_dst dst k && (rt_Table k =s? ""))). induction Ht as [|k rs Hk Ht IH]; [done|].
  change (shows qd q (k :: rs)) with (is_ours qd q k || shows qd q rs). change (keep_if f (k :: rs)) with (if f k then k :: keep_if f rs else keep_if f rs). unfold f at 1.
  rewrite Hk. change ("" =s? "") with true. rewrite andb_true_r. destruct (same_dst dst k) eqn:Es; cbn [negb].
  - rewrite IH. destruct (bool_decide_reflect (Masked qd = Masked dst)) as [|Hne]; [by rewrite !andb_false_r|].
    rewrite !andb_true_r. unfold is_ours. unfold same_dst in Es. destruct (ParsePrefix (rt_DstCIDR k)) as [kp|]; [|done].
    apply bool_decide_eq_true_1 in Es. rewrite (bool_decide_eq_false_2 (Masked kp = Masked qd)) by congruence. by rewrite orb_true_r.
  - change (shows qd q (k :: keep_if f rs)) with (is_ours qd q k || shows qd q (keep_if f rs)). rewrite IH.
    destruct (bool_decide_reflect (Masked qd = Masked dst)); [|by rewrite !andb_true_r]. rewrite !andb_false_r, orb_false_r. by eapply same_dst_ours.
Qed.

Lemma unchanged_coherent ctx w w' :
  (forall qd q, prefix_ok qd -> pfx_IsValid qd = true -> shows qd q (table (dst_family qd) w') = shows qd q (table (dst_family qd) w)) ->
  coherent ctx w -> coherent ctx w'.
Proof.
  intros H Hc. destruct ctx as [c|]; [|done]. intros fam rs E. destruct (Hc _ _ E) as [Ht Hs]. split; [done|]. intros qd q Ho Hv <-. rewrite H by done. by apply Hs.
Qed.

Lemma deleted_coherent ctx r dst w w' : rt_Table r = "" -> ParsePrefix (rt_DstCIDR r) = Some dst ->
  (forall qd q, prefix_ok qd -> pfx_IsValid qd = true ->
     shows qd q (table (dst_family qd) w') = shows qd q (table (dst_family qd) w) && negb (bool_decide (Masked qd = Masked dst))) ->
  coherent ctx w -> coherent (RouteDeleted ctx r) w'.
Proof.
  intros Ht Hd H Hc. destruct ctx as [c|]; [|done]. pose proof (ParsePrefix_ok _ _ Hd) as [Ho Hv]. unfold RouteDeleted, recache. rewrite Hd, (familyOf_parsed _ _ _ Hd).
  assert (forall fam rs, c !! fam = Some rs -> fam <> dst_family dst -> Forall (fun k => rt_Table k = "") rs /\
            forall qd q, prefix_ok qd -> pfx_IsValid qd = true -> dst_family qd = fam -> shows qd q rs = shows qd q (table fam w')) as Hother.
  { intros fam rs E Hf. destruct (Hc _ _ E) as [Hall Hs]. split; [done|]. intros qd q Hq Vq <-. rewrite H, <- (Hs qd q) by done.
    rewrite bool_decide_eq_false_2; [by rewrite andb_true_r|]. intros E'. by apply Hf, masked_family. }
  destruct (c !! dst_family dst) as [rs|] eqn:E.
  - intros fam rs' E'. destruct (decide (fam = dst_family dst)) as [->|Hf].
    + rewrite lookup_insert_eq in E'. injection E' as <-. rewrite Ht. destruct (Hc _ _ E) as [Hall Hs]. split.
      * rewrite Forall_forall in *. intros k Hk. apply elem_of_keep_if in Hk as [Hk _]. by apply Hall.
      * intros qd q Hq Vq Hf. rewrite shows_kept, (Hs qd q) by done. rewrite <- Hf. by rewrite H.
    + rewrite lookup_insert_ne in E' by done. by apply Hother.
  - intros fam rs' E'. apply Hother; [done|]. intros ->. congruence.
Qed.

Lemma shows_masked a b q rs : Masked a = Masked b -> shows a q rs = shows b q rs.
Proof. intros E. unfold shows, is_ours. by rewrite E. Qed.

(** The check sees the same with a cache and without. *)
Lemma stillOurs_cached ctx r w : coherent ctx w ->
  fst (stillOurs list_ ctx r w) = fst (stillOurs list_ None r w) /\ coherent (snd (stillOurs list_ ctx r w)) w.
Proof.
  intros Hc. unfold stillOurs. destruct (ParsePrefix (rt_DstCIDR r)) as [dst|] eqn:Hd; [|done]. pose proof (ParsePrefix_ok _ _ Hd) as [Ho Hv].
  fold (dst_family dst). destruct (list_total (dst_family dst) w) as (rs & Hl & Hall). assert (table (dst_family dst) w = rs) as Htab by (unfold table; by rewrite Hl).
  unfold CachedRoutes. destruct ctx as [c|]; [|by rewrite Hl]. destruct (c !! dst_family dst) as [cached|] eqn:E.
  - rewrite Hl. cbn. split; [|done]. f_equal. destruct (Hc _ _ E) as [_ Hs]. specialize (Hs dst r Ho Hv eq_refl). rewrite Htab in Hs. exact Hs.
  - rewrite Hl. cbn. split; [done|]. intros fam rs' E'. destruct (decide (fam = dst_family dst)) as [->|Hf].
    + rewrite lookup_insert_eq in E'. injection E' as <-. split; [done|]. intros qd q _ _ _. by rewrite Htab.
    + rewrite lookup_insert_ne in E' by done. by apply Hc.
Qed.

Lemma delete_args_cached ctx mr args w : lawful mr -> macRouteArgs "delete" mr = inr args -> coherent ctx w ->
  let '(err, ctx', w') := delete_args route ctx mr args w in
  let '(err0, _, w0) := delete_args route None mr args w in err = err0 /\ w' = w0 /\ coherent ctx' w'.
Proof.
  intros [Ht _ Hdel Hgone] Hargs Hc. unfold delete_args. destruct (route args w) as [[out err] w'] eqn:Hr. destruct (args_parse _ _ _ Hargs) as [dst Hd].
  assert (forall e, err = Some e -> forall qd q, prefix_ok qd -> pfx_IsValid qd = true -> shows qd q (table (dst_family qd) w') = shows qd q (table (dst_family qd) w)) as Hsame.
  { intros e -> qd q Ho Hv. rewrite (Hdel _ _ _ _ _ _ q qd Ho Hv Hargs Hr Hd). by rewrite andb_true_r. }
  destruct err as [e|].
  - destruct (Contains_str out "not in table" || Contains_str out "No such") eqn:Eo; (split; [done|split; [done|]]).
    + eapply deleted_coherent; [done|done| |exact Hc]. intros qd q Ho Hv. rewrite (Hsame e) by done.
      destruct (bool_decide_reflect (Masked qd = Masked dst)) as [E|]; [|by rewrite andb_true_r]. rewrite andb_false_r, (shows_masked qd dst) by done.
      pose proof (ParsePrefix_ok _ _ Hd) as [Ho' Hv']. rewrite (masked_family qd dst) by done. by eapply Hgone.
    + eapply unchanged_coherent; [|exact Hc]. intros qd q Ho Hv. by apply (Hsame e).
  - split; [done|split; [done|]]. eapply deleted_coherent; [done|done| |exact Hc]. intros qd q Ho Hv. by rewrite (Hdel _ _ _ _ _ _ q qd Ho Hv Hargs Hr Hd).
Qed.

Lemma change_cached ctx c w : lawful (change_route c) -> coherent ctx w ->
  let '(err, ctx', w') := run_change ctx c w in let '(err0, ctx0, w0) := run_change None c w in err = err0 /\ w' = w0 /\ ctx0 = None /\ coherent ctx' w'.
Proof.
  intros Hl Hc. destruct c as [mr|mr]; cbn [run_change change_route] in *.
  - unfold mac_AddRoute. destruct (macRouteArgs "add" mr) as [e|args] eqn:Hargs; [done|]. destruct (route args w) as [[out err] w'] eqn:Hr.
    destruct err as [e|]; [|split; [done|]; split; [done|]; split; [done|]; by eapply added_coherent].
    assert (coherent ctx w') as Hc'; [|by destruct (Contains_str out "File exists")].
    eapply unchanged_coherent; [|exact Hc]. intros qd q Ho Hv. destruct (args_parse _ _ _ Hargs) as [dst Hd].
    rewrite (la_add mr Hl _ _ _ _ _ _ q qd Ho Hv Hargs Hr Hd). by rewrite orb_false_r.
  - unfold mac_DelRoute. destruct (macRouteArgs "delete" mr) as [e|args] eqn:Hargs; [done|].
    assert (forall ctx', coherent ctx' w -> let '(err, ctx'', w') := delete_args route ctx' mr args w in
              let '(err0, ctx0, w0) := delete_args route None mr args w in err = err0 /\ w' = w0 /\ ctx0 = None /\ coherent ctx'' w') as Hdel.
    { intros ctx' Hc'. pose proof (delete_args_cached ctx' mr args w Hl Hargs Hc') as H. destruct (delete_args route ctx' mr args w) as [[err ctx''] w'].
      assert (snd (fst (delete_args route None mr args w)) = None) as Hn.
      { unfold delete_args. destruct (route args w) as [[out [e|]] ?]; [|done]. by destruct (Contains_str out "not in table" || Contains_str out "No such"). }
      destruct (delete_args route None mr args w) as [[err0 ctx0] w0]. cbn in Hn. naive_solver. }
    destruct (mr_ProfileID mr =s? ""); [by apply Hdel|]. destruct (stillOurs_cached ctx (mr_Route mr) w Hc) as [Hf Hc'].
    assert (snd (stillOurs list_ None (mr_Route mr) w) = None) as Hn.
    { unfold stillOurs. destruct (ParsePrefix _) as [d|]; [|done]. cbn. by destruct (list_ _ w). }
    destruct (stillOurs list_ ctx (mr_Route mr) w) as [res ctx'], (stillOurs list_ None (mr_Route mr) w) as [res0 ctx0]. cbn in *. subst res0 ctx0.
    destruct res as [e|[]]; [done|by apply Hdel|done].
Qed.

Lemma batch_coherent cs : forall ctx w, Forall (fun c => lawful (change_route c)) cs -> coherent ctx w -> run_batch ctx cs w = run_batch None cs w.
Proof.
  induction cs as [|c cs IH]; intros ctx w Hl Hc; [done|]. apply Forall_cons in Hl as [Hl Hls]. cbn [run_batch]. pose proof (change_cached ctx c w Hl Hc) as H.
  destruct (run_change ctx c w) as [[err ctx'] w'], (run_change None c w) as [[err0 ctx0] w0]. destruct H as (-> & -> & -> & Hc'). by rewrite IH.
Qed.

End batch.

(** the table cache changes nothing but the number of reads: a batch of adds and
    deletes, each of which does in the table what it says, ends with the same
    results and the same host with a cache as with the table read anew for
    every delete. *)
Theorem cache_is_transparent {W} (list_ : Family -> W -> error + list Route) route cs w :
  (forall fam w, exists rs, list_ fam w = inr rs /\ Forall (fun k => rt_Table k = "") rs) ->
  Forall (fun c => lawful list_ route (change_route c)) cs ->
  run_batch list_ route (WithTableCache None) cs w = run_batch list_ route None cs w.
Proof. intros Ht Hl. by apply batch_coherent. Qed.

(** A host with one destination route(8) may add and delete. *)
Definition ex_mr : ManagedRoute := mkMR (mkRoute "10.0.0.0/8" "192.168.1.1" "en0" 0 FamilyV4 OwnerSystem "" "" "" false false false) "p1" 0.
Definition ex_dst : prefix := mkPrefix (Addr4 167772160) 8.
Definition ex_list (fam : Family) (installed : bool) : error + list Route := inr (if (fam =s? FamilyV4) && installed then [mr_Route ex_mr] else []).
Definition ex_fail : error := Errorf "exit status 1" [].
Definition ex_mac_route (args : list string) (installed : bool) : string * option error * bool :=
  if bool_decide (inr args = macRouteArgs "add" ex_mr) then if installed then ("route: File exists", Some ex_fail, true) else ("", None, true)
  else if bool_decide (inr args = macRouteArgs "delete" ex_mr) then if installed then ("", None, false) else ("not in table", Some ex_fail, false)
  else ("", Some ex_fail, installed).

Lemma ex_shows qd q installed : prefix_ok qd -> pfx_IsValid qd = true ->
  shows qd q (table ex_list (dst_family qd) installed) = installed && is_ours qd q (mr_Route ex_mr).
Proof.
  intros Ho Hv. unfold table, ex_list. destruct installed; [|by rewrite andb_false_r]. rewrite andb_true_r. destruct (String.eqb_spec (dst_family qd) FamilyV4) as [E|E]; [apply orb_false_r|].
  symmetry. cbn [andb shows existsb]. apply (other_family ex_dst qd q (mr_Route ex_mr) ex_dst); [done|done|vm_compute; reflexivity|done|exact E].
Qed.

Lemma ex_ours_dst qd q : is_ours qd q (mr_Route ex_mr) = true -> Masked qd = Masked ex_dst.
Proof.
  unfold is_ours. assert (ParsePrefix (rt_DstCIDR (mr_Route ex_mr)) = Some ex_dst) as -> by (vm_compute; reflexivity).
  destruct (bool_decide_reflect (Masked ex_dst = Masked qd)); [done|]. by rewrite orb_true_r.
Qed.

Lemma ex_lawful : lawful ex_list ex_mac_route ex_mr.
Proof.
  assert (ParsePrefix (rt_DstCIDR (mr_Route ex_mr)) = Some ex_dst) as Hp by (vm_compute; reflexivity).
  assert (with_dst (mr_Route ex_mr) (prefix_String (Masked ex_dst)) = mr_Route ex_mr) as Hw by (vm_compute; reflexivity).
  split; [done|..].
  - intros args w out err w' dst q qd Ho Hv Ha Hr Hd. rewrite Hp in Hd. injection Hd as <-. rewrite Hw, !ex_shows by done. unfold ex_mac_route in Hr.
    rewrite bool_decide_eq_true_2 in Hr by done. destruct w; injection Hr as <- <- <-; cbn [andb]; [by rewrite orb_false_r|done].
  - intros args w out err w' dst q qd Ho Hv Ha Hr Hd. rewrite Hp in Hd. injection Hd as <-. rewrite !ex_shows by done. unfold ex_mac_route in Hr.
    rewrite bool_decide_eq_false_2 in Hr by (rewrite <- Ha; vm_compute; discriminate). rewrite bool_decide_eq_true_2 in Hr by done.
    destruct w; injection Hr as <- <- <-; cbn [andb]; [|done]. destruct (is_ours qd q (mr_Route ex_mr)) eqn:E; [|done]. apply ex_ours_dst in E. by rewrite bool_decide_eq_true_2.
  - intros args w out e w' dst q Ha Hr Hd Hout. rewrite Hp in Hd. injection Hd as <-. rewrite ex_shows by (done || by eapply (ParsePrefix_ok _ _ Hp)). unfold ex_mac_route in Hr.
    rewrite bool_decide_eq_false_2 in Hr by (rewrite <- Ha; vm_compute; discriminate). rewrite bool_decide_eq_true_2 in Hr by done. destruct w; [done|by injection Hr as <- <- <-].
Qed.

Lemma cache_is_transparent_witness :
  run_batch ex_list ex_mac_route (WithTableCache None) [AddR ex_mr; AddR ex_mr; DelR ex_mr; DelR ex_mr] false =
  run_batch ex_list ex_mac_route None [AddR ex_mr; AddR ex_mr; DelR ex_mr; DelR ex_mr] false.
Proof.
  apply (cache_is_transparent ex_list ex_mac_route [AddR ex_mr; AddR ex_mr; DelR ex_mr; DelR ex_mr] false).
  - intros fam w. eexists. split; [reflexivity|]. destruct ((fam =s? FamilyV4) && w); [|constructor]. by apply Forall_singleton.
  - repeat (apply Forall_cons_2; [exact ex_lawful|]). apply Forall_nil_2.
Defined.

(** ** Deleting *)

(** a managed delete leaves other people's routes alone: route(8), which deletes
    by destination alone, is run only if the table shows a route for the
    destination, not a clone, with the gateway of the record (or its interface,
    for an on-link one, or the refusal, for a reject route); otherwise nothing
    is run and the delete is done, and a table that cannot be read is an
    error. *)
Theorem delete_only_ours {W} (list_ : Family -> W -> error + list Route) route mr args dst w :
  macRouteArgs "delete" mr = inr args -> mr_ProfileID mr <> "" -> ParsePrefix (rt_DstCIDR (mr_Route mr)) = Some dst ->
  match list_ (dst_family dst) w with
  | inl _ => exists e, mac_DelRoute list_ route None mr w = (Some e, None, w)
  | inr rs =>
      (mac_DelRoute list_ route None mr w = (None, None, w) /\ (forall k, k ∈ rs -> is_ours dst (mr_Route mr) k = false)) \/
      (mac_DelRoute list_ route None mr w = delete_args route None mr args w /\
       exists k kp, k ∈ rs /\ ParsePrefix (rt_DstCIDR k) = Some kp /\ Masked kp = Masked dst /\ rt_Cloned k = false /\ rt_Reject k = rt_Reject (mr_Route mr) /\
         (rt_Reject k = false -> if rt_Gateway (mr_Route mr) =s? "" then rt_Iface k = rt_Iface (mr_Route mr) else SameGateway (rt_Gateway k) (rt_Gateway (mr_Route mr)) = true))
  end.
Proof.
  intros Ha Hid Hd. unfold mac_DelRoute, stillOurs. rewrite Ha, (proj2 (String.eqb_neq _ _) Hid), Hd. fold (dst_family dst). cbn [CachedRoutes].
  destruct (list_ (dst_family dst) w) as [e|rs]; [by eexists|]. destruct (existsb (is_ours dst (mr_Route mr)) rs) eqn:E.
  - right. split; [done|]. apply existsb_exists in E as (k & Hk & Ho). rewrite <- list_elem_of_In in Hk. unfold is_ours in Ho.
    destruct (ParsePrefix (rt_DstCIDR k)) as [kp|] eqn:Ek; [|done]. exists k, kp. destruct (rt_Cloned k); [done|]. cbn [orb] in Ho.
    destruct (bool_decide_reflect (Masked kp = Masked dst)); [|done]. cbn [negb] in Ho.
    destruct (rt_Reject (mr_Route mr)), (rt_Reject k); cbn [orb andb] in Ho; try done; (repeat (split; [done|])); intros Hf; try done.
    destruct (rt_Gateway (mr_Route mr) =s? ""); cbn [negb] in Ho; [by apply String.eqb_eq|]. by apply andb_prop in Ho as [_ ?].
  - left. split; [done|]. intros k Hk. destruct (is_ours dst (mr_Route mr) k) eqn:Ek; [|done]. rewrite list_elem_of_In in Hk.
    assert (existsb (is_ours dst (mr_Route mr)) rs = true) by (apply existsb_exists; eauto). congruence.
Qed.

Lemma delete_only_ours_witness : exists e, mac_DelRoute (fun _ _ => inl ex_fail) ex_mac_route None ex_mr true = (Some e, None, true).
Proof.
  refine (delete_only_ours (fun _ _ => inl ex_fail) ex_mac_route ex_mr ["-n"; "delete"; "-net"; "10.0.0.0/8"; "192.168.1.1"] ex_dst true _ _ _); [vm_compute; reflexivity|discriminate|vm_compute; reflexivity].
Defined.

(** ** The physical gateway *)

Lemma pickPhysicalDefault_spec routes isVPN :
  match pickPhysicalDefault routes isVPN with
  | Some (a, ifn) => Is4 a = true /\ exists r, r ∈ routes /\ rt_Iface r = ifn /\ isVPN ifn = false /\ rt_Table r = "" /\ rt_DstCIDR r = "0.0.0.0/0" /\ ParseAddr (rt_Gateway r) = Some a
  | None => forall r a, r ∈ routes -> rt_Table r = "" -> rt_DstCIDR r = "0.0.0.0/0" -> isVPN (rt_Iface r) = false -> ParseAddr (rt_Gateway r) = Some a -> Is4 a = false
  end.
Proof.
  induction routes as [|r routes IH]; [by intros ? ? ?%elem_of_nil|]. cbn [pickPhysicalDefault].
  assert (forall P : Prop, (match pickPhysicalDefault routes isVPN with
            | Some (a, ifn) => Is4 a = true /\ exists r0, r0 ∈ r :: routes /\ rt_Iface r0 = ifn /\ isVPN ifn = false /\ rt_Table r0 = "" /\ rt_DstCIDR r0 = "0.0.0.0/0" /\ ParseAddr (rt_Gateway r0) = Some a
            | None => forall r0 a, r0 ∈ routes -> rt_Table r0 = "" -> rt_DstCIDR r0 = "0.0.0.0/0" -> isVPN (rt_Iface r0) = false -> ParseAddr (rt_Gateway r0) = Some a -> Is4 a = false
            end -> P) -> P) as Hrest.
  { intros P HP. apply HP. destruct (pickPhysicalDefault routes isVPN) as [[a ifn]|]; [|exact IH]. destruct IH as (H4 & k & Hk & Hr). split; [done|]. exists k. split; [by right|done]. }
  destruct (negb (rt_Table r =s? "") || negb (rt_DstCIDR r =s? "0.0.0.0/0") || isVPN (rt_Iface r)) eqn:E.
  - apply Hrest. clear Hrest. intros H. destruct (pickPhysicalDefault routes isVPN) as [[a ifn]|]; [done|].
    intros k a Hk Ht Hd Hv Ha. apply elem_of_cons in Hk as [->|Hk]; [|by eapply H]. by rewrite Ht, Hd, Hv in E.
  - apply orb_false_elim in E as [[Et Ed]%orb_false_elim Ev]. apply negb_false_iff, String.eqb_eq in Et, Ed.
    destruct (ParseAddr (rt_Gateway r)) as [a|] eqn:Ea; [destruct (Is4 a) eqn:E4|].
    + split; [done|]. exists r. split; [left|done].
    + apply Hrest. clear Hrest. intros H. destruct (pickPhysicalDefault routes isVPN) as [[b ifn]|]; [done|].
      intros k b Hk Ht Hd Hv Hb. apply elem_of_cons in Hk as [->|Hk]; [congruence|by eapply H].
    + apply Hrest. clear Hrest. intros H. destruct (pickPhysicalDefault routes isVPN) as [[b ifn]|]; [done|].
      intros k b Hk Ht Hd Hv Hb. apply elem_of_cons in Hk as [->|Hk]; [congruence|by eapply H].
Qed.

(** the IPv4 gateway is the physical one whenever the host shows one. If the
    gateway found is on a tunnel, then the default that wins is not physical,
    the primary interface has no DHCP router, and the table, if it can be read,
    has no default route with a next hop on an interface that is not a
    tunnel. *)
Theorem gateway_is_physical {W} `{!MacHost W} (w : W) a ifn :
  mac_DefaultGateway FamilyV4 w = inr (a, ifn) -> is_vpn ifn = true ->
  dhcp_router w = None /\ defaultViaRouteGet false w = inr (a, ifn) /\
  forall rs r g, mac_ListRoutes FamilyV4 w = inr rs -> r ∈ rs -> rt_Table r = "" -> rt_DstCIDR r = "0.0.0.0/0" -> is_vpn (rt_Iface r) = false ->
    ParseAddr (rt_Gateway r) = Some g -> Is4 g = false.
Proof.
  unfold mac_DefaultGateway. change (FamilyV4 =s? FamilyV6) with false. cbv iota zeta. intros H Hv.
  destruct (physicalWinner (defaultViaRouteGet false w) is_physical) as [gw|] eqn:Ew.
  - injection H as ->. unfold physicalWinner in Ew. destruct (defaultViaRouteGet false w) as [|[g i]]; [done|].
    destruct (negb (Is4 g) || (i =s? "") || negb (is_physical i)) eqn:E; [done|]. injection Ew as -> ->. apply orb_false_elim in E as [_ E]. apply negb_false_iff in E.
    unfold is_physical, is_vpn in *. destruct (mac_classifyIface ifn) as [k v]. cbn in Hv. subst v. by rewrite andb_false_r in E.
  - destruct (dhcp_router w) as [gw|] eqn:Ed.
    + exfalso. injection H as ->. unfold dhcp_router in Ed. destruct (primaryPhysicalIface w =s? "") eqn:Ep; [done|]. destruct (mac_run _ w) as [|out]; [done|].
      destruct (ParseAddr (TrimSpace out)) as [b|]; [|done]. injection Ed as <- <-. unfold primaryPhysicalIface in *. destruct (mac_ifaces w) as [|ifs]; [done|].
      destruct (List.find _ ifs) as [f|] eqn:Ef; [|done]. apply find_some in Ef as [_ Ef]. rewrite Hv in Ef. by rewrite andb_false_r in Ef.
    + destruct (match mac_ListRoutes FamilyV4 w with inl _ => None | inr rs => pickPhysicalDefault rs is_vpn end) as [gw|] eqn:Et.
      * exfalso. injection H as ->. destruct (mac_ListRoutes FamilyV4 w) as [|rs]; [done|]. pose proof (pickPhysicalDefault_spec rs is_vpn) as Hs. rewrite Et in Hs.
        destruct Hs as (_ & r & _ & _ & Hf & _). congruence.
      * split; [done|]. split; [done|]. intros rs r g Hl. rewrite Hl in Et. pose proof (pickPhysicalDefault_spec rs is_vpn) as Hs. rewrite Et in Hs. apply Hs.
Qed.

(** A host on a VPN only. *)
Definition ex_vpn_get : string := "   route to: default" +:+ nl +:+ "    gateway: 10.8.0.1" +:+ nl +:+ "  interface: utun3" +:+ nl.
#[local] Instance ex_vpn_host : MacHost unit := {|
  FetchRIB _ _ := inr "";
  ParseRIB _ := inr [];
  mac_ifaces _ := inr [mkNetIface 1 "utun3" true false [("10.8.0.2/32", true)] 1400];
  mac_run args _ := if bool_decide (args = ["route"; "-n"; "get"; "default"]) then inr ex_vpn_get else inl ex_fail;
|}.

Lemma gateway_is_physical_witness : dhcp_router tt = None.
Proof.
  refine (proj1 (gateway_is_physical tt (Addr4 168296449) "utun3" _ _)); vm_compute; reflexivity.
Defined.
