(* ===== verification/Updater.v ===== *)
(** * Installing and rolling back an update (internal/updater)

    The files an update touches and the code that changes them: the swap that
    installs a staged release (updater.go), the boot guard that counts the
    starts of an update on probation and rolls it back (boot.go), and the
    updater's memory across restarts (state.go) with the manifests it keeps
    (manifest.go). The disk maps a path to a
    file; each operation on it works, fails, or the process dies before it (a
    crash or a power cut), as a list of fates says. Files are replaced through
    a temporary file and a rename, so each write is one operation; a file's
    existence is read exactly. The checks and downloads that lead to a swap are
    left out. *)

From S2P Require Import Prelude.
From S2P Require Import Netip NetipText Domain Provider.

(** ** Data *)

Record LastAdvice : Type := mkLastAdvice { la_Version : string; la_RolloutPercent : Z; la_Halt : bool; la_At : Z }.

(** [RollbackError] is the error whose text the field holds. *)
Record persisted : Type := mkPersisted {
  ps_Bucket : Z;
  ps_Skip : string;
  ps_RolledBackFrom : string;
  ps_RolledBackBy : string;
  ps_RollbackError : option error;
  ps_InstalledAt : Z;
  ps_LastCheck : Z;
  ps_OpenVPNSwap : string;
  ps_HelperSwap : gmap string string;
  ps_OpenVPNRepair : string;
  ps_HelperRepair : gmap string string;
  ps_LastAdvice : LastAdvice;
}.

Record marker : Type := mkMarker { mk_From : string; mk_To : string; mk_At : Z; mk_Boots : Z; mk_Rollback : bool }.

(** A release manifest as signed, with its signature (manifest.go). *)
Record signedManifest : Type := mkSignedManifest { sm_Version : string; sm_Manifest : string; sm_Signature : string }.

(** A file holds a program or a database, or a document of the updater's. *)
Inductive content : Type := Blob (bytes : string) | MarkerDoc (m : marker) | StateDoc (ps : persisted) | ManifestDoc (sm : signedManifest).

Abbreviation disk := (gmap string content) (only parsing).

(** ** Effects *)

Inductive fate : Type := Works | Fails | Dies.

(** [None]: the process died. *)
Definition IO (A : Type) : Type := disk -> list fate -> option A * disk * list fate.

Definition ret {A} (a : A) : IO A := fun d fs => (Some a, d, fs).
Definition bind {A B} (m : IO A) (f : A -> IO B) : IO B :=
  fun d fs => match m d fs with (Some a, d, fs) => f a d fs | (None, d, fs) => (None, d, fs) end.

Notation "'let!' x := m 'in' f" := (bind m (fun x => f)) (at level 200, x pattern, m at level 100, f at level 200, right associativity) : go_scope.
Notation "m ;; f" := (bind m (fun _ => f)) (at level 100, right associativity) : go_scope.

Definition get : IO disk := fun d fs => (Some d, d, fs).

(** One operation: what it answers and leaves when it works, what it answers
    when it fails. *)
Definition attempt {A} (works : disk -> A * disk) (fails : A) : IO A :=
  fun d fs =>
    match fs with
    | [] => let '(a, d) := works d in (Some a, d, [])
    | Works :: fs => let '(a, d) := works d in (Some a, d, fs)
    | Fails :: fs => (Some fails, d, fs)
    | Dies :: fs => (None, d, fs)
    end.

Definition ErrNotExist : error := Errorf "file does not exist" [].
Definition ErrIO : error := Errorf "input/output error" [].

Definition ReadFile (path : string) : IO (error + content) :=
  attempt (fun d => (match d !! path with Some c => inr c | None => inl ErrNotExist end, d)) (inl ErrIO).

Definition writeFileAtomic (path : string) (c : content) : IO (option error) :=
  attempt (fun d => (None, <[path := c]> d)) (Some ErrIO).

Definition copyFileAtomic (src dst : string) : IO (option error) :=
  attempt (fun d => match d !! src with Some c => (None, <[dst := c]> d) | None => (Some ErrNotExist, d) end) (Some ErrIO).

Definition os_Rename (src dst : string) : IO (option error) :=
  attempt (fun d => match d !! src with Some c => (None, <[dst := c]> (delete src d)) | None => (Some ErrNotExist, d) end) (Some ErrIO).

(** [os.Remove], whose error every caller ignores. *)
Definition os_Remove (path : string) : IO unit := attempt (fun d => (tt, delete path d)) tt.

Definition fileExists (path : string) (d : disk) : bool := bool_decide (is_Some (d !! path)).

(** A directory is the files below it; [os.RemoveAll]'s error is ignored too. *)
Definition under (root path : string) : bool := HasPrefix path (root +:+ "/").
Definition os_RemoveAll (root : string) : IO unit := attempt (fun d => (tt, filter (fun f => under root f.1 = false) d)) tt.

(** ** The state file (state.go) *)

Definition statePath (dir : string) : string := dir +:+ "/update-state.json".
Definition backupPath (dir : string) : string := dir +:+ "/update-backup.db".
Definition pendingPath (dir : string) : string := dir +:+ "/update-pending.json".
Definition prevBinary (bin : string) : string := bin +:+ ".prev".
Definition stagingDir (dir : string) : string := dir +:+ "/update-staging".
Definition manifestPath (dir which : string) : string := dir +:+ "/update-manifest-" +:+ which +:+ ".json".

Definition helperReplaced : string := "replaced".
Definition helperAdded : string := "added".
Definition helperOpenVPN : string := "openvpn".
Definition helperCharonCmd : string := "charon-cmd".
Definition helperNames : list string := [helperOpenVPN; helperCharonCmd].

Definition fresh_state (bucket : Z) : persisted :=
  mkPersisted bucket "" "" "" None 0 0 "" ∅ "" ∅ (mkLastAdvice "" 0 false 0).

Definition swapOf (ps : persisted) (name : string) : string :=
  if name =s? helperOpenVPN then ps_OpenVPNSwap ps else default "" (ps_HelperSwap ps !! name).

Definition setOrDelete (m : gmap string string) (k v : string) : gmap string string :=
  if v =s? "" then delete k m else <[k := v]> m.

Definition setSwap (name how : string) (ps : persisted) : persisted :=
  let '(ovpn, swaps) := if name =s? helperOpenVPN then (how, ps_HelperSwap ps)
                        else (ps_OpenVPNSwap ps, setOrDelete (ps_HelperSwap ps) name how) in
  mkPersisted (ps_Bucket ps) (ps_Skip ps) (ps_RolledBackFrom ps) (ps_RolledBackBy ps) (ps_RollbackError ps)
    (ps_InstalledAt ps) (ps_LastCheck ps) ovpn swaps (ps_OpenVPNRepair ps) (ps_HelperRepair ps) (ps_LastAdvice ps).

Definition repairOf (ps : persisted) (name : string) : string :=
  if name =s? helperOpenVPN then ps_OpenVPNRepair ps else default "" (ps_HelperRepair ps !! name).

Definition setRepair (name version : string) (ps : persisted) : persisted :=
  let '(ovpn, repairs) := if name =s? helperOpenVPN then (version, ps_HelperRepair ps)
                          else (ps_OpenVPNRepair ps, setOrDelete (ps_HelperRepair ps) name version) in
  mkPersisted (ps_Bucket ps) (ps_Skip ps) (ps_RolledBackFrom ps) (ps_RolledBackBy ps) (ps_RollbackError ps)
    (ps_InstalledAt ps) (ps_LastCheck ps) (ps_OpenVPNSwap ps) (ps_HelperSwap ps) ovpn repairs (ps_LastAdvice ps).

(** The fields the boot guard sets: skip, rolled back from and by, rollback
    error, installed at. *)
Definition set_rolled_back (version by_ : string) (ps : persisted) : persisted :=
  mkPersisted (ps_Bucket ps) version version by_ None
    (ps_InstalledAt ps) (ps_LastCheck ps) (ps_OpenVPNSwap ps) (ps_HelperSwap ps) (ps_OpenVPNRepair ps) (ps_HelperRepair ps) (ps_LastAdvice ps).
Definition set_confirmed (now : Z) (ps : persisted) : persisted :=
  mkPersisted (ps_Bucket ps) (ps_Skip ps) "" "" None
    now (ps_LastCheck ps) (ps_OpenVPNSwap ps) (ps_HelperSwap ps) (ps_OpenVPNRepair ps) (ps_HelperRepair ps) (ps_LastAdvice ps).
Definition set_rollback_error (e : error) (ps : persisted) : persisted :=
  mkPersisted (ps_Bucket ps) (ps_Skip ps) (ps_RolledBackFrom ps) (ps_RolledBackBy ps) (Some e)
    (ps_InstalledAt ps) (ps_LastCheck ps) (ps_OpenVPNSwap ps) (ps_HelperSwap ps) (ps_OpenVPNRepair ps) (ps_HelperRepair ps) (ps_LastAdvice ps).

Section updater.
(** [rand16] is the random number a fresh bucket is drawn with. *)
Context (rand16 : Z) (now : Z).

Definition saveLocked (dir : string) (ps : persisted) : IO (option error) := writeFileAtomic (statePath dir) (StateDoc ps).

Definition loadLocked (dir : string) : IO (error + persisted) :=
  let fresh := let ps := fresh_state (rand16 mod 100) in
               let! err := saveLocked dir ps in
               ret (match err with Some e => inl e | None => inr ps end) in
  let! r := ReadFile (statePath dir) in
  match r with
  | inr (StateDoc ps) => if (0 <=? ps_Bucket ps) && (ps_Bucket ps <? 100) then ret (inr ps) else fresh
  | inr _ => fresh
  | inl e => if bool_decide (e = ErrNotExist) then fresh else ret (inl e)
  end.

Definition updateState (dir : string) (f : persisted -> persisted) : IO (error + persisted) :=
  let! r := loadLocked dir in
  match r with
  | inl e => ret (inl e)
  | inr ps => let! err := saveLocked dir (f ps) in ret (match err with Some e => inl e | None => inr (f ps) end)
  end.

Definition restoreHelper (path how : string) : IO (option error) :=
  if (path =s? "") || negb (how =s? helperReplaced) then ret None
  else
    let prev := prevBinary path in
    let! d := get in
    if negb (fileExists prev d) then ret None
    else let! err := copyFileAtomic prev path in
         match err with
         | Some e => ret (Some e)
         | None => os_Remove prev ;; ret None
         end.

(** ** The boot guard (boot.go) *)

Definition maxBoots : Z := 3.

Record GuardEnv : Type := mkGuardEnv {
  g_Binary : string;
  g_OpenVPN : string;
  g_CharonCmd : string;
  g_StateDir : string;
  g_DBPath : string;
  g_DBVersion : option (disk -> string -> error + Z);
  g_DBMinReader : option (disk -> string -> error + Z);
}.

(** What a start was told: restart now, or the version it is to confirm. *)
Record Guard : Type := mkGuard { gd_RestartNow : bool; gd_confirm : option string }.
Definition no_guard : Guard := mkGuard false None.

Record helper : Type := mkHelper { hp_name : string; hp_path : string; hp_maxSize : Z; hp_version : string }.

Definition maxOpenVPNSize : Z := Z.shiftl 20 20.
Definition maxCharonCmdSize : Z := Z.shiftl 30 20.

Definition helpersAt (openvpn charonCmd : string) : list helper :=
  (if openvpn =s? "" then [] else [mkHelper helperOpenVPN openvpn maxOpenVPNSize "OpenVPN "]) ++
  (if charonCmd =s? "" then [] else [mkHelper helperCharonCmd charonCmd maxCharonCmdSize "charon-cmd, strongSwan "]).

Definition writeMarker (dir : string) (m : marker) : IO (option error) := writeFileAtomic (pendingPath dir) (MarkerDoc m).

Definition readMarker (dir : string) : IO (option marker) :=
  let! r := ReadFile (pendingPath dir) in ret (match r with inr (MarkerDoc m) => Some m | _ => None end).

Definition recordRolledBack (dir version by_ : string) : IO unit :=
  let! _ := updateState dir (set_rolled_back version by_) in ret tt.

Fixpoint restore_each (dir : string) (ps : persisted) (hs : list helper) : IO unit :=
  match hs with
  | [] => ret tt
  | h :: hs' =>
      let how := swapOf ps (hp_name h) in
      if how =s? "" then restore_each dir ps hs'
      else
        let! err := restoreHelper (hp_path h) how in
        match err with
        | Some _ => restore_each dir ps hs'
        | None => updateState dir (setSwap (hp_name h) "") ;; restore_each dir ps hs'
        end
  end.

Definition restoreHelpersFor (env : GuardEnv) : IO unit :=
  let! r := loadLocked (g_StateDir env) in
  match r with
  | inl _ => ret tt
  | inr ps => restore_each (g_StateDir env) ps (helpersAt (g_OpenVPN env) (g_CharonCmd env))
  end.

(** Whether the database is to be restored too. *)
Definition db_too_new (env : GuardEnv) (d : disk) : bool :=
  fileExists (backupPath (g_StateDir env)) d &&
  match g_DBVersion env, g_DBMinReader env with
  | Some version, Some minReader =>
      match version d (backupPath (g_StateDir env)), minReader d (g_DBPath env) with
      | inr oldSchema, inr min => oldSchema <? min
      | _, _ => false
      end
  | _, _ => false
  end.

Definition restore_db (env : GuardEnv) : IO (option error) :=
  let db := g_DBPath env in
  let tmp := db +:+ ".restore" in
  let! err := copyFileAtomic (backupPath (g_StateDir env)) tmp in
  match err with
  | Some e => os_Remove tmp ;; ret (Some (Wrapf "restore database: %w" [] e))
  | None =>
      os_Remove (db +:+ "-wal") ;; os_Remove (db +:+ "-shm") ;;
      let! err := os_Rename tmp db in
      ret (match err with Some e => Some (Wrapf "restore database: %w" [] e) | None => None end)
  end.

Definition rollback (env : GuardEnv) (m : marker) (by_ : string) : IO (option error) :=
  let dir := g_StateDir env in
  let prev := prevBinary (g_Binary env) in
  let! d := get in
  if negb (fileExists prev d) then ret (Some (Errorf "no previous binary to roll back to" []))
  else
    let! err := if db_too_new env d then restore_db env else ret None in
    match err with
    | Some e => ret (Some e)
    | None =>
        restoreHelpersFor env ;;
        let! err := copyFileAtomic prev (g_Binary env) in
        match err with
        | Some e => ret (Some (Wrapf "restore binary: %w" [] e))
        | None =>
            os_Remove prev ;;
            (if mk_Rollback m then os_Remove (pendingPath dir)
             else writeMarker dir (mkMarker (mk_From m) (mk_To m) now (maxBoots + 1) false) ;; ret tt) ;;
            recordRolledBack dir (mk_To m) by_ ;;
            ret None
        end
    end.

Definition rollbackOrCarryOn (env : GuardEnv) (m : marker) (by_ : string) : IO (Guard * option error) :=
  let! err := rollback env m by_ in
  match err with
  | Some e =>
      os_Remove (pendingPath (g_StateDir env)) ;;
      updateState (g_StateDir env) (set_rollback_error e) ;;
      ret (no_guard, Some e)
  | None => ret (mkGuard true None, None)
  end.

Definition BootGuard (env : GuardEnv) (current : string) : IO (Guard * option error) :=
  let dir := g_StateDir env in
  let! r := readMarker dir in
  match r with
  | None => ret (no_guard, None)
  | Some m =>
      if mk_Rollback m then rollbackOrCarryOn env m "you"
      else if negb (current =s? mk_To m) then
        (if mk_Boots m =? 0 then restoreHelpersFor env else ret tt) ;;
        (if (current =s? mk_From m) && (0 <? mk_Boots m) then recordRolledBack dir (mk_To m) "health" else ret tt) ;;
        os_Remove (pendingPath dir) ;;
        ret (no_guard, None)
      else
        let m := mkMarker (mk_From m) (mk_To m) (mk_At m) (mk_Boots m + 1) (mk_Rollback m) in
        if maxBoots <? mk_Boots m then rollbackOrCarryOn env m "health"
        else writeMarker dir m ;; ret (mkGuard false (Some (mk_To m)), None)
  end.

(** [Guard.Confirm] of an update on probation. *)
Definition Confirm (env : GuardEnv) (version : string) : IO unit :=
  let dir := g_StateDir env in
  let! cur := readMarker dir in
  (match cur with
   | Some m => if negb (mk_Rollback m) && (mk_To m =s? version) then os_Remove (pendingPath dir) else ret tt
   | None => ret tt
   end) ;;
  updateState dir (set_confirmed now) ;; ret tt.

(** ** The swap (updater.go) *)

Record stagedHelper : Type := mkStagedHelper { sh_helper : helper; sh_file : string; sh_sum : string }.
Record staged : Type := mkStaged {
  st_version : string;
  st_path : string;
  st_sum : string;
  st_raw : string;
  st_sig : string;
  st_helpers : list stagedHelper;
}.

Definition staged_has (s : staged) (name : string) : bool := existsb (fun h => hp_name (sh_helper h) =s? name) (st_helpers s).

(** One helper's side of a swap: what happened to it, or why it cannot be kept. *)
Definition keep_helper (s : staged) (h : helper) : IO (error + string) :=
  let prev := prevBinary (hp_path h) in
  let! d := get in
  if negb (staged_has s (hp_name h)) then os_Remove prev ;; ret (inr "")
  else if fileExists (hp_path h) d then
    let! err := copyFileAtomic (hp_path h) prev in
    ret (match err with Some e => inl (Wrapf "keep current %s: %w" [hp_name h] e) | None => inr helperReplaced end)
  else os_Remove prev ;; ret (inr helperAdded).

Fixpoint keep_each (s : staged) (hs : list helper) : IO (error + gmap string string) :=
  match hs with
  | [] => ret (inr ∅)
  | h :: hs' =>
      let! r := keep_helper s h in
      match r with
      | inl e => ret (inl e)
      | inr how =>
          let! r := keep_each s hs' in
          ret (match r with inl e => inl e | inr hows => inr (if how =s? "" then hows else <[hp_name h := how]> hows) end)
      end
  end.

Definition how_of (hows : gmap string string) (name : string) : string := default "" (hows !! name).

Definition set_swaps (hows : gmap string string) (ps : persisted) : persisted :=
  fold_left (fun ps name => setSwap name (how_of hows name) ps) helperNames ps.

Definition keepHelpers (env : GuardEnv) (s : staged) : IO (error + gmap string string) :=
  let! r := keep_each s (helpersAt (g_OpenVPN env) (g_CharonCmd env)) in
  match r with
  | inl e => ret (inl e)
  | inr hows =>
      let! r := updateState (g_StateDir env) (set_swaps hows) in
      ret (match r with inl e => inl (Wrapf "record the helpers' swap: %w" [] e) | inr _ => inr hows end)
  end.

Fixpoint put_back (hows : gmap string string) (hs : list helper) : IO unit :=
  match hs with
  | [] => ret tt
  | h :: hs' => restoreHelper (hp_path h) (how_of hows (hp_name h)) ;; put_back hows hs'
  end.

Fixpoint install_helpers (hs : list stagedHelper) : IO (option error) :=
  match hs with
  | [] => ret None
  | h :: hs' =>
      let! err := copyFileAtomic (sh_file h) (hp_path (sh_helper h)) in
      match err with
      | Some e => ret (Some (Wrapf "install %s: %w" [hp_name (sh_helper h)] e))
      | None => install_helpers hs'
      end
  end.

Definition writeManifest (path : string) (sm : signedManifest) : IO (option error) := writeFileAtomic path (ManifestDoc sm).

Definition readManifest (path : string) : IO (option signedManifest) :=
  let! r := ReadFile path in
  ret (match r with
       | inr (ManifestDoc sm) => if (sm_Manifest sm =s? "") || (sm_Signature sm =s? "") then None else Some sm
       | _ => None
       end).

Definition keepRunningManifest (dir : string) (s : staged) : IO unit :=
  if st_raw s =s? "" then ret tt
  else
    let! cur := readManifest (manifestPath dir "running") in
    (match cur with
     | Some cur => if sm_Version cur =s? st_version s then ret tt else writeManifest (manifestPath dir "previous") cur ;; ret tt
     | None => ret tt
     end) ;;
    writeManifest (manifestPath dir "running") (mkSignedManifest (st_version s) (st_raw s) (st_sig s)) ;; ret tt.

(** [BackupDB] copies the database. *)
Definition swap (env : GuardEnv) (current : string) (s : staged) : IO (option error) :=
  let dir := g_StateDir env in
  let hs := helpersAt (g_OpenVPN env) (g_CharonCmd env) in
  os_Remove (backupPath dir) ;;
  let! err := copyFileAtomic (g_DBPath env) (backupPath dir) in
  match err with
  | Some e => ret (Some (Wrapf "back up database: %w" [] e))
  | None =>
      let! err := copyFileAtomic (g_Binary env) (prevBinary (g_Binary env)) in
      match err with
      | Some e => ret (Some (Wrapf "keep current binary: %w" [] e))
      | None =>
          let! r := keepHelpers env s in
          match r with
          | inl e => ret (Some e)
          | inr hows =>
              let! err := writeMarker dir (mkMarker current (st_version s) now 0 false) in
              match err with
              | Some e => ret (Some e)
              | None =>
                  keepRunningManifest dir s ;;
                  let! err := install_helpers (st_helpers s) in
                  match err with
                  | Some e => os_Remove (pendingPath dir) ;; put_back hows hs ;; ret (Some e)
                  | None =>
                      let! err := copyFileAtomic (st_path s) (g_Binary env) in
                      match err with
                      | Some e =>
                          os_Remove (pendingPath dir) ;; put_back hows hs ;; ret (Some (Wrapf "install binary: %w" [] e))
                      | None => os_RemoveAll (stagingDir dir) ;; ret None
                      end
                  end
              end
          end
      end
  end.

(** [RequestRollback]: [busy] is a check under way, [installing] a restart,
    [notQuiet] why it is not a quiet moment. *)
Definition RequestRollback (env : GuardEnv) (current : string) (selfUpdatable busy installing : bool) (notQuiet : option string)
    : IO (option error) :=
  let! d := get in
  if negb selfUpdatable then ret (Some (Errorf "this install is managed elsewhere" []))
  else if negb (fileExists (prevBinary (g_Binary env)) d) then ret (Some (Errorf "no previous version is kept on this computer" []))
  else if busy then ret (Some (Errorf "an update check is running; try again in a moment" []))
  else if installing then ret (Some (Errorf "the daemon is already restarting" []))
  else match notQuiet with
  | Some why => ret (Some (Errorf "not right now: %s — try again in a moment" [why]))
  | None => writeMarker (g_StateDir env) (mkMarker current current now 0 true)
  end.
End updater.
