(* ===== verification/UpdaterFacts.v ===== *)
(** * What an update leaves behind, whatever happens (internal/updater)

    The swap and the boot guard of Updater.v against a disk whose operations may
    fail and a process that may die at any of them: there is always a binary to
    run and a way back, an interrupted swap is undone, and an update that never
    comes up is rolled back however often the rollback is interrupted. *)

From S2P Require Import Prelude.
From S2P Require Import Netip NetipText Domain Provider Updater.

(** ** Reasoning about runs

    [runs P m d Q]: from [d], under fates that satisfy [P], [m] ends (with an
    answer or dead) where [Q] holds. *)

Section runs.
Context (P : fate -> Prop).

Definition runs {A} (m : IO A) (d : disk) (Q : option A -> disk -> Prop) : Prop :=
  forall fs, Forall P fs -> Q (fst (fst (m d fs))) (snd (fst (m d fs))) /\ Forall P (snd (m d fs)).

Lemma runs_ret {A} (a : A) d (Q : option A -> disk -> Prop) : Q (Some a) d -> runs (ret a) d Q.
Proof. intros H fs Hf. done. Qed.

Lemma runs_bind {A B} (m : IO A) (f : A -> IO B) d (Q : option B -> disk -> Prop) :
  runs m d (fun r d' => match r with Some a => runs (f a) d' Q | None => Q None d' end) -> runs (bind m f) d Q.
Proof.
  intros H fs Hf. specialize (H fs Hf). unfold bind. destruct (m d fs) as [[[a|] d'] fs']; simpl in *; [|done].
  destruct H as [H Hf']. exact (H fs' Hf').
Qed.

Lemma runs_get d (Q : option disk -> disk -> Prop) : Q (Some d) d -> runs get d Q.
Proof. intros H fs Hf. done. Qed.

Lemma runs_attempt {A} (w : disk -> A * disk) (e : A) d (Q : option A -> disk -> Prop) :
  (forall a d', w d = (a, d') -> Q (Some a) d') -> (P Fails -> Q (Some e) d) -> (P Dies -> Q None d) -> runs (attempt w e) d Q.
Proof.
  intros Hw Hf Hd fs Hfs. unfold attempt.
  destruct fs as [|[] fs]; [|apply Forall_cons in Hfs as [Hh Hfs]..]; try destruct (w d) as [a d'] eqn:E; simpl; split; auto; constructor.
Qed.

Lemma runs_mono {A} (m : IO A) d (Q R : option A -> disk -> Prop) : (forall r d', Q r d' -> R r d') -> runs m d Q -> runs m d R.
Proof. intros H Hr fs Hf. destruct (Hr fs Hf). auto. Qed.

Lemma runs_and {A} (m : IO A) d (Q R : option A -> disk -> Prop) : runs m d Q -> runs m d R -> runs m d (fun r d' => Q r d' /\ R r d').
Proof. intros HQ HR fs Hf. destruct (HQ fs Hf), (HR fs Hf). auto. Qed.
End runs.

(** Operations that only change the files of [X]. *)
Definition keeps (X : list string) (d d' : disk) : Prop := forall p, p ∉ X -> d' !! p = d !! p.
Definition only {A} (X : list string) (m : IO A) : Prop := forall P d, runs P m d (fun _ d' => keeps X d d').

#[export] Instance keeps_preorder X : PreOrder (keeps X).
Proof. split; [by intros d p|]. intros d1 d2 d3 H1 H2 p Hp. by rewrite H2, H1. Qed.

Lemma keeps_insert X d d' p c : p ∈ X -> keeps X d d' -> keeps X d (<[p := c]> d').
Proof. intros Hp H q Hq. rewrite lookup_insert_ne by set_solver. by apply H. Qed.

Lemma keeps_delete X d d' p : p ∈ X -> keeps X d d' -> keeps X d (delete p d').
Proof. intros Hp H q Hq. rewrite lookup_delete_ne by set_solver. by apply H. Qed.

Lemma only_ret {A} X (a : A) : only X (ret a).
Proof. intros P d. by apply runs_ret. Qed.

Lemma only_get X : only X get.
Proof. intros P d. by apply runs_get. Qed.

Lemma only_bind {A B} X (m : IO A) (f : A -> IO B) : only X m -> (forall a, only X (f a)) -> only X (bind m f).
Proof.
  intros Hm Hf P d. apply runs_bind. eapply runs_mono, Hm. intros [a|] d' H; [|done].
  eapply runs_mono, Hf. intros r d'' H'. by etrans.
Qed.

Lemma only_attempt {A} X (w : disk -> A * disk) e : (forall d, keeps X d (snd (w d))) -> only X (attempt w e).
Proof. intros H P d. apply runs_attempt; [|done..]. intros a d' E. specialize (H d). by rewrite E in H. Qed.

Lemma only_sub {A} X Y (m : IO A) : X ⊆ Y -> only X m -> only Y m.
Proof. intros HXY Hm P d. eapply runs_mono, Hm. intros r d' H p Hp. apply H. set_solver. Qed.

Lemma only_read X p : only X (ReadFile p).
Proof. by apply only_attempt. Qed.
Lemma only_write X p c : p ∈ X -> only X (writeFileAtomic p c).
Proof. intros Hp. apply only_attempt. intros d. by apply keeps_insert. Qed.
Lemma only_copy X src dst : dst ∈ X -> only X (copyFileAtomic src dst).
Proof. intros Hp. apply only_attempt. intros d. destruct (d !! src); simpl; [by apply keeps_insert|done]. Qed.
Lemma only_rename X src dst : src ∈ X -> dst ∈ X -> only X (os_Rename src dst).
Proof. intros Hs Hd. apply only_attempt. intros d. destruct (d !! src); simpl; [by apply keeps_insert, keeps_delete|done]. Qed.
Lemma only_remove X p : p ∈ X -> only X (os_Remove p).
Proof. intros Hp. apply only_attempt. intros d. by apply keeps_delete. Qed.

Create HintDb only.
#[export] Hint Resolve only_ret only_get only_bind only_read only_write only_copy only_rename only_remove : only.

(** What a frame says at one file. *)
Lemma keeps_at X d d' p v : keeps X d d' -> p ∉ X -> d !! p = v -> d' !! p = v.
Proof. intros H Hp <-. by apply H. Qed.

Section updater.
Context (rand16 now : Z).

Lemma only_load X dir : statePath dir ∈ X -> only X (loadLocked rand16 dir).
Proof.
  intros H. unfold loadLocked, saveLocked. apply only_bind; [apply only_read|]. intros [e|[]]; try case_if; auto 6 with only.
Qed.

Lemma only_update X dir f : statePath dir ∈ X -> only X (updateState rand16 dir f).
Proof.
  intros H. unfold updateState. apply only_bind; [by apply only_load|]. intros [e|ps]; unfold saveLocked; auto 6 with only.
Qed.
Hint Resolve only_load only_update : only.

Lemma only_restore X path how : path ∈ X -> prevBinary path ∈ X -> only X (restoreHelper path how).
Proof.
  intros H1 H2. unfold restoreHelper. case_if; [auto with only|]. apply only_bind; [auto with only|]. intros d.
  case_if; [auto with only|]. apply only_bind; [auto with only|]. intros [e|]; auto with only.
Qed.
Hint Resolve only_restore : only.

Definition helper_paths (hs : list helper) : list string := hs ≫= fun h => [hp_path h; prevBinary (hp_path h)].

Lemma helper_paths_in hs h : h ∈ hs -> hp_path h ∈ helper_paths hs /\ prevBinary (hp_path h) ∈ helper_paths hs.
Proof. intros H. unfold helper_paths. rewrite !list_elem_of_bind. split; exists h; split; set_solver. Qed.

Lemma only_restore_each X dir ps hs : statePath dir ∈ X -> helper_paths hs ⊆ X -> only X (restore_each rand16 dir ps hs).
Proof.
  intros Hs. induction hs as [|h hs IH]; intros Hx; simpl; [auto with only|].
  assert (helper_paths hs ⊆ X) as Hx' by (unfold helper_paths in *; simpl in Hx; set_solver).
  assert (hp_path h ∈ X /\ prevBinary (hp_path h) ∈ X) as [? ?] by (unfold helper_paths in Hx; simpl in Hx; set_solver).
  case_if; [auto|]. apply only_bind; [auto with only|]. intros [e|]; [auto|]. apply only_bind; auto with only.
Qed.

Definition env_helpers (env : GuardEnv) : list helper := helpersAt (g_OpenVPN env) (g_CharonCmd env).

Lemma only_restoreHelpers X env : statePath (g_StateDir env) ∈ X -> helper_paths (env_helpers env) ⊆ X ->
  only X (restoreHelpersFor rand16 env).
Proof.
  intros H1 H2. unfold restoreHelpersFor. apply only_bind; [auto with only|]. intros [e|ps]; [auto with only|]. by apply only_restore_each.
Qed.

Lemma only_restore_db X env : g_DBPath env ∈ X -> g_DBPath env +:+ "-wal" ∈ X -> g_DBPath env +:+ "-shm" ∈ X ->
  g_DBPath env +:+ ".restore" ∈ X -> only X (restore_db env).
Proof.
  intros H1 H2 H3 H4. unfold restore_db. apply only_bind; [auto with only|]. intros [e|]; auto 10 with only.
Qed.

Lemma only_keep_each X s hs : map (fun h => prevBinary (hp_path h)) hs ⊆ X -> only X (keep_each s hs).
Proof.
  induction hs as [|h hs IH]; intros Hx; simpl; [auto with only|]. apply only_bind.
  - unfold keep_helper. assert (prevBinary (hp_path h) ∈ X) by (simpl in Hx; set_solver). apply only_bind; [auto with only|].
    intros d. repeat case_if; auto with only.
  - intros [e|how]; [auto with only|]. apply only_bind; [apply IH; simpl in Hx; set_solver|auto with only].
Qed.

Lemma only_keepHelpers X env s : statePath (g_StateDir env) ∈ X -> map (fun h => prevBinary (hp_path h)) (env_helpers env) ⊆ X ->
  only X (keepHelpers rand16 env s).
Proof.
  intros H1 H2. unfold keepHelpers. apply only_bind; [by apply only_keep_each|]. intros [e|hows]; [auto with only|].
  apply only_bind; auto with only.
Qed.

Lemma only_install X hs : map (fun h => hp_path (sh_helper h)) hs ⊆ X -> only X (install_helpers hs).
Proof.
  induction hs as [|h hs IH]; intros Hx; simpl; [auto with only|]. apply only_bind; [apply only_copy; simpl in Hx; set_solver|].
  intros [e|]; [auto with only|]. apply IH. simpl in Hx. set_solver.
Qed.

Lemma only_put_back X hows hs : helper_paths hs ⊆ X -> only X (put_back hows hs).
Proof.
  induction hs as [|h hs IH]; intros Hx; simpl; [auto with only|].
  apply only_bind; [apply only_restore; unfold helper_paths in Hx; simpl in Hx; set_solver|].
  intros _. apply IH. unfold helper_paths in *. simpl in Hx. set_solver.
Qed.
End updater.

(** ** Undisturbed runs

    With nothing left to fail or die of, a program answers. *)

Definition alive {A} (m : IO A) : Prop := forall d, exists a d', m d [] = (Some a, d', []).

Lemma alive_ret {A} (a : A) : alive (ret a).
Proof. intros d. by exists a, d. Qed.
Lemma alive_get : alive get.
Proof. intros d. by exists d, d. Qed.
Lemma alive_attempt {A} w (e : A) : alive (attempt w e).
Proof. intros d. simpl. destruct (w d) as [a d']. by exists a, d'. Qed.
Lemma alive_bind {A B} (m : IO A) (f : A -> IO B) : alive m -> (forall a, alive (f a)) -> alive (bind m f).
Proof. intros Hm Hf d. destruct (Hm d) as (a & d' & E). unfold bind. rewrite E. apply Hf. Qed.

Create HintDb alive.
#[export] Hint Resolve alive_ret alive_get alive_attempt alive_bind : alive.

(** Through the branches of a program. *)
Ltac live :=
  repeat match goal with
  | |- alive (bind _ _) => apply alive_bind; [|intros ?]
  | |- alive (match ?x with _ => _ end) => destruct x
  | |- alive (attempt _ _) => apply alive_attempt
  | |- alive _ => solve [auto with alive]
  end.

Section alive.
Context (rand16 now : Z).

Lemma alive_load dir : alive (loadLocked rand16 dir).
Proof. unfold loadLocked, ReadFile, saveLocked, writeFileAtomic. live. Qed.
Lemma alive_update dir f : alive (updateState rand16 dir f).
Proof. unfold updateState, saveLocked, writeFileAtomic. apply alive_bind; [apply alive_load|]. intros r. live. Qed.
Hint Resolve alive_load alive_update : alive.
Lemma alive_restore path how : alive (restoreHelper path how).
Proof. unfold restoreHelper, copyFileAtomic, os_Remove. live. Qed.
Hint Resolve alive_restore : alive.
Lemma alive_restore_each dir ps hs : alive (restore_each rand16 dir ps hs).
Proof. induction hs as [|h hs IH]; simpl; live; auto with alive. Qed.
Hint Resolve alive_restore_each : alive.
Lemma alive_restoreHelpers env : alive (restoreHelpersFor rand16 env).
Proof. unfold restoreHelpersFor. apply alive_bind; [apply alive_load|]. intros r. live. Qed.
Lemma alive_rollback env m b : alive (rollback rand16 now env m b).
Proof.
  unfold rollback, restore_db, recordRolledBack, writeMarker, writeFileAtomic, copyFileAtomic, os_Rename, os_Remove.
  live; try apply alive_restoreHelpers; live.
Qed.
Lemma alive_boot env cur : alive (BootGuard rand16 now env cur).
Proof.
  unfold BootGuard, readMarker, ReadFile, rollbackOrCarryOn, recordRolledBack, writeMarker, writeFileAtomic, os_Remove.
  live; try apply alive_restoreHelpers; try apply alive_rollback; live.
Qed.
End alive.

(** ** Where the files are *)

Definition fixed_paths (env : GuardEnv) : list string :=
  [g_Binary env; prevBinary (g_Binary env); statePath (g_StateDir env); pendingPath (g_StateDir env); backupPath (g_StateDir env);
   g_DBPath env; g_DBPath env +:+ "-wal"; g_DBPath env +:+ "-shm"; g_DBPath env +:+ ".restore";
   manifestPath (g_StateDir env) "running"; manifestPath (g_StateDir env) "previous"].

(** The installed files are different files. *)
Definition layout (env : GuardEnv) : Prop := NoDup (fixed_paths env ++ helper_paths (env_helpers env)).

(** So are those of a staged release, whose helpers are the installed ones, and
    no installed file is in the staging directory. *)
Definition staged_layout (env : GuardEnv) (s : staged) : Prop :=
  NoDup (fixed_paths env ++ helper_paths (env_helpers env) ++ st_path s :: map sh_file (st_helpers s)) /\
  Forall (fun h => sh_helper h ∈ env_helpers env) (st_helpers s) /\
  Forall (fun p => under (stagingDir (g_StateDir env)) p = false) (fixed_paths env ++ helper_paths (env_helpers env)).

Lemma staged_layout_installed env s : staged_layout env s -> layout env.
Proof. intros [H _]. unfold layout. rewrite app_assoc, NoDup_app in H. apply H. Qed.

(** The inequalities a layout gives, and goals that follow from them. *)
Ltac spread H :=
  let Hf := fresh "Hfixed" in
  let Hd := fresh "Hapart" in
  pose proof H as Hf; unfold layout in Hf; rewrite NoDup_app in Hf; destruct Hf as (Hf & Hd & _);
  rewrite <- Forall_forall in Hd; unfold fixed_paths in Hf, Hd;
  repeat rewrite NoDup_cons in Hf; repeat rewrite not_elem_of_cons in Hf; repeat rewrite Forall_cons in Hd; destruct_and?.

Ltac apart :=
  repeat match goal with
  | |- _ ∉ _ :: _ => rewrite not_elem_of_cons
  | |- _ ∉ _ ++ _ => rewrite not_elem_of_app
  | |- _ /\ _ => split
  | |- _ ∉ [] => apply not_elem_of_nil
  end; try assumption; try congruence.

(** ** The swap *)

Section swap.
Context (rand16 now : Z) (env : GuardEnv) (current : string) (s : staged).

Abbreviation bin := (g_Binary env).
Abbreviation prev := (prevBinary (g_Binary env)).
Abbreviation pending := (pendingPath (g_StateDir env)).
Abbreviation backup := (backupPath (g_StateDir env)).
Abbreviation state := (statePath (g_StateDir env)).
Abbreviation hs := (env_helpers env).

Definition probation_marker : marker := mkMarker current (st_version s) now 0 false.

(** The new binary is in place, with all a rollback needs. *)
Record committed (old new : content) (db : option content) (d : disk) : Prop := mkCommitted {
  cm_bin : d !! bin = Some new;
  cm_prev : d !! prev = Some old;
  cm_marker : d !! pending = Some (MarkerDoc probation_marker);
  cm_backup : d !! backup = db;
}.

(** Every step before the daemon's rename leaves the old one in place. *)
Definition before_commit (old : content) (d : disk) : Prop := d !! bin = Some old.

Lemma prevs_sub : map (fun h => prevBinary (hp_path h)) hs ⊆ helper_paths hs.
Proof. intros p Hp. apply list_elem_of_fmap in Hp as (h & -> & Hh). by apply helper_paths_in. Qed.

Lemma staged_sub : Forall (fun h => sh_helper h ∈ hs) (st_helpers s) -> map (fun h => hp_path (sh_helper h)) (st_helpers s) ⊆ helper_paths hs.
Proof.
  intros H p Hp. apply list_elem_of_fmap in Hp as (h & -> & Hh). rewrite Forall_forall in H. by apply helper_paths_in, H.
Qed.

Lemma staged_apart p : staged_layout env s -> p ∈ fixed_paths env ++ helper_paths hs ->
  p ∉ st_path s :: map sh_file (st_helpers s).
Proof. intros [H _] Hp. rewrite app_assoc, NoDup_app in H. destruct H as (_ & H & _). by apply H. Qed.

Lemma delete_staged (d : disk) p : staged_layout env s -> p ∈ fixed_paths env ->
  filter (fun f => under (stagingDir (g_StateDir env)) f.1 = false) d !! p = d !! p.
Proof.
  intros (_ & _ & H) Hp. rewrite Forall_forall in H. specialize (H p). destruct (d !! p) as [c|] eqn:E.
  - apply map_lookup_filter_Some. split; [done|]. apply H, elem_of_app. by left.
  - apply map_lookup_filter_None. by left.
Qed.

(** The files the swap keeps manifests in. *)
Definition manifest_files : list string := [manifestPath (g_StateDir env) "running"; manifestPath (g_StateDir env) "previous"].

Lemma only_keepRunning : only manifest_files (keepRunningManifest (g_StateDir env) s).
Proof.
  unfold keepRunningManifest, readManifest, writeManifest. case_if; [auto with only|]. apply only_bind; [auto with only|]. intros cur.
  apply only_bind; [|intros _; apply only_bind; [apply only_write; constructor|auto with only]].
  destruct cur; [|auto with only]. case_if; [auto with only|]. apply only_bind; [apply only_write; repeat constructor|auto with only].
Qed.

(** The failing end of a swap: the marker goes, the helpers go back. *)
Lemma undo_swap P old hows (e : error) d : layout env -> before_commit old d ->
  runs P (os_Remove pending ;; put_back hows hs ;; ret (Some e)) d
    (fun (r : option (option error)) d' => (r = None \/ r = Some (Some e)) /\ before_commit old d').
Proof.
  intros Hl Hd. spread Hl. apply runs_bind. eapply runs_mono, (only_remove [pending]); [|set_solver].
  intros [u|] d1 K1; [|split; [by left|]; apply (keeps_at _ _ _ _ _ K1); [apart|done]].
  apply runs_bind. eapply runs_mono, (only_put_back (helper_paths hs)); [|done].
  intros [u'|] d2 K2.
  - apply runs_ret. split; [by right|]. apply (keeps_at _ _ _ _ _ K2); [done|]. apply (keeps_at _ _ _ _ _ K1); [apart|done].
  - split; [by left|]. apply (keeps_at _ _ _ _ _ K2); [done|]. apply (keeps_at _ _ _ _ _ K1); [apart|done].
Qed.

(** From the marker on. *)
Lemma swap_tail P old new db hows d :
  staged_layout env s -> before_commit old d -> d !! st_path s = Some new -> d !! prev = Some old ->
  d !! backup = db -> d !! pending = Some (MarkerDoc probation_marker) ->
  runs P (let! err := install_helpers (st_helpers s) in
          match err with
          | Some e => os_Remove pending ;; put_back hows hs ;; ret (Some e)
          | None =>
              let! err := copyFileAtomic (st_path s) bin in
              match err with
              | Some e => os_Remove pending ;; put_back hows hs ;; ret (Some (Wrapf "install binary: %w" [] e))
              | None => os_RemoveAll (stagingDir (g_StateDir env)) ;; ret None
              end
          end) d
    (fun r d' => match r with
                 | Some None => committed old new db d'
                 | Some (Some _) => before_commit old d'
                 | None => before_commit old d' \/ committed old new db d'
                 end).
Proof.
  intros Hs Hb Hn Hp Hk Hm. pose proof (staged_layout_installed _ _ Hs) as Hl. spread Hl.
  assert (st_path s ∉ helper_paths hs) as Hsp.
  { intros Hin. apply (staged_apart (st_path s) Hs); [apply elem_of_app; by right|set_solver]. }
  apply runs_bind. eapply runs_mono, (only_install (helper_paths hs)); [|apply staged_sub, Hs].
  intros [[e|]|] d1 K1.
  - eapply runs_mono; [|apply (undo_swap P old)]; [|done|apply (keeps_at _ _ _ _ _ K1); [apart|done]].
    intros r d' [[-> | ->] ?]; auto.
  - apply runs_bind, runs_attempt; [|intros _|intros _; left; apply (keeps_at _ _ _ _ _ K1); [apart|done]].
    + intros a d2 E. rewrite (K1 (st_path s) Hsp), Hn in E. injection E as <- <-.
      assert (committed old new db (<[bin:=new]> d1)) as Hc.
      { split; [by rewrite lookup_insert_eq|..]; rewrite lookup_insert_ne by apart; apply (keeps_at _ _ _ _ _ K1); (apart; done). }
      apply runs_bind, runs_attempt; [|intros _; by apply runs_ret|intros _; by right].
      intros a d3 E. injection E as <- <-. apply runs_ret. destruct Hc.
      split; (refine (eq_trans (delete_staged _ _ Hs _) _); [unfold fixed_paths; repeat constructor|done]).
    + eapply runs_mono; [|apply (undo_swap P old)]; [|done|apply (keeps_at _ _ _ _ _ K1); [apart|done]].
      intros r d' [[-> | ->] ?]; auto.
  - left. apply (keeps_at _ _ _ _ _ K1); [apart|done].
Qed.

Definition swap_end (old new : content) (db : option content) (r : option (option error)) (d : disk) : Prop :=
  match r with
  | Some None => committed old new db d
  | Some (Some _) => before_commit old d
  | None => before_commit old d \/ committed old new db d
  end.

Lemma early_end old new db d (r : option (option error)) : r <> Some None -> before_commit old d -> swap_end old new db r d.
Proof. intros Hr Hb. destruct r as [[e|]|]; [done|done|by left]. Qed.

Lemma swap_runs P old new d :
  staged_layout env s -> d !! bin = Some old -> d !! st_path s = Some new ->
  runs P (swap rand16 now env current s) d (fun r d' => swap_end old new (d !! g_DBPath env) r d').
Proof.
  intros Hs Hb Hn. pose proof (staged_layout_installed _ _ Hs) as Hl. spread Hl.
  assert (forall p, p ∈ fixed_paths env ++ helper_paths hs -> p <> st_path s) as Hne.
  { intros p Hp ->. apply (staged_apart _ Hs Hp). constructor. }
  assert (st_path s ∉ fixed_paths env ++ helper_paths hs) as Hst by (intros Hp; by apply (Hne _ Hp)).
  apply not_elem_of_app in Hst as [Hst1 Hst2]. unfold fixed_paths in Hst1. repeat rewrite not_elem_of_cons in Hst1. destruct_and?.
  unfold swap. apply runs_bind. eapply runs_mono, (only_remove [backup]); [|set_solver].
  intros [u|] d1 K1; [|left; apply (keeps_at _ _ _ _ _ K1); [apart|done]].
  assert (d1 !! bin = Some old) as B1 by (apply (keeps_at _ _ _ _ _ K1); [apart|done]).
  assert (d1 !! st_path s = Some new) as N1 by (apply (keeps_at _ _ _ _ _ K1); [apart|done]).
  assert (d1 !! g_DBPath env = d !! g_DBPath env) as D1 by (apply K1; apart).
  apply runs_bind, runs_attempt; [|intros _; by apply runs_ret|intros _; by left].
  intros a d2 E2. destruct (d1 !! g_DBPath env) as [db|] eqn:Ed; injection E2 as <- <-; [|by apply runs_ret].
  apply runs_bind, runs_attempt;
    [|intros _; apply runs_ret; unfold swap_end, before_commit; rewrite lookup_insert_ne by apart; done
     |intros _; left; unfold before_commit; rewrite lookup_insert_ne by apart; done].
  intros a d3 E3. rewrite lookup_insert_ne, B1 in E3 by apart. injection E3 as <- <-.
  set (d3 := <[prev:=old]> (<[backup:=db]> d1)).
  assert (d3 !! bin = Some old /\ d3 !! st_path s = Some new /\ d3 !! prev = Some old /\ d3 !! backup = Some db) as (B3 & N3 & P3 & U3).
  { unfold d3. split_and!; rewrite ?lookup_insert_eq; try done; rewrite !lookup_insert_ne by apart; try done. by rewrite lookup_insert_eq. }
  apply runs_bind. eapply runs_mono, (only_keepHelpers rand16 (state :: helper_paths hs)); [|constructor|].
  2: { etrans; [apply prevs_sub|]. intros x Hx. by constructor. }
  intros [[e|hows]|] d4 K4; [apply runs_ret| |left]; try (apply (keeps_at _ _ _ _ _ K4); [apart|done]).
  assert (d4 !! bin = Some old /\ d4 !! st_path s = Some new /\ d4 !! prev = Some old /\ d4 !! backup = Some db) as (B4 & N4 & P4 & U4).
  { split_and!; (apply (keeps_at _ _ _ _ _ K4); [apart|done]). }
  apply runs_bind, runs_attempt; [|intros _; by apply runs_ret|intros _; by left].
  intros a d5 E5. injection E5 as <- <-.
  apply runs_bind. eapply runs_mono, only_keepRunning. intros r6 d6 K6. unfold manifest_files in K6.
  assert (d6 !! bin = Some old /\ d6 !! st_path s = Some new /\ d6 !! prev = Some old /\ d6 !! backup = Some db) as (B6 & N6 & P6 & U6).
  { split_and!; rewrite K6 by apart; by rewrite lookup_insert_ne by apart. }
  destruct r6; [|by left]. rewrite <- D1. apply (swap_tail P old new (Some db) hows); [done..|].
  rewrite K6 by apart. apply lookup_insert_eq.
Qed.
End swap.

(** C9: an update never leaves the computer without a daemon or a way back.
    Whatever fails and wherever the process dies, a swap ends with the old
    daemon in place, or with the new one together with the old one kept beside
    it, the database of before and the marker the boot guard counts starts by.
    It reports success only in the second case, an error only in the first. *)
Theorem swap_keeps_a_way_back (rand16 now : Z) (env : GuardEnv) (current : string) (s : staged) (old new : content) (d : disk) (fs : list fate) :
  staged_layout env s -> d !! g_Binary env = Some old -> d !! st_path s = Some new ->
  let '(r, d', _) := swap rand16 now env current s d fs in
  match r with
  | Some None => committed now env current s old new (d !! g_DBPath env) d'
  | Some (Some _) => d' !! g_Binary env = Some old
  | None => d' !! g_Binary env = Some old \/ committed now env current s old new (d !! g_DBPath env) d'
  end.
Proof.
  intros Hs Hb Hn. destruct (swap_runs rand16 now env current s (fun _ => True) old new d Hs Hb Hn fs) as [H _]; [by apply Forall_true|].
  by destruct (swap rand16 now env current s d fs) as [[r d'] fs'].
Qed.

(** ** Starts of an update that never comes up *)

Section boot.
Context (rand16 now : Z) (env : GuardEnv) (version_of : content -> string) (old new : content).

Abbreviation bin := (g_Binary env).
Abbreviation prev := (prevBinary (g_Binary env)).
Abbreviation pending := (pendingPath (g_StateDir env)).
Abbreviation state := (statePath (g_StateDir env)).

(** The service manager runs the installed binary, which is the version it says
    it is. *)
Definition current_of (d : disk) : string := match d !! bin with Some c => version_of c | None => "" end.

Definition start (fs : list fate) (d : disk) : option (Guard * option error) * disk :=
  let '(r, d', _) := BootGuard rand16 now env (current_of d) d fs in (r, d').

Fixpoint starts (fss : list (list fate)) (d : disk) : list (option (Guard * option error)) * disk :=
  match fss with
  | [] => ([], d)
  | fs :: fss' => let '(r, d) := start fs d in let '(rs, d) := starts fss' d in (r :: rs, d)
  end.

Definition on_probation (k : Z) (d : disk) : Prop :=
  d !! bin = Some new /\ d !! prev = Some old /\
  exists at_, d !! pending = Some (MarkerDoc (mkMarker (version_of old) (version_of new) at_ k false)).

(** The old binary is back; the marker is not yet cleared. *)
Definition went_back (d : disk) : Prop :=
  d !! bin = Some old /\
  exists at_ b, 0 < b /\ d !! pending = Some (MarkerDoc (mkMarker (version_of old) (version_of new) at_ b false)).

Definition settled (d : disk) : Prop :=
  d !! bin = Some old /\ d !! pending = None /\
  exists ps, d !! state = Some (StateDoc ps) /\ ps_Skip ps = version_of new /\ ps_RolledBackFrom ps = version_of new /\
             ps_RolledBackBy ps = "health".

(** How many more undisturbed starts it takes to settle. *)
Definition at_rank (n : nat) (d : disk) : Prop :=
  match n with
  | O => settled d
  | 1%nat => went_back d
  | _ => (n <= 5)%nat /\ on_probation (5 - Z.of_nat n) d
  end.

Definition guard_at (n : nat) : Guard :=
  match n with
  | O | 1%nat => no_guard
  | 2%nat => mkGuard true None
  | _ => mkGuard false (Some (version_of new))
  end.

(** Nothing but dying goes wrong. *)
Abbreviation only_dies := (fun f => f <> Fails).

Lemma update_runs f d :
  runs only_dies (updateState rand16 (g_StateDir env) f) d
    (fun r d' => keeps [state] d d' /\ (r <> None -> exists ps, d' !! state = Some (StateDoc (f ps)))).
Proof.
  apply runs_and; [apply only_update; constructor|]. unfold updateState. apply runs_bind.
  apply (runs_mono _ _ _ (fun r d' => match r with Some (inl _) => False | _ => True end)).
  - intros [[e|ps]|] d1 H1; [done| |by intros ?]. apply runs_bind, runs_attempt; [|done|by intros _ ?].
    intros a d2 E. injection E as <- <-. apply runs_ret. intros _. exists ps. apply lookup_insert_eq.
  - assert (forall ps d0, runs only_dies (let! err := saveLocked (g_StateDir env) ps in
        ret (match err with Some e => inl e | None => inr ps end)) d0
        (fun r d' => match r with Some (inl _) => False | _ => True end)) as Hfresh.
    { intros ps d0. apply runs_bind, runs_attempt; [|done|done]. intros a d2 E. injection E as <- <-. by apply runs_ret. }
    unfold loadLocked. apply runs_bind, runs_attempt; [|done|done]. intros a d1 E. injection E as <- <-.
    destruct (d !! state) as [[| |ps|]|]; try apply Hfresh. case_if; [by apply runs_ret|apply Hfresh].
Qed.

Lemma record_runs d by_ version :
  runs only_dies (recordRolledBack rand16 (g_StateDir env) version by_) d
    (fun r d' => keeps [state] d d' /\ (r <> None -> exists ps, d' !! state = Some (StateDoc (set_rolled_back version by_ ps)))).
Proof.
  unfold recordRolledBack. apply runs_bind. eapply runs_mono, update_runs. intros [a|] d' [Hk Hs]; [|done].
  apply runs_ret. split; [done|]. intros _. by apply Hs.
Qed.

(** Undisturbed but for dying, the database is put back without an error. *)
Lemma restore_db_runs d : layout env -> is_Some (d !! backupPath (g_StateDir env)) ->
  runs only_dies (restore_db env) d (fun r d' => keeps (drop 5 (fixed_paths env)) d d' /\ (r = None \/ r = Some None)).
Proof.
  intros Hl [c Hc]. spread Hl. apply runs_and; [apply only_restore_db; unfold fixed_paths; simpl; repeat constructor|].
  unfold restore_db. apply runs_bind, runs_attempt; [|done|auto]. intros a d1 E. rewrite Hc in E. injection E as <- <-.
  apply runs_bind. eapply runs_mono, (only_remove [g_DBPath env +:+ "-wal"]); [|constructor]. intros [u|] d2 K2; [|auto].
  apply runs_bind. eapply runs_mono, (only_remove [g_DBPath env +:+ "-shm"]); [|constructor]. intros [u'|] d3 K3; [|auto].
  apply runs_bind, runs_attempt; [|done|auto]. intros a d4 E.
  rewrite K3, K2, lookup_insert_eq in E by apart. injection E as <- <-. apply runs_ret. by right.
Qed.

(** A rollback of an update whose starts are used up. *)
Lemma rollback_runs at_ d :
  layout env -> on_probation maxBoots d ->
  runs only_dies (rollback rand16 now env (mkMarker (version_of old) (version_of new) at_ (maxBoots + 1) false) "health") d
    (fun r d' => match r with
                 | Some None => went_back d'
                 | Some (Some _) => False
                 | None => on_probation maxBoots d' \/ went_back d'
                 end).
Proof.
  intros Hl (Hb & Hp & t & Hm). spread Hl. unfold rollback. apply runs_bind, runs_get.
  assert (fileExists prev d = true) as -> by (apply bool_decide_eq_true_2; by rewrite Hp). cbn [negb].
  apply runs_bind.
  apply (runs_mono _ _ _ (fun r d' => keeps (drop 5 (fixed_paths env)) d d' /\ (r = None \/ r = Some None))).
  2: { destruct (db_too_new env d) eqn:E; [|apply runs_ret; split; [done|by right]].
       apply restore_db_runs; [done|]. unfold db_too_new in E. apply andb_prop in E as [E _]. by apply bool_decide_eq_true_1 in E. }
  intros r d1 [K1 Hr]. unfold fixed_paths in K1. simpl in K1.
  assert (on_probation maxBoots d1) as Hd1.
  { split_and!; [|..|exists t]; (apply (keeps_at _ _ _ _ _ K1); [apart|done]). }
  destruct Hr as [-> | ->]; [by left|]. destruct Hd1 as (B1 & P1 & t1 & M1).
  apply runs_bind. eapply runs_mono, (only_restoreHelpers rand16 (state :: helper_paths (env_helpers env))); [|constructor|intros x Hx; by constructor].
  intros u d2 K2. assert (on_probation maxBoots d2) as (B2 & P2 & t2 & M2).
  { split_and!; [|..|exists t1]; (apply (keeps_at _ _ _ _ _ K2); [apart|done]). }
  destruct u as [u|]; [|left; split_and!; eauto].
  apply runs_bind, runs_attempt; [|done|intros _; left; split_and!; eauto].
  intros a d3 E. rewrite P2 in E. injection E as <- <-.
  assert (forall d', keeps [prev] (<[bin:=old]> d2) d' -> went_back d') as Hw.
  { intros d' K'. split; [apply (keeps_at _ _ _ _ _ K'); [apart|by rewrite lookup_insert_eq]|]. exists t2, maxBoots. split; [done|].
    apply (keeps_at _ _ _ _ _ K'); [apart|]. by rewrite lookup_insert_ne by apart. }
  apply runs_bind. eapply runs_mono, (only_remove [prev]); [|constructor]. intros [u'|] d4 K4; [|right; by apply Hw].
  apply Hw in K4. cbn [mk_Rollback mk_From mk_To]. clear Hw.
  apply runs_bind. apply (runs_mono _ _ _ (fun _ d' => went_back d')).
  2: { apply runs_bind, runs_attempt; [|done|done]. intros a d5 E. injection E as <- <-. apply runs_ret.
       destruct K4 as (B4 & _). split; [by rewrite lookup_insert_ne by apart|]. exists now, (maxBoots + 1). split; [done|]. apply lookup_insert_eq. }
  intros [u5|] d5 W5; [|by right]. apply runs_bind. eapply runs_mono, record_runs. intros r6 d6 [K6 _].
  assert (went_back d6) as W6.
  { destruct W5 as (B5 & x & b & Hb5 & M5). split; [|exists x, b; split; [done|]]; (apply (keeps_at _ _ _ _ _ K6); [apart|done]). }
  destruct r6; [by apply runs_ret|by right].
Qed.

Lemma readMarker_runs P d (Q : option (option marker) -> disk -> Prop) :
  (P Fails -> Q (Some None) d) -> Q None d ->
  Q (Some (match d !! pending with Some (MarkerDoc m) => Some m | _ => None end)) d ->
  runs P (readMarker (g_StateDir env)) d Q.
Proof.
  intros Hf Hd Hw. unfold readMarker. apply runs_bind, runs_attempt; [|intros H; by apply runs_ret, Hf|done].
  intros a d1 E. injection E as <- <-. apply runs_ret. by destruct (d !! pending).
Qed.

(** One start: dying loses no ground, and a start that gets through gains one. *)
Lemma start_runs n d :
  layout env -> version_of old <> version_of new -> at_rank n d ->
  runs only_dies (BootGuard rand16 now env (current_of d)) d
    (fun r d' => match r with
                 | None => exists m, (m <= n)%nat /\ at_rank m d'
                 | Some g => g = (guard_at n, None) /\ at_rank (pred n) d'
                 end).
Proof.
  intros Hl Hne Hn. spread Hl. unfold BootGuard. apply runs_bind, readMarker_runs; [done|by exists n|].
  destruct n as [|[|n]].
  - destruct Hn as (Hb & Hm & Hs). rewrite Hm. by apply runs_ret.
  - destruct Hn as (Hb & t & b & Hpos & Hm). rewrite Hm. cbn [mk_Rollback mk_To mk_From mk_Boots].
    unfold current_of. rewrite Hb. rewrite (proj2 (String.eqb_neq _ _) Hne), String.eqb_refl. cbn [negb andb].
    rewrite (proj2 (Z.eqb_neq b 0)), (proj2 (Z.ltb_lt 0 b)) by lia. cbn [andb].
    apply runs_bind, runs_ret. apply runs_bind. eapply runs_mono, record_runs. intros r d1 [K1 Hs].
    assert (d1 !! bin = Some old) as B1 by (apply (keeps_at _ _ _ _ _ K1); [apart|done]).
    assert (went_back d1) as W1.
    { split; [done|]. exists t, b. split; [done|]. apply (keeps_at _ _ _ _ _ K1); [apart|done]. }
    destruct r; [|by exists 1%nat]. destruct Hs as [ps Hs]; [done|].
    apply runs_bind, runs_attempt; [|done|by exists 1%nat]. intros a d2 E. injection E as <- <-. apply runs_ret. split; [done|].
    split; [by rewrite lookup_delete_ne by apart|]. split; [apply lookup_delete_eq|]. exists (set_rolled_back (version_of new) "health" ps).
    split; [by rewrite lookup_delete_ne by apart|done].
  - destruct Hn as (Hn5 & Hp & Hprev & t & Hm). rewrite Hm. cbn [mk_Rollback mk_To mk_From mk_Boots].
    unfold current_of. rewrite Hp, String.eqb_refl. cbn [negb]. unfold maxBoots at 1. destruct n as [|n].
    + replace (3 <? 5 - Z.of_nat 2 + 1) with true by done. unfold rollbackOrCarryOn. apply runs_bind.
      eapply runs_mono, (rollback_runs t); [|done|split_and!; eauto].
      intros [[e|]|] d1 R1; [done|by apply runs_ret|]. destruct R1 as [R1|R1]; [exists 2%nat; split; [done|split; [lia|exact R1]]|].
      exists 1%nat. split; [lia|done].
    + replace (3 <? 5 - Z.of_nat (S (S (S n))) + 1) with false by (symmetry; apply Z.ltb_ge; lia).
      apply runs_bind, runs_attempt; [|done|].
      * intros a d1 E. injection E as <- <-. apply runs_ret. split; [done|]. cbn [pred]. split; [lia|].
        split; [by rewrite lookup_insert_ne by apart|]. split; [by rewrite lookup_insert_ne by apart|].
        exists t. rewrite lookup_insert_eq. do 3 f_equal. lia.
      * intros _. exists (S (S (S n))). split; [done|]. split; [done|]. split_and!; eauto.
Qed.

Lemma start_rank n d fs :
  layout env -> version_of old <> version_of new -> at_rank n d -> Forall only_dies fs ->
  match fst (start fs d) with
  | None => exists m, (m <= n)%nat /\ at_rank m (snd (start fs d))
  | Some g => g = (guard_at n, None) /\ at_rank (pred n) (snd (start fs d))
  end.
Proof.
  intros Hl Hne Hn Hf. destruct (start_runs n d Hl Hne Hn fs Hf) as [H _]. unfold start.
  by destruct (BootGuard rand16 now env (current_of d) d fs) as [[r d'] fs'].
Qed.

Lemma starts_rank fss : forall n d,
  layout env -> version_of old <> version_of new -> at_rank n d -> Forall (Forall only_dies) fss ->
  exists m, (m <= n)%nat /\ at_rank m (snd (starts fss d)).
Proof.
  induction fss as [|fs fss IH]; intros n d Hl Hne Hn Hf; simpl; [by exists n|]. apply Forall_cons in Hf as [Hf Hfs].
  pose proof (start_rank n d fs Hl Hne Hn Hf) as H. destruct (start fs d) as [r d1]. simpl in H.
  assert (exists m, (m <= n)%nat /\ at_rank m d1) as (m & Hm & Hr) by (destruct r; [exists (pred n); split; [lia|apply H]|done]).
  destruct (IH m d1 Hl Hne Hr Hfs) as (m' & Hm' & Hr'). destruct (starts fss d1). exists m'. split; [lia|done].
Qed.

Lemma clean_never_dies d : fst (start [] d) <> None.
Proof. destruct (alive_boot rand16 now env (current_of d) d) as (a & d' & E). unfold start. by rewrite E. Qed.

Lemma clean_starts k : forall n d, (n <= 5)%nat ->
  layout env -> version_of old <> version_of new -> at_rank n d ->
  fst (starts (replicate k []) d) = map (fun i => Some (guard_at (n - i), None)) (seq 0 k) /\
  at_rank (n - k) (snd (starts (replicate k []) d)).
Proof.
  induction k as [|k IH]; intros n d Hn5 Hl Hne Hn; [by rewrite Nat.sub_0_r|]. simpl.
  pose proof (start_rank n d [] Hl Hne Hn ltac:(constructor)) as H. pose proof (clean_never_dies d) as Hd.
  destruct (start [] d) as [[g|] d1]; simpl in *; [|done]. destruct H as [-> H].
  destruct (IH (pred n) d1) as [IH1 IH2]; [lia|done..|]. destruct (starts (replicate k []) d1) as [rs d2]. simpl in *. split.
  - rewrite Nat.sub_0_r, IH1, <- seq_shift, map_map. f_equal. apply map_ext. intros i. do 3 f_equal. lia.
  - replace (n - S k)%nat with (pred n - k)%nat by lia. done.
Qed.
End boot.

(** C10: an update that never comes up is rolled back, however often that is
    interrupted. Starting where a swap ended, after any number of starts that
    each die anywhere, the installed binary is the new one or the old one, and
    five undisturbed starts (three on probation, the rollback, the old binary's
    first) end with the old binary in place, nothing pending, and the new
    version recorded as rolled back and skipped. *)
Theorem failed_update_rolls_back (rand16 now : Z) (env : GuardEnv) (version_of : content -> string) (s : staged)
    (old new : content) (db : option content) (d : disk) (crashes : list (list fate)) :
  layout env -> version_of old <> version_of new -> st_version s = version_of new ->
  committed now env (version_of old) s old new db d ->
  Forall (Forall (fun f => f <> Fails)) crashes ->
  let d1 := snd (starts rand16 now env version_of crashes d) in
  (d1 !! g_Binary env = Some new \/ d1 !! g_Binary env = Some old) /\
  settled env version_of old new (snd (starts rand16 now env version_of (replicate 5 []) d1)).
Proof.
  intros Hl Hne Hv [Hb Hp Hm _] Hc d1.
  assert (at_rank env version_of old new 5 d) as H5.
  { split; [lia|]. split_and!; [done..|]. exists now. unfold probation_marker in Hm. by rewrite Hv in Hm. }
  destruct (starts_rank rand16 now env version_of old new crashes 5 d Hl Hne H5 Hc) as (m & Hm5 & Hr). fold d1 in Hr. split.
  - destruct m as [|[|m]]; [right; apply Hr..|left; apply Hr].
  - pose proof (clean_starts rand16 now env version_of old new 5 m d1 Hm5 Hl Hne Hr) as [_ H].
    by replace (m - 5)%nat with 0%nat in H by lia.
Qed.

(** an update has exactly three starts to prove itself. The first three
    undisturbed starts of the new binary are on probation, the fourth rolls it
    back and asks for a restart, and the starts after that, of the old binary,
    ask for nothing. *)
Theorem probation_is_three_starts (rand16 now : Z) (env : GuardEnv) (version_of : content -> string) (s : staged)
    (old new : content) (db : option content) (d : disk) (k : nat) :
  layout env -> version_of old <> version_of new -> st_version s = version_of new ->
  committed now env (version_of old) s old new db d ->
  let probation := Some (mkGuard false (Some (version_of new)), None) in
  fst (starts rand16 now env version_of (replicate (4 + k) []) d) =
    [probation; probation; probation; Some (mkGuard true None, None)] ++ replicate k (Some (no_guard, None)).
Proof.
  intros Hl Hne Hv [Hb Hp Hm _] probation.
  assert (at_rank env version_of old new 5 d) as H5.
  { split; [lia|]. split_and!; [done..|]. exists now. unfold probation_marker in Hm. by rewrite Hv in Hm. }
  destruct (clean_starts rand16 now env version_of old new (4 + k) 5 d) as [-> _]; [done..|].
  rewrite seq_app, map_app. f_equal. simpl. apply list_eq_Forall2. apply Forall2_same_length_lookup_2.
  { by rewrite length_map, length_seq, length_replicate. }
  intros i x y Hx Hy. apply lookup_replicate in Hy as [-> _]. rewrite list_lookup_fmap in Hx.
  destruct (seq 4 k !! i) as [j|] eqn:E; [|done]. apply lookup_seq in E as [-> _]. simpl in Hx. injection Hx as <-.
  by destruct i.
Qed.

(** ** An interrupted swap *)

Section helpers.
Implicit Types l : list helper.

Lemma helper_paths_cons h l : NoDup (helper_paths (h :: l)) ->
  NoDup (helper_paths l) /\ hp_path h <> prevBinary (hp_path h) /\ hp_path h ∉ helper_paths l /\ prevBinary (hp_path h) ∉ helper_paths l.
Proof.
  intros H. change (helper_paths (h :: l)) with (hp_path h :: prevBinary (hp_path h) :: helper_paths l) in H.
  rewrite !NoDup_cons, not_elem_of_cons in H. tauto.
Qed.

Lemma helper_paths_apart l h1 h2 : NoDup (helper_paths l) -> h1 ∈ l -> h2 ∈ l ->
  (hp_path h1 = hp_path h2 -> h1 = h2) /\ hp_path h1 <> prevBinary (hp_path h2).
Proof.
  induction l as [|h l IH]; intros Hn H1 H2; [by apply elem_of_nil in H1|]. apply helper_paths_cons in Hn as (Hn & Hne & Hp & Hv).
  apply elem_of_cons in H1 as [->|H1], H2 as [->|H2]; [done| | |by apply IH].
  - apply helper_paths_in in H2 as [? ?]. split; intros E; exfalso; congruence.
  - apply helper_paths_in in H1 as [? ?]. split; intros E; exfalso; congruence.
Qed.

Lemma helper_names_nodup env : NoDup (map hp_name (env_helpers env)).
Proof. unfold env_helpers, helpersAt. repeat case_if; simpl; repeat constructor; set_solver. Qed.

Lemma helper_names_known env h : h ∈ env_helpers env -> hp_name h ∈ helperNames.
Proof. unfold env_helpers, helpersAt, helperNames. intros H. repeat case_match; set_solver. Qed.

Lemma helper_path_set env : Forall (fun h => hp_path h <> "") (env_helpers env).
Proof. unfold env_helpers, helpersAt. repeat case_if; bool_hyps; simpl; repeat constructor; done. Qed.

Lemma swapOf_set hows ps name : name ∈ helperNames -> swapOf (set_swaps hows ps) name = how_of hows name.
Proof.
  unfold helperNames, set_swaps. intros H. cbn [fold_left helperNames].
  apply elem_of_cons in H as [->|H]; [done|]. apply list_elem_of_singleton in H as ->.
  unfold swapOf, setSwap, setOrDelete. simpl. case_if; bool_hyps; simpl; by rewrite ?lookup_delete_eq, ?lookup_insert_eq.
Qed.

(** What keeping the helpers records of one that is installed. *)
Definition kept (s : staged) (hows : gmap string string) (d d' : disk) (h : helper) : Prop :=
  forall c, d !! hp_path h = Some c ->
  if staged_has s (hp_name h) then how_of hows (hp_name h) = helperReplaced /\ d' !! prevBinary (hp_path h) = Some c
  else how_of hows (hp_name h) = "".

Abbreviation only_dies := (fun f => f <> Fails).

Lemma keep_helper_runs s h d : hp_path h <> prevBinary (hp_path h) ->
  runs only_dies (keep_helper s h) d (fun r d' => forall e how, (r = Some (inl e) -> False) /\ (r = Some (inr how) ->
    kept s (if how =s? "" then ∅ else {[hp_name h := how]}) d d' h)).
Proof.
  intros Hne. unfold keep_helper. apply runs_bind, runs_get. unfold kept.
  destruct (staged_has s (hp_name h)) eqn:Eh; cbn [negb].
  - destruct (fileExists (hp_path h) d) eqn:Ef.
    + apply runs_bind, runs_attempt; [|done|done]. intros a d1 E. apply bool_decide_eq_true_1 in Ef as [c Hc]. rewrite Hc in E.
      injection E as <- <-. apply runs_ret. intros e how. split; [done|]. intros [= <-] c' Hc'. simpl.
      unfold how_of. rewrite lookup_singleton_eq, lookup_insert_eq. simplify_eq. done.
    + apply runs_bind, runs_attempt; [|done|done]. intros a d1 E. injection E as <- <-. apply runs_ret. intros e how. split; [done|].
      intros _ c' Hc'. apply bool_decide_eq_false_1 in Ef. rewrite Hc' in Ef. destruct Ef. by eexists.
  - apply runs_bind, runs_attempt; [|done|done]. intros a d1 E. injection E as <- <-. apply runs_ret. intros e how. split; [done|].
    intros [= <-] c' Hc'. done.
Qed.

Lemma keep_each_runs s l d : NoDup (map hp_name l) -> NoDup (helper_paths l) ->
  runs only_dies (keep_each s l) d (fun r d' => forall hows, r = Some (inr hows) ->
    Forall (kept s hows d d') l /\ forall name, name ∉ map hp_name l -> hows !! name = None).
Proof.
  revert d. induction l as [|h l IH]; intros d Hn Hp; simpl; [apply runs_ret; intros hows [= <-]; done|].
  simpl in Hn. apply NoDup_cons in Hn as [Hh Hn]. pose proof Hp as Hp0. apply helper_paths_cons in Hp as (Hp & Hne & Hpl & Hvl).
  apply runs_bind. eapply runs_mono; [|apply runs_and; [apply keep_helper_runs; done|]].
  2: { apply (only_sub [prevBinary (hp_path h)]); [done|]. unfold keep_helper. apply only_bind; [apply only_get|]. intros d0.
       repeat case_if; eauto 6 with only; apply only_bind; auto with only; apply only_remove || apply only_copy; constructor. }
  intros [[e|how]|] d1 [H1 K1]; [by destruct (H1 e "")| |by intros hows].
  destruct (H1 ErrIO how) as [_ Hk]. specialize (Hk eq_refl). clear H1.
  apply runs_bind. eapply runs_mono; [|apply runs_and; [apply IH; done|apply (only_keep_each (helper_paths l))]].
  2: { intros p Hp'. apply list_elem_of_fmap in Hp' as (x & -> & Hx). by apply helper_paths_in. }
  intros [[e|hows]|] d2 [H2 K2]; [by apply runs_ret| |by intros hows]. apply runs_ret. intros hows' [= <-].
  destruct (H2 hows eq_refl) as [Hf Hnone]. clear H2.
  assert (forall x, x ∈ l -> hp_name x <> hp_name h) as Hname.
  { intros x Hx E. apply Hh. rewrite <- E. apply list_elem_of_fmap. eauto. }
  split.
  - apply Forall_cons. split.
    + intros c Hc. specialize (Hk c Hc). unfold how_of in *. rewrite K2 by done. specialize (Hnone (hp_name h) Hh).
      destruct (how =s? ""); [|rewrite lookup_insert_eq; rewrite lookup_singleton_eq in Hk; exact Hk].
      rewrite Hnone. rewrite lookup_empty in Hk. exact Hk.
    + rewrite Forall_forall in *. intros x Hx c Hc. specialize (Hf x Hx c). unfold how_of in *.
      assert ((if how =s? "" then hows else <[hp_name h:=how]> hows) !! hp_name x = hows !! hp_name x) as ->.
      { destruct (how =s? ""); [done|]. apply lookup_insert_ne. specialize (Hname x Hx). congruence. }
      apply Hf. rewrite K1; [done|]. rewrite list_elem_of_singleton. intros E.
      apply (proj2 (helper_paths_apart (h :: l) x h Hp0 ltac:(by constructor) ltac:(constructor))). done.
  - intros name Hx. apply not_elem_of_cons in Hx as [Hx Hx']. destruct (how =s? ""); [auto|]. rewrite lookup_insert_ne by done. auto.
Qed.
End helpers.

Section interrupted.
Context (rand16 now : Z) (env : GuardEnv) (version_of : content -> string) (s : staged) (old new : content) (d0 : disk).

Abbreviation bin := (g_Binary env).
Abbreviation pending := (pendingPath (g_StateDir env)).
Abbreviation state := (statePath (g_StateDir env)).
Abbreviation hs := (env_helpers env).
Abbreviation only_dies := (fun f => f <> Fails).

Definition bucket_ok (ps : persisted) : bool := (0 <=? ps_Bucket ps) && (ps_Bucket ps <? 100).

(** A helper installed before the swap can be put back. *)
Definition can_put_back (d : disk) (ps : persisted) (h : helper) : Prop :=
  forall c, d0 !! hp_path h = Some c ->
  (swapOf ps (hp_name h) = helperReplaced /\ d !! prevBinary (hp_path h) = Some c) \/
  (swapOf ps (hp_name h) = "" /\ d !! hp_path h = Some c).

(** Where a swap that died before its commit point leaves the disk: as it was
    but for the copies kept, or with a marker and what undoes it. *)
Definition undoable_swap (d : disk) : Prop :=
  (d !! pending = None /\ forall h, h ∈ hs -> d !! hp_path h = d0 !! hp_path h) \/
  (d !! pending = Some (MarkerDoc (probation_marker now (version_of old) s)) /\
   exists ps, d !! state = Some (StateDoc ps) /\ bucket_ok ps = true /\ Forall (can_put_back d ps) hs).

Lemma update_bucket f d : (forall ps, ps_Bucket (f ps) = ps_Bucket ps) ->
  runs only_dies (updateState rand16 (g_StateDir env) f) d
    (fun r d' => forall x, r = Some x -> exists ps, d' !! state = Some (StateDoc (f ps)) /\ bucket_ok (f ps) = true).
Proof.
  intros Hf. unfold updateState. apply runs_bind.
  apply (runs_mono _ _ _ (fun r d' => match r with Some (inl _) => False | Some (inr ps) => bucket_ok ps = true | None => True end)).
  - intros [[e|ps]|] d1 H1; [done| |done]. apply runs_bind, runs_attempt; [|done|done].
    intros a d2 E. injection E as <- <-. apply runs_ret. intros x _. exists ps. split; [apply lookup_insert_eq|].
    unfold bucket_ok in *. by rewrite Hf.
  - assert (forall d1, runs only_dies (let! err := saveLocked (g_StateDir env) (fresh_state (rand16 mod 100)) in
        ret (match err with Some e => inl e | None => inr (fresh_state (rand16 mod 100)) end)) d1
        (fun r d' => match r with Some (inl _) => False | Some (inr ps) => bucket_ok ps = true | None => True end)) as Hfresh.
    { intros d1. apply runs_bind, runs_attempt; [|done|done]. intros a d2 E. injection E as <- <-. apply runs_ret.
      unfold bucket_ok. simpl. pose proof (Z.mod_pos_bound rand16 100). apply andb_true_iff. rewrite Z.leb_le, Z.ltb_lt. lia. }
    unfold loadLocked. apply runs_bind, runs_attempt; [|done|done]. intros a d1 E. injection E as <- <-.
    destruct (d !! state) as [[| |ps|]|]; try apply Hfresh. case_if; [by apply runs_ret|apply Hfresh].
Qed.

Lemma set_swaps_bucket hows ps : ps_Bucket (set_swaps hows ps) = ps_Bucket ps.
Proof. done. Qed.

(** Keeping the helpers leaves them installed, and a way to put each back. *)
Lemma keepHelpers_runs d : layout env -> (forall h, h ∈ hs -> d !! hp_path h = d0 !! hp_path h) ->
  runs only_dies (keepHelpers rand16 env s) d (fun r d' => forall hows, r = Some (inr hows) ->
    exists ps, d' !! state = Some (StateDoc ps) /\ bucket_ok ps = true /\
    Forall (fun h => forall c, d0 !! hp_path h = Some c ->
      if staged_has s (hp_name h) then swapOf ps (hp_name h) = helperReplaced /\ d' !! prevBinary (hp_path h) = Some c
      else swapOf ps (hp_name h) = "") hs).
Proof.
  intros Hl Hd. pose proof Hl as Hl'. spread Hl'. unfold layout in Hl. apply NoDup_app in Hl as (_ & _ & Hnp).
  unfold keepHelpers. apply runs_bind. fold (env_helpers env). eapply runs_mono; [|apply keep_each_runs; [apply helper_names_nodup|done]].
  intros [[e|hows]|] d1 R1; [by apply runs_ret| |by intros ?]. destruct (R1 hows eq_refl) as [Hk _]. clear R1.
  apply runs_bind. eapply runs_mono; [|apply runs_and; [apply (update_bucket (set_swaps hows)); done|apply (only_update rand16 [state]); constructor]].
  intros [r|] d2 [R2 K2]; [|by intros ?]. destruct (R2 r eq_refl) as (ps & Hs & Hb). apply runs_ret. intros hows' Hh.
  assert (hows' = hows) as -> by (destruct r; by simplify_eq). exists (set_swaps hows ps). split_and!; [done..|].
  rewrite Forall_forall in *. intros h Hin c Hc. specialize (Hk h Hin c). rewrite Hd in Hk by done. specialize (Hk Hc).
  rewrite swapOf_set by by apply (helper_names_known env). case_if; [|done]. destruct Hk as [? Hk]. split; [done|].
  rewrite K2; [done|]. rewrite list_elem_of_singleton. intros E. apply helper_paths_in in Hin as [_ Hin]. by rewrite E in Hin.
Qed.

(** Installing the staged helpers touches no kept copy and no other helper. *)
Lemma install_frame h : layout env -> Forall (fun x => sh_helper x ∈ hs) (st_helpers s) -> h ∈ hs ->
  prevBinary (hp_path h) ∉ map (fun x => hp_path (sh_helper x)) (st_helpers s) /\
  (staged_has s (hp_name h) = false -> hp_path h ∉ map (fun x => hp_path (sh_helper x)) (st_helpers s)).
Proof.
  intros Hl Hs Hh. unfold layout in Hl. apply NoDup_app in Hl as (_ & _ & Hnp). rewrite Forall_forall in Hs.
  split; [|intros Hno]; intros Hin; apply list_elem_of_fmap in Hin as (x & E & Hx); specialize (Hs x Hx).
  - symmetry in E. by apply (proj2 (helper_paths_apart hs _ _ Hnp Hs Hh)).
  - apply (proj1 (helper_paths_apart hs _ _ Hnp Hh Hs)) in E. subst h.
    unfold staged_has in Hno. assert (existsb (fun h => hp_name (sh_helper h) =s? hp_name (sh_helper x)) (st_helpers s) = true) as E.
    { apply existsb_exists. exists x. split; [by apply list_elem_of_In|apply String.eqb_refl]. }
    congruence.
Qed.

Lemma install_no_error l : forall d, Forall (fun x => is_Some (d !! sh_file x)) l ->
  runs only_dies (install_helpers l) d (fun r d' => r = None \/ r = Some None).
Proof.
  induction l as [|x l IH]; intros d Hf; simpl; [apply runs_ret; by right|]. apply Forall_cons in Hf as [[c Hc] Hf].
  apply runs_bind, runs_attempt; [|done|by left]. intros a d1 E. rewrite Hc in E. injection E as <- <-. apply IH.
  eapply Forall_impl; [exact Hf|]. intros y Hy. simpl in *. destruct (decide (sh_file y = hp_path (sh_helper x))) as [->|Hne].
  - rewrite lookup_insert_eq. by eexists.
  - by rewrite lookup_insert_ne.
Qed.

(** The disk while a swap has not yet left its marker. *)
Definition unmarked (d : disk) : Prop := d !! pending = None /\ forall h, h ∈ hs -> d !! hp_path h = d0 !! hp_path h.

Lemma unmarked_keeps X d d' : unmarked d -> keeps X d d' -> pending ∉ X -> (forall h, h ∈ hs -> hp_path h ∉ X) -> unmarked d'.
Proof. intros [Hm Hh] K Hp HX. split; [by rewrite K|]. intros h Hin. rewrite K by auto. auto. Qed.

Lemma helper_fixed h p : layout env -> h ∈ hs -> p ∈ fixed_paths env -> hp_path h <> p /\ prevBinary (hp_path h) <> p.
Proof.
  intros Hl Hh Hp. unfold layout in Hl. apply NoDup_app in Hl as (_ & Ha & _). specialize (Ha p Hp).
  apply helper_paths_in in Hh as [? ?]. split; congruence.
Qed.

(** The files a swap changes before it leaves its marker. *)
Definition swap_copies : list string :=
  backupPath (g_StateDir env) :: prevBinary bin :: state :: map (fun h => prevBinary (hp_path h)) hs.

Lemma staged_far p : staged_layout env s -> p ∈ st_path s :: map sh_file (st_helpers s) ->
  p ∉ fixed_paths env ++ helper_paths hs /\ p ∉ swap_copies.
Proof.
  intros Hs Hp. assert (p ∉ fixed_paths env ++ helper_paths hs) as Hfar by (intros Hin; by apply (staged_apart env s p Hs Hin)).
  split; [done|]. apply not_elem_of_app in Hfar as [Hf Hh]. unfold fixed_paths in Hf. repeat rewrite not_elem_of_cons in Hf.
  unfold swap_copies. rewrite !not_elem_of_cons. split_and!; try tauto. intros Hin. by apply Hh, prevs_sub.
Qed.

Lemma copies_apart : layout env -> pending ∉ swap_copies /\ forall h, h ∈ hs -> hp_path h ∉ swap_copies.
Proof.
  intros Hl. pose proof Hl as Hl'. spread Hl'. unfold swap_copies.
  split; [apart; intros Hin; apply prevs_sub in Hin; congruence|]. intros h Hh. rewrite !not_elem_of_cons.
  destruct (helper_fixed h (backupPath (g_StateDir env)) Hl Hh), (helper_fixed h (prevBinary bin) Hl Hh),
    (helper_fixed h state Hl Hh); try (unfold fixed_paths; repeat constructor; fail). split_and!; try done.
  intros Hin. apply list_elem_of_fmap in Hin as (x & E & Hx). unfold layout in Hl. apply NoDup_app in Hl as (_ & _ & Hnp).
  by apply (proj2 (helper_paths_apart hs h x Hnp Hh Hx)).
Qed.

(** Where the helpers' files may already be the new ones. *)
Definition installed_paths : list string := map (fun x => hp_path (sh_helper x)) (st_helpers s).

Lemma late_undoable d4 ps d :
  staged_layout env s -> keeps swap_copies d0 d4 -> d4 !! state = Some (StateDoc ps) -> bucket_ok ps = true ->
  Forall (fun h => forall c, d0 !! hp_path h = Some c ->
      if staged_has s (hp_name h) then swapOf ps (hp_name h) = helperReplaced /\ d4 !! prevBinary (hp_path h) = Some c
      else swapOf ps (hp_name h) = "") hs ->
  keeps (manifest_files env ++ installed_paths) (<[pending := MarkerDoc (probation_marker now (version_of old) s)]> d4) d -> undoable_swap d.
Proof.
  intros Hs K4 Hps Hbk Hall K. pose proof (staged_layout_installed _ _ Hs) as Hl. pose proof Hl as Hl'. spread Hl'.
  assert (installed_paths ⊆ helper_paths hs) as HZ by apply staged_sub, Hs.
  right. split; [apply (keeps_at _ _ _ _ _ K); [unfold manifest_files; apart; intros Hin; apply HZ in Hin; congruence|apply lookup_insert_eq]|].
  exists ps. split; [apply (keeps_at _ _ _ _ _ K); [unfold manifest_files; apart; intros Hin; apply HZ in Hin; congruence|]; by rewrite lookup_insert_ne by apart|].
  split; [done|]. rewrite Forall_forall in *. intros h Hh c Hc. specialize (Hall h Hh c Hc).
  destruct (install_frame h Hl (proj1 (proj2 Hs)) Hh) as [Hf1 Hf2].
  destruct (helper_fixed h pending Hl Hh) as [Hq1 Hq2]; [unfold fixed_paths; repeat constructor|].
  assert (hp_path h ∉ manifest_files env /\ prevBinary (hp_path h) ∉ manifest_files env) as [Hm1 Hm2].
  { destruct (helper_fixed h (manifestPath (g_StateDir env) "running") Hl Hh), (helper_fixed h (manifestPath (g_StateDir env) "previous") Hl Hh);
      [unfold fixed_paths; repeat constructor..|]. unfold manifest_files. split; apart. }
  destruct (staged_has s (hp_name h)); [left|right]; (split; [by destruct_and?|]).
  - rewrite K by (by apply not_elem_of_app). rewrite lookup_insert_ne by congruence. apply Hall.
  - rewrite K by (apply not_elem_of_app; auto). rewrite lookup_insert_ne by congruence. rewrite K4; [done|]. by apply copies_apart.
Qed.

(** A staged file is still there when the marker is. *)
Lemma staged_still p d4 m : staged_layout env s -> keeps swap_copies d0 d4 -> p ∈ st_path s :: map sh_file (st_helpers s) ->
  (<[pending := m]> d4 : disk) !! p = d0 !! p.
Proof.
  intros Hs K4 Hp. destruct (staged_far p Hs Hp) as [Hfar HY]. rewrite lookup_insert_ne; [by apply K4|].
  intros <-. apply Hfar, elem_of_app. left. unfold fixed_paths. repeat constructor.
Qed.

Lemma swap_undoable :
  staged_layout env s -> old <> new -> unmarked d0 -> d0 !! bin = Some old -> d0 !! st_path s = Some new ->
  Forall (fun x => is_Some (d0 !! sh_file x)) (st_helpers s) ->
  runs only_dies (swap rand16 now env (version_of old) s) d0 (fun r d' => r = None -> d' !! bin = Some old -> undoable_swap d').
Proof.
  intros Hs Hne Hu Hb Hn Hfiles. pose proof (staged_layout_installed _ _ Hs) as Hl. destruct (copies_apart Hl) as [HYp HYh].
  assert (forall d, keeps swap_copies d0 d -> undoable_swap d) as Hearly.
  { intros d K. left. by apply (unmarked_keeps swap_copies d0). }
  unfold swap. apply runs_bind. eapply runs_mono, (only_remove swap_copies); [|unfold swap_copies; repeat constructor].
  intros [u|] d1 K1; [|intros _ _; by apply Hearly].
  apply runs_bind. eapply runs_mono, (only_copy swap_copies); [|unfold swap_copies; repeat constructor].
  intros [[e|]|] d2 K2; [by apply runs_ret| |intros _ _; apply Hearly; by etrans].
  apply runs_bind. eapply runs_mono, (only_copy swap_copies); [|unfold swap_copies; repeat constructor].
  intros [[e|]|] d3 K3; [by apply runs_ret| |intros _ _; apply Hearly; etrans; [exact K1|]; by etrans].
  assert (keeps swap_copies d0 d3) as K03 by (etrans; [exact K1|]; by etrans).
  apply runs_bind. eapply runs_mono; [|apply runs_and; [apply keepHelpers_runs; [done|]|apply (only_keepHelpers rand16 swap_copies)]].
  2: { intros h Hh. apply K03. auto. }
  2: { unfold swap_copies; repeat constructor. }
  2: { intros x Hx. unfold swap_copies. by do 3 constructor. }
  intros [[e|hows]|] d4 [Hk K4]; [by apply runs_ret| |intros _ _; apply Hearly; by etrans].
  destruct (Hk hows eq_refl) as (ps & Hps & Hbk & Hall). clear Hk. assert (keeps swap_copies d0 d4) as K04 by by etrans.
  apply runs_bind, runs_attempt; [|done|intros _ _ _; by apply Hearly]. intros a d5 E. injection E as <- <-.
  apply runs_bind. eapply runs_mono, (only_keepRunning env s). intros r5 d5 K5.
  assert (forall d6, keeps installed_paths d5 d6 -> undoable_swap d6) as Hlate.
  { intros d6 K6. eapply late_undoable; [done..|]. intros p [Hp1 Hp2]%not_elem_of_app. by rewrite K6, K5. }
  assert (forall p, p ∈ st_path s :: map sh_file (st_helpers s) -> d5 !! p = d0 !! p) as Hstill.
  { intros p Hp. rewrite K5; [by apply staged_still|]. destruct (staged_far p Hs Hp) as [Hfar _]. apply not_elem_of_app in Hfar as [Hfar _].
    unfold fixed_paths in Hfar. repeat rewrite not_elem_of_cons in Hfar. unfold manifest_files. rewrite !not_elem_of_cons. tauto. }
  destruct r5; [|intros _ _; by apply Hlate].
  apply runs_bind. eapply runs_mono; [|apply runs_and; [apply install_no_error|apply (only_install installed_paths); done]].
  2: { rewrite Forall_forall in *. intros x Hx. rewrite Hstill; [by apply Hfiles|]. constructor. apply list_elem_of_fmap. eauto. }
  intros r6 d6 [[-> | ->] K6]; [intros _ _; by apply Hlate|].
  assert (d6 !! st_path s = Some new) as N6.
  { rewrite K6; [rewrite Hstill; [done|constructor]|]. intros Hz.
    destruct (staged_far (st_path s) Hs) as [Hfar _]; [constructor|]. apply Hfar, elem_of_app. right. by apply (staged_sub env s (proj1 (proj2 Hs))). }
  apply runs_bind, runs_attempt; [|done|intros _ _ _; by apply Hlate]. intros a d7 E. rewrite N6 in E. injection E as <- <-.
  apply runs_bind, runs_attempt; [|done|intros _ _; rewrite lookup_insert_eq; congruence].
  intros a d8 E. injection E as <- <-. by apply runs_ret.
Qed.
End interrupted.

Section undo.
Context (rand16 now : Z) (env : GuardEnv).

Abbreviation state := (statePath (g_StateDir env)).
Abbreviation undisturbed := (fun f => f = Works).

Lemma restore_helper_runs path how d : path <> "" -> path <> prevBinary path ->
  runs undisturbed (restoreHelper path how) d (fun r d' => r = Some None /\
    (how = helperReplaced -> forall c, d !! prevBinary path = Some c -> d' !! path = Some c) /\
    (how <> helperReplaced -> d' = d)).
Proof.
  intros Hp Hne. unfold restoreHelper. rewrite (proj2 (String.eqb_neq _ _) Hp). cbn [orb].
  destruct (how =s? helperReplaced) eqn:E; bool_hyps; cbn [negb]; [|by apply runs_ret].
  apply runs_bind, runs_get. destruct (fileExists (prevBinary path) d) eqn:Ef; cbn [negb].
  - apply bool_decide_eq_true_1 in Ef as [c Hc]. apply runs_bind, runs_attempt; [|done|done]. intros a d1 E1. rewrite Hc in E1.
    injection E1 as <- <-. apply runs_bind, runs_attempt; [|done|done]. intros a d2 E2. injection E2 as <- <-. apply runs_ret.
    split_and!; [done| |by intros ?]. intros _ c' Hc'. rewrite lookup_delete_ne by done. rewrite lookup_insert_eq. congruence.
  - apply runs_ret. apply bool_decide_eq_false_1 in Ef. split_and!; [done| |done]. intros _ c Hc. rewrite Hc in Ef. destruct Ef. by eexists.
Qed.

(** What putting the helpers back does to each. *)
Definition put_back_ok (ps : persisted) (d d' : disk) (h : helper) : Prop :=
  (swapOf ps (hp_name h) = helperReplaced -> forall c, d !! prevBinary (hp_path h) = Some c -> d' !! hp_path h = Some c) /\
  (swapOf ps (hp_name h) = "" -> d' !! hp_path h = d !! hp_path h).

Lemma restore_each_runs ps l d : state ∉ helper_paths l -> NoDup (helper_paths l) -> Forall (fun h => hp_path h <> "") l ->
  runs undisturbed (restore_each rand16 (g_StateDir env) ps l) d (fun r d' => r <> None -> Forall (put_back_ok ps d d') l).
Proof.
  revert d. induction l as [|h l IH]; intros d Hs Hn Hp; simpl; [by apply runs_ret|].
  change (helper_paths (h :: l)) with (hp_path h :: prevBinary (hp_path h) :: helper_paths l) in Hs.
  rewrite !not_elem_of_cons in Hs. destruct Hs as (Hs1 & Hs2 & Hs3). pose proof Hn as Hn0.
  apply helper_paths_cons in Hn as (Hn & Hne & Hp1 & Hp2). apply Forall_cons in Hp as [Hp Hpl].
  assert (forall d1, keeps [hp_path h; prevBinary (hp_path h); state] d d1 ->
    (swapOf ps (hp_name h) = helperReplaced -> forall c, d !! prevBinary (hp_path h) = Some c -> d1 !! hp_path h = Some c) ->
    (swapOf ps (hp_name h) = "" -> d1 !! hp_path h = d !! hp_path h) ->
    runs undisturbed (restore_each rand16 (g_StateDir env) ps l) d1 (fun r d' => r <> None -> Forall (put_back_ok ps d d') (h :: l))) as Hrest.
  { intros d1 K1 H1 H2. eapply runs_mono; [|apply runs_and; [by apply IH|apply (only_restore_each rand16 (state :: helper_paths l)); [constructor|by intros x Hx; constructor]]].
    intros r d2 [Hall K2] Hr. specialize (Hall Hr). apply Forall_cons. split.
    - assert (d2 !! hp_path h = d1 !! hp_path h) as E by (apply K2; rewrite not_elem_of_cons; split; [congruence|done]).
      split; rewrite E; auto.
    - rewrite Forall_forall in *. intros x Hx. destruct (Hall x Hx) as [Ha Hb].
      assert (forall p, p ∈ helper_paths l -> d1 !! p = d !! p) as Hk.
      { intros p Hin. apply K1. rewrite !not_elem_of_cons. split_and!; try (intros ->; done). apply not_elem_of_nil. }
      apply helper_paths_in in Hx as [Hx1 Hx2]. split; [by rewrite <- (Hk _ Hx2)|by rewrite <- (Hk _ Hx1)]. }
  case_if; bool_hyps.
  - apply Hrest; [done| |done]. intros E. by rewrite E in Heqb.
  - apply runs_bind. eapply runs_mono; [|apply runs_and; [by apply restore_helper_runs|apply (only_restore [hp_path h; prevBinary (hp_path h)]); repeat constructor]].
    intros r d1 [(-> & H1 & H2) K1]. apply runs_bind.
    eapply runs_mono, (only_update rand16 [state]); [|constructor]. intros [u|] d2 K2; [|by intros ?]. apply Hrest.
    + intros p Hx. rewrite !not_elem_of_cons in Hx. rewrite K2 by (rewrite list_elem_of_singleton; tauto).
      apply K1. rewrite !not_elem_of_cons. tauto.
    + intros E c Hc. rewrite K2 by (rewrite list_elem_of_singleton; congruence). by apply H1.
    + intros E. by rewrite E in Heqb.
Qed.

(** Undoing an interrupted swap, by the old binary's next start. *)
Lemma undo_runs version_of s old d0 d :
  layout env -> version_of old <> st_version s ->
  d !! g_Binary env = Some old -> undoable_swap now env version_of s old d0 d ->
  runs undisturbed (BootGuard rand16 now env (version_of old)) d (fun r d' => r <> None ->
    d' !! g_Binary env = Some old /\ d' !! pendingPath (g_StateDir env) = None /\
    forall h c, h ∈ env_helpers env -> d0 !! hp_path h = Some c -> d' !! hp_path h = Some c).
Proof.
  intros Hl Hne Hb Hu. pose proof (helper_path_set env) as Hp. pose proof Hl as Hl'. spread Hl'. unfold BootGuard.
  apply runs_bind, readMarker_runs; [by intros ?|by intros ?|]. destruct Hu as [[Hm Hh]|(Hm & ps & Hps & Hbk & Hall)]; rewrite Hm.
  - apply runs_ret. intros _. split_and!; [done..|]. intros h c Hin Hc. by rewrite Hh.
  - cbn [mk_Rollback mk_To mk_From mk_Boots probation_marker]. rewrite (proj2 (String.eqb_neq _ _) Hne), String.eqb_refl. cbn [negb andb].
    rewrite Z.eqb_refl, Z.ltb_irrefl. unfold layout in Hl. apply NoDup_app in Hl as (_ & _ & Hnp).
    apply runs_bind. unfold restoreHelpersFor. fold (env_helpers env). apply runs_bind.
    apply (runs_mono _ _ _ (fun r d' => r = Some (inr ps) /\ d' = d)).
    2: { unfold loadLocked. apply runs_bind, runs_attempt; [|done|done]. intros a d1 E. injection E as <- <-. rewrite Hps.
         unfold bucket_ok in Hbk. rewrite Hbk. by apply runs_ret. }
    intros r d' [-> ->]. eapply runs_mono; [|apply runs_and; [by apply restore_each_runs|
      apply (only_restore_each rand16 (state :: helper_paths (env_helpers env))); [constructor|by intros x Hx; constructor]]].
    intros [u|] d1 [B1 K1]; [|by intros ?]. specialize (B1 ltac:(done)).
    apply runs_bind, runs_ret. apply runs_bind, runs_attempt; [|done|by intros _ ?]. intros a d2 E. injection E as <- <-.
    apply runs_ret. intros _. split; [rewrite lookup_delete_ne by apart; apply (keeps_at _ _ _ _ _ K1); [apart|done]|].
    split; [apply lookup_delete_eq|]. intros h c Hin Hc. rewrite Forall_forall in *.
    rewrite lookup_delete_ne by (apply helper_paths_in in Hin as [? _]; congruence).
    destruct (B1 h Hin) as [R1 R2]. destruct (Hall h Hin c Hc) as [[Hsw Hv]|[Hsw Hv]]; [by apply R1|by rewrite R2].
Qed.
End undo.

(** a swap that dies before its commit point is undone by the next start. If
    the process dies anywhere in a swap and the old daemon is still the
    installed one, then after one undisturbed start no update is pending, the
    daemon is the old one, and every helper that was installed beside it is the
    one from before. *)
Theorem interrupted_swap_undone (rand16 now : Z) (env : GuardEnv) (version_of : content -> string) (s : staged)
    (old new : content) (d d1 : disk) (fs rest : list fate) :
  staged_layout env s ->
  version_of old <> st_version s -> old <> new ->
  d !! pendingPath (g_StateDir env) = None -> d !! g_Binary env = Some old -> d !! st_path s = Some new ->
  Forall (fun x => is_Some (d !! sh_file x)) (st_helpers s) ->
  Forall (fun f => f <> Fails) fs ->
  swap rand16 now env (version_of old) s d fs = (None, d1, rest) -> d1 !! g_Binary env = Some old ->
  let d2 := snd (start rand16 now env version_of [] d1) in
  d2 !! g_Binary env = Some old /\ d2 !! pendingPath (g_StateDir env) = None /\
  forall h c, h ∈ env_helpers env -> d !! hp_path h = Some c -> d2 !! hp_path h = Some c.
Proof.
  intros Hs Hv Hne Hm Hb Hn Hf Hfs E Hb1.
  destruct (swap_undoable rand16 now env version_of s old new d Hs Hne (conj Hm (fun h _ => eq_refl)) Hb Hn Hf fs Hfs) as [Hu _].
  rewrite E in Hu. specialize (Hu eq_refl Hb1). simpl in Hu.
  destruct (undo_runs rand16 now env version_of s old d d1 (staged_layout_installed _ _ Hs) Hv Hb1 Hu [] ltac:(constructor)) as [H _].
  destruct (alive_boot rand16 now env (version_of old) d1) as (a & d2 & Ea). unfold start, current_of. rewrite Hb1, Ea in *. by apply H.
Qed.

(** ** Confirming *)

Section confirm.
Context (rand16 now : Z) (env : GuardEnv) (version_of : content -> string).

(** With nothing pending a start changes nothing, whatever happens. *)
Lemma start_idle d fs : d !! pendingPath (g_StateDir env) = None -> snd (start rand16 now env version_of fs d) = d.
Proof.
  intros Hm. assert (runs (fun _ => True) (BootGuard rand16 now env (current_of env version_of d)) d (fun _ d' => d' = d)) as H.
  { unfold BootGuard. apply runs_bind, readMarker_runs; [intros _; by apply runs_ret|done|]. rewrite Hm. by apply runs_ret. }
  destruct (H fs) as [E _]; [by apply Forall_true|]. unfold start. by destruct (BootGuard _ _ _ _ d fs) as [[r d'] fs'].
Qed.

(** confirming a start keeps the update and nothing else. A rollback the user
    asked for in the meantime is never dropped, whatever fails; the update's own
    marker goes, the installed binary is untouched, the install is recorded, and
    no later start has anything left to count or roll back. *)
Theorem confirm_keeps_the_update (version : string) (m : marker) (d : disk) (fs : list fate) :
  layout env -> d !! pendingPath (g_StateDir env) = Some (MarkerDoc m) ->
  (mk_Rollback m = true -> snd (fst (Confirm rand16 now env version d fs)) !! pendingPath (g_StateDir env) = Some (MarkerDoc m)) /\
  (mk_Rollback m = false -> mk_To m = version ->
   let d1 := snd (fst (Confirm rand16 now env version d [])) in
   d1 !! g_Binary env = d !! g_Binary env /\ d1 !! pendingPath (g_StateDir env) = None /\
   (exists ps, d1 !! statePath (g_StateDir env) = Some (StateDoc ps) /\ ps_InstalledAt ps = now /\ ps_RolledBackFrom ps = "" /\
      ps_RollbackError ps = None) /\
   forall fs', snd (start rand16 now env version_of fs' d1) = d1).
Proof.
  intros Hl Hm. spread Hl. split.
  - intros Hr. assert (runs (fun _ => True) (Confirm rand16 now env version) d
      (fun _ d' => d' !! pendingPath (g_StateDir env) = Some (MarkerDoc m))) as R.
    { assert (forall d0, d0 !! pendingPath (g_StateDir env) = Some (MarkerDoc m) -> runs (fun _ => True)
          (updateState rand16 (g_StateDir env) (set_confirmed now) ;; ret tt) d0
          (fun _ d' => d' !! pendingPath (g_StateDir env) = Some (MarkerDoc m))) as Hup.
      { intros d0 Hd0. apply runs_bind. eapply runs_mono, (only_update rand16 [statePath (g_StateDir env)]); [|constructor].
        intros r d1 K1. assert (d1 !! pendingPath (g_StateDir env) = Some (MarkerDoc m)) by (apply (keeps_at _ _ _ _ _ K1); [apart|done]).
        destruct r; [by apply runs_ret|done]. }
      unfold Confirm. apply runs_bind, readMarker_runs; [intros _|done|rewrite Hm, Hr]; (apply runs_bind, runs_ret; by apply Hup). }
    destruct (R fs) as [R' _]; [by apply Forall_true|exact R'].
  - intros Hr Ht d1.
    assert (runs (fun f => f <> Fails) (Confirm rand16 now env version) d (fun r d' => r <> None ->
      d' !! g_Binary env = d !! g_Binary env /\ d' !! pendingPath (g_StateDir env) = None /\
      exists ps, d' !! statePath (g_StateDir env) = Some (StateDoc (set_confirmed now ps)))) as R.
    { unfold Confirm. apply runs_bind, readMarker_runs; [done|by intros ?|]. rewrite Hm, Hr, Ht, String.eqb_refl. cbn [negb andb].
      apply runs_bind, runs_attempt; [|done|by intros _ ?]. intros a d2 E. injection E as <- <-. apply runs_bind.
      eapply runs_mono, update_runs. intros [u|] d3 [K3 Hps]; [|by intros ?]. destruct Hps as [ps Hps]; [done|].
      apply runs_ret. intros _. split; [rewrite K3 by apart; by rewrite lookup_delete_ne by apart|].
      split; [rewrite K3 by apart; apply lookup_delete_eq|]. by exists ps. }
    assert (alive (Confirm rand16 now env version)) as Ha.
    { unfold Confirm, readMarker, ReadFile, os_Remove. live. apply alive_update. }
    destruct (R [] ltac:(constructor)) as [R' _]. destruct (Ha d) as (a & d2 & E). unfold d1. rewrite E in *. simpl in *.
    destruct R' as (Rb & Rm & ps & Rs); [done|]. split_and!; [done..| |intros fs'; by apply start_idle].
    exists (set_confirmed now ps). done.
Qed.
End confirm.

(** ** Examples *)

Definition ex_env : GuardEnv := mkGuardEnv "/b/riftrouted" "/b/openvpn" "" "/var" "/var/riftroute.db" None None.
Definition ex_version (c : content) : string := match c with Blob b => b | _ => "" end.
Definition ex_ovpn : helper := mkHelper helperOpenVPN "/b/openvpn" maxOpenVPNSize "OpenVPN ".
Definition ex_staged : staged := mkStaged "2.0.0" "/var/update-staging/2.0.0/riftrouted" "2.0.0" "manifest" "signature"
  [mkStagedHelper ex_ovpn "/var/update-staging/2.0.0/openvpn" "ovpn 2"].
Definition ex_disk : disk :=
  list_to_map [("/b/riftrouted", Blob "1.0.0"); ("/b/openvpn", Blob "ovpn 1"); ("/var/riftroute.db", Blob "data");
               ("/var/update-staging/2.0.0/riftrouted", Blob "2.0.0"); ("/var/update-staging/2.0.0/openvpn", Blob "ovpn 2")].

Lemma ex_staged_layout : staged_layout ex_env ex_staged.
Proof.
  split.
  - apply (bool_decide_unpack (NoDup (fixed_paths ex_env ++ helper_paths (env_helpers ex_env) ++
      st_path ex_staged :: map sh_file (st_helpers ex_staged)))). vm_compute. exact I.
  - split; [constructor; [constructor|constructor]|]. apply (bool_decide_unpack (Forall (fun p => under (stagingDir (g_StateDir ex_env)) p = false)
      (fixed_paths ex_env ++ helper_paths (env_helpers ex_env)))). vm_compute. exact I.
Qed.

(** The disk after an undisturbed swap. *)
Definition ex_installed : disk := snd (fst (swap 7 100 ex_env "1.0.0" ex_staged ex_disk [])).

Lemma swap_keeps_a_way_back_witness :
  committed 100 ex_env "1.0.0" ex_staged (Blob "1.0.0") (Blob "2.0.0") (Some (Blob "data")) ex_installed.
Proof.
  pose proof (swap_keeps_a_way_back 7 100 ex_env "1.0.0" ex_staged (Blob "1.0.0") (Blob "2.0.0") ex_disk []
    ex_staged_layout eq_refl eq_refl) as H.
  unfold ex_installed. destruct (swap 7 100 ex_env "1.0.0" ex_staged ex_disk []) as [[r d'] fs'] eqn:E.
  assert (r = Some None) as -> by (apply (f_equal (fun x => fst (fst x))) in E; vm_compute in E; by symmetry). exact H.
Defined.

Lemma failed_update_rolls_back_witness :
  let d1 := snd (starts 7 100 ex_env ex_version [[]; []; []; [Works; Works; Works; Works; Dies]] ex_installed) in
  settled ex_env ex_version (Blob "1.0.0") (Blob "2.0.0") (snd (starts 7 100 ex_env ex_version (replicate 5 []) d1)).
Proof.
  apply (failed_update_rolls_back 7 100 ex_env ex_version ex_staged (Blob "1.0.0") (Blob "2.0.0") (Some (Blob "data")) ex_installed
    [[]; []; []; [Works; Works; Works; Works; Dies]]).
  - apply (staged_layout_installed _ _ ex_staged_layout).
  - discriminate.
  - reflexivity.
  - split; vm_compute; reflexivity.
  - repeat constructor; discriminate.
Defined.

Lemma probation_is_three_starts_witness :
  fst (starts 7 100 ex_env ex_version (replicate 5 []) ex_installed) =
    [Some (mkGuard false (Some "2.0.0"), None); Some (mkGuard false (Some "2.0.0"), None); Some (mkGuard false (Some "2.0.0"), None);
     Some (mkGuard true None, None); Some (no_guard, None)].
Proof.
  apply (probation_is_three_starts 7 100 ex_env ex_version ex_staged (Blob "1.0.0") (Blob "2.0.0") (Some (Blob "data")) ex_installed 1).
  - apply (staged_layout_installed _ _ ex_staged_layout).
  - discriminate.
  - reflexivity.
  - split; vm_compute; reflexivity.
Defined.

(** Dead after the helper was replaced, before the daemon was. *)
Definition ex_cut : list fate := [Works; Works; Works; Works; Works; Works; Works; Works; Works; Works; Works; Dies].
Definition ex_half : disk := snd (fst (swap 7 100 ex_env "1.0.0" ex_staged ex_disk ex_cut)).

Lemma interrupted_swap_undone_witness :
  ex_half !! "/b/openvpn" = Some (Blob "ovpn 2") /\
  snd (start 7 100 ex_env ex_version [] ex_half) !! "/b/openvpn" = Some (Blob "ovpn 1").
Proof.
  split; [vm_compute; reflexivity|].
  assert (swap 7 100 ex_env "1.0.0" ex_staged ex_disk ex_cut = (None, ex_half, [])) as E.
  { unfold ex_half. destruct (swap 7 100 ex_env "1.0.0" ex_staged ex_disk ex_cut) as [[r d1] rest] eqn:E.
    pose proof (f_equal (fun x => fst (fst x)) E) as E1. pose proof (f_equal snd E) as E2. vm_compute in E1, E2. simplify_eq. reflexivity. }
  pose proof (interrupted_swap_undone 7 100 ex_env ex_version ex_staged (Blob "1.0.0") (Blob "2.0.0") ex_disk ex_half ex_cut []
    ex_staged_layout) as H.
  destruct H as (_ & _ & H).
  - by vm_compute.
  - discriminate.
  - by vm_compute.
  - by vm_compute.
  - by vm_compute.
  - constructor; [|constructor]. exists (Blob "ovpn 2"). by vm_compute.
  - repeat constructor; discriminate.
  - exact E.
  - by vm_compute.
  - apply (H ex_ovpn (Blob "ovpn 1")); [constructor|by vm_compute].
Defined.

Lemma confirm_keeps_the_update_witness :
  let d := snd (start 7 100 ex_env ex_version [] ex_installed) in
  let d1 := snd (fst (Confirm 7 200 ex_env "2.0.0" d [])) in
  d1 !! "/b/riftrouted" = Some (Blob "2.0.0") /\ d1 !! "/var/update-pending.json" = None.
Proof.
  intros d d1.
  destruct (confirm_keeps_the_update 7 200 ex_env ex_version "2.0.0" (mkMarker "1.0.0" "2.0.0" 100 1 false) d []
    (staged_layout_installed _ _ ex_staged_layout) ltac:(vm_compute; reflexivity)) as [_ H].
  destruct (H eq_refl eq_refl) as (Hb & Hm & _). split; [|exact Hm]. unfold d1.
  change "/b/riftrouted" with (g_Binary ex_env). rewrite Hb. vm_compute. reflexivity.
Defined.

(** The disk of an updated daemon whose user asked for the previous version. *)
Definition ex_asked : disk :=
  list_to_map [("/b/riftrouted", Blob "2.0.0"); ("/b/riftrouted.prev", Blob "1.0.0"); ("/var/riftroute.db", Blob "data");
               ("/var/update-state.json", StateDoc (fresh_state 7));
               ("/var/update-pending.json", MarkerDoc (mkMarker "2.0.0" "2.0.0" 100 0 true))].

(** a requested rollback that dies after the binary is back is forgotten. If
    the process dies after it removed the kept copy and before it removed the
    marker, the next start of the restored binary takes up the rollback again,
    finds no copy, and records a failed rollback; the version rolled back from
    is neither recorded nor skipped, so it will be installed again. *)
Theorem requested_rollback_forgotten :
  let d1 := snd (start 7 200 ex_env ex_version [Works; Works; Works; Works; Dies] ex_asked) in
  let d2 := snd (start 7 300 ex_env ex_version [] d1) in
  d1 !! "/b/riftrouted" = Some (Blob "1.0.0") /\ d2 !! "/b/riftrouted" = Some (Blob "1.0.0") /\
  d2 !! "/var/update-pending.json" = None /\
  exists ps, d2 !! "/var/update-state.json" = Some (StateDoc ps) /\ ps_Skip ps = "" /\ ps_RolledBackFrom ps = "" /\
             ps_RollbackError ps = Some (Errorf "no previous binary to roll back to" []).
Proof. vm_compute. split_and!; try reflexivity. eexists. split_and!; reflexivity. Qed.
