(* ===== verification/Addressing.v ===== *)
(** * A tunnel's own addressing (internal/tunnel/addressing.go)

    What a tunnel's server may make the kernel route into it: the networks the
    tunnel is given and the routes that come with them, checked against this
    machine before the tunnel counts as connected. A refusal is an error value
    that keeps its format and arguments; [None] is the empty string. *)

From S2P Require Import Prelude.
From S2P Require Import Netip NetipText Domain Provider Tailscale.

(** ** Addresses (net/netip) *)

Definition IsLoopback (a : addr) : bool :=
  match Unmap a with
  | Addr4 n => Z.shiftr n 24 =? 127
  | Addr6 n _ => n =? 1
  | AddrZero => false
  end.

Definition IsUnspecified (a : addr) : bool := bool_decide (a = Addr4 0) || bool_decide (a = Addr6 0 "").

(** fc00::/7. *)
Definition isULA (a : addr) : bool := match a with Addr6 n _ => Z.shiftr n 121 =? 126 | _ => false end.

(** ** The check *)

Definition privateV4 : list prefix :=
  [mkPrefix (Addr4 167772160) 8; mkPrefix (Addr4 2886729728) 12; mkPrefix (Addr4 3232235520) 16; mkPrefix (Addr4 1681915904) 10].

Definition minPrivateV4 : Z := 16.
Definition minPublicV4 : Z := 32.
Definition minULAV6 : Z := 48.
Definition minGlobalV6 : Z := 64.

Record addressingEnv : Type := mkAddressingEnv {
  ae_iface : string;
  ae_ifaces : list Iface;
  ae_protected : list addr;
  ae_servers : list addr;
  ae_ours : list prefix;
  ae_configured : bool;
  ae_routes : list Route;
}.

Definition set_env_routes (env : addressingEnv) (routes : list Route) : addressingEnv :=
  mkAddressingEnv (ae_iface env) (ae_ifaces env) (ae_protected env) (ae_servers env) (ae_ours env) (ae_configured env) routes.

Definition insideAny (n : prefix) (l : list prefix) : bool := existsb (fun o => holds o n) l.

Definition plumbing (p : prefix) : bool :=
  let a := p_addr p in
  IsMulticast a || bool_decide (a = broadcast) || (Is6 a && IsLinkLocalUnicast a).

Definition peer30 (dst : prefix) (nets : list prefix) : bool :=
  if negb (Is4 (p_addr dst)) || negb (p_bits dst =? 32) then false
  else existsb (fun n => Is4 (p_addr n) && Contains (AddrPrefix (p_addr n) 30) (p_addr dst)) nets.

Definition holdsProtected (n : prefix) (env : addressingEnv) : option error :=
  match List.find (fun p => Contains n (Unmap p)) (ae_protected env) with
  | Some p => Some (Errorf "holds %s (your router, DNS server or connectivity check)" [addr_String p])
  | None =>
      match List.find (fun s => Contains n (Unmap s)) (ae_servers env) with
      | Some s => Some (Errorf "holds the tunnel's own server %s" [addr_String s])
      | None => None
      end
  end.

Definition reach (o : prefix) (ifc : Iface) (routes : list Route) : list prefix :=
  let network := Masked o in
  if negb (if_IsVPN ifc) || (length routes =? 0)%nat then [network]
  else
    host_prefix (p_addr o) ::
    omap (fun r => if negb (rt_Iface r =s? if_Name ifc) then None
                   else dst ← ParsePrefix (rt_DstCIDR r);
                        if insideAny (Masked dst) [network] then Some (Masked dst) else None) routes.

Definition too_wide (n : prefix) : bool :=
  let a := p_addr n in
  Is4 a && insideAny n privateV4 && (p_bits n <? minPrivateV4) ||
  Is4 a && negb (insideAny n privateV4) && (p_bits n <? minPublicV4) ||
  Is6 a && isULA a && (p_bits n <? minULAV6) ||
  Is6 a && negb (isULA a) && (p_bits n <? minGlobalV6).

(** Where another interface's addresses reach into the network. *)
Definition iface_overlap (n : prefix) (env : addressingEnv) (ifc : Iface) : option error :=
  if if_Name ifc =s? ae_iface env then None
  else
    let reached :=
      if_Addrs ifc ≫= fun s =>
        match ParsePrefix s with
        | Some o => if IsLoopback (p_addr o) || IsLinkLocalUnicast (p_addr o) then [] else reach o ifc (ae_routes env)
        | None => []
        end in
    r ← List.find (fun r => Overlaps r n) reached;
    Some (Errorf "overlaps %s on %s" [prefix_String r; if_Name ifc]).

Fixpoint first_some {A B} (f : A -> option B) (l : list A) : option B :=
  match l with [] => None | x :: l' => match f x with Some y => Some y | None => first_some f l' end end.

Definition vetNetwork (n : prefix) (env : addressingEnv) : option error :=
  let a := p_addr n in
  if IsLoopback a || IsUnspecified a || IsMulticast a || IsLinkLocalUnicast a then
    Some (Errorf "isn't a usable tunnel address" [])
  else if too_wide n then Some (Errorf "is wider than a tunnel's own network may be" [])
  else match holdsProtected n env with
  | Some why => Some why
  | None => first_some (iface_overlap n env) (ae_ifaces env)
  end.

(** A network every interface has, which nothing is checked of. *)
Definition own_link_local (n : prefix) : bool := Is6 (p_addr n) && IsLinkLocalUnicast (p_addr n).

Definition own_nets (nets : list prefix) : list prefix := keep_if (fun n => negb (own_link_local n)) (map Masked nets).

Definition vet_net (env : addressingEnv) (n : prefix) : option error :=
  why ← vetNetwork n env;
  Some (if ae_configured env then Wrapf "the configuration's Address %s %w; refusing" [addr_String (p_addr n)] why
        else Wrapf "the server gave the tunnel the network %s, which %w; refusing" [prefix_String n] why).

(** A route into the tunnel that RiftRoute did not put there. *)
Definition vet_route (nets own : list prefix) (env : addressingEnv) (r : Route) : option error :=
  if negb (rt_Iface r =s? ae_iface env) || (rt_Owner r =s? OwnerRiftRoute) then None
  else match ParsePrefix (rt_DstCIDR r) with
  | None => None
  | Some dst =>
      let dst := Masked dst in
      if plumbing dst || insideAny dst own then None
      else if insideAny dst (ae_ours env) then
        why ← holdsProtected dst env;
        Some (Wrapf "the server's settings put a route to %s into the tunnel, which %w; refusing" [prefix_String dst] why)
      else if peer30 dst nets then
        let why := match vetNetwork dst env with
                   | Some why => Some why
                   | None => if insideAny dst privateV4 then None else Some (Errorf "is a public address" [])
                   end in
        w ← why;
        Some (Wrapf "the server made %s the tunnel's point-to-point peer, which %w; refusing" [addr_String (p_addr dst)] w)
      else
        Some (Errorf "the server's settings put a route to %s into the tunnel, outside its own network; refusing" [prefix_String dst])
  end.

Definition vetAddressing (nets : list prefix) (routes : list Route) (env : addressingEnv) : option error :=
  let env := set_env_routes env routes in
  match first_some (vet_net env) (own_nets nets) with
  | Some why => Some why
  | None => first_some (vet_route nets (own_nets nets) env) routes
  end.

(** ** What an accepted tunnel carries *)

Lemma first_some_none {A B} (f : A -> option B) l : first_some f l = None <-> forall x, x ∈ l -> f x = None.
Proof.
  induction l as [|x l IH]; simpl; [by split; [intros _ y Hy; apply elem_of_nil in Hy|]|].
  destruct (f x) eqn:E; [|rewrite IH]; split.
  - done.
  - intros H. by rewrite (H x ltac:(constructor)) in E.
  - intros H y Hy. apply elem_of_cons in Hy as [->|Hy]; auto.
  - intros H y Hy. apply H. by constructor.
Qed.

Lemma find_none_in {A} (f : A -> bool) l : List.find f l = None <-> forall x, x ∈ l -> f x = false.
Proof.
  induction l as [|x l IH]; simpl; [by split; [intros _ y Hy; apply elem_of_nil in Hy|]|].
  destruct (f x) eqn:E; [|rewrite IH]; split.
  - done.
  - intros H. by rewrite (H x ltac:(constructor)) in E.
  - intros H y Hy. apply elem_of_cons in Hy as [->|Hy]; auto.
  - intros H y Hy. apply H. by constructor.
Qed.

(** What must never go into a tunnel. *)
Definition spared (env : addressingEnv) (n : prefix) : Prop :=
  forall p, p ∈ ae_protected env \/ p ∈ ae_servers env -> Contains n (Unmap p) = false.

Lemma holdsProtected_none n env : holdsProtected n env = None <-> spared env n.
Proof.
  unfold holdsProtected, spared. split.
  - destruct (List.find _ (ae_protected env)) eqn:E1; [done|]. destruct (List.find _ (ae_servers env)) eqn:E2; [done|].
    rewrite find_none_in in E1, E2. naive_solver.
  - intros H. assert (List.find (fun p => Contains n (Unmap p)) (ae_protected env) = None) as -> by (apply find_none_in; auto).
    assert (List.find (fun p => Contains n (Unmap p)) (ae_servers env) = None) as -> by (apply find_none_in; auto). done.
Qed.

Lemma vetNetwork_none n env : vetNetwork n env = None ->
  spared env n /\ too_wide n = false /\
  forall ifc s o r, ifc ∈ ae_ifaces env -> if_Name ifc <> ae_iface env -> s ∈ if_Addrs ifc -> ParsePrefix s = Some o ->
    IsLoopback (p_addr o) = false -> IsLinkLocalUnicast (p_addr o) = false -> r ∈ reach o ifc (ae_routes env) -> Overlaps r n = false.
Proof.
  unfold vetNetwork. case_if; [done|]. destruct (too_wide n) eqn:Ew; [done|]. destruct (holdsProtected n env) eqn:E; [done|].
  intros H. split; [by apply holdsProtected_none|]. split; [done|]. intros ifc s o r Hi Hne Hs Ho Hl Hll Hr.
  rewrite first_some_none in H. specialize (H ifc Hi). unfold iface_overlap in H. rewrite (proj2 (String.eqb_neq _ _) Hne) in H.
  destruct (List.find _ _) eqn:Ef in H; [done|]. rewrite find_none_in in Ef. apply Ef. apply list_elem_of_bind. exists s.
  split; [|done]. by rewrite Ho, Hl, Hll.
Qed.

Lemma Masked_prefix_ok n : prefix_ok n -> prefix_ok (Masked n).
Proof. apply Masked_ok. Qed.

(** C28: a tunnel that passes the check carries nothing it has no business with.
    None of its own networks is too wide, overlaps another interface's network
    or holds a router, resolver, anchor or tunnel server; and a route another
    program put into its interface is the system's plumbing, or holds none of
    those and lies in the tunnel's networks, in what the user routes into it,
    or is a private point-to-point peer. *)
Theorem vetAddressing_safe (nets : list prefix) (routes : list Route) (env : addressingEnv) :
  Forall prefix_ok nets -> vetAddressing nets routes env = None ->
  (forall n, n ∈ own_nets nets -> spared env n /\ too_wide n = false /\
     forall ifc s o r, ifc ∈ ae_ifaces env -> if_Name ifc <> ae_iface env -> s ∈ if_Addrs ifc -> ParsePrefix s = Some o ->
       IsLoopback (p_addr o) = false -> IsLinkLocalUnicast (p_addr o) = false -> r ∈ reach o ifc routes -> Overlaps r n = false) /\
  (forall r dst, r ∈ routes -> rt_Iface r = ae_iface env -> rt_Owner r <> OwnerRiftRoute -> ParsePrefix (rt_DstCIDR r) = Some dst ->
     plumbing (Masked dst) = true \/
     spared env (Masked dst) /\
     (insideAny (Masked dst) (own_nets nets) = true \/ insideAny (Masked dst) (ae_ours env) = true \/
      peer30 (Masked dst) nets = true /\ insideAny (Masked dst) privateV4 = true)).
Proof.
  intros Hok H. unfold vetAddressing in H. set (env' := set_env_routes env routes) in H.
  destruct (first_some (vet_net env') (own_nets nets)) eqn:En; [done|]. cbv beta iota in H. rewrite first_some_none in En. rewrite first_some_none in H.
  assert (forall n, n ∈ own_nets nets -> vetNetwork n env' = None) as Hn.
  { intros n Hn. specialize (En n Hn). unfold vet_net in En. by destruct (vetNetwork n env'). }
  split; [intros n Hin; exact (vetNetwork_none n env' (Hn n Hin))|].
  intros r dst Hr Hi Ho Hd. specialize (H r Hr). unfold vet_route in H. cbn [ae_iface env' set_env_routes] in H.
  rewrite Hi, String.eqb_refl, (proj2 (String.eqb_neq _ _) Ho), Hd in H. cbn [negb orb] in H.
  destruct (plumbing (Masked dst)); [by left|]. right. cbn [orb] in H.
  destruct (insideAny (Masked dst) (own_nets nets)) eqn:Ei.
  - split; [|by left]. unfold insideAny in Ei. apply existsb_exists in Ei as (o & Hin & Hh). apply list_elem_of_In in Hin.
    intros p Hp. destruct (Contains (Masked dst) (Unmap p)) eqn:Ec; [|done].
    rewrite <- (proj1 (vetNetwork_none o env' (Hn o Hin)) p Hp). symmetry.
    apply (holds_Contains o (Masked dst)); [|apply Masked_prefix_ok; by eapply ParsePrefix_ok|done|done].
    unfold own_nets in Hin. apply elem_of_keep_if in Hin as [Hin _]. apply list_elem_of_fmap in Hin as (x & -> & Hx).
    rewrite Forall_forall in Hok. by apply Masked_prefix_ok, Hok.
  - cbn [ae_ours env' set_env_routes] in H. destruct (insideAny (Masked dst) (ae_ours env)) eqn:Eo.
    + split; [|by right; left]. destruct (holdsProtected (Masked dst) env') eqn:Eh; [done|]. exact (proj1 (holdsProtected_none _ env') Eh).
    + destruct (peer30 (Masked dst) nets) eqn:Ep; [|done]. destruct (vetNetwork (Masked dst) env') eqn:Ev; [done|].
      destruct (insideAny (Masked dst) privateV4) eqn:Epr; [|done]. split; [|by right; right].
      exact (proj1 (vetNetwork_none _ env' Ev)).
Qed.

(** A /24 beside the user's LAN, with a pushed host inside the user's routes. *)
Definition ex_vet : addressingEnv :=
  mkAddressingEnv "utun5" [mkIface "en0" true "phys" ["192.168.1.10/24"] 1500 false] [Addr4 3232235777] [Addr4 3405803781]
    [mkPrefix (Addr4 167772160) 8] false [].
Definition ex_pushed : Route := mkRoute "10.9.0.1/32" "" "utun5" 0 FamilyV4 OwnerUnknown "" "" "" false false false.

Lemma vetAddressing_safe_witness :
  vetAddressing [mkPrefix (Addr4 168296453) 24] [ex_pushed] ex_vet = None /\ spared ex_vet (mkPrefix (Addr4 168361985) 32).
Proof.
  assert (vetAddressing [mkPrefix (Addr4 168296453) 24] [ex_pushed] ex_vet = None) as E by (vm_compute; reflexivity). split; [exact E|].
  destruct (vetAddressing_safe [mkPrefix (Addr4 168296453) 24] [ex_pushed] ex_vet) as [_ H];
    [apply (bool_decide_unpack (Forall prefix_ok [mkPrefix (Addr4 168296453) 24])); vm_compute; exact I|exact E|].
  destruct (H ex_pushed (mkPrefix (Addr4 168361985) 32)) as [Hp|[Hs _]];
    [constructor|reflexivity|discriminate|vm_compute; reflexivity|vm_compute in Hp; discriminate Hp|exact Hs].
Defined.
