(* ===== verification/TunnelManager.v ===== *)
(** * The tunnel manager (internal/tunnel/manager.go)

    The daemon's tunnels: their definitions, one session per connected tunnel,
    and what the engine should route for them. The manager's lock makes each
    critical section one operation; Connect, Save, Delete and a stop are several,
    and others run in between. A session is a number; what its driver reports
    (openvpn's management events, or another protocol's) are operations on its
    tunnel. Definitions on disk are a map, written with the cache. Drivers
    (parsing a configuration, whether the engine is installed, checks) are
    arguments; so are the times. Logs, telemetry and files of a run are left
    out. *)

From Stdlib Require Import Ascii.
From S2P Require Import Prelude.
From S2P Require Import Netip NetipText Domain Reconcile Input Provider Netmon Killswitch Update.

(** ** Definitions (store.go, driver.go) *)

Record tunnel_def : Type := mkDef {
  td_Name : string;
  td_Type : string;
  td_Config : string;
  td_Username : string;
  td_Password : string;
  td_Via : string;
  td_Routes : list string;
  td_AutoConnect : bool;
  td_WhenDown : string;
  td_UpdatedAt : Z;
}.

#[export] Instance tunnel_def_eq_dec : EqDecision tunnel_def.
Proof. solve_decision. Defined.

Definition blocks (d : tunnel_def) : bool := td_WhenDown d =s? TunnelBlock.

Definition name_char (c : ascii) : bool := is_lower c || is_digit c || Ascii.eqb c "_" || Ascii.eqb c "-".

(** [^[a-z0-9][a-z0-9_-]{0,31}$]. *)
Definition ValidName (s : string) : bool :=
  match s with
  | EmptyString => false
  | String c s' => (is_lower c || is_digit c) && (String.length s' <=? 31)%nat && str_forall name_char s'
  end.

Record Remote : Type := mkRemote { rm_Host : string; rm_Port : Z; rm_Proto : string }.

Record parsed : Type := mkParsed {
  pd_remotes : list Remote;
  pd_servers : list string;
  pd_ignored : list string;
  pd_needsAuth : bool;
  pd_inlineUser : string;
  pd_inlinePass : string;
  pd_certExpires : option Z;
  pd_loginName : string;          (* how an IKEv2 profile logs in *)
}.

Record driver : Type := mkDriver {
  dr_parse : string -> error + parsed;
  dr_check : parsed -> option error;
  dr_engine : option error;       (* why it cannot run *)
}.

(** ** The manager *)

Record live : Type := mkLive {
  lv_state : TunnelState;
  lv_detail : string;
  lv_iface : string;
  lv_localIP : string;
  lv_v6 : bool;
  lv_server : string;
  lv_since : option Z;
  lv_lastErr : string;
  lv_tail : list string;
  lv_in : Z;
  lv_out : Z;
  lv_bypass : list addr;
  lv_servers : list addr;
  lv_sess : option nat;
  lv_deleting : bool;
  lv_failures : Z;
  lv_want : bool;
}.

Definition idle_live : live := mkLive TunnelDisconnected "" "" "" false "" None "" [] 0 0 [] [] None false 0 false.

(** A running session: its tunnel, and whether it was told to stop. *)
Record session : Type := mkSession { se_name : string; se_stopping : bool }.

(** How far a Delete is: marked, or stopping the session it saw. *)
Inductive delete_stage : Type := DeleteMarked | DeleteStopping (seen : option nat).

Record TunnelManager : Type := mkTM {
  tm_defs : gmap string tunnel_def;
  tm_parsed : gmap string (error + parsed);
  tm_rt : gmap string live;
  tm_broken : gmap string error;
  tm_resume : gset string;
  tm_restarting : gset string;
  tm_closed : bool;
  tm_store : gmap string tunnel_def;
  tm_resumeFile : option string;
  tm_sessions : gmap nat session;
  tm_next : nat;
  tm_deletes : gmap string delete_stage;
}.

Definition with_rt (m : TunnelManager) x :=
  mkTM (tm_defs m) (tm_parsed m) x (tm_broken m) (tm_resume m) (tm_restarting m) (tm_closed m) (tm_store m) (tm_resumeFile m)
    (tm_sessions m) (tm_next m) (tm_deletes m).
Definition with_sessions (m : TunnelManager) x :=
  mkTM (tm_defs m) (tm_parsed m) (tm_rt m) (tm_broken m) (tm_resume m) (tm_restarting m) (tm_closed m) (tm_store m) (tm_resumeFile m)
    x (tm_next m) (tm_deletes m).
Definition with_deletes (m : TunnelManager) x :=
  mkTM (tm_defs m) (tm_parsed m) (tm_rt m) (tm_broken m) (tm_resume m) (tm_restarting m) (tm_closed m) (tm_store m) (tm_resumeFile m)
    (tm_sessions m) (tm_next m) x.

Section manager.
Context (drivers : string -> option driver).
Implicit Types (m : TunnelManager) (r : live) (d : tunnel_def).

Definition parse_def (t config : string) : error + parsed :=
  match drivers t with None => inl (Errorf "unsupported tunnel type %q" [t]) | Some drv => dr_parse drv config end.

Definition cache d m : TunnelManager :=
  mkTM (<[td_Name d := d]> (tm_defs m)) (<[td_Name d := parse_def (td_Type d) (td_Config d)]> (tm_parsed m))
    (match tm_rt m !! td_Name d with None => <[td_Name d := idle_live]> (tm_rt m) | Some _ => tm_rt m end)
    (tm_broken m) (tm_resume m) (tm_restarting m) (tm_closed m) (tm_store m) (tm_resumeFile m) (tm_sessions m) (tm_next m) (tm_deletes m).

(** [update]: a change of one tunnel's live state, if it is still there. *)
Definition update (name : string) (f : live -> live) m : TunnelManager :=
  match tm_rt m !! name with None => m | Some r => with_rt m (<[name := f r]> (tm_rt m)) end.

Definition set_want r (w : bool) : live :=
  mkLive (lv_state r) (lv_detail r) (lv_iface r) (lv_localIP r) (lv_v6 r) (lv_server r) (lv_since r) (lv_lastErr r) (lv_tail r)
    (lv_in r) (lv_out r) (lv_bypass r) (lv_servers r) (lv_sess r) (lv_deleting r) (lv_failures r) w.
Definition set_deleting (b : bool) r : live :=
  mkLive (lv_state r) (lv_detail r) (lv_iface r) (lv_localIP r) (lv_v6 r) (lv_server r) (lv_since r) (lv_lastErr r) (lv_tail r)
    (lv_in r) (lv_out r) (lv_bypass r) (lv_servers r) (lv_sess r) b (lv_failures r) (lv_want r).
Definition set_lastErr (e : string) r : live :=
  mkLive (lv_state r) (lv_detail r) (lv_iface r) (lv_localIP r) (lv_v6 r) (lv_server r) (lv_since r) e (lv_tail r)
    (lv_in r) (lv_out r) (lv_bypass r) (lv_servers r) (lv_sess r) (lv_deleting r) (lv_failures r) (lv_want r).
Definition set_state (st : TunnelState) (detail : string) r : live :=
  mkLive st detail (lv_iface r) (lv_localIP r) (lv_v6 r) (lv_server r) (lv_since r) (lv_lastErr r) (lv_tail r)
    (lv_in r) (lv_out r) (lv_bypass r) (lv_servers r) (lv_sess r) (lv_deleting r) (lv_failures r) (lv_want r).

(** ** What is reported and routed *)

Definition whenDown d : string := if blocks d then TunnelBlock else TunnelFallback.

Definition blocking d r : bool :=
  blocks d && lv_want r && (bool_decide (lv_sess r = None) || negb (lv_state r =s? TunnelConnected)).

Definition orString (s or_ : string) : string := if s =s? "" then or_ else s.

Definition brokenStatus (ErrorText : error -> string) (name : string) (e : error) : TunnelStatus :=
  mkTunnelStatus name TunnelOpenVPN TunnelViaDirect [] false "" false "" false false [] [] [] [] [] None [] true TunnelFailed ""
    "" "" "" None ("its saved definition can't be read (" +:+ ErrorText e +:+ "); delete it and add it again") 0 0.

Definition statusLocked (ErrorText : error -> string) (name : string) d (p : error + parsed) r : TunnelStatus :=
  let '(needs, servers, ignored, user, haspass, exp) :=
    match p with
    | inr p =>
        (pd_needsAuth p, pd_servers p, pd_ignored p,
         (if pd_needsAuth p then orString (td_Username d) (pd_inlineUser p) else td_Username d),
         negb (td_Password d =s? "") || (pd_needsAuth p && negb (pd_inlinePass p =s? "")), pd_certExpires p)
    | inl _ => (false, [], [], td_Username d, negb (td_Password d =s? ""), None)
    end in
  let '(state, err) :=
    match p with
    | inl e => if bool_decide (lv_sess r = None) then (TunnelFailed, "profile is no longer valid: " +:+ ErrorText e)
               else (lv_state r, lv_lastErr r)
    | inr _ => (lv_state r, lv_lastErr r)
    end in
  mkTunnelStatus (td_Name d) (td_Type d) (td_Via d) (td_Routes d) (td_AutoConnect d) (whenDown d) (blocking d r) user haspass
    needs servers ignored [] [] [] exp [] false state (lv_detail r) (lv_iface r) (lv_localIP r) (lv_server r) (lv_since r) err
    (lv_in r) (lv_out r).

Definition addAddrs (to as_ : list addr) : list addr :=
  fold_left (fun to a => if bool_decide (a ∈ to) then to else to ++ [a]) as_ to.

Definition configServers (p : option (error + parsed)) : list addr :=
  match p with
  | Some (inr p) => fold_left (fun out rm => match ParseAddr (rm_Host rm) with Some a => addAddrs out [Unmap a] | None => out end)
                      (pd_remotes p) []
  | _ => []
  end.

(** A tunnel's input to the engine, if it has one. *)
Definition input_of m (name : string) (r : live) : option TunnelInput :=
  let d := tm_defs m !! name in
  let block := match d with Some d => blocks d && lv_want r | None => false end in
  if bool_decide (lv_sess r = None) && negb block then None
  else
    let servers := if bool_decide (lv_sess r = None) then addAddrs (lv_servers r) (configServers (tm_parsed m !! name)) else lv_servers r in
    let iface := if negb (bool_decide (lv_sess r = None)) && (lv_state r =s? TunnelConnected) then lv_iface r else "" in
    Some (mkTunnelInput name iface (lv_v6 r) block (match d with Some d => td_Routes d | None => [] end) (lv_bypass r) servers).

(** Ranging over the tunnels in any order, the result is sorted by name. *)
Definition Inputs m : list TunnelInput :=
  slice_stable (fun a b => str_less (t_Name a) (t_Name b)) (omap (fun '(name, r) => input_of m name r) (map_to_list (tm_rt m))).

(** ** Routes as given *)

Record issue : Type := mkIssue { is_Field : string; is_Msg : error }.

Definition maxRoutes : nat := 256.

(** One route, normalized; [None] for an empty line. *)
Definition normalize_one (v : string) : option (error + string) :=
  let v := TrimSpace v in
  if v =s? "" then None
  else
    Some (match (match ParsePrefix v with Some p => Some p | None => host_prefix <$> ParseAddr v end) with
          | None => inl (Errorf "%q is not an IP address or CIDR" [v])
          | Some p =>
              if p_bits p =? 0 then
                inl (Errorf "%s would send ALL traffic into the tunnel; list the networks behind it instead" [v])
              else inr (if p_bits p =? BitLen (p_addr p) then addr_String (p_addr p) else prefix_String (Masked p))
          end).

Definition normalizeRoutes (l : list string) : list string * list error :=
  if (maxRoutes <? length l)%nat then ([], [Errorf "at most 256 routes per tunnel" []])
  else
    let rs := omap normalize_one l in
    (dedup ∅ (omap (fun x => match x with inr s => Some s | inl _ => None end) rs),
     omap (fun x => match x with inl e => Some e | inr _ => None end) rs).

(** ** Saving *)

Record TunnelSpec : Type := mkSpec {
  sp_Name : string;
  sp_Type : string;
  sp_Config : string;
  sp_Username : string;
  sp_Password : string;
  sp_Via : string;
  sp_Routes : list string;
  sp_AutoConnect : bool;
  sp_WhenDown : string;
}.

(** [ContainsAny(s, "\r\n\x00")]. *)
Definition line_char (c : ascii) : bool := (code c =? 13) || (code c =? 10) || (code c =? 0).
Definition has_line_break (s : string) : bool := negb (str_forall (fun c => negb (line_char c)) s).

(** The types New registers, sorted. *)
Definition typeNames : string := Join [TunnelIKEv2; TunnelOpenVPN; TunnelWireGuard] ", ".

Definition bad (cond : bool) (field : string) (e : error) : list issue := if cond then [mkIssue field e] else [].

(** The type a spec means: a client that does not send it edits a tunnel of
    the type it has. *)
Definition spec_type m (name type : string) : string :=
  if type =s? "" then
    match tm_defs m !! name with
    | Some prev => if td_Type prev =s? "" then TunnelOpenVPN else td_Type prev
    | None => TunnelOpenVPN
    end
  else type.

Definition spec_issues (name type via : string) (spec : TunnelSpec) : list issue :=
  bad (negb (ValidName name)) "name" (Errorf "use 1–32 lowercase letters, digits, - or _ (starting with a letter or digit)" []) ++
  bad (bool_decide (drivers type = None)) "type" (Errorf "unsupported tunnel type %q (%s)" [type; typeNames]) ++
  bad (negb (via =s? TunnelViaDirect) && negb (via =s? TunnelViaDefault)) "via" (Errorf "via must be %q or %q" [TunnelViaDirect; TunnelViaDefault]) ++
  bad (negb (sp_WhenDown spec =s? "") && negb (sp_WhenDown spec =s? TunnelFallback) && negb (sp_WhenDown spec =s? TunnelBlock))
    "when_down" (Errorf "when_down must be %q or %q" [TunnelFallback; TunnelBlock]) ++
  map (mkIssue "routes") (snd (normalizeRoutes (sp_Routes spec))) ++
  bad (has_line_break (sp_Username spec +:+ sp_Password spec)) "username" (Errorf "username and password can't contain line breaks" []) ++
  bad ((type =s? TunnelWireGuard) && (negb (sp_Username spec =s? "") || negb (sp_Password spec =s? "")))
    "username" (Errorf "a WireGuard tunnel has no username or password; its keys are in the configuration" []).

Definition config_required (type : string) : error :=
  if type =s? TunnelWireGuard then Errorf "a WireGuard configuration (.conf) is required" []
  else if type =s? TunnelIKEv2 then Errorf "a configuration profile (.mobileconfig) is required" []
  else Errorf "an OpenVPN profile (.ovpn) is required" [].

Definition with_login d (user pass : string) : tunnel_def :=
  mkDef (td_Name d) (td_Type d) (td_Config d) user pass (td_Via d) (td_Routes d) (td_AutoConnect d) (td_WhenDown d) (td_UpdatedAt d).

(** The definition a spec makes of the one before it, and whether its password
    is the saved one. *)
Definition spec_def (prev : option tunnel_def) (name type via : string) (spec : TunnelSpec) (now : Z) : tunnel_def * bool :=
  let down := match prev with
              | Some p => if sp_WhenDown spec =s? "" then td_WhenDown p else sp_WhenDown spec
              | None => sp_WhenDown spec
              end in
  let down := if down =s? TunnelFallback then "" else down in
  let '(config, user, pass, kept) :=
    match prev with
    | Some p =>
        if td_Type p =s? type then
          let kept := (sp_Password spec =s? "") && negb (td_Password p =s? "") in
          (orString (sp_Config spec) (td_Config p), orString (sp_Username spec) (td_Username p),
           (if kept then td_Password p else sp_Password spec), kept)
        else (sp_Config spec, sp_Username spec, sp_Password spec, false)
    | None => (sp_Config spec, sp_Username spec, sp_Password spec, false)
    end in
  (mkDef name type config user pass via (fst (normalizeRoutes (sp_Routes spec))) (sp_AutoConnect spec) down now, kept).

(** The profile and the login: the definition to store, and what is wrong. *)
Definition login_issues (prev : option tunnel_def) (spec : TunnelSpec) d (kept : bool) : tunnel_def * list issue :=
  if TrimSpace (td_Config d) =s? "" then (d, [mkIssue "config" (config_required (td_Type d))])
  else if bool_decide (drivers (td_Type d) = None) then (d, [])
  else match parse_def (td_Type d) (td_Config d) with
       | inl e => (d, [mkIssue "config" e])
       | inr p =>
           let replaced := kept && match prev with Some pr => negb (td_Config pr =s? td_Config d) | None => false end in
           let pass := if replaced then "" else td_Password d in
           let user := orString (td_Username d) (pd_inlineUser p) in
           let pass' := orString pass (pd_inlinePass p) in
           (with_login d user pass',
            bad (replaced && pd_needsAuth p && (pd_inlinePass p =s? "")) "password"
              (Errorf "the profile changed; enter the password again" []) ++
            bad ((td_Type d =s? TunnelIKEv2) && negb (pd_needsAuth p) && (negb (sp_Username spec =s? "") || negb (sp_Password spec =s? "")))
              "username" (Errorf "this profile logs in with %s; it takes no username or password" [pd_loginName p]) ++
            bad (pd_needsAuth p && (user =s? "")) "username"
              (Errorf "this profile logs in with a username and password; the username is required" []) ++
            bad (pd_needsAuth p && (pass' =s? "")) "password"
              (Errorf "this profile logs in with a username and password; the password is required" []))
       end.

Inductive save_error : Type := SaveBusy (e : error) | ValidationError (l : list issue).

(** Save up to the store: the definition to write and the one it replaces. *)
Definition save_check m (spec : TunnelSpec) (now : Z) : save_error + (tunnel_def * option tunnel_def) :=
  let name := TrimSpace (sp_Name spec) in
  let type := spec_type m name (sp_Type spec) in
  let via := orString (sp_Via spec) TunnelViaDirect in
  let prev := tm_defs m !! name in
  if match tm_rt m !! name with Some r => lv_deleting r | None => false end then
    inl (SaveBusy (Errorf "tunnel %s is being deleted; try again" [name]))
  else
    let '(d, kept) := spec_def prev name type via spec now in
    let '(d, issues) := login_issues prev spec d kept in
    match spec_issues name type via spec ++ issues with
    | [] => inr (d, prev)
    | l => inl (ValidationError l)
    end.

(** [store.put]: renamed into place, so the old definition or the new one. *)
Definition put d m : TunnelManager :=
  mkTM (tm_defs m) (tm_parsed m) (tm_rt m) (tm_broken m) (tm_resume m) (tm_restarting m) (tm_closed m) (<[td_Name d := d]> (tm_store m))
    (tm_resumeFile m) (tm_sessions m) (tm_next m) (tm_deletes m).
Definition remove (name : string) m : TunnelManager :=
  mkTM (tm_defs m) (tm_parsed m) (tm_rt m) (tm_broken m) (tm_resume m) (tm_restarting m) (tm_closed m) (base.delete name (tm_store m))
    (tm_resumeFile m) (tm_sessions m) (tm_next m) (tm_deletes m).

Definition unbreak (name : string) m : TunnelManager :=
  mkTM (tm_defs m) (tm_parsed m) (tm_rt m) (base.delete name (tm_broken m)) (tm_resume m) (tm_restarting m) (tm_closed m) (tm_store m)
    (tm_resumeFile m) (tm_sessions m) (tm_next m) (tm_deletes m).

(** The second critical section of Save. *)
Definition save_cache d m : TunnelManager := cache d (unbreak (td_Name d) m).

Inductive save_next : Type := Reconnect | Reapply | NoChange.

Definition save_action (prev : option tunnel_def) d (r : live) : save_next :=
  let running := negb (bool_decide (lv_sess r = None)) in
  let moved := match prev with
               | Some p => negb (td_Config p =s? td_Config d) || negb (td_Username p =s? td_Username d) ||
                           negb (td_Password p =s? td_Password d) || negb (td_Via p =s? td_Via d)
               | None => false
               end in
  if running && moved then Reconnect else if running || lv_want r then Reapply else NoChange.

(** Save's reconnect did not connect again. *)
Definition save_failed (ErrorText : error -> string) (name : string) (e : error) m : TunnelManager :=
  update name (fun r => if bool_decide (lv_sess r = None) then set_lastErr (ErrorText e) (set_state TunnelFailed (lv_detail r) r) else r) m.

(** ** Connections *)

(** [ConnectPanic] is a nil dereference. *)
Inductive connect_result : Type := ConnectErr (e : error) | ConnectUp | ConnectGo (d : tunnel_def) | ConnectPanic.

(** Connect's checks, before it starts a session. *)
Definition connect_check m (name : string) : connect_result :=
  match tm_broken m !! name, tm_defs m !! name, tm_rt m !! name with
  | Some _, _, _ => ConnectErr (Errorf "tunnel %s's saved definition can't be read; delete it and add it again" [name])
  | None, None, _ => ConnectErr (Errorf "no tunnel named %q" [name])
  | None, Some d, Some r =>
      if lv_deleting r then ConnectErr (Errorf "tunnel %s is being deleted" [name])
      else if negb (bool_decide (lv_sess r = None)) then ConnectUp
      else match tm_parsed m !! name, drivers (td_Type d) with
           | Some (inl e), _ => ConnectErr (Wrapf "tunnel %s: profile is no longer valid: %w" [name] e)
           | Some (inr p), Some drv =>
               if pd_needsAuth p && ((orString (td_Username d) (pd_inlineUser p) =s? "") || (orString (td_Password d) (pd_inlinePass p) =s? ""))
               then ConnectErr (Errorf "tunnel %s needs a username and password" [name])
               else match dr_check drv p, dr_engine drv with
                    | Some e, _ => ConnectErr (Wrapf "tunnel %s: %w" [name] e)
                    | None, Some e => ConnectErr e
                    | None, None => ConnectGo d
                    end
           | _, _ => ConnectPanic
           end
  | None, Some _, None => ConnectPanic
  end.

Definition errShuttingDown : error := Errorf "the daemon is shutting down" [].

Definition starting r (s : nat) : live :=
  mkLive TunnelConnecting "starting" "" "" false "" None "" [] 0 0 [] (lv_servers r) (Some s) false 0 true.

(** Connect's second critical section, with the definition the first one
    read: the session's number, if one starts. *)
Definition connect_start (name : string) d m : error + (TunnelManager * option nat) :=
  if tm_closed m then inl errShuttingDown
  else match tm_rt m !! name with
       | None => inl (Errorf "tunnel %s changed while connecting; try again" [name])
       | Some r =>
           if negb (bool_decide (tm_defs m !! name = Some d)) || lv_deleting r then
             inl (Errorf "tunnel %s changed while connecting; try again" [name])
           else if negb (bool_decide (lv_sess r = None)) then inr (m, None)
           else let s := tm_next m in
                inr (mkTM (tm_defs m) (tm_parsed m) (<[name := starting r s]> (tm_rt m)) (tm_broken m) (tm_resume m) (tm_restarting m)
                       (tm_closed m) (tm_store m) (tm_resumeFile m) (<[s := mkSession name false]> (tm_sessions m)) (S s) (tm_deletes m), Some s)
       end.

(** The first part of [stop]: what it does under the lock, and the session it
    then waits for. *)
Definition stop_live (keepWant : bool) r : live :=
  let r := if keepWant then r else set_want r false in
  if bool_decide (lv_sess r = None) then set_lastErr "" (set_state TunnelDisconnected "" r) else r.

Definition stop_begin (name : string) (keepWant : bool) m : error + (TunnelManager * option nat) :=
  match tm_rt m !! name with
  | None => inl (Errorf "no tunnel named %q" [name])
  | Some r => inr (update name (stop_live keepWant) m, lv_sess r)
  end.

(** [s.stopping.Store(true)]. *)
Definition mark_stopping (s : nat) m : TunnelManager :=
  match tm_sessions m !! s with
  | None => m
  | Some se => with_sessions m (<[s := mkSession (se_name se) true]> (tm_sessions m))
  end.

(** [finish]: a session's end; [tail] is its process's last output. *)
Definition finished (stopping : bool) (tail : option (list string)) r : live :=
  let '(st, e, since) :=
    if stopping then (TunnelDisconnected, "", None)
    else (TunnelFailed, orString (lv_lastErr r) "the connection ended", lv_since r) in
  mkLive st "" "" (lv_localIP r) (lv_v6 r) (lv_server r) since e (default (lv_tail r) tail) 0 0 []
    (if lv_want r then lv_servers r else []) None (lv_deleting r) (lv_failures r) (lv_want r).

Definition finish (s : nat) (tail : option (list string)) m : TunnelManager :=
  match tm_sessions m !! s with
  | None => m
  | Some se =>
      let m := with_sessions m (base.delete s (tm_sessions m)) in
      update (se_name se) (fun r => if bool_decide (lv_sess r = Some s) then finished (se_stopping se) tail r else r) m
  end.

(** A whole [stop], when its session ends in time: nothing else in between. *)
Definition stop_done (name : string) (keepWant : bool) m : TunnelManager :=
  match stop_begin name keepWant m with
  | inr (m', Some s) => finish s None (mark_stopping s m')
  | inr (m', None) => m'
  | inl _ => m
  end.

(** ** Deleting *)

Inductive delete_result : Type := DeleteErr (e : error) | DeleteBroken | DeleteGo.

Definition delete_begin (name : string) m : TunnelManager * delete_result :=
  match tm_broken m !! name, tm_defs m !! name, tm_rt m !! name with
  | Some _, _, _ => (unbreak name m, DeleteBroken)
  | None, Some _, Some r =>
      if lv_deleting r then (m, DeleteErr (Errorf "tunnel %s is already being deleted" [name]))
      else (with_deletes (update name (set_deleting true) m) (<[name := DeleteMarked]> (tm_deletes m)), DeleteGo)
  | None, _, _ => (m, DeleteErr (Errorf "no tunnel named %q" [name]))
  end.

(** Its Disconnect begins. *)
Definition delete_stop (name : string) m : TunnelManager :=
  match stop_begin name false m with
  | inr (m', s) => with_deletes m' (<[name := DeleteStopping s]> (tm_deletes m'))
  | inl _ => m
  end.

Definition delete_undo (name : string) m : TunnelManager :=
  with_deletes (update name (set_deleting false) m) (base.delete name (tm_deletes m)).

(** The session is down and the file removed: forget the tunnel. *)
Definition delete_end (name : string) m : TunnelManager :=
  mkTM (base.delete name (tm_defs m)) (base.delete name (tm_parsed m)) (base.delete name (tm_rt m)) (tm_broken m) (tm_resume m) (tm_restarting m)
    (tm_closed m) (tm_store m) (tm_resumeFile m) (tm_sessions m) (tm_next m) (base.delete name (tm_deletes m)).

(** ** Restarts *)

Definition with_resume m (resume restarting : gset string) (file : option string) : TunnelManager :=
  mkTM (tm_defs m) (tm_parsed m) (tm_rt m) (tm_broken m) resume restarting (tm_closed m) (tm_store m) file (tm_sessions m) (tm_next m)
    (tm_deletes m).

(** The tunnels StartAuto connects, in order. *)
Definition auto_names m : list string :=
  slice_stable str_less
    (omap (fun '(n, d) => if td_AutoConnect d || bool_decide (n ∈ tm_resume m) then Some n else None) (map_to_list (tm_defs m))).

Definition StartAuto_begin m : TunnelManager * list string :=
  if tm_closed m then (m, []) else (with_resume m ∅ (tm_restarting m) (tm_resumeFile m), auto_names m).

Definition auto_failed (ErrorText : error -> string) (name : string) (e : error) m : TunnelManager :=
  update name (fun r => if bool_decide (lv_sess r = None)
                        then set_want (set_lastErr (ErrorText e) (set_state TunnelFailed (lv_detail r) r)) true else r) m.

Definition is_up m r : bool :=
  match lv_sess r with
  | None => false
  | Some s => match tm_sessions m !! s with Some se => negb (se_stopping se) | None => false end
  end.

Definition def_blocking m (name : string) r : bool :=
  match tm_defs m !! name with Some d => blocking d r | None => false end.

(** The tunnels a restart brings back. *)
Definition remembered m (keepBlocks : bool) : list string :=
  omap (fun '(n, r) => if is_up m r || (keepBlocks && def_blocking m n r) then Some n else None) (map_to_list (tm_rt m)).

Definition nl_text : string := String (ascii_of_nat 10) "".

(** [written] is whether writing the list succeeds. *)
Definition RememberForRestart (keepBlocks written : bool) m : TunnelManager :=
  let names := remembered m keepBlocks in
  with_resume m (tm_resume m) (if keepBlocks then list_to_set names else ∅)
    (if bool_decide (names = []) || negb written then tm_resumeFile m
     else Some (Join (slice_stable str_less names) nl_text +:+ nl_text)).

Definition takeResume (file : option string) : gset string :=
  match file with
  | None => ∅
  | Some b => list_to_set (keep_if ValidName (Fields b))
  end.

(** New, over the definitions read from disk and the unreadable ones. *)
Definition New (defs : list tunnel_def) (unreadable : gmap string error) (store : gmap string tunnel_def) (file : option string) : TunnelManager :=
  let m0 := mkTM ∅ ∅ ∅ unreadable (takeResume file) ∅ false store None ∅ 0 ∅ in
  let m := fold_left (fun m d => cache d m) defs m0 in
  with_rt m (map_imap (fun n r => Some (match tm_defs m !! n with
                                        | Some d => if td_AutoConnect d || bool_decide (n ∈ tm_resume m) then set_want r true else r
                                        | None => r
                                        end)) (tm_rt m)).

(** [close(m.closed)]. *)
Definition close m : TunnelManager :=
  mkTM (tm_defs m) (tm_parsed m) (tm_rt m) (tm_broken m) (tm_resume m) (tm_restarting m) true (tm_store m) (tm_resumeFile m)
    (tm_sessions m) (tm_next m) (tm_deletes m).

Definition kept_names m : gset string := if tm_closed m then tm_restarting m else ∅.

(** DisconnectAll's scan: the tunnels it stops, and the ones that are only
    wanted, no longer wanted. *)
Definition scan_live (keep : bool) r : live :=
  if negb (bool_decide (lv_sess r = None)) then r
  else if lv_want r && negb keep then
    let r := set_want r false in
    if lv_state r =s? TunnelFailed then set_lastErr "" (set_state TunnelDisconnected "" r) else r
  else r.

Definition DisconnectAll_scan m : TunnelManager * list (string * bool) :=
  (with_rt m (map_imap (fun n r => Some (scan_live (bool_decide (n ∈ kept_names m)) r)) (tm_rt m)),
   omap (fun '(n, r) => if bool_decide (lv_sess r = None) then None else Some (n, bool_decide (n ∈ kept_names m)))
     (map_to_list (tm_rt m))).

(** ** Queries *)

Definition status_of (ErrorText : error -> string) m (name : string) : option TunnelStatus :=
  d ← tm_defs m !! name; p ← tm_parsed m !! name; r ← tm_rt m !! name; Some (statusLocked ErrorText name d p r).

Definition Status (ErrorText : error -> string) m (name : string) : option TunnelStatus :=
  match tm_broken m !! name with
  | Some e => Some (brokenStatus ErrorText name e)
  | None => status_of ErrorText m name
  end.

Definition List (ErrorText : error -> string) m : list TunnelStatus :=
  slice_stable (fun a b => str_less (st_Name a) (st_Name b))
    (omap (fun '(n, _) => status_of ErrorText m n) (map_to_list (tm_defs m)) ++
     map (fun '(n, e) => brokenStatus ErrorText n e) (map_to_list (tm_broken m))).

End manager.
