(* ===== verification/TunnelSession.v ===== *)
(** * A tunnel's session (internal/tunnel/manager.go, mgmt.go, wireguard.go, ikev2.go)

    What a session does to its tunnel: the addresses it resolves and pins, the
    check of the addressing it is given, openvpn's management interface, and
    every change a protocol's driver makes of its tunnel's state. [handle] is
    one management notification: the changes it makes, the commands it sends
    and the applies it asks for, in order. Name lookups, the interfaces at each
    look, times and a process's output are arguments. Logs are left out. *)

From Stdlib Require Import Ascii.
From S2P Require Import Prelude.
From S2P Require Import Netip NetipText Aggregate Domain Reconcile Input Provider Tailscale Netmon Killswitch Update Addressing TunnelManager.

(** ** openvpn's management interface (mgmt.go) *)

Record mgmt_event : Type := mkEv { ev_kind : string; ev_body : string }.

(** [strings.Cut(s, sep)], for a one-byte separator. *)
Fixpoint Cut (s : string) (sep : ascii) : string * string * bool :=
  match s with
  | EmptyString => ("", "", false)
  | String c s' => if Ascii.eqb c sep then ("", s', true)
                   else let '(a, b, ok) := Cut s' sep in (String c a, b, ok)
  end.

(** [TrimRight(s, "\r")]. *)
Fixpoint trim_cr (s : string) : string :=
  match s with
  | EmptyString => ""
  | String c s' => match trim_cr s' with
                   | EmptyString => if code c =? 13 then "" else String c ""
                   | t => String c t
                   end
  end.

(** One line read from the socket. *)
Definition read_line (line : string) : option mgmt_event :=
  let l := trim_cr line in
  match CutPrefix l ">" with
  | Some rest => let '(kind, body, _) := Cut rest ":" in Some (mkEv kind body)
  | None =>
      match CutPrefix l "SUCCESS:" with
      | Some body => Some (mkEv "SUCCESS" (TrimSpace body))
      | None => match CutPrefix l "ERROR:" with Some body => Some (mkEv "ERROR" (TrimSpace body)) | None => None end
      end
  end.

(** [send]: the bytes written, [None] when the command holds a line break. *)
Definition crlf_char (c : ascii) : bool := (code c =? 13) || (code c =? 10).
Definition send_cmd (cmd : string) : option string :=
  if str_forall (fun c => negb (crlf_char c)) cmd then Some (cmd +:+ nl_text) else None.

Definition quote_char : ascii := ascii_of_nat 34.
Definition backslash : ascii := ascii_of_nat 92.
Fixpoint mgmt_escape (s : string) : string :=
  match s with
  | EmptyString => ""
  | String c s' =>
      if Ascii.eqb c backslash || Ascii.eqb c quote_char then String backslash (String c (mgmt_escape s')) else String c (mgmt_escape s')
  end.
Definition mgmtQuote (s : string) : string := String quote_char (mgmt_escape s +:+ String quote_char "").

Record stateInfo : Type := mkStateInfo {
  si_name : string; si_desc : string; si_localIP : string; si_remoteIP : string; si_remotePort : string; si_localIPv6 : string;
}.

Definition parseState (body : string) : stateInfo :=
  let f := Split body "," in
  let at_ i := match f !! i with Some x => TrimSpace x | None => "" end in
  mkStateInfo (at_ 1%nat) (at_ 2%nat) (at_ 3%nat) (at_ 4%nat) (at_ 5%nat) (at_ 8%nat).

(** The text after the last colon. *)
Definition after_last_colon (s : string) : option string :=
  match rev (Split s ":") with
  | last_ :: _ :: _ => Some last_
  | _ => None
  end.

(** A duration in nanoseconds, an int64: [time.Duration(n) * time.Second]
    wraps around. *)
Definition second_ns : Z := 10 ^ 9.
Definition wrap64 (z : Z) : Z := (z + 2 ^ 63) mod 2 ^ 64 - 2 ^ 63.
Definition parseHold (body : string) : Z :=
  match after_last_colon body with
  | None => 0
  | Some t => match Atoi (TrimSpace t) with Some n => if n <? 0 then 0 else wrap64 (n * second_ns) | None => 0 end
  end.

Definition ParseUint64 (s : string) : option Z :=
  if s =s? "" then None else n ← digits_val s 0; if n <? 2 ^ 64 then Some n else None.

Definition parseBytecount (body : string) : option (Z * Z) :=
  let '(a, b, found) := Cut body "," in
  if found : bool then i ← ParseUint64 a; o ← ParseUint64 b; Some (i, o) else None.

(** ** The servers to pin *)

Definition maxPins : nat := 16.

Definition pinnable (a : addr) : bool :=
  IsValid a && negb (IsUnspecified a) && negb (IsLoopback a) && negb (IsMulticast a) && negb (IsLinkLocalUnicast a) &&
  negb (bool_decide (a = broadcast)).

Section resolve.
Context (Resolve : option (string -> list addr)).

Definition host_addrs (host : string) : list addr :=
  match ParseAddr host with
  | Some a => [a]
  | None => match Resolve with Some look => look host | None => [] end
  end.

(** One address of a remote: the remotes to hand openvpn, and the pins. *)
Definition pin_addr (rm : Remote) (acc : list Remote * list addr) (a : addr) : list Remote * list addr :=
  let '(out, pins) := acc in
  let a := Unmap a in
  let seen := bool_decide (a ∈ pins) in
  if negb (pinnable a) then (out, pins)
  else if negb seen && (length pins =? maxPins)%nat then (out, pins)
  else (out ++ [mkRemote (addr_String a) (rm_Port rm) (rm_Proto rm)], if seen then pins else pins ++ [a]).

Definition resolve_all (rs : list Remote) : list Remote * list addr :=
  fold_left (fun acc rm => fold_left (pin_addr rm) (host_addrs (rm_Host rm)) acc) rs ([], []).

Definition host_is4 (rm : Remote) : bool := match ParseAddr (rm_Host rm) with Some a => Is4 a | None => false end.

Definition resolveRemotes (via : string) (rs : list Remote) : error + (list Remote * list addr) :=
  if negb (via =s? TunnelViaDirect) then inr (rs, [])
  else match resolve_all rs with
       | ([], _) => inl (Errorf "couldn't resolve any of the profile's servers to a usable address" [])
       | (out, pins) => inr (slice_stable (fun a b => host_is4 a && negb (host_is4 b)) out, pins)
       end.

Definition add_server (out : list addr) (a : addr) : list addr :=
  let a := Unmap a in
  if IsValid a && negb (bool_decide (a ∈ out)) && (length out <? maxPins)%nat then out ++ [a] else out.

Definition serverAddrs (rs : list Remote) : list addr :=
  fold_left (fun out rm => fold_left add_server (host_addrs (rm_Host rm)) out) rs [].

(** WireGuard's endpoints: one address per peer, IPv4 first. *)
Definition pick_endpoint (direct : bool) (pick a : addr) : addr :=
  let a := Unmap a in
  if direct && negb (pinnable a) then pick
  else if negb (IsValid pick) || (Is4 a && negb (Is4 pick)) then a else pick.

Definition endpoint_step (direct : bool) (acc : error + (list (addr * Z) * list addr)) (peer : string * Z) :
    error + (list (addr * Z) * list addr) :=
  match acc with
  | inl e => inl e
  | inr (eps, servers) =>
      let pick := fold_left (pick_endpoint direct) (host_addrs (fst peer)) AddrZero in
      if negb (IsValid pick) then inl (Errorf "couldn't resolve the endpoint %s to a usable address" [fst peer])
      else inr (eps ++ [(pick, snd peer)], addAddrs servers [pick])
  end.

(** Endpoints, pins, servers. *)
Definition resolveEndpoints (via : string) (peers : list (string * Z)) : error + (list (addr * Z) * list addr * list addr) :=
  let direct := via =s? TunnelViaDirect in
  match fold_left (endpoint_step direct) peers (inr ([], [])) with
  | inl e => inl e
  | inr (eps, servers) => inr (eps, if direct then servers else [], servers)
  end.

End resolve.

Definition hasHostname (rs : list Remote) : bool := existsb (fun r => bool_decide (ParseAddr (rm_Host r) = None)) rs.

(** [netip.Addr.Compare] orders addresses totally, so equal sorted lists are
    the same addresses, each as often. *)
Definition sameAddrs (a b : list addr) : bool :=
  (length a =? length b)%nat && forallb (fun x => (count_occ addr_eq_dec a x =? count_occ addr_eq_dec b x)%nat) (a ++ b).

(** ** Where a connection's address is, and whether it may be there *)

Definition addr_held (addrs : list string) (want : addr) : bool :=
  existsb (fun a => match ParsePrefix a with Some p => bool_decide (p_addr p = want) | None => false end ||
                    bool_decide (ParseAddr a = Some want)) addrs.

Definition findTries : nat := 30.

(** [looks] are the interfaces at each look, until the session is stopped. *)
Definition findIface (looks : option (list (list Iface))) (ips : list string) : string * list prefix :=
  let want := omap ParseAddr ips in
  match want, looks with
  | [], _ | _, None => ("", [])
  | _, Some looks =>
      match list_find (fun ifc => is_true (existsb (addr_held (if_Addrs ifc)) want)) (concat (take findTries looks)) with
      | Some (_, ifc) => (if_Name ifc, omap ParsePrefix (if_Addrs ifc))
      | None => ("", [])
      end
  end.

Definition routePrefix (s : string) : option prefix :=
  match ParsePrefix s with Some p => Some (Masked p) | None => host_prefix <$> ParseAddr s end.

(** [vet]'s view of this machine. *)
Definition vet_servers (m : TunnelManager) (name : string) : list addr :=
  concat (omap (fun '(n, r) => if (n =s? name) || negb (bool_decide (lv_sess r = None)) then Some (lv_servers r ++ lv_bypass r) else None)
            (map_to_list (tm_rt m))).

Definition vet_listed (m : TunnelManager) (name : string) (owned : list ManagedRoute) : list prefix :=
  omap routePrefix (match tm_defs m !! name with Some d => td_Routes d | None => [] end) ++
  omap (fun o => if (mr_ProfileID o =s? (TunnelProfilePrefix +:+ name)) && (rt_Gateway (mr_Route o) =s? "")
                 then routePrefix (rt_DstCIDR (mr_Route o)) else None) owned.

Definition vet (m : TunnelManager) (name iface : string) (nets : list prefix) (configured : bool) (ifaces : list Iface)
    (protected : list addr) (owned : list ManagedRoute) (routes : list Route) : option error :=
  vetAddressing nets routes
    (mkAddressingEnv iface ifaces protected (vet_servers m name) (Aggregate (vet_listed m name owned)) configured []).

(** ** What a session's output says *)

(** The last line that is not blank. *)
Definition lastLine (lines : list string) (fallback : string) : string :=
  default fallback (head (keep_if (fun l => negb (l =s? "")) (map TrimSpace (rev lines)))).

(** This attempt's lines: from the last first packet on. *)
Fixpoint this_attempt (tail : list string) : option (list string) :=
  match tail with
  | [] => None
  | l :: tail' => match this_attempt tail' with
                  | Some a => Some a
                  | None => if Contains_str l "Initial packet from" then Some tail else None
                  end
  end.

Definition diagnose (name reason : string) (tail : list string) : string :=
  let attempt := default tail (this_attempt tail) in
  let has sub := existsb (fun l => Contains_str l sub) attempt in
  if has "VERIFY EKU ERROR" then
    "the server's certificate isn't marked for TLS-server use, which the profile's `remote-cert-tls server` " +:+
    "requires (OpenVPN Connect doesn't check it) — replace that line with `remote-cert-ku` and " +:+
    "`verify-x509-name <server name> name`"
  else if (reason =s? "connection-reset") && has "VERIFY OK" && negb (has "Control Channel:") then
    "the server hung up right after the login was sent — older OpenVPN servers do that for a wrong " +:+
    "username or password (re-enter it with `riftroute tunnel edit " +:+ name +:+ " --ask-password`), or when " +:+
    "none of the offered data ciphers is one they support (if the profile sets `data-ciphers`, include " +:+
    "the server's cipher, e.g. AES-256-CBC)"
  else if (reason =s? "ping-restart") || (reason =s? "tls-error") then
    "the server answered, but the encrypted handshake never completed (" +:+ reason +:+ ") — see `riftroute tunnel log " +:+ name +:+ "`"
  else "".

(** ** Every change of a live tunnel *)

Definition set_detail (d : string) (r : live) : live := set_state (lv_state r) d r.
Definition set_net (iface localIP : string) (v6 : bool) (r : live) : live :=
  mkLive (lv_state r) (lv_detail r) iface localIP v6 (lv_server r) (lv_since r) (lv_lastErr r) (lv_tail r)
    (lv_in r) (lv_out r) (lv_bypass r) (lv_servers r) (lv_sess r) (lv_deleting r) (lv_failures r) (lv_want r).
Definition set_server (server : string) (since : option Z) (r : live) : live :=
  mkLive (lv_state r) (lv_detail r) (lv_iface r) (lv_localIP r) (lv_v6 r) server since (lv_lastErr r) (lv_tail r)
    (lv_in r) (lv_out r) (lv_bypass r) (lv_servers r) (lv_sess r) (lv_deleting r) (lv_failures r) (lv_want r).
Definition set_addrs (bypass servers : list addr) (r : live) : live :=
  mkLive (lv_state r) (lv_detail r) (lv_iface r) (lv_localIP r) (lv_v6 r) (lv_server r) (lv_since r) (lv_lastErr r) (lv_tail r)
    (lv_in r) (lv_out r) bypass servers (lv_sess r) (lv_deleting r) (lv_failures r) (lv_want r).
Definition set_bytes (i o : Z) (r : live) : live :=
  mkLive (lv_state r) (lv_detail r) (lv_iface r) (lv_localIP r) (lv_v6 r) (lv_server r) (lv_since r) (lv_lastErr r) (lv_tail r)
    i o (lv_bypass r) (lv_servers r) (lv_sess r) (lv_deleting r) (lv_failures r) (lv_want r).
Definition set_failures (n : Z) (r : live) : live :=
  mkLive (lv_state r) (lv_detail r) (lv_iface r) (lv_localIP r) (lv_v6 r) (lv_server r) (lv_since r) (lv_lastErr r) (lv_tail r)
    (lv_in r) (lv_out r) (lv_bypass r) (lv_servers r) (lv_sess r) (lv_deleting r) n (lv_want r).

(** [netip.AddrPort.String]. *)
Definition addrport_String (ap : addr * Z) : string :=
  match fst ap with
  | AddrZero => "invalid AddrPort"
  | Addr4 _ => addr_String (fst ap) +:+ ":" +:+ pretty (snd ap)
  | Addr6 _ _ => "[" +:+ addr_String (fst ap) +:+ "]:" +:+ pretty (snd ap)
  end.

Definition maxFailedAttempts : Z := 6.
Definition reresolveAfter : Z := 3.

Inductive session_event : Type :=
(* runOpenVPN, wgDriver.run, ikeSession.resolve, wgSession.reresolve *)
| EvServers (bypass servers : list addr) (detail : option string)
| EvErr (msg : string)
(* handle *)
| EvConnected (st : stateInfo) (iface : string) (now : Z)
| EvReconnecting (name desc : string) (tail : list string)
| EvGaveUp (desc : string)
| EvExiting (desc : string)
| EvState (name : string)
| EvBytes (i o : Z)
| EvExited (stopping : bool) (tail : list string)
| EvHint
(* wgSession *)
| EvWGIface (iface : string)
| EvWGConnected (iface : string) (hosts : list addr) (server : option (addr * Z)) (now : Z)
| EvWGStale
| EvWGFollow (server : option (addr * Z)) (fresh : list addr)
(* ikeSession *)
| EvIKEStarting
| EvIKEDown (err : option string)
| EvIKEGaveUp
| EvIKEConnected (iface local : string) (v6 : bool) (server : option (addr * Z)) (now : Z)
| EvIKEReaddress (iface local : string) (v6 : bool)
| EvDetail (detail : string).

(** [strings.ToLower] on ASCII text. *)
Definition lower_char (c : ascii) : ascii :=
  if (65 <=? code c) && (code c <=? 90) then ascii_of_nat (Z.to_nat (code c + 32)) else c.
Fixpoint ToLower (s : string) : string := match s with EmptyString => "" | String c s' => String (lower_char c) (ToLower s') end.

(** Connected, with nothing wrong. *)
Definition up_live (detail : string) (r : live) : live := set_failures 0 (set_lastErr "" (set_state TunnelConnected detail r)).

Definition on_connected (st : stateInfo) (iface : string) (now : Z) (r : live) : live :=
  let r := up_live (if si_desc st =s? "ERROR" then "connected with errors" else "") r in
  let r := set_net iface (si_localIP st) (negb (si_localIPv6 st =s? "")) r in
  let server := if si_remotePort st =s? "" then si_remoteIP st else si_remoteIP st +:+ ":" +:+ si_remotePort st in
  let servers := match ParseAddr (si_remoteIP st) with Some a => addAddrs (lv_servers r) [Unmap a] | None => lv_servers r end in
  set_server server (Some now) (set_addrs (lv_bypass r) servers r).

Definition on_reconnecting (name desc : string) (tail : list string) (r : live) : live :=
  let r := set_failures (lv_failures r + 1) (set_state TunnelReconnecting desc r) in
  match lv_since r with
  | None => let why := diagnose name desc tail in if why =s? "" then r else set_lastErr why r
  | Some _ => r
  end.

Definition stuck (r : live) : bool :=
  existsb (fun d => lv_detail r =s? d) ["tcp_connect"; "wait"; "resolve"; "starting openvpn"].

Definition hint_text : string :=
  "can't reach the server directly — another VPN's firewall (e.g. Windscribe's) may be blocking " +:+
  "traffic outside its tunnel; allow the server there, or reach it through the main VPN (--via default)".

Definition local_of (hosts : list addr) : string := default "" (addr_String <$> head (keep_if Is4 hosts)).

Definition add_fresh (servers : list addr) (a : addr) : list addr :=
  if negb (bool_decide (a ∈ servers)) && (length servers <? 4 * maxPins)%nat then servers ++ [a] else servers.

Definition connecting (detail : string) (r : live) : live :=
  set_state (if lv_state r =s? TunnelReconnecting then lv_state r else TunnelConnecting) detail r.

Definition on_event (e : session_event) (r : live) : live :=
  match e with
  | EvServers bypass servers detail => set_detail (default (lv_detail r) detail) (set_addrs bypass servers r)
  | EvErr msg => set_lastErr msg r
  | EvConnected st iface now => on_connected st iface now r
  | EvReconnecting name desc tail => on_reconnecting name desc tail r
  | EvGaveUp desc =>
      set_lastErr (if lv_lastErr r =s? "" then "couldn't connect after " +:+ pretty (lv_failures r) +:+ " attempts (" +:+ desc +:+ ")"
                   else "gave up after " +:+ pretty (lv_failures r) +:+ " attempts: " +:+ lv_lastErr r) r
  | EvExiting desc =>
      let r := set_detail desc r in
      if Contains_str desc "auth-failure" && (lv_lastErr r =s? "") then set_lastErr "the server rejected the username or password" r else r
  | EvState name => connecting (ToLower name) r
  | EvBytes i o => set_bytes i o r
  | EvExited stopping tail =>
      if (lv_lastErr r =s? "") && negb stopping then set_lastErr ("openvpn exited: " +:+ lastLine tail "no output") r else r
  | EvHint => if bool_decide (lv_since r = None) && (lv_lastErr r =s? "") && stuck r then set_lastErr hint_text r else r
  | EvWGIface iface => set_detail "handshake" (set_net iface (lv_localIP r) (lv_v6 r) r)
  | EvWGConnected iface hosts server now =>
      let r := set_net iface (local_of hosts) (existsb Is6 hosts) (up_live "" r) in
      set_server (match server with Some ap => addrport_String ap | None => lv_server r end) (Some now) r
  | EvWGStale => set_failures (lv_failures r + 1) (set_state TunnelReconnecting "waiting for a handshake" r)
  | EvWGFollow server fresh =>
      let r := match server with
               | Some ap => if (lv_state r =s? TunnelConnected) || (lv_state r =s? TunnelReconnecting)
                            then set_server (addrport_String ap) (lv_since r) r else r
               | None => r
               end in
      set_addrs (lv_bypass r) (fold_left add_fresh fresh (lv_servers r)) r
  | EvIKEStarting => connecting "starting strongSwan" r
  | EvIKEDown err =>
      let r := set_failures (lv_failures r + 1) (set_net "" (lv_localIP r) (lv_v6 r) (set_state TunnelReconnecting "waiting to reconnect" r)) in
      match err with Some e => set_lastErr e r | None => r end
  | EvIKEGaveUp => set_lastErr ("gave up after " +:+ pretty (lv_failures r) +:+ " attempts: " +:+ lastLine [lv_lastErr r] "no connection") r
  | EvIKEConnected iface local v6 server now =>
      let r := set_net iface local v6 (up_live "" r) in
      let r := match server with
               | Some ap => set_addrs (lv_bypass r) (addAddrs (lv_servers r) [fst ap]) (set_server (addrport_String ap) (lv_since r) r)
               | None => r
               end in
      set_server (lv_server r) (Some now) r
  | EvIKEReaddress iface local v6 => set_net iface local v6 r
  | EvDetail d => set_detail d r
  end.

(** Whether the session gives up after a failed attempt: never connected, and
    enough of them. *)
Definition giveUp (r : live) : bool := bool_decide (lv_since r = None) && (maxFailedAttempts <=? lv_failures r).

(** ** One management notification *)

Inductive action : Type :=
| Upd (e : session_event)
| Send (cmd : string)
| RequestApply
| Reresolve
| HoldRelease (wait : Z).

Definition stop_with (msg : string) : list action := [Upd (EvErr msg); Send "signal SIGTERM"].

Definition holdBackoffMin : Z := 2 * second_ns.
Definition holdBackoffMax : Z := 300 * second_ns.

Section handle.
Context (find : list string -> string * list prefix) (vetted : string -> list prefix -> option string) (now : Z) (tail : list string).
Context (name : string) (d : tunnel_def).

Definition handle_connected (st : stateInfo) : list action :=
  let '(iface, nets) := find [si_localIP st; si_localIPv6 st] in
  if iface =s? "" then
    stop_with ("connected, but no interface holds the tunnel's address " +:+ TrimSpace (si_localIP st +:+ " " +:+ si_localIPv6 st) +:+ "; refusing")
  else match vetted iface nets with
       | Some why => stop_with why
       | None => [Upd (EvConnected st iface now); RequestApply]
       end.

Definition handle_reconnecting (st : stateInfo) (r : live) : list action :=
  let r' := on_reconnecting name (si_desc st) tail r in
  Upd (EvReconnecting name (si_desc st) tail) ::
  (if lv_state r =s? TunnelConnected then [RequestApply] else []) ++
  (if giveUp r' then [Upd (EvGaveUp (si_desc st)); Send "signal SIGTERM"]
   else if negb (bool_decide (lv_since r' = None)) && (lv_failures r' mod reresolveAfter =? 0) && (td_Via d =s? TunnelViaDirect) then [Reresolve]
   else []).

Definition handle_state (st : stateInfo) (r : live) : list action :=
  if si_name st =s? "CONNECTED" then handle_connected st
  else if si_name st =s? "RECONNECTING" then handle_reconnecting st r
  else if si_name st =s? "EXITING" then [Upd (EvExiting (si_desc st))]
  else [Upd (EvState (si_name st))].

Definition auth_word : string := String quote_char ("Auth" +:+ String quote_char " ").

Definition handle_password (body : string) : list action :=
  if HasPrefix body "Need 'Auth'" then
    if (td_Username d =s? "") || (td_Password d =s? "") then
      stop_with "the server asks for a username and password, but none are saved"
    else [Send ("username " +:+ auth_word +:+ mgmtQuote (td_Username d)); Send ("password " +:+ auth_word +:+ mgmtQuote (td_Password d))]
  else if HasPrefix body "Verification Failed" then [Upd (EvErr "the server rejected the username or password")]
  else if HasPrefix body "Auth-Token" then []
  else if HasPrefix body "Need 'Private Key'" then stop_with "the profile's private key is encrypted; RiftRoute can't unlock it yet"
  else if HasPrefix body "Need" then stop_with ("openvpn asked for a secret RiftRoute doesn't support: " +:+ body)
  else [].

(** [released]: whether the first hold was released. The result is what the
    session does, in order, and the new flag. *)
Definition handle (released : bool) (ev : mgmt_event) (r : live) : list action * bool :=
  let kind := ev_kind ev in let body := ev_body ev in
  if kind =s? "STATE" then (handle_state (parseState body) r, released)
  else if kind =s? "PASSWORD" then (handle_password body, released)
  else if kind =s? "HOLD" then
    if released then ([HoldRelease (Z.min (Z.max (parseHold body) holdBackoffMin) holdBackoffMax)], true) else ([Send "hold release"], true)
  else if kind =s? "FATAL" then ([Upd (EvErr body)], released)
  else if kind =s? "INFOMSG" then
    (if HasPrefix body "WEB_AUTH" || HasPrefix body "OPEN_URL" || HasPrefix body "CR_TEXT"
     then stop_with "this server needs a web or challenge login, which RiftRoute doesn't support yet" else [], released)
  else if (kind =s? "NEED-OK") || (kind =s? "NEED-STR") then (stop_with ("openvpn asked a question RiftRoute can't answer: " +:+ body), released)
  else if kind =s? "BYTECOUNT" then (match parseBytecount body with Some (i, o) => [Upd (EvBytes i o)] | None => [] end, released)
  else ([], released).

End handle.

(** ** Lemmas *)

(** What resolving gives: remotes and pins are the same addresses. *)
Record pins_ok (out : list Remote) (pins : list addr) : Prop := {
  pk_nodup : NoDup pins;
  pk_len : (length pins <= maxPins)%nat;
  pk_pinnable : Forall (fun a => pinnable a = true) pins;
  pk_out : forall rm, rm ∈ out -> exists a, a ∈ pins /\ rm_Host rm = addr_String a;
  pk_pins : forall a, a ∈ pins -> exists rm, rm ∈ out /\ rm_Host rm = addr_String a;
}.

Lemma pin_addr_ok rm out pins a : pins_ok out pins -> pins_ok (fst (pin_addr rm (out, pins) a)) (snd (pin_addr rm (out, pins) a)).
Proof.
  intros [P1 P2 P3 P4 P5]. unfold pin_addr. destruct (pinnable (Unmap a)) eqn:Hp; [|done]. cbn [negb].
  case_bool_decide as Hin; cbn [negb andb]; [|destruct (Nat.eqb_spec (length pins) maxPins) as [?|Hl]; [done|]].
  - constructor; cbn [fst snd]; try done.
    + intros r [?| ->%list_elem_of_singleton]%elem_of_app; [by apply P4|]. by exists (Unmap a).
    + intros x Hx. destruct (P5 x Hx) as (r & ? & ?). exists r. split; [apply elem_of_app; by left|done].
  - constructor; cbn [fst snd].
    + apply NoDup_app. split_and!; [done| |apply NoDup_singleton]. intros x Hx ->%list_elem_of_singleton. done.
    + rewrite length_app. simpl. lia.
    + apply Forall_app. split; [done|]. by constructor.
    + intros r [Hr| ->%list_elem_of_singleton]%elem_of_app.
      * destruct (P4 r Hr) as (x & ? & ?). exists x. split; [apply elem_of_app; by left|done].
      * exists (Unmap a). split; [apply elem_of_app; right; by apply list_elem_of_singleton|done].
    + intros x [Hx| ->%list_elem_of_singleton]%elem_of_app.
      * destruct (P5 x Hx) as (r & ? & ?). exists r. split; [apply elem_of_app; by left|done].
      * eexists. split; [apply elem_of_app; right; by apply list_elem_of_singleton|done].
Qed.

Lemma fold_inv {A B} (P : A -> Prop) (f : A -> B -> A) l : (forall a b, P a -> P (f a b)) -> forall a, P a -> P (fold_left f l a).
Proof. intros Hf. induction l as [|b l IH]; intros a Ha; simpl; auto. Qed.

Lemma resolve_all_ok Resolve rs : pins_ok (fst (resolve_all Resolve rs)) (snd (resolve_all Resolve rs)).
Proof.
  unfold resolve_all. apply (fold_inv (fun acc => pins_ok (fst acc) (snd acc))).
  - intros acc rm. apply (fold_inv (fun acc => pins_ok (fst acc) (snd acc))). intros [out pins] a. apply pin_addr_ok.
  - constructor; simpl; [constructor|lia|constructor|by intros ? ?%elem_of_nil|by intros ? ?%elem_of_nil].
Qed.

(** ** Theorems *)

(** openvpn dials exactly the addresses that are pinned. A direct tunnel's
    remotes are literal addresses, there is at least one, each is one of the
    pins and each pin one of them; at most 16 addresses are pinned, each once,
    and never loopback, link-local, multicast, broadcast or "any", whatever
    the profile or its DNS says. *)
Theorem resolveRemotes_pins Resolve rs out pins :
  resolveRemotes Resolve TunnelViaDirect rs = inr (out, pins) ->
  out <> [] /\ NoDup pins /\ (length pins <= maxPins)%nat /\ Forall (fun a => pinnable a = true) pins /\
  (forall rm, rm ∈ out -> exists a, a ∈ pins /\ rm_Host rm = addr_String a) /\
  (forall a, a ∈ pins -> exists rm, rm ∈ out /\ rm_Host rm = addr_String a).
Proof.
  unfold resolveRemotes. cbn [negb String.eqb]. change (TunnelViaDirect =s? TunnelViaDirect) with true. cbn [negb].
  pose proof (resolve_all_ok Resolve rs) as Hk. destruct (resolve_all Resolve rs) as [l p].
  assert (slice_stable (fun a b => host_is4 a && negb (host_is4 b)) l ≡ₚ l) as Hperm by apply slice_stable_perm.
  intros E. assert (l <> []) as Hl by (by intros ->).
  assert (inr (slice_stable (fun a b => host_is4 a && negb (host_is4 b)) l, p) = (inr (out, pins) : error + _)) as [= <- <-] by (by destruct l).
  clear E. destruct Hk as [P1 P2 P3 P4 P5]. cbn [fst snd] in *.
  split_and!; try done.
  - intros E. rewrite E in Hperm. by apply Permutation_nil_l in Hperm.
  - intros r Hr. apply P4. by rewrite <- Hperm.
  - intros a Ha. destruct (P5 a Ha) as (r & Hr & E). exists r. by rewrite Hperm.
Qed.

(** A management notification never makes a tunnel count as connected
    unless an interface holds its address and that interface's addressing was
    accepted; and the daemon tells openvpn nothing but to stop, to leave a
    hold, and, only when openvpn asks for the login and both are saved, the
    username and the password. *)
Theorem handle_guarded find vetted now tail name d released ev r :
  (forall st iface t, Upd (EvConnected st iface t) ∈ fst (handle find vetted now tail name d released ev r) ->
     iface <> "" /\ exists nets, find [si_localIP st; si_localIPv6 st] = (iface, nets) /\ vetted iface nets = None) /\
  (forall cmd, Send cmd ∈ fst (handle find vetted now tail name d released ev r) ->
     cmd = "signal SIGTERM" \/ cmd = "hold release" \/
     ev_kind ev = "PASSWORD" /\ HasPrefix (ev_body ev) "Need 'Auth'" = true /\ td_Username d <> "" /\ td_Password d <> "" /\
     (cmd = "username " +:+ auth_word +:+ mgmtQuote (td_Username d) \/ cmd = "password " +:+ auth_word +:+ mgmtQuote (td_Password d))).
Proof.
  unfold handle, handle_state, handle_connected, handle_reconnecting, handle_password, stop_with. split.
  - intros st iface t H. repeat case_match; bool_hyps; cbn [fst] in H; rewrite ?elem_of_cons, ?elem_of_app, ?elem_of_cons in H;
      destruct_or?; simplify_eq; try (by apply elem_of_nil in H); split; eauto.
  - intros cmd H. repeat case_match; bool_hyps; cbn [fst] in H; rewrite ?elem_of_cons, ?elem_of_app, ?elem_of_cons in H;
      destruct_or?; simplify_eq; try (by apply elem_of_nil in H); auto; right; right; split_and!; auto.
Qed.

(** ** Witness *)

(** A name that resolves to an IPv6 and an IPv4 address, and loopback. *)
Definition ex_lookup (host : string) : list addr := [Addr6 (2 ^ 125 + 7) ""; Addr4 3405803783; Addr4 2130706433].
Definition ex_remotes := [mkRemote "vpn.example.net" 1194 "udp"; mkRemote "203.0.113.7" 443 "tcp"].

Lemma resolveRemotes_pins_witness :
  exists out, resolveRemotes (Some ex_lookup) TunnelViaDirect ex_remotes = inr (out, [Addr6 (2 ^ 125 + 7) ""; Addr4 3405803783]) /\
    map rm_Host out = ["203.0.113.7"; "203.0.113.7"; "2000::7"] /\
    forall rm, rm ∈ out -> exists a, a ∈ [Addr6 (2 ^ 125 + 7) ""; Addr4 3405803783] /\ rm_Host rm = addr_String a.
Proof.
  eexists. split; [vm_compute; reflexivity|]. split; [vm_compute; reflexivity|].
  apply (resolveRemotes_pins (Some ex_lookup) ex_remotes). vm_compute. reflexivity.
Defined.
