(* ===== verification/DnsLearn.v ===== *)
(** * Learned wildcard answers (internal/dnsproxy)

    What the loopback DNS forwarder learns for wildcard rules: the answer store
    with its expiry and caps, its saved form, the rule a name belongs to, and
    the framing and forwarding around it. A time is the value the store's clock
    gives. [sort.Slice] on equal times and ranging over a map follow an order
    the language leaves open: arguments, with what is documented of them as
    hypotheses. The DNS codec, JSON and the sockets are arguments. *)

From Stdlib Require Import Ascii.
From S2P Require Import Prelude.
From S2P Require Import Netip NetipText Aggregate Domain Input Provider Netmon Killswitch Update Config Addressing TunnelSession.

(** ** The store (answers.go) *)

Record addrSeen : Type := mkSeen { as_addr : addr; as_seen : Z }.
Record nameEntry : Type := mkEntry { ne_addrs : list addrSeen; ne_lastSeen : Z }.

Abbreviation name_map := (gmap string nameEntry).

Record AnswerStore : Type := mkAnswers { an_m : gmap string name_map; an_maxNames : Z; an_maxAddrs : Z; an_ttl : Z }.

Definition defaultAddrTTL : Z := 6 * 3600 * 1000000000.
Definition defaultMaxNamesPerRule : Z := 256.
Definition defaultMaxAddrsPerName : Z := 16.

Definition NewAnswerStore (maxNames : Z) : AnswerStore :=
  mkAnswers ∅ (if maxNames <=? 0 then defaultMaxNamesPerRule else maxNames) defaultMaxAddrsPerName defaultAddrTTL.

Definition set_m (m : gmap string name_map) (s : AnswerStore) : AnswerStore := mkAnswers m (an_maxNames s) (an_maxAddrs s) (an_ttl s).

(** ** One name's addresses *)

Fixpoint touch (now : Z) (l : list addrSeen) (a : addr) : list addrSeen :=
  match l with
  | [] => [mkSeen a now]
  | x :: l' => if bool_decide (as_addr x = a) then mkSeen a now :: l' else x :: touch now l' a
  end.

Definition is_live (now ttl : Z) (x : addrSeen) : bool := now - as_seen x <? ttl.

Definition expire (now ttl : Z) (l : list addrSeen) : list addrSeen := keep_if (is_live now ttl) l.

Definition activeAddrs (now ttl : Z) (l : list addrSeen) : list addr := slice_stable AddrLess (map as_addr (keep_if (is_live now ttl) l)).

Definition equalAddrs (a b : list addr) : bool := bool_decide (a = b).

Section store.
Context (sort_seen : list addrSeen -> list addrSeen) (range : name_map -> list (string * nameEntry)).

Definition capAddrs (maxAddrs : Z) (l : list addrSeen) : list addrSeen :=
  if (maxAddrs <=? 0) || (Z.of_nat (length l) <=? maxAddrs) then l else take (Z.to_nat maxAddrs) (sort_seen l).

(** [oldest], [oldestAt], [first]. *)
Definition older (acc : string * Z * bool) (x : string * nameEntry) : string * Z * bool :=
  let '(oldest, oldestAt, first) := acc in
  let '(fqdn, e) := x in
  if first || (ne_lastSeen e <? oldestAt) then (fqdn, ne_lastSeen e, false) else acc.

Definition evictOldestName (names : name_map) : name_map :=
  let '(oldest, _, _) := fold_left older (range names) ("", 0, true) in
  if oldest =s? "" then names else delete oldest names.

(** The addresses of a name once [addrs] were seen. *)
Definition observed (s : AnswerStore) (now : Z) (l : list addrSeen) (addrs : list addr) : list addrSeen :=
  capAddrs (an_maxAddrs s) (expire now (an_ttl s) (fold_left (touch now) addrs l)).

(** The names of a rule that make room for [fqdn], and its entry. *)
Definition entry_for (s : AnswerStore) (names : name_map) (fqdn : string) : name_map * nameEntry :=
  match names !! fqdn with
  | Some e => (names, e)
  | None => (if an_maxNames s <=? Z.of_nat (size names) then evictOldestName names else names, mkEntry [] 0)
  end.

Definition Add (s : AnswerStore) (now : Z) (rule fqdn : string) (addrs : list addr) : AnswerStore * bool :=
  match addrs with
  | [] => (s, false)
  | _ =>
      let '(names, e) := entry_for s (default ∅ (an_m s !! rule)) fqdn in
      let before := activeAddrs now (an_ttl s) (ne_addrs e) in
      let l := observed s now (ne_addrs e) addrs in
      let after := activeAddrs now (an_ttl s) l in
      (set_m (<[rule := <[fqdn := mkEntry l now]> names]> (an_m s)) s, negb (equalAddrs before after))
  end.

Definition IPs (s : AnswerStore) (now : Z) (rule : string) : list string :=
  slice_stable str_less
    (dedup ∅ (range (default ∅ (an_m s !! rule)) ≫= fun '(_, e) => map addr_String (activeAddrs now (an_ttl s) (ne_addrs e)))).

End store.

(** ** Housekeeping *)

Definition gc_entry (now ttl : Z) (e : nameEntry) : option nameEntry :=
  match expire now ttl (ne_addrs e) with [] => None | l => Some (mkEntry l (ne_lastSeen e)) end.

Definition gc_names (now ttl : Z) (names : name_map) : option name_map :=
  let names' := omap (gc_entry now ttl) names in if bool_decide (names' = ∅) then None else Some names'.

(** The entry lost an address, or is empty. *)
Definition stale (now ttl : Z) (e : nameEntry) : bool :=
  negb (length (expire now ttl (ne_addrs e)) =? length (ne_addrs e))%nat || bool_decide (expire now ttl (ne_addrs e) = []).

Definition GC (s : AnswerStore) (now : Z) : AnswerStore * bool :=
  (set_m (omap (gc_names now (an_ttl s)) (an_m s)) s,
   existsb (fun '(_, names) => existsb (fun '(_, e) => stale now (an_ttl s) e) (map_to_list names)) (map_to_list (an_m s))).

Definition Names (s : AnswerStore) (rule : string) : Z := Z.of_nat (size (default ∅ (an_m s !! rule))).

Definition configured (active : list string) (rule : string) : bool := bool_decide (ToLower rule ∈ map ToLower active).

Definition Prune (s : AnswerStore) (active : list string) : AnswerStore * bool :=
  (set_m (filter (fun '(rule, _) => configured active rule = true) (an_m s)) s,
   existsb (fun '(rule, _) => negb (configured active rule)) (map_to_list (an_m s))).

(** ** Persistence *)

Record persistedAddr : Type := mkPAddr { pa_IP : string; pa_Seen : Z }.
Record persistedName : Type := mkPName { pn_Addrs : list persistedAddr; pn_LastSeen : Z }.

Definition save_name (e : nameEntry) : persistedName :=
  mkPName (map (fun x => mkPAddr (addr_String (as_addr x)) (as_seen x)) (ne_addrs e)) (ne_lastSeen e).

Definition Marshal (s : AnswerStore) : gmap string (gmap string persistedName) := fmap (M := gmap string) (fmap (M := gmap string) save_name) (an_m s).

Definition load_addr (now ttl : Z) (x : persistedAddr) : option addrSeen :=
  match ParseAddr (pa_IP x) with
  | Some a => if ttl <=? now - pa_Seen x then None else Some (mkSeen a (pa_Seen x))
  | None => None
  end.

Definition load_name (now ttl : Z) (pn : persistedName) : option nameEntry :=
  match omap (load_addr now ttl) (pn_Addrs pn) with [] => None | l => Some (mkEntry l (pn_LastSeen pn)) end.

Definition load_rule (now ttl : Z) (names : gmap string persistedName) : option name_map :=
  let m := omap (load_name now ttl) names in if bool_decide (m = ∅) then None else Some m.

(** [decoded]: what JSON made of the saved text, [None] an error. *)
Definition Load (s : AnswerStore) (now : Z) (decoded : option (gmap string (gmap string persistedName))) : AnswerStore * bool :=
  match decoded with
  | None => (s, false)
  | Some saved => (set_m (omap (load_rule now (an_ttl s)) saved) s, true)
  end.

(** ** Wildcards (proxy.go) *)

Definition apex_of (rule : string) : string := ToLower (trim_dot (TrimPrefix rule "*.")).

Definition SetWildcards (rules : list string) : gmap string string :=
  fold_left (fun m r => let apex := apex_of r in if apex =s? "" then m else <[apex := r]> m) rules ∅.

Definition covers (apex name : string) : bool := (name =s? apex) || HasSuffix name ("." +:+ apex).

(** The first rule, in the order the map is ranged over, that covers the name. *)
Definition matchRule (apexes : list (string * string)) (name : string) : string :=
  match List.find (fun '(apex, _) => covers apex name) apexes with Some (_, rule) => rule | None => "" end.

Inductive resource : Type := AResource (a : Z) | AAAAResource (a : Z) | OtherResource.

(** A response, unpacked: the names of its questions and its answers. *)
Record message : Type := mkMessage { ms_Questions : list string; ms_Answers : list resource }.

Definition answer_addr (r : resource) : option addr :=
  match r with AResource a => Some (Addr4 a) | AAAAResource a => Some (Addr6 a "") | OtherResource => None end.

Definition ParseLearnable (msg : option message) (match_ : string -> string) : string * string * list addr :=
  match msg with
  | Some (mkMessage (q :: _) answers) =>
      let name := ToLower (trim_dot q) in
      let rule := match_ name in
      if rule =s? "" then ("", "", []) else (rule, name, omap answer_addr answers)
  | _ => ("", "", [])
  end.

Definition addrsFromResponse (msg : option message) : list addr :=
  match msg with Some m => omap answer_addr (ms_Answers m) | None => [] end.

(** What the tap reports of a response. *)
Definition observe (msg : option message) (match_ : string -> string) : option (string * string * list addr) :=
  let '(rule, fqdn, addrs) := ParseLearnable msg match_ in
  if negb (rule =s? "") && negb (bool_decide (addrs = [])) then Some (rule, fqdn, addrs) else None.

(** ** Forwarding *)

Definition itoa_fuel : nat := 8.

(** The digits fill an 8-byte buffer from its end; one more would be out of
    range ([None]). *)
Fixpoint itoa_go (fuel : nat) (n : Z) (acc : string) : option string :=
  if 0 <? n then
    match fuel with
    | O => None
    | S fuel => itoa_go fuel (n / 10) (String (chr (48 + n mod 10)) acc)
    end
  else Some acc.

Definition itoa (n : Z) : option string := if n =? 0 then Some "0" else itoa_go itoa_fuel n "".

(** The real resolvers, with their port. [SplitHostPort] is of the standard
    library. *)
Definition JoinHostPort (host port : string) : string :=
  if Contains_str host ":" then "[" +:+ host +:+ "]:" +:+ port else host +:+ ":" +:+ port.

Definition upstream (SplitHostPort : string -> option (string * string)) (s : string) : option string :=
  let host := match SplitHostPort s with Some (h, _) => h | None => s end in
  match ParseAddr host with
  | None => None
  | Some _ => Some (if host =s? s then JoinHostPort s "53" else s)
  end.

Definition SetUpstreams (SplitHostPort : string -> option (string * string)) (servers : list string) : list string :=
  omap (upstream SplitHostPort) servers.

(** [port]: the proxy's own, 0 while it is stopped. *)
Definition isSelf (SplitHostPort : string -> option (string * string)) (port : Z) (up : string) : bool :=
  match SplitHostPort up with
  | None => false
  | Some (host, p) =>
      match ParseAddr host with
      | Some a => IsLoopback a && negb (port =? 0) && bool_decide (Some p = itoa port)
      | None => false
      end
  end.

(** Serving with somewhere to forward to. *)
Definition Ready (active : bool) (port : Z) (upstreams : list string) : bool * Z :=
  if active then ((0 <? Z.of_nat (length upstreams)), port) else (false, 0).

(** The first upstream that is not the proxy itself and answers. *)
Definition forwardUDP (isSelf : string -> bool) (exchange : string -> option string) (ups : list string) : option string :=
  head (omap (fun up => if isSelf up then None else match exchange up with Some "" | None => None | r => r end) ups).

(** A and AAAA, each address once: [ask] is the query and its response. *)
Fixpoint fresh_addrs (seen : list addr) (l : list addr) : list addr :=
  match l with
  | [] => []
  | a :: l' => if bool_decide (a ∈ seen) then fresh_addrs seen l' else a :: fresh_addrs (a :: seen) l'
  end.

Definition Resolve (ask : bool -> option (option message)) : list addr :=
  fresh_addrs [] ([false; true] ≫= fun aaaa => match ask aaaa with Some resp => addrsFromResponse resp | None => [] end).

Definition maxInFlight : Z := 128.

(** A handler starts only while fewer than the cap run. *)
Definition spawn (running : Z) : option Z := if running <? maxInFlight then Some (running + 1) else None.

(** Two bytes, the length in network order, then the message. *)
Definition writeTCPMessage (msg : string) : string :=
  let n := Z.of_nat (String.length msg) mod 65536 in
  String (chr (n / 256)) (String (chr (n mod 256)) msg).

Fixpoint read_n (n : nat) (s : string) : option (string * string) :=
  match n with
  | O => Some ("", s)
  | S n => match s with
           | EmptyString => None
           | String c s' => '(a, b) ← read_n n s'; Some (String c a, b)
           end
  end.

Definition readTCPMessage (s : string) : option (string * string) :=
  match s with
  | String a (String b s') => read_n (Z.to_nat (code a * 256 + code b)) s'
  | _ => None
  end.
