(* ===== verification/DnsLearnFacts.v ===== *)
(** * What the answer store promises

    The caps hold whatever is looked up; an address is routed only while an
    answer for a name of its rule was seen within the expiry time; a change of
    what is routed is always reported, so it is applied and saved; a restart
    loses nothing that is still live; and a name is learned under a rule that
    covers it. *)

From Stdlib Require Import Ascii.
From S2P Require Import Prelude.
From S2P Require Import Netip NetipText Aggregate Domain Input Provider Netmon Killswitch Update Config Addressing TunnelSession DnsLearn.

(** ** One name's addresses *)

Lemma touch_addrs now l a : map as_addr (touch now l a) = if bool_decide (a ∈ map as_addr l) then map as_addr l else map as_addr l ++ [a].
Proof.
  induction l as [|x l IH]; [done|]. cbn [touch map]. destruct (decide (as_addr x = a)) as [E|E].
  - rewrite bool_decide_eq_true_2, bool_decide_eq_true_2 by (done || (rewrite <- E; by left)). cbn. by rewrite E.
  - rewrite bool_decide_eq_false_2 by done. cbn [map]. rewrite IH. destruct (decide (a ∈ map as_addr l)).
    + by rewrite !bool_decide_eq_true_2 by (done || by right).
    + rewrite !bool_decide_eq_false_2; [done| |done]. rewrite elem_of_cons. naive_solver.
Qed.

Lemma elem_of_touch now l a x : x ∈ touch now l a -> x ∈ l \/ x = mkSeen a now.
Proof.
  induction l as [|y l IH]; cbn.
  - intros ->%list_elem_of_singleton. by right.
  - case_bool_decide; intros [->|H']%elem_of_cons; [by right|left; by right|left; by left|]. destruct (IH H') as [?|?]; [left; by right|by right].
Qed.

Lemma touch_NoDup now l a : NoDup (map as_addr l) -> NoDup (map as_addr (touch now l a)).
Proof.
  intros H. rewrite touch_addrs. case_bool_decide; [done|]. apply NoDup_app. split_and!; [done| |apply NoDup_singleton].
  by intros y Hy ->%list_elem_of_singleton.
Qed.

Lemma touch_in now l a : NoDup (map as_addr l) -> mkSeen a now ∈ touch now l a.
Proof.
  induction l as [|y l IH]; cbn; [intros _; by left|]. intros [_ Hn]%NoDup_cons. case_bool_decide; [by left|right; by apply IH].
Qed.

Lemma touch_keeps now l a x : x ∈ l -> as_addr x <> a -> x ∈ touch now l a.
Proof.
  induction l as [|y l IH]; [by intros ?%elem_of_nil|]. cbn. intros [->|H]%elem_of_cons Hx.
  - rewrite bool_decide_eq_false_2 by done. by left.
  - case_bool_decide; right; [done|by apply IH].
Qed.

(** *** Several addresses *)

Definition touched (now : Z) (addrs : list addr) (l : list addrSeen) : list addrSeen := fold_left (touch now) addrs l.

Lemma touched_NoDup now addrs l : NoDup (map as_addr l) -> NoDup (map as_addr (touched now addrs l)).
Proof. revert l. induction addrs as [|a addrs IH]; intros l H; [done|]. cbn. by apply IH, touch_NoDup. Qed.

Lemma elem_of_touched now addrs l x : x ∈ touched now addrs l -> x ∈ l \/ (as_seen x = now /\ as_addr x ∈ addrs).
Proof.
  revert l. induction addrs as [|a addrs IH]; intros l H; [by left|]. cbn in H. apply IH in H as [H|[H1 H2]]; [|right; split; [done|by right]].
  apply elem_of_touch in H as [H| ->]; [by left|]. right. split; [done|by left].
Qed.

Lemma touched_in now addrs l a : NoDup (map as_addr l) -> a ∈ addrs -> mkSeen a now ∈ touched now addrs l.
Proof.
  revert l. induction addrs as [|b addrs IH]; intros l Hn Ha; [by apply elem_of_nil in Ha|]. cbn.
  destruct (decide (a ∈ addrs)) as [|Hna]; [apply IH; [by apply touch_NoDup|done]|].
  apply elem_of_cons in Ha as [->|]; [|done]. clear IH.
  assert (mkSeen b now ∈ touch now l b) as H by (by apply touch_in). revert H Hna. generalize (touch now l b).
  induction addrs as [|c addrs IH]; intros l' H Hna; [done|]. cbn. apply not_elem_of_cons in Hna as [? ?].
  apply IH; [|done]. by apply touch_keeps.
Qed.

Lemma elem_of_active now ttl l a : a ∈ activeAddrs now ttl l <-> exists x, x ∈ l /\ is_live now ttl x = true /\ as_addr x = a.
Proof.
  unfold activeAddrs. rewrite elem_of_slice_stable, list_elem_of_fmap. split.
  - intros (x & -> & Hx). apply elem_of_keep_if in Hx as [? ?]. eauto.
  - intros (x & Hx & Hl & <-). exists x. split; [done|]. by apply elem_of_keep_if.
Qed.

Lemma is_live_later now now' ttl x : now <= now' -> is_live now' ttl x = true -> is_live now ttl x = true.
Proof. unfold is_live. intros ? H%Z.ltb_lt. apply Z.ltb_lt. lia. Qed.

Lemma elem_length {A} (x : A) l : x ∈ l -> (0 < length l)%nat.
Proof. destruct l; [by intros ?%elem_of_nil|]. cbn. lia. Qed.

Lemma keep_if_perm {A} (f : A -> bool) l1 l2 : l1 ≡ₚ l2 -> keep_if f l1 ≡ₚ keep_if f l2.
Proof.
  induction 1 as [|x l1 l2 _ IH|x y l|l1 l2 l3 _ IH1 _ IH2]; cbn; [done| | |by rewrite IH1].
  - destruct (f x); [by constructor|done].
  - destruct (f x), (f y); try done. constructor.
Qed.

(** ** The store *)

Section facts.
Context (sort_seen : list addrSeen -> list addrSeen) (range : name_map -> list (string * nameEntry)).

(** [sort.Slice]: a permutation, the latest first. *)
Context (sort_perm : forall l, sort_seen l ≡ₚ l) (sort_sorted : forall l, StronglySorted (fun x y => as_seen y <= as_seen x) (sort_seen l)).
(** [range]: every entry of the map, once. *)
Context (range_perm : forall names, range names ≡ₚ map_to_list names).

Lemma elem_of_cap n l x : x ∈ capAddrs sort_seen n l -> x ∈ l.
Proof.
  unfold capAddrs. case_if; [done|]. intros H. rewrite <- (sort_perm l). eapply elem_of_sublist; [exact H|]. apply sublist_take.
Qed.

Lemma cap_sub n l : exists r, l ≡ₚ capAddrs sort_seen n l ++ r.
Proof.
  unfold capAddrs. case_if; [exists []; by rewrite app_nil_r|]. exists (drop (Z.to_nat n) (sort_seen l)). by rewrite take_drop, sort_perm.
Qed.

Lemma cap_length n l : 0 < n -> Z.of_nat (length (capAddrs sort_seen n l)) <= n.
Proof.
  intros Hn. unfold capAddrs. destruct (Z.leb_spec n 0); [lia|]. cbn [orb]. destruct (Z.leb_spec (Z.of_nat (length l)) n); [done|].
  rewrite length_take. lia.
Qed.

Lemma elem_of_range names fqdn e : (fqdn, e) ∈ range names <-> names !! fqdn = Some e.
Proof. rewrite range_perm. apply elem_of_map_to_list. Qed.

Lemma elem_of_IPs s now rule ip :
  ip ∈ IPs range s now rule <->
  exists names fqdn e a, an_m s !! rule = Some names /\ names !! fqdn = Some e /\ a ∈ activeAddrs now (an_ttl s) (ne_addrs e) /\ ip = addr_String a.
Proof.
  unfold IPs. rewrite elem_of_slice_stable, dedup_in, list_elem_of_bind. destruct (an_m s !! rule) as [names|] eqn:E; cbn.
  - split.
    + intros [[[fqdn e] [Hip He]] _]. apply elem_of_range in He. apply list_elem_of_fmap in Hip as (a & -> & Ha). naive_solver.
    + intros (names' & fqdn & e & a & [= <-] & He & Ha & ->). split; [|set_solver].
      exists (fqdn, e). split; [by apply list_elem_of_fmap_2|by apply elem_of_range].
  - split; [|naive_solver]. intros [[[fqdn e] [_ He]] _]. apply elem_of_range in He. by rewrite lookup_empty in He.
Qed.

Lemma dedup_NoDup l : forall seen, NoDup (dedup seen l).
Proof.
  induction l as [|x l IH]; intros seen; [constructor|]. cbn. case_bool_decide; [done|]. constructor; [|done].
  rewrite dedup_in. set_solver.
Qed.

(** The list is determined by what is in it. *)
Lemma IPs_ext s1 s2 now1 now2 rule :
  (forall ip, ip ∈ IPs range s1 now1 rule <-> ip ∈ IPs range s2 now2 rule) -> IPs range s1 now1 rule = IPs range s2 now2 rule.
Proof.
  unfold IPs. intros H. apply slice_stable_unique; [apply _|intros ????; apply str_less_total|].
  apply NoDup_Permutation; [apply dedup_NoDup..|]. intros x. specialize (H x). by rewrite !elem_of_slice_stable in H.
Qed.

(** *** What an answer does *)

Lemma observed_live s now l addrs x : x ∈ observed sort_seen s now l addrs -> x ∈ touched now addrs l /\ is_live now (an_ttl s) x = true.
Proof. unfold observed. intros H%elem_of_cap. by apply elem_of_keep_if in H. Qed.

Lemma observed_NoDup s now l addrs : NoDup (map as_addr l) -> NoDup (map as_addr (observed sort_seen s now l addrs)).
Proof.
  intros H. unfold observed. set (l' := expire _ _ _).
  assert (NoDup (map as_addr l')) as Hl.
  { unfold l', expire. eapply sublist_NoDup; [exact (touched_NoDup now addrs l H)|apply sublist_map, keep_if_sublist]. }
  destruct (cap_sub (an_maxAddrs s) l') as [r Hr]. rewrite Hr, map_app in Hl. by apply NoDup_app in Hl as [? _].
Qed.

Lemma observed_nonempty s now l addrs : 0 < an_ttl s -> NoDup (map as_addr l) -> addrs <> [] -> observed sort_seen s now l addrs <> [].
Proof.
  intros Ht Hn Ha. destruct addrs as [|a addrs]; [done|].
  assert (mkSeen a now ∈ expire now (an_ttl s) (touched now (a :: addrs) l)) as Hin.
  { apply elem_of_keep_if. split; [apply touched_in; [done|by left]|]. unfold is_live. cbn. apply Z.ltb_lt. lia. }
  unfold observed, touched in *. set (l' := expire _ _ _) in *. clearbody l'. unfold capAddrs. match goal with |- context [if ?b then _ else _] => destruct b eqn:E end; [by intros ->; apply elem_of_nil in Hin|].
  apply orb_false_elim in E as [E1%Z.leb_gt E2%Z.leb_gt]. intros H%(f_equal length). rewrite length_take in H.
  rewrite (Permutation_length (sort_perm l')) in H. cbn [length] in H. lia.
Qed.

Lemma active_nonempty s now l : l <> [] -> Forall (fun x => is_live now (an_ttl s) x = true) l -> activeAddrs now (an_ttl s) l <> [].
Proof.
  destruct l as [|x l]; [done|]. intros _ [Hx _]%Forall_cons H.
  assert (as_addr x ∈ activeAddrs now (an_ttl s) (x :: l)) as Hin by (apply elem_of_active; exists x; split; [by left|done]).
  rewrite H in Hin. by apply elem_of_nil in Hin.
Qed.

(** *** The invariant *)

Definition entry_ok (s : AnswerStore) (e : nameEntry) : Prop :=
  NoDup (map as_addr (ne_addrs e)) /\ Z.of_nat (length (ne_addrs e)) <= an_maxAddrs s /\
  Forall (fun x => addr_ok (as_addr x) /\ IsValid (as_addr x) = true) (ne_addrs e).

Record answers_ok (s : AnswerStore) : Prop := mkAnswersOk {
  ao_ttl : 0 < an_ttl s;
  ao_maxNames : 0 < an_maxNames s;
  ao_maxAddrs : 0 < an_maxAddrs s;
  ao_size : forall rule names, an_m s !! rule = Some names -> Z.of_nat (size names) <= an_maxNames s;
  ao_names : forall rule names, an_m s !! rule = Some names -> names !! "" = None;
  ao_entries : forall rule names fqdn e, an_m s !! rule = Some names -> names !! fqdn = Some e -> entry_ok s e;
}.

Lemma names_ok s rule (P : name_map -> Prop) : answers_ok s ->
  P ∅ -> (forall names, an_m s !! rule = Some names -> P names) -> P (default ∅ (an_m s !! rule)).
Proof. intros _ H0 H. destruct (an_m s !! rule); [by apply H|done]. Qed.

Lemma older_in l : forall acc oldest at_ first, fold_left older l acc = (oldest, at_, first) ->
  (oldest = fst (fst acc) /\ (snd acc = true -> l = [])) \/ oldest ∈ map fst l.
Proof.
  induction l as [|[fqdn e] l IH]; intros [[o a] f] oldest at_ first H.
  - cbn in H. injection H as <- _ _. left. done.
  - cbn [fold_left] in H. apply IH in H as [[H1 H2]|H]; [|right; by right]. cbn [older] in *. destruct (f || (ne_lastSeen e <? a)) eqn:E.
    + cbn in *. subst. right. by left.
    + cbn in *. left. split; [done|]. intros ->. done.
Qed.

(** Eviction makes room when every name has a text. *)
Lemma evict_size names : names !! "" = None -> names <> ∅ -> (size (evictOldestName range names) < size names)%nat.
Proof.
  intros He Hne. unfold evictOldestName. destruct (fold_left older (range names) ("", 0, true)) as [[oldest at_] first] eqn:E.
  apply older_in in E as [[_ E]|E].
  - exfalso. apply Hne. cbn in E. specialize (E eq_refl). pose proof (range_perm names) as Hp. rewrite E in Hp.
    symmetry in Hp. apply Permutation_nil_r in Hp. by apply map_to_list_empty_iff.
  - apply list_elem_of_fmap in E as ([fqdn e] & -> & H%elem_of_range). cbn. destruct (String.eqb_spec fqdn "") as [->|]; [congruence|].
    rewrite map_size_delete_Some by done. enough (size names <> 0%nat) by lia. by apply map_size_non_empty_iff.
Qed.

Lemma evict_sub names fqdn e : evictOldestName range names !! fqdn = Some e -> names !! fqdn = Some e.
Proof. unfold evictOldestName. destruct (fold_left _ _ _) as [[oldest ?] ?]. case_if; [done|]. by intros [_ ?]%lookup_delete_Some. Qed.

Lemma entry_for_spec s names fqdn names' e :
  0 < an_maxNames s -> names !! "" = None -> Z.of_nat (size names) <= an_maxNames s -> fqdn <> "" ->
  entry_for range s names fqdn = (names', e) ->
  (names !! fqdn = Some e \/ (names !! fqdn = None /\ e = mkEntry [] 0)) /\ (forall f x, names' !! f = Some x -> names !! f = Some x) /\
  forall x, Z.of_nat (size (<[fqdn := x]> names')) <= an_maxNames s.
Proof.
  intros Hm He Hs Hf. unfold entry_for. destruct (names !! fqdn) as [e'|] eqn:E.
  - intros [= <- <-]. split_and!; [by left|done|]. intros x. by rewrite map_size_insert_Some by eauto.
  - intros [= <- <-]. split_and!; [by right| |].
    + intros f x. case_if; [apply evict_sub|done].
    + intros x. destruct (Z.leb_spec (an_maxNames s) (Z.of_nat (size names))) as [Hl|Hl].
      * assert (evictOldestName range names !! fqdn = None) as Hn.
        { destruct (evictOldestName range names !! fqdn) eqn:E'; [|done]. apply evict_sub in E'. congruence. }
        rewrite map_size_insert_None by done. enough (size (evictOldestName range names) < size names)%nat by lia.
        apply evict_size; [done|]. intros ->. rewrite map_size_empty in Hl. lia.
      * rewrite map_size_insert_None by done. lia.
Qed.

(** What [Add] leaves, on the branch that does something. *)
Lemma Add_spec s now rule fqdn addrs : answers_ok s -> fqdn <> "" -> addrs <> [] ->
  exists names e, let l := observed sort_seen s now (ne_addrs e) addrs in
  Add sort_seen range s now rule fqdn addrs =
    (set_m (<[rule := <[fqdn := mkEntry l now]> names]> (an_m s)) s, negb (equalAddrs (activeAddrs now (an_ttl s) (ne_addrs e)) (activeAddrs now (an_ttl s) l))) /\
  ((default ∅ (an_m s !! rule) !! fqdn = Some e /\ names = default ∅ (an_m s !! rule)) \/ (default ∅ (an_m s !! rule) !! fqdn = None /\ e = mkEntry [] 0)) /\
  (forall f x, names !! f = Some x -> exists ns, an_m s !! rule = Some ns /\ ns !! f = Some x) /\
  (forall x, Z.of_nat (size (<[fqdn := x]> names)) <= an_maxNames s) /\ names !! "" = None /\ entry_ok s e.
Proof.
  intros Hok Hf Ha. unfold Add. destruct addrs as [|a addrs]; [done|]. set (ns := default ∅ (an_m s !! rule)).
  assert (forall f x, ns !! f = Some x -> exists ns, an_m s !! rule = Some ns /\ ns !! f = Some x) as Hns.
  { unfold ns. destruct (an_m s !! rule) as [ns0|]; cbn; [eauto|]. intros f x. by rewrite lookup_empty. }
  assert (ns !! "" = None) as He.
  { destruct (ns !! "") eqn:E; [|done]. apply Hns in E as (ns' & H1 & H2). by rewrite (ao_names s Hok _ _ H1) in H2. }
  assert (Z.of_nat (size ns) <= an_maxNames s) as Hs.
  { unfold ns. destruct (an_m s !! rule) eqn:E; cbn; [by eapply ao_size|]. rewrite map_size_empty. pose proof (ao_maxNames s Hok). lia. }
  destruct (entry_for range s ns fqdn) as [names e] eqn:E.
  assert (ns !! fqdn = Some e -> names = ns) as Hkeep.
  { intros H. unfold entry_for in E. rewrite H in E. congruence. }
  pose proof (entry_for_spec s ns fqdn names e (ao_maxNames s Hok) He Hs Hf E) as (H1 & H2 & H3).
  exists names, e. split_and!; [done|tauto|eauto|done| |].
  - destruct (names !! "") eqn:E'; [|done]. apply H2 in E'. congruence.
  - destruct H1 as [H1|[_ ->]]; [|split_and!; [constructor|pose proof (ao_maxAddrs s Hok); cbn; lia|constructor]].
    apply Hns in H1 as (ns' & ? & ?). by eapply ao_entries.
Qed.

Definition addr_valid (a : addr) : Prop := addr_ok a /\ IsValid a = true.

Lemma Add_ok s now rule fqdn addrs : answers_ok s -> fqdn <> "" -> Forall addr_valid addrs ->
  answers_ok (fst (Add sort_seen range s now rule fqdn addrs)).
Proof.
  intros Hok Hf Hv. destruct (decide (addrs = [])) as [->|Ha]; [done|].
  destruct (Add_spec s now rule fqdn addrs Hok Hf Ha) as (names & e & -> & _ & Hold & Hsize & Hempty & (He1 & He2 & He3)). cbn [fst].
  destruct Hok as [K1 K2 K3 K4 K5 K6]. constructor; cbn; try done.
  - intros r ns [[<- <-]|[_ H]]%lookup_insert_Some; [done|by eapply K4].
  - intros r ns [[<- <-]|[_ H]]%lookup_insert_Some; [by rewrite lookup_insert_ne|by eapply K5].
  - intros r ns f x [[<- <-]|[_ H]]%lookup_insert_Some Hx; [|by eapply K6].
    apply lookup_insert_Some in Hx as [[<- <-]|[_ Hx]].
    + split_and!; cbn [ne_addrs]; [by apply observed_NoDup|by apply cap_length|].
      apply Forall_forall. intros x [Hx _]%observed_live. apply elem_of_touched in Hx as [Hx|[_ Hx]].
      * rewrite Forall_forall in He3. by apply He3.
      * rewrite Forall_forall in Hv. by apply Hv.
    + apply Hold in Hx as (ns & ? & ?). by eapply K6.
Qed.

(** no change of what is routed goes unreported: when [Add] says nothing
    changed, every rule's addresses are what they were, so skipping the
    reconcile and the save loses nothing; a name evicted to make room is always
    reported. *)
Theorem Add_reports_changes s s' now rule fqdn addrs : answers_ok s -> fqdn <> "" ->
  Add sort_seen range s now rule fqdn addrs = (s', false) -> forall rule', IPs range s' now rule' = IPs range s now rule'.
Proof.
  intros Hok Hf. destruct (decide (addrs = [])) as [->|Ha]; [by intros [= <-]|].
  destruct (Add_spec s now rule fqdn addrs Hok Hf Ha) as (names & e & -> & Hcase & _ & _ & _ & (He & _)).
  intros [= <- Heq%negb_false_iff%bool_decide_eq_true] rule'. destruct Hcase as [[Hin ->]|[_ ->]].
  2: { exfalso. cbn in Heq. change (activeAddrs now (an_ttl s) []) with (@nil addr) in Heq. symmetry in Heq. revert Heq. apply active_nonempty.
       - apply observed_nonempty; [by apply ao_ttl|constructor|done].
       - apply Forall_forall. intros x Hx. by apply observed_live in Hx as [_ ?]. }
  destruct (an_m s !! rule) as [ns|] eqn:Er; cbn in Hin; [|by rewrite lookup_empty in Hin].
  apply IPs_ext. intros ip. rewrite !elem_of_IPs. cbn [set_m an_m an_ttl]. destruct (decide (rule' = rule)) as [->|]; [|by rewrite lookup_insert_ne].
  rewrite lookup_insert_eq, Er. cbn. split.
  - intros (ns' & f & x & a & [= <-] & Hx & Hact & ->). apply lookup_insert_Some in Hx as [[<- <-]|[_ Hx]]; [|naive_solver].
    cbn [ne_addrs] in Hact. rewrite <- Heq in Hact. naive_solver.
  - intros (ns' & f & x & a & [= <-] & Hx & Hact & ->). destruct (decide (f = fqdn)) as [->|].
    + rewrite Hin in Hx. injection Hx as <-. rewrite Heq in Hact. eexists _, fqdn, _, a. rewrite lookup_insert_eq. done.
    + eexists _, f, x, a. by rewrite lookup_insert_ne.
Qed.

(** *** What is learned *)

(** The latest entries survive the cap when there is room for them. *)
Lemma cap_keeps_latest n l x :
  NoDup l -> x ∈ l -> (forall y, y ∈ l -> as_seen y <= as_seen x) ->
  Z.of_nat (length (keep_if (fun y => as_seen y =? as_seen x) l)) <= n -> x ∈ capAddrs sort_seen n l.
Proof.
  intros Hn Hx Hmax Hlen. unfold capAddrs. case_if; [done|]. rewrite <- (sort_perm l) in Hx.
  rewrite <- (take_drop (Z.to_nat n) (sort_seen l)), elem_of_app in Hx. destruct Hx as [Hx|Hx]; [done|exfalso].
  set (latest := fun y => as_seen y =? as_seen x) in *. pose proof (sort_sorted l) as Hs.
  rewrite <- (take_drop (Z.to_nat n) (sort_seen l)) in Hs.
  assert (Forall (fun y => latest y = true) (take (Z.to_nat n) (sort_seen l))) as Hall.
  { apply Forall_forall. intros y Hy. apply Z.eqb_eq. apply Z.le_antisymm.
    - apply Hmax. rewrite <- (sort_perm l). eapply elem_of_sublist; [exact Hy|apply sublist_take].
    - exact (StronglySorted_app_1_elem_of _ _ _ _ _ Hs Hy Hx). }
  assert (length (keep_if latest l) = length (keep_if latest (sort_seen l))) as E.
  { apply Permutation_length, keep_if_perm. by rewrite sort_perm. }
  rewrite E, <- (take_drop (Z.to_nat n) (sort_seen l)), (List.filter_app latest : forall l l', keep_if _ _ = _), length_app in Hlen.
  change (List.filter latest) with (keep_if latest) in Hlen. rewrite (keep_if_all latest (take _ _)), length_take in Hlen by (by apply Forall_forall).
  assert (x ∈ keep_if latest (drop (Z.to_nat n) (sort_seen l))) as Hk by (apply elem_of_keep_if; split; [done|apply Z.eqb_refl]).
  apply elem_length in Hk, Hx. rewrite length_drop in Hx. lia.
Qed.

(** what was just answered is routed: after [Add], every address of the
    answer is among its rule's, as long as the answer holds no more distinct
    addresses than a name may keep and what was known of the name is older. A
    full table does not stop a new name. *)
Theorem Add_learns s now rule fqdn addrs a :
  answers_ok s -> fqdn <> "" -> a ∈ addrs -> Z.of_nat (length (remove_dups addrs)) <= an_maxAddrs s ->
  (forall names e x, an_m s !! rule = Some names -> names !! fqdn = Some e -> x ∈ ne_addrs e -> as_seen x < now) ->
  addr_String a ∈ IPs range (fst (Add sort_seen range s now rule fqdn addrs)) now rule.
Proof.
  intros Hok Hf Ha Hlen Hold. destruct (Add_spec s now rule fqdn addrs Hok Hf) as (names & e & -> & Hcase & _ & _ & _ & (He & _)).
  { intros ->. by apply elem_of_nil in Ha. }
  assert (forall x, x ∈ ne_addrs e -> as_seen x < now) as Hlt.
  { intros x Hx. destruct Hcase as [[Hin _]|[_ ->]]; [|by apply elem_of_nil in Hx].
    destruct (an_m s !! rule) eqn:Er; cbn in Hin; [by eapply Hold|by rewrite lookup_empty in Hin]. }
  set (l := observed sort_seen s now (ne_addrs e) addrs).
  assert (mkSeen a now ∈ l) as Hin.
  { pose proof (touched_NoDup now addrs _ He) as Hnt. unfold l, observed. apply cap_keeps_latest.
    - apply NoDup_keep_if. by eapply NoDup_fmap_1.
    - apply elem_of_keep_if. split; [by apply touched_in|]. unfold is_live. cbn. pose proof (ao_ttl s Hok). apply Z.ltb_lt. lia.
    - intros y [Hy _]%elem_of_keep_if. cbn. apply elem_of_touched in Hy as [Hy|[-> _]]; [|lia]. apply Hlt in Hy. lia.
    - eapply Z.le_trans; [|exact Hlen]. apply Nat2Z.inj_le. rewrite <- (length_map as_addr). apply submseteq_length, NoDup_submseteq.
      + eapply sublist_NoDup; [exact Hnt|]. apply sublist_map. etrans; apply keep_if_sublist.
      + intros x Hx. apply list_elem_of_fmap in Hx as (y & -> & [[Hy _]%elem_of_keep_if Hs%Z.eqb_eq]%elem_of_keep_if).
        apply elem_of_remove_dups. apply elem_of_touched in Hy as [Hy%Hlt|[_ ?]]; [cbn in Hs; lia|done]. }
  apply elem_of_IPs. cbn [fst set_m an_m an_ttl]. eexists _, fqdn, _, a. rewrite lookup_insert_eq, lookup_insert_eq. split_and!; [done..| |done].
  apply elem_of_active. exists (mkSeen a now). split_and!; [done| |done]. by apply observed_live in Hin as [_ ?].
Qed.

(** *** Housekeeping *)

Lemma gc_entry_Some now ttl e e' : gc_entry now ttl e = Some e' <-> expire now ttl (ne_addrs e) <> [] /\ e' = mkEntry (expire now ttl (ne_addrs e)) (ne_lastSeen e).
Proof. unfold gc_entry. destruct (expire _ _ _); naive_solver. Qed.

Lemma gc_lookup s now rule names' :
  an_m (fst (GC s now)) !! rule = Some names' <->
  exists names, an_m s !! rule = Some names /\ names' = omap (gc_entry now (an_ttl s)) names /\ names' <> ∅.
Proof.
  cbn. rewrite lookup_omap. destruct (an_m s !! rule) as [names|]; cbn; [|naive_solver]. unfold gc_names. case_bool_decide; naive_solver.
Qed.

(** Dropping expired addresses changes nothing that is or will be routed. *)
Lemma GC_keeps_IPs s now now' rule : now <= now' -> IPs range (fst (GC s now)) now' rule = IPs range s now' rule.
Proof.
  intros Hle. apply IPs_ext. intros ip. rewrite !elem_of_IPs. split.
  - intros (names & fqdn & e & a & (ns & H1 & -> & _)%gc_lookup & He & Ha & ->).
    apply lookup_omap_Some in He as (e0 & (_ & ->)%gc_entry_Some & He0). exists ns, fqdn, e0, a. split_and!; [done..| |done].
    apply elem_of_active in Ha as (x & Hx & ? & <-). cbn in Hx. apply elem_of_keep_if in Hx as [Hx _]. apply elem_of_active. eauto.
  - intros (names & fqdn & e & a & H1 & He & Ha & ->). apply elem_of_active in Ha as (x & Hx & Hl & <-).
    assert (x ∈ expire now (an_ttl s) (ne_addrs e)) as Hex.
    { apply elem_of_keep_if. split; [done|]. by eapply is_live_later. }
    assert (omap (gc_entry now (an_ttl s)) names !! fqdn = Some (mkEntry (expire now (an_ttl s) (ne_addrs e)) (ne_lastSeen e))) as Hg.
    { apply lookup_omap_Some. exists e. split; [|done]. apply gc_entry_Some. split; [|done]. intros E. rewrite E in Hex. by apply elem_of_nil in Hex. }
    exists (omap (gc_entry now (an_ttl s)) names), fqdn, (mkEntry (expire now (an_ttl s) (ne_addrs e)) (ne_lastSeen e)), (as_addr x).
    split_and!; [|done| |done].
    + apply gc_lookup. exists names. split_and!; [done..|]. intros E. by rewrite E, lookup_empty in Hg.
    + apply elem_of_active. eauto.
Qed.

(** *** Over a restart *)

(** The store a restarted daemon loads. *)
Definition reload (s : AnswerStore) (now : Z) : AnswerStore := fst (Load (set_m ∅ s) now (Some (Marshal s))).

Definition entry_valid (e : nameEntry) : Prop := Forall (fun x => addr_valid (as_addr x)) (ne_addrs e).

Lemma load_saved now ttl l :
  Forall (fun x => addr_valid (as_addr x)) l ->
  omap (load_addr now ttl) (map (fun x => mkPAddr (addr_String (as_addr x)) (as_seen x)) l) = expire now ttl l.
Proof.
  induction 1 as [|x l [Ha Hv] _ IH]; [done|]. cbn. unfold load_addr at 1. cbn. rewrite ParseAddr_String by done. unfold is_live.
  rewrite Z.leb_antisym. destruct (now - as_seen x <? ttl); cbn; [|exact IH]. f_equal; [by destruct x|exact IH].
Qed.

Lemma reload_gc s now : (forall rule names fqdn e, an_m s !! rule = Some names -> names !! fqdn = Some e -> entry_valid e) ->
  reload s now = fst (GC s now).
Proof.
  intros Hv. unfold reload, Load, GC, Marshal. cbn [fst set_m an_ttl an_maxNames an_maxAddrs an_m]. unfold set_m. cbn. f_equal.
  apply map_eq. intros rule. rewrite !lookup_omap, lookup_fmap. destruct (an_m s !! rule) as [names|] eqn:E; [|done]. cbn.
  unfold load_rule, gc_names. assert (omap (load_name now (an_ttl s)) (save_name <$> names) = omap (gc_entry now (an_ttl s)) names) as ->; [|done].
  apply map_eq. intros fqdn. rewrite !lookup_omap, lookup_fmap. destruct (names !! fqdn) as [e|] eqn:Ef; [|done]. cbn.
  unfold load_name, save_name, gc_entry. cbn [pn_Addrs pn_LastSeen]. by rewrite load_saved by (by eapply Hv).
Qed.

(** a restart keeps what was learned: the answers saved and loaded again
    give every rule, then and at any later time, the addresses it had, whatever
    had expired left out. *)
Theorem restart_keeps_answers s now now' rule : answers_ok s -> now <= now' ->
  IPs range (reload s now) now' rule = IPs range s now' rule.
Proof.
  intros Hok Hle. rewrite reload_gc; [by apply GC_keeps_IPs|]. intros r names fqdn e H1 H2. by destruct (ao_entries s Hok _ _ _ _ H1 H2) as (_ & _ & ?).
Qed.

(** ** Every run of the store *)

Inductive store_op : Type :=
| OpAdd (now : Z) (rule fqdn : string) (addrs : list addr)
| OpGC (now : Z)
| OpPrune (active : list string)
| OpRestart (now : Z).

Definition op_ok (o : store_op) : Prop := match o with OpAdd _ _ fqdn addrs => fqdn <> "" /\ Forall addr_valid addrs | _ => True end.

Definition run_op (s : AnswerStore) (o : store_op) : AnswerStore :=
  match o with
  | OpAdd now rule fqdn addrs => fst (Add sort_seen range s now rule fqdn addrs)
  | OpGC now => fst (GC s now)
  | OpPrune active => fst (Prune s active)
  | OpRestart now => reload s now
  end.

(** Each address was answered for its rule, at the time it is kept with. *)
Definition from_answers (ops : list store_op) (s : AnswerStore) : Prop :=
  forall rule names fqdn e x, an_m s !! rule = Some names -> names !! fqdn = Some e -> x ∈ ne_addrs e ->
  exists addrs, OpAdd (as_seen x) rule fqdn addrs ∈ ops /\ as_addr x ∈ addrs.

Lemma GC_ok s now : answers_ok s -> answers_ok (fst (GC s now)).
Proof.
  intros [K1 K2 K3 K4 K5 K6]. constructor; [done..| | |].
  - intros rule names' (names & H & -> & _)%gc_lookup. specialize (K4 _ _ H).
    enough (size (omap (gc_entry now (an_ttl s)) names) <= size names)%nat by (cbn in *; lia). apply (dom_subseteq_size (D := gset string)), (dom_omap_subseteq (D := gset string)).
  - intros rule names' (names & H & -> & _)%gc_lookup. by rewrite lookup_omap, (K5 _ _ H).
  - intros rule names' fqdn e (names & H & -> & _)%gc_lookup He. apply lookup_omap_Some in He as (e0 & (_ & ->)%gc_entry_Some & He0).
    destruct (K6 _ _ _ _ H He0) as (H1 & H2 & H3). split_and!; cbn [ne_addrs].
    + eapply sublist_NoDup; [exact H1|]. apply sublist_map, keep_if_sublist.
    + pose proof (sublist_length _ _ (keep_if_sublist (is_live now (an_ttl s)) (ne_addrs e0))). cbn. unfold expire. lia.
    + apply Forall_forall. intros x [Hx _]%elem_of_keep_if. rewrite Forall_forall in H3. by apply H3.
Qed.

Lemma Prune_ok s active : answers_ok s -> answers_ok (fst (Prune s active)).
Proof.
  intros [K1 K2 K3 K4 K5 K6]. constructor; cbn; try done; intros rule names; [intros [H _]%map_lookup_filter_Some; by eapply K4..| |].
  - intros [H _]%map_lookup_filter_Some. by eapply K5.
  - intros fqdn e [H _]%map_lookup_filter_Some. by apply (K6 rule).
Qed.

Lemma reload_GC_eq s now : answers_ok s -> reload s now = fst (GC s now).
Proof. intros Hok. apply reload_gc. intros r names fqdn e H1 H2. by destruct (ao_entries s Hok _ _ _ _ H1 H2) as (_ & _ & ?). Qed.

Lemma run_op_ok s o : answers_ok s -> op_ok o -> answers_ok (run_op s o).
Proof.
  intros Hok Ho. destruct o; cbn [run_op op_ok] in *.
  - destruct Ho. by apply Add_ok.
  - by apply GC_ok.
  - by apply Prune_ok.
  - rewrite reload_GC_eq by done. by apply GC_ok.
Qed.

Lemma gc_from ops s now : from_answers ops s -> from_answers ops (fst (GC s now)).
Proof.
  intros H rule names' fqdn e x (names & H1 & -> & _)%gc_lookup He Hx. apply lookup_omap_Some in He as (e0 & (_ & ->)%gc_entry_Some & He0).
  cbn [ne_addrs] in Hx. apply elem_of_keep_if in Hx as [Hx _]. by eapply H.
Qed.

Lemma run_op_from ops s o : answers_ok s -> op_ok o -> from_answers ops s -> from_answers (ops ++ [o]) (run_op s o).
Proof.
  intros Hok Ho H. assert (from_answers (ops ++ [o]) s) as H'.
  { intros rule names fqdn e x H1 H2 Hx. destruct (H _ _ _ _ _ H1 H2 Hx) as (addrs & Hin & Ha). exists addrs. split; [|done]. apply elem_of_app. by left. }
  destruct o as [now rule fqdn addrs|now|active|now]; cbn [run_op].
  - destruct Ho as [Hf _]. destruct (decide (addrs = [])) as [->|Ha]; [done|].
    destruct (Add_spec s now rule fqdn addrs Hok Hf Ha) as (names & e & -> & Hcase & Hold & _). cbn [fst set_m an_m].
    intros r ns f x y Hr Hx Hy. cbn [set_m an_m] in Hr. apply lookup_insert_Some in Hr as [[<- <-]|[_ Hr]]; [|by eapply H'].
    apply lookup_insert_Some in Hx as [[<- <-]|[_ Hx]].
    + cbn [ne_addrs] in Hy. apply observed_live in Hy as [Hy _]. apply elem_of_touched in Hy as [Hy|[Hs Hy]].
      * destruct Hcase as [[Hin _]|[_ ->]]; [|by apply elem_of_nil in Hy]. destruct (an_m s !! rule) eqn:Er; cbn in Hin; [|by rewrite lookup_empty in Hin].
        by eapply H'.
      * exists addrs. rewrite Hs. split; [|done]. apply elem_of_app. right. by left.
    + destruct (Hold _ _ Hx) as (ns & ? & ?). by eapply H'.
  - by apply gc_from.
  - intros r names f e x Hr. cbn in Hr. apply map_lookup_filter_Some in Hr as [Hr _]. by eapply H'.
  - rewrite reload_GC_eq by done. by apply gc_from.
Qed.

Definition run_ops (maxNames : Z) (ops : list store_op) : AnswerStore := fold_left run_op ops (NewAnswerStore maxNames).

Lemma run_ops_ok maxNames ops : Forall op_ok ops ->
  answers_ok (run_ops maxNames ops) /\ from_answers ops (run_ops maxNames ops) /\ an_ttl (run_ops maxNames ops) = defaultAddrTTL /\
  an_maxNames (run_ops maxNames ops) = an_maxNames (NewAnswerStore maxNames).
Proof.
  induction ops as [|o ops IH] using rev_ind; intros Hops.
  - split_and!; [|intros ?????; cbn; by rewrite lookup_empty|done..]. constructor; cbn; try done. destruct (Z.leb_spec maxNames 0); cbn; unfold defaultMaxNamesPerRule; lia.
  - apply Forall_app in Hops as [Hops [Ho _]%Forall_cons]. destruct (IH Hops) as (H1 & H2 & H3 & H4).
    unfold run_ops in *. rewrite fold_left_app. cbn [fold_left]. split_and!; [by apply run_op_ok|by apply run_op_from| |].
    + rewrite <- H3. destruct o; cbn [run_op]; [|done..]. unfold Add. destruct addrs; [done|]. by destruct (entry_for _ _ _ _).
    + rewrite <- H4. destruct o; cbn [run_op]; [|done..]. unfold Add. destruct addrs; [done|]. by destruct (entry_for _ _ _ _).
Qed.

(** C34: whatever is looked up, in any order with housekeeping, reconfiguration
    and restarts, a rule never keeps more names than its cap nor a name more
    than 16 addresses, and every address routed for a rule was answered for one
    of its names less than six hours ago. *)
Theorem learned_bounded_and_fresh maxNames ops : Forall op_ok ops ->
  let s := run_ops maxNames ops in
  (forall rule, Names s rule <= an_maxNames (NewAnswerStore maxNames)) /\
  (forall rule names fqdn e, an_m s !! rule = Some names -> names !! fqdn = Some e -> Z.of_nat (length (ne_addrs e)) <= an_maxAddrs s) /\
  (forall now rule ip, ip ∈ IPs range s now rule ->
     exists t fqdn addrs a, OpAdd t rule fqdn addrs ∈ ops /\ a ∈ addrs /\ ip = addr_String a /\ now - t < defaultAddrTTL).
Proof.
  intros Hops s. destruct (run_ops_ok maxNames ops Hops) as (Hok & Hfrom & Httl & Hmax). fold s in Hok, Hfrom, Httl, Hmax. split_and!.
  - intros rule. unfold Names. rewrite <- Hmax. destruct (an_m s !! rule) eqn:E; cbn [default]; [by apply (ao_size s Hok rule)|].
    rewrite map_size_empty. pose proof (ao_maxNames s Hok). lia.
  - intros rule names fqdn e H1 H2. by destruct (ao_entries s Hok _ _ _ _ H1 H2) as (_ & ? & _).
  - intros now rule ip (names & fqdn & e & a & H1 & H2 & Ha & ->)%elem_of_IPs. apply elem_of_active in Ha as (x & Hx & Hl & <-).
    destruct (Hfrom _ _ _ _ _ H1 H2 Hx) as (addrs & Hin & Hin'). exists (as_seen x), fqdn, addrs, (as_addr x). split_and!; [done..|].
    unfold is_live in Hl. rewrite Httl in Hl. by apply Z.ltb_lt in Hl.
Qed.

End facts.

(** ** Wildcards *)

Lemma SetWildcards_in rules apex r : SetWildcards rules !! apex = Some r -> r ∈ rules /\ apex_of r = apex /\ apex <> "".
Proof.
  unfold SetWildcards. set (f := fun m r => _). revert apex r. induction rules as [|x rules IH] using rev_ind; intros apex r; [cbn; by rewrite lookup_empty|].
  rewrite fold_left_app. cbn [fold_left]. unfold f at 1. cbv zeta. destruct (String.eqb_spec (apex_of x) "") as [_|Hne].
  - intros (? & ? & ?)%IH. split; [apply elem_of_app; by left|done].
  - intros [[<- <-]|[_ H]]%lookup_insert_Some.
    + split_and!; [|done|done]. apply elem_of_app. right. by left.
    + apply IH in H as (? & ? & ?). split; [apply elem_of_app; by left|done].
Qed.

Lemma SetWildcards_has rules r : r ∈ rules -> apex_of r <> "" -> is_Some (SetWildcards rules !! apex_of r).
Proof.
  unfold SetWildcards. set (f := fun m r => _). induction rules as [|x rules IH] using rev_ind; intros Hr Hne; [by apply elem_of_nil in Hr|].
  rewrite fold_left_app. cbn [fold_left]. unfold f at 1. cbv zeta. apply elem_of_app in Hr as [Hr|Hr].
  - case_if; [by apply IH|]. rewrite lookup_insert_is_Some'. right. by apply IH.
  - apply list_elem_of_singleton in Hr as ->. rewrite (proj2 (String.eqb_neq _ _)) by done. rewrite lookup_insert_eq. eauto.
Qed.

Lemma find_None {A} (f : A -> bool) l : List.find f l = None <-> forall x, x ∈ l -> f x = false.
Proof.
  split.
  - intros H x Hx. eapply List.find_none; [exact H|by apply list_elem_of_In].
  - intros H. destruct (List.find f l) as [x|] eqn:E; [|done]. apply List.find_some in E as [Hx%list_elem_of_In E]. by rewrite H in E.
Qed.

(** what the tap reports belongs to its rule: a response is learned exactly
    when its question is covered by the apex of a configured wildcard and it
    carries addresses; the rule reported is such a wildcard, whatever order the
    table is ranged over. *)
Theorem observe_exact rules apexes q qs answers :
  apexes ≡ₚ map_to_list (SetWildcards rules) ->
  let name := ToLower (trim_dot q) in
  let heard := observe (Some (mkMessage (q :: qs) answers)) (matchRule apexes) in
  (is_Some heard <-> (exists r, r ∈ rules /\ apex_of r <> "" /\ covers (apex_of r) name = true) /\ omap answer_addr answers <> []) /\
  (forall rule fqdn addrs, heard = Some (rule, fqdn, addrs) ->
     rule ∈ rules /\ covers (apex_of rule) name = true /\ fqdn = name /\ addrs = omap answer_addr answers).
Proof.
  intros Hp name heard.
  assert (forall apex r, (apex, r) ∈ apexes -> r ∈ rules /\ apex_of r = apex /\ apex <> "" /\ r <> "") as Hin.
  { intros apex r H. rewrite Hp in H. apply elem_of_map_to_list, SetWildcards_in in H as (? & <- & ?). split_and!; try done. by intros ->. }
  assert ((exists r, r ∈ rules /\ apex_of r <> "" /\ covers (apex_of r) name = true) <-> matchRule apexes name <> "") as Hm.
  { unfold matchRule. destruct (List.find _ apexes) as [[apex r]|] eqn:E.
    - apply List.find_some in E as [H%list_elem_of_In E]. apply Hin in H as (? & <- & ? & ?). split; [done|]. intros _. by exists r.
    - split; [|done]. intros (r & Hr & Hne & Hc) _. destruct (SetWildcards_has rules r Hr Hne) as [r' H].
      rewrite find_None in E. specialize (E (apex_of r, r')). cbn in E. rewrite E in Hc; [done|]. rewrite Hp. by apply elem_of_map_to_list. }
  assert (heard = if negb (matchRule apexes name =s? "") && negb (bool_decide (omap answer_addr answers = [])) then Some (matchRule apexes name, name, omap answer_addr answers) else None) as ->.
  { unfold heard, observe. cbn [ParseLearnable]. fold name. destruct (matchRule apexes name =s? "") eqn:E; [done|]. by rewrite E. }
  rewrite Hm. destruct (String.eqb_spec (matchRule apexes name) "") as [E|E]; cbn [negb andb].
  - split; [|done]. split; [by intros []|tauto].
  - case_bool_decide as Ha; cbn [negb]; [split; [split; [by intros []|tauto]|done]|]. split; [split; [done|eauto]|].
    intros rule fqdn addrs [= <- <- <-]. unfold matchRule in *. destruct (List.find _ apexes) as [[apex r]|] eqn:F; [|done].
    apply List.find_some in F as [H%list_elem_of_In F]. apply Hin in H as (? & <- & _). done.
Qed.

(** with one wildcard inside another, the rule a name is learned under
    depends on the order the map happens to be ranged over: the same answer
    goes to the narrow rule or to the wide one, and the other learns nothing. *)
Theorem nested_wildcards_ambiguous :
  let rules := ["*.example.com"; "*.eu.example.com"] in
  exists order1 order2, order1 ≡ₚ map_to_list (SetWildcards rules) /\ order2 ≡ₚ map_to_list (SetWildcards rules) /\
  matchRule order1 "app.eu.example.com" = "*.example.com" /\ matchRule order2 "app.eu.example.com" = "*.eu.example.com".
Proof.
  cbv zeta. exists [("example.com", "*.example.com"); ("eu.example.com", "*.eu.example.com")], [("eu.example.com", "*.eu.example.com"); ("example.com", "*.example.com")].
  assert (map_to_list (SetWildcards ["*.example.com"; "*.eu.example.com"]) ≡ₚ [("eu.example.com", "*.eu.example.com"); ("example.com", "*.example.com")]) as H.
  { change (SetWildcards ["*.example.com"; "*.eu.example.com"]) with (<["eu.example.com" := "*.eu.example.com"]> (<["example.com" := "*.example.com"]> (∅ : gmap string string))).
    rewrite !map_to_list_insert by done. by rewrite map_to_list_empty. }
  rewrite H. split_and!; [apply Permutation_swap|done|vm_compute; reflexivity..].
Qed.

(** ** Framing *)

Lemma read_n_app msg rest : read_n (String.length msg) (msg +:+ rest) = Some (msg, rest).
Proof. induction msg as [|c msg IH]; [done|]. change (String c msg +:+ rest) with (String c (msg +:+ rest)). cbn [String.length read_n]. by rewrite IH. Qed.

(** A message of up to 65535 bytes, the most one can hold, is read back as it
    was written, and what follows it is left. *)
Lemma tcp_roundtrip msg rest : Z.of_nat (String.length msg) < 65536 -> readTCPMessage (writeTCPMessage msg +:+ rest) = Some (msg, rest).
Proof.
  intros Hl. unfold writeTCPMessage. rewrite Z.mod_small by lia. set (n := Z.of_nat (String.length msg)) in *.
  change (String ?a (String ?b msg) +:+ rest) with (String a (String b (msg +:+ rest))). cbn [readTCPMessage].
  assert (0 <= n / 256 < 256) by (split; [apply Z.div_pos; lia|apply Z.div_lt_upper_bound; lia]).
  pose proof (Z.mod_pos_bound n 256 ltac:(lia)). rewrite !code_chr by lia. rewrite Z.mul_comm, <- Z.div_mod by lia.
  unfold n. rewrite Nat2Z.id. apply read_n_app.
Qed.

(** The port's digits fit the buffer: no index is out of range below 10^8. *)
Lemma itoa_go_fits fuel : forall n acc, n < 10 ^ Z.of_nat fuel -> is_Some (itoa_go fuel n acc).
Proof.
  induction fuel as [|fuel IH]; intros n acc Hn; cbn [itoa_go].
  - destruct (Z.ltb_spec 0 n); [cbn in Hn; lia|eauto].
  - destruct (Z.ltb_spec 0 n); [|eauto]. apply IH. rewrite Nat2Z.inj_succ, Z.pow_succ_r in Hn by lia. apply Z.div_lt_upper_bound; lia.
Qed.

Lemma itoa_port n : n < 100000000 -> is_Some (itoa n).
Proof. intros H. unfold itoa. case_if; [eauto|]. by apply itoa_go_fits. Qed.

(** ** Witnesses *)

Definition later (x y : addrSeen) : bool := as_seen y <? as_seen x.

#[export] Instance later_weak : StrictWeak later.
Proof. split; unfold later; intros *; rewrite ?Z.ltb_lt, ?Z.ltb_ge; lia. Qed.

Definition ex_sort : list addrSeen -> list addrSeen := slice_stable later.
Definition ex_range : name_map -> list (string * nameEntry) := map_to_list.

Lemma ex_sort_sorted l : StronglySorted (fun x y => as_seen y <= as_seen x) (ex_sort l).
Proof.
  pose proof (slice_stable_sorted later l) as H. fold (ex_sort l) in H. induction H as [|x l' _ IH Hx]; constructor; [done|].
  eapply Forall_impl; [exact Hx|]. intros y Hy. unfold later in Hy. by apply Z.ltb_ge in Hy.
Qed.

Definition ex_a : addr := Addr4 3405803777.
Definition ex_b : addr := Addr6 42540766411282592856903984951653826561 "".
Definition ex_ops : list store_op := [OpAdd 5 "*.example.com" "app.example.com" [ex_a; ex_b]; OpGC 7; OpRestart 9; OpPrune ["*.Example.com"]].
Definition ex_store : AnswerStore := run_ops ex_sort ex_range 2 ex_ops.

Lemma ex_addrs_ok : Forall addr_valid [ex_a; ex_b].
Proof. apply (bool_decide_unpack (Forall (fun a => addr_ok a /\ IsValid a = true) [ex_a; ex_b])). vm_compute. exact I. Qed.

Lemma ex_ops_ok : Forall op_ok ex_ops.
Proof. constructor; [split; [done|apply ex_addrs_ok]|]. by repeat constructor. Qed.

Lemma ex_sort_perm l : ex_sort l ≡ₚ l.
Proof. apply slice_stable_perm. Qed.

Lemma ex_store_ok : answers_ok ex_store.
Proof. apply run_ops_ok; [apply ex_sort_perm|done|apply ex_ops_ok]. Qed.

Lemma Add_reports_changes_witness :
  Add ex_sort ex_range ex_store 12 "*.example.com" "app.example.com" [ex_b] = (fst (Add ex_sort ex_range ex_store 12 "*.example.com" "app.example.com" [ex_b]), false) /\
  IPs ex_range (fst (Add ex_sort ex_range ex_store 12 "*.example.com" "app.example.com" [ex_b])) 12 "*.example.com" = IPs ex_range ex_store 12 "*.example.com".
Proof.
  assert (Add ex_sort ex_range ex_store 12 "*.example.com" "app.example.com" [ex_b] =
          (fst (Add ex_sort ex_range ex_store 12 "*.example.com" "app.example.com" [ex_b]), false)) as H by (vm_compute; reflexivity).
  split; [exact H|]. exact (Add_reports_changes ex_sort ex_range ex_sort_perm ex_sort_sorted (fun _ => reflexivity _) ex_store _ 12 "*.example.com" "app.example.com" [ex_b]
    ex_store_ok ltac:(discriminate) H "*.example.com").
Defined.

Lemma Add_learns_witness :
  addr_String ex_a ∈ IPs ex_range (fst (Add ex_sort ex_range (NewAnswerStore 1) 5 "*.example.com" "app.example.com" [ex_a; ex_b])) 5 "*.example.com".
Proof.
  apply (Add_learns ex_sort ex_range ex_sort_perm ex_sort_sorted (fun _ => reflexivity _)).
  - apply (run_ops_ok ex_sort ex_range ex_sort_perm (fun _ => reflexivity _) 1 []). constructor.
  - discriminate.
  - left.
  - vm_compute. discriminate.
  - intros names e x H. vm_compute in H. discriminate H.
Defined.

Lemma restart_keeps_answers_witness : IPs ex_range (reload ex_store 20) 21 "*.example.com" = IPs ex_range ex_store 21 "*.example.com".
Proof. apply (restart_keeps_answers ex_sort ex_range ex_sort_perm ex_sort_sorted (fun _ => reflexivity _) ex_store 20 21 "*.example.com" ex_store_ok). lia. Defined.

Lemma learned_bounded_and_fresh_witness : Names (run_ops ex_sort ex_range 2 ex_ops) "*.example.com" <= an_maxNames (NewAnswerStore 2).
Proof.
  exact (proj1 (learned_bounded_and_fresh ex_sort ex_range ex_sort_perm ex_sort_sorted (fun _ => reflexivity _) 2 ex_ops ex_ops_ok) "*.example.com").
Defined.

Lemma observe_exact_witness :
  is_Some (observe (Some (mkMessage ["App.Example.com."] [AResource 3405803777])) (matchRule (map_to_list (SetWildcards ["*.example.com"])))).
Proof.
  apply (observe_exact ["*.example.com"] (map_to_list (SetWildcards ["*.example.com"])) "App.Example.com." [] [AResource 3405803777] (reflexivity _)).
  split; [exists "*.example.com"; split_and!; [left|discriminate|vm_compute; reflexivity]|discriminate].
Defined.
