(* ===== verification/Ovpn.v ===== *)
(** * OpenVPN profiles (internal/tunnel/ovpn.go)

    A profile is read against an allowlist and rendered again for an openvpn
    that runs as root. [Parse] is split as the code's loop is: [scan] reads the
    rows into directives and inline blocks (or stops at a row it cannot read),
    and [interpret] takes them one by one; the first error in the order of the
    rows is the answer either way. A message is an error value that keeps its
    format and arguments. Text is bytes; the spaces trimmed are the ASCII
    ones, and case is folded for ASCII letters. *)

From Stdlib Require Import Ascii.
From S2P Require Import Prelude.
From S2P Require Import Netip NetipText Domain Provider Tailscale Netmon Killswitch Update Addressing TunnelManager TunnelSession.

(** ** Lines and tokens *)

Definition is_char (n : Z) (c : ascii) : bool := code c =? n.
Definition control_char (c : ascii) : bool := ((code c <? 32) && negb (code c =? 9)) || (code c =? 127).
Definition blank_char (c : ascii) : bool := is_char 32 c || is_char 9 c.
Definition comment_char (c : ascii) : bool := is_char 35 c || is_char 59 c.
Definition single_quote : Z := 39.

Inductive quoting : Type := Plain | Double | Single.

Definition unterminated : error := Errorf "unterminated quote" [].

(** The tokens from here on: [inTok] is whether one has begun, [cur] its text. *)
Fixpoint tokens_from (q : quoting) (s : string) (inTok : bool) (cur : string) : error + list string :=
  match s with
  | EmptyString => match q with Plain => inr (if inTok then [cur] else []) | _ => inl unterminated end
  | String c s' =>
      match q with
      | Double =>
          if Ascii.eqb c backslash then
            match s' with
            | EmptyString => inl unterminated
            | String c' s'' => tokens_from Double s'' true (cur +:+ String c' "")
            end
          else if Ascii.eqb c quote_char then tokens_from Plain s' true cur
          else tokens_from Double s' true (cur +:+ String c "")
      | Single =>
          if is_char single_quote c then tokens_from Plain s' true cur else tokens_from Single s' true (cur +:+ String c "")
      | Plain =>
          if control_char c then inl (Errorf "control character in line" [])
          else if blank_char c then
            if inTok then match tokens_from Plain s' false "" with inr l => inr (cur :: l) | inl e => inl e end
            else tokens_from Plain s' false ""
          else if comment_char c && negb inTok then inr []
          else if Ascii.eqb c quote_char then tokens_from Double s' true cur
          else if is_char single_quote c then tokens_from Single s' true cur
          else if Ascii.eqb c backslash then
            match s' with
            | EmptyString => inr [cur +:+ String c ""]
            | String c' s'' => tokens_from Plain s'' true (cur +:+ String c' "")
            end
          else tokens_from Plain s' true (cur +:+ String c "")
      end
  end.

Definition tokenize (s : string) : error + list string := tokens_from Plain s false "".

Definition quoted_char (c : ascii) : bool :=
  blank_char c || Ascii.eqb c quote_char || is_char single_quote c || Ascii.eqb c backslash || comment_char c.

Definition quote (s : string) : string :=
  if negb (s =s? "") && str_forall (fun c => negb (quoted_char c)) s then s
  else mgmtQuote s.

(** ** Profiles *)

Record line : Type := mkLine { ln_name : string; ln_args : list string; ln_block : bool; ln_body : string; ln_remote : bool }.

Record OvpnProfile : Type := mkOvpnProfile {
  pr_lines : list line;
  pr_Remotes : list Remote;
  pr_NeedsAuth : bool;
  pr_InlineUser : string;
  pr_InlinePass : string;
  pr_Ignored : list string;
  pr_verb : Z;
}.

Record ProfileError : Type := mkProfileError { pe_Line : Z; pe_Msg : error }.

Definition Remote_String (r : Remote) : string := rm_Host r +:+ ":" +:+ pretty (rm_Port r) +:+ "/" +:+ rm_Proto r.
Definition Servers (p : OvpnProfile) : list string := map Remote_String (pr_Remotes p).

Inductive policy : Type := Keep | Ignore | Inline.

#[export] Instance policy_eq_dec : EqDecision policy.
Proof. solve_decision. Defined.

Definition kept_directives : list string :=
  ["client"; "tls-client"; "pull"; "nobind"; "float"; "resolv-retry"; "connect-retry"; "connect-retry-max";
   "connect-timeout"; "server-poll-timeout"; "remote-random"; "remote-random-hostname"; "explicit-exit-notify";
   "persist-key"; "persist-tun"; "persist-remote-ip"; "persist-local-ip"; "topology"; "tun-ipv6"; "fast-io";
   "remote-cert-tls"; "ns-cert-type"; "remote-cert-eku"; "remote-cert-ku"; "verify-x509-name"; "tls-version-min"; "tls-version-max";
   "tls-cipher"; "tls-ciphersuites"; "tls-groups"; "tls-cert-profile"; "key-direction"; "cipher"; "data-ciphers"; "data-ciphers-fallback";
   "ncp-ciphers"; "auth"; "tls-timeout"; "hand-window"; "tran-window"; "tls-exit"; "reneg-sec"; "reneg-bytes"; "reneg-pkts"; "replay-window";
   "mute-replay-warnings"; "auth-nocache"; "comp-lzo"; "compress"; "allow-compression"; "tun-mtu"; "link-mtu"; "mssfix"; "fragment"; "tun-mtu-extra";
   "mtu-disc"; "sndbuf"; "rcvbuf"; "txqueuelen"; "ping"; "ping-restart"; "ping-exit"; "ping-timer-rem"; "keepalive"; "inactive"; "verb"; "mute"].
Definition ignored_directives : list string :=
  ["keysize"; "ncp-disable"; "key-method"; "redirect-gateway"; "redirect-private"; "route"; "route-ipv6"; "route-gateway"; "route-metric";
   "route-delay"; "route-method"; "route-nopull"; "route-noexec"; "pull-filter"; "dhcp-option"; "dns"; "block-outside-dns"; "register-dns";
   "block-ipv6"; "ip-win32"; "dhcp-renew"; "dhcp-release"; "user"; "group"; "auth-retry"; "setenv"; "setenv-safe"; "ignore-unknown-option";
   "echo"; "push-peer-info"].
Definition inline_directives : list string :=
  ["ca"; "cert"; "key"; "tls-auth"; "tls-crypt"; "tls-crypt-v2"; "pkcs12"; "extra-certs"; "crl-verify"; "peer-fingerprint"].

Definition mem (s : string) (l : list string) : bool := existsb (fun x => x =s? s) l.

Definition directives (name : string) : option policy :=
  if mem name kept_directives then Some Keep
  else if mem name ignored_directives then Some Ignore
  else if mem name inline_directives then Some Inline
  else None.

Definition refused_directives : list (string * list string) :=
  [("runs a script", ["up"; "down"; "up-restart"; "down-pre"; "route-up"; "route-pre-down"; "ipchange"; "tls-verify"; "auth-user-pass-verify";
                      "client-connect"; "client-disconnect"; "learn-address"]);
   ("enables scripts", ["script-security"]);
   ("loads a library", ["plugin"; "engine"; "providers"; "pkcs11-providers"]);
   ("runs a program", ["iproute"]);
   ("reads another file", ["config"]);
   ("changes directory", ["cd"]);
   ("changes root", ["chroot"]);
   ("detaches the process", ["daemon"]);
   ("writes a file", ["log"; "log-append"; "status"; "writepid"]);
   ("writes files", ["tmp-dir"]);
   ("reads a file", ["askpass"]);
   ("opens a device path", ["dev-node"]);
   ("static-key tunnels aren't supported", ["secret"]);
   ("challenge/response logins aren't supported yet", ["static-challenge"]);
   ("proxies aren't supported yet", ["http-proxy"; "socks-proxy"]);
   ("static tunnel addressing isn't supported", ["ifconfig"; "ifconfig-ipv6"]);
   ("<connection> blocks aren't supported yet", ["connection"])].

Definition refused (name : string) : option string := fst <$> List.find (fun e => mem name (snd e)) refused_directives.

(** ** Fields *)

Definition is_alnum (c : ascii) : bool := is_digit c || is_lower c || ((65 <=? code c) && (code c <=? 90)).
Definition is_hex (c : ascii) : bool :=
  is_digit c || ((97 <=? code c) && (code c <=? 102)) || ((65 <=? code c) && (code c <=? 70)).

Fixpoint last_char (s : string) : option ascii :=
  match s with EmptyString => None | String c EmptyString => Some c | String _ s' => last_char s' end.

Definition reHost (s : string) : bool :=
  match s, last_char s with
  | String c _, Some l =>
      is_alnum c && is_alnum l && (String.length s <=? 253)%nat &&
      str_forall (fun c => is_alnum c || is_char 46 c || is_char 45 c) s
  | _, _ => false
  end.

Definition reDevTun (s : string) : bool :=
  match CutPrefix (TrimPrefix s "u") "tun" with Some rest => str_forall is_digit rest | None => false end.

Definition reFingerprint (s : string) : bool :=
  let parts := Split s ":" in
  (20 <=? length parts)%nat && (length parts <=? 64)%nat &&
  forallb (fun p => (String.length p =? 2)%nat && str_forall is_hex p) parts.

Definition allFingerprints (args : list string) : bool :=
  forallb (fun a => forallb (fun f => (f =s? "") || reFingerprint f) (Split a ";")) args.

Definition checkArgs (args : list string) : option error :=
  if forallb (fun a => (String.length a <=? 512)%nat) args then None else Some (Errorf "argument too long" []).

Definition parsePort (args : list string) : option Z :=
  match args with
  | [a] => n ← Atoi a; if (0 <? n) && (n <? 65536) then Some n else None
  | _ => None
  end.

Definition normProto (args : list string) : option string :=
  match args with
  | [a] => if mem a ["udp"; "udp4"; "udp6"] then Some "udp"
           else if mem a ["tcp"; "tcp4"; "tcp6"; "tcp-client"; "tcp4-client"; "tcp6-client"] then Some "tcp"
           else None
  | _ => None
  end.

Definition IsAddr (host : string) : bool := bool_decide (is_Some (ParseAddr host)).

Definition checkRemoteAddr (host : string) : option error :=
  match ParseAddr host with
  | None => None
  | Some a =>
      if negb (Zone a =s? "") then Some (Errorf "remote %q has an IPv6 zone (%%…); use the plain address" [host])
      else let a := Unmap a in
           if IsLoopback a || IsLinkLocalUnicast a || IsMulticast a || IsUnspecified a || bool_decide (a = broadcast) then
             Some (Errorf "remote %s is a loopback, link-local, multicast or unspecified address; it can't be a VPN server" [host])
           else None
  end.

(** ** Reading the rows *)

Inductive item : Type :=
| IBlock (ln : Z) (tag : string) (body : list string)
| IDirective (ln : Z) (toks : list string)
| IBad (ln : Z) (msg : error).

(** The text before a final [>]. *)
Fixpoint before_gt (s : string) : option string :=
  match s with
  | EmptyString => None
  | String c EmptyString => if is_char 62 c then Some "" else None
  | String c s' => String c <$> before_gt s'
  end.

(** A row that opens a block: its tag. *)
Definition open_tag (raw : string) : option string :=
  match CutPrefix raw "<" with
  | Some rest => if HasPrefix raw "</" then None else before_gt rest
  | None => None
  end.

Definition close_row (tag row : string) : bool := TrimSpace row =s? ("</" +:+ tag +:+ ">").

(** [block] is the block that is open: its row, its tag, and its rows so far,
    the last one first. *)
Fixpoint scan (rows : list string) (ln : Z) (block : option (Z * string * list string)) : list item :=
  match rows with
  | [] => match block with Some (b, tag, _) => [IBad b (Errorf "<%s> is never closed" [tag])] | None => [] end
  | row :: rows' =>
      match block with
      | Some (b, tag, body) =>
          if close_row tag row then
            if existsb (fun r => HasPrefix (TrimSpace r) "</") body then [IBad b (Errorf "<%s> block looks malformed" [tag])]
            else IBlock b tag (rev body) :: scan rows' (ln + 1) None
          else scan rows' (ln + 1) (Some (b, tag, row :: body))
      | None =>
          let raw := TrimSpace row in
          match raw with
          | EmptyString => scan rows' (ln + 1) None
          | String c _ =>
              if comment_char c then scan rows' (ln + 1) None
              else match open_tag raw with
                   | Some tag => scan rows' (ln + 1) (Some (ln, tag, []))
                   | None =>
                       match tokenize raw with
                       | inl e => [IBad ln e]
                       | inr [] => scan rows' (ln + 1) None
                       | inr toks => IDirective ln toks :: scan rows' (ln + 1) None
                       end
                   end
          end
      end
  end.

(** [ReplaceAll(text, "\r\n", "\n")]. *)
Fixpoint replace_crlf (s : string) : string :=
  match s with
  | EmptyString => ""
  | String c s' =>
      match s' with
      | String c' s'' => if is_char 13 c && is_char 10 c' then String c' (replace_crlf s'') else String c (replace_crlf s')
      | EmptyString => String c ""
      end
  end.

Definition nl_char : ascii := ascii_of_nat 10.
Definition rows_of (text : string) : list string := Split (replace_crlf text) nl_char.

(** ** Parse *)

Record parse_state : Type := mkParseState {
  ps_lines : list line;
  ps_auth : bool;
  ps_user : string;
  ps_pass : string;
  ps_ignored : gset string;
  ps_verb : Z;
  ps_port : Z;
  ps_proto : string;
  ps_remotes : list (Z * list string);
  ps_dev : bool;
}.

Definition parse_start : parse_state := mkParseState [] false "" "" ∅ 0 1194 "udp" [] false.

Definition add_line (l : line) (p : parse_state) : parse_state :=
  mkParseState (ps_lines p ++ [l]) (ps_auth p) (ps_user p) (ps_pass p) (ps_ignored p) (ps_verb p) (ps_port p) (ps_proto p) (ps_remotes p) (ps_dev p).
Definition set_verb (v : Z) (p : parse_state) : parse_state :=
  mkParseState (ps_lines p) (ps_auth p) (ps_user p) (ps_pass p) (ps_ignored p) v (ps_port p) (ps_proto p) (ps_remotes p) (ps_dev p).
Definition set_port (n : Z) (p : parse_state) : parse_state :=
  mkParseState (ps_lines p) (ps_auth p) (ps_user p) (ps_pass p) (ps_ignored p) (ps_verb p) n (ps_proto p) (ps_remotes p) (ps_dev p).
Definition set_proto (pr : string) (p : parse_state) : parse_state :=
  mkParseState (ps_lines p) (ps_auth p) (ps_user p) (ps_pass p) (ps_ignored p) (ps_verb p) (ps_port p) pr (ps_remotes p) (ps_dev p).
Definition set_dev (p : parse_state) : parse_state :=
  mkParseState (ps_lines p) (ps_auth p) (ps_user p) (ps_pass p) (ps_ignored p) (ps_verb p) (ps_port p) (ps_proto p) (ps_remotes p) true.
Definition set_auth (p : parse_state) : parse_state :=
  mkParseState (ps_lines p) true (ps_user p) (ps_pass p) (ps_ignored p) (ps_verb p) (ps_port p) (ps_proto p) (ps_remotes p) (ps_dev p).
Definition set_inline_login (u w : string) (p : parse_state) : parse_state :=
  mkParseState (ps_lines p) true u w (ps_ignored p) (ps_verb p) (ps_port p) (ps_proto p) (ps_remotes p) (ps_dev p).
Definition add_ignored (n : string) (p : parse_state) : parse_state :=
  mkParseState (ps_lines p) (ps_auth p) (ps_user p) (ps_pass p) ({[n]} ∪ ps_ignored p) (ps_verb p) (ps_port p) (ps_proto p) (ps_remotes p) (ps_dev p).
Definition add_remote (r : Z * list string) (p : parse_state) : parse_state :=
  mkParseState (ps_lines p) (ps_auth p) (ps_user p) (ps_pass p) (ps_ignored p) (ps_verb p) (ps_port p) (ps_proto p) (ps_remotes p ++ [r]) (ps_dev p).

Definition maxProfileBytes : Z := 512 * 1024.
Definition maxRemotes : nat := 32.

Definition plain_line (name : string) (args : list string) : line := mkLine name args false "" false.

(** An inline block. The login keeps its password only when it has a second
    row. *)
Definition on_block (ln : Z) (tag : string) (body : list string) (p : parse_state) : ProfileError + parse_state :=
  let content := Join body nl_text in
  if tag =s? "auth-user-pass" then
    let ls := Split (TrimSpace content) nl_char in
    inr (set_inline_login (TrimSpace (default "" (ls !! 0%nat))) (match ls !! 1%nat with Some l => TrimSpace l | None => ps_pass p end) p)
  else if bool_decide (directives tag = Some Inline) then
    if TrimSpace content =s? "" then inl (mkProfileError ln (Errorf "<%s> block is empty" [tag]))
    else inr (add_line (mkLine tag [] true content false) p)
  else match refused tag with
       | Some why => inl (mkProfileError ln (Errorf "<%s>: %s" [tag; why]))
       | None => inl (mkProfileError ln (Errorf "unsupported inline block <%s>" [tag]))
       end.

(** The directives with a case of their own; [None] for the others. *)
Definition on_special (ln : Z) (name : string) (args : list string) (p : parse_state) : option (ProfileError + parse_state) :=
  let fail e := Some (inl (mkProfileError ln e)) in
  if name =s? "verb" then Some (inr (match Atoi (Join args "") with Some n => set_verb n p | None => p end))
  else if name =s? "dev" then
    match args with
    | [a] => if reDevTun a then Some (inr (add_line (plain_line "dev" ["tun"]) (set_dev p)))
             else fail (Errorf "only `dev tun` is supported (TAP/layer-2 tunnels are not)" [])
    | _ => fail (Errorf "only `dev tun` is supported (TAP/layer-2 tunnels are not)" [])
    end
  else if name =s? "dev-type" then
    match args with
    | [a] => if a =s? "tun" then Some (inr p) else fail (Errorf "only `dev-type tun` is supported" [])
    | _ => fail (Errorf "only `dev-type tun` is supported" [])
    end
  else if name =s? "proto" then
    match normProto args with
    | Some pr => Some (inr (set_proto pr p))
    | None => fail (Errorf "unsupported proto %q" [Join args " "])
    end
  else if (name =s? "port") || (name =s? "rport") then
    match parsePort args with
    | Some n => Some (inr (set_port n p))
    | None => fail (Errorf "invalid %s" [name])
    end
  else if (name =s? "lport") || (name =s? "bind") then Some (inr p)
  else if name =s? "remote" then
    if (length (ps_remotes p) =? maxRemotes)%nat then fail (Errorf "more than %d remote lines" [pretty maxRemotes])
    else Some (inr (add_line (mkLine "remote" [] false "" true) (add_remote (ln, args) p)))
  else if name =s? "auth-user-pass" then Some (inr (add_line (plain_line "auth-user-pass" []) (set_auth p)))
  else None.

(** The allowlist. *)
Definition on_listed (ln : Z) (name : string) (args : list string) (p : parse_state) : ProfileError + parse_state :=
  let fail e := inl (mkProfileError ln e) in
  match directives name with
  | None => fail (Errorf "unsupported directive %q" [name])
  | Some Ignore => inr (add_ignored name p)
  | Some pol =>
      if (name =s? "peer-fingerprint") && negb (bool_decide (args = [])) && allFingerprints args then inr (add_line (plain_line name args) p)
      else if bool_decide (pol = Inline) then
        if match args with a :: _ => negb (a =s? "[inline]") | [] => false end then
          fail (Errorf "%s refers to a file; inline it (riftroute tunnel add does this for you)" [name])
        else match args with
             | [_; dir] =>
                 if name =s? "tls-auth" then
                   if (dir =s? "0") || (dir =s? "1") then inr (add_line (plain_line "key-direction" [dir]) p)
                   else fail (Errorf "tls-auth key direction must be 0 or 1" [])
                 else inr p
             | _ => inr p
             end
      else match checkArgs args with
           | Some e => fail (Wrapf "%s: %v" [name] e)
           | None => inr (add_line (plain_line name args) p)
           end
  end.

Definition on_directive (ln : Z) (toks : list string) (p : parse_state) : ProfileError + parse_state :=
  match toks with
  | [] => inr p
  | first :: args =>
      let name := TrimPrefix first "--" in
      if HasPrefix name "management" then
        inl (mkProfileError ln (Errorf "%s: RiftRoute manages the openvpn process itself" [name]))
      else match refused name with
           | Some why => inl (mkProfileError ln (Errorf "%s is not allowed: %s" [name; why]))
           | None => match on_special ln name args p with Some res => res | None => on_listed ln name args p end
           end
  end.

Definition on_item (i : item) (p : parse_state) : ProfileError + parse_state :=
  match i with
  | IBlock ln tag body => on_block ln tag body p
  | IDirective ln toks => on_directive ln toks p
  | IBad ln msg => inl (mkProfileError ln msg)
  end.

Fixpoint interpret (items : list item) (p : parse_state) : ProfileError + parse_state :=
  match items with
  | [] => inr p
  | i :: items' => match on_item i p with inl e => inl e | inr p' => interpret items' p' end
  end.

(** One [remote] row, with the profile's port and protocol. *)
Definition make_remote (port : Z) (proto : string) (r : Z * list string) : ProfileError + Remote :=
  let '(ln, args) := r in
  let fail e := inl (mkProfileError ln e) in
  match args with
  | [] | _ :: _ :: _ :: _ :: _ => fail (Errorf "remote needs a host name or IP" [])
  | host :: rest =>
      if negb (IsAddr host || reHost host) then fail (Errorf "remote needs a host name or IP" [])
      else match checkRemoteAddr host with
           | Some e => fail e
           | None =>
               match (match rest with [] => Some port | a :: _ => parsePort [a] end),
                     (match rest with _ :: b => if bool_decide (b = []) then Some proto else normProto b | [] => Some proto end) with
               | None, _ => fail (Errorf "invalid remote port %q" [default "" (head rest)])
               | Some _, None => fail (Errorf "unsupported remote proto %q" [default "" (rest !! 1%nat)])
               | Some n, Some pr => inr (mkRemote host n pr)
               end
           end
  end.

Fixpoint make_remotes (port : Z) (proto : string) (rs : list (Z * list string)) : ProfileError + list Remote :=
  match rs with
  | [] => inr []
  | r :: rs' =>
      match make_remote port proto r with
      | inl e => inl e
      | inr rm => match make_remotes port proto rs' with inl e => inl e | inr l => inr (rm :: l) end
      end
  end.

(** What is left to do once every row is read. *)
Definition close_profile (p : parse_state) : ProfileError + OvpnProfile :=
  match make_remotes (ps_port p) (ps_proto p) (ps_remotes p) with
  | inl e => inl e
  | inr [] => inl (mkProfileError 0 (Errorf "profile has no `remote` server" []))
  | inr remotes =>
      inr (mkOvpnProfile (if ps_dev p then ps_lines p else plain_line "dev" ["tun"] :: ps_lines p) remotes (ps_auth p) (ps_user p) (ps_pass p)
             (slice_stable str_less (elements (ps_ignored p))) (ps_verb p))
  end.

Definition Parse (text : string) : ProfileError + OvpnProfile :=
  if maxProfileBytes <? Z.of_nat (String.length text) then
    inl (mkProfileError 0 (Errorf "profile is larger than %d KiB" [pretty (maxProfileBytes / 1024)]))
  else if negb (str_forall (fun c => negb (is_char 0 c)) text) then inl (mkProfileError 0 (Errorf "profile contains a NUL byte" []))
  else match interpret (scan (rows_of text) 1 None) parse_start with
       | inl e => inl e
       | inr p => close_profile p
       end.

(** ** Render *)

Record RenderOptions : Type := mkRenderOptions { ro_Remotes : list Remote; ro_Management : string; ro_IPv6 : bool }.

Definition RoutesNeedIPv6 (routes : list string) : bool :=
  existsb (fun r => match (match ParsePrefix r with Some p => Some (p_addr p) | None => ParseAddr r end) with
                    | Some a => Is6 a && negb (Is4In6 a)
                    | None => false
                    end) routes.

Definition row (s : string) : string := s +:+ nl_text.

(** [strings.Trim(s, "\n")]. *)
Fixpoint trim_left_nl (s : string) : string :=
  match s with
  | EmptyString => ""
  | String c s' => if Ascii.eqb c nl_char then trim_left_nl s' else s
  end.
Fixpoint trim_right_nl (s : string) : string :=
  match s with
  | EmptyString => ""
  | String c s' => match trim_right_nl s' with
                   | EmptyString => if Ascii.eqb c nl_char then "" else String c ""
                   | t => String c t
                   end
  end.
Definition trim_nl (s : string) : string := trim_right_nl (trim_left_nl s).

Fixpoint concat_rows (l : list string) : string := match l with [] => "" | x :: l' => x +:+ concat_rows l' end.

Definition directive_row (name : string) (args : list string) : string := row (name +:+ concat_rows (map (fun a => " " +:+ quote a) args)).

Definition remote_row (r : Remote) : string :=
  row ("remote " +:+ quote (rm_Host r) +:+ " " +:+ pretty (rm_Port r) +:+ " " +:+ quote (rm_Proto r)).

Definition block_rows (name body : string) : string :=
  row ("<" +:+ name +:+ ">") +:+ row (trim_nl body) +:+ row ("</" +:+ name +:+ ">").

(** The profile's lines: every remote at the first [remote] row. *)
Fixpoint render_lines (remotes : list Remote) (wroteRemotes : bool) (ls : list line) : string :=
  match ls with
  | [] => ""
  | l :: ls' =>
      if ln_remote l then
        (if wroteRemotes then "" else concat_rows (map remote_row remotes)) +:+ render_lines remotes true ls'
      else
        (if ln_block l then block_rows (ln_name l) (ln_body l) else directive_row (ln_name l) (ln_args l)) +:+
        render_lines remotes wroteRemotes ls'
  end.

Definition defaultDataCiphers : string := "AES-256-GCM:AES-128-GCM:CHACHA20-POLY1305".

Definition EqualFold (a b : string) : bool := ToLower a =s? ToLower b.

(** The last one-argument [cipher]. *)
Definition profile_cipher (ls : list line) : string :=
  fold_left (fun c l => if ln_name l =s? "cipher" then match ln_args l with [a] => a | _ => c end else c) ls "".

Definition cipherCompat (ls : list line) : string :=
  let cipher := profile_cipher ls in
  let has names := existsb (fun l => mem (ln_name l) names) ls in
  if (cipher =s? "") || EqualFold cipher "none" || EqualFold cipher "BF-CBC" then ""
  else
    (if has ["data-ciphers"; "ncp-ciphers"] then ""
     else row ("data-ciphers " +:+
               quote (if existsb (fun c => EqualFold c cipher) (Split defaultDataCiphers ":") then defaultDataCiphers
                      else defaultDataCiphers +:+ ":" +:+ cipher))) +:+
    (if has ["data-ciphers-fallback"] then "" else row ("data-ciphers-fallback " +:+ quote cipher)).

Definition dquoted (s : string) : string := String quote_char (s +:+ String quote_char "").

Definition pull_filter (s : string) : string := "pull-filter ignore " +:+ dquoted s.

(** RiftRoute's own block. *)
Definition fixed_rows (verb : Z) (o : RenderOptions) : list string :=
  ["# --- RiftRoute ---"; "route-nopull"; "route-noexec"; pull_filter "redirect-gateway"; pull_filter "redirect-private";
   pull_filter "dhcp-option"; pull_filter "dns"; pull_filter "block-outside-dns"; pull_filter "register-dns"] ++
  (if ro_IPv6 o then [] else [pull_filter "ifconfig-ipv6"; pull_filter "route-ipv6"]) ++
  ["script-security 1"; "persist-tun"; "auth-nocache"; "auth-retry none"; "verb " +:+ pretty (Z.min (Z.max verb 3) 5);
   "management " +:+ quote (ro_Management o) +:+ " unix"; "management-hold"; "management-query-passwords"; "management-signal"].

Definition header_row : string := "# Generated by riftrouted. Routes and DNS are managed by RiftRoute.".

Definition Render (p : OvpnProfile) (o : RenderOptions) : string :=
  let remotes := if bool_decide (ro_Remotes o = []) then pr_Remotes p else ro_Remotes o in
  row header_row +:+ render_lines remotes false (pr_lines p) +:+ cipherCompat (pr_lines p) +:+
  concat_rows (map row (fixed_rows (pr_verb p) o)).
