(* ===== verification/OvpnFacts.v ===== *)
(** * What openvpn is made to read

    Tokens written by [quote] are read back by [tokenize]; the rows of a
    rendered profile are exactly the directives the allowlist let through and
    RiftRoute's own block. *)

From Stdlib Require Import Ascii.
From S2P Require Import Prelude.
From S2P Require Import Netip NetipText Domain Provider Killswitch Update TunnelManager TunnelSession Ovpn.

(** ** Characters and words *)

(** Text without control characters but tabs. *)
Definition plain (s : string) : bool := str_forall (fun c => negb (control_char c)) s.
Definition word_char (c : ascii) : bool := negb (quoted_char c) && negb (control_char c).

Lemma str_forall_cons P c s : str_forall P (String c s) = P c && str_forall P s.
Proof. done. Qed.

Lemma str_forall_and P Q s : str_forall P s = true -> str_forall Q s = true -> str_forall (fun c => P c && Q c) s = true.
Proof.
  induction s as [|c s IH]; [done|]. rewrite !str_forall_cons, !andb_true_iff. intros [-> ?] [-> ?]. by rewrite IH.
Qed.

Lemma append_cons c s t : String c s +:+ t = String c (s +:+ t).
Proof. done. Qed.

Lemma cur_snoc (cur : string) c w : (cur +:+ String c "") +:+ w = cur +:+ String c w.
Proof. by rewrite append_assoc. Qed.

(** A step of the reader over an ordinary character. *)
Lemma tokens_word_char c s b cur :
  word_char c = true -> tokens_from Plain (String c s) b cur = tokens_from Plain s true (cur +:+ String c "").
Proof.
  unfold word_char, quoted_char. rewrite !andb_true_iff, !negb_true_iff, !orb_false_iff. intros [[[[[H1 H2] H3] H4] H5] H6].
  cbn [tokens_from]. by rewrite H6, H1, H5, H2, H3, H4.
Qed.

Lemma tokens_word w : forall t cur, str_forall word_char w = true -> tokens_from Plain (w +:+ t) true cur = tokens_from Plain t true (cur +:+ w).
Proof.
  induction w as [|c w IH]; intros t cur H; [by rewrite append_nil_r|].
  rewrite str_forall_cons, andb_true_iff in H. destruct H as [Hc H].
  rewrite append_cons, tokens_word_char by done. rewrite IH by done. by rewrite cur_snoc.
Qed.

Lemma tokens_word_start w t : w <> "" -> str_forall word_char w = true -> tokens_from Plain (w +:+ t) false "" = tokens_from Plain t true w.
Proof.
  destruct w as [|c w]; [done|]. intros _. rewrite str_forall_cons, andb_true_iff. intros [Hc H].
  rewrite append_cons, tokens_word_char by done. by rewrite tokens_word.
Qed.

(** Quoted text is read back as it was, whatever it holds. *)
Lemma tokens_escaped s : forall t b cur,
  tokens_from Double (mgmt_escape s +:+ String quote_char t) b cur = tokens_from Plain t true (cur +:+ s).
Proof.
  induction s as [|c s IH]; intros t b cur; [by rewrite append_nil_r|]. cbn [mgmt_escape].
  destruct (Ascii.eqb_spec c backslash) as [->|Hb]; cbn [orb].
  - rewrite !append_cons. change (tokens_from Double (String backslash (String backslash (mgmt_escape s +:+ String quote_char t))) b cur)
      with (tokens_from Double (mgmt_escape s +:+ String quote_char t) true (cur +:+ String backslash "")). by rewrite IH, cur_snoc.
  - destruct (Ascii.eqb_spec c quote_char) as [->|Hq].
    + rewrite !append_cons. change (tokens_from Double (String backslash (String quote_char (mgmt_escape s +:+ String quote_char t))) b cur)
        with (tokens_from Double (mgmt_escape s +:+ String quote_char t) true (cur +:+ String quote_char "")). by rewrite IH, cur_snoc.
    + rewrite append_cons. cbn [tokens_from]. rewrite (proj2 (Ascii.eqb_neq c backslash)), (proj2 (Ascii.eqb_neq c quote_char)) by done.
      by rewrite IH, cur_snoc.
Qed.

Lemma tokens_mgmtQuote s t b cur : tokens_from Plain (mgmtQuote s +:+ t) b cur = tokens_from Plain t true (cur +:+ s).
Proof.
  unfold mgmtQuote. rewrite append_cons. change (tokens_from Plain (String quote_char ((mgmt_escape s +:+ String quote_char "") +:+ t)) b cur)
    with (tokens_from Double ((mgmt_escape s +:+ String quote_char "") +:+ t) true cur).
  rewrite append_assoc. apply tokens_escaped.
Qed.

Lemma tokens_quote a t : plain a = true -> tokens_from Plain (quote a +:+ t) false "" = tokens_from Plain t true a.
Proof.
  intros Hp. unfold quote. case_match eqn:E; [|by rewrite tokens_mgmtQuote].
  apply andb_true_iff in E as [Hn Hq]. apply tokens_word_start; [by destruct a|]. by apply str_forall_and.
Qed.

Definition spaced (args : list string) : string := concat_rows (map (fun a => " " +:+ quote a) args).

Lemma tokens_spaced args : forall cur,
  forallb plain args = true -> tokens_from Plain (spaced args) true cur = inr (cur :: args).
Proof.
  induction args as [|a args IH]; intros cur H; [done|]. cbn [forallb] in H. apply andb_true_iff in H as [Ha H].
  unfold spaced. cbn [map concat_rows]. rewrite append_assoc, append_cons.
  change (tokens_from Plain (String " " ("" +:+ quote a +:+ concat_rows (map (fun a0 => " " +:+ quote a0) args))) true cur)
    with (match tokens_from Plain (quote a +:+ spaced args) false "" with inr l => inr (cur :: l) | inl e => inl e end).
  by rewrite tokens_quote, IH.
Qed.

Lemma tokenize_directive name args :
  name <> "" -> str_forall word_char name = true -> forallb plain args = true -> tokenize (name +:+ spaced args) = inr (name :: args).
Proof. intros Hn Hw Ha. unfold tokenize. rewrite tokens_word_start by done. by apply tokens_spaced. Qed.

(** ** Rows *)

Definition no_nl (s : string) : bool := str_forall (fun c => negb (Ascii.eqb c nl_char)) s.

Lemma plain_no_nl s : plain s = true -> no_nl s = true.
Proof. apply str_forall_impl. intros c H. by destruct (Ascii.eqb_spec c nl_char) as [->|]. Qed.

Lemma no_nl_app s t : no_nl (s +:+ t) = no_nl s && no_nl t.
Proof. apply str_forall_app. Qed.

Lemma split_on_row s t cur : no_nl s = true -> split_on nl_char (s +:+ String nl_char t) cur = (cur +:+ s) :: split_on nl_char t "".
Proof. apply split_on_sep. Qed.

Lemma split_on_last s cur : no_nl s = true -> split_on nl_char s cur = [cur +:+ s].
Proof. apply split_on_none. Qed.

Lemma Split_rows l : forallb no_nl l = true -> Split (concat_rows (map row l)) nl_char = l ++ [""].
Proof.
  unfold Split. induction l as [|x l IH]; intros H; [done|]. cbn [forallb] in H. apply andb_true_iff in H as [Hx H].
  cbn [map concat_rows]. unfold row at 1. rewrite append_assoc. change (nl_text +:+ concat_rows (map row l)) with (String nl_char (concat_rows (map row l))).
  rewrite split_on_row by done. by rewrite IH.
Qed.

Lemma concat_rows_app l1 l2 : concat_rows (l1 ++ l2) = concat_rows l1 +:+ concat_rows l2.
Proof. induction l1 as [|x l1 IH]; [done|]. cbn [app concat_rows]. by rewrite IH, append_assoc. Qed.

Lemma split_on_parts s : forall cur, no_nl cur = true -> forallb no_nl (split_on nl_char s cur) = true /\
  concat_rows (map row (split_on nl_char s cur)) = row (cur +:+ s).
Proof.
  induction s as [|c s IH]; intros cur Hc; cbn [split_on].
  - cbn. rewrite Hc. by rewrite !append_nil_r.
  - destruct (Ascii.eqb_spec c nl_char) as [->|Hn].
    + destruct (IH "" eq_refl) as [H1 H2]. cbn [forallb map concat_rows]. rewrite Hc, H1, H2. split; [done|].
      unfold row. by rewrite !append_assoc.
    + destruct (IH (cur +:+ String c "")) as [H1 H2].
      { rewrite no_nl_app, Hc. unfold no_nl. cbn [str_forall]. by destruct (Ascii.eqb_spec c nl_char). }
      by rewrite H1, H2, cur_snoc.
Qed.

(** ** Trimming *)

(** Text that ends in something other than a space. *)
Definition tight (s : string) : Prop := exists t c, s = t +:+ String c "" /\ is_space c = false.

Lemma tight_app s t : tight t -> tight (s +:+ t).
Proof. intros (u & c & -> & H). exists (s +:+ u), c. by rewrite append_assoc. Qed.

Lemma TrimRight_tight s : tight s -> TrimRight s = s.
Proof.
  intros (t & c & -> & H). induction t as [|d t IH]; cbn; [by rewrite H|].
  rewrite IH. destruct (t +:+ String c "") eqn:E; [by destruct t|done].
Qed.

Lemma TrimSpace_tight c s : is_space c = false -> tight (String c s) -> TrimSpace (String c s) = String c s.
Proof. intros Hc Ht. unfold TrimSpace. cbn [TrimLeft]. rewrite Hc. by apply TrimRight_tight. Qed.

Lemma word_char_space c : word_char c = true -> is_space c = false.
Proof.
  unfold word_char. rewrite andb_true_iff, !negb_true_iff. intros [H1 H2]. unfold quoted_char in H1. rewrite !orb_false_iff in H1.
  destruct H1 as ((((Hb & _) & _) & _) & _). unfold blank_char, is_char in Hb. unfold control_char in H2. unfold is_space.
  rewrite orb_false_iff, !Z.eqb_neq in *. rewrite andb_false_iff in H2. rewrite Z.ltb_ge, negb_false_iff, Z.eqb_eq in H2.
  rewrite andb_false_iff, !Z.leb_gt. lia.
Qed.

(** ** Rows the reader takes back *)

Definition name_like (c : ascii) : bool := is_lower c || is_digit c || Ascii.eqb c "-".
Definition dir_name (n : string) : bool := negb (n =s? "") && str_forall name_like n.

Lemma name_like_code c : name_like c = true -> code c = 45 \/ 48 <= code c <= 57 \/ 97 <= code c <= 122.
Proof.
  unfold name_like, is_lower, is_digit. rewrite !orb_true_iff, !andb_true_iff, !Z.leb_le.
  intros [[?|?]| ->%Ascii.eqb_eq]; [lia|lia|by left].
Qed.

Lemma name_like_word c : name_like c = true -> word_char c = true.
Proof.
  intros H%name_like_code. unfold word_char, quoted_char, control_char, blank_char, comment_char, is_char, single_quote.
  assert (forall d, code d <> code c -> Ascii.eqb c d = false) as Hd by (intros d Hd; apply Ascii.eqb_neq; by intros ->).
  rewrite (Hd quote_char), (Hd backslash) by (vm_compute code at 1; lia).
  rewrite andb_true_iff, !negb_true_iff, !orb_false_iff, !Z.eqb_neq, andb_false_iff, Z.ltb_ge. lia.
Qed.

Lemma dir_name_word n : dir_name n = true -> n <> "" /\ str_forall word_char n = true.
Proof.
  unfold dir_name. rewrite andb_true_iff, negb_true_iff, String.eqb_neq. intros [Hn H]. split; [done|].
  revert H. apply str_forall_impl. apply name_like_word.
Qed.

Lemma word_tight w : w <> "" -> str_forall word_char w = true -> tight w.
Proof.
  induction w as [|c w IH]; [done|]. intros _. rewrite str_forall_cons, andb_true_iff. intros [Hc Hw]. destruct w as [|d w].
  - exists "", c. split; [done|]. by apply word_char_space.
  - apply (tight_app (String c "")). by apply IH.
Qed.

Lemma quote_tight a : plain a = true -> tight (quote a).
Proof.
  intros Hp. unfold quote. case_match eqn:E.
  - apply andb_true_iff in E as [Hn Hq]. apply word_tight; [by destruct a|]. by apply str_forall_and.
  - unfold mgmtQuote. apply (tight_app (String quote_char (mgmt_escape a))). by exists "", quote_char.
Qed.

Lemma spaced_tight args : args <> [] -> forallb plain args = true -> tight (spaced args).
Proof.
  induction args as [|a args IH]; [done|]. intros _ H. cbn [forallb] in H. apply andb_true_iff in H as [Ha H].
  unfold spaced. cbn [map concat_rows]. destruct args as [|b args]; [|apply tight_app; by apply IH].
  cbn [map concat_rows]. rewrite append_nil_r. apply tight_app. by apply quote_tight.
Qed.

Lemma directive_tight name args : dir_name name = true -> forallb plain args = true -> tight (name +:+ spaced args).
Proof.
  intros [Hn Hw]%dir_name_word Ha. destruct args as [|a args]; [unfold spaced; cbn; rewrite append_nil_r; by apply word_tight|].
  apply tight_app. by apply spaced_tight.
Qed.

Inductive read_item : Type := RBlock (tag : string) (body : list string) | RDirective (toks : list string) | RBad (msg : error).
Definition unnumbered (i : item) : read_item :=
  match i with IBlock _ tag body => RBlock tag body | IDirective _ toks => RDirective toks | IBad _ msg => RBad msg end.

(** The rows as they are read, without their numbers. *)
Definition read (rows : list string) : list read_item := map unnumbered (scan rows 1 None).

Lemma scan_unnumbered rows : forall ln ln' (b b' : Z) (o : option (string * list string)),
  map unnumbered (scan rows ln ((fun x => (b, fst x, snd x)) <$> o)) = map unnumbered (scan rows ln' ((fun x => (b', fst x, snd x)) <$> o)).
Proof.
  induction rows as [|r rows IH]; intros ln ln' b b' [[tag body]|]; cbn [scan fmap option_fmap option_map fst snd]; try done.
  - case_match; [|apply (IH _ _ b b' (Some (tag, r :: body)))]. case_match; [done|]. cbn [map unnumbered]. f_equal.
    apply (IH _ _ b b' None).
  - destruct (TrimSpace r) as [|c raw]; [apply (IH _ _ b b' None)|]. case_match; [apply (IH _ _ b b' None)|].
    destruct (open_tag (String c raw)) as [tag|]; [apply (IH _ _ ln ln' (Some (tag, [])))|].
    destruct (tokenize (String c raw)) as [e|[|t toks]]; [done|apply (IH _ _ b b' None)|]. cbn [map unnumbered]. f_equal. apply (IH _ _ b b' None).
Qed.

Lemma read_from rows ln : map unnumbered (scan rows ln None) = read rows.
Proof. apply (scan_unnumbered rows ln 1 0 0 None). Qed.

Lemma open_tag_dir c s : name_like c = true -> open_tag (String c s) = None.
Proof.
  intros H%name_like_code. unfold open_tag. cbn [CutPrefix]. destruct (Ascii.eqb_spec "<" c) as [<-|]; [|done].
  exfalso. revert H. vm_compute code. lia.
Qed.

Lemma read_directive name args rows :
  dir_name name = true -> forallb plain args = true -> read ((name +:+ spaced args) :: rows) = RDirective (name :: args) :: read rows.
Proof.
  intros Hn Ha. pose proof (dir_name_word _ Hn) as [Hne Hw]. pose proof (directive_tight _ _ Hn Ha) as Ht.
  pose proof (tokenize_directive _ _ Hne Hw Ha) as Htok. unfold dir_name in Hn. rewrite andb_true_iff in Hn. destruct Hn as [_ Hn].
  destruct name as [|c name]; [done|]. rewrite str_forall_cons, andb_true_iff in Hn, Hw. destruct Hn as [Hc _], Hw as [Hwc _].
  unfold read. cbn [scan]. rewrite append_cons in *. rewrite TrimSpace_tight by (by try apply word_char_space).
  assert (comment_char c = false) as -> by (unfold comment_char, is_char; apply name_like_code in Hc; rewrite orb_false_iff, !Z.eqb_neq; lia).
  rewrite (open_tag_dir c) by done. rewrite Htok. cbn [map unnumbered]. by rewrite read_from.
Qed.

(** A block's row. *)
Definition body_row (r : string) : bool := plain r && negb (HasPrefix (TrimSpace r) "</").

Lemma CutPrefix_nil s : CutPrefix s "" = Some s.
Proof. by destruct s. Qed.

Lemma close_row_closes tag : close_row tag ("</" +:+ tag +:+ ">") = true.
Proof.
  unfold close_row. cbn [String.append]. rewrite TrimSpace_tight; [apply String.eqb_refl|done|].
  apply (tight_app (String "<" (String "/" tag))). by exists "", ">"%char.
Qed.

Lemma scan_body tag body rows : forall ln b acc,
  forallb body_row body = true -> forallb body_row acc = true ->
  map unnumbered (scan (body ++ ("</" +:+ tag +:+ ">") :: rows) ln (Some (b, tag, acc))) = RBlock tag (rev acc ++ body) :: read rows.
Proof.
  induction body as [|r body IH]; intros ln b acc Hb Ha.
  - cbn [app scan]. rewrite close_row_closes. rewrite app_nil_r.
    replace (existsb _ acc) with false; [cbn [map unnumbered]; by rewrite read_from|].
    symmetry. apply not_true_iff_false. rewrite existsb_exists. intros (x & Hx & H). rewrite forallb_forall in Ha.
    specialize (Ha x Hx). unfold body_row in Ha. rewrite H, andb_false_r in Ha. done.
  - cbn [forallb] in Hb. apply andb_true_iff in Hb as [Hr Hb]. cbn [app scan].
    replace (close_row tag r) with false.
    + rewrite IH; [|done|by cbn [forallb]; rewrite Hr]. cbn [rev]. by rewrite <- app_assoc.
    + symmetry. apply not_true_iff_false. unfold close_row. intros E%String.eqb_eq. unfold body_row in Hr.
      rewrite E, HasPrefix_app, andb_false_r in Hr. done.
Qed.

Lemma before_gt_app s : before_gt (s +:+ ">") = Some s.
Proof.
  induction s as [|c s IH]; [done|]. rewrite append_cons. cbn [before_gt]. destruct (s +:+ ">") eqn:E; [by destruct s|]. by rewrite IH.
Qed.

Lemma read_block tag body rows :
  dir_name tag = true -> forallb body_row body = true ->
  read (("<" +:+ tag +:+ ">") :: body ++ ("</" +:+ tag +:+ ">") :: rows) = RBlock tag body :: read rows.
Proof.
  intros Hn Hb. unfold read. cbn [scan]. rewrite !append_cons. cbn [String.append].
  rewrite TrimSpace_tight; [|done|apply (tight_app (String "<" tag)); by exists "", ">"%char].
  change (comment_char "<") with false. cbv iota.
  assert (open_tag (String "<" (tag +:+ ">")) = Some tag) as ->; [|by apply scan_body].
  unfold open_tag. cbn [CutPrefix Ascii.eqb Bool.eqb andb]. rewrite CutPrefix_nil, before_gt_app. unfold dir_name in Hn. rewrite andb_true_iff in Hn. destruct Hn as [Hne Hn].
  destruct tag as [|c tag]; [done|]. rewrite str_forall_cons, andb_true_iff in Hn. destruct Hn as [Hc _].
  unfold HasPrefix. rewrite append_cons. cbn [CutPrefix]. rewrite Ascii.eqb_refl. destruct (Ascii.eqb_spec "/" c) as [<-|]; [done|].
  rewrite bool_decide_eq_false_2; [done|by intros []].
Qed.

(** ** Numbers *)

Lemma pretty_Z_name (z : Z) : dir_name (pretty z) = true.
Proof.
  unfold dir_name. rewrite pretty_Z_chars; [|intros c Hc; unfold name_like; by rewrite Hc, orb_true_r|done].
  by destruct (String.eqb_spec (pretty z) "") as [E%pretty_Z_nonempty|].
Qed.

Lemma quote_name n : dir_name n = true -> quote n = n /\ plain n = true.
Proof.
  intros Hn. pose proof (dir_name_word n Hn) as [Hne Hw].
  assert (str_forall (fun c => negb (quoted_char c)) n = true /\ plain n = true) as [Hq Hp].
  { split; (eapply str_forall_impl; [|exact Hw]); intros c; unfold word_char; rewrite andb_true_iff; tauto. }
  split; [|done]. unfold quote. rewrite Hq. by destruct (String.eqb_spec n "").
Qed.

(** ** Text that reads as given items *)

(** [s] is whole rows, which read as [items] wherever they stand. *)
Definition reads (s : string) (items : list read_item) : Prop :=
  exists rows, s = concat_rows (map row rows) /\ forallb plain rows = true /\ forall rest, read (rows ++ rest) = items ++ read rest.

Lemma reads_nil : reads "" [].
Proof. by exists []. Qed.

Lemma reads_app s t i j : reads s i -> reads t j -> reads (s +:+ t) (i ++ j).
Proof.
  intros (rs & -> & Ps & Hs) (rt & -> & Pt & Ht). exists (rs ++ rt). split_and!.
  - by rewrite map_app, concat_rows_app.
  - by rewrite forallb_app, Ps, Pt.
  - intros rest. by rewrite <- !app_assoc, Hs, Ht.
Qed.

Lemma plain_app s t : plain (s +:+ t) = plain s && plain t.
Proof. apply str_forall_app. Qed.

Lemma plain_escape s : plain (mgmt_escape s) = plain s.
Proof.
  induction s as [|c s IH]; [done|]. cbn [mgmt_escape]. unfold plain in *. case_match eqn:E; cbn [str_forall]; rewrite IH; [|done].
  by destruct (Ascii.eqb_spec c backslash) as [->|]; [|destruct (Ascii.eqb_spec c quote_char) as [->|]].
Qed.

Lemma plain_quote a : plain (quote a) = plain a.
Proof.
  unfold quote. case_match; [done|]. unfold mgmtQuote. change (plain (String quote_char (mgmt_escape a +:+ String quote_char "")))
    with (plain (mgmt_escape a +:+ String quote_char "")). by rewrite plain_app, plain_escape, andb_true_r.
Qed.

Lemma plain_spaced args : plain (spaced args) = forallb plain args.
Proof.
  unfold spaced. induction args as [|a args IH]; [done|]. cbn [map concat_rows forallb]. rewrite append_assoc, append_cons.
  change (plain (String " " ("" +:+ quote a +:+ concat_rows (map (fun a0 => " " +:+ quote a0) args))))
    with (plain (quote a +:+ concat_rows (map (fun a0 => " " +:+ quote a0) args))). by rewrite plain_app, plain_quote, IH.
Qed.

Lemma reads_row x items : plain x = true -> (forall rest, read (x :: rest) = items ++ read rest) -> reads (row x) items.
Proof. intros Hx H. exists [x]. split_and!; [cbn; by rewrite append_nil_r|cbn; by rewrite Hx|done]. Qed.

Lemma reads_directive name args :
  dir_name name = true -> forallb plain args = true -> reads (directive_row name args) [RDirective (name :: args)].
Proof.
  intros Hn Ha. apply reads_row.
  - rewrite plain_app. destruct (quote_name name Hn) as [_ ->]. change (plain (spaced args) = true). by rewrite plain_spaced.
  - intros rest. by apply read_directive.
Qed.

Lemma reads_remote r :
  plain (rm_Host r) = true -> plain (rm_Proto r) = true ->
  reads (remote_row r) [RDirective ["remote"; rm_Host r; pretty (rm_Port r); rm_Proto r]].
Proof.
  intros Hh Hp. destruct (quote_name _ (pretty_Z_name (rm_Port r))) as [Eq Epl].
  assert (remote_row r = directive_row "remote" [rm_Host r; pretty (rm_Port r); rm_Proto r]) as ->.
  { unfold remote_row, directive_row. cbn [map concat_rows]. rewrite Eq, append_nil_r. by rewrite !append_assoc. }
  apply reads_directive; [done|]. cbn [forallb]. by rewrite Hh, Epl, Hp.
Qed.

Lemma reads_block tag body :
  dir_name tag = true -> forallb body_row (Split (trim_nl body) nl_char) = true ->
  reads (block_rows tag body) [RBlock tag (Split (trim_nl body) nl_char)].
Proof.
  intros Hn Hb. exists (("<" +:+ tag +:+ ">") :: Split (trim_nl body) nl_char ++ ["</" +:+ tag +:+ ">"]). destruct (quote_name tag Hn) as [_ Hp]. split_and!.
  - unfold block_rows. cbn [map concat_rows]. rewrite map_app, concat_rows_app. cbn [map concat_rows]. rewrite append_nil_r.
    destruct (split_on_parts (trim_nl body) "" eq_refl) as [_ E]. unfold Split. by rewrite E.
  - cbn [forallb]. rewrite forallb_app. cbn [forallb].
    assert (plain ("<" +:+ tag +:+ ">") = true /\ plain ("</" +:+ tag +:+ ">") = true) as [-> ->].
    { split; cbn [String.append]; unfold plain in *; cbn [str_forall]; rewrite str_forall_app, Hp; done. }
    rewrite andb_true_r. cbn [andb]. rewrite forallb_forall in Hb |- *. intros x Hx. specialize (Hb x Hx). unfold body_row in Hb.
    by apply andb_true_iff in Hb as [? _].
  - intros rest. cbn [app]. rewrite <- app_assoc. cbn [app]. by apply read_block.
Qed.

Lemma reads_comment x : plain x = true -> tight (String "#" x) -> reads (row (String "#" x)) [].
Proof.
  intros Hp Ht. apply reads_row; [done|]. intros rest. unfold read. cbn [scan]. rewrite TrimSpace_tight by done. apply read_from.
Qed.

Lemma read_raw c x t toks rest :
  TrimSpace (String c x) = String c x -> comment_char c = false -> open_tag (String c x) = None -> tokenize (String c x) = inr (t :: toks) ->
  read (String c x :: rest) = RDirective (t :: toks) :: read rest.
Proof. intros H1 H2 H3 H4. unfold read. cbn [scan]. rewrite H1, H2, H3, H4. cbn [map unnumbered]. by rewrite read_from. Qed.

(** Trimming newlines only drops rows. *)
Lemma trim_right_rows s : forall cur x, x ∈ split_on nl_char (trim_right_nl s) cur -> x ∈ split_on nl_char s cur.
Proof.
  induction s as [|c s IH]; intros cur x; [done|]. cbn [trim_right_nl split_on]. destruct (trim_right_nl s) as [|d t] eqn:E.
  - destruct (Ascii.eqb_spec c nl_char) as [->|Hc]; cbn [split_on].
    + rewrite list_elem_of_singleton. intros ->. by left.
    + rewrite (proj2 (Ascii.eqb_neq c nl_char)) by done. apply (IH (cur +:+ String c "")).
  - cbn [split_on]. destruct (Ascii.eqb_spec c nl_char) as [->|Hc]; [|apply IH].
    rewrite !elem_of_cons. intros [?|?]; [by left|]. right. by apply (IH "").
Qed.

Lemma trim_left_rows s x : x ∈ split_on nl_char (trim_left_nl s) "" -> x ∈ split_on nl_char s "".
Proof.
  induction s as [|c s IH]; [done|]. cbn [trim_left_nl]. destruct (Ascii.eqb_spec c nl_char) as [->|]; [|done].
  intros H. cbn [split_on]. rewrite Ascii.eqb_refl. right. by apply IH.
Qed.

Lemma trim_rows P s : forallb P (Split s nl_char) = true -> forallb P (Split (trim_nl s) nl_char) = true.
Proof.
  rewrite !forallb_forall. intros H x Hx. apply H. apply list_elem_of_In in Hx. apply list_elem_of_In.
  apply trim_left_rows. by apply trim_right_rows.
Qed.

(** ** A rendered profile *)

(** The directives a profile may leave for openvpn. *)
Definition permitted (name : string) : bool :=
  mem name ["dev"; "auth-user-pass"; "peer-fingerprint"] || bool_decide (directives name = Some Keep).

Definition fingerprint_char (c : ascii) : bool := is_hex c || is_char 58 c || is_char 59 c.

(** What the directives with a case of their own may carry. *)
Definition args_ok (name : string) (args : list string) : bool :=
  if name =s? "dev" then bool_decide (args = ["tun"])
  else if name =s? "auth-user-pass" then bool_decide (args = [])
  else if name =s? "peer-fingerprint" then forallb (str_forall fingerprint_char) args
  else true.

Definition line_ok (l : line) : bool :=
  if ln_remote l then true
  else if ln_block l then bool_decide (directives (ln_name l) = Some Inline) && forallb body_row (Split (ln_body l) nl_char)
  else permitted (ln_name l) && args_ok (ln_name l) (ln_args l) && forallb plain (ln_args l).

Definition remote_ok (r : Remote) : bool := plain (rm_Host r) && plain (rm_Proto r).

Fixpoint render_items (remotes : list Remote) (wrote : bool) (ls : list line) : list read_item :=
  match ls with
  | [] => []
  | l :: ls' =>
      if ln_remote l then
        (if wrote then [] else map (fun r => RDirective ["remote"; rm_Host r; pretty (rm_Port r); rm_Proto r]) remotes) ++ render_items remotes true ls'
      else
        (if ln_block l then RBlock (ln_name l) (Split (trim_nl (ln_body l)) nl_char) else RDirective (ln_name l :: ln_args l)) ::
        render_items remotes wrote ls'
  end.

Lemma mem_In s l : mem s l = true -> s ∈ l.
Proof. unfold mem. rewrite existsb_exists. intros (x & Hx & ->%String.eqb_eq). by apply list_elem_of_In. Qed.

Lemma mem_dir_name l n : forallb dir_name l = true -> mem n l = true -> dir_name n = true.
Proof. rewrite forallb_forall. intros H Hn. apply H. apply list_elem_of_In. by apply mem_In. Qed.

Lemma directives_name n pol : directives n = Some pol -> dir_name n = true.
Proof.
  unfold directives. repeat case_match; intros [= <-]; eapply mem_dir_name; [|eassumption| |eassumption| |eassumption]; vm_compute; reflexivity.
Qed.

Lemma permitted_name n : permitted n = true -> dir_name n = true.
Proof.
  unfold permitted. rewrite orb_true_iff, bool_decide_eq_true. intros [H|H]; [|by eapply directives_name].
  eapply mem_dir_name; [|exact H]. vm_compute. reflexivity.
Qed.

Lemma reads_lines remotes ls : forall wrote,
  forallb remote_ok remotes = true -> forallb line_ok ls = true -> reads (render_lines remotes wrote ls) (render_items remotes wrote ls).
Proof.
  induction ls as [|l ls IH]; intros wrote Hr Hl; [apply reads_nil|]. cbn [forallb] in Hl. apply andb_true_iff in Hl as [Hl Hls].
  cbn [render_lines render_items]. unfold line_ok in Hl. destruct (ln_remote l).
  - apply reads_app; [|by apply IH]. destruct wrote; [apply reads_nil|]. clear IH Hl Hls. induction remotes as [|r rs IHr]; [apply reads_nil|].
    cbn [forallb] in Hr. apply andb_true_iff in Hr as [Hr Hrs]. unfold remote_ok in Hr. apply andb_true_iff in Hr as [H1 H2].
    cbn [map concat_rows]. apply (reads_app _ _ [_]); [by apply reads_remote|by apply IHr].
  - apply (reads_app _ _ [_]); [|by apply IH]. destruct (ln_block l).
    + apply andb_true_iff in Hl as [Hi%bool_decide_eq_true Hb]. apply reads_block; [by eapply directives_name|by apply trim_rows].
    + apply andb_true_iff in Hl as [Hp Ha]. apply andb_true_iff in Hp as [Hp _]. apply reads_directive; [by apply permitted_name|done].
Qed.

(** What [cipherCompat] adds. *)
Definition cipher_items (ls : list line) : list read_item :=
  let cipher := profile_cipher ls in
  let has names := existsb (fun l => mem (ln_name l) names) ls in
  if (cipher =s? "") || EqualFold cipher "none" || EqualFold cipher "BF-CBC" then []
  else
    (if has ["data-ciphers"; "ncp-ciphers"] then []
     else [RDirective ["data-ciphers"; if existsb (fun c => EqualFold c cipher) (Split defaultDataCiphers ":") then defaultDataCiphers
                                       else defaultDataCiphers +:+ ":" +:+ cipher]]) ++
    (if has ["data-ciphers-fallback"] then [] else [RDirective ["data-ciphers-fallback"; cipher]]).

Lemma profile_cipher_plain ls : forallb line_ok ls = true -> (forall l, l ∈ ls -> ln_remote l = true \/ ln_block l = true -> ln_args l = []) ->
  plain (profile_cipher ls) = true.
Proof.
  unfold profile_cipher. intros H Ha.
  enough (forall c, plain c = true -> plain (fold_left (fun c l => if ln_name l =s? "cipher" then match ln_args l with [a] => a | _ => c end else c) ls c) = true)
    as Hall by (by apply Hall).
  revert H Ha. induction ls as [|l ls IH]; intros H Ha c Hc; [done|]. cbn [forallb fold_left] in *. apply andb_true_iff in H as [Hl Hls].
  apply IH; [done|intros; apply Ha; [by right|done]|]. case_match; [|done]. destruct (ln_args l) as [|a [|]] eqn:E; try done.
  unfold line_ok in Hl. destruct (ln_remote l) eqn:Er; [by rewrite (Ha l) in E by (auto; by left)|].
  destruct (ln_block l) eqn:Eb; [by rewrite (Ha l) in E by (auto; by left)|].
  apply andb_true_iff in Hl as [_ Hp]. rewrite E in Hp. cbn in Hp. by rewrite andb_true_r in Hp.
Qed.

Lemma one_arg_row name a : row ((name +:+ " ") +:+ quote a) = directive_row name [a].
Proof. unfold directive_row. cbn [map concat_rows]. by rewrite append_nil_r, append_assoc. Qed.

Lemma reads_cipher ls : plain (profile_cipher ls) = true -> reads (cipherCompat ls) (cipher_items ls).
Proof.
  intros Hp. unfold cipherCompat, cipher_items. case_match; [apply reads_nil|]. apply reads_app.
  - case_match; [apply reads_nil|]. set (v := if existsb _ _ then _ else _). assert (plain v = true) as Hv by (subst v; case_match; [done|]; by rewrite !plain_app, Hp). clearbody v.
    change "data-ciphers " with ("data-ciphers" +:+ " "). rewrite one_arg_row. apply reads_directive; [done|].
    cbn [forallb]. by rewrite Hv.
  - case_match; [apply reads_nil|]. change "data-ciphers-fallback " with ("data-ciphers-fallback" +:+ " ").
    rewrite one_arg_row. apply reads_directive; [done|]. cbn [forallb]. by rewrite Hp.
Qed.

(** RiftRoute's own directives. *)
Definition fixed_items (verb : Z) (o : RenderOptions) : list read_item :=
  let filter s := RDirective ["pull-filter"; "ignore"; s] in
  [RDirective ["route-nopull"]; RDirective ["route-noexec"]; filter "redirect-gateway"; filter "redirect-private"; filter "dhcp-option";
   filter "dns"; filter "block-outside-dns"; filter "register-dns"] ++
  (if ro_IPv6 o then [] else [filter "ifconfig-ipv6"; filter "route-ipv6"]) ++
  [RDirective ["script-security"; "1"]; RDirective ["persist-tun"]; RDirective ["auth-nocache"]; RDirective ["auth-retry"; "none"];
   RDirective ["verb"; pretty (Z.min (Z.max verb 3) 5)]; RDirective ["management"; ro_Management o; "unix"];
   RDirective ["management-hold"]; RDirective ["management-query-passwords"]; RDirective ["management-signal"]].

Lemma reads_const x t toks :
  plain x = true -> TrimSpace x = x -> match x with String c _ => comment_char c = false | EmptyString => False end -> open_tag x = None ->
  tokenize x = inr (t :: toks) -> reads (row x) [RDirective (t :: toks)].
Proof. intros Hp H1 H2 H3 H4. destruct x as [|c x]; [done|]. apply reads_row; [done|]. intros rest. by apply read_raw. Qed.

Lemma reads_rows_app l1 l2 i j : reads (concat_rows (map row l1)) i -> reads (concat_rows (map row l2)) j -> reads (concat_rows (map row (l1 ++ l2))) (i ++ j).
Proof. rewrite map_app, concat_rows_app. apply reads_app. Qed.

Lemma reads_fixed verb o : plain (ro_Management o) = true -> reads (concat_rows (map row (fixed_rows verb o))) (fixed_items verb o).
Proof.
  intros Hm. unfold fixed_rows, fixed_items.
  assert (forall x l i j, reads (row x) i -> reads (concat_rows (map row l)) j -> reads (concat_rows (map row (x :: l))) (i ++ j)) as Hcons
    by (intros; by apply reads_app).
  apply reads_rows_app; [|apply reads_rows_app].
  - apply (Hcons _ _ []); [apply reads_comment; [done|by exists "# --- RiftRoute --", "-"%char]|].
    repeat (apply (Hcons _ _ [_]); [apply reads_const; vm_compute; reflexivity|]). apply reads_nil.
  - destruct (ro_IPv6 o); [apply reads_nil|].
    repeat (apply (Hcons _ _ [_]); [apply reads_const; vm_compute; reflexivity|]). apply reads_nil.
  - do 4 (apply (Hcons _ _ [_]); [apply reads_const; vm_compute; reflexivity|]).
    apply (Hcons _ _ [_]).
    { destruct (quote_name _ (pretty_Z_name (Z.min (Z.max verb 3) 5))) as [Eq Epl]. rewrite <- Eq at 1.
      change "verb " with ("verb" +:+ " ").
      rewrite one_arg_row. apply reads_directive; [done|]. cbn [forallb]. by rewrite Epl. }
    apply (Hcons _ _ [_]).
    { assert (row ("management " +:+ quote (ro_Management o) +:+ " unix") = directive_row "management" [ro_Management o; "unix"]) as ->.
      { unfold directive_row. cbn [map concat_rows]. by rewrite !append_assoc. }
      apply reads_directive; [done|]. cbn [forallb]. by rewrite Hm. }
    repeat (apply (Hcons _ _ [_]); [apply reads_const; vm_compute; reflexivity|]). apply reads_nil.
Qed.

Lemma replace_crlf_rows rows : forallb plain rows = true -> replace_crlf (concat_rows (map row rows)) = concat_rows (map row rows).
Proof.
  intros H. assert (str_forall (fun c => negb (is_char 13 c)) (concat_rows (map row rows)) = true) as Hc.
  { induction rows as [|r rows IH]; [done|]. cbn [forallb] in H. apply andb_true_iff in H as [Hr H]. cbn [map concat_rows]. unfold row at 1.
    rewrite !str_forall_app, IH by done. rewrite andb_true_r. cbn. rewrite andb_true_r. revert Hr. apply str_forall_impl.
    intros c. unfold control_char, is_char. rewrite !negb_true_iff, orb_false_iff, andb_false_iff, Z.ltb_ge, negb_false_iff, Z.eqb_eq, !Z.eqb_neq. lia. }
  revert Hc. generalize (concat_rows (map row rows)). intros s. induction s as [|c s IH]; [done|]. rewrite str_forall_cons, andb_true_iff, negb_true_iff.
  intros [Hc Hs]. cbn [replace_crlf]. rewrite Hc. cbn [andb]. rewrite IH by done. by destruct s.
Qed.

Lemma read_reads s items : reads s items -> read (rows_of s) = items.
Proof.
  intros (rows & -> & Hp & H). unfold rows_of. rewrite replace_crlf_rows by done.
  rewrite Split_rows; [rewrite H; by rewrite app_nil_r|]. rewrite forallb_forall in Hp |- *. intros x Hx. by apply plain_no_nl, Hp.
Qed.

Definition profile_ok (p : OvpnProfile) : Prop :=
  forallb line_ok (pr_lines p) = true /\ forallb remote_ok (pr_Remotes p) = true /\
  (forall l, l ∈ pr_lines p -> ln_remote l = true \/ ln_block l = true -> ln_args l = []).

Definition options_ok (o : RenderOptions) : Prop := forallb remote_ok (ro_Remotes o) = true /\ plain (ro_Management o) = true.

Definition dialed (p : OvpnProfile) (o : RenderOptions) : list Remote := if bool_decide (ro_Remotes o = []) then pr_Remotes p else ro_Remotes o.

Lemma Render_reads p o : profile_ok p -> options_ok o ->
  read (rows_of (Render p o)) = render_items (dialed p o) false (pr_lines p) ++ cipher_items (pr_lines p) ++ fixed_items (pr_verb p) o.
Proof.
  intros (Hl & Hr & Ha) (Ho & Hm). apply read_reads. unfold Render. apply (reads_app _ _ []).
  - apply reads_comment; [done|]. by exists "# Generated by riftrouted. Routes and DNS are managed by RiftRoute", "."%char.
  - apply reads_app; [|apply reads_app].
    + apply reads_lines; [|done]. unfold dialed. by case_match.
    + apply reads_cipher. by apply profile_cipher_plain.
    + by apply reads_fixed.
Qed.

(** ** What Parse keeps *)

Lemma TrimSpace_forall P s : str_forall P s = true -> str_forall P (TrimSpace s) = true.
Proof.
  assert (forall t, str_forall P t = true -> str_forall P (TrimLeft t) = true) as Hl.
  { induction t as [|c t IH]; [done|]. intros H. cbn [TrimLeft]. rewrite str_forall_cons, andb_true_iff in H. destruct H as [Hc H].
    case_match; [by apply IH|]. by rewrite str_forall_cons, Hc. }
  assert (forall t, str_forall P t = true -> str_forall P (TrimRight t) = true) as Hr.
  { induction t as [|c t IH]; [done|]. rewrite str_forall_cons, andb_true_iff. intros [Hc H]. specialize (IH H). cbn [TrimRight].
    destruct (TrimRight t); [case_match; [done|by cbn; rewrite Hc]|]. by rewrite str_forall_cons, Hc. }
  intros H. by apply Hr, Hl.
Qed.

Lemma tokens_plain n : forall q s b cur l, (String.length s <= n)%nat -> plain s = true -> plain cur = true ->
  tokens_from q s b cur = inr l -> forallb plain l = true.
Proof.
  assert (forall (cur : string) c, plain cur = true -> control_char c = false -> plain (cur +:+ String c "") = true) as Hs.
  { intros cur c Hc Hd. rewrite plain_app, Hc. unfold plain. cbn [str_forall]. by rewrite Hd. }
  induction n as [|n IH]; intros q [|c s] b cur l Hl Hp Hc E; cbn [String.length] in Hl; try lia.
  1,2: destruct q; try done; destruct b; injection E as <-; cbn; by rewrite ?Hc.
  unfold plain in Hp. rewrite str_forall_cons, andb_true_iff, negb_true_iff in Hp. destruct Hp as [Hd Hp]. cbn [tokens_from] in E.
  assert (forall q b cur l, plain cur = true -> tokens_from q s b cur = inr l -> forallb plain l = true) as Hn
    by (intros; eapply (IH _ s); [lia|done..]).
  assert (forall q b c' s'' l, s = String c' s'' -> tokens_from q s'' b (cur +:+ String c' "") = inr l -> forallb plain l = true) as Hn2.
  { intros q' b' c' s'' l' -> E'. unfold plain in Hp. rewrite str_forall_cons, andb_true_iff, negb_true_iff in Hp. destruct Hp as [Hd' Hp].
    eapply (IH q' s''); [cbn [String.length] in Hl; lia|done| |exact E']. by apply Hs. }
  destruct q.
  - rewrite Hd in E. destruct (blank_char c).
    { destruct b; [|eapply Hn; [|exact E]; done]. destruct (tokens_from Plain s false "") as [|l'] eqn:E'; [done|]. injection E as <-. cbn. rewrite Hc. eapply Hn; [|exact E']; done. }
    destruct (comment_char c && negb b); [by injection E as <-|]. destruct (Ascii.eqb c quote_char); [by eapply Hn|].
    destruct (is_char single_quote c); [by eapply Hn|]. destruct (Ascii.eqb c backslash).
    + destruct s as [|c' s'']; [|eapply Hn2; [reflexivity|exact E]]. injection E as <-. cbn. by rewrite Hs.
    + eapply Hn; [|exact E]. by apply Hs.
  - destruct (Ascii.eqb c backslash); [destruct s as [|c' s'']; [done|eapply Hn2; [reflexivity|exact E]]|]. destruct (Ascii.eqb c quote_char); [by eapply Hn|].
    eapply Hn; [|exact E]. by apply Hs.
  - destruct (is_char single_quote c); [by eapply Hn|]. eapply Hn; [|exact E]. by apply Hs.
Qed.

Definition item_ok (i : item) : bool :=
  match i with IBlock _ _ body => forallb body_row body | IDirective _ toks => forallb plain toks | IBad _ _ => true end.

Lemma forallb_rev {A} (f : A -> bool) l : forallb f (rev l) = forallb f l.
Proof. induction l as [|x l IH]; [done|]. cbn [rev]. rewrite forallb_app, IH. cbn. by rewrite andb_true_r, andb_comm. Qed.

Lemma scan_items_ok rows : forall ln block,
  forallb plain rows = true -> match block with Some (_, _, body) => forallb plain body = true | None => True end ->
  forallb item_ok (scan rows ln block) = true.
Proof.
  induction rows as [|r rows IH]; intros ln block Hp Hb; cbn [scan]; [by destruct block as [[[? ?] ?]|]|].
  cbn [forallb] in Hp. apply andb_true_iff in Hp as [Hr Hp]. destruct block as [[[b tag] body]|].
  - case_match; [|apply IH; [done|]; cbn [forallb]; by rewrite Hr]. case_match eqn:Em; [done|]. cbn [forallb item_ok]. rewrite IH by done.
    rewrite andb_true_r, forallb_rev. rewrite forallb_forall in Hb |- *. intros x Hx. unfold body_row. rewrite Hb by done. cbn [andb].
    apply negb_true_iff. apply not_true_iff_false. intros Hx'. apply not_true_iff_false in Em. apply Em. apply existsb_exists. eauto.
  - assert (plain (TrimSpace r) = true) as Ht by (by apply TrimSpace_forall). destruct (TrimSpace r) as [|c raw] eqn:Er; [by apply IH|].
    case_match; [by apply IH|]. case_match; [by apply IH|]. destruct (tokenize (String c raw)) as [|[|t toks]] eqn:Et; [done|by apply IH|].
    cbn [forallb item_ok]. rewrite IH by done. rewrite andb_true_r. change (forallb plain (t :: toks) = true).
    by eapply (tokens_plain _ Plain (String c raw) false "").
Qed.

Lemma Split_Join l : l <> [] -> forallb no_nl l = true -> Split (Join l nl_text) nl_char = l.
Proof.
  unfold Split. induction l as [|x l IH]; [done|]. intros _ H. cbn [forallb] in H. apply andb_true_iff in H as [Hx H].
  destruct l as [|y l]; [by apply split_on_last|]. change (Join (x :: y :: l) nl_text) with (x +:+ nl_text +:+ Join (y :: l) nl_text).
  change (nl_text +:+ Join (y :: l) nl_text) with (String nl_char (Join (y :: l) nl_text)). rewrite split_on_row by done.
  rewrite IH by done. done.
Qed.

Definition bare (l : line) : Prop := ln_remote l = true \/ ln_block l = true -> ln_args l = [].

Record parse_ok (p : parse_state) : Prop := {
  po_lines : forallb line_ok (ps_lines p) = true;
  po_bare : Forall bare (ps_lines p);
  po_remotes : Forall (fun r => forallb plain (snd r) = true) (ps_remotes p);
  po_proto : plain (ps_proto p) = true;
}.

Lemma add_line_ok l p : line_ok l = true -> bare l -> parse_ok p -> parse_ok (add_line l p).
Proof.
  intros Hl Hb [P1 P2 P3 P4]. constructor; cbn [ps_lines ps_remotes ps_proto add_line]; try done.
  - rewrite forallb_app, P1. cbn. by rewrite Hl.
  - apply Forall_app. split; [done|]. by constructor.
Qed.

Lemma plain_line_ok name args : permitted name = true -> args_ok name args = true -> forallb plain args = true ->
  line_ok (plain_line name args) = true /\ bare (plain_line name args).
Proof. intros Hp Hs Ha. split; [unfold line_ok; cbn; by rewrite Hp, Hs|by intros []]. Qed.

Lemma split_on_chars (P : ascii -> bool) (sep : ascii) s : forall cur,
  forallb (str_forall P) (split_on sep s cur) = true -> str_forall (fun c => P c || Ascii.eqb c sep) (cur +:+ s) = true.
Proof.
  induction s as [|c s IH]; intros cur; cbn [split_on].
  - cbn [forallb]. rewrite andb_true_r, append_nil_r. apply str_forall_impl. by intros c ->.
  - destruct (Ascii.eqb_spec c sep) as [->|Hc].
    + cbn [forallb]. rewrite andb_true_iff. intros [H1 H2%(IH "")]. rewrite str_forall_app, str_forall_cons. cbn [String.append] in H2.
      rewrite H2, Ascii.eqb_refl, orb_true_r, !andb_true_r. revert H1. apply str_forall_impl. by intros d ->.
    + intros H%IH. by rewrite append_assoc in H.
Qed.

Lemma reFingerprint_chars f : reFingerprint f = true -> str_forall (fun c => is_hex c || is_char 58 c) f = true.
Proof.
  unfold reFingerprint. rewrite andb_true_iff. intros [_ H]. apply (str_forall_impl (fun c => is_hex c || Ascii.eqb c ":")).
  { intros c. rewrite !orb_true_iff. intros [?|Hc%Ascii.eqb_eq]; [by left|subst c; by right]. }
  apply (split_on_chars is_hex ":"%char f "").
  rewrite forallb_forall in H |- *. intros x Hx. specialize (H x Hx). by apply andb_true_iff in H as [_ H].
Qed.

Lemma allFingerprints_chars args : allFingerprints args = true -> forallb (str_forall fingerprint_char) args = true.
Proof.
  unfold allFingerprints. rewrite !forallb_forall. intros H a Ha. specialize (H a Ha).
  apply (str_forall_impl (fun c => is_hex c || is_char 58 c || Ascii.eqb c ";")).
  { intros c. unfold fingerprint_char. rewrite !orb_true_iff. intros [?|Hc%Ascii.eqb_eq]; [by left|subst c; by right]. }
  apply (split_on_chars (fun c => is_hex c || is_char 58 c) ";"%char a "").
  rewrite forallb_forall in H |- *. intros x Hx. specialize (H x Hx). apply orb_true_iff in H as [->%String.eqb_eq|H]; [done|by apply reFingerprint_chars].
Qed.

(** A directive the allowlist keeps has no case of its own. *)
Lemma keep_args_ok name args : directives name = Some Keep -> args_ok name args = true.
Proof.
  intros Hd. unfold args_ok. destruct (String.eqb_spec name "dev") as [->|_]; [done|]. destruct (String.eqb_spec name "auth-user-pass") as [->|_]; [done|].
  by destruct (String.eqb_spec name "peer-fingerprint") as [->|_].
Qed.

Lemma on_block_ok ln tag body p p' : forallb body_row body = true -> parse_ok p -> on_block ln tag body p = inr p' -> parse_ok p'.
Proof.
  intros Hb Hp. unfold on_block. case_match; [intros [= <-]; by destruct Hp; constructor|].
  case_bool_decide as Hi; [|by case_match]. case_match eqn:E; [done|]. intros [= <-]. apply add_line_ok; [|done|done].
  unfold line_ok. cbn [ln_remote ln_block ln_name ln_body]. rewrite bool_decide_eq_true_2 by done. rewrite Split_Join; [done|by intros ->|].
  rewrite forallb_forall in Hb |- *. intros x Hx. specialize (Hb x Hx). unfold body_row in Hb. apply andb_true_iff in Hb as [Hb _]. by apply plain_no_nl.
Qed.

Lemma normProto_plain args pr : normProto args = Some pr -> plain pr = true.
Proof. unfold normProto. repeat case_match; intros [= <-]; done. Qed.

Lemma on_special_ok ln name args p p' :
  forallb plain args = true -> parse_ok p -> on_special ln name args p = Some (inr p') -> parse_ok p'.
Proof.
  intros Ha Hp. unfold on_special. case_match; [intros [= <-]; case_match; [by destruct Hp; constructor|done]|].
  case_match.
  { destruct args as [|a [|]]; try done. case_match; [|done]. intros [= <-]. destruct (plain_line_ok "dev" ["tun"] eq_refl eq_refl eq_refl) as [Hl Hb].
    apply add_line_ok; [done|done|]. by destruct Hp; constructor. }
  case_match; [destruct args as [|a [|]]; try done; case_match; [by intros [= <-]|done]|].
  case_match; [destruct (normProto args) eqn:E; [|done]; intros [= <-]; destruct Hp; constructor; try done; by eapply normProto_plain|].
  case_match; [case_match; [|done]; intros [= <-]; by destruct Hp; constructor|]. case_match; [by intros [= <-]|].
  case_match.
  { case_match; [done|]. intros [= <-]. apply add_line_ok; [done|done|]. destruct Hp as [P1 P2 P3 P4]. constructor; try done. cbn.
    apply Forall_app. split; [done|]. by constructor. }
  case_match; [|done]. intros [= <-]. destruct (plain_line_ok "auth-user-pass" [] eq_refl eq_refl eq_refl) as [Hl Hb].
  apply add_line_ok; [done|done|]. by destruct Hp; constructor.
Qed.

Lemma on_listed_ok ln name args p p' :
  forallb plain args = true -> parse_ok p -> on_listed ln name args p = inr p' -> parse_ok p'.
Proof.
  intros Ha Hp. unfold on_listed. destruct (directives name) as [[| |]|] eqn:Ed; [| |..|done].
  - case_match eqn:E.
    { intros [= <-]. apply add_line_ok; [|by intros []|done]. apply plain_line_ok; [|by apply keep_args_ok|done]. unfold permitted. by rewrite Ed, orb_true_r. }
    rewrite bool_decide_eq_false_2 by done. case_match; [done|]. intros [= <-]. apply add_line_ok; [|by intros []|done].
    apply plain_line_ok; [|by apply keep_args_ok|done]. unfold permitted. by rewrite Ed, orb_true_r.
  - intros [= <-]. by destruct Hp; constructor.
  - case_match eqn:E.
    { intros [= <-]. apply add_line_ok; [|by intros []|done]. apply andb_true_iff in E as [E Hf].
      apply andb_true_iff in E as [->%String.eqb_eq _]. apply plain_line_ok; [done|by apply allFingerprints_chars|done]. }
    rewrite bool_decide_eq_true_2 by done. case_match; [done|]. destruct args as [|a [|dir [|]]]; try by intros [= <-].
    case_match; [|by intros [= <-]]. case_match eqn:Edir; [|done]. intros [= <-]. apply add_line_ok; [|by intros []|done].
    apply plain_line_ok; [done|done|]. cbn [forallb] in Ha. by apply andb_true_iff in Ha as [_ Ha].
Qed.

Lemma interpret_ok items : forall p p', forallb item_ok items = true -> parse_ok p -> interpret items p = inr p' -> parse_ok p'.
Proof.
  induction items as [|i items IH]; intros p p' Hi Hp E; cbn [interpret] in E; [by injection E as <-|].
  cbn [forallb] in Hi. apply andb_true_iff in Hi as [Hi His]. destruct (on_item i p) as [|q] eqn:Eq; [done|]. apply (IH q p' His); [|done].
  destruct i as [ln tag body|ln toks|]; [by eapply on_block_ok| |done]. cbn [on_item] in Eq. unfold on_directive in Eq.
  destruct toks as [|t args]; [by injection Eq as <-|]. cbn [item_ok forallb] in Hi. apply andb_true_iff in Hi as [_ Hargs].
  case_match; [done|]. case_match; [done|]. destruct (on_special ln (TrimPrefix t "--") args p) as [[|q']|] eqn:Es; [done| |].
  - injection Eq as <-. by eapply on_special_ok.
  - by eapply on_listed_ok.
Qed.

Lemma make_remotes_ok port proto rs : forall l, plain proto = true -> Forall (fun r => forallb plain (snd r) = true) rs ->
  make_remotes port proto rs = inr l -> forallb remote_ok l = true.
Proof.
  induction rs as [|[ln args] rs IH]; intros l Hp Hr E; cbn [make_remotes] in E; [by injection E as <-|].
  apply Forall_cons in Hr as [Ha Hr]. destruct (make_remote port proto (ln, args)) as [|rm] eqn:Em; [done|].
  destruct (make_remotes port proto rs) as [|l'] eqn:El; [done|]. injection E as <-. cbn [forallb]. rewrite (IH l') by done. rewrite andb_true_r.
  unfold make_remote in Em. cbn [snd] in Ha. destruct args as [|host rest]; [done|]. cbn [forallb] in Ha. apply andb_true_iff in Ha as [Hh _].
  assert (forall pr, (match rest with _ :: b => if bool_decide (b = []) then Some proto else normProto b | [] => Some proto end) = Some pr -> plain pr = true) as Hpr.
  { intros pr. destruct rest as [|? b]; [by intros [= <-]|]. case_bool_decide; [by intros [= <-]|]. apply normProto_plain. }
  destruct rest as [|x [|y [|]]]; [| | |done];
    (destruct (negb (IsAddr host || reHost host)); [done|]; destruct (checkRemoteAddr host); [done|];
     repeat case_match; simplify_eq; unfold remote_ok; cbn [rm_Host rm_Proto]; rewrite Hh; by apply Hpr).
Qed.

(** The rows of a profile hold no control characters but tabs. *)
Definition clean (text : string) : bool := forallb plain (rows_of text).

Lemma Parse_profile_ok text p : clean text = true -> Parse text = inr p -> profile_ok p.
Proof.
  intros Hc. unfold Parse. case_match; [done|]. case_match; [done|].
  destruct (interpret (scan (rows_of text) 1 None) parse_start) as [|q] eqn:E; [done|].
  assert (parse_ok q) as [P1 P2 P3 P4].
  { eapply interpret_ok; [|constructor|exact E]; try done. by apply scan_items_ok. }
  unfold close_profile. destruct (make_remotes (ps_port q) (ps_proto q) (ps_remotes q)) as [|rs] eqn:Em; [done|].
  assert (forallb remote_ok rs = true) as Hr by (by eapply make_remotes_ok). destruct rs as [|r rs]; [done|]. intros [= <-]. split_and!; cbn [pr_lines pr_Remotes].
  - by destruct (ps_dev q).
  - done.
  - rewrite Forall_forall in P2. intros l Hl. destruct (ps_dev q); [by apply P2|]. apply elem_of_cons in Hl as [->|Hl]; [by intros []|by apply P2].
Qed.

(** ** Theorems *)

(** The options of openvpn(8) that run a program, load a library, read or write
    a file named by their argument, or change where the process runs or as whom,
    and those that set routes, addresses or DNS on the host. *)
Definition reaching_options : list string :=
  ["up"; "down"; "up-restart"; "down-pre"; "route-up"; "route-pre-down"; "ipchange"; "tls-verify"; "auth-user-pass-verify"; "client-connect";
   "client-disconnect"; "client-crresponse"; "learn-address"; "script-security"; "iproute"; "tls-crypt-v2-verify"; "plugin"; "engine"; "providers";
   "pkcs11-providers"; "config"; "ca"; "capath"; "cert"; "key"; "dh"; "pkcs12"; "extra-certs"; "crl-verify"; "tls-auth"; "tls-crypt"; "tls-crypt-v2";
   "secret"; "askpass"; "tls-export-cert"; "replay-persist"; "ifconfig-pool-persist"; "client-config-dir"; "genkey"; "log"; "log-append"; "status";
   "syslog"; "writepid"; "tmp-dir"; "dev-node"; "http-proxy"; "http-proxy-user-pass"; "socks-proxy"; "cd"; "chroot"; "user"; "group"; "setcon";
   "daemon"; "inetd"; "setenv"; "setenv-safe"; "mktun"; "rmtun"; "lladdr"; "route"; "route-ipv6"; "route-gateway"; "redirect-gateway";
   "redirect-private"; "dhcp-option"; "dns"; "ifconfig"; "ifconfig-ipv6"; "block-outside-dns"; "register-dns"].

(** What may come from a profile. Key material is inline. A directive is of the
    allowlist and none of those, nor of the management interface's; the device is
    a tun device; the login is asked for, never read from a file; a fingerprint
    is hexadecimal digits; a remote is one of those to be dialed. *)
Definition harmless (remotes : list Remote) (i : read_item) : Prop :=
  match i with
  | RBlock tag _ => tag ∈ ["ca"; "cert"; "key"; "tls-auth"; "tls-crypt"; "tls-crypt-v2"; "pkcs12"; "extra-certs"; "crl-verify"; "peer-fingerprint"]
  | RDirective (n :: args) =>
      n ∉ reaching_options /\ HasPrefix n "management" = false /\
      (n = "dev" /\ args = ["tun"] \/ n = "auth-user-pass" /\ args = [] \/
       n = "peer-fingerprint" /\ Forall (fun a => str_forall fingerprint_char a = true) args \/
       n = "remote" /\ (exists r, r ∈ remotes /\ args = [rm_Host r; pretty (rm_Port r); rm_Proto r]) \/
       n ∉ ["dev"; "auth-user-pass"; "peer-fingerprint"; "remote"] /\ n ∈ kept_directives)
  | _ => False
  end.

Lemma not_reaching n l : forallb (fun n => bool_decide (n ∉ reaching_options) && negb (HasPrefix n "management")) l = true -> n ∈ l ->
  n ∉ reaching_options /\ HasPrefix n "management" = false.
Proof.
  rewrite forallb_forall. intros H Hn%list_elem_of_In. specialize (H n Hn). by apply andb_true_iff in H as [?%bool_decide_eq_true ?%negb_true_iff].
Qed.

Lemma permitted_harmless remotes n args : permitted n = true -> args_ok n args = true -> harmless remotes (RDirective (n :: args)).
Proof.
  unfold permitted. rewrite orb_true_iff, bool_decide_eq_true. cbn [harmless]. intros [H|H] Ha.
  - apply mem_In in H. destruct (not_reaching n ["dev"; "auth-user-pass"; "peer-fingerprint"]) as [H1 H2]; [vm_compute; reflexivity|done|].
    split_and!; [done|done|]. rewrite !elem_of_cons, elem_of_nil in H. destruct H as [->|[->|[->|[]]]]; cbn in Ha.
    + left. by apply bool_decide_eq_true in Ha.
    + right. left. by apply bool_decide_eq_true in Ha.
    + right. right. left. split; [done|]. apply Forall_forall. rewrite forallb_forall in Ha. intros a Hin. by apply Ha, list_elem_of_In.
  - unfold directives in H. destruct (mem n kept_directives) eqn:E; [|repeat case_match; done]. apply mem_In in E.
    destruct (not_reaching n kept_directives) as [H1 H2]; [vm_compute; reflexivity|done|]. split_and!; [done|done|]. do 4 right. split; [|done].
    intros Hn. assert (Forall (fun x => x ∉ kept_directives) ["dev"; "auth-user-pass"; "peer-fingerprint"; "remote"]) as Hk.
    { eapply bool_decide_unpack. by vm_compute. }
    rewrite Forall_forall in Hk. by apply (Hk n Hn).
Qed.

Lemma inline_tags tag : directives tag = Some Inline -> tag ∈ inline_directives.
Proof. unfold directives. repeat case_match; try done. intros _. by apply mem_In. Qed.

Lemma render_items_harmless remotes ls : forall wrote, forallb line_ok ls = true -> Forall (harmless remotes) (render_items remotes wrote ls).
Proof.
  induction ls as [|l ls IH]; intros wrote H; [constructor|]. cbn [forallb] in H. apply andb_true_iff in H as [Hl Hls]. cbn [render_items].
  unfold line_ok in Hl. destruct (ln_remote l).
  - apply Forall_app. split; [|by apply IH]. destruct wrote; [constructor|]. apply Forall_fmap. apply Forall_forall. intros r Hr.
    cbn. split_and!; [apply (bool_decide_unpack ("remote" ∉ reaching_options)); by vm_compute|done|]. do 3 right. left. eauto.
  - constructor; [|by apply IH]. destruct (ln_block l).
    + apply andb_true_iff in Hl as [Hi%bool_decide_eq_true _]. by apply inline_tags.
    + apply andb_true_iff in Hl as [Hp _]. apply andb_true_iff in Hp as [Hp Ha]. by apply permitted_harmless.
Qed.

Lemma cipher_items_harmless remotes ls : Forall (harmless remotes) (cipher_items ls).
Proof.
  unfold cipher_items. case_match; [constructor|]. apply Forall_app. split; (case_match; [constructor|]); apply Forall_singleton; by apply permitted_harmless.
Qed.

(** C7: A profile cannot make the root openvpn do anything but connect. Of a profile
    without control characters other than tabs (inside quotes the reader lets
    them through), and with a management path and servers to dial that have none
    either, the config openvpn is handed reads, row by row, as inline key material
    and directives of the allowlist, followed by RiftRoute's own block. None of
    those directives runs a program, loads a library, names a file, sets routes,
    addresses or DNS, or touches openvpn's management: the device is a plain tun
    device, the login has no file to be read from, a fingerprint is hexadecimal, a
    remote is one of those to be dialed. Nothing in an argument, a host name or a
    key block can begin another directive. *)
Theorem Render_harmless text p o :
  clean text = true -> Parse text = inr p -> options_ok o ->
  exists items, read (rows_of (Render p o)) = items ++ fixed_items (pr_verb p) o /\ Forall (harmless (dialed p o)) items /\
    items = render_items (dialed p o) false (pr_lines p) ++ cipher_items (pr_lines p).
Proof.
  intros Hc Hp Ho. pose proof (Parse_profile_ok text p Hc Hp) as Hok. eexists. split_and!; [|..|reflexivity].
  - rewrite Render_reads by done. by rewrite app_assoc.
  - apply Forall_app. split; [|apply cipher_items_harmless]. apply render_items_harmless. by destruct Hok.
Qed.

(** What is quoted is read back unchanged. A directive row rendered with any
    arguments free of control characters tokenizes to exactly its name and
    those arguments; and the login commands tokenize to the saved username
    and password, whatever they hold. *)
Theorem quote_roundtrip name args w :
  dir_name name = true -> forallb plain args = true ->
  tokenize (name +:+ spaced args) = inr (name :: args) /\
  tokenize ("password " +:+ auth_word +:+ mgmtQuote w) = inr ["password"; "Auth"; w].
Proof.
  intros Hn Ha. split.
  - destruct (dir_name_word _ Hn). by apply tokenize_directive.
  - change (tokenize ("password " +:+ auth_word +:+ mgmtQuote w)) with
      (match match tokens_from Plain (mgmtQuote w) false "" with inr l => inr ("Auth" :: l) | inl e => inl e end
       with inr l => inr ("password" :: l) | inl e => inl e end : error + list string).
    rewrite <- (append_nil_r (mgmtQuote w)), tokens_mgmtQuote. done.
Qed.

(** A profile whose quoted argument holds a carriage return, and one that asks
    for more than it may. *)
Definition cr : string := String (ascii_of_nat 13) "".
Definition ex_control : string := "remote 203.0.113.7" +:+ nl_text +:+ "cipher " +:+ dquoted ("AES" +:+ cr +:+ "x") +:+ nl_text.
Definition ex_text : string :=
  "client" +:+ nl_text +:+ "remote vpn.example.net 443 tcp" +:+ nl_text +:+ "cipher AES-256-CBC" +:+ nl_text +:+ "redirect-gateway def1" +:+ nl_text +:+
  "<ca>" +:+ nl_text +:+ "up /bin/sh" +:+ nl_text +:+ "</ca>" +:+ nl_text +:+ "auth-user-pass /etc/shadow" +:+ nl_text.
Definition ex_options : RenderOptions := mkRenderOptions [mkRemote "203.0.113.7" 443 "tcp"] "/var/run/rift route.sock" false.

(** An argument with a control character in quotes is not read back: Parse
    takes it, Render writes it without quotes, and the row it renders is one
    the tokenizer refuses. *)
Theorem quoted_control_breaks :
  match Parse ex_control with
  | inr p => existsb (fun i => match i with RBad _ => true | _ => false end) (read (rows_of (Render p ex_options)))
  | inl _ => false
  end = true.
Proof. vm_compute. reflexivity. Qed.

(** ** Witnesses *)

Lemma Render_harmless_witness :
  exists p items, Parse ex_text = inr p /\ read (rows_of (Render p ex_options)) = items ++ fixed_items (pr_verb p) ex_options /\ Forall (harmless (dialed p ex_options)) items /\
    items = render_items (dialed p ex_options) false (pr_lines p) ++ cipher_items (pr_lines p).
Proof.
  destruct (Parse ex_text) as [e|p] eqn:E; [exfalso; vm_compute in E; discriminate E|].
  exists p. destruct (Render_harmless ex_text p ex_options) as (items & H).
  - vm_compute. reflexivity.
  - exact E.
  - split; vm_compute; reflexivity.
  - exists items. split; [reflexivity|exact H].
Defined.

Lemma quote_roundtrip_witness :
  tokenize ("remote" +:+ spaced ["a b"; "#x"]) = inr ["remote"; "a b"; "#x"] /\
  tokenize ("password " +:+ auth_word +:+ mgmtQuote (String quote_char ("\" +:+ cr))) = inr ["password"; "Auth"; String quote_char ("\" +:+ cr)].
Proof. apply (quote_roundtrip "remote" ["a b"; "#x"] (String quote_char ("\" +:+ cr))); vm_compute; reflexivity. Defined.
