(* ===== verification/Splitdns.v ===== *)
(** * Per-domain resolvers (internal/splitdns/splitdns.go)

    Queries for a domain go to a resolver of its own. On macOS that is a file of
    /etc/resolver, on Linux a routing domain of one systemd-resolved link; the
    composed manager writes the user's selection and the DNS learner's entries
    through one owner. A directory is a map from names to contents; which of its
    files can be written, read and removed are fields of it. resolvectl's answers
    are a function of its arguments. The mutexes make each operation one step. *)

From S2P Require Import Prelude.
From S2P Require Import Netip NetipText Domain Provider Netmon Killswitch Text.

(** ** The manager as an interface *)

Class SplitManager (D : Type) : Type := {
  sm_Apply : list SplitDNSRoute -> D -> option error * D;
  sm_Clear : D -> option error * D;
  sm_Backend : D -> string;
}.

Definition host_of (r : SplitDNSRoute) : string := DomainRuleHost (sd_Domain r).

(** ** macOS: resolver files *)

Definition ResolverFile (resolver : string) (port : Z) : string :=
  if 0 <? port then "# managed by riftroute" +:+ nl +:+ "nameserver " +:+ resolver +:+ nl +:+ "port " +:+ pretty port +:+ nl
  else "# managed by riftroute" +:+ nl +:+ "nameserver " +:+ resolver +:+ nl.

Definition managed_mark : string := "managed by riftroute".

(** /etc/resolver: [None] while the directory is absent; a file that cannot be
    read has no content. What [MkdirAll] and a write answer, and the files that
    cannot be removed. *)
Record resolver_dir : Type := mkDir {
  rd_files : option (gmap string (option string));
  rd_mkdir : option error;
  rd_write : string -> option error;
  rd_stuck : gset string;
}.

Definition set_files (d : resolver_dir) (f : option (gmap string (option string))) : resolver_dir :=
  mkDir f (rd_mkdir d) (rd_write d) (rd_stuck d).

Record macResolverManager : Type := mkMacResolver { mr_unsupported : bool; mr_goos : string; mr_dir : resolver_dir }.

Definition set_dir (m : macResolverManager) (d : resolver_dir) : macResolverManager := mkMacResolver (mr_unsupported m) (mr_goos m) d.

Definition is_managed (content : option string) : bool :=
  match content with Some c => Contains_str c managed_mark | None => false end.

Definition clear_dir (d : resolver_dir) : resolver_dir :=
  match rd_files d with
  | None => d
  | Some f => set_files d (Some (filter (fun x => is_managed x.2 = false \/ x.1 ∈ rd_stuck d) f))
  end.

Definition mac_Clear (m : macResolverManager) : option error * macResolverManager :=
  if mr_unsupported m then (None, m) else (None, set_dir m (clear_dir (mr_dir m))).

(** The name a route's file has: the domain, a wildcard's apex. An empty name,
    [.] and [..] join to a directory, which cannot be written; a valid domain has
    no slash. *)
Definition writes_dir (name : string) : bool := (name =s? "") || (name =s? ".") || (name =s? "..").

Fixpoint write_files (routes : list SplitDNSRoute) (d : resolver_dir) : option error * resolver_dir :=
  match routes with
  | [] => (None, d)
  | r :: rest =>
      let name := host_of r in
      let err := if writes_dir name then Some (Errorf "is a directory" []) else rd_write d name in
      match err with
      | Some e => (Some (Wrapf "write %s: %w" ["/etc/resolver/" +:+ name] e), d)
      | None => write_files rest (set_files d (Some (<[name := Some (ResolverFile (sd_Resolver r) (sd_Port r))]> (default ∅ (rd_files d)))))
      end
  end.

Definition mac_Apply (routes : list SplitDNSRoute) (m : macResolverManager) : option error * macResolverManager :=
  if mr_unsupported m then (Some (Errorf "split-DNS unsupported on %s" [mr_goos m]), m)
  else
    match rd_mkdir (mr_dir m) with
    | Some e => (Some e, m)
    | None =>
        let m := set_dir m (set_files (mr_dir m) (Some (default ∅ (rd_files (mr_dir m))))) in
        let '(_, m) := mac_Clear m in
        let '(err, d) := write_files routes (mr_dir m) in (err, set_dir m d)
    end.

#[export] Instance mac_manager : SplitManager macResolverManager := {|
  sm_Apply := mac_Apply;
  sm_Clear := mac_Clear;
  sm_Backend m := if mr_unsupported m then "unsupported" else "resolver-files";
|}.

(** ** Linux: one systemd-resolved link *)

Definition resolvectlLink : string := "lo".

Definition resolvectlServer (resolver : string) (port : Z) : string :=
  if port <=? 0 then resolver
  else if Contains_str resolver ":" then "[" +:+ resolver +:+ "]:" +:+ pretty port
  else resolver +:+ ":" +:+ pretty port.

(** First occurrences, in order: the [seen] maps of the loop. *)
Fixpoint first_seen (seen : gset string) (l : list string) : list string :=
  match l with
  | [] => []
  | x :: l' => if bool_decide (x ∈ seen) then first_seen seen l' else x :: first_seen ({[x]} ∪ seen) l'
  end.

Definition resolvectlApplyArgs (link : string) (routes : list SplitDNSRoute) : list (list string) :=
  [["dns"; link] ++ first_seen ∅ (map (fun r => resolvectlServer (sd_Resolver r) (sd_Port r)) routes);
   ["domain"; link] ++ map (fun d => "~" +:+ d) (first_seen ∅ (map host_of routes))].

(** What the tool does: the commands run so far, and its answer to one. *)
Record resolvectlManager : Type := mkResolvectl {
  rv_link : string; rv_run : list string -> option error; rv_ran : list (list string) }.

Definition linkName (m : resolvectlManager) : string := if negb (rv_link m =s? "") then rv_link m else resolvectlLink.

Definition run_resolvectl (args : list string) (m : resolvectlManager) : option error * resolvectlManager :=
  (rv_run m args, mkResolvectl (rv_link m) (rv_run m) (rv_ran m ++ [args])).

Fixpoint run_commands (cmds : list (list string)) (m : resolvectlManager) : option error * resolvectlManager :=
  match cmds with
  | [] => (None, m)
  | args :: rest =>
      let '(err, m) := run_resolvectl args m in
      match err with
      | Some e => (Some (Wrapf "resolvectl %s: %w" [Join args " "] e), m)
      | None => run_commands rest m
      end
  end.

Definition resolvectl_Apply (routes : list SplitDNSRoute) (m : resolvectlManager) : option error * resolvectlManager :=
  let '(_, m) := run_resolvectl ["revert"; linkName m] m in
  if bool_decide (routes = []) then (None, m) else run_commands (resolvectlApplyArgs (linkName m) routes) m.

Definition resolvectl_Clear (m : resolvectlManager) : option error * resolvectlManager :=
  (None, snd (run_resolvectl ["revert"; linkName m] m)).

(** ** The in-memory manager *)

Record FakeSplitDNS : Type := mkFakeSplitDNS { fm_Applied : list SplitDNSRoute }.

#[export] Instance fake_manager : SplitManager FakeSplitDNS := {|
  sm_Apply routes _ := (None, mkFakeSplitDNS routes);
  sm_Clear _ := (None, mkFakeSplitDNS []);
  sm_Backend _ := "fake";
|}.

(** ** The user's selection and the learner's, through one owner

    [cm_extra]: what the learner's callback answers now. *)

Definition not_claimed (claimed : gset string) (extra : list SplitDNSRoute) : list SplitDNSRoute :=
  keep_if (fun r => negb (bool_decide (host_of r ∈ claimed))) extra.

Definition dedupePreferUser (user extra : list SplitDNSRoute) : list SplitDNSRoute :=
  user ++ not_claimed (list_to_set (map host_of user)) extra.

Record Composed (D : Type) : Type := mkComposed { cm_inner : D; cm_extra : list SplitDNSRoute; cm_user : list SplitDNSRoute }.
Arguments mkComposed {D} _ _ _. Arguments cm_inner {D} c. Arguments cm_extra {D} c. Arguments cm_user {D} c.

Section composed.
Context {D : Type} `{!SplitManager D}.
Implicit Types c : Composed D.

Definition applyLocked (routes : list SplitDNSRoute) c : option error * Composed D :=
  let '(err, d) := sm_Apply routes (cm_inner c) in (err, mkComposed d (cm_extra c) (cm_user c)).

Definition Resync c : option error * Composed D := applyLocked (dedupePreferUser (cm_user c) (cm_extra c)) c.

Definition Composed_Apply (routes : list SplitDNSRoute) c : option error * Composed D := Resync (mkComposed (cm_inner c) (cm_extra c) routes).

Definition ApplyUserOnly c : option error * Composed D := applyLocked (cm_user c) c.

Definition Composed_Clear c : option error * Composed D :=
  let '(err, d) := sm_Clear (cm_inner c) in (err, mkComposed d (cm_extra c) (cm_user c)).
End composed.

#[export] Instance composed_manager {D} `{!SplitManager D} : SplitManager (Composed D) := {|
  sm_Apply := Composed_Apply;
  sm_Clear := Composed_Clear;
  sm_Backend c := sm_Backend (cm_inner c);
|}.

(** ** Resolver files *)

(** The last of the routes for a name: its file is the one left. *)
Definition last_for (name : string) (routes : list SplitDNSRoute) : option SplitDNSRoute :=
  last (keep_if (fun r => host_of r =s? name) routes).

Definition file_of (r : SplitDNSRoute) : option string := Some (ResolverFile (sd_Resolver r) (sd_Port r)).

Lemma file_of_managed r : is_managed (file_of r) = true.
Proof. unfold file_of, ResolverFile. by case_if. Qed.

Definition dir_files (d : resolver_dir) : gmap string (option string) := default ∅ (rd_files d).

Lemma last_for_cons name r routes : last_for name (r :: routes) =
  match last_for name routes with
  | Some x => Some x
  | None => if host_of r =s? name then Some r else None
  end.
Proof.
  unfold last_for, keep_if. simpl. destruct (host_of r =s? name).
  - by destruct (List.filter _ routes) as [|y l]; [|rewrite last_cons; destruct (last (y :: l)) eqn:E; [|by apply last_None in E]].
  - by destruct (last _).
Qed.

(** A write goes through exactly when every name can be written. *)
Definition writable (d : resolver_dir) (name : string) : bool := negb (writes_dir name) && bool_decide (rd_write d name = None).

Lemma write_files_ok routes : forall d, forallb (writable d) (map host_of routes) = true ->
  fst (write_files routes d) = None /\
  (forall name, dir_files (snd (write_files routes d)) !! name =
     match last_for name routes with Some r => Some (file_of r) | None => dir_files d !! name end) /\
  rd_stuck (snd (write_files routes d)) = rd_stuck d.
Proof.
  induction routes as [|r routes IH]; intros d H; [done|]. cbn [map forallb] in H. bool_hyps.
  unfold writable in H. bool_hyps. cbn [write_files]. rewrite H, H1.
  destruct (IH (set_files d (Some (<[host_of r := file_of r]> (dir_files d)))) H0) as (E1 & E2 & E3). fold (file_of r). fold (dir_files d).
  split_and!; [done| |done]. intros name. rewrite E2, last_for_cons. destruct (last_for name routes); [done|].
  unfold dir_files at 1. simpl. destruct (String.eqb_spec (host_of r) name) as [<-|Hne]; [apply lookup_insert_eq|by apply lookup_insert_ne].
Qed.

Lemma write_files_fails routes : forall d, forallb (writable d) (map host_of routes) = false -> fst (write_files routes d) <> None.
Proof.
  induction routes as [|r routes IH]; intros d H; [done|]. cbn [map forallb] in H. cbn [write_files].
  unfold writable at 1 in H. destruct (writes_dir (host_of r)); [done|]. destruct (rd_write d (host_of r)) eqn:E; [done|].
  rewrite ?E in H. by apply IH.
Qed.

Lemma clear_dir_lookup d name : dir_files (clear_dir d) !! name =
  match dir_files d !! name with
  | Some x => if is_managed x && negb (bool_decide (name ∈ rd_stuck d)) then None else Some x
  | None => None
  end.
Proof.
  unfold clear_dir, dir_files. destruct (rd_files d) as [f|] eqn:E; simpl; [|by rewrite E, lookup_empty].
  rewrite map_lookup_filter. destruct (f !! name) as [x|]; simpl; [|done].
  case_guard as Hg; simpl; destruct (is_managed x) eqn:Em, (bool_decide_reflect (name ∈ rd_stuck d)) as [Hs|Hs]; simpl; try done; naive_solver.
Qed.

(** The directory once it is there. *)
Definition opened (d : resolver_dir) : resolver_dir := set_files d (Some (dir_files d)).

Lemma opened_files d : dir_files (opened d) = dir_files d.
Proof. done. Qed.

Lemma mac_Clear_eq m : mr_unsupported m = false -> mac_Clear m = (None, set_dir m (clear_dir (mr_dir m))).
Proof. unfold mac_Clear. by intros ->. Qed.

Lemma mac_Apply_eq m routes : mr_unsupported m = false -> rd_mkdir (mr_dir m) = None ->
  mac_Apply routes m = (fst (write_files routes (clear_dir (opened (mr_dir m)))), set_dir m (snd (write_files routes (clear_dir (opened (mr_dir m)))))).
Proof. intros Hu Em. unfold mac_Apply. rewrite Hu, Em, mac_Clear_eq by done. simpl. by destruct (write_files _ _). Qed.

(** What a directory holds once the selection is [routes]: the routes' files, and
    every file that is not RiftRoute's. *)
Definition selection_in (routes : list SplitDNSRoute) (before after : resolver_dir) : Prop :=
  forall name, dir_files after !! name =
    match last_for name routes with
    | Some r => Some (file_of r)
    | None => match dir_files before !! name with Some x => if is_managed x then None else Some x | None => None end
    end.

Lemma last_for_some name l r : last_for name l = Some r -> r ∈ l /\ host_of r = name.
Proof.
  intros [l' E]%last_Some. assert (r ∈ keep_if (fun r => host_of r =s? name) l) as [? ?]%elem_of_keep_if by (rewrite E; set_solver).
  by bool_hyps.
Qed.

Lemma last_for_none name l : last_for name l = None <-> name ∉ map host_of l.
Proof.
  unfold last_for. rewrite last_None. split.
  - intros E (r & -> & Hr)%list_elem_of_fmap.
    assert (r ∈ keep_if (fun x => host_of x =s? host_of r) l) as H by (apply elem_of_keep_if; by rewrite String.eqb_refl).
    rewrite E in H. set_solver.
  - intros H. apply keep_if_none. intros r Hr. apply String.eqb_neq. intros <-. by apply H, list_elem_of_fmap_2.
Qed.

(** When an apply succeeds, and what it leaves. *)
Lemma mac_Apply_iff m routes : mr_unsupported m = false ->
  (fst (mac_Apply routes m) = None <-> rd_mkdir (mr_dir m) = None /\ forallb (writable (mr_dir m)) (map host_of routes) = true).
Proof.
  intros Hu. destruct (rd_mkdir (mr_dir m)) as [e|] eqn:Em.
  { unfold mac_Apply. rewrite Hu, Em. split; [done|]. by intros [? _]. }
  rewrite mac_Apply_eq by done. set (d := clear_dir (opened (mr_dir m))). cbn [fst].
  assert (forallb (writable d) (map host_of routes) = forallb (writable (mr_dir m)) (map host_of routes)) as <- by done.
  destruct (forallb (writable d) (map host_of routes)) eqn:Ef; split; try done.
  - intros _. by apply write_files_ok.
  - intros H. by apply write_files_fails in H.
  - by intros [_ ?].
Qed.

Lemma mac_Apply_selection m routes : mr_unsupported m = false -> rd_stuck (mr_dir m) = ∅ -> fst (mac_Apply routes m) = None ->
  selection_in routes (mr_dir m) (mr_dir (snd (mac_Apply routes m))) /\
  mr_unsupported (snd (mac_Apply routes m)) = false /\ rd_stuck (mr_dir (snd (mac_Apply routes m))) = ∅.
Proof.
  intros Hu Hs H. apply mac_Apply_iff in H as [Em Hf]; [|done]. rewrite mac_Apply_eq by done.
  destruct (write_files_ok routes (clear_dir (opened (mr_dir m))) Hf) as (E1 & E2 & E3). cbn [snd mr_dir set_dir mr_unsupported].
  split_and!; [|done|by rewrite E3]. intros name. rewrite E2. destruct (last_for name routes); [done|].
  rewrite clear_dir_lookup, opened_files. cbn. rewrite Hs. destruct (dir_files (mr_dir m) !! name); [|done].
  by rewrite bool_decide_eq_false_2, andb_true_r by set_solver.
Qed.

(** resolver files are exactly the selection: when an apply reports success,
    every selected domain has the file of its resolver (the last one given for
    it), no other file of RiftRoute is left, and every file another program made
    is as it was, unless it has a selected domain's name; an apply succeeds
    exactly when the directory can be made and every name written. Clearing then
    removes every file the apply wrote and no other. *)
Theorem resolver_files_exact m routes :
  mr_unsupported m = false -> rd_stuck (mr_dir m) = ∅ ->
  (fst (mac_Apply routes m) = None <->
     rd_mkdir (mr_dir m) = None /\ forallb (writable (mr_dir m)) (map host_of routes) = true) /\
  (fst (mac_Apply routes m) = None ->
     selection_in routes (mr_dir m) (mr_dir (snd (mac_Apply routes m))) /\
     forall name, dir_files (mr_dir (snd (mac_Clear (snd (mac_Apply routes m))))) !! name =
       if bool_decide (name ∈ map host_of routes) then None
       else match dir_files (mr_dir m) !! name with Some x => if is_managed x then None else Some x | None => None end).
Proof.
  intros Hu Hs. split; [by apply mac_Apply_iff|]. intros H. destruct (mac_Apply_selection m routes Hu Hs H) as (E & Hu' & Hs').
  split; [done|]. intros name. rewrite mac_Clear_eq by done. cbn [snd mr_dir set_dir].
  rewrite clear_dir_lookup, Hs', E, (bool_decide_eq_false_2 (name ∈ ∅)) by set_solver. destruct (last_for name routes) as [r|] eqn:El.
  - rewrite file_of_managed. apply last_for_some in El as [Hr <-]. rewrite bool_decide_eq_true_2; [done|]. by apply list_elem_of_fmap_2.
  - rewrite bool_decide_eq_false_2 by (by apply last_for_none). destruct (dir_files (mr_dir m) !! name) as [x|]; [|done].
    by destruct (is_managed x) eqn:Ex; [|rewrite Ex].
Qed.

(** ** One owner *)

Lemma last_for_app name l1 l2 : last_for name (l1 ++ l2) =
  match last_for name l2 with Some r => Some r | None => last_for name l1 end.
Proof. unfold last_for, keep_if. rewrite List.filter_app, last_app. by destruct (last (List.filter _ l2)). Qed.

(** Merging lets the user's routes win and drops none. *)
Lemma dedupe_last_for user extra name :
  last_for name (dedupePreferUser user extra) = match last_for name user with Some r => Some r | None => last_for name extra end.
Proof.
  unfold dedupePreferUser. rewrite last_for_app. destruct (last_for name user) as [u|] eqn:Eu.
  - destruct (last_for name (not_claimed _ extra)) as [r|] eqn:E; [|done]. apply last_for_some in E as [[_ Hr]%elem_of_keep_if <-].
    apply last_for_some in Eu as [Hu Hn]. bool_hyps. exfalso. apply Hr, elem_of_list_to_set. rewrite <- Hn. by apply list_elem_of_fmap_2.
  - assert (last_for name (not_claimed (list_to_set (map host_of user)) extra) = last_for name extra) as ->; [|by destruct (last_for name extra)].
    apply last_for_none in Eu. unfold last_for. f_equal. induction extra as [|r extra IH]; [done|]. unfold not_claimed, keep_if in *. simpl.
    destruct (bool_decide_reflect (host_of r ∈ (list_to_set (map host_of user) : gset string))) as [Hc|Hc]; simpl.
    + rewrite elem_of_list_to_set in Hc. destruct (String.eqb_spec (host_of r) name) as [<-|_]; [done|]. exact IH.
    + destruct (host_of r =s? name); [by f_equal|exact IH].
Qed.

(** the user's resolver wins: once the composed manager has written through to
    resolver files without an error, a domain the user selected is answered by
    the user's resolver even when the learner wants it too, the learner's other
    domains by the learner's, and no file of RiftRoute is left for any other
    domain; on shutdown and after a panic only the user's are left. *)
Theorem user_selection_wins routes (c : Composed macResolverManager) :
  mr_unsupported (cm_inner c) = false -> rd_stuck (mr_dir (cm_inner c)) = ∅ ->
  let c1 := snd (Composed_Apply routes c) in
  fst (Composed_Apply routes c) = None ->
  (forall name content, dir_files (mr_dir (cm_inner c1)) !! name = Some content -> is_managed content = true ->
     exists r, content = file_of r /\ host_of r = name /\
       (last_for name routes = Some r \/ last_for name routes = None /\ last_for name (cm_extra c) = Some r)) /\
  (forall name, name ∈ map host_of routes -> exists r, last_for name routes = Some r /\
     dir_files (mr_dir (cm_inner c1)) !! name = Some (file_of r)) /\
  (fst (ApplyUserOnly c1) = None -> selection_in routes (mr_dir (cm_inner c1)) (mr_dir (cm_inner (snd (ApplyUserOnly c1))))).
Proof.
  intros Hu Hs. unfold Composed_Apply, Resync, ApplyUserOnly, applyLocked. cbn [cm_inner cm_user cm_extra sm_Apply mac_manager].
  pose proof (mac_Apply_selection (cm_inner c) (dedupePreferUser routes (cm_extra c)) Hu Hs) as HA.
  destruct (mac_Apply (dedupePreferUser routes (cm_extra c)) (cm_inner c)) as [err m1]. cbn [fst snd cm_inner cm_user] in *.
  intros ->. destruct (HA eq_refl) as (E & Hu1 & Hs1). split_and!.
  - intros name content Hf Hm. rewrite E, dedupe_last_for in Hf. destruct (last_for name routes) as [r|] eqn:El.
    { injection Hf as <-. apply last_for_some in El as H. exists r. naive_solver. }
    destruct (last_for name (cm_extra c)) as [r|] eqn:El2.
    { injection Hf as <-. apply last_for_some in El2 as H. exists r. naive_solver. }
    destruct (dir_files (mr_dir (cm_inner c)) !! name) as [x|]; [|done]. destruct (is_managed x) eqn:Ex; [done|]. injection Hf as <-. congruence.
  - intros name Hn. destruct (last_for name routes) as [r|] eqn:El; [|by apply last_for_none in El]. exists r.
    by rewrite E, dedupe_last_for, El.
  - pose proof (mac_Apply_selection m1 routes Hu1 Hs1) as HB. destruct (mac_Apply routes m1) as [err m2]. cbn [fst snd cm_inner] in *.
    intros ->. by destruct (HB eq_refl) as [E2 _].
Qed.

(** A selection that was cleared comes back: clearing through the composed
    manager removes the files but not the selection it remembers, so the next
    resync, which a profile change or the learner causes, writes the cleared
    routes again. Clearing also drops the learner's files until that resync. *)
Theorem cleared_selection_returns {D} `{!SplitManager D} (c : Composed D) :
  Resync (snd (Composed_Clear c)) =
  (let '(err, d) := sm_Apply (dedupePreferUser (cm_user c) (cm_extra c)) (snd (sm_Clear (cm_inner c))) in (err, mkComposed d (cm_extra c) (cm_user c))).
Proof. unfold Composed_Clear. by destruct (sm_Clear (cm_inner c)). Qed.

Definition ex_corp : SplitDNSRoute := mkSplitDNS "corp.example" "10.0.0.53" 0.
Definition ex_learned : SplitDNSRoute := mkSplitDNS "*.media.example" "127.0.0.1" 5353.
Definition ex_dir : resolver_dir := mkDir (Some {[ "lab.example" := Some "nameserver 192.0.2.1" ]}) None (fun _ => None) ∅.
Definition ex_resolvers : macResolverManager := mkMacResolver false "darwin" ex_dir.
Definition ex_composed : Composed macResolverManager := mkComposed ex_resolvers [ex_learned] [].

(** On a Mac: the user selects a resolver, clears the selection, and the next
    resync brings its file back. *)
Lemma cleared_file_returns :
  let c1 := snd (Composed_Apply [ex_corp] ex_composed) in
  let c2 := snd (Composed_Clear c1) in
  let files c := dir_files (mr_dir (cm_inner c)) !! "corp.example" in
  files c1 = Some (file_of ex_corp) /\ files c2 = None /\ files (snd (Resync c2)) = Some (file_of ex_corp).
Proof. by vm_compute. Qed.

(** A file of another program with a selected domain's name is overwritten, and
    clearing the selection does not bring it back. *)
Lemma foreign_file_lost :
  let lab := mkSplitDNS "lab.example" "10.0.0.53" 0 in
  dir_files ex_dir !! "lab.example" = Some (Some "nameserver 192.0.2.1") /\
  dir_files (mr_dir (snd (mac_Clear (snd (mac_Apply [lab] ex_resolvers))))) !! "lab.example" = None.
Proof. by vm_compute. Qed.

Lemma resolver_files_exact_witness :
  selection_in [ex_corp; ex_learned] ex_dir (mr_dir (snd (mac_Apply [ex_corp; ex_learned] ex_resolvers))).
Proof. refine (proj1 (proj2 (resolver_files_exact ex_resolvers [ex_corp; ex_learned] eq_refl eq_refl) _)). by vm_compute. Defined.

Lemma user_selection_wins_witness :
  exists r, last_for "corp.example" [ex_corp] = Some r /\
    dir_files (mr_dir (cm_inner (snd (Composed_Apply [ex_corp] ex_composed)))) !! "corp.example" = Some (file_of r).
Proof.
  refine (proj1 (proj2 (user_selection_wins [ex_corp] ex_composed eq_refl eq_refl _)) "corp.example" _).
  - by vm_compute.
  - apply (bool_decide_unpack _). by vm_compute.
Defined.

(** ** The link *)

Lemma first_seen_spec l : forall seen x, x ∈ first_seen seen l <-> x ∈ l /\ x ∉ seen.
Proof.
  induction l as [|y l IH]; intros seen x; cbn [first_seen]; [set_solver|].
  case_bool_decide; rewrite ?elem_of_cons, ?IH; destruct (decide (x = y)); set_solver.
Qed.

Lemma first_seen_nodup l : forall seen, NoDup (first_seen seen l).
Proof.
  induction l as [|y l IH]; intros seen; cbn [first_seen]; [constructor|]. case_bool_decide; [done|].
  constructor; [|done]. rewrite first_seen_spec. set_solver.
Qed.

(** one link, reverted first: an apply that reports success ran the revert, then
    set the link's servers to those of the routes, each once, then its routing
    domains to every domain of the routes, each once; one that fails stopped
    there; an empty selection is the revert alone. *)
Theorem resolvectl_installs routes m : let ran := rv_ran (snd (resolvectl_Apply routes m)) in
  let servers := first_seen ∅ (map (fun r => resolvectlServer (sd_Resolver r) (sd_Port r)) routes) in
  let domains := first_seen ∅ (map host_of routes) in
  NoDup servers /\ NoDup domains /\
  (forall r, r ∈ routes -> resolvectlServer (sd_Resolver r) (sd_Port r) ∈ servers /\ host_of r ∈ domains) /\
  (fst (resolvectl_Apply routes m) = None ->
     ran = rv_ran m ++ [["revert"; linkName m]] ++
           (if bool_decide (routes = []) then [] else [["dns"; linkName m] ++ servers; ["domain"; linkName m] ++ map (fun d => "~" +:+ d) domains])) /\
  ["revert"; linkName m] ∈ ran.
Proof.
  intros ran servers domains. split_and!; [apply first_seen_nodup..| | |].
  - intros r Hr. split; apply first_seen_spec; (split; [|set_solver]).
    + by apply (list_elem_of_fmap_2 (fun r => resolvectlServer (sd_Resolver r) (sd_Port r))).
    + by apply list_elem_of_fmap_2.
  - unfold ran, resolvectl_Apply, run_resolvectl. case_bool_decide as Er; [done|]. unfold resolvectlApplyArgs. fold servers domains.
    cbn [run_commands run_resolvectl rv_run rv_ran linkName rv_link]. unfold run_resolvectl. cbn [rv_run rv_ran rv_link].
    destruct (rv_run m _); [done|]. destruct (rv_run m _); [done|]. intros _. cbn [snd rv_ran]. by rewrite <- !app_assoc.
  - unfold ran, resolvectl_Apply, run_resolvectl. case_bool_decide as Er; [cbn; set_solver|]. unfold resolvectlApplyArgs.
    cbn [run_commands run_resolvectl rv_run rv_ran linkName rv_link]. unfold run_resolvectl. cbn [rv_run rv_ran rv_link].
    destruct (rv_run m _); [cbn; set_solver|]. destruct (rv_run m _); cbn; set_solver.
Qed.
