(* ===== verification/Daemon.v ===== *)
(** * What the daemon keeps in step with the profiles (cmd/riftrouted/main.go, internal/perapp, internal/dnsproxy)

    The daemon's own closures between the parts: the DNS learner's lifecycle and
    the resolver files that point at it, and the packet marks of per-app rules.
    The proxy's sockets, the resolvers the system has, the wildcard rules and
    cgroups of the stored profiles and nft are arguments; the learner's answers
    are those of DnsLearn. Each closure runs to its end. *)

From Stdlib Require Import Ascii.
From S2P Require Import Prelude.
From S2P Require Import Netip NetipText Domain Input Provider Netmon Killswitch Update Config DnsLearn Text Splitdns PfAnchor.

(** ** The proxy (dnsproxy/proxy.go) *)

(** [px_port]: the port it serves on, while it does. *)
Record Proxy : Type := mkProxy { px_port : option Z; px_upstreams : list string; px_apexes : gmap string string }.

Definition Active (p : Proxy) : bool * Z := match px_port p with Some n => (true, n) | None => (false, 0) end.

Definition proxy_Ready (p : Proxy) : bool * Z := let '(active, port) := Active p in Ready active port (px_upstreams p).

(** UDP and TCP on one port, up to five times: an attempt gives the UDP port, or
    why none, and the TCP listener's error. *)
Fixpoint bind_both (attempts : nat) (try_ : nat -> error + Z * option error) (i : nat) (err : error) : error + Z :=
  match attempts with
  | O => inl err
  | S k => match try_ i with
           | inl e => inl e
           | inr (port, None) => inr port
           | inr (_, Some e) => bind_both k try_ (i + 1)%nat e
           end
  end.

Definition proxy_Start (try_ : nat -> error + Z * option error) (p : Proxy) : (error + Z) * Proxy :=
  match px_port p with
  | Some n => (inr n, p)
  | None => match bind_both 5 try_ 0 (Errorf "" []) with
            | inl e => (inl e, p)
            | inr port => (inr port, mkProxy (Some port) (px_upstreams p) (px_apexes p))
            end
  end.

Definition proxy_Stop (p : Proxy) : Proxy := mkProxy None (px_upstreams p) (px_apexes p).
Definition set_wildcards (rules : list string) (p : Proxy) : Proxy := mkProxy (px_port p) (px_upstreams p) (SetWildcards rules).
Definition set_upstreams (SplitHostPort : string -> option (string * string)) (servers : list string) (p : Proxy) : Proxy :=
  mkProxy (px_port p) (SetUpstreams SplitHostPort servers) (px_apexes p).

(** ** The learner and its resolver files (main.go)

    [range_apexes]: the order Go gives the apexes in. *)
Section learner.
Context {D : Type} `{!SplitManager D} (range_apexes : gmap string string -> list string) (SplitHostPort : string -> option (string * string)).

Record Daemon : Type := mkDaemon {
  dm_proxy : Proxy;
  dm_dns : Composed D;
  dm_lastReady : bool;
  dm_answers : AnswerStore;
  dm_saved : option (gmap string (gmap string persistedName));
  dm_dirty : bool;
}.
Implicit Types d : Daemon.

(** What the composed manager asks for at every write. *)
Definition learner_routes (p : Proxy) : list SplitDNSRoute :=
  let '(ready, port) := proxy_Ready p in
  if ready then map (fun apex => mkSplitDNS apex "127.0.0.1" port) (range_apexes (px_apexes p)) else [].

Definition with_extra d : Composed D := mkComposed (cm_inner (dm_dns d)) (learner_routes (dm_proxy d)) (cm_user (dm_dns d)).

Definition set_proxy d (p : Proxy) : Daemon := mkDaemon p (dm_dns d) (dm_lastReady d) (dm_answers d) (dm_saved d) (dm_dirty d).
Definition set_resolvers d (c : Composed D) : Daemon := mkDaemon (dm_proxy d) c (dm_lastReady d) (dm_answers d) (dm_saved d) (dm_dirty d).
Definition set_ready d (b : bool) : Daemon := mkDaemon (dm_proxy d) (dm_dns d) b (dm_answers d) (dm_saved d) (dm_dirty d).
Definition set_answers d (s : AnswerStore) (dirty : bool) : Daemon := mkDaemon (dm_proxy d) (dm_dns d) (dm_lastReady d) s (dm_saved d) dirty.

Definition persistLearned d : Daemon :=
  mkDaemon (dm_proxy d) (dm_dns d) (dm_lastReady d) (dm_answers d) (Some (Marshal (dm_answers d))) (dm_dirty d).

Definition resync d : Daemon := set_resolvers d (snd (Resync (with_extra d))).

Definition wildcardCapable d : bool :=
  let b := sm_Backend (dm_dns d) in (b =s? "resolver-files") || (b =s? "resolvectl") || (b =s? "fake").

(** [rules]: the wildcard rules of the stored profiles; [dns]: the system's
    resolvers, when they can be read. *)
Definition syncWildcards (rules : list string) (try_ : nat -> error + Z * option error) (dns : error + list string) d : Daemon :=
  let '(answers, pruned) := Prune (dm_answers d) rules in
  let d := set_answers d answers (dm_dirty d) in
  let d := if pruned then persistLearned d else d in
  if bool_decide (rules = []) || negb (wildcardCapable d) then resync (set_proxy d (proxy_Stop (set_wildcards [] (dm_proxy d))))
  else
    match proxy_Start try_ (dm_proxy d) with
    | (inl _, p) => set_proxy d p
    | (inr _, p) =>
        let p := match dns with inr servers => set_upstreams SplitHostPort servers p | inl _ => p end in
        let p := set_wildcards rules p in
        resync (set_ready (set_proxy d p) (fst (proxy_Ready p)))
    end.

Definition refreshLearnerDNS (dns : error + list string) d : Daemon :=
  if negb (fst (Active (dm_proxy d))) then d
  else
    let p := match dns with inr servers => set_upstreams SplitHostPort servers (dm_proxy d) | inl _ => dm_proxy d end in
    let ready := fst (proxy_Ready p) in
    let changed := negb (Bool.eqb (dm_lastReady d) ready) in
    let d := set_ready (set_proxy d p) ready in
    if changed then resync d else d.

Definition panic_dns d : Daemon :=
  let d := set_ready (set_proxy d (proxy_Stop (set_wildcards [] (dm_proxy d)))) false in
  set_resolvers d (snd (ApplyUserOnly (with_extra d))).

(** The split-DNS requests, through the same manager. *)
Definition user_selects (routes : list SplitDNSRoute) d : Daemon :=
  set_resolvers d (snd (if bool_decide (routes = []) then Composed_Clear (with_extra d) else Composed_Apply routes (with_extra d))).

(** One tick of the maintenance loop, and whether it asks for a reconcile: the
    dirty flag is read, and cleared, only when nothing expired. *)
Definition maintain (now : Z) (dns : error + list string) d : Daemon * bool :=
  let d := refreshLearnerDNS dns d in
  let '(answers, expired) := GC (dm_answers d) now in
  let persist := expired || dm_dirty d in
  let d := set_answers d answers (if expired then dm_dirty d else false) in
  (if persist then persistLearned d else d, expired).

Definition recordLearned (sort_seen : list addrSeen -> list addrSeen) (range : gmap string nameEntry -> list (string * nameEntry)) (now : Z)
    (rule fqdn : string) (addrs : list addr) d : Daemon :=
  let '(answers, changed) := Add sort_seen range (dm_answers d) now rule fqdn addrs in
  set_answers d answers (dm_dirty d || changed).
End learner.

(** ** No resolver file points nowhere *)

Lemma write_files_sound routes : forall d name c, dir_files (snd (write_files routes d)) !! name = Some c ->
  dir_files d !! name = Some c \/ exists r, r ∈ routes /\ host_of r = name /\ c = file_of r.
Proof.
  induction routes as [|r routes IH]; intros d name c; cbn [write_files]; [by left|].
  destruct (if writes_dir (host_of r) then _ else _); cbn [snd]; [by left|]. intros H. apply IH in H as [H|(x & Hx & H)].
  - unfold dir_files at 1 in H. cbn in H. destruct (decide (host_of r = name)) as [<-|Hne].
    + rewrite lookup_insert_eq in H. injection H as <-. right. exists r. split_and!; [by left|done|done].
    + rewrite lookup_insert_ne in H by done. by left.
  - right. exists x. split; [by right|done].
Qed.

Lemma write_files_env routes : forall d, rd_mkdir (snd (write_files routes d)) = rd_mkdir d /\ rd_stuck (snd (write_files routes d)) = rd_stuck d.
Proof.
  induction routes as [|r routes IH]; intros d; cbn [write_files]; [done|].
  destruct (if writes_dir (host_of r) then _ else _); cbn [snd]; [done|]. exact (IH (set_files d _)).
Qed.

(** A directory the daemon may write, and that lets its own files go. *)
Definition host_ok (m : macResolverManager) : Prop := mr_unsupported m = false /\ rd_mkdir (mr_dir m) = None /\ rd_stuck (mr_dir m) = ∅.

(** Every file of RiftRoute is that of one of these routes. *)
Definition files_of (routes : list SplitDNSRoute) (m : macResolverManager) : Prop :=
  forall name c, dir_files (mr_dir m) !! name = Some c -> is_managed c = true -> exists r, r ∈ routes /\ host_of r = name /\ c = file_of r.

Lemma clear_unmanaged d name c : rd_stuck d = ∅ -> dir_files (clear_dir d) !! name = Some c -> is_managed c = false.
Proof.
  intros Hs. rewrite clear_dir_lookup, Hs. destruct (dir_files d !! name) as [x|]; [|done].
  rewrite (bool_decide_eq_false_2 (name ∈ ∅)), andb_true_r by set_solver. destruct (is_managed x) eqn:E; [done|]. by intros [= <-].
Qed.

Lemma mac_Apply_files m routes : host_ok m -> files_of routes (snd (mac_Apply routes m)) /\ host_ok (snd (mac_Apply routes m)).
Proof.
  intros (Hu & Hm & Hs). rewrite mac_Apply_eq by done. split.
  - intros name c Hc Hman. cbn [snd mr_dir set_dir] in Hc. apply write_files_sound in Hc as [Hc|Hc]; [|done].
    apply clear_unmanaged in Hc; [congruence|done].
  - destruct (write_files_env routes (clear_dir (opened (mr_dir m)))) as [E1 E2]. split_and!; cbn [snd mr_unsupported mr_dir set_dir]; [done|by rewrite E1|by rewrite E2].
Qed.

Lemma mac_Clear_files m routes : host_ok m -> files_of routes (snd (mac_Clear m)) /\ host_ok (snd (mac_Clear m)).
Proof.
  intros (Hu & Hm & Hs). rewrite mac_Clear_eq by done. split.
  - intros name c Hc Hman. apply clear_unmanaged in Hc; [congruence|done].
  - split_and!; [done|..]; cbn [snd mr_dir set_dir]; unfold clear_dir; by destruct (rd_files (mr_dir m)).
Qed.

Section dangling.
Context (range_apexes : gmap string string -> list string) (SplitHostPort : string -> option (string * string)).
Context (Hrange : forall m, range_apexes m ≡ₚ map fst (map_to_list m)).
Abbreviation Mac := (Daemon (D := macResolverManager)).
Implicit Types d : Mac.

(** What the daemon does to the learner and the files. *)
Inductive learner_step : Mac -> Mac -> Prop :=
| ls_sync rules try_ dns d : learner_step d (syncWildcards range_apexes SplitHostPort rules try_ dns d)
| ls_maintain now dns d : learner_step d (fst (maintain range_apexes SplitHostPort now dns d))
| ls_panic d : learner_step d (panic_dns range_apexes d)
| ls_select routes d : learner_step d (user_selects range_apexes routes d)
| ls_learn sort_seen range now rule fqdn addrs d : learner_step d (recordLearned sort_seen range now rule fqdn addrs d).

(** Every file of RiftRoute's holds what the user selected for its domain, or
    sends the domain of a wildcard in force to the port the learner serves on
    now, and the learner has somewhere to forward to. *)
Definition points_somewhere d : Prop :=
  forall name c, dir_files (mr_dir (cm_inner (dm_dns d))) !! name = Some c -> is_managed c = true ->
    (exists r, r ∈ cm_user (dm_dns d) /\ DomainRuleHost (sd_Domain r) = name /\ c = Some (ResolverFile (sd_Resolver r) (sd_Port r))) \/
    exists apex port, is_Some (px_apexes (dm_proxy d) !! apex) /\ DomainRuleHost apex = name /\
      px_port (dm_proxy d) = Some port /\ px_upstreams (dm_proxy d) <> [] /\ c = Some (ResolverFile "127.0.0.1" port).

(** A daemon that comes up with no files of its own about, and no learner. *)
Definition fresh_start d : Prop :=
  host_ok (cm_inner (dm_dns d)) /\ px_port (dm_proxy d) = None /\
  forall name c, dir_files (mr_dir (cm_inner (dm_dns d))) !! name = Some c -> is_managed c = false.

Record learner_inv d : Prop := mkLearnerInv {
  li_host : host_ok (cm_inner (dm_dns d));
  li_files : files_of (cm_user (dm_dns d) ++ learner_routes range_apexes (dm_proxy d)) (cm_inner (dm_dns d));
  li_ready : px_port (dm_proxy d) <> None -> dm_lastReady d = fst (proxy_Ready (dm_proxy d));
}.

Lemma files_of_mono routes routes' m : routes ⊆ routes' -> files_of routes m -> files_of routes' m.
Proof. intros Hs H name c Hc Hm. destruct (H name c Hc Hm) as (r & Hr & ?). exists r. split; [by apply Hs|done]. Qed.

Lemma dedupe_sub user extra : dedupePreferUser user extra ⊆ user ++ extra.
Proof. intros r. unfold dedupePreferUser, not_claimed. rewrite !elem_of_app, elem_of_keep_if. tauto. Qed.

(** A resync leaves the files of the user and of the learner as it is now. *)
Lemma resync_inv d : host_ok (cm_inner (dm_dns d)) ->
  (px_port (dm_proxy d) <> None -> dm_lastReady d = fst (proxy_Ready (dm_proxy d))) -> learner_inv (resync range_apexes d).
Proof.
  intros Hh Hr. unfold resync, Resync, applyLocked, with_extra. cbn [cm_inner cm_user cm_extra sm_Apply mac_manager].
  destruct (mac_Apply_files (cm_inner (dm_dns d)) (dedupePreferUser (cm_user (dm_dns d)) (learner_routes range_apexes (dm_proxy d))) Hh) as [H1 H2].
  destruct (mac_Apply _ _) as [err m]. cbn [snd] in *. constructor; cbn [dm_dns set_resolvers cm_inner cm_user dm_proxy dm_lastReady]; [done| |done].
  eapply files_of_mono; [apply dedupe_sub|done].
Qed.

(** A daemon whose learner and files are the same keeps the invariant. *)
Lemma learner_inv_same d d' : dm_dns d' = dm_dns d -> dm_proxy d' = dm_proxy d -> dm_lastReady d' = dm_lastReady d -> learner_inv d -> learner_inv d'.
Proof. intros E1 E2 E3 [H1 H2 H3]. constructor; by rewrite ?E1, ?E2, ?E3. Qed.

Lemma sync_learner_inv rules try_ dns d : learner_inv d -> learner_inv (syncWildcards range_apexes SplitHostPort rules try_ dns d).
Proof.
  intros Hd. unfold syncWildcards. destruct (Prune (dm_answers d) rules) as [answers pruned]. set (d1 := if pruned then _ else _).
  assert (learner_inv d1) as H1 by (unfold d1; destruct pruned; by eapply learner_inv_same; [..|exact Hd]). clearbody d1. case_if.
  - apply resync_inv; [apply H1|]. done.
  - unfold proxy_Start. destruct (px_port (dm_proxy d1)) as [n|] eqn:En; [|destruct (bind_both _ _ _ _)].
    + apply resync_inv; [apply H1|]. done.
    + by eapply learner_inv_same; [..|exact H1].
    + apply resync_inv; [apply H1|]. done.
Qed.

Lemma refresh_inv dns d : learner_inv d -> learner_inv (refreshLearnerDNS range_apexes SplitHostPort dns d).
Proof.
  intros Hd. unfold refreshLearnerDNS, Active. destruct (px_port (dm_proxy d)) as [n|] eqn:En; [|done]. cbn [fst negb].
  set (p := match dns with inl _ => _ | inr _ => _ end). assert (px_port p = Some n /\ px_apexes p = px_apexes (dm_proxy d)) as [Ep Ea].
  { unfold p. by destruct dns. }
  destruct (Bool.eqb _ _) eqn:E; cbn [negb]; [|apply resync_inv; [apply Hd|done]].
  apply Bool.eqb_prop in E. destruct Hd as [H1 H2 H3]. constructor; [done| |done]. cbn [dm_dns dm_proxy set_ready set_proxy].
  rewrite H3 in E by (by rewrite En). eapply files_of_mono; [|exact H2]. unfold learner_routes, proxy_Ready, Active, Ready in *. rewrite En, Ep in *. cbn [fst] in E.
  by rewrite <- E, Ea.
Qed.

Lemma learner_step_inv d d' : learner_step d d' -> learner_inv d -> learner_inv d'.
Proof.
  intros [rules try_ dns x|now dns x|x|routes x|sort_seen range now rule fqdn addrs x] Hd.
  - by apply sync_learner_inv.
  - unfold maintain. pose proof (refresh_inv dns x Hd) as H. set (y := refreshLearnerDNS _ _ _ _) in *. clearbody y. destruct (GC _ _) as [answers expired]. cbn [fst].
    case_if; by eapply learner_inv_same; [..|exact H].
  - unfold panic_dns, ApplyUserOnly, applyLocked, with_extra. cbn [cm_inner cm_user cm_extra sm_Apply mac_manager dm_dns set_ready set_proxy].
    destruct (mac_Apply_files (cm_inner (dm_dns x)) (cm_user (dm_dns x)) (li_host x Hd)) as [H1 H2]. destruct (mac_Apply _ _) as [err m]. cbn [snd] in *.
    constructor; cbn [dm_dns set_resolvers cm_inner dm_proxy set_ready set_proxy px_port proxy_Stop set_wildcards]; [done| |done].
    eapply files_of_mono; [|exact H1]. cbn. set_solver.
  - unfold user_selects. case_if.
    + unfold Composed_Clear, with_extra. cbn [cm_inner cm_user cm_extra sm_Clear mac_manager].
      destruct (mac_Clear_files (cm_inner (dm_dns x)) (cm_user (dm_dns x) ++ learner_routes range_apexes (dm_proxy x)) (li_host x Hd)) as [H1 H2].
      destruct (mac_Clear _) as [err m]. constructor; [exact H2|exact H1|apply Hd].
    + unfold Composed_Apply, Resync, applyLocked, with_extra. cbn [cm_inner cm_user cm_extra sm_Apply mac_manager].
      destruct (mac_Apply_files (cm_inner (dm_dns x)) (dedupePreferUser routes (learner_routes range_apexes (dm_proxy x))) (li_host x Hd)) as [H1 H2].
      destruct (mac_Apply _ _) as [err m]. constructor; [exact H2| |apply Hd]. eapply files_of_mono; [apply dedupe_sub|exact H1].
  - unfold recordLearned. destruct (Add _ _ _ _ _ _ _) as [answers changed]. by eapply learner_inv_same; [..|exact Hd].
Qed.

Lemma fresh_inv d : fresh_start d -> learner_inv d.
Proof.
  intros (Hh & Hp & Hf). constructor; [done| |by rewrite Hp]. intros name c Hc Hm. rewrite (Hf name c Hc) in Hm. done.
Qed.

Lemma inv_points d : learner_inv d -> points_somewhere d.
Proof.
  intros [_ Hf _] name c Hc Hm. destruct (Hf name c Hc Hm) as (r & Hr & Hn & Ec). apply elem_of_app in Hr as [Hr|Hr]; [left; by exists r|right].
  revert Hr. unfold learner_routes, proxy_Ready, Active, Ready. destruct (px_port (dm_proxy d)) as [port|] eqn:Ep; [|by intros ?%elem_of_nil].
  destruct (0 <? Z.of_nat (length (px_upstreams (dm_proxy d)))) eqn:Eu; [|by intros ?%elem_of_nil].
  intros (apex & -> & Ha)%list_elem_of_fmap. exists apex, port. split_and!; [|done|done| |done].
  - rewrite Hrange in Ha. apply list_elem_of_fmap in Ha as ([x v] & -> & Hx). apply elem_of_map_to_list in Hx. by exists v.
  - intros En. by rewrite En in Eu.
Qed.

(** C25: no resolver file ever points nowhere: from a start on a host with no
    resolver files of an earlier run (such files can outlive a learner that
    fails to start), through any sequence of rule changes, resolver changes,
    failed starts, failed writes, selections, answers and panics, every file of
    RiftRoute in the resolver directory is one the user selected, or sends the
    domain of a wildcard in force to the port the learner serves on now, and the
    learner has a resolver to forward to; a learner that stops or loses its
    resolvers loses its files in the same step. *)
Theorem no_dangling_resolver d d' : rtc learner_step d d' -> fresh_start d -> points_somewhere d'.
Proof.
  intros Hr Hd%fresh_inv. apply inv_points. induction Hr as [|x y z Hs _ IH]; [done|]. apply IH. by eapply learner_step_inv.
Qed.
End dangling.

(** ** Per-app marks (internal/perapp, main.go) *)

Definition markTable : string := "riftroute_mark".

Definition mark_rule (mark cg : string) : string := "    socket cgroupv2 level 2 " +:+ quoted cg +:+ " meta mark set " +:+ mark +:+ nl.

Definition BuildNftMarkRuleset (cgroups : list string) (mark : string) : string :=
  "table inet " +:+ markTable +:+ " {" +:+ nl +:+ "  chain mark {" +:+ nl +:+ "    type route hook output priority -150; policy accept;" +:+ nl +:+
  String.concat "" (map (mark_rule mark) cgroups) +:+ "  }" +:+ nl +:+ "}" +:+ nl.

(** nft as the daemon uses it: loading a ruleset, deleting a table; what it marks
    is the rules of the daemon's own table. *)
Class Nft (N : Type) : Type := {
  nft_load : string -> N -> option error * N;
  nft_delete : string -> N -> option error * N;
  nft_marks : N -> list (string * string);
}.

Record nftMarker (N : Type) : Type := mkNftMarker { nm_unsupported : bool; nm_nft : N }.
Arguments mkNftMarker {N} _ _. Arguments nm_unsupported {N} n. Arguments nm_nft {N} n.

Section marks.
Context {N : Type} `{!Nft N}.
Implicit Types m : nftMarker N.

Definition Mark (cgroups : list string) (mark : string) m : option error * nftMarker N :=
  if nm_unsupported m then (Some (Errorf "per-app routing requires Linux (cgroup v2 + fwmark)" []), m)
  else
    let '(err, n) := nft_load (BuildNftMarkRuleset cgroups mark) (nm_nft m) in
    (match err with Some e => Some (Wrapf "nft mark: %w" [] e) | None => None end, mkNftMarker false n).

Definition Unmark m : option error * nftMarker N :=
  if nm_unsupported m then (None, m) else (None, mkNftMarker false (snd (nft_delete markTable (nm_nft m)))).

(** The daemon's marker and the set it last marked, as text. *)
Record AppMarks : Type := mkAppMarks { am_marker : nftMarker N; am_last : string }.

(** [cgs]: the cgroups of the stored profiles' app rules. *)
Definition syncPerApp (perApp : bool) (cgs : list string) (s : AppMarks) : AppMarks :=
  if negb perApp then s
  else
    let key := Join cgs nl in
    if am_last s =s? key then s
    else
      let '(err, m) := if bool_decide (cgs = []) then Unmark (am_marker s) else Mark cgs ModelBMark (am_marker s) in
      match err with Some _ => mkAppMarks m (am_last s) | None => mkAppMarks m key end.

(** A name that ends neither the string it is written in nor the line. *)
Definition plain_cgroup (cg : string) : bool := str_forall (fun c => negb (Ascii.eqb c (ascii_of_nat 34)) && negb (Ascii.eqb c (ascii_of_nat 10))) cg.

(** nft(8): the rules of a file are added to what its tables and chains hold, all
    of them or, on an error, none; a deleted table holds none. *)
Record NftLaws (mark : string) : Prop := mkNftLaws {
  nl_adds : forall cgs n, Forall (fun cg => plain_cgroup cg = true) cgs -> fst (nft_load (BuildNftMarkRuleset cgs mark) n) = None ->
    nft_marks (snd (nft_load (BuildNftMarkRuleset cgs mark) n)) = nft_marks n ++ map (fun cg => (cg, mark)) cgs;
  nl_whole : forall cgs n, Forall (fun cg => plain_cgroup cg = true) cgs -> fst (nft_load (BuildNftMarkRuleset cgs mark) n) <> None ->
    nft_marks (snd (nft_load (BuildNftMarkRuleset cgs mark) n)) = nft_marks n;
  nl_deletes : forall n, nft_marks (snd (nft_delete markTable n)) = [];
}.

Definition marked (s : AppMarks) (cg : string) : Prop := (cg, ModelBMark) ∈ nft_marks (nm_nft (am_marker s)).

(** every app that is wanted is marked, and no app that goes is unmarked: a sync
    that succeeds leaves every wanted cgroup marked; when none is wanted any more
    and one was, none is; but one that is no longer wanted while another is stays
    marked, so its traffic keeps going into the tunnel. *)
Theorem marks_accumulate (s : AppMarks) cgs :
  NftLaws ModelBMark -> nm_unsupported (am_marker s) = false -> Forall (fun cg => plain_cgroup cg = true) cgs -> am_last s <> Join cgs nl ->
  let s' := syncPerApp true cgs s in
  am_last s' = Join cgs nl ->
  (forall cg, cg ∈ cgs -> marked s' cg) /\
  (cgs = [] -> forall cg, ~ marked s' cg) /\
  (cgs <> [] -> forall cg, marked s cg -> marked s' cg).
Proof.
  intros L Hu Hp Hl s'. unfold s', marked, syncPerApp. cbn [negb]. rewrite (proj2 (String.eqb_neq _ _) Hl). unfold Unmark, Mark. rewrite Hu.
  case_bool_decide as Ec; cbn [am_marker nm_nft am_last].
  - intros _. subst cgs. split_and!; [set_solver| |done]. intros _ cg. rewrite (nl_deletes _ L). apply not_elem_of_nil.
  - pose proof (nl_adds _ L cgs (nm_nft (am_marker s)) Hp) as Ha. destruct (nft_load _ _) as [[e|] n]; cbn [am_last]; [by intros|]. intros _.
    cbn [fst snd] in Ha. cbn [am_marker nm_nft]. rewrite (Ha eq_refl). split_and!; [|done|].
    + intros cg Hc. apply elem_of_app. right. apply (list_elem_of_fmap_2 (fun cg => (cg, ModelBMark)) cgs cg Hc).
    + intros _ cg Hc. apply elem_of_app. by left.
Qed.
End marks.
Arguments AppMarks : clear implicits.

(** A name with a quote is not written as one: two rulesets come out the same, so
    what follows the quote is nft's to read; the checks accept such a rule. *)
Definition ex_breakout : string :=
  "a" +:+ String (ascii_of_nat 34) " meta mark set 0x5252" +:+ nl +:+ "    socket cgroupv2 level 2 " +:+ String (ascii_of_nat 34) "b".

Lemma quote_breaks_ruleset :
  BuildNftMarkRuleset [ex_breakout] "0x5252" = BuildNftMarkRuleset ["a"; "b"] "0x5252" /\ errs (validateRule "rules[0]" "app" ex_breakout) = false.
Proof. by vm_compute. Qed.

(** *** Witness: an nft that takes the ruleset of one app *)

Lemma append_inj_r (c : string) : forall a b, a +:+ c = b +:+ c -> a = b.
Proof.
  assert (forall a b, a +:+ c = b +:+ c -> String.length a = String.length b) as Hl.
  { intros a b H. apply (f_equal String.length) in H. rewrite !length_append in H. lia. }
  induction a as [|x a IH]; intros [|y b] H; [done|by apply Hl in H..|]. injection H as -> H. f_equal. by apply IH.
Qed.

Lemma mark_rule_length mark cg : String.length (mark_rule mark cg) = (46 + String.length cg + String.length mark)%nat.
Proof. unfold mark_rule, quoted, nl. repeat (rewrite length_append || cbn [String.length]). lia. Qed.

Lemma concat_nil (l : list string) : String.concat "" l = foldr String.append "" l.
Proof. induction l as [|x [|y l] IH]; [done|cbn; by rewrite append_nil_r|]. change (String.concat "" (x :: y :: l)) with (x +:+ String.concat "" (y :: l)). by rewrite IH. Qed.

Lemma one_app_ruleset cgs mark cg : (String.length cg < 45)%nat -> BuildNftMarkRuleset cgs mark = BuildNftMarkRuleset [cg] mark -> cgs = [cg].
Proof.
  intros Hlen H. unfold BuildNftMarkRuleset in H. do 8 apply append_inj_l in H. rewrite !concat_nil in H. cbn [map foldr] in H. rewrite append_nil_r in H.
  destruct cgs as [|x [|y cgs]]; cbn [map foldr] in H.
  - apply (f_equal String.length) in H. rewrite !length_append, mark_rule_length in H. cbn [String.length] in H. lia.
  - rewrite append_nil_r in H. apply append_inj_r in H. unfold mark_rule in H. apply append_inj_l in H. unfold quoted in H.
    change (String ?q ?a +:+ ?b) with (String q (a +:+ b)) in H. injection H as H. rewrite !append_assoc in H. apply append_inj_r in H. by subst x.
  - apply (f_equal String.length) in H. rewrite !length_append, !mark_rule_length in H. lia.
Qed.

Definition ex_app : string := "app.slice/a".
Definition ex_other : string := "app.slice/b".

Definition ex_load (text : string) (n : list (string * string)) : option error * list (string * string) :=
  if text =s? BuildNftMarkRuleset [ex_app] ModelBMark then (None, n ++ [(ex_app, ModelBMark)])
  else if text =s? BuildNftMarkRuleset [ex_other] ModelBMark then (None, n ++ [(ex_other, ModelBMark)])
  else (Some (Errorf "syntax error" []), n).

#[export] Instance ex_nft : Nft (list (string * string)) := {| nft_load := ex_load; nft_delete _ _ := (None, []); nft_marks n := n |}.

Lemma ex_nft_laws : NftLaws (N := list (string * string)) ModelBMark.
Proof.
  constructor; cbn [nft_load nft_delete nft_marks ex_nft]; [| |done].
  - intros cgs n _. unfold ex_load. destruct (String.eqb_spec (BuildNftMarkRuleset cgs ModelBMark) (BuildNftMarkRuleset [ex_app] ModelBMark)) as [E|_].
    { apply one_app_ruleset in E as ->; [done|cbn; lia]. }
    destruct (String.eqb_spec (BuildNftMarkRuleset cgs ModelBMark) (BuildNftMarkRuleset [ex_other] ModelBMark)) as [E|_]; [|done].
    apply one_app_ruleset in E as ->; [done|cbn; lia].
  - intros cgs n _. unfold ex_load. by repeat case_if.
Qed.

(** The first app is wanted, then only the other: both stay marked. *)
Lemma marks_accumulate_witness :
  let s0 := mkAppMarks (mkNftMarker false []) "" : AppMarks (list (string * string)) in
  let s1 := syncPerApp true [ex_app] s0 in
  marked (syncPerApp true [ex_other] s1) ex_app.
Proof.
  intros s0 s1. refine (proj2 (proj2 (marks_accumulate s1 [ex_other] ex_nft_laws _ _ _ _)) _ ex_app _).
  - vm_compute. reflexivity.
  - constructor; [vm_compute; reflexivity|constructor].
  - vm_compute. discriminate.
  - vm_compute. reflexivity.
  - discriminate.
  - apply (bool_decide_unpack ((ex_app, ModelBMark) ∈ nft_marks (nm_nft (am_marker s1)))). vm_compute. exact I.
Defined.

(** *** Witness: the learner comes up for a wildcard rule *)

Definition ex_started : Daemon (D := macResolverManager) :=
  mkDaemon (mkProxy None [] ∅) (mkComposed ex_resolvers [] []) false (NewAnswerStore 256) None false.

Definition ex_apexes (m : gmap string string) : list string := map fst (map_to_list m).
Definition ex_split_port (s : string) : option (string * string) := None.

Lemma no_dangling_resolver_witness :
  points_somewhere (syncWildcards ex_apexes ex_split_port ["*.media.example"] (fun _ => inr (5353, None)) (inr ["192.0.2.53"]) ex_started) /\
  dir_files (mr_dir (cm_inner (dm_dns (syncWildcards ex_apexes ex_split_port ["*.media.example"] (fun _ => inr (5353, None)) (inr ["192.0.2.53"]) ex_started))))
    !! "media.example" = Some (Some (ResolverFile "127.0.0.1" 5353)).
Proof.
  split; [|vm_compute; reflexivity].
  refine (no_dangling_resolver ex_apexes ex_split_port (fun m => Permutation_refl _) ex_started _ (rtc_once _ _ (ls_sync _ _ _ _ _ _)) _).
  split; [split; [reflexivity|split; reflexivity]|]. split; [reflexivity|].
  intros name c Hc. unfold ex_started, ex_resolvers, ex_dir in Hc. cbn in Hc. apply lookup_singleton_Some in Hc as [_ <-]. vm_compute. reflexivity.
Defined.

(** A file an earlier run left, when the learner cannot start: it stays, and
    names a port nobody serves. *)
Lemma failed_start_keeps_file :
  let stale := mkDir (Some {[ "media.example" := Some (ResolverFile "127.0.0.1" 4444) ]}) None (fun _ => None) ∅ in
  let d := mkDaemon (mkProxy None [] ∅) (mkComposed (mkMacResolver false "darwin" stale) [] []) false (NewAnswerStore 256) None false in
  let d' := syncWildcards ex_apexes ex_split_port ["*.media.example"] (fun _ => inl (Errorf "bind_both" [])) (inr ["192.0.2.53"]) d in
  fst (Active (dm_proxy d')) = false /\
  dir_files (mr_dir (cm_inner (dm_dns d'))) !! "media.example" = Some (Some (ResolverFile "127.0.0.1" 4444)).
Proof. by vm_compute. Qed.
