(* ===== verification/Wgconf.v ===== *)
(** * WireGuard configurations (internal/tunnel/wgconf.go)

    A wg-quick file is read row by row, checked and reduced to what a split
    tunnel uses, and rendered as the device's own settings. Keys are strings of
    32 bytes. Text is bytes; the spaces trimmed are the ASCII ones, and case is
    folded for ASCII letters. *)

From Stdlib Require Import Ascii.
From S2P Require Import Prelude.
From S2P Require Import Netip NetipText Aggregate Domain Reconcile Input Provider Netmon Killswitch Pfconf Update Text Addressing TunnelManager TunnelSession Ovpn.

(** ** Base64 and hexadecimal *)

(** [base64.StdEncoding.DecodeString]: the value of a letter, and whole groups of
    four, the last one padded; newlines are skipped. The bits a padded group
    has left over are not looked at. *)
Definition b64_value (c : ascii) : option Z :=
  let n := code c in
  if (65 <=? n) && (n <=? 90) then Some (n - 65)
  else if (97 <=? n) && (n <=? 122) then Some (n - 71)
  else if (48 <=? n) && (n <=? 57) then Some (n + 4)
  else if n =? 43 then Some 62
  else if n =? 47 then Some 63
  else None.

Definition byte (n : Z) : ascii := chr (n mod 256).

Fixpoint b64_groups (s : string) : option string :=
  match s with
  | EmptyString => Some ""
  | String a (String b (String c (String d rest))) =>
      x ← b64_value a; y ← b64_value b;
      let first := byte (x * 4 + y / 16) in
      if Ascii.eqb c "=" then
        if Ascii.eqb d "=" then match rest with EmptyString => Some (String first "") | _ => None end else None
      else
        z ← b64_value c;
        let second := byte (y mod 16 * 16 + z / 4) in
        if Ascii.eqb d "=" then match rest with EmptyString => Some (String first (String second "")) | _ => None end
        else t ← b64_value d; more ← b64_groups rest; Some (String first (String second (String (byte (z mod 4 * 64 + t)) more)))
  | _ => None
  end.

Fixpoint drop_newlines (s : string) : string :=
  match s with EmptyString => "" | String c s' => if (code c =? 10) || (code c =? 13) then drop_newlines s' else String c (drop_newlines s') end.

Definition DecodeString (s : string) : option string := b64_groups (drop_newlines s).

Definition hex_char (n : Z) : ascii := if n <? 10 then chr (48 + n) else chr (87 + n).
Fixpoint EncodeToString (s : string) : string :=
  match s with EmptyString => "" | String c s' => String (hex_char (code c / 16)) (String (hex_char (code c mod 16)) (EncodeToString s')) end.

(** ** The configuration *)

Record WGPeer : Type := mkWGPeer { wp_PublicKey : string; wp_PresharedKey : option string; wp_Endpoint : Remote; wp_AllowedIPs : list prefix; wp_Keepalive : Z }.
Record WGConfig : Type := mkWGConfig { wc_PrivateKey : string; wc_Addresses : list prefix; wc_MTU : Z; wc_Peers : list WGPeer; wc_Ignored : list string }.

Definition maxWGConfigBytes : Z := 65536.
Definition maxWGPeers : Z := 16.
Definition maxWGAddresses : Z := 16.
Definition maxWGAllowedIPs : Z := 1024.

Fixpoint zeros (n : nat) : string := match n with O => "" | S n' => String (chr 0) (zeros n') end.
Definition no_key : string := zeros 32.
Definition no_peer : WGPeer := mkWGPeer no_key None (mkRemote "" 0 "") [] 0.

Definition wgIgnored (key : string) : bool :=
  mem key ["dns"; "table"; "preup"; "postup"; "predown"; "postdown"; "saveconfig"; "listenport"; "fwmark"].

(** ** Values *)

Definition wgKey (s : string) : error + string :=
  match DecodeString s with
  | Some b => if (String.length b =? 32)%nat then inr b else inl (Errorf "not a WireGuard key (32 bytes, base64)" [])
  | None => inl (Errorf "not a WireGuard key (32 bytes, base64)" [])
  end.

Definition splitList (v : string) : list string := keep_if (fun s => negb (s =s? "")) (map TrimSpace (Split v ",")).

Definition hostPrefix (s : string) : error + prefix :=
  match ParsePrefix s with
  | Some p => inr p
  | None =>
      match ParseAddr s with
      | Some a => if Zone a =s? "" then inr (PrefixFrom a (BitLen a)) else inl (Errorf "%q is not an address or CIDR" [s])
      | None => inl (Errorf "%q is not an address or CIDR" [s])
      end
  end.

Definition host_mark (c : ascii) : bool := is_char 32 c || is_char 9 c || is_char 34 c || is_char 39 c || is_char 37 c.

(** [strings.Replace(why, "remote", "endpoint", 1)]: the messages begin with
    the word. *)
Definition endpoint_why (why : error) : error :=
  match why with
  | Errorf format args => Errorf ("endpoint" +:+ str_drop 6 format) args
  | Wrapf format args cause => Wrapf ("endpoint" +:+ str_drop 6 format) args cause
  end.

(** The host and the port an endpoint is split into. *)
Definition endpoint_parts (s : string) : error + (string * string) :=
  match (if HasPrefix s "[" then find_sub s "]:" else None) with
  | Some (host, rest) => inr (TrimPrefix host "[", str_drop 2 rest)
  | None =>
      match cut_last ":" s with
      | None | Some (EmptyString, _) => inl (Errorf "endpoint %q needs host:port" [s])
      | Some (host, port) => if Contains_str host ":" then inl (Errorf "endpoint %q: an IPv6 address goes in brackets" [s]) else inr (host, port)
      end
  end.

Definition wgEndpoint (s : string) : error + Remote :=
  match endpoint_parts s with
  | inl e => inl e
  | inr (host, port) =>
      match Atoi port with
      | None => inl (Errorf "endpoint %q has no valid port" [s])
      | Some p =>
          if (p <? 1) || (65535 <? p) then inl (Errorf "endpoint %q has no valid port" [s])
          else if (host =s? "") || negb (str_forall (fun c => negb (host_mark c)) host) then inl (Errorf "endpoint %q has no valid host" [s])
          else match checkRemoteAddr host with Some why => inl (endpoint_why why) | None => inr (mkRemote host p "udp") end
      end
  end.

(** ** Reading the rows *)

Inductive wg_section : Type := NoSection | InInterface | InPeer.

Record wg_state : Type := mkWG { ws_section : wg_section; ws_config : WGConfig; ws_ignored : list string; ws_sawInterface : bool; ws_sawKey : bool }.

Definition wg_start : wg_state := mkWG NoSection (mkWGConfig no_key [] 0 [] []) [] false false.

Definition set_config (c : WGConfig) (st : wg_state) : wg_state := mkWG (ws_section st) c (ws_ignored st) (ws_sawInterface st) (ws_sawKey st).

(** The prefixes of a list, up to the first that is not one: those read are
    added to what is there. *)
Fixpoint add_prefixes (vs : list string) (acc : list prefix) : option error * list prefix :=
  match vs with
  | [] => (None, acc)
  | v :: vs' => match hostPrefix v with inl e => (Some e, acc) | inr p => add_prefixes vs' (acc ++ [p]) end
  end.

Definition read_prefixes (value what : string) (limit : Z) (acc : list prefix) : error + list prefix :=
  let '(err, l) := add_prefixes (splitList value) acc in
  match (if limit <? Z.of_nat (length l) then Some (Errorf what [pretty limit]) else err) with
  | Some e => inl e
  | None => inr l
  end.

Definition ranged (value : string) (lo hi : Z) (what : string) : error + Z :=
  match Atoi value with
  | None => inl (Errorf "strconv.Atoi: parsing %q" [value])
  | Some n => if (n <? lo) || (hi <? n) then inl (Errorf what [pretty n]) else inr n
  end.

(** A setting of the interface; [None] for an unknown key. *)
Definition wg_interface (key value : string) (st : wg_state) : option (error + wg_state) :=
  let c := ws_config st in
  if key =s? "privatekey" then
    Some (let? k := wgKey value in
          if k =s? no_key then inl (Errorf "the PrivateKey is all zeros" [])
          else inr (mkWG (ws_section st) (mkWGConfig k (wc_Addresses c) (wc_MTU c) (wc_Peers c) (wc_Ignored c)) (ws_ignored st) (ws_sawInterface st) true))
  else if key =s? "address" then
    Some (let? l := read_prefixes value "more than %d addresses" maxWGAddresses (wc_Addresses c) in
          inr (set_config (mkWGConfig (wc_PrivateKey c) l (wc_MTU c) (wc_Peers c) (wc_Ignored c)) st))
  else if key =s? "mtu" then
    Some (let? n := ranged value 1280 9000 "MTU %d is outside 1280–9000" in
          inr (set_config (mkWGConfig (wc_PrivateKey c) (wc_Addresses c) n (wc_Peers c) (wc_Ignored c)) st))
  else None.

(** A setting of a peer. *)
Definition wg_peer (key value : string) (p : WGPeer) : option (error + WGPeer) :=
  if key =s? "publickey" then Some (let? k := wgKey value in inr (mkWGPeer k (wp_PresharedKey p) (wp_Endpoint p) (wp_AllowedIPs p) (wp_Keepalive p)))
  else if key =s? "presharedkey" then Some (let? k := wgKey value in inr (mkWGPeer (wp_PublicKey p) (Some k) (wp_Endpoint p) (wp_AllowedIPs p) (wp_Keepalive p)))
  else if key =s? "endpoint" then Some (let? e := wgEndpoint value in inr (mkWGPeer (wp_PublicKey p) (wp_PresharedKey p) e (wp_AllowedIPs p) (wp_Keepalive p)))
  else if key =s? "allowedips" then
    Some (let? l := read_prefixes value "more than %d allowed IPs" maxWGAllowedIPs (wp_AllowedIPs p) in
          inr (mkWGPeer (wp_PublicKey p) (wp_PresharedKey p) (wp_Endpoint p) l (wp_Keepalive p)))
  else if key =s? "persistentkeepalive" then
    Some (let? n := (if EqualFold value "off" then inr 0 else ranged value 0 65535 "keepalive %d is out of range") in
          inr (mkWGPeer (wp_PublicKey p) (wp_PresharedKey p) (wp_Endpoint p) (wp_AllowedIPs p) n))
  else None.

(** Changes the last peer; [None] when there is none, a nil dereference. *)
Fixpoint on_last {E} (f : WGPeer -> E + WGPeer) (ps : list WGPeer) : option (E + list WGPeer) :=
  match ps with
  | [] => None
  | [p] => Some (match f p with inl e => inl e | inr p' => inr [p'] end)
  | p :: ps' => match on_last f ps' with None => None | Some (inl e) => Some (inl e) | Some (inr l) => Some (inr (p :: l)) end
  end.

(** [TrimSuffix(raw, "\r")]. *)
Fixpoint drop_cr (s : string) : string :=
  match s with
  | EmptyString => ""
  | String c EmptyString => if code c =? 13 then "" else s
  | String c s' => String c (drop_cr s')
  end.

(** A row as it counts: what is before a comment, trimmed. *)
Definition wg_row (raw : string) : option string :=
  let row := drop_cr raw in
  if negb (str_forall (fun c => negb (control_char c)) row) then None else Some (TrimSpace (fst (fst (Cut row "#")))).

Definition add_peer (c : WGConfig) : WGConfig := mkWGConfig (wc_PrivateKey c) (wc_Addresses c) (wc_MTU c) (wc_Peers c ++ [no_peer]) (wc_Ignored c).
Definition set_peers (ps : list WGPeer) (c : WGConfig) : WGConfig := mkWGConfig (wc_PrivateKey c) (wc_Addresses c) (wc_MTU c) ps (wc_Ignored c).

Definition wg_open (row : string) (st : wg_state) : error + wg_state :=
  if ToLower row =s? "[interface]" then
    if ws_sawInterface st then inl (Errorf "a second [Interface] section" [])
    else inr (mkWG InInterface (ws_config st) (ws_ignored st) true (ws_sawKey st))
  else if ToLower row =s? "[peer]" then
    if Z.of_nat (length (wc_Peers (ws_config st))) =? maxWGPeers then inl (Errorf "more than %d peers" [pretty maxWGPeers])
    else inr (mkWG InPeer (add_peer (ws_config st)) (ws_ignored st) (ws_sawInterface st) (ws_sawKey st))
  else inl (Errorf "unknown section %s" [row]).

Definition unknown_setting (written : string) : error := Errorf "%s isn't a WireGuard setting RiftRoute knows" [written].

(** A setting, its key as written. [None] is a nil dereference. *)
Definition wg_setting (written value : string) (st : wg_state) : option (error + wg_state) :=
  let key := ToLower written in
  match ws_section st with
  | NoSection => Some (inl (Errorf "%s outside a section" [key]))
  | InInterface =>
      if wgIgnored key then
        Some (inr (mkWG (ws_section st) (ws_config st) (if mem written (ws_ignored st) then ws_ignored st else ws_ignored st ++ [written]) (ws_sawInterface st) (ws_sawKey st)))
      else match wg_interface key value st with Some r => Some r | None => Some (inl (unknown_setting written)) end
  | InPeer =>
      match on_last (fun p => match wg_peer key value p with Some r => r | None => inl (unknown_setting written) end) (wc_Peers (ws_config st)) with
      | None => None
      | Some (inl e) => Some (inl e)
      | Some (inr ps) => Some (inr (set_config (set_peers ps (ws_config st)) st))
      end
  end.

Definition wg_step (raw : string) (st : wg_state) : option (error + wg_state) :=
  match wg_row raw with
  | None => Some (inl (Errorf "control character" []))
  | Some row =>
      if row =s? "" then Some (inr st)
      else if HasPrefix row "[" then Some (wg_open row st)
      else let '(key, value, ok) := Cut row "=" in
           if negb ok then Some (inl (Errorf "expected key = value" [])) else wg_setting (TrimSpace key) (TrimSpace value) st
  end.

Fixpoint wg_rows (n : Z) (rows : list string) (st : wg_state) : option (ProfileError + wg_state) :=
  match rows with
  | [] => Some (inr st)
  | raw :: rest =>
      match wg_step raw st with
      | None => None
      | Some (inl e) => Some (inl (mkProfileError n e))
      | Some (inr st') => wg_rows (n + 1) rest st'
      end
  end.

Fixpoint peer_missing (i : Z) (ps : list WGPeer) : option error :=
  match ps with
  | [] => None
  | p :: ps' =>
      if wp_PublicKey p =s? no_key then Some (Errorf "peer %d has no PublicKey" [pretty i])
      else if rm_Host (wp_Endpoint p) =s? "" then Some (Errorf "peer %d has no Endpoint (a client needs one to connect to)" [pretty i])
      else peer_missing (i + 1) ps'
  end.

Definition wg_missing (st : wg_state) : option error :=
  if negb (ws_sawInterface st) then Some (Errorf "no [Interface] section" [])
  else if negb (ws_sawKey st) then Some (Errorf "the [Interface] has no PrivateKey" [])
  else match wc_Addresses (ws_config st), wc_Peers (ws_config st) with
       | [], _ => Some (Errorf "the [Interface] has no Address" [])
       | _, [] => Some (Errorf "no [Peer]" [])
       | _, ps => peer_missing 1 ps
       end.

(** [ParseWG]; [None] is a nil dereference. *)
Definition ParseWG (text : string) : option (ProfileError + WGConfig) :=
  if maxWGConfigBytes <? Z.of_nat (String.length text) then
    Some (inl (mkProfileError 0 (Errorf "the configuration is larger than %d KiB" [pretty (maxWGConfigBytes / 1024)])))
  else
    match wg_rows 1 (split_lines text) wg_start with
    | None => None
    | Some (inl e) => Some (inl e)
    | Some (inr st) =>
        match wg_missing st with
        | Some e => Some (inl (mkProfileError 0 e))
        | None =>
            let c := ws_config st in
            Some (inr (mkWGConfig (wc_PrivateKey c) (wc_Addresses c) (wc_MTU c) (wc_Peers c) (slice_stable str_less (ws_ignored st))))
        end
    end.

Definition WG_Servers (c : WGConfig) : list string := map (fun p => Remote_String (wp_Endpoint p)) (wc_Peers c).
Definition WG_Remotes (c : WGConfig) : list Remote := map wp_Endpoint (wc_Peers c).

Definition IsWireGuard (text : string) : bool := existsb (fun l => EqualFold (TrimSpace l) "[interface]") (split_lines text).

(** ** The device's settings *)

Definition setting (key value : string) : string := key +:+ "=" +:+ value +:+ nl.

Definition peer_settings (p : WGPeer) (endpoint : addr * Z) : string :=
  setting "public_key" (EncodeToString (wp_PublicKey p)) +:+
  (match wp_PresharedKey p with Some k => setting "preshared_key" (EncodeToString k) | None => "" end) +:+
  setting "endpoint" (addrport_String endpoint) +:+
  (if 0 <? wp_Keepalive p then setting "persistent_keepalive_interval" (pretty (wp_Keepalive p)) else "") +:+
  setting "replace_allowed_ips" "true" +:+
  foldr (fun a b => setting "allowed_ip" (prefix_String a) +:+ b) "" (wp_AllowedIPs p).

Definition UAPI (c : WGConfig) (endpoints : list (addr * Z)) : error + string :=
  if negb (length endpoints =? length (wc_Peers c))%nat then
    inl (Errorf "%d endpoints for %d peers" [pretty (Z.of_nat (length endpoints)); pretty (Z.of_nat (length (wc_Peers c)))])
  else inr (setting "private_key" (EncodeToString (wc_PrivateKey c)) +:+ setting "replace_peers" "true" +:+
            foldr (fun pe b => peer_settings (fst pe) (snd pe) +:+ b) "" (zip (wc_Peers c) endpoints)).
