(* ===== verification/WgFacts.v ===== *)
(** * What a WireGuard file can do

    An accepted file is complete and within its limits, its endpoints are
    places a server can be at, and the settings the device is given are exactly
    the rows its fields make: no value can add a row. Parsing never reaches a
    peer that is not there. *)

From Stdlib Require Import Ascii.
From S2P Require Import Prelude.
From S2P Require Import Netip NetipText Aggregate Domain Reconcile Input Provider Netmon Killswitch Pfconf Update Text Addressing TunnelManager TunnelSession Ovpn Wgconf.

(** ** An accepted file *)

Definition is_key (k : string) : Prop := String.length k = 32%nat.

Definition endpoint_ok (r : Remote) : Prop :=
  rm_Host r <> "" /\ 1 <= rm_Port r <= 65535 /\ rm_Proto r = "udp" /\ checkRemoteAddr (rm_Host r) = None /\
  str_forall (fun c => negb (host_mark c)) (rm_Host r) = true.

Definition nets_ok (limit : Z) (l : list prefix) : Prop := Z.of_nat (length l) <= limit /\ Forall (fun p => prefix_ok p /\ pfx_IsValid p = true) l.

(** What holds of a peer while it is being read. *)
Record peer_ok (p : WGPeer) : Prop := mkPeerOk {
  po_key : is_key (wp_PublicKey p);
  po_shared : from_option is_key True (wp_PresharedKey p);
  po_endpoint : rm_Host (wp_Endpoint p) = "" \/ endpoint_ok (wp_Endpoint p);
  po_nets : nets_ok maxWGAllowedIPs (wp_AllowedIPs p);
  po_keepalive : 0 <= wp_Keepalive p <= 65535;
}.

Record wg_ok (st : wg_state) : Prop := mkWgOk {
  wo_key : is_key (wc_PrivateKey (ws_config st)) /\ (ws_sawKey st = true -> wc_PrivateKey (ws_config st) <> no_key);
  wo_nets : nets_ok maxWGAddresses (wc_Addresses (ws_config st));
  wo_mtu : wc_MTU (ws_config st) = 0 \/ 1280 <= wc_MTU (ws_config st) <= 9000;
  wo_peers : Z.of_nat (length (wc_Peers (ws_config st))) <= maxWGPeers /\ Forall peer_ok (wc_Peers (ws_config st));
  wo_open : ws_section st = InPeer -> wc_Peers (ws_config st) <> [];
}.

Lemma wgKey_is_key v k : wgKey v = inr k -> is_key k.
Proof. unfold wgKey, is_key. destruct (DecodeString v) as [b|]; [|done]. destruct (Nat.eqb_spec (String.length b) 32); by intros [= <-]. Qed.

Lemma hostPrefix_ok s p : hostPrefix s = inr p -> prefix_ok p /\ pfx_IsValid p = true.
Proof.
  unfold hostPrefix. destruct (ParsePrefix s) as [q|] eqn:E; [intros [= <-]; by eapply ParsePrefix_ok|].
  destruct (ParseAddr s) as [a|] eqn:Ea; [|done]. destruct (String.eqb_spec (Zone a) "") as [Hz|]; [|done]. intros [= <-].
  apply ParseAddr_ok in Ea as [Ha Hv]. unfold PrefixFrom. assert (0 <= BitLen a) as Hb by (destruct a; cbn; lia).
  rewrite Hv, (proj2 (Z.leb_le 0 (BitLen a))), Z.leb_refl by done. cbn [andb].
  destruct a as [|n|n z]; cbn in Hz; subst; [done|..]; (split; [|done]); refine (conj Ha (conj eq_refl (or_intror (conj eq_refl _)))); cbn; lia.
Qed.

Lemma add_prefixes_ok vs acc err l : add_prefixes vs acc = (err, l) -> Forall (fun p => prefix_ok p /\ pfx_IsValid p = true) acc ->
  Forall (fun p => prefix_ok p /\ pfx_IsValid p = true) l.
Proof.
  revert acc. induction vs as [|v vs IH]; intros acc; cbn [add_prefixes]; [by intros [= <- <-]|].
  destruct (hostPrefix v) as [e|p] eqn:E; [by intros [= <- <-]|]. intros H Ha. eapply IH; [exact H|]. apply Forall_app. split; [done|].
  apply Forall_singleton. by eapply hostPrefix_ok.
Qed.

Lemma read_prefixes_ok value what limit acc l : read_prefixes value what limit acc = inr l -> nets_ok limit acc -> nets_ok limit l.
Proof.
  unfold read_prefixes. destruct (add_prefixes _ acc) as [err l0] eqn:E. destruct (Z.ltb_spec limit (Z.of_nat (length l0))); [done|].
  destruct err; [done|]. intros [= <-] [_ Ha]. split; [done|]. by eapply add_prefixes_ok.
Qed.

Lemma ranged_ok value lo hi what n : ranged value lo hi what = inr n -> lo <= n <= hi.
Proof. unfold ranged. destruct (Atoi value) as [m|]; [|done]. destruct (Z.ltb_spec m lo), (Z.ltb_spec hi m); cbn; try done. intros [= <-]. lia. Qed.

Lemma wgEndpoint_ok s r : wgEndpoint s = inr r -> endpoint_ok r.
Proof.
  unfold wgEndpoint. destruct (endpoint_parts s) as [|[host port]]; [done|]. destruct (Atoi port) as [p|]; [|done].
  destruct (Z.ltb_spec p 1), (Z.ltb_spec 65535 p); cbn [orb]; try done. destruct (String.eqb_spec host ""); [done|]. cbn [orb].
  destruct (str_forall _ host) eqn:Em; [|done]. cbn [negb]. destruct (checkRemoteAddr host) eqn:Ec; [done|]. intros [= <-]. by repeat split.
Qed.

(** *** Every row keeps it *)

Ltac try_inv H := unfold try in H; match type of H with match ?x with inl _ => _ | inr _ => _ end = _ => let E := fresh "E" in destruct x as [?|?] eqn:E; [discriminate H|] end.

Lemma wg_peer_ok key value p p' : peer_ok p -> wg_peer key value p = Some (inr p') -> peer_ok p'.
Proof.
  intros [H1 H2 H3 H4 H5]. unfold wg_peer. repeat (case_if; [intros [= H]; try_inv H; injection H as <-|]); try done; constructor; cbn; try done.
  - by eapply wgKey_is_key.
  - by eapply wgKey_is_key.
  - right. by eapply wgEndpoint_ok.
  - by eapply read_prefixes_ok.
  - destruct (EqualFold value "off"); [by simplify_eq|]. by eapply ranged_ok.
Qed.

Lemma on_last_spec {E} (f : WGPeer -> E + WGPeer) ps :
  match on_last f ps with
  | None => ps = []
  | Some (inl e) => exists p, last ps = Some p /\ f p = inl e
  | Some (inr l) => exists init p p', ps = init ++ [p] /\ f p = inr p' /\ l = init ++ [p']
  end.
Proof.
  induction ps as [|p ps IH]; [done|]. destruct ps as [|q ps].
  - cbn. destruct (f p) as [e|p'] eqn:Ef; [by exists p|]. by exists [], p, p'.
  - change (on_last f (p :: q :: ps)) with (match on_last f (q :: ps) with None => None | Some (inl e) => Some (inl e) | Some (inr l) => Some (inr (p :: l)) end).
    destruct (on_last f (q :: ps)) as [[e|l]|]; [exact IH| |done]. destruct IH as (init & a & b & -> & ? & ->). by exists (p :: init), a, b.
Qed.

Lemma wg_interface_ok key value st st' : wg_ok st -> ws_section st = InInterface -> wg_interface key value st = Some (inr st') -> wg_ok st'.
Proof.
  intros [H1 H2 H3 H4 H5] Hs. unfold wg_interface. case_if; [|case_if; [|case_if; [|done]]]; intros [= H]; try_inv H.
  - destruct (String.eqb_spec s no_key); [done|]. injection H as <-. constructor; cbn; try done. split; [by eapply wgKey_is_key|done].
  - injection H as <-. constructor; cbn; try done. by eapply read_prefixes_ok.
  - injection H as <-. constructor; cbn; try done. right. by eapply ranged_ok.
Qed.

Lemma wg_open_ok row st st' : wg_ok st -> wg_open row st = inr st' -> wg_ok st'.
Proof.
  intros [H1 H2 H3 [H4 H4'] H5]. unfold wg_open. case_if; [case_if; [done|]; intros [= <-]; by constructor|]. case_if; [|done].
  destruct (Z.eqb_spec (Z.of_nat (length (wc_Peers (ws_config st)))) maxWGPeers); [done|]. intros [= <-]. constructor; cbn; try done.
  - rewrite length_app. cbn. split; [lia|]. apply Forall_app. split; [done|]. apply Forall_singleton. constructor; cbn; try done; by left.
  - intros _. by destruct (wc_Peers (ws_config st)).
Qed.

Lemma wg_setting_ok written value st st' : wg_ok st -> wg_setting written value st = Some (inr st') -> wg_ok st'.
Proof.
  intros Hok. unfold wg_setting. destruct (ws_section st) eqn:Es; [done| |].
  - case_if.
    + intros [= <-]. destruct Hok. by constructor.
    + destruct (wg_interface _ _ _) as [r|] eqn:Er; [|done]. intros [= ->]. by eapply wg_interface_ok.
  - match goal with |- context [on_last ?f ?ps] => pose proof (on_last_spec f ps) as Hl; destruct (on_last f ps) as [[e|l]|]; try done end.
    intros [= <-]. destruct Hl as (init & p & p' & Hps & Hp & ->). destruct Hok as [H1 H2 H3 [H4 H4'] H5]. rewrite Hps in *.
    constructor; cbn; try done.
    + rewrite length_app in *. cbn in *. split; [done|]. apply Forall_app in H4' as [? [Hq _]%Forall_cons]. apply Forall_app. split; [done|]. apply Forall_singleton.
      destruct (wg_peer (ToLower written) value p) as [r|] eqn:Er; [|done]. subst r. by eapply wg_peer_ok.
    + intros _. by destruct init.
Qed.

(** A row is read or refused: the parser never follows a nil peer. *)
Lemma wg_step_total raw st : wg_ok st -> exists r, wg_step raw st = Some r.
Proof.
  intros [_ _ _ _ Ho]. unfold wg_step. destruct (wg_row raw) as [row|]; [|eauto]. case_if; [eauto|]. case_if; [eauto|].
  destruct (Cut row "=") as [[k v] ok]. case_if; [eauto|]. unfold wg_setting. destruct (ws_section st) eqn:Es; [eauto| |].
  - case_if; [eauto|]. destruct (wg_interface _ _ _); eauto.
  - match goal with |- context [on_last ?f ?ps] => pose proof (on_last_spec f ps) as Hl; destruct (on_last f ps) as [[e|l]|] end; [eauto..|].
    exfalso. by apply Ho.
Qed.

Lemma wg_step_ok raw st st' : wg_ok st -> wg_step raw st = Some (inr st') -> wg_ok st'.
Proof.
  intros Hok. unfold wg_step. destruct (wg_row raw) as [row|]; [|done]. case_if; [by intros [= <-]|]. case_if; [intros [= H]; by eapply wg_open_ok|].
  destruct (Cut row "=") as [[k v] ok]. case_if; [done|]. by apply wg_setting_ok.
Qed.

Lemma wg_rows_ok n rows st : wg_ok st -> exists r, wg_rows n rows st = Some r /\ forall st', r = inr st' -> wg_ok st'.
Proof.
  revert n st. induction rows as [|raw rows IH]; intros n st Hok; cbn [wg_rows]; [exists (inr st); split; [done|]; by intros ? [= <-]|].
  destruct (wg_step_total raw st Hok) as [[e|st'] E]; rewrite E; [by eexists|]. apply IH. by eapply wg_step_ok.
Qed.

Lemma wg_start_ok : wg_ok wg_start.
Proof. constructor; cbn; try done; try (by left); repeat split; try done; lia. Qed.

(** *** The whole file *)

Record config_ok (c : WGConfig) : Prop := mkConfigOk {
  co_key : is_key (wc_PrivateKey c) /\ wc_PrivateKey c <> no_key;
  co_nets : wc_Addresses c <> [] /\ nets_ok maxWGAddresses (wc_Addresses c);
  co_mtu : wc_MTU c = 0 \/ 1280 <= wc_MTU c <= 9000;
  co_peers : wc_Peers c <> [] /\ Z.of_nat (length (wc_Peers c)) <= maxWGPeers /\
    Forall (fun p => peer_ok p /\ wp_PublicKey p <> no_key /\ endpoint_ok (wp_Endpoint p)) (wc_Peers c);
}.

Lemma peer_missing_none i ps : peer_missing i ps = None -> Forall peer_ok ps ->
  Forall (fun p => peer_ok p /\ wp_PublicKey p <> no_key /\ endpoint_ok (wp_Endpoint p)) ps.
Proof.
  revert i. induction ps as [|p ps IH]; intros i H Hok; [constructor|]. cbn [peer_missing] in H. apply Forall_cons in Hok as [Hp Hok].
  destruct (String.eqb_spec (wp_PublicKey p) no_key); [done|]. destruct (String.eqb_spec (rm_Host (wp_Endpoint p)) ""); [done|].
  constructor; [|by eapply IH]. split; [done|]. split; [done|]. by destruct (po_endpoint p Hp).
Qed.

(** a WireGuard file is read or refused, never a crash; and one that is
    accepted is complete and bounded: a private key, 1 to 16 addresses, an MTU
    WireGuard can use, 1 to 16 peers, each with a key, at most 1024 allowed
    networks and an endpoint a server can be at, with a port. *)
Lemma ParseWG_sound text : exists r, ParseWG text = Some r /\ forall c, r = inr c -> config_ok c.
Proof.
  unfold ParseWG. case_if; [by eexists|]. destruct (wg_rows_ok 1 (split_lines text) wg_start wg_start_ok) as (r & -> & Hr).
  destruct r as [e|st]; [by eexists|]. destruct (Hr st eq_refl) as [[H1 H1'] H2 H3 [H4 H4'] _]. destruct (wg_missing st) as [e|] eqn:Em; [by eexists|].
  eexists. split; [done|]. intros c [= <-]. unfold wg_missing in Em. destruct (ws_sawInterface st); [|done]. destruct (ws_sawKey st); [|done]. cbn [negb] in Em.
  destruct (wc_Addresses (ws_config st)) eqn:Ea; [done|]. destruct (wc_Peers (ws_config st)) eqn:Ep; [done|].
  constructor; cbn; try done; [by split; auto|]. split; [done|]. split; [done|]. by eapply peer_missing_none.
Qed.

(** ** What the device is given *)

(** The settings of a device, in order, as keys and values. *)
Definition peer_pairs (p : WGPeer) (endpoint : addr * Z) : list (string * string) :=
  ("public_key", EncodeToString (wp_PublicKey p)) ::
  (match wp_PresharedKey p with Some k => [("preshared_key", EncodeToString k)] | None => [] end) ++
  ("endpoint", addrport_String endpoint) ::
  (if 0 <? wp_Keepalive p then [("persistent_keepalive_interval", pretty (wp_Keepalive p))] else []) ++
  ("replace_allowed_ips", "true") :: map (fun a => ("allowed_ip", prefix_String a)) (wp_AllowedIPs p).

Definition device_pairs (c : WGConfig) (endpoints : list (addr * Z)) : list (string * string) :=
  ("private_key", EncodeToString (wc_PrivateKey c)) :: ("replace_peers", "true") ::
  (pe ← zip (wc_Peers c) endpoints; peer_pairs (fst pe) (snd pe)).

(** A reader of settings: a key and a value per row, up to the empty last row. *)
Definition read_settings (s : string) : list (string * string) :=
  omap (fun row => let '(k, v, ok) := Cut row "=" in if ok : bool then Some (k, v) else None) (split_lines s).

Definition row_char (c : ascii) : bool := negb (Ascii.eqb c newline).

Definition pair_ok (kv : string * string) : Prop := str_forall (fun c => row_char c && negb (Ascii.eqb c "=")) (fst kv) = true /\ str_forall row_char (snd kv) = true.

Definition settings (l : list (string * string)) : string := foldr (fun kv b => setting (fst kv) (snd kv) +:+ b) "" l.

Lemma Cut_app k v sep : str_forall (fun c => negb (Ascii.eqb c sep)) k = true -> Cut (k +:+ String sep v) sep = (k, v, true).
Proof.
  induction k as [|c k IH]; intros H; [cbn; by rewrite Ascii.eqb_refl|]. cbn [str_forall] in H. apply andb_prop in H as [Hc Hk].
  change (String c k +:+ String sep v) with (String c (k +:+ String sep v)). cbn [Cut]. rewrite (negb_true_iff _) in Hc. by rewrite Hc, IH.
Qed.

Lemma read_settings_rows l : Forall pair_ok l -> read_settings (settings l) = l.
Proof.
  unfold read_settings, split_lines. induction 1 as [|[k v] l [Hk Hv] Hl IH]; [done|]. cbn [settings foldr fst snd] in *. fold (settings l).
  assert (setting k v +:+ settings l = (k +:+ String "=" v) +:+ String newline (settings l)) as ->.
  { unfold setting, nl. rewrite !append_assoc. change ("=" +:+ ?x) with (String "=" x). rewrite <- append_assoc. unfold newline. by rewrite !append_assoc. }
  rewrite split_lines_first.
  - cbn [omap list_omap]. change ("" +:+ ?x) with x. rewrite Cut_app, IH; [done|]. eapply str_forall_impl; [|exact Hk]. intros c Hc. by apply andb_prop in Hc as [_ ?].
  - rewrite str_forall_app. cbn [str_forall]. unfold row_char in Hv. rewrite Hv. cbn. rewrite andb_true_r. eapply str_forall_impl; [|exact Hk]. intros c Hc. by apply andb_prop in Hc as [? _].
Qed.

Lemma settings_app a b : settings (a ++ b) = settings a +:+ settings b.
Proof. induction a as [|kv a IH]; [done|]. cbn. fold (settings (a ++ b)) (settings a). by rewrite IH, append_assoc. Qed.

Lemma peer_settings_pairs p e : peer_settings p e = settings (peer_pairs p e).
Proof.
  unfold peer_settings, peer_pairs. change (?x :: ?a ++ ?b :: ?c ++ ?d :: ?f) with ([x] ++ a ++ [b] ++ c ++ [d] ++ f). rewrite !settings_app. cbn [settings foldr fst snd].
  rewrite !append_nil_r. do 2 f_equal; [by destruct (wp_PresharedKey p); cbn; rewrite ?append_nil_r|].
  f_equal. f_equal; [by destruct (0 <? wp_Keepalive p); cbn; rewrite ?append_nil_r|]. f_equal. symmetry. apply (foldr_fmap (fun kv b => setting (fst kv) (snd kv) +:+ b)).
Qed.

Lemma UAPI_pairs c eps : length eps = length (wc_Peers c) -> UAPI c eps = inr (settings (device_pairs c eps)).
Proof.
  intros H. unfold UAPI, device_pairs. rewrite H, Nat.eqb_refl. cbn [negb]. f_equal. cbn [settings foldr fst snd]. do 2 f_equal.
  fold (settings (pe ← zip (wc_Peers c) eps; peer_pairs (fst pe) (snd pe))). induction (zip (wc_Peers c) eps) as [|pe l IH]; [done|].
  cbn [foldr]. rewrite bind_cons, settings_app, <- IH. by rewrite peer_settings_pairs.
Qed.

(** *** No value holds a newline *)

Lemma hex_row n : 0 <= n < 16 -> row_char (hex_char n) = true.
Proof.
  intros H. assert (forallb (fun n => row_char (hex_char n)) (map Z.of_nat (seq 0 16)) = true) as Hf by (vm_compute; reflexivity).
  rewrite forallb_forall in Hf. apply Hf. rewrite List.in_map_iff. exists (Z.to_nat n). split; [lia|]. apply List.in_seq. lia.
Qed.

Lemma Encode_row k : str_forall row_char (EncodeToString k) = true.
Proof.
  induction k as [|c k IH]; [done|]. cbn [EncodeToString str_forall]. assert (0 <= code c < 256) as Hc by (unfold code; pose proof (N_ascii_bounded c); lia).
  rewrite !hex_row, IH; [done|apply Z.mod_pos_bound; lia|]. split; [apply Z.div_pos; lia|apply Z.div_lt_upper_bound; lia].
Qed.

Lemma digit_row c : is_digit c = true -> row_char c = true.
Proof. unfold row_char. destruct (Ascii.eqb_spec c newline) as [->|]; [by vm_compute|done]. Qed.

Lemma pretty_row (z : Z) : str_forall row_char (pretty z) = true.
Proof. apply pretty_Z_chars; [exact digit_row|done]. Qed.

Lemma addr_row a : Zone a = "" -> str_forall row_char (addr_String a) = true.
Proof.
  intros Hz. destruct (IsValid a) eqn:Hv; [|by destruct a]. eapply str_forall_impl; [|by apply addr_String_chars]. intros c H.
  unfold row_char. destruct (Ascii.eqb_spec c newline) as [->|]; [by vm_compute in H|done].
Qed.

Lemma prefix_row p : prefix_ok p -> str_forall row_char (prefix_String p) = true.
Proof.
  intros (_ & Hz & _). unfold prefix_String. case_if; [|done]. rewrite !str_forall_app, addr_row, pretty_row by done. done.
Qed.

Lemma addrport_row e : Zone (fst e) = "" -> str_forall row_char (addrport_String e) = true.
Proof.
  intros Hz. unfold addrport_String. destruct (fst e) eqn:E; [done|..]; rewrite <- E in *; rewrite !str_forall_app, addr_row, pretty_row by done; done.
Qed.

Lemma peer_pairs_ok p e : peer_ok p -> Zone (fst e) = "" -> Forall pair_ok (peer_pairs p e).
Proof.
  intros [_ _ _ [_ Hn] _] Hz. unfold peer_pairs. constructor; [split; [done|apply Encode_row]|]. apply Forall_app. split.
  { destruct (wp_PresharedKey p); [|constructor]. apply Forall_singleton. split; [done|apply Encode_row]. }
  constructor; [split; [done|by apply addrport_row]|]. apply Forall_app. split.
  { case_if; [|constructor]. apply Forall_singleton. split; [done|apply pretty_row]. }
  constructor; [done|]. apply Forall_fmap. eapply Forall_impl; [exact Hn|]. intros a [Ha _]. split; [done|by apply prefix_row].
Qed.

Lemma device_pairs_ok c eps : config_ok c -> Forall (fun e => Zone (fst e) = "") eps -> Forall pair_ok (device_pairs c eps).
Proof.
  intros [_ _ _ (_ & _ & Hp)] He. unfold device_pairs. constructor; [split; [done|apply Encode_row]|]. constructor; [done|].
  rewrite Forall_bind. revert eps He. induction Hp as [|p ps Hp Hps IH]; intros [|e eps] He; cbn; try constructor.
  - apply peer_pairs_ok; [by apply Hp|]. by apply Forall_cons in He as [? _].
  - apply IH. by apply Forall_cons in He as [_ ?].
Qed.

(** the device is given exactly what the file's fields say: for an accepted
    file and an endpoint address per peer, reading the settings row by row
    gives the private key, and for every peer its key, its preshared key, its
    endpoint, its keepalive and its networks, in order, and nothing else; no
    text of the file can add a row of its own. *)
Theorem device_gets_config text c eps :
  ParseWG text = Some (inr c) -> length eps = length (wc_Peers c) -> Forall (fun e => Zone (fst e) = "") eps ->
  exists out, UAPI c eps = inr out /\ read_settings out = device_pairs c eps.
Proof.
  intros H Hl Hz. exists (settings (device_pairs c eps)). split; [by apply UAPI_pairs|]. apply read_settings_rows, device_pairs_ok; [|done].
  destruct (ParseWG_sound text) as (r & E & Hr). rewrite E in H. injection H as ->. by apply Hr.
Qed.

Definition ex_wg_rows : list string :=
  ["[Interface]"; "PrivateKey = AQEBAQEBAQEBAQEBAQEBAQEBAQEBAQEBAQEBAQEBAQE="; "Address = 10.6.0.2/32, fd00::2"; "PostUp = sh -c id"; "[Peer] # home";
   "PublicKey = AgICAgICAgICAgICAgICAgICAgICAgICAgICAgICAgI="; "Endpoint = [2001:db8::9]:51820"; "AllowedIPs = 0.0.0.0/0"; "PersistentKeepalive = 25"].
Definition ex_wg : string := Join ex_wg_rows nl.
Definition ex_endpoint : addr * Z := (Addr4 3232235777, 51820).

Definition ex_wg_config : WGConfig :=
  match ParseWG ex_wg with Some (inr c) => c | _ => mkWGConfig "" [] 0 [] [] end.

Lemma device_gets_config_witness : exists out, UAPI ex_wg_config [ex_endpoint] = inr out /\ read_settings out = device_pairs ex_wg_config [ex_endpoint].
Proof.
  apply (device_gets_config ex_wg ex_wg_config [ex_endpoint]); [vm_compute; reflexivity|vm_compute; reflexivity|].
  apply Forall_singleton. reflexivity.
Defined.

(** A file whose section header carries a comment is read, and not recognized
    as a WireGuard file when the type of a tunnel is chosen. *)
Lemma commented_header_not_recognized :
  let text := Join ("[Interface] # laptop" :: tail ex_wg_rows) nl in
  (exists c, ParseWG text = Some (inr c)) /\ IsWireGuard text = false.
Proof. split; [eexists|]; vm_compute; reflexivity. Qed.
