(* ===== verification/TunnelFacts.v ===== *)
(** * What the tunnel manager guarantees

    The manager as a transition system: one step per critical section of
    manager.go, from any caller, in any order, with the sessions' own changes
    in between. A Delete's progress is the manager's [tm_deletes]; a Save and a
    Connect may act on a definition that has been replaced since they read it. *)

From Stdlib Require Import Ascii.
From S2P Require Import Prelude.
From S2P Require Import Netip NetipText Domain Reconcile Input Provider Tunnels Update TunnelManager TunnelSession.

Section system.
Context (drivers : string -> option driver).
Implicit Types (m : TunnelManager) (r : live) (d : tunnel_def) (name : string) (s : nat).

(** A driver's device has a name: findIface's is checked, and a tun device's
    is never empty. *)
Definition names_device (e : session_event) : Prop :=
  match e with
  | EvConnected _ iface _ | EvIKEConnected iface _ _ _ _ | EvIKEReaddress iface _ _ | EvWGIface iface | EvWGConnected iface _ _ _ => iface <> ""
  | _ => True
  end.

Inductive tlabel : Type :=
| LSave d
| LConnect name
| LStop name (keepWant : bool)
| LMark s
| LEvent s (e : session_event)
| LFinish s
| LHint name
| LFailed name                    (* a Save's or StartAuto's Connect refused *)
| LDelete name
| LDeleteStop name
| LDeleteUndo name
| LDeleteEnd name
| LScan                           (* DisconnectAll *)
| LOther.                         (* disk, resume lists, close *)

(** The session a Delete saw is over. *)
Definition delete_done m name : Prop :=
  match tm_deletes m !! name with
  | Some (DeleteStopping (Some s)) => tm_sessions m !! s = None
  | Some (DeleteStopping None) => True
  | _ => False
  end.

Inductive tstep : TunnelManager -> tlabel -> TunnelManager -> Prop :=
| TPut m d : tstep m LOther (put d m)
| TRemove m name : tstep m LOther (remove name m)
| TSave m d : ValidName (td_Name d) = true -> tstep m (LSave d) (save_cache drivers d m)
| TConnect m name d m' o : connect_start name d m = inr (m', o) -> tstep m (LConnect name) m'
| TStop m name keep m' o : stop_begin name keep m = inr (m', o) -> tstep m (LStop name keep) m'
| TMark m s : tstep m (LMark s) (mark_stopping s m)
| TEvent m s se e : tm_sessions m !! s = Some se -> names_device e ->
    tstep m (LEvent s e) (update (se_name se) (on_event e) m)
| TFinish m s tail : tstep m (LFinish s) (finish s tail m)
| THint m name : tstep m (LHint name) (update name (on_event EvHint) m)
| TSaveFailed m ErrorText name e : tstep m (LFailed name) (save_failed ErrorText name e m)
| TAutoFailed m ErrorText name e : tstep m (LFailed name) (auto_failed ErrorText name e m)
| TDelete m name m' res : delete_begin name m = (m', res) -> tstep m (LDelete name) m'
| TDeleteStop m name : tm_deletes m !! name = Some DeleteMarked -> tstep m (LDeleteStop name) (delete_stop name m)
| TDeleteUndo m name : is_Some (tm_deletes m !! name) -> tstep m (LDeleteUndo name) (delete_undo name m)
| TDeleteEnd m name : delete_done m name -> tstep m (LDeleteEnd name) (delete_end name m)
| TScan m m' l : DisconnectAll_scan m = (m', l) -> tstep m LScan m'
| TStartAuto m m' l : StartAuto_begin m = (m', l) -> tstep m LOther m'
| TRemember m keep written : tstep m LOther (RememberForRestart keep written m)
| TClose m : tstep m LOther (close m).

(** ** The invariant *)

Definition idle_state (st : string) : Prop := st = TunnelDisconnected \/ st = TunnelFailed.
Definition busy_state (st : string) : Prop := st = TunnelConnecting \/ st = TunnelConnected \/ st = TunnelReconnecting.

(** One tunnel: its state says whether it has a session, and a connected one
    has an interface. *)
Definition live_ok r : Prop :=
  (lv_sess r = None -> idle_state (lv_state r) /\ lv_iface r = "") /\
  (is_Some (lv_sess r) -> busy_state (lv_state r)) /\
  (lv_state r = TunnelConnected -> lv_iface r <> "").

Record tm_ok m : Prop := {
  ok_doms : dom (tm_defs m) = dom (tm_rt m) /\ dom (tm_parsed m) = dom (tm_rt m);
  ok_parsed : forall name d, tm_defs m !! name = Some d -> tm_parsed m !! name = Some (parse_def drivers (td_Type d) (td_Config d));
  ok_tracked : forall s se, tm_sessions m !! s = Some se -> exists r, tm_rt m !! se_name se = Some r /\ lv_sess r = Some s;
  ok_running : forall name r s, tm_rt m !! name = Some r -> lv_sess r = Some s ->
    exists se, tm_sessions m !! s = Some se /\ se_name se = name;
  ok_live : forall name r, tm_rt m !! name = Some r -> live_ok r;
  ok_deletes : forall name, is_Some (tm_deletes m !! name) <-> exists r, tm_rt m !! name = Some r /\ lv_deleting r = true;
  ok_seen : forall name seen r s, tm_deletes m !! name = Some (DeleteStopping seen) -> tm_rt m !! name = Some r ->
    lv_sess r = Some s -> seen = Some s;
  ok_fresh : forall s se, tm_sessions m !! s = Some se -> (s < tm_next m)%nat;
  ok_names : forall name r, tm_rt m !! name = Some r -> ValidName name = true;
}.

(** ** Lemmas *)

(** A change of a tunnel that keeps its session, and whether it is being
    deleted. *)
Definition same_session r r' : Prop :=
  lv_sess r' = lv_sess r /\ lv_deleting r' = lv_deleting r /\ (live_ok r -> live_ok r').

Lemma same_session_refl r : same_session r r.
Proof. done. Qed.

Lemma rt_change_ok m rt' :
  (forall name, option_Forall2 same_session (tm_rt m !! name) (rt' !! name)) -> tm_ok m -> tm_ok (with_rt m rt').
Proof.
  intros Hr [[D1 D2] K1 K2 K3 K4 K5 K6 K7 K8].
  assert (forall name r', rt' !! name = Some r' -> exists r, tm_rt m !! name = Some r /\ same_session r r') as Hback.
  { intros name r' E. specialize (Hr name). rewrite E in Hr. inversion Hr; eauto. }
  assert (forall name r, tm_rt m !! name = Some r -> exists r', rt' !! name = Some r' /\ same_session r r') as Hfwd.
  { intros name r E. specialize (Hr name). rewrite E in Hr. inversion Hr; eauto. }
  assert (dom rt' = dom (tm_rt m)) as Ed.
  { apply set_eq. intros x. rewrite !elem_of_dom. split; intros [y E].
    - destruct (Hback _ _ E) as (? & -> & _). eauto.
    - destruct (Hfwd _ _ E) as (? & -> & _). eauto. }
  constructor; cbn [tm_defs tm_parsed tm_rt tm_sessions tm_next tm_deletes with_rt].
  - by rewrite Ed.
  - done.
  - intros s se E. destruct (K2 s se E) as (r & Er & Es). destruct (Hfwd _ _ Er) as (r' & ? & Es' & _). exists r'. by rewrite Es'.
  - intros name r' s E Es. destruct (Hback _ _ E) as (r & Er & Es' & _). apply (K3 name r s Er). congruence.
  - intros name r' E. destruct (Hback _ _ E) as (r & Er & _ & _ & Hl). eauto.
  - intros name. rewrite K5. split; intros (r & Er & Hd).
    + destruct (Hfwd _ _ Er) as (r' & ? & _ & Hd' & _). exists r'. by rewrite Hd'.
    + destruct (Hback _ _ Er) as (r' & ? & _ & Hd' & _). exists r'. by rewrite <- Hd'.
  - intros name seen r' s E Er Es. destruct (Hback _ _ Er) as (r & Er' & Es' & _). apply (K6 name seen r s E Er'). congruence.
  - done.
  - intros name r' E. destruct (Hback _ _ E) as (r & Er & _). eauto.
Qed.

Lemma update_ok name f m : (forall r, tm_rt m !! name = Some r -> same_session r (f r)) -> tm_ok m -> tm_ok (update name f m).
Proof.
  intros Hf H. unfold update. destruct (tm_rt m !! name) as [r|] eqn:E; [|done].
  apply rt_change_ok; [|done]. intros x. destruct (decide (x = name)) as [->|].
  - rewrite lookup_insert_eq, E. constructor. by apply Hf.
  - rewrite lookup_insert_ne by done. destruct (tm_rt m !! x); constructor. apply same_session_refl.
Qed.

Lemma map_change_ok (f : string -> live -> live) m :
  (forall n r, same_session r (f n r)) -> tm_ok m -> tm_ok (with_rt m (map_imap (fun n r => Some (f n r)) (tm_rt m))).
Proof.
  intros Hf. apply rt_change_ok. intros name. rewrite map_lookup_imap. destruct (tm_rt m !! name); constructor. apply Hf.
Qed.

(** A session's change of its tunnel. *)
Lemma on_event_same e r : names_device e -> is_Some (lv_sess r) -> same_session r (on_event e r).
Proof.
  intros Hn Hs.
  assert (forall r', lv_sess r' = lv_sess r -> lv_deleting r' = lv_deleting r -> (live_ok r -> busy_state (lv_state r')) ->
    (live_ok r -> lv_state r' = TunnelConnected -> lv_iface r' <> "") -> same_session r r') as Hmk.
  { intros r' E1 E2 Hb Hi. split_and!; [done|done|]. intros Hr. split_and!; [|by auto|by auto].
    rewrite E1. intros E. destruct Hs as [? Hs]. congruence. }
  assert (live_ok r -> busy_state (lv_state r)) as Hb by (intros (_ & ? & _); auto).
  assert (live_ok r -> lv_state r = TunnelConnected -> lv_iface r <> "") as Hi by (intros (_ & _ & ?); auto).
  destruct e; cbn [on_event names_device] in *; unfold on_connected, on_reconnecting, connecting; repeat case_match;
    apply Hmk; try done; simpl; unfold busy_state; auto; intros; try discriminate; repeat case_match; simpl; auto; try discriminate.
Qed.

Lemma hint_same r : same_session r (on_event EvHint r).
Proof. cbn [on_event]. by case_match. Qed.

Lemma stop_same keep r : same_session r (stop_live keep r).
Proof.
  unfold stop_live. split_and!; [by repeat case_match|by repeat case_match|].
  intros (H1 & H2 & H3). destruct (lv_sess r) as [s|] eqn:E.
  - destruct keep; simpl; rewrite E; unfold live_ok; simpl; rewrite ?E; split_and!; eauto; done.
  - destruct (H1 eq_refl) as [_ Hi]. destruct keep; simpl; rewrite E; unfold live_ok; simpl; rewrite E, Hi;
      (split_and!; [by split; [left|]|by intros []|done]).
Qed.

Lemma failed_same f r :
  (forall r, lv_sess (f r) = lv_sess r /\ lv_deleting (f r) = lv_deleting r /\ lv_iface (f r) = lv_iface r /\ lv_state (f r) = TunnelFailed) ->
  same_session r (if bool_decide (lv_sess r = None) then f r else r).
Proof.
  intros Hf. case_bool_decide as E; [|done]. destruct (Hf r) as (E1 & E2 & E3 & E4).
  split_and!; [done|done|]. intros (H1 & _). unfold live_ok. rewrite E1, E3, E4. split_and!; [|by rewrite E; intros []|done].
  intros _. split; [by right|by apply H1].
Qed.

Lemma scan_same keep r : same_session r (scan_live keep r).
Proof.
  unfold scan_live. repeat case_match; bool_hyps; try done. split_and!; [done|done|].
  intros (K1 & K2 & K3). unfold live_ok; simpl. split_and!; [|intros [? ?]; congruence|done].
  intros E. split; [by left|by apply K1].
Qed.

Lemma cache_ok d m : ValidName (td_Name d) = true -> tm_ok m -> tm_ok (cache drivers d m).
Proof.
  intros Hname [[D1 D2] K1 K2 K3 K4 K5 K6 K7 K8]. unfold cache. simpl.
  assert (forall name, (match tm_rt m !! td_Name d with None => <[td_Name d := idle_live]> (tm_rt m) | Some _ => tm_rt m end) !! name =
    match tm_rt m !! name with Some r => Some r | None => if bool_decide (name = td_Name d) then Some idle_live else None end) as El.
  { intros name. destruct (tm_rt m !! td_Name d) as [r|] eqn:E.
    - destruct (tm_rt m !! name) eqn:E'; [done|]. case_bool_decide; [congruence|done].
    - case_bool_decide as En; [subst; by rewrite lookup_insert_eq, E|]. rewrite lookup_insert_ne by done. by destruct (tm_rt m !! name). }
  constructor; cbn [tm_defs tm_parsed tm_rt tm_sessions tm_next tm_deletes].
  - rewrite !dom_insert_L, D1, D2. assert (forall X : gset string, X = {[td_Name d]} ∪ dom (tm_rt m) -> {[td_Name d]} ∪ dom (tm_rt m) = X /\ {[td_Name d]} ∪ dom (tm_rt m) = X) as H by done.
    apply H. destruct (tm_rt m !! td_Name d) eqn:E; [|by rewrite dom_insert_L].
    apply elem_of_dom_2 in E. set_solver.
  - intros name d'. destruct (decide (name = td_Name d)) as [->|].
    + rewrite !lookup_insert_eq. congruence.
    + rewrite !lookup_insert_ne by done. apply K1.
  - intros s se E. destruct (K2 s se E) as (r & Er & Es). exists r. by rewrite El, Er.
  - intros name r s. rewrite El. destruct (tm_rt m !! name) as [r'|] eqn:E; [intros [= <-]; by apply K3|]. case_bool_decide; [|done].
    by intros [= <-].
  - intros name r. rewrite El. destruct (tm_rt m !! name) as [r'|] eqn:E; [intros [= <-]; by eapply K4|]. case_bool_decide; [|done].
    intros [= <-]. split_and!; [by split; [left|]|by intros []|done].
  - intros name. rewrite K5, El. split; intros (r & Er & Hd); [exists r; by rewrite Er|].
    destruct (tm_rt m !! name) as [r'|]; [by exists r|]. case_bool_decide; [|done]. by simplify_eq.
  - intros name seen r s E. rewrite El. destruct (tm_rt m !! name) as [r'|] eqn:E'; [intros [= <-]; by eapply K6|]. case_bool_decide; [|done].
    by intros [= <-].
  - done.
  - intros name r. rewrite El. destruct (tm_rt m !! name) as [r'|] eqn:E; [intros _; by eapply K8|]. case_bool_decide; [|done]. by subst.
Qed.

Lemma save_ok d m : ValidName (td_Name d) = true -> tm_ok m -> tm_ok (save_cache drivers d m).
Proof. intros Hn H. apply cache_ok; [done|]. by destruct H; constructor. Qed.

Lemma connect_ok name d m m' o : connect_start name d m = inr (m', o) -> tm_ok m -> tm_ok m'.
Proof.
  unfold connect_start. intros E H. destruct (tm_closed m); [done|]. destruct (tm_rt m !! name) as [r|] eqn:Er; [|done].
  case_match eqn:Eb; [done|]. case_match eqn:Es; [by simplify_eq|]. bool_hyps. simplify_eq. set (s := tm_next m).
  destruct H as [[D1 D2] K1 K2 K3 K4 K5 K6 K7 K8].
  assert (tm_sessions m !! s = None) as Hs.
  { destruct (tm_sessions m !! s) eqn:E; [|done]. apply K7 in E. unfold s in E. lia. }
  assert (tm_deletes m !! name = None) as Hdel.
  { destruct (tm_deletes m !! name) eqn:E; [|done]. assert (is_Some (tm_deletes m !! name)) as (r' & ? & ?)%K5 by eauto. congruence. }
  constructor; cbn [tm_defs tm_parsed tm_rt tm_sessions tm_next tm_deletes].
  - apply elem_of_dom_2 in Er as Hd. rewrite dom_insert_L, D1, D2. set_solver.
  - done.
  - intros s' se. destruct (decide (s' = s)) as [->|].
    + rewrite lookup_insert_eq. intros [= <-]. simpl. rewrite lookup_insert_eq. eauto.
    + rewrite lookup_insert_ne by done. intros E. destruct (K2 s' se E) as (r' & Er' & Es').
      exists r'. rewrite lookup_insert_ne; [done|]. intros En. rewrite <- En in Er'. congruence.
  - intros n r' s'. destruct (decide (n = name)) as [->|].
    + rewrite lookup_insert_eq. intros [= <-] [= <-]. rewrite lookup_insert_eq. eauto.
    + rewrite lookup_insert_ne by done. intros En Es'. destruct (K3 n r' s' En Es') as (se & E & <-).
      exists se. rewrite lookup_insert_ne; [done|]. intros En'. rewrite <- En' in E. congruence.
  - intros n r'. destruct (decide (n = name)) as [->|]; [rewrite lookup_insert_eq; intros [= <-]|rewrite lookup_insert_ne by done; by apply K4].
    split_and!; [done| |done]. intros _. by left.
  - intros n. destruct (decide (n = name)) as [->|]; [|rewrite lookup_insert_ne by done; apply K5].
    rewrite Hdel, lookup_insert_eq. split; [by intros []|]. by intros (? & [= <-] & ?).
  - intros n seen r' s' En. destruct (decide (n = name)) as [->|]; [congruence|]. rewrite lookup_insert_ne by done. by apply K6.
  - intros s' se. destruct (decide (s' = s)) as [->|]; [unfold s; lia|]. rewrite lookup_insert_ne by done. intros E%K7. lia.
  - intros n r' [[<- _]|[_ E]]%lookup_insert_Some; by eapply K8.
Qed.

Lemma mark_ok s m : tm_ok m -> tm_ok (mark_stopping s m).
Proof.
  intros H. unfold mark_stopping. destruct (tm_sessions m !! s) as [se|] eqn:Es; [|done].
  destruct H as [[D1 D2] K1 K2 K3 K4 K5 K6 K7 K8].
  constructor; cbn [tm_defs tm_parsed tm_rt tm_sessions tm_next tm_deletes with_sessions]; try done.
  - intros s' se'. destruct (decide (s' = s)) as [->|]; [rewrite lookup_insert_eq; intros [= <-]; apply (K2 s se Es)|].
    rewrite lookup_insert_ne by done. by apply K2.
  - intros n r s' En Er. destruct (K3 n r s' En Er) as (se' & E & En'). destruct (decide (s' = s)) as [->|].
    + rewrite lookup_insert_eq. eexists. split; [done|]. simpl. congruence.
    + rewrite lookup_insert_ne by done. eauto.
  - intros s' se'. destruct (decide (s' = s)) as [->|]; [intros _; by eapply K7|]. rewrite lookup_insert_ne by done. by apply K7.
Qed.

Lemma finish_ok s tail m : tm_ok m -> tm_ok (finish s tail m).
Proof.
  intros H. unfold finish. destruct (tm_sessions m !! s) as [se|] eqn:Es; [|done].
  destruct H as [[D1 D2] K1 K2 K3 K4 K5 K6 K7 K8]. destruct (K2 s se Es) as (r & Er & Hr).
  unfold update, with_rt, with_sessions. simpl. rewrite Er, Hr, bool_decide_eq_true_2 by done.
  assert (forall n r', <[se_name se:=finished (se_stopping se) tail r]> (tm_rt m) !! n = Some r' ->
    (n = se_name se /\ r' = finished (se_stopping se) tail r) \/ (n <> se_name se /\ tm_rt m !! n = Some r')) as Hback.
  { intros n r'. destruct (decide (n = se_name se)) as [->|]; [rewrite lookup_insert_eq; intros [= <-]; auto|rewrite lookup_insert_ne by done; auto]. }
  assert (lv_sess (finished (se_stopping se) tail r) = None /\ lv_deleting (finished (se_stopping se) tail r) = lv_deleting r) as [Fs Fd]
    by (by unfold finished; destruct (se_stopping se)).
  constructor; cbn [tm_defs tm_parsed tm_rt tm_sessions tm_next tm_deletes].
  - apply elem_of_dom_2 in Er as Hd. rewrite dom_insert_L, D1, D2. set_solver.
  - done.
  - intros s' se' [Hne E]%lookup_delete_Some. destruct (K2 s' se' E) as (r' & Er' & Hr'). exists r'.
    rewrite lookup_insert_ne; [done|]. intros En. rewrite <- En in Er'. congruence.
  - intros n r' s' [[-> ->]|[Hn E]]%Hback Hs'; [congruence|]. destruct (K3 n r' s' E Hs') as (se' & E' & <-). exists se'.
    rewrite lookup_delete_ne; [done|]. intros <-. congruence.
  - intros n r' [[-> ->]|[Hn E]]%Hback; [|by eapply K4]. unfold finished.
    destruct (se_stopping se); (split_and!; simpl; [split; [unfold idle_state; auto|done]|by intros []|done]).
  - intros n. rewrite K5. destruct (decide (n = se_name se)) as [->|]; [|by rewrite lookup_insert_ne].
    rewrite lookup_insert_eq, Er. split; intros (r' & [= <-] & Hd); eexists; (split; [done|]); congruence.
  - intros n seen r' s' E [[-> ->]|[Hn E']]%Hback Hs'; [congruence|]. by eapply K6.
  - intros s' se' [_ E]%lookup_delete_Some. by eapply K7.
  - intros n r' [[-> _]|[_ E]]%Hback; by eapply K8.
Qed.

Lemma delete_begin_ok name m m' res : delete_begin name m = (m', res) -> tm_ok m -> tm_ok m'.
Proof.
  unfold delete_begin. intros E H. destruct (tm_broken m !! name) as [e|]; [simplify_eq; by destruct H; constructor|].
  destruct (tm_defs m !! name) as [d|]; [|by simplify_eq]. destruct (tm_rt m !! name) as [r|] eqn:Er; [|by simplify_eq].
  destruct (lv_deleting r) eqn:Hd; simplify_eq; [done|].
  unfold update, with_rt, with_deletes. rewrite Er. destruct H as [[D1 D2] K1 K2 K3 K4 K5 K6 K7 K8].
  assert (forall n r', <[name:=set_deleting true r]> (tm_rt m) !! n = Some r' -> exists r0, tm_rt m !! n = Some r0 /\ lv_sess r' = lv_sess r0 /\
    (live_ok r0 -> live_ok r') /\ lv_deleting r' = bool_decide (n = name) || lv_deleting r0) as Hback.
  { intros n r'. destruct (decide (n = name)) as [->|Hn].
    - rewrite lookup_insert_eq. intros [= <-]. exists r. split_and!; try done. by rewrite bool_decide_eq_true_2.
    - rewrite lookup_insert_ne by done. intros E. exists r'. split_and!; try done. by rewrite bool_decide_eq_false_2. }
  constructor; cbn [tm_defs tm_parsed tm_rt tm_sessions tm_next tm_deletes].
  - apply elem_of_dom_2 in Er as Hdom. rewrite dom_insert_L, D1, D2. set_solver.
  - done.
  - intros s se E. destruct (K2 s se E) as (r' & Er' & Hs'). destruct (decide (se_name se = name)) as [En|].
    + exists (set_deleting true r). rewrite En, lookup_insert_eq. split; [done|]. rewrite En in Er'. simpl. congruence.
    + exists r'. by rewrite lookup_insert_ne.
  - intros n r' s (r0 & E0 & Es & _)%Hback Hs. apply (K3 n r0 s E0). congruence.
  - intros n r' (r0 & E0 & _ & Hl & _)%Hback. apply Hl. by eapply K4.
  - intros n. destruct (decide (n = name)) as [->|Hn].
    + rewrite !lookup_insert_eq. split; [intros _; eauto|eauto].
    + rewrite !lookup_insert_ne by done. apply K5.
  - intros n seen r' s Hs (r0 & E0 & Es & _)%Hback Hs'. destruct (decide (n = name)) as [->|Hn]; [by rewrite lookup_insert_eq in Hs|].
    rewrite lookup_insert_ne in Hs by done. eapply K6; [done|done|congruence].
  - done.
  - intros n r' (r0 & E0 & _)%Hback. by eapply K8.
Qed.

Lemma stop_begin_ok name keep m m' o : stop_begin name keep m = inr (m', o) -> tm_ok m -> tm_ok m'.
Proof.
  unfold stop_begin. destruct (tm_rt m !! name); [|done]. intros [= <- <-]. apply update_ok. intros r _. apply stop_same.
Qed.

Lemma delete_stop_ok name m : tm_deletes m !! name = Some DeleteMarked -> tm_ok m -> tm_ok (delete_stop name m).
Proof.
  intros Hm H. unfold delete_stop. destruct (stop_begin name false m) as [|[m' o]] eqn:E; [done|].
  pose proof (stop_begin_ok _ _ _ _ _ E H) as [[D1 D2] K1 K2 K3 K4 K5 K6 K7 K8].
  unfold stop_begin in E. destruct (tm_rt m !! name) as [r|] eqn:Er; simplify_eq.
  assert (forall n r', tm_rt (update name (stop_live false) m) !! n = Some r' -> n = name -> lv_sess r' = lv_sess r) as Hs.
  { unfold update. rewrite Er. simpl. intros n r' E ->. rewrite lookup_insert_eq in E. simplify_eq. apply stop_same. }
  assert (tm_deletes (update name (stop_live false) m) = tm_deletes m) as Ed by (unfold update; by rewrite Er).
  constructor; cbn [tm_defs tm_parsed tm_rt tm_sessions tm_next tm_deletes with_deletes]; try done.
  - intros n. rewrite <- K5, Ed. destruct (decide (n = name)) as [->|]; [|by rewrite lookup_insert_ne].
    rewrite lookup_insert_eq, Hm. split; eauto.
  - intros n seen r' s Hn Er' Es. destruct (decide (n = name)) as [->|Hne].
    + rewrite lookup_insert_eq in Hn. simplify_eq. by rewrite <- (Hs _ _ Er' eq_refl).
    + rewrite lookup_insert_ne in Hn by done. by eapply K6.
Qed.

Lemma delete_undo_ok name m : is_Some (tm_deletes m !! name) -> tm_ok m -> tm_ok (delete_undo name m).
Proof.
  intros Hm [[D1 D2] K1 K2 K3 K4 K5 K6 K7 K8]. apply K5 in Hm as (r & Er & Hd).
  unfold delete_undo, update, with_rt, with_deletes. rewrite Er.
  assert (forall n r', <[name:=set_deleting false r]> (tm_rt m) !! n = Some r' -> exists r0, tm_rt m !! n = Some r0 /\ lv_sess r' = lv_sess r0 /\
    (live_ok r0 -> live_ok r')) as Hback.
  { intros n r'. destruct (decide (n = name)) as [->|Hn].
    - rewrite lookup_insert_eq. intros [= <-]. by exists r.
    - rewrite lookup_insert_ne by done. intros E. by exists r'. }
  constructor; cbn [tm_defs tm_parsed tm_rt tm_sessions tm_next tm_deletes].
  - apply elem_of_dom_2 in Er as Hdom. rewrite dom_insert_L, D1, D2. set_solver.
  - done.
  - intros s se E. destruct (K2 s se E) as (r' & Er' & Hs'). destruct (decide (se_name se = name)) as [En|].
    + exists (set_deleting false r). rewrite En, lookup_insert_eq. split; [done|]. rewrite En in Er'. simpl. congruence.
    + exists r'. by rewrite lookup_insert_ne.
  - intros n r' s (r0 & E0 & Es & _)%Hback Hs. apply (K3 n r0 s E0). congruence.
  - intros n r' (r0 & E0 & _ & Hl)%Hback. apply Hl. by eapply K4.
  - intros n. destruct (decide (n = name)) as [->|Hn].
    + rewrite lookup_delete_eq, lookup_insert_eq. split; [by intros []|by intros (? & [= <-] & ?)].
    + rewrite lookup_delete_ne, lookup_insert_ne by done. apply K5.
  - intros n seen r' s [_ Hs]%lookup_delete_Some (r0 & E0 & Es & _)%Hback Hs'. eapply K6; [done|done|congruence].
  - done.
  - intros n r' (r0 & E0 & _)%Hback. by eapply K8.
Qed.

Lemma delete_end_ok name m : delete_done m name -> tm_ok m -> tm_ok (delete_end name m).
Proof.
  intros Hdone [[D1 D2] K1 K2 K3 K4 K5 K6 K7 K8].
  assert (forall r s, tm_rt m !! name = Some r -> lv_sess r = Some s -> False) as Hnone.
  { intros r s Er Hs. unfold delete_done in Hdone. destruct (tm_deletes m !! name) as [[|seen]|] eqn:Ed; [done| |done].
    rewrite (K6 name seen r s Ed Er Hs) in Hdone. destruct (K3 name r s Er Hs) as (? & E & _). congruence. }
  unfold delete_end. constructor; cbn [tm_defs tm_parsed tm_rt tm_sessions tm_next tm_deletes].
  - rewrite !dom_delete_L. by rewrite D1, D2.
  - intros n d [Hn E]%lookup_delete_Some. rewrite lookup_delete_ne by done. by apply K1.
  - intros s se E. destruct (K2 s se E) as (r & Er & Hs). exists r. rewrite lookup_delete_ne; [done|]. intros En.
    rewrite <- En in Er. by destruct (Hnone r s).
  - intros n r s [Hn E]%lookup_delete_Some. by apply K3.
  - intros n r [Hn E]%lookup_delete_Some. by eapply K4.
  - intros n. destruct (decide (n = name)) as [->|Hn].
    + rewrite !lookup_delete_eq. split; [by intros []|by intros (? & ? & ?)].
    + rewrite !lookup_delete_ne by done. apply K5.
  - intros n seen r s [_ Hs]%lookup_delete_Some [_ E]%lookup_delete_Some. by eapply K6.
  - done.
  - intros n r [_ E]%lookup_delete_Some. by eapply K8.
Qed.

Lemma tm_ok_step m l m' : tstep m l m' -> tm_ok m -> tm_ok m'.
Proof.
  intros Hs H. destruct Hs.
  - by destruct H; constructor.
  - by destruct H; constructor.
  - by apply save_ok.
  - by eapply connect_ok.
  - by eapply stop_begin_ok.
  - by apply mark_ok.
  - apply update_ok; [|done]. intros r Er. apply on_event_same; [done|].
    destruct H. destruct (ok_tracked0 _ _ H0) as (r' & Er' & Hs'). rewrite Er in Er'. simplify_eq. eauto.
  - by apply finish_ok.
  - apply update_ok; [|done]. intros r _. apply hint_same.
  - apply update_ok; [|done]. intros r _. by apply (failed_same (fun r => set_lastErr _ (set_state TunnelFailed (lv_detail r) r))).
  - apply update_ok; [|done]. intros r _. by apply (failed_same (fun r => set_want (set_lastErr _ (set_state TunnelFailed (lv_detail r) r)) true)).
  - by eapply delete_begin_ok.
  - by apply delete_stop_ok.
  - by apply delete_undo_ok.
  - by apply delete_end_ok.
  - unfold DisconnectAll_scan in H0. simplify_eq. apply (map_change_ok (fun n r => scan_live (bool_decide (n ∈ kept_names m)) r)); [|done].
    intros n r. apply scan_same.
  - unfold StartAuto_begin in H0. destruct (tm_closed m); simplify_eq; [done|]. by destruct H; constructor.
  - by destruct H; constructor.
  - by destruct H; constructor.
Qed.

(** *** The start *)

Definition good_defs (defs : list tunnel_def) : Prop := Forall (fun d => ValidName (td_Name d) = true) defs.

Lemma New_ok defs unreadable store file : good_defs defs -> tm_ok (New drivers defs unreadable store file).
Proof.
  intros Hd. unfold New.
  assert (forall l m, good_defs l -> tm_ok m -> tm_ok (fold_left (fun m d => cache drivers d m) l m)) as Hfold.
  { induction l as [|d l IH]; intros m Hl H; [done|]. apply Forall_cons in Hl as [Hv Hl]. apply IH; [done|]. by apply cache_ok. }
  set (m := fold_left _ _ _). assert (tm_ok m) as H.
  { apply Hfold; [done|]. constructor; simpl; try (intros *; by rewrite ?lookup_empty).
    - intros name. rewrite !lookup_empty. split; [by intros []|by intros (? & ? & ?)]. }
  apply (map_change_ok (fun n r => match tm_defs m !! n with
    | Some d => if td_AutoConnect d || bool_decide (n ∈ tm_resume m) then set_want r true else r | None => r end)); [|done].
  intros n r. by repeat case_match.
Qed.

(** Every state of a run. *)
Inductive reach : TunnelManager -> TunnelManager -> list tlabel -> Prop :=
| reach_refl m : reach m m []
| reach_step m m1 m2 ls l : reach m m1 ls -> tstep m1 l m2 -> reach m m2 (ls ++ [l]).

Definition started m : Prop :=
  exists defs unreadable store file ls, good_defs defs /\ reach (New drivers defs unreadable store file) m ls.

Lemma reach_ok m0 m ls : reach m0 m ls -> tm_ok m0 -> tm_ok m.
Proof. induction 1; [done|]. intros ?. eapply tm_ok_step; eauto. Qed.

Lemma started_ok m : started m -> tm_ok m.
Proof. intros (defs & u & st & f & ls & Hd & Hr). eapply reach_ok; [done|]. by apply New_ok. Qed.

(** *** Sessions after a scan *)

Definition same_names (f g : gmap nat session) : Prop := forall s se, f !! s = Some se -> exists se', g !! s = Some se' /\ se_name se' = se_name se.

Lemma same_names_refl f : same_names f f.
Proof. by intros s se E; eexists. Qed.

Lemma same_names_trans f g h : same_names f g -> same_names g h -> same_names f h.
Proof.
  intros H1 H2 s se E. destruct (H1 s se E) as (se1 & E1 & N1). destruct (H2 s se1 E1) as (se2 & E2 & N2).
  exists se2. split; [done|congruence].
Qed.

Lemma update_sessions name f m : tm_sessions (update name f m) = tm_sessions m.
Proof. unfold update. by case_match. Qed.
Lemma update_closed name f m : tm_closed (update name f m) = tm_closed m.
Proof. unfold update. by case_match. Qed.

(** Once closed, no session starts. *)
Lemma closed_step m l m' : tstep m l m' -> tm_closed m = true -> tm_closed m' = true /\ same_names (tm_sessions m') (tm_sessions m).
Proof.
  intros Hs Hc. destruct Hs; try (split; [done|apply same_names_refl]);
    try (unfold save_failed, auto_failed; rewrite update_sessions, update_closed; split; [done|apply same_names_refl]).
  - unfold connect_start in H. by rewrite Hc in H.
  - unfold stop_begin in H. case_match; simplify_eq. rewrite update_sessions, update_closed. split; [done|apply same_names_refl].
  - unfold mark_stopping. case_match eqn:E; [|split; [done|apply same_names_refl]]. split; [done|]. intros s' se'. simpl.
    intros [[<- <-]|[_ ?]]%lookup_insert_Some; eauto.
  - unfold finish. case_match; [|split; [done|apply same_names_refl]]. rewrite update_sessions, update_closed. split; [done|].
    intros s' se'. simpl. intros [_ ?]%lookup_delete_Some. eauto.
  - unfold delete_begin in H. repeat case_match; simplify_eq; try (split; [done|apply same_names_refl]).
    simpl. rewrite update_sessions, update_closed. split; [done|apply same_names_refl].
  - unfold delete_stop, stop_begin. case_match eqn:E; [split; [done|apply same_names_refl]|]. repeat case_match; simplify_eq. simpl.
    rewrite update_sessions, update_closed. split; [done|apply same_names_refl].
  - unfold delete_undo. simpl. rewrite update_sessions, update_closed. split; [done|apply same_names_refl].
  - unfold DisconnectAll_scan in H. simplify_eq. split; [done|apply same_names_refl].
  - unfold StartAuto_begin in H. rewrite Hc in H. simplify_eq. split; [done|apply same_names_refl].
Qed.

Lemma closed_reach m m' ls : reach m m' ls -> tm_closed m = true -> tm_closed m' = true /\ same_names (tm_sessions m') (tm_sessions m).
Proof.
  induction 1 as [|m m1 m2 ls l Hr IH Hs]; intros Hc; [split; [done|apply same_names_refl]|].
  destruct (IH Hc) as [Hc1 Hn1]. destruct (closed_step _ _ _ Hs Hc1) as [Hc2 Hn2]. split; [done|]. by eapply same_names_trans.
Qed.

(** *** A wanted tunnel *)

(** The steps that take a tunnel down: a Disconnect (a user's, or the manager's
    own in [reresolve], when its servers' addresses moved), a Delete, and a
    DisconnectAll that does not keep it. *)
Definition takes_down m l name : Prop :=
  match l with
  | LStop n false | LDeleteStop n | LDeleteEnd n => n = name
  | LScan => name ∉ kept_names m
  | _ => False
  end.

Lemma update_want name f m n r :
  tm_rt m !! n = Some r -> (n = name -> lv_want r = true -> lv_want (f r) = true) -> lv_want r = true ->
  exists r', tm_rt (update name f m) !! n = Some r' /\ lv_want r' = true.
Proof.
  intros Er Hf Hw. unfold update. destruct (tm_rt m !! name) as [r0|] eqn:E; [|by exists r]. simpl. destruct (decide (n = name)) as [->|].
  - rewrite lookup_insert_eq. eexists. split; [done|]. simplify_eq. by apply Hf.
  - rewrite lookup_insert_ne by done. by exists r.
Qed.

Lemma on_event_want e r : lv_want (on_event e r) = lv_want r.
Proof. destruct e; cbn [on_event]; unfold on_connected, on_reconnecting, connecting; by repeat case_match. Qed.

Lemma want_step m l m' name r :
  tstep m l m' -> ~ takes_down m l name -> tm_rt m !! name = Some r -> lv_want r = true ->
  exists r', tm_rt m' !! name = Some r' /\ lv_want r' = true.
Proof.
  intros Hs Ht Er Hw. destruct Hs; try (by exists r).
  - unfold save_cache, cache, unbreak. simpl. exists r. split; [|done]. case_match; [done|]. rewrite lookup_insert_ne; [done|congruence].
  - unfold connect_start in H. repeat case_match; simplify_eq; [by exists r|]. simpl.
    destruct (decide (name0 = name)) as [->|]; [rewrite lookup_insert_eq; by eexists|rewrite lookup_insert_ne by done; by exists r].
  - unfold stop_begin in H. case_match; simplify_eq. eapply update_want; [done| |done]. intros -> _. destruct keep; [|by destruct Ht].
    unfold stop_live. by case_match.
  - unfold mark_stopping. case_match; by exists r.
  - eapply update_want; [done| |done]. by rewrite on_event_want.
  - unfold finish. case_match; [|by exists r]. eapply update_want; [done| |done]. intros _ _. case_match; [|done].
    unfold finished. by destruct (se_stopping _).
  - eapply update_want; [done| |done]. by rewrite on_event_want.
  - eapply update_want; [done| |done]. intros _ _. by case_match.
  - eapply update_want; [done| |done]. intros _ _. by case_match.
  - unfold delete_begin in H. repeat case_match; simplify_eq; try by exists r. by eapply update_want.
  - unfold delete_stop, stop_begin. destruct (tm_rt m !! name0) eqn:E; [|by exists r]. simpl.
    eapply update_want; [done| |done]. intros ->. by destruct Ht.
  - by eapply update_want.
  - exists r. unfold delete_end. simpl. rewrite lookup_delete_ne; [done|]. intros ->. by destruct Ht.
  - unfold DisconnectAll_scan in H. simplify_eq. simpl. rewrite map_lookup_imap, Er. simpl. eexists. split; [done|].
    unfold scan_live. destruct (decide (name ∈ kept_names m)) as [Hk|Hk]; [|by destruct Ht].
    rewrite (bool_decide_eq_true_2 (name ∈ kept_names m)) by done. rewrite andb_false_r. by case_match.
  - unfold StartAuto_begin in H. case_match; simplify_eq; by exists r.
Qed.

(** A run that leaves a tunnel wanted, and does not save it again. *)
Inductive undisturbed (name : string) : TunnelManager -> TunnelManager -> Prop :=
| undisturbed_refl m : undisturbed name m m
| undisturbed_step m m1 m2 l : undisturbed name m m1 -> tstep m1 l m2 -> ~ takes_down m1 l name ->
    (forall d, l = LSave d -> td_Name d <> name) -> undisturbed name m m2.

Lemma update_defs name f m : tm_defs (update name f m) = tm_defs m.
Proof. unfold update. by case_match. Qed.

Lemma defs_step m l m' name :
  tstep m l m' -> ~ takes_down m l name -> (forall d, l = LSave d -> td_Name d <> name) -> tm_defs m' !! name = tm_defs m !! name.
Proof.
  intros Hs Ht Hd. destruct Hs; try done; unfold save_failed, auto_failed, delete_undo; rewrite ?update_defs; try done.
  - unfold save_cache, cache, unbreak. simpl. rewrite lookup_insert_ne; [done|]. by apply Hd.
  - unfold connect_start in H. by repeat case_match; simplify_eq.
  - unfold stop_begin in H. case_match; simplify_eq. by rewrite update_defs.
  - unfold mark_stopping. by case_match.
  - unfold finish. case_match; [|done]. by rewrite update_defs.
  - unfold delete_begin in H. repeat case_match; simplify_eq; try done. simpl. by rewrite update_defs.
  - unfold delete_stop, stop_begin. destruct (tm_rt m !! name0); [|done]. simpl. by rewrite update_defs.
  - simpl. by rewrite update_defs.
  - unfold delete_end. simpl. rewrite lookup_delete_ne; [done|]. intros ->. by destruct Ht.
  - unfold DisconnectAll_scan in H. by simplify_eq.
  - unfold StartAuto_begin in H. by case_match; simplify_eq.
Qed.

Lemma undisturbed_keeps name m m' d :
  undisturbed name m m' -> tm_ok m -> tm_defs m !! name = Some d -> (exists r, tm_rt m !! name = Some r /\ lv_want r = true) ->
  tm_ok m' /\ tm_defs m' !! name = Some d /\ exists r, tm_rt m' !! name = Some r /\ lv_want r = true.
Proof.
  intros Hu H Hd Hr. induction Hu as [|m m1 m2 l Hu IH Hs Ht Hl]; [done|].
  destruct (IH H Hd Hr) as (H1 & Hd1 & r & Er & Hw). split; [by eapply tm_ok_step|]. split.
  - by rewrite (defs_step _ _ _ _ Hs Ht Hl).
  - by eapply want_step.
Qed.

(** What the engine gets of a wanted tunnel set to block. *)
Lemma wanted_input m name d r :
  tm_ok m -> tm_defs m !! name = Some d -> tm_rt m !! name = Some r -> blocks d = true -> lv_want r = true ->
  exists t, t ∈ Inputs m /\ t_Name t = name /\ t_Block t = true /\ t_Routes t = td_Routes d /\
    (t_Iface t <> "" <-> lv_state r = TunnelConnected).
Proof.
  intros H Hd Er Hb Hw. destruct (ok_live m H name r Er) as (H1 & H2 & H3).
  assert (exists t, input_of m name r = Some t /\ t_Name t = name /\ t_Block t = true /\ t_Routes t = td_Routes d /\
    (t_Iface t <> "" <-> lv_state r = TunnelConnected)) as (t & Et & Ht).
  { unfold input_of. rewrite Hd, Hb, Hw, andb_false_r. eexists. split; [done|]. simpl. split_and!; try done.
    destruct (lv_sess r) as [s|] eqn:Es; simpl.
    - destruct (lv_state r =s? TunnelConnected) eqn:E; bool_hyps; split; intros; try done. by apply H3.
    - destruct (H1 eq_refl) as [[E|E] _]; rewrite E; split; done. }
  exists t. split; [|done]. unfold Inputs. rewrite slice_stable_perm. apply list_elem_of_omap. exists (name, r).
  split; [by apply elem_of_map_to_list|done].
Qed.

(** *** The resume list *)

Definition word (w : string) : Prop := w <> "" /\ str_forall (fun c => negb (is_space c)) w = true.

Lemma fields_word w : forall (t cur : string), str_forall (fun c => negb (is_space c)) w = true -> fields_go (w +:+ t) cur = fields_go t (cur +:+ w).
Proof.
  induction w as [|c w IH]; intros t cur H; simpl; [by rewrite append_nil_r|].
  simpl in H. destruct (is_space c); [done|]. simpl in H. rewrite IH by done. by rewrite append_assoc.
Qed.

Lemma fields_line w (t : string) : word w -> fields_go (w +:+ nl_text +:+ t) "" = w :: fields_go t "".
Proof.
  intros [Hn Hw]. rewrite fields_word by done. simpl. by destruct (String.eqb_spec w "").
Qed.

Lemma Fields_Join l : Forall word l -> Fields (Join l nl_text +:+ nl_text) = l.
Proof.
  unfold Fields. induction l as [|w l IH]; intros Hl; [done|]. apply Forall_cons in Hl as [Hw Hl].
  destruct l as [|w' l].
  - simpl. rewrite <- (append_nil_r nl_text). by rewrite fields_line.
  - change (Join (w :: w' :: l) nl_text) with (w +:+ nl_text +:+ Join (w' :: l) nl_text).
    rewrite !append_assoc, fields_line by done. by rewrite IH.
Qed.

Lemma ValidName_word n : ValidName n = true -> word n.
Proof.
  assert (forall c, name_char c = true -> is_space c = false) as Hc.
  { intros c. unfold name_char, is_lower, is_digit, is_space. rewrite !orb_true_iff, !andb_true_iff, orb_false_iff, andb_false_iff, !Z.leb_le, !Z.eqb_neq, !Z.leb_gt.
    intros [[[H|H]| ->%Ascii.eqb_eq]| ->%Ascii.eqb_eq]; [lia|lia|vm_compute; split; [done|by right]|vm_compute; split; [done|by right]]. }
  destruct n as [|c n]; [done|]. simpl. intros [[H1 _]%andb_true_iff H2]%andb_true_iff. split; [done|]. simpl.
  rewrite Hc by (unfold name_char; by rewrite H1). simpl. clear H1. induction n as [|c' n IH]; [done|]. simpl in *.
  apply andb_true_iff in H2 as [H2 H3]. by rewrite Hc, IH.
Qed.

Lemma takeResume_remembered m :
  tm_ok m -> remembered m true <> [] ->
  takeResume (tm_resumeFile (RememberForRestart true true m)) = list_to_set (remembered m true).
Proof.
  intros H Hn. unfold RememberForRestart. simpl. rewrite bool_decide_eq_false_2 by done. simpl.
  assert (Forall (fun n => ValidName n = true) (slice_stable str_less (remembered m true))) as Hv.
  { rewrite slice_stable_perm. apply Forall_forall. intros n. unfold remembered. rewrite list_elem_of_omap.
    intros ([n' r] & Er%elem_of_map_to_list & E). case_match; simplify_eq. by eapply (ok_names m H). }
  rewrite Fields_Join.
  - rewrite keep_if_all by (by apply Forall_forall). apply list_to_set_perm_L, slice_stable_perm.
  - eapply Forall_impl; [exact Hv|]. apply ValidName_word.
Qed.

Lemma cache_fold_keeps defs : forall m name,
  (name ∈ map td_Name defs \/ is_Some (tm_defs m !! name)) -> is_Some (tm_defs (fold_left (fun m d => cache drivers d m) defs m) !! name).
Proof.
  induction defs as [|d defs IH]; intros m name Hn; simpl; [by destruct Hn as [?%elem_of_nil|]|]. apply IH.
  simpl in Hn. rewrite elem_of_cons in Hn. unfold cache at 1. simpl. rewrite lookup_insert_is_Some'.
  destruct Hn as [[->|]|]; auto.
Qed.

Lemma cache_fold_resume defs : forall m, tm_resume (fold_left (fun m d => cache drivers d m) defs m) = tm_resume m.
Proof. induction defs as [|d defs IH]; intros m; simpl; [done|]. by rewrite IH. Qed.

Lemma New_wants defs unreadable store file name :
  good_defs defs -> name ∈ map td_Name defs -> name ∈ takeResume file ->
  exists r, tm_rt (New drivers defs unreadable store file) !! name = Some r /\ lv_want r = true.
Proof.
  intros Hg Hn Hf. pose proof (New_ok defs unreadable store file Hg) as H. destruct (ok_doms _ H) as [Hd _].
  assert (name ∈ dom (tm_defs (New drivers defs unreadable store file))) as Hin.
  { apply elem_of_dom. unfold New. simpl. apply cache_fold_keeps. by left. }
  rewrite Hd in Hin. apply elem_of_dom in Hin as [r Er]. exists r. split; [done|].
  unfold New in Er. simpl in Er. rewrite map_lookup_imap in Er. rewrite cache_fold_resume in Er. simpl in Er.
  apply bind_Some in Er as (r0 & _ & [= <-]). rewrite (bool_decide_eq_true_2 (name ∈ takeResume file)) by done.
  destruct (cache_fold_keeps defs (mkTM ∅ ∅ ∅ unreadable (takeResume file) ∅ false store None ∅ 0 ∅) name) as [d ->]; [by left|].
  by rewrite orb_true_r.
Qed.

(** ** Theorems *)

(** C5: The manager never loses track of a connection. In every state of every
    run (connects, saves, deletes, stops and sessions' own changes in any
    order), each running session is the session of a tunnel that is still
    there, so a Disconnect, a Delete or a shutdown finds it; a tunnel has a
    session exactly when it is connecting, connected or reconnecting, and a
    connected one has an interface. *)
Theorem sessions_tracked m :
  started m ->
  (forall s se, tm_sessions m !! s = Some se -> exists r, tm_rt m !! se_name se = Some r /\ lv_sess r = Some s) /\
  (forall name r, tm_rt m !! name = Some r ->
     match lv_sess r with
     | Some s => busy_state (lv_state r) /\ exists se, tm_sessions m !! s = Some se /\ se_name se = name
     | None => idle_state (lv_state r) /\ lv_iface r = ""
     end /\ (lv_state r = TunnelConnected -> lv_iface r <> "")).
Proof.
  intros H%started_ok. split; [by apply H|]. intros name r Er. destruct (ok_live m H name r Er) as (H1 & H2 & H3). split; [|done].
  destruct (lv_sess r) as [s|] eqn:Es; [|by apply H1]. split; [by apply H2|]. by apply (ok_running m H name r s).
Qed.

(** Connecting dereferences nothing that is not there: in every state of a
    run, Connect's checks end in an answer. *)
Theorem Connect_never_panics m name : started m -> connect_check drivers m name <> ConnectPanic.
Proof.
  intros H%started_ok. unfold connect_check. destruct (tm_broken m !! name); [done|]. destruct (tm_defs m !! name) as [d|] eqn:Ed; [|done].
  assert (is_Some (tm_rt m !! name)) as [r ->].
  { apply elem_of_dom. destruct (ok_doms m H) as [<- _]. by eapply elem_of_dom_2. }
  rewrite (ok_parsed m H name d Ed). unfold parse_def. repeat case_match; simplify_eq; done.
Qed.

(** A shutdown leaves no connection behind. Once the manager is closed, the
    scan of DisconnectAll lists the tunnel of every running session, and none
    starts afterwards: whatever happens next, every session still running is
    one of those the shutdown stops. *)
Theorem Shutdown_stops_all m m1 l m2 ls :
  started m -> tm_closed m = true -> DisconnectAll_scan m = (m1, l) -> reach m1 m2 ls ->
  forall s se, tm_sessions m2 !! s = Some se -> exists keep, (se_name se, keep) ∈ l.
Proof.
  intros H%started_ok Hc E Hr s se Es. unfold DisconnectAll_scan in E. simplify_eq.
  destruct (closed_reach _ _ _ Hr Hc) as [_ Hn]. destruct (Hn s se Es) as (se' & E' & <-). simpl in E'.
  destruct (ok_tracked m H s se' E') as (r & Er & Hs). exists (bool_decide (se_name se' ∈ kept_names m)).
  apply list_elem_of_omap. exists (se_name se', r). split; [by apply elem_of_map_to_list|]. by rewrite Hs.
Qed.

(** C6: A tunnel set to block does not leak while it is wanted and not disturbed.
    From a state in which it is wanted, and through any run without a Disconnect
    of it (a user's, or the manager's own after its servers' addresses moved,
    which does lift the block), without its deletion, without a DisconnectAll
    that does not keep it, and without a new definition saved for it, so through
    dropped connections, failed attempts, reconnects, refused connects, an
    update's shutdown and other tunnels' changes, the engine keeps getting it as
    blocking with its destinations, with an interface exactly while it is
    connected. Of every destination it lists that holds no address to be kept
    out of it (a router, a server, a resolver, an anchor), each address then has
    a route of the plan, into the tunnel's interface or refused while it has
    none, or the destination is reported as blocked with the reason. *)
Theorem block_never_leaks m0 m name d inp v pfx fam :
  started m0 -> tm_defs m0 !! name = Some d -> blocks d = true ->
  (exists r, tm_rt m0 !! name = Some r /\ lv_want r = true) -> undisturbed name m0 m ->
  exists t r, t ∈ Inputs m /\ tm_rt m !! name = Some r /\ t_Name t = name /\ t_Block t = true /\ t_Routes t = td_Routes d /\
    (t_Iface t <> "" <-> lv_state r = TunnelConnected) /\
    (input_ok inp -> in_Tunnels inp = Inputs m -> v ∈ td_Routes d -> entryToPrefix v = Some (pfx, fam) ->
     keepOut (Masked pfx) t (sorted_tunnels inp) (held_servers inp) inp false = [] ->
     (forall a, Contains pfx a = true -> exists x, x ∈ tp_Routes (PlanTunnels inp) /\ carries t x a) \/
     exists why, mkTunnelBlocked v why ∈ at_key (tp_Blocked (PlanTunnels inp)) name).
Proof.
  intros H%started_ok Hd Hb Hr Hu. destruct (undisturbed_keeps _ _ _ _ Hu H Hd Hr) as (H' & Hd' & r & Er & Hw).
  destruct (wanted_input m name d r H' Hd' Er Hb Hw) as (t & Ht & En & Eb & Ero & Hi). exists t, r. split_and!; try done.
  intros Hin Et Hv Ee Hk. rewrite <- En. apply (plan_delivers inp t v pfx fam); try done.
  - by rewrite Et.
  - by right.
  - by rewrite Ero.
Qed.

(** C32: An update's restart brings the tunnels back, and keeps what blocks
    blocked. Every tunnel that is up, and every one refusing its destinations,
    is kept by the shutdown's DisconnectAll, and is wanted from the start in
    the next daemon, if its definition can still be read. *)
Theorem restart_resumes m defs unreadable store name r :
  started m -> tm_rt m !! name = Some r -> is_up m r || def_blocking m name r = true ->
  good_defs defs -> name ∈ map td_Name defs ->
  name ∈ kept_names (close (RememberForRestart true true m)) /\
  exists r', tm_rt (New drivers defs unreadable store (tm_resumeFile (RememberForRestart true true m))) !! name = Some r' /\
    lv_want r' = true.
Proof.
  intros H%started_ok Er Hr Hg Hn.
  assert (name ∈ remembered m true) as Hin.
  { apply list_elem_of_omap. exists (name, r). split; [by apply elem_of_map_to_list|]. simpl. by rewrite Hr. }
  split; [unfold kept_names; simpl; by apply elem_of_list_to_set|]. apply New_wants; [done|done|].
  rewrite takeResume_remembered; [by apply elem_of_list_to_set|done|]. intros E. rewrite E in Hin. by apply elem_of_nil in Hin.
Qed.

(** *** Restarting a session *)

Lemma input_of_name m n r t : input_of m n r = Some t -> t_Name t = n.
Proof. unfold input_of. destruct (_ && negb _); [done|]. by intros [= <-]. Qed.

Lemma stop_done_live m name keep r s :
  tm_ok m -> tm_rt m !! name = Some r -> lv_sess r = Some s ->
  exists r', tm_rt (stop_done name keep m) !! name = Some r' /\ lv_sess r' = None /\ lv_want r' = keep && lv_want r /\
    tm_defs (stop_done name keep m) = tm_defs m.
Proof.
  intros H Er Hs. destruct (ok_running m H name r s Er Hs) as (se & Es & En).
  unfold stop_done, stop_begin, mark_stopping, finish. rewrite Er, Hs. rewrite update_sessions, Es. simpl. rewrite lookup_insert_eq. simpl.
  rewrite !update_defs. simpl. rewrite update_defs. unfold update at 1. rewrite En. simpl. unfold update. rewrite Er. simpl. rewrite lookup_insert_eq. simpl.
  rewrite lookup_insert_eq. assert (lv_sess (stop_live keep r) = Some s) as Hs' by (by rewrite <- Hs; apply stop_same).
  rewrite bool_decide_eq_true_2 by done. eexists. split_and!; try done. simpl. unfold stop_live. destruct keep; simpl; by rewrite Hs.
Qed.

(** The manager's own restart of a session lifts a block. A tunnel set to
    block, restarted because its settings changed, stays blocking between the
    sessions; restarted because its servers' addresses moved ([reresolve]), it
    is disconnected like a tunnel the user takes down, and until the new
    session starts (and for good, if that is refused) the engine has nothing
    of it, so its destinations take the usual path. *)
Theorem reresolve_lifts_block m name d r s :
  started m -> tm_defs m !! name = Some d -> blocks d = true -> tm_rt m !! name = Some r -> lv_want r = true -> lv_sess r = Some s ->
  (exists t, t ∈ Inputs (stop_done name true m) /\ t_Name t = name /\ t_Block t = true) /\
  (forall t, t ∈ Inputs (stop_done name false m) -> t_Name t <> name).
Proof.
  intros H%started_ok Hd Hb Er Hw Hs. split.
  - destruct (stop_done_live m name true r s H Er Hs) as (r' & Er' & Hs' & Hw' & Ed). rewrite Hw in Hw'.
    exists (default (mkTunnelInput "" "" false false [] [] []) (input_of (stop_done name true m) name r')).
    assert (exists t, input_of (stop_done name true m) name r' = Some t /\ t_Name t = name /\ t_Block t = true) as (t & Et & Ht).
    { unfold input_of. rewrite Ed, Hd, Hb, Hw', Hs'. simpl. by eexists. }
    rewrite Et. split; [|done]. unfold Inputs. rewrite slice_stable_perm. apply list_elem_of_omap. exists (name, r').
    split; [by apply elem_of_map_to_list|done].
  - destruct (stop_done_live m name false r s H Er Hs) as (r' & Er' & Hs' & Hw' & Ed). intros t. unfold Inputs. rewrite slice_stable_perm.
    rewrite list_elem_of_omap. intros ([n r0] & E%elem_of_map_to_list & Et) <-.
    assert (t_Name t = n) as <- by (by apply (input_of_name _ _ _ _ Et)).
    rewrite E in Er'. simplify_eq. unfold input_of in Et. rewrite Ed, Hd, Hs', Hw' in Et. by rewrite andb_false_r in Et.
Qed.
End system.

(** ** A saved password *)

Lemma spec_def_login prev name type via spec now d kept :
  spec_def prev name type via spec now = (d, kept) ->
  td_Name d = name /\ td_Type d = type /\
  (if kept then exists p, prev = Some p /\ td_Type p = type /\ td_Password p = td_Password d else td_Password d = sp_Password spec).
Proof.
  unfold spec_def. destruct prev as [p|]; [|intros [= <- <-]; by split_and!].
  destruct (String.eqb_spec (td_Type p) type) as [Et|Et]; intros [= <- <-]; split_and!; try done.
  destruct ((sp_Password spec =s? "") && negb (td_Password p =s? "")) eqn:E; simpl; [by exists p|done].
Qed.

Lemma bad_nil cond field e : bad cond field e = [] -> cond = false.
Proof. by destruct cond. Qed.

(** A saved password goes only to the profile it was entered for. When a
    tunnel is saved without a password, the stored definition has the saved
    one only if the profile and the protocol are unchanged; otherwise its
    password is the one the new profile carries. *)
Theorem saved_password_stays drivers m spec now d prev :
  save_check drivers m spec now = inr (d, prev) -> sp_Password spec = "" -> td_Password d <> "" ->
  (exists p, prev = Some p /\ tm_defs m !! td_Name d = Some p /\ td_Password p = td_Password d /\ td_Config p = td_Config d /\
     td_Type p = td_Type d) \/
  (exists p, parse_def drivers (td_Type d) (td_Config d) = inr p /\ td_Password d = pd_inlinePass p).
Proof.
  intros E Hp Hd. unfold save_check in E. set (name := TrimSpace (sp_Name spec)) in *. set (type := spec_type m name (sp_Type spec)) in *.
  set (via := orString (sp_Via spec) TunnelViaDirect) in *. case_match; [done|].
  destruct (spec_def (tm_defs m !! name) name type via spec now) as [d0 kept] eqn:E0.
  destruct (login_issues drivers (tm_defs m !! name) spec d0 kept) as [d1 is_] eqn:E1. case_match eqn:Ei; [|done]. simplify_eq.
  apply app_eq_nil in Ei as [Es ->]. destruct (spec_def_login _ _ _ _ _ _ _ _ E0) as (En & Ety & Hk).
  unfold spec_issues in Es. apply app_eq_nil in Es as [_ Es]. apply app_eq_nil in Es as [Hdrv%bad_nil _].
  unfold login_issues in E1. destruct (TrimSpace (td_Config d0) =s? ""); [done|]. rewrite Ety, Hdrv in E1.
  destruct (parse_def drivers type (td_Config d0)) as [e|p] eqn:Ep; [done|]. injection E1 as <- _. cbn [with_login td_Password td_Config td_Type td_Name] in *.
  unfold orString in *. destruct kept.
  - destruct Hk as (pr & Epr & Et & Epw). rewrite Epr in *. simpl in *. destruct (String.eqb_spec (td_Config pr) (td_Config d0)) as [Ec|]; simpl in *.
    + destruct (String.eqb_spec (td_Password d0) "") as [E|E]; [right; exists p; by rewrite Ety|]. left. exists pr. rewrite Ety, En. split_and!; try done.
    + right. exists p. by rewrite Ety.
  - right. exists p. rewrite Ety. split; [done|]. by rewrite Hk, Hp.
Qed.

(** ** Witnesses *)

(** A tunnel that connects at start and blocks while it is down, and its first
    session. *)
Definition ex_profile := mkParsed [mkRemote "203.0.113.7" 1194 "udp"] ["203.0.113.7:1194/udp"] [] true "" "" None "".
Definition ex_drivers (t : string) : option driver :=
  if t =s? TunnelOpenVPN then Some (mkDriver (fun _ => inr ex_profile) (fun _ => None) None) else None.
Definition ex_def := mkDef "office" TunnelOpenVPN "client" "ann" "hunter2" TunnelViaDirect ["10.20.0.0/16"] true TunnelBlock 0.
Definition ex_m0 := New ex_drivers [ex_def] ∅ {[ "office" := ex_def ]} None.
Definition ex_m1 := match connect_start "office" ex_def ex_m0 with inr (m, _) => m | inl _ => ex_m0 end.

Lemma ex_good : good_defs [ex_def].
Proof. constructor; [reflexivity|constructor]. Defined.

Lemma ex_connect : tstep ex_drivers ex_m0 (LConnect "office") ex_m1.
Proof. apply (TConnect ex_drivers ex_m0 "office" ex_def ex_m1 (Some 0%nat)). vm_compute. reflexivity. Defined.

Lemma ex_started0 : started ex_drivers ex_m0.
Proof. exists [ex_def], ∅, {[ "office" := ex_def ]}, None, []. split; [exact ex_good|]. apply reach_refl. Defined.

Lemma ex_started : started ex_drivers ex_m1.
Proof.
  exists [ex_def], ∅, {[ "office" := ex_def ]}, None, ([] ++ [LConnect "office"]). split; [exact ex_good|].
  eapply reach_step; [apply reach_refl|exact ex_connect].
Defined.

Lemma ex_closed : started ex_drivers (close ex_m1).
Proof.
  exists [ex_def], ∅, {[ "office" := ex_def ]}, None, (([] ++ [LConnect "office"]) ++ [LOther]). split; [exact ex_good|].
  eapply reach_step; [eapply reach_step; [apply reach_refl|exact ex_connect]|apply TClose].
Defined.

Lemma sessions_tracked_witness : exists r, tm_rt ex_m1 !! "office" = Some r /\ lv_sess r = Some 0%nat.
Proof. apply (proj1 (sessions_tracked ex_drivers ex_m1 ex_started) 0%nat (mkSession "office" false)). vm_compute. reflexivity. Defined.

Lemma Connect_never_panics_witness : connect_check ex_drivers ex_m0 "office" <> ConnectPanic.
Proof. apply (Connect_never_panics ex_drivers ex_m0 "office" ex_started0). Defined.

Lemma Shutdown_stops_all_witness : exists keep, ("office", keep) ∈ snd (DisconnectAll_scan (close ex_m1)).
Proof.
  apply (Shutdown_stops_all ex_drivers (close ex_m1) (fst (DisconnectAll_scan (close ex_m1))) (snd (DisconnectAll_scan (close ex_m1)))
    (fst (DisconnectAll_scan (close ex_m1))) [] ex_closed eq_refl (surjective_pairing _) (reach_refl _ _) 0%nat (mkSession "office" false)).
  vm_compute. reflexivity.
Defined.

Definition ex_engine_in := mkDesiredInput [] (Addr4 3232235777) AddrZero "en0" "" (mkPrefix (Addr4 3232235776) 24) PrefixZero
  AddrZero AddrZero "" "" ∅ ∅ (Inputs ex_m1) [] [] [] [] "" false "linux" true 0.

Lemma block_never_leaks_witness :
  exists t, t ∈ Inputs ex_m1 /\ t_Block t = true /\ t_Iface t = "" /\
    ((forall a, Contains (mkPrefix (Addr4 169082880) 16) a = true -> exists x, x ∈ tp_Routes (PlanTunnels ex_engine_in) /\ carries t x a) \/
     exists why, mkTunnelBlocked "10.20.0.0/16" why ∈ at_key (tp_Blocked (PlanTunnels ex_engine_in)) "office").
Proof.
  destruct (block_never_leaks ex_drivers ex_m0 ex_m1 "office" ex_def ex_engine_in "10.20.0.0/16" (mkPrefix (Addr4 169082880) 16) FamilyV4)
    as (t & r & Ht & Er & En & Eb & Ero & Hi & Hplan).
  - exact ex_started0.
  - vm_compute. reflexivity.
  - reflexivity.
  - eexists. split; vm_compute; reflexivity.
  - eapply undisturbed_step; [apply undisturbed_refl|exact ex_connect|intros []|discriminate].
  - assert (t = mkTunnelInput "office" "" false true ["10.20.0.0/16"] [] []) as ->.
    { apply list_elem_of_singleton. exact Ht. }
    eexists. split; [exact Ht|]. split; [reflexivity|]. split; [reflexivity|]. apply Hplan.
    + apply (bool_decide_unpack (input_ok ex_engine_in)). vm_compute. exact I.
    + reflexivity.
    + left.
    + vm_compute. reflexivity.
    + vm_compute. reflexivity.
Defined.

Lemma restart_resumes_witness :
  exists r', tm_rt (New ex_drivers [ex_def] ∅ ∅ (tm_resumeFile (RememberForRestart true true ex_m1))) !! "office" = Some r' /\ lv_want r' = true.
Proof.
  eapply (restart_resumes ex_drivers ex_m1 [ex_def] ∅ ∅ "office").
  - exact ex_started.
  - vm_compute. reflexivity.
  - vm_compute. reflexivity.
  - exact ex_good.
  - left.
Defined.

Lemma reresolve_lifts_block_witness :
  (exists t, t ∈ Inputs (stop_done "office" true ex_m1) /\ t_Name t = "office" /\ t_Block t = true) /\
  (forall t, t ∈ Inputs (stop_done "office" false ex_m1) -> t_Name t <> "office").
Proof.
  eapply (reresolve_lifts_block ex_drivers ex_m1 "office" ex_def).
  - exact ex_started.
  - vm_compute. reflexivity.
  - reflexivity.
  - vm_compute. reflexivity.
  - reflexivity.
  - reflexivity.
Defined.

(** The same profile saved again without the password keeps it. *)
Definition ex_spec := mkSpec " office " "" "" "" "" "" ["10.20.0.0/16"; "10.30.0.1"] false "".
Definition ex_saved := mkDef "office" TunnelOpenVPN "client" "ann" "hunter2" TunnelViaDirect ["10.20.0.0/16"; "10.30.0.1"] false TunnelBlock 5.

Lemma saved_password_stays_witness :
  (exists p, Some ex_def = Some p /\ tm_defs ex_m1 !! "office" = Some p /\ td_Password p = "hunter2" /\ td_Config p = "client" /\
     td_Type p = TunnelOpenVPN) \/
  (exists p, parse_def ex_drivers TunnelOpenVPN "client" = inr p /\ "hunter2" = pd_inlinePass p).
Proof.
  apply (saved_password_stays ex_drivers ex_m1 ex_spec 5 ex_saved (Some ex_def)).
  - vm_compute. reflexivity.
  - reflexivity.
  - discriminate.
Defined.
