(* ===== verification/Executor.v ===== *)
(** * The executor (internal/safety/executor.go)

    A plan runs through a provider as one unit: [Apply] takes back what it did
    when an operation fails, [RunOps] goes on regardless (it replays an inverse
    during recovery). The theorems are proved against [ProviderLaws]; the
    in-memory provider discharges it, and the witnesses run there. *)

From S2P Require Import Prelude.
From S2P Require Import Netip NetipText Domain Reconcile Provider FakeProvider.

Section Executor.
Context {S : Type} `{!RouteProvider S}.

(** From the last op applied to the first, errors ignored. *)
Definition rollback (applied : list PlanOp) (s : S) : S :=
  fold_left (fun s op => snd (do_op (inverseOp op) s)) (reverse applied) s.

Fixpoint apply_loop (ops applied : list PlanOp) (s : S) : option error * S :=
  match ops with
  | [] => (None, s)
  | op :: ops' =>
      match do_op op s with
      | (Some err, s') =>
          (Some (Wrapf "op %q failed (rolled back %d prior op(s)): %w"
                   [op_Human op; pretty (Z.of_nat (length applied))] err),
           rollback applied s')
      | (None, s') => apply_loop ops' (applied ++ [op]) s'
      end
  end.

Definition Apply (plan : Plan) (s : S) : option error * S := apply_loop (pl_Ops plan) [] s.

Definition RunOps (ops : list PlanOp) (s : S) : option error * S :=
  fold_left (fun '(firstErr, s) op =>
    let '(err, s') := do_op op s in
    (match firstErr with Some _ => firstErr | None => err end, s')) ops (None, s).

(** Where a list of operations leads when none fails. *)
Fixpoint run_all (ops : list PlanOp) (s : S) : option S :=
  match ops with
  | [] => Some s
  | op :: ops' =>
      match do_op op s with
      | (None, s') => run_all ops' s'
      | (Some _, _) => None
      end
  end.
End Executor.

Section ExecutorFacts.
Context {S : Type} `{!RouteProvider S} `{!ProviderLaws S}.

(** Every operation can be taken back in the state it meets. *)
Fixpoint all_undoable (ops : list PlanOp) (s : S) : Prop :=
  match ops with
  | [] => True
  | op :: ops' => undoable op s /\ (forall s', do_op op s = (None, s') -> all_undoable ops' s')
  end.

Lemma all_undoable_app ops1 ops2 s s' :
  all_undoable (ops1 ++ ops2) s -> run_all ops1 s = Some s' ->
  all_undoable ops1 s /\ all_undoable ops2 s'.
Proof.
  revert s. induction ops1 as [|op ops1 IH]; simpl; intros s H Hr; [by simplify_eq|].
  destruct H as [Hu Hn]. destruct (do_op op s) as [[e|] s1] eqn:E; [done|].
  destruct (IH s1 (Hn s1 eq_refl) Hr) as [H1 H2]. split; [|done]. split; [done|].
  intros s2 E2. by simplify_eq.
Qed.

Lemma run_all_app ops1 ops2 (s : S) :
  run_all (ops1 ++ ops2) s = match run_all ops1 s with Some s' => run_all ops2 s' | None => None end.
Proof.
  revert s. induction ops1 as [|op ops1 IH]; simpl; intros s; [done|].
  destruct (do_op op s) as [[e|] s1]; [done|apply IH].
Qed.

Lemma rollback_snoc applied op (s : S) :
  rollback (applied ++ [op]) s = rollback applied (snd (do_op (inverseOp op) s)).
Proof. unfold rollback. by rewrite reverse_snoc. Qed.

(** Undoing what ran, from a state like the one it led to, leads back. *)
Lemma rollback_restores ops (s s' t : S) :
  all_undoable ops s -> run_all ops s = Some s' -> same t s' -> same (rollback ops t) s.
Proof.
  revert s' t. induction ops as [|op ops IH] using rev_ind; simpl; intros s' t Hu Hr Ht.
  - by simplify_eq.
  - rewrite run_all_app in Hr. destruct (run_all ops s) as [s1|] eqn:E1; [|done].
    destruct (all_undoable_app ops [op] s s1 Hu E1) as [H1 [H2 _]]. simpl in Hr.
    destruct (do_op op s1) as [[e|] s2] eqn:E2; [done|]. simplify_eq.
    destruct (do_undo op s1 s' t H2 E2 Ht) as (t' & Et & Hs).
    rewrite rollback_snoc, Et. by apply (IH s1).
Qed.

Lemma apply_loop_spec ops applied (s0 s : S) err s' :
  run_all applied s0 = Some s -> all_undoable (applied ++ ops) s0 ->
  apply_loop ops applied s = (err, s') ->
  match err with
  | None => run_all (applied ++ ops) s0 = Some s'
  | Some _ => same s' s0 /\ run_all (applied ++ ops) s0 = None
  end.
Proof.
  revert applied s. induction ops as [|op ops IH]; simpl; intros applied s Hr Hu Ha.
  - simplify_eq. by rewrite app_nil_r.
  - destruct (do_op op s) as [[e|] s1] eqn:E; simplify_eq.
    + destruct (all_undoable_app applied (op :: ops) s0 s Hu Hr) as [H1 _].
      split; [eapply rollback_restores; [done|done|by eapply do_error]|].
      rewrite run_all_app, Hr. simpl. by rewrite E.
    + specialize (IH (applied ++ [op]) s1). rewrite <- !app_assoc in IH. apply IH; [|done|done].
      rewrite run_all_app, Hr. simpl. by rewrite E.
Qed.

Lemma RunOps_ok ops (s s' : S) : run_all ops s = Some s' -> RunOps ops s = (None, s').
Proof.
  unfold RunOps. revert s. induction ops as [|op ops IH]; simpl; intros s H; [by simplify_eq|].
  destruct (do_op op s) as [[e|] s1]; [done|]. by apply IH.
Qed.

(** [do_op] reads an operation's kind and what it carries. *)
Lemma do_op_ext op op' (s : S) :
  op_Kind op = op_Kind op' -> op_Route op = op_Route op' -> op_Rule op = op_Rule op' ->
  do_op op s = do_op op' s.
Proof. unfold do_op. by intros -> -> ->. Qed.
End ExecutorFacts.

(** ** The precomputed inverse *)

Lemma invert_app ops1 ops2 platform :
  invert (ops1 ++ ops2) platform =
  (inv2 ← invert ops2 platform; inv1 ← invert ops1 platform; Some (inv2 ++ inv1)).
Proof.
  induction ops1 as [|op ops1 IH]; simpl.
  - destruct (invert ops2 platform); simpl; by rewrite ?app_nil_r.
  - rewrite IH. destruct (invert ops2 platform) as [i2|]; simpl; [|done].
    destruct (invert ops1 platform) as [i1|]; simpl; [|done].
    destruct (invert_op op platform) as [o|]; simpl; [|done]. by rewrite app_assoc.
Qed.

Section Inverse.
Context {S : Type} `{!RouteProvider S} `{!ProviderLaws S}.

(** An operation of the plan's inverse does what the executor's inverse does. *)
Lemma invert_op_run op platform inv (s s' t : S) :
  invert_op op platform = Some inv -> do_op op s = (None, s') ->
  exists o, inv = [o] /\ do_op o t = do_op (inverseOp op) t.
Proof.
  unfold invert_op, do_op, inverseOp.
  destruct (op_Kind op), (op_Route op), (op_Rule op); simpl; intros; simplify_eq; eauto.
Qed.

Lemma inverse_restores ops platform inv (s s' t : S) :
  all_undoable ops s -> invert ops platform = Some inv -> run_all ops s = Some s' -> same t s' ->
  exists t', run_all inv t = Some t' /\ same t' s.
Proof.
  revert inv s' t. induction ops as [|op ops IH] using rev_ind; simpl; intros inv s' t Hu Hi Hr Ht.
  { simplify_eq. by exists t. }
  rewrite invert_app in Hi. simpl in Hi. destruct (invert_op op platform) as [o|] eqn:Eo; [|done].
  simpl in Hi. destruct (invert ops platform) as [inv1|] eqn:Ei; [|done]. simplify_eq.
  rewrite run_all_app in Hr. destruct (run_all ops s) as [s1|] eqn:E1; [|done].
  destruct (all_undoable_app ops [op] s s1 Hu E1) as [H1 [H2 _]]. simpl in Hr.
  destruct (do_op op s1) as [[e|] s2] eqn:E2; [done|]. simplify_eq.
  destruct (invert_op_run op platform o s1 s' t Eo E2) as (x & -> & Ex).
  destruct (do_undo op s1 s' t H2 E2 Ht) as (t' & Et & Hs).
  injection Hi as <-. cbn [app run_all]. rewrite Ex, Et.
  by eapply IH.
Qed.

Lemma rollback_runs_inverses applied (t : S) : rollback applied t = snd (RunOps (map inverseOp (reverse applied)) t).
Proof.
  unfold rollback, RunOps. generalize (reverse applied) as l. intros l. generalize (None : option error) as e. revert t.
  induction l as [|op l IH]; intros t e; simpl; [done|]. destruct (do_op (inverseOp op) t) as [e' t']. apply IH.
Qed.

Lemma apply_loop_fails ops applied (s s' : S) err :
  apply_loop ops applied s = (err, s') ->
  match err with
  | None => run_all ops s = Some s'
  | Some _ => exists before op after s1 s2 e, ops = before ++ op :: after /\ run_all before s = Some s1 /\ do_op op s1 = (Some e, s2) /\
      s' = rollback (applied ++ before) s2
  end.
Proof.
  revert applied s. induction ops as [|op ops IH]; simpl; intros applied s Ha; [by simplify_eq|].
  destruct (do_op op s) as [[e|] s1] eqn:E.
  - simplify_eq. exists [], op, ops, s, s1, e. by rewrite app_nil_r.
  - specialize (IH _ _ Ha). destruct err as [err|]; [|done]. destruct IH as (before & op' & after & t1 & t2 & e & -> & Hr & Ho & ->).
    exists (op :: before), op', after, t1, t2, e. simpl. rewrite E, <- app_assoc. done.
Qed.

(** C2: A plan is applied as a whole or taken back. [Apply] runs all its
    operations in order, or returns an error; then one of them failed, and the
    inverse of every operation before it was run, the last one's first, going
    on when one is refused; none of the operations after it was run. Where
    every operation of the plan can be taken back in the state it meets, that
    leaves a state no client can tell from the one it started in. *)
Theorem Executor_atomic plan (s s' : S) err :
  Apply plan s = (err, s') ->
  match err with
  | None => run_all (pl_Ops plan) s = Some s'
  | Some _ =>
      (exists before op after s1 s2 e, pl_Ops plan = before ++ op :: after /\ run_all before s = Some s1 /\
         do_op op s1 = (Some e, s2) /\ s' = snd (RunOps (map inverseOp (reverse before)) s2)) /\
      (all_undoable (pl_Ops plan) s -> same s' s)
  end.
Proof.
  intros Ha. pose proof (apply_loop_fails _ _ _ _ _ Ha) as H. destruct err as [err|]; [|done]. split.
  - destruct H as (before & op & after & s1 & s2 & e & H1 & H2 & H3 & H4). exists before, op, after, s1, s2, e.
    rewrite <- rollback_runs_inverses. done.
  - intros Hu. by apply (apply_loop_spec (pl_Ops plan) [] s s (Some err) s' eq_refl Hu Ha).
Qed.

(** The inverse computed with a plan undoes it: replayed by [RunOps] from
    any state like the one the plan left (a rollback by the watchdog, or after
    a deadline), every operation succeeds and the state the plan started in is
    restored. *)
Theorem RunOps_inverse ops platform inv (s s' t : S) :
  all_undoable ops s -> invert ops platform = Some inv ->
  Apply (mkPlan ops inv) s = (None, s') -> same t s' ->
  exists t', RunOps inv t = (None, t') /\ same t' s.
Proof.
  intros Hu Hi Ha Ht.
  pose proof (apply_loop_spec ops [] s s None s' eq_refl Hu Ha) as Hr. simpl in Hr.
  destruct (inverse_restores ops platform inv s s' t Hu Hi Hr Ht) as (t' & Et & Hs).
  exists t'. split; [by apply RunOps_ok|done].
Qed.
End Inverse.

(** ** Witnesses: the in-memory provider, one of whose adds is made to fail *)

Fixpoint fake_all_undoable (ops : list PlanOp) (f : Fake) : bool :=
  match ops with
  | [] => true
  | op :: ops' =>
      bool_decide (fake_undoable op f) &&
      match do_op op f with (None, f') => fake_all_undoable ops' f' | (Some _, _) => true end
  end.

Lemma fake_all_undoable_ok ops f : fake_all_undoable ops f = true -> all_undoable ops f.
Proof.
  revert f. induction ops as [|op ops IH]; simpl; intros f H; [done|].
  apply andb_prop in H as [Hu H]. bool_hyps. split; [done|]. intros f' E. rewrite E in H. auto.
Qed.

Definition ex_ops : list PlanOp :=
  [makeRouteOp OpAddRoute (ex_route "1.1.1.1/32" "192.168.1.1" "en0") "fake";
   makeRuleOp OpAddRule (ex_rule "to 10.0.0.0/8") "fake";
   makeRouteOp OpAddRoute (ex_route "2.2.2.2/32" "192.168.1.1" "en0") "fake"].
Definition ex_failing : Fake := FailAddRoute "2.2.2.2/32" true New.

Definition ex_error : error := default ErrNotImplemented (fst (Apply (mkPlan ex_ops []) ex_failing)).

Lemma Executor_atomic_witness :
  fst (Apply (mkPlan ex_ops []) ex_failing) = Some ex_error /\
  same (snd (Apply (mkPlan ex_ops []) ex_failing)) ex_failing.
Proof.
  split; [vm_compute; reflexivity|].
  refine (proj2 (Executor_atomic (mkPlan ex_ops []) ex_failing
                   (snd (Apply (mkPlan ex_ops []) ex_failing)) (Some ex_error) _) _).
  - vm_compute. reflexivity.
  - apply fake_all_undoable_ok. vm_compute. reflexivity.
Defined.

Definition ex_inverse : list PlanOp := default [] (invert ex_ops "fake").

Lemma RunOps_inverse_witness :
  exists t', RunOps ex_inverse (snd (Apply (mkPlan ex_ops ex_inverse) New)) = (None, t') /\ same t' New.
Proof.
  eapply (RunOps_inverse ex_ops "fake" ex_inverse New);
    [apply fake_all_undoable_ok| | |reflexivity]; vm_compute; reflexivity.
Defined.
