(* ===== verification/FakeKernel.v ===== *)
(** * The in-memory provider keeps the kernel's contract

    [Reconcile]'s theorems run a plan against an abstract kernel that holds one
    route per destination, known by keys. Here the in-memory provider
    (internal/provider/fake) is shown to simulate that kernel on operations
    that take effect, and so the whole chain -- reconcile, execute, provider --
    ends in the desired state. *)

From S2P Require Import Prelude.
From S2P Require Import Netip NetipText Domain Reconcile Provider FakeProvider Executor.

(** ** The kernel a state stands for *)

Definition all_routes (f : Fake) : list Route := f_routesV4 f ++ f_routesV6 f.

Definition kernel_of (f : Fake) : kernel :=
  mkKernel (list_to_map (map (fun r => (dstKey r, RouteKey r)) (all_routes f)))
           (list_to_set (map RuleKey (f_rules f))).

Definition family_ok (fam : Family) : bool := (fam =s? FamilyV4) || (fam =s? FamilyV6).

(** A rule whose key is its identity: no separator in a field, and no route-to
    gateway without an interface. *)
Definition rule_full (r : PolicyRule) : bool :=
  rule_wf r && (negb (pr_RouteToIface r =s? "") || (pr_RouteToGW r =s? "")).

(** A table holds its own family's routes, one per destination, and one copy
    of a rule; no failure is injected. *)
Record fake_ok (f : Fake) : Prop := mkFakeOk {
  fo_v4 : Forall (fun r => rt_Family r = FamilyV4) (f_routesV4 f);
  fo_v6 : Forall (fun r => rt_Family r = FamilyV6) (f_routesV6 f);
  fo_wf : Forall (fun r => route_wf r = true) (all_routes f);
  fo_dst : NoDup (map dstKey (all_routes f));
  fo_rule : Forall (fun r => rule_full r = true) (f_rules f);
  fo_rules : NoDup (map RuleKey (f_rules f));
  fo_add : f_failAdd f = ∅;
  fo_del : f_failDel f = ∅;
}.

(** The routes RiftRoute has among [K] are marked as its own. *)
Definition owns (K : gset string) (f : Fake) : Prop :=
  Forall (fun r => RouteKey r ∈ K -> RouteKey r ∈ f_managedKey f) (all_routes f).

(** A route a profile put there. *)
Definition policy_route (r : ManagedRoute) : bool :=
  route_wf (mr_Route r) && family_ok (rt_Family (mr_Route r)) && negb (mr_ProfileID r =s? "").

Lemma stamp_dstKey r : dstKey (stamp r) = dstKey (mr_Route r).
Proof. unfold stamp. repeat case_if; done. Qed.
Lemma stamp_RouteKey r : RouteKey (stamp r) = RouteKey (mr_Route r).
Proof. apply stamp_key. Qed.
Lemma stamp_wf r : route_wf (stamp r) = route_wf (mr_Route r).
Proof. unfold stamp. repeat case_if; done. Qed.

Lemma same_entry_keys rt r :
  same_entry rt r = true -> rt_Family r = rt_Family rt -> RouteKey r = RouteKey rt /\ dstKey r = dstKey rt.
Proof.
  unfold same_entry, RouteKey, dstKey. intros H ->. bool_hyps.
  repeat match goal with H : _ = _ |- _ => rewrite H; clear H end.
  match goal with H : Bool.eqb _ _ = true |- _ => apply eqb_prop in H; rewrite H end. done.
Qed.

Lemma same_entry_of_key rt r :
  route_wf rt = true -> route_wf r = true -> RouteKey r = RouteKey rt ->
  same_entry rt r = true /\ rt_Family r = rt_Family rt.
Proof.
  intros H1 H2 E. destruct (RouteKey_fields r rt H2 H1 E) as (-> & E2 & E3 & E4 & E5).
  apply route_wf_fields in H1 as (_ & _ & _ & _ & H1), H2 as (_ & _ & _ & _ & H2).
  destruct (key_tail_inj r rt H2 H1 E5) as [E6 E7]. unfold same_entry.
  rewrite E2, E3, E4, E6, E7, !String.eqb_refl. split; [by destruct (rt_Reject rt)|done].
Qed.

(** ** One table within the state *)

Lemma all_routes_table fam f x : x ∈ table_of fam f -> x ∈ all_routes f.
Proof. unfold table_of, all_routes. case_if; set_solver. Qed.

Lemma table_family fam f x : fake_ok f -> family_ok fam = true -> x ∈ table_of fam f -> rt_Family x = fam.
Proof.
  intros [H4 H6] Hf. unfold table_of. rewrite Forall_forall in H4, H6. unfold family_ok in Hf.
  destruct (String.eqb_spec fam FamilyV6) as [->|]; [by apply H6|].
  destruct (String.eqb_spec fam FamilyV4) as [->|]; [by apply H4|done].
Qed.

Lemma in_table f x : fake_ok f -> x ∈ all_routes f -> x ∈ table_of (rt_Family x) f.
Proof.
  intros [H4 H6]. rewrite Forall_forall in H4, H6. unfold all_routes, table_of.
  rewrite elem_of_app. intros [Hx|Hx]; [by rewrite (H4 x Hx)|by rewrite (H6 x Hx)].
Qed.

Lemma put_all_routes fam f x l m :
  table_of fam f ≡ₚ x :: l -> all_routes f ≡ₚ x :: all_routes (put fam l m f).
Proof.
  unfold all_routes, put, set_table_of, table_of. case_if; simpl; intros ->; [|done].
  symmetry. apply Permutation_middle.
Qed.

Lemma put_all_routes_add fam f x l m :
  l ≡ₚ x :: table_of fam f -> all_routes (put fam l m f) ≡ₚ x :: all_routes f.
Proof.
  unfold all_routes, put, set_table_of, table_of. case_if; simpl; intros ->; [|done].
  symmetry. apply Permutation_middle.
Qed.

Lemma kernel_of_routes f x k :
  fake_ok f -> k_routes (kernel_of f) !! x = Some k <-> exists r, r ∈ all_routes f /\ dstKey r = x /\ RouteKey r = k.
Proof.
  intros Hf. simpl. rewrite <- elem_of_list_to_map.
  - rewrite list_elem_of_fmap. split; [intros (r & [= -> ->] & Hr)|intros (r & Hr & <- & <-)]; eauto.
  - pose proof (fo_dst f Hf) as Hn. unfold fmap. change (list_fmap ?A ?B ?g) with (@map A B g). rewrite map_map. exact Hn.
Qed.

Lemma kernel_of_free f x :
  fake_ok f -> k_routes (kernel_of f) !! x = None <-> forall r, r ∈ all_routes f -> dstKey r <> x.
Proof.
  intros Hf. split.
  - intros Hx r Hr E. pose proof (proj2 (kernel_of_routes f x (RouteKey r) Hf)) as H.
    rewrite Hx in H. discriminate H. eauto.
  - intros H. destruct (k_routes (kernel_of f) !! x) as [k|] eqn:E; [|done].
    apply kernel_of_routes in E as (r & Hr & Ed & _); [|done]. by destruct (H r Hr).
Qed.

(** ** The routes of a state, one more or one less *)

Lemma kernel_of_cons f g x :
  fake_ok g -> all_routes g ≡ₚ x :: all_routes f -> f_rules g = f_rules f ->
  kernel_of g = mkKernel (<[dstKey x := RouteKey x]> (k_routes (kernel_of f))) (k_rules (kernel_of f)).
Proof.
  intros Hg Hp Hr. apply kernel_eq; simpl; [|by rewrite Hr].
  transitivity (list_to_map (map (fun r => (dstKey r, RouteKey r)) (x :: all_routes f)) : gmap string string);
    [|done]. apply list_to_map_proper; [|by rewrite Hp].
  pose proof (fo_dst g Hg) as Hn. unfold fmap. change (list_fmap ?A ?B ?h) with (@map A B h).
  rewrite map_map. exact Hn.
Qed.

Lemma fake_ok_app f g :
  Forall (fun r => rt_Family r = FamilyV4) (f_routesV4 g) ->
  Forall (fun r => rt_Family r = FamilyV6) (f_routesV6 g) ->
  Forall (fun r => route_wf r = true) (all_routes g) -> NoDup (map dstKey (all_routes g)) ->
  f_rules g = f_rules f -> f_failAdd g = f_failAdd f -> f_failDel g = f_failDel f -> fake_ok f -> fake_ok g.
Proof. intros H1 H2 H3 H4 H5 H6 H7 []. split; try done; by rewrite ?H5, ?H6, ?H7. Qed.

Lemma put_rules fam l m f : f_rules (put fam l m f) = f_rules f.
Proof. unfold put, set_table_of. by case_if. Qed.

Lemma put_families fam l m f :
  fake_ok f -> family_ok fam = true -> Forall (fun r => rt_Family r = fam) l ->
  Forall (fun r => rt_Family r = FamilyV4) (f_routesV4 (put fam l m f)) /\
  Forall (fun r => rt_Family r = FamilyV6) (f_routesV6 (put fam l m f)).
Proof.
  intros [H4 H6] Hf Hl. unfold put, set_table_of, family_ok in *.
  destruct (String.eqb_spec fam FamilyV6) as [->|]; simpl; [done|].
  destruct (String.eqb_spec fam FamilyV4) as [->|]; done.
Qed.

Lemma table_families fam f : fake_ok f -> family_ok fam = true -> Forall (fun r => rt_Family r = fam) (table_of fam f).
Proof. intros Hf Hfam. apply Forall_forall. intros x Hx. by eapply table_family. Qed.

Lemma put_ok_add fam f x m :
  fake_ok f -> family_ok fam = true -> rt_Family x = fam -> route_wf x = true ->
  (forall r, r ∈ all_routes f -> dstKey r <> dstKey x) ->
  fake_ok (put fam (table_of fam f ++ [x]) m f) /\
  all_routes (put fam (table_of fam f ++ [x]) m f) ≡ₚ x :: all_routes f.
Proof.
  intros Hf Hfam Hx Hw Hfree.
  assert (all_routes (put fam (table_of fam f ++ [x]) m f) ≡ₚ x :: all_routes f) as Hp.
  { apply put_all_routes_add. symmetry. apply Permutation_cons_append. }
  split; [|done]. destruct (put_fields fam (table_of fam f ++ [x]) m f) as (_ & _ & Ea & Ed).
  destruct (put_families fam (table_of fam f ++ [x]) m f Hf Hfam) as [H4 H6].
  { apply Forall_app. split; [by apply table_families|by repeat constructor]. }
  apply (fake_ok_app f); [done|done| | |apply put_rules|done|done|done].
  - rewrite Hp. constructor; [done|apply Hf].
  - rewrite Hp. constructor; [|apply Hf]. intros (r & E & Hr)%list_elem_of_fmap. by apply (Hfree r Hr).
Qed.

Lemma put_ok_del fam f x i m :
  fake_ok f -> family_ok fam = true -> table_of fam f ≡ₚ x :: delete i (table_of fam f) ->
  fake_ok (put fam (delete i (table_of fam f)) m f) /\
  all_routes f ≡ₚ x :: all_routes (put fam (delete i (table_of fam f)) m f).
Proof.
  intros Hf Hfam Ht. pose proof (put_all_routes fam f x (delete i (table_of fam f)) m Ht) as Hp.
  split; [|done]. destruct (put_fields fam (delete i (table_of fam f)) m f) as (_ & _ & Ea & Ed).
  destruct (put_families fam (delete i (table_of fam f)) m f Hf Hfam) as [H4 H6].
  { apply Forall_forall. intros r Hr. apply (table_family fam f r Hf Hfam). rewrite Ht. by right. }
  pose proof (fo_wf f Hf) as Hw. rewrite Hp in Hw.
  pose proof (fo_dst f Hf) as Hn. rewrite Hp in Hn.
  apply (fake_ok_app f); [done|done| | |apply put_rules|done|done|done].
  - by apply Forall_cons in Hw as [_ ?].
  - simpl in Hn. by apply NoDup_cons in Hn as [_ ?].
Qed.

(** ** The simulation: an operation that takes effect *)

Lemma policy_route_spec r : policy_route r = true ->
  route_wf (mr_Route r) = true /\ family_ok (rt_Family (mr_Route r)) = true /\ mr_ProfileID r <> "".
Proof. unfold policy_route. intros. bool_hyps. done. Qed.

Lemma add_route_sim K f r platform :
  fake_ok f -> owns K f -> policy_route r = true ->
  op_clean (kernel_of f) (makeRouteOp OpAddRoute r platform) ->
  exists f', fake_AddRoute r f = (None, f') /\ fake_ok f' /\ owns K f' /\
    kernel_of f' = kernel_op (kernel_of f) (makeRouteOp OpAddRoute r platform).
Proof.
  intros Hf Ho (Hw & Hfam & Hpid)%policy_route_spec Hc.
  change (k_routes (kernel_of f) !! dstKey (mr_Route r) = None) in Hc.
  pose proof (proj1 (kernel_of_free f _ Hf) Hc) as Hfree.
  rewrite add_put by (rewrite (fo_add f Hf); set_solver).
  assert (indexOf (mr_Route r) f = None) as ->.
  { apply find_index_none. intros x Hx. destruct (same_entry _ x) eqn:E; [|done].
    destruct (Hfree x); [by eapply all_routes_table|].
    eapply same_entry_keys; [done|]. by apply (table_family _ f). }
  rewrite (proj2 (String.eqb_neq _ _) Hpid).
  destruct (put_ok_add (rt_Family (mr_Route r)) f (stamp r) ({[routeKey (mr_Route r)]} ∪ f_managedKey f))
    as [Hok Hp]; [done|done|apply stamp_family|by rewrite stamp_wf|by rewrite stamp_dstKey|].
  eexists. split; [done|]. split; [done|]. split.
  - unfold owns. rewrite Hp. destruct (put_fields (rt_Family (mr_Route r))
      (table_of (rt_Family (mr_Route r)) f ++ [stamp r]) ({[routeKey (mr_Route r)]} ∪ f_managedKey f) f)
      as (_ & -> & _). constructor.
    + rewrite stamp_RouteKey. change (routeKey ?x) with (RouteKey x). set_solver.
    + eapply Forall_impl; [exact Ho|]. set_solver.
  - rewrite (kernel_of_cons f _ (stamp r) Hok Hp (put_rules _ _ _ _)), stamp_dstKey, stamp_RouteKey.
    unfold kernel_op, makeRouteOp. cbn [op_Kind op_Route op_Rule]. by rewrite Hc.
Qed.

Lemma del_route_sim K f r platform :
  fake_ok f -> owns K f -> policy_route r = true -> RouteKey (mr_Route r) ∈ K ->
  op_clean (kernel_of f) (makeRouteOp OpDelRoute r platform) ->
  exists f', fake_DelRoute r f = (None, f') /\ fake_ok f' /\ owns K f' /\
    kernel_of f' = kernel_op (kernel_of f) (makeRouteOp OpDelRoute r platform).
Proof.
  intros Hf Ho (Hw & Hfam & Hpid)%policy_route_spec HK Hc.
  change (k_routes (kernel_of f) !! dstKey (mr_Route r) = Some (RouteKey (mr_Route r))) in Hc.
  pose proof (proj1 (kernel_of_routes f _ _ Hf) Hc) as (x & Hx & Ex & Ekx).
  pose proof (fo_wf f Hf) as Hwf. rewrite Forall_forall in Hwf.
  destruct (same_entry_of_key (mr_Route r) x Hw (Hwf x Hx) Ekx) as [Hsx Efx].
  pose proof (in_table f x Hf Hx) as Htx. rewrite Efx in Htx.
  destruct (indexOf (mr_Route r) f) as [i|] eqn:Ei.
  2:{ unfold indexOf in Ei. rewrite find_index_none in Ei. by rewrite (Ei x Htx) in Hsx. }
  destruct (find_index_some _ _ _ Ei) as (y & Hy & Hsy & Hpy).
  assert (y = x) as ->.
  { apply list_elem_of_lookup_2 in Hy. apply (NoDup_map_inj dstKey (all_routes f)).
    - apply Hf.
    - by eapply all_routes_table.
    - done.
    - rewrite Ex. eapply same_entry_keys; [done|]. by apply (table_family _ f). }
  rewrite (del_put r f i); [|rewrite (fo_del f Hf); set_solver|done|].
  2:{ intros _. change (routeKey ?x) with (RouteKey x). unfold owns in Ho. rewrite Forall_forall in Ho.
      rewrite <- Ekx. apply Ho; [done|]. by rewrite Ekx. }
  destruct (put_ok_del (rt_Family (mr_Route r)) f x i (f_managedKey f ∖ {[routeKey (mr_Route r)]}))
    as [Hok Hp]; [done..|].
  eexists. split; [done|]. split; [done|].
  set (f' := put _ _ _ _) in *.
  pose proof (fo_dst f Hf) as Hn. rewrite Hp in Hn. simpl in Hn. apply NoDup_cons in Hn as [Hnx _].
  split.
  - unfold owns in *. rewrite Hp in Ho. apply Forall_cons in Ho as [_ Ho]. apply Forall_forall.
    intros z Hz HzK. rewrite Forall_forall in Ho.
    destruct (put_fields (rt_Family (mr_Route r)) (delete i (table_of (rt_Family (mr_Route r)) f))
      (f_managedKey f ∖ {[routeKey (mr_Route r)]}) f) as (_ & E & _). fold f' in E. rewrite E.
    apply elem_of_difference. split; [by apply Ho|]. rewrite elem_of_singleton.
    change (routeKey ?x) with (RouteKey x).
    intros Ez. apply Hnx, list_elem_of_fmap. exists z. split; [|done]. rewrite Ex. symmetry.
    apply RouteKey_dstKey; [|done|done]. apply Hwf. rewrite Hp. by right.
  - rewrite (kernel_of_cons f' f x Hf Hp) by (symmetry; apply put_rules).
    unfold kernel_op, makeRouteOp. cbn [op_Kind op_Route op_Rule]. rewrite Ex. apply kernel_eq; cbn [k_routes k_rules]; [|done].
    rewrite delete_insert_id; [done|]. apply (kernel_of_free f' _ Hok). intros z Hz Ez.
    apply Hnx, list_elem_of_fmap. exists z. split; [congruence|done].
Qed.

(** ** Rules *)

Lemma with_proto_key pr proto : RuleKey (with_proto pr proto) = RuleKey pr.
Proof. done. Qed.

Lemma same_rule_key a b : same_rule a b = true -> RuleKey b = RuleKey a.
Proof.
  unfold same_rule, RuleKey. intros H. bool_hyps.
  repeat match goal with H : _ = _ |- _ => rewrite H; clear H end. done.
Qed.

Lemma same_rule_of_key a b :
  rule_full a = true -> rule_full b = true -> RuleKey b = RuleKey a -> same_rule a b = true.
Proof.
  unfold rule_full. intros [Ha Ga]%andb_prop [Hb Gb]%andb_prop E.
  destruct (RuleKey_fields b a Hb Ha E) as (E1 & E2 & E3 & E4 & E5 & E6).
  unfold same_rule. rewrite E1, E2, E3, E4, E5, Z.eqb_refl, !String.eqb_refl. simpl.
  apply String.eqb_eq. rewrite E5 in *. destruct (String.eqb_spec (pr_RouteToIface a) "") as [Ei|Ei].
  - simpl in Ga, Gb. apply String.eqb_eq in Ga, Gb. congruence.
  - by apply E6.
Qed.

Lemma set_rules_ok f l :
  fake_ok f -> Forall (fun r => rule_full r = true) l -> NoDup (map RuleKey l) -> fake_ok (set_rules f l).
Proof. intros [] Hl Hn. by split. Qed.

Lemma add_rule_sim K f r platform :
  fake_ok f -> owns K f -> rule_full (ml_Rule r) = true ->
  op_clean (kernel_of f) (makeRuleOp OpAddRule r platform) ->
  exists f', fake_AddRule r f = (None, f') /\ fake_ok f' /\ owns K f' /\
    kernel_of f' = kernel_op (kernel_of f) (makeRuleOp OpAddRule r platform).
Proof.
  intros Hf Ho Hr Hc. change (RuleKey (ml_Rule r) ∉ k_rules (kernel_of f)) in Hc.
  simpl in Hc. rewrite elem_of_list_to_set in Hc.
  pose proof (slice_rules_perm (f_rules f) (with_proto (ml_Rule r) "riftroute")) as Hp.
  eexists. split; [done|]. split; [|split; [exact Ho|]].
  - apply set_rules_ok; [done| |]; rewrite Hp.
    + constructor; [done|apply Hf].
    + simpl. constructor; [done|apply Hf].
  - apply kernel_eq; [done|]. simpl. rewrite Hp. done.
Qed.

Lemma del_rule_sim K f r platform :
  fake_ok f -> owns K f -> rule_full (ml_Rule r) = true ->
  op_clean (kernel_of f) (makeRuleOp OpDelRule r platform) ->
  exists f', fake_DelRule r f = (None, f') /\ fake_ok f' /\ owns K f' /\
    kernel_of f' = kernel_op (kernel_of f) (makeRuleOp OpDelRule r platform).
Proof.
  intros Hf Ho Hr Hc. change (RuleKey (ml_Rule r) ∈ k_rules (kernel_of f)) in Hc.
  simpl in Hc. apply elem_of_list_to_set, list_elem_of_fmap in Hc as (x & Ex & Hx).
  pose proof (fo_rule f Hf) as Hw. rewrite Forall_forall in Hw.
  unfold fake_DelRule. destruct (find_index _ _) as [i|] eqn:Ei.
  2:{ rewrite find_index_none in Ei. pose proof (Ei x Hx) as Hn.
      rewrite (same_rule_of_key (ml_Rule r) x Hr (Hw x Hx)) in Hn; done. }
  destruct (find_index_some _ _ _ Ei) as (y & Hy & Hsy & Hp). apply same_rule_key in Hsy.
  pose proof (fo_rules f Hf) as Hn. rewrite Hp in Hn. simpl in Hn. apply NoDup_cons in Hn as [Hny Hn].
  pose proof (fo_rule f Hf) as Hall. rewrite Hp in Hall. apply Forall_cons in Hall as [_ Hall].
  eexists. split; [done|]. split; [by apply set_rules_ok|]. split; [exact Ho|].
  unfold kernel_of at 2, kernel_op, makeRuleOp. cbn [op_Kind op_Route op_Rule k_rules k_routes].
  apply kernel_eq; [done|]. cbn [k_rules kernel_of f_rules set_rules].
  apply set_eq. intros z. rewrite elem_of_difference, !elem_of_list_to_set, elem_of_singleton.
  assert (forall w, w ∈ map RuleKey (f_rules f) <-> w = RuleKey y \/ w ∈ map RuleKey (delete i (f_rules f))) as Hw'.
  { intros w. rewrite Hp at 1. simpl. apply elem_of_cons. }
  rewrite Hw', <- Hsy. split; [|tauto]. intros Hz. split; [tauto|]. by intros ->.
Qed.

(** ** A whole plan *)

Definition op_ok (K : gset string) (op : PlanOp) : Prop :=
  match op_Kind op, op_Route op, op_Rule op with
  | OpAddRoute, Some r, _ => policy_route r = true
  | OpDelRoute, Some r, _ => policy_route r = true /\ RouteKey (mr_Route r) ∈ K
  | OpAddRule, None, Some r | OpDelRule, None, Some r => rule_full (ml_Rule r) = true
  | _, _, _ => False
  end.

Lemma op_sim K f op :
  fake_ok f -> owns K f -> op_ok K op -> op_clean (kernel_of f) op ->
  exists f', do_op op f = (None, f') /\ fake_ok f' /\ owns K f' /\ kernel_of f' = kernel_op (kernel_of f) op.
Proof.
  destruct op as [kind rt rl cmd hum]. unfold op_ok, do_op. simpl. intros Hf Ho Hop Hc.
  destruct kind, rt as [r|], rl as [l|]; try done.
  - by apply (add_route_sim K f r "").
  - by apply (add_route_sim K f r "").
  - destruct Hop. by apply (del_route_sim K f r "").
  - destruct Hop. by apply (del_route_sim K f r "").
  - by apply (add_rule_sim K f l "").
  - by apply (del_rule_sim K f l "").
Qed.

Lemma plan_sim K ops : forall f,
  fake_ok f -> owns K f -> Forall (op_ok K) ops -> run_clean (kernel_of f) ops ->
  exists f', run_all ops f = Some f' /\ fake_ok f' /\ owns K f' /\ kernel_of f' = run_ops (kernel_of f) ops.
Proof.
  induction ops as [|op ops IH]; intros f Hf Ho Hops Hc; simpl; [by exists f|].
  apply Forall_cons in Hops as [Hop Hops]. destruct Hc as [Hc1 Hc2].
  destruct (op_sim K f op Hf Ho Hop Hc1) as (f1 & -> & Hf1 & Ho1 & E1). rewrite <- E1 in Hc2 |- *.
  by apply IH.
Qed.

Lemma Apply_ok {S} `{!RouteProvider S} ops inv (s s' : S) :
  run_all ops s = Some s' -> Apply (mkPlan ops inv) s = (None, s').
Proof.
  unfold Apply. simpl. generalize (@nil PlanOp). revert s.
  induction ops as [|op ops IH]; simpl; intros s l H; [by simplify_eq|].
  destruct (do_op op s) as [[e|] s1]; [done|]. by apply IH.
Qed.

Lemma reconcile_ops_ok D A DR AR platform :
  route_set D -> route_set A -> Forall (fun r => policy_route r = true) (D ++ A) ->
  Forall (fun r => rule_full (ml_Rule r) = true) (DR ++ AR) ->
  Forall (op_ok (list_to_set (rkeys A ++ rkeys D))) (reconcile_ops D A DR AR platform).
Proof.
  intros HD HA Hp Hr. rewrite reconcile_ops_eq by done.
  rewrite Forall_forall in Hp. rewrite Forall_forall in Hr. apply Forall_forall. intros op.
  assert (forall a, a ∈ A -> op_ok (list_to_set (rkeys A ++ rkeys D)) (makeRouteOp OpDelRoute a platform)) as Hdel.
  { intros a Ha. split; [apply Hp; set_solver|]. apply elem_of_list_to_set, elem_of_app. left.
    apply elem_of_rkeys. eauto. }
  rewrite !elem_of_app, list_elem_of_bind, !list_elem_of_fmap.
  intros [(d & Hop & Hd)|[(r & -> & Hk)|[(r & -> & Hk)|(a & -> & Hk)]]].
  - unfold adds_for in Hop. destruct (negb _); [|by apply elem_of_nil in Hop].
    apply elem_of_app in Hop as [(a & -> & Ha)%list_elem_of_fmap|Hop%list_elem_of_singleton].
    + apply elem_of_olds in Ha as (Ha & _). by apply Hdel.
    + subst op. apply Hp. set_solver.
  - apply elem_of_keep_if in Hk as [Hk _]. apply Hr. set_solver.
  - apply elem_of_keep_if in Hk as [Hk _]. apply Hr. set_solver.
  - apply elem_of_keep_if in Hk as [Hk _]. by apply Hdel.
Qed.

(** A wanted route that is there already is an owned one. *)
Lemma owns_desired D A DR AR f :
  fake_ok f -> route_set D -> owns (list_to_set (rkeys A)) f ->
  installed (kernel_of f) A AR -> room (kernel_of f) D A DR AR ->
  owns (list_to_set (rkeys A ++ rkeys D)) f.
Proof.
  intros Hf [_ HD] Ho [Hin _] [Hroom _]. unfold owns in *.
  rewrite Forall_forall in Ho. rewrite Forall_forall in HD, Hin, Hroom. pose proof (fo_wf f Hf) as Hw. rewrite Forall_forall in Hw.
  apply Forall_forall. intros r Hr. rewrite elem_of_list_to_set, elem_of_app.
  intros [Hk|(d & Hd & Ed)%elem_of_rkeys]; [apply Ho; [done|]; by apply elem_of_list_to_set|].
  assert (dstKey (mr_Route d) = dstKey r) as Edst by (apply RouteKey_dstKey; auto).
  destruct (Hroom d Hd) as [(a & Ha & Ea)%elem_of_dsts|Hfree].
  - apply Ho; [done|]. specialize (Hin a Ha). rewrite Ea, Edst in Hin.
    assert (k_routes (kernel_of f) !! dstKey r = Some (RouteKey r)) as E
      by (apply kernel_of_routes; eauto).
    rewrite Hin in E. injection E as <-. apply elem_of_list_to_set, elem_of_rkeys. eauto.
  - rewrite kernel_of_free in Hfree by done. by destruct (Hfree r Hr).
Qed.

(** C1: Planning and execution together reach the desired state on the in-memory
    provider: from a state that holds what RiftRoute owns, [Reconcile]'s plan
    is executed without an error, and the provider then holds exactly the
    desired routes and rules in place of the owned ones (marked as
    RiftRoute's), everyone else's as they were, in a state from which the next
    plan can run. *)
Theorem Reconcile_executes D A DR AR platform f :
  route_set D -> route_set A -> NoDup (ruleKeys DR) -> NoDup (ruleKeys AR) ->
  Forall (fun r => policy_route r = true) (D ++ A) ->
  Forall (fun r => rule_full (ml_Rule r) = true) (DR ++ AR) ->
  fake_ok f -> owns (list_to_set (rkeys A)) f ->
  installed (kernel_of f) A AR -> room (kernel_of f) D A DR AR ->
  exists plan f', Reconcile D A DR AR platform = Some plan /\ Apply plan f = (None, f') /\
    fake_ok f' /\ owns (list_to_set (rkeys A ++ rkeys D)) f' /\
    kernel_of f' = mkKernel (routes_of D ∪ (k_routes (kernel_of f) ∖ routes_of A))
                            (rules_of DR ∪ (k_rules (kernel_of f) ∖ rules_of AR)).
Proof.
  intros HD HA HDR HAR Hp Hr Hf Ho Hin Hroom.
  destruct (reconcile_run D A DR AR platform (kernel_of f)) as [Hc Hrun]; [done..|].
  destruct (run_invert _ _ platform Hc) as (inv & Ei & _).
  destruct (plan_sim (list_to_set (rkeys A ++ rkeys D)) (reconcile_ops D A DR AR platform) f)
    as (f' & Ef & Hok & Ho' & Ek); [done|by eapply owns_desired|by apply reconcile_ops_ok|done|].
  exists (mkPlan (reconcile_ops D A DR AR platform) inv), f'. unfold Reconcile. rewrite Ei, <- Hrun.
  split; [done|]. split; [by apply Apply_ok|done].
Qed.

(** ** Witness: the seeded provider after an earlier apply *)

Definition ex_before : Fake :=
  snd (Apply (mkPlan (map (fun r => makeRouteOp OpAddRoute r "fake") ex_actual ++
                      [makeRuleOp OpAddRule (ex_rule "to 10.0.0.0/8") "fake"]) []) New).

Lemma ex_before_ok : fake_ok ex_before.
Proof.
  split; first [apply (bool_decide_unpack _); vm_compute; exact I | reflexivity].
Qed.

Lemma Reconcile_executes_witness :
  exists plan f', Reconcile ex_desired ex_actual [ex_rule "to 1.0.0.0/8"] [ex_rule "to 10.0.0.0/8"] "fake"
                  = Some plan /\ Apply plan ex_before = (None, f') /\ fake_ok f'.
Proof.
  destruct (Reconcile_executes ex_desired ex_actual [ex_rule "to 1.0.0.0/8"] [ex_rule "to 10.0.0.0/8"]
              "fake" ex_before) as (plan & f' & H1 & H2 & H3 & _).
  - apply (bool_decide_unpack (route_set _)); vm_compute; exact I.
  - apply (bool_decide_unpack (route_set _)); vm_compute; exact I.
  - apply (bool_decide_unpack (NoDup _)); vm_compute; exact I.
  - apply (bool_decide_unpack (NoDup _)); vm_compute; exact I.
  - apply (bool_decide_unpack (Forall _ _)); vm_compute; exact I.
  - apply (bool_decide_unpack (Forall _ _)); vm_compute; exact I.
  - exact ex_before_ok.
  - unfold owns. apply (bool_decide_unpack (Forall _ _)); vm_compute; exact I.
  - apply (bool_decide_unpack (installed _ _ _)); vm_compute; exact I.
  - apply (bool_decide_unpack (room _ _ _ _ _)); vm_compute; exact I.
  - eauto.
Defined.
