(* ===== verification/Guardrails.v ===== *)
(** * The guardrails (internal/safety/guardrails.go)

    What an apply checks before it changes anything: [CheckGuardrails] returns
    the violations that must block it. The provider is asked where a next hop
    goes; the environment's SSH_CONNECTION is an argument. *)

From S2P Require Import Prelude.
From S2P Require Import Netip NetipText Domain Reconcile Provider FakeProvider.

(** A violation's text keeps its format and what it was given. *)
Record Violation : Type := mkViolation { v_Rule : string; v_Detail : string; v_Args : list string }.

#[export] Instance Violation_eq_dec : EqDecision Violation.
Proof. solve_decision. Defined.

Definition sshPeer (env : string) : addr :=
  match Fields env with
  | [] => AddrZero
  | f :: _ => default AddrZero (ParseAddr f)
  end.

(** ** What a plan changes *)

Definition changed_routes (ops : list PlanOp) : list ManagedRoute :=
  omap op_Route ops.

Definition added_keys (ops : list PlanOp) : gset string :=
  list_to_set (omap (fun op =>
    match op_Route op with
    | Some r => if bool_decide (op_Kind op = OpAddRoute) then Some (RouteKey (mr_Route r)) else None
    | None => None
    end) ops).

Definition vetted (plan : option Plan) (d : ManagedRoute) : bool :=
  match plan with
  | None => true
  | Some p => bool_decide (RouteKey (mr_Route d) ∈ added_keys (pl_Ops p))
  end.

Definition changes (plan : option Plan) (all : list ManagedRoute) : list ManagedRoute :=
  match plan with None => all | Some p => changed_routes (pl_Ops p) end.

Definition main_table (d : ManagedRoute) : bool := rt_Table (mr_Route d) =s? "".

(** ** The rules *)

Definition gateway_unresolved (chg : list ManagedRoute) (physGW : addr) : list Violation :=
  if negb (IsValid physGW) && existsb main_table chg then
    [mkViolation "gateway-unresolved"
       "cannot verify routing safety: the physical gateway is currently unreadable; refusing to change main-table routes" []]
  else [].

(** A main-table route whose destination holds [a]. *)
Definition captures (d : ManagedRoute) (a : addr) : bool :=
  main_table d &&
  match ParsePrefix (rt_DstCIDR (mr_Route d)) with None => false | Some pfx => Contains pfx a end.

Definition gateway_capture (desired : list ManagedRoute) (physGW : addr) : list Violation :=
  if IsValid physGW then
    map (fun d => mkViolation "gateway-capture" "route %s would capture the physical gateway %s"
                    [rt_DstCIDR (mr_Route d); addr_String physGW])
        (keep_if (fun d => captures d physGW) desired)
  else [].

Section NextHops.
Context {S : Type} `{!RouteProvider S}.

Definition next_hop (gateway : string) (s : S) : list Violation :=
  match ParseAddr gateway with
  | None => [mkViolation "bad-gateway" "invalid gateway %q" [gateway]]
  | Some gw =>
      match LookupRoute gw s with
      | inl _ => []
      | inr dec =>
          if negb (rd_Reachable dec)
          then [mkViolation "unreachable-next-hop" "gateway %s is not reachable" [gateway]]
          else if rd_ViaVPN dec
          then [mkViolation "next-hop-via-vpn" "gateway %s is not on-link (currently routed via the VPN)" [gateway]]
          else []
      end
  end.

Fixpoint next_hops (desired : list ManagedRoute) (checked : gset string) (s : S) : list Violation :=
  match desired with
  | [] => []
  | d :: desired' =>
      let gw := rt_Gateway (mr_Route d) in
      if negb (main_table d) then next_hops desired' checked s
      else if (gw =s? "") || bool_decide (gw ∈ checked) then next_hops desired' checked s
      else next_hop gw s ++ next_hops desired' ({[gw]} ∪ checked) s
  end.
End NextHops.

(** The first next hop of a destination, and whether a vetted route goes there. *)
Record hop : Type := mkHop { h_nh : string; h_vetted : bool }.

Definition nh_of (d : ManagedRoute) : string :=
  if rt_Reject (mr_Route d) then "reject" else rt_Gateway (mr_Route d) +:+ "|" +:+ rt_Iface (mr_Route d).

Definition conflict_step (vet : ManagedRoute -> bool) (acc : gmap string hop * list Violation) (d : ManagedRoute)
    : gmap string hop * list Violation :=
  let '(nextHop, vs) := acc in
  let k := rt_Family (mr_Route d) +:+ "|" +:+ rt_Table (mr_Route d) +:+ "|" +:+ rt_DstCIDR (mr_Route d) in
  let nh := nh_of d in
  match nextHop !! k with
  | None => (<[k := mkHop nh (vet d)]> nextHop, vs)
  | Some prev =>
      if negb (h_nh prev =s? nh) && (h_vetted prev || vet d) then
        (nextHop, vs ++ [mkViolation "conflicting-route" "destination %s has conflicting next-hops (%s vs %s)"
                           [rt_DstCIDR (mr_Route d); h_nh prev; nh]])
      else (<[k := mkHop (h_nh prev) (h_vetted prev || vet d)]> nextHop, vs)
  end.

Definition conflicts (vet : ManagedRoute -> bool) (all : list ManagedRoute) : list Violation :=
  snd (fold_left (conflict_step vet) all (∅, [])).

Definition ssh_capture (desired : list ManagedRoute) (peer : addr) : list Violation :=
  if IsValid peer then
    map (fun _ => mkViolation "ssh-peer" "change would alter the route to your active SSH peer %s" [addr_String peer])
        (keep_if (fun d => captures d peer) desired)
  else [].

Definition checkGuardrails {S} `{!RouteProvider S} (all : list ManagedRoute) (plan : option Plan) (physGW : addr)
    (ssh : string) (s : S) : list Violation :=
  let desired := keep_if (vetted plan) all in
  gateway_unresolved (changes plan all) physGW ++
  gateway_capture desired physGW ++
  next_hops desired ∅ s ++
  conflicts (vetted plan) all ++
  ssh_capture desired (sshPeer ssh).

Definition CheckGuardrails {S} `{!RouteProvider S} (desired : list ManagedRoute) (physGW : addr) (ssh : string)
    (s : S) : list Violation := checkGuardrails desired None physGW ssh s.

(** ** What no violation means *)

(** A reject route names no next hop. *)
Definition reject_plain (d : ManagedRoute) : bool :=
  negb (rt_Reject (mr_Route d)) || ((rt_Gateway (mr_Route d) =s? "") && (rt_Iface (mr_Route d) =s? "")).

Lemma dstKey_nh d : reject_plain d = true ->
  RouteKey (mr_Route d) = dstKey (mr_Route d) +:+ "|" +:+ (if rt_Reject (mr_Route d) then "||reject" else nh_of d).
Proof.
  unfold reject_plain, nh_of, RouteKey, dstKey. intros H. destruct (rt_Reject (mr_Route d)); simpl in H.
  - bool_hyps. repeat match goal with H : _ = "" |- _ => rewrite H; clear H end.
    rewrite !append_assoc. done.
  - rewrite !append_assoc. done.
Qed.

Lemma nh_reject d : nh_of d = "reject" <-> rt_Reject (mr_Route d) = true.
Proof.
  unfold nh_of. destruct (rt_Reject (mr_Route d)); [done|]. split; [|done]. intros E. exfalso.
  assert (no_bar (rt_Gateway (mr_Route d) +:+ "|" +:+ rt_Iface (mr_Route d)) = true) as Hb by (by rewrite E).
  rewrite !no_bar_app in Hb. simpl in Hb. by rewrite andb_false_r in Hb.
Qed.

(** Two routes of one destination with one next hop have one key. *)
Lemma same_hop_key d1 d2 :
  reject_plain d1 = true -> reject_plain d2 = true ->
  dstKey (mr_Route d1) = dstKey (mr_Route d2) -> nh_of d1 = nh_of d2 ->
  RouteKey (mr_Route d1) = RouteKey (mr_Route d2).
Proof.
  intros H1 H2 Ed En. rewrite !dstKey_nh, Ed by done. do 2 f_equal.
  destruct (rt_Reject (mr_Route d1)) eqn:E1.
  - apply nh_reject in E1. rewrite En in E1. apply nh_reject in E1. by rewrite E1.
  - destruct (rt_Reject (mr_Route d2)) eqn:E2; [|done].
    apply nh_reject in E2. rewrite <- En in E2. apply nh_reject in E2. congruence.
Qed.

Definition conflicting_pair (vet : ManagedRoute -> bool) (d1 d2 : ManagedRoute) : Prop :=
  dstKey (mr_Route d1) = dstKey (mr_Route d2) /\ nh_of d1 <> nh_of d2 /\ (vet d1 = true \/ vet d2 = true).

(** ** The conflict scan *)

Section conflicts.
Context (vet : ManagedRoute -> bool).
Context (vet_key : forall d1 d2, RouteKey (mr_Route d1) = RouteKey (mr_Route d2) -> vet d1 = vet d2).

Abbreviation no_pair l := (forall d1 d2, d1 ∈ l -> d2 ∈ l -> ~ conflicting_pair vet d1 d2).

Record scan_inv (l : list ManagedRoute) (m : gmap string hop) (vs : list Violation) : Prop := mkScan {
  sc_none k : m !! k = None -> forall d, d ∈ l -> dstKey (mr_Route d) <> k;
  sc_first k h : m !! k = Some h -> exists d, d ∈ l /\ dstKey (mr_Route d) = k /\ nh_of d = h_nh h;
  sc_vetted k h : m !! k = Some h -> h_vetted h = true ->
    exists d, d ∈ l /\ dstKey (mr_Route d) = k /\ vet d = true;
  sc_all k h d : vs = [] -> m !! k = Some h -> d ∈ l -> dstKey (mr_Route d) = k -> vet d = true ->
    h_vetted h = true;
  sc_pair : vs = [] <-> no_pair l;
}.

(** A route that meets another next hop, one of the two vetted, makes a pair. *)
Lemma scan_conflict l m vs d prev :
  scan_inv l m vs -> m !! dstKey (mr_Route d) = Some prev -> h_nh prev <> nh_of d ->
  h_vetted prev = true \/ vet d = true -> ~ no_pair (l ++ [d]).
Proof.
  intros I Em Hn Hv Hno.
  destruct (sc_first _ _ _ I _ _ Em) as (d0 & H0 & E0 & N0).
  destruct (decide (vet d = true)) as [Hd|Hd].
  - apply (Hno d0 d); [set_solver..|]. split_and!; [done|congruence|by right].
  - destruct Hv as [Hv|]; [|done]. destruct (sc_vetted _ _ _ I _ _ Em Hv) as (dv & H1 & E1 & V1).
    destruct (decide (nh_of dv = nh_of d)) as [En|En].
    + apply (Hno dv d0); [set_solver..|]. split_and!; [congruence|congruence|by left].
    + apply (Hno dv d); [set_solver..|]. split_and!; [done|done|by left].
Qed.

Lemma scan_clear l m vs d prev :
  Forall (fun d => reject_plain d = true) (l ++ [d]) ->
  scan_inv l m vs -> vs = [] -> m !! dstKey (mr_Route d) = Some prev ->
  h_nh prev = nh_of d \/ (h_vetted prev = false /\ vet d = false) ->
  forall d', d' ∈ l -> ~ conflicting_pair vet d' d /\ ~ conflicting_pair vet d d'.
Proof.
  intros Hp I Hvs Em Hor d' Hd'. rewrite Forall_forall in Hp.
  assert (dstKey (mr_Route d') = dstKey (mr_Route d) -> nh_of d' <> nh_of d ->
          vet d' = true \/ vet d = true -> False) as H.
  { intros Ed En Hv. destruct Hor as [Eh|[V1 V2]].
    - destruct (sc_first _ _ _ I _ _ Em) as (d0 & H0 & E0 & N0).
      assert (vet d0 = vet d) as Ev.
      { apply vet_key, same_hop_key; [apply Hp; set_solver..|done|congruence]. }
      apply (proj1 (sc_pair _ _ _ I) Hvs d' d0); [done..|]. split_and!; [congruence|congruence|].
      rewrite Ev. tauto.
    - destruct Hv as [Hv|]; [|congruence]. rewrite (sc_all _ _ _ I _ _ d' Hvs Em Hd' Ed Hv) in V1. done. }
  split; intros (Ed & En & Hv).
  - by apply H.
  - apply H; [congruence|congruence|tauto].
Qed.

(** What a scan keeps when a destination's entry is set. *)
Lemma scan_put l m vs d nh b :
  scan_inv l m vs ->
  (exists e, e ∈ l ++ [d] /\ dstKey (mr_Route e) = dstKey (mr_Route d) /\ nh_of e = nh) ->
  (b = true -> exists e, e ∈ l ++ [d] /\ dstKey (mr_Route e) = dstKey (mr_Route d) /\ vet e = true) ->
  (vs = [] -> forall e, e ∈ l ++ [d] -> dstKey (mr_Route e) = dstKey (mr_Route d) -> vet e = true -> b = true) ->
  (vs = [] -> forall e, e ∈ l -> ~ conflicting_pair vet e d /\ ~ conflicting_pair vet d e) ->
  scan_inv (l ++ [d]) (<[dstKey (mr_Route d) := mkHop nh b]> m) vs.
Proof.
  intros I Hf Hv Ha Hc. split.
  - intros k. rewrite lookup_insert_None. intros [Hk Hkd] e. rewrite elem_of_app, list_elem_of_singleton.
    intros [He| ->]; [by eapply sc_none|congruence].
  - intros k h. rewrite lookup_insert_Some. intros [[<- <-]|[Hkd Hk]]; [done|].
    destruct (sc_first _ _ _ I _ _ Hk) as (e & He & ?). exists e. set_solver.
  - intros k h. rewrite lookup_insert_Some. intros [[<- <-]|[Hkd Hk]] Hh; [by apply Hv|].
    destruct (sc_vetted _ _ _ I _ _ Hk Hh) as (e & He & ?). exists e. set_solver.
  - intros k h e Hvs. rewrite lookup_insert_Some. intros [[<- <-]|[Hkd Hk]] He Ee Hve; [by eapply Ha|].
    apply elem_of_app in He as [He| ->%list_elem_of_singleton]; [by eapply (sc_all _ _ _ I)|done].
  - split.
    + intros Hvs d1 d2. rewrite !elem_of_app, !list_elem_of_singleton.
      intros [H1| ->] [H2| ->]; [by apply (sc_pair _ _ _ I)|by apply Hc|by apply Hc|by intros (_ & Hn & _)].
    + intros Hno. apply (sc_pair _ _ _ I). intros d1 d2 H1 H2. apply Hno; set_solver.
Qed.

(** What it keeps when a violation is noted and the entry left alone. *)
Lemma scan_violation l m vs d prev v :
  scan_inv l m vs -> m !! dstKey (mr_Route d) = Some prev -> ~ no_pair (l ++ [d]) ->
  scan_inv (l ++ [d]) m (vs ++ [v]).
Proof.
  intros I Em Hno. split.
  - intros k Hk e. rewrite elem_of_app, list_elem_of_singleton.
    intros [He| ->]; [by eapply sc_none|congruence].
  - intros k h Hk. destruct (sc_first _ _ _ I _ _ Hk) as (e & He & ?). exists e. set_solver.
  - intros k h Hk Hh. destruct (sc_vetted _ _ _ I _ _ Hk Hh) as (e & He & ?). exists e. set_solver.
  - intros k h e Hvs. by destruct vs.
  - split; [by destruct vs|done].
Qed.

Lemma scan_step l m vs d :
  Forall (fun d => reject_plain d = true) (l ++ [d]) -> scan_inv l m vs ->
  scan_inv (l ++ [d]) (fst (conflict_step vet (m, vs) d)) (snd (conflict_step vet (m, vs) d)).
Proof.
  intros Hp I. unfold conflict_step. fold (dstKey (mr_Route d)).
  destruct (m !! dstKey (mr_Route d)) as [prev|] eqn:Em;
    [destruct (negb (h_nh prev =s? nh_of d) && (h_vetted prev || vet d)) eqn:Ec|]; simpl.
  - apply andb_prop in Ec as [Hn Hv]. apply negb_true_iff, String.eqb_neq in Hn. apply orb_prop in Hv.
    eapply scan_violation; [done|exact Em|]. by eapply scan_conflict.
  - assert (h_nh prev = nh_of d \/ (h_vetted prev = false /\ vet d = false)) as Hor.
    { apply andb_false_iff in Ec as [Ec|Ec]; bool_hyps; [by left|by right]. }
    apply scan_put; [done| | | |].
    + destruct (sc_first _ _ _ I _ _ Em) as (e & He & ?). exists e. set_solver.
    + intros [Hb|Hb]%orb_prop; [|exists d; set_solver].
      destruct (sc_vetted _ _ _ I _ _ Em Hb) as (e & He & ?). exists e. set_solver.
    + intros Hvs e [He| ->%list_elem_of_singleton]%elem_of_app Ee Hv.
      * apply orb_true_iff. left. by eapply (sc_all _ _ _ I).
      * rewrite Hv. apply orb_true_r.
    + intros Hvs. by eapply scan_clear.
  - pose proof (sc_none _ _ _ I _ Em) as Hfree. apply scan_put; [done|exists d; set_solver..| |].
    + intros Hvs e [He| ->%list_elem_of_singleton]%elem_of_app Ee Hv; [by destruct (Hfree e He)|done].
    + intros Hvs e He. split; intros (E & _); by destruct (Hfree e He).
Qed.

Lemma conflicts_spec all :
  Forall (fun d => reject_plain d = true) all ->
  conflicts vet all = [] <-> no_pair all.
Proof.
  intros Hp. unfold conflicts. destruct (fold_left (conflict_step vet) all (∅, [])) as [m vs] eqn:E.
  assert (scan_inv all m vs) as I.
  { revert m vs E. induction all as [|d l IH] using rev_ind; simpl; intros m vs E.
    - injection E as <- <-. split; try done.
      + intros k Hk d Hd. by apply elem_of_nil in Hd.
      + split; [|done]. intros _ d1 d2 H1. by apply elem_of_nil in H1.
    - rewrite fold_left_app in E. destruct (fold_left (conflict_step vet) l (∅, [])) as [m0 vs0].
      pose proof Hp as Hp'. apply Forall_app in Hp' as [Hl _].
      pose proof (scan_step l m0 vs0 d Hp (IH Hl m0 vs0 eq_refl)) as I.
      change (fold_left (conflict_step vet) [d] (m0, vs0)) with (conflict_step vet (m0, vs0) d) in E.
      by rewrite E in I. }
  apply I.
Qed.
End conflicts.

(** ** The other rules *)

Section next_hops.
Context {S : Type} `{!RouteProvider S}.

(** A next hop the provider can be asked about is reachable, and not through
    the VPN. *)
Definition hop_ok (gateway : string) (s : S) : Prop :=
  exists gw, ParseAddr gateway = Some gw /\
    forall dec, LookupRoute gw s = inr dec -> rd_Reachable dec = true /\ rd_ViaVPN dec = false.

Lemma next_hop_spec gateway (s : S) : next_hop gateway s = [] <-> hop_ok gateway s.
Proof.
  unfold next_hop, hop_ok. destruct (ParseAddr gateway) as [gw|]; [|split; [done|by intros (gw & ? & _)]].
  destruct (LookupRoute gw s) as [e|dec] eqn:E.
  - split; [|done]. intros _. exists gw. split; [done|]. intros dec Hd. congruence.
  - assert (forall v : Violation, [v] = [] <-> rd_Reachable dec = true /\ rd_ViaVPN dec = false ->
            [v] = [] <-> exists g, Some gw = Some g /\
              forall d, LookupRoute g s = inr d -> rd_Reachable d = true /\ rd_ViaVPN d = false) as Hv.
    { intros v Hv. split; [done|]. intros (g & [= <-] & H). by apply Hv, H. }
    destruct (rd_Reachable dec) eqn:Er; simpl; [destruct (rd_ViaVPN dec) eqn:Ev|].
    + apply Hv. naive_solver.
    + split; [|done]. intros _. exists gw. split; [done|]. intros d Hd. rewrite E in Hd. by simplify_eq.
    + apply Hv. naive_solver.
Qed.

Lemma next_hops_spec l : forall checked (s : S),
  next_hops l checked s = [] <->
  forall d, d ∈ l -> main_table d = true -> rt_Gateway (mr_Route d) <> "" ->
    rt_Gateway (mr_Route d) ∉ checked -> hop_ok (rt_Gateway (mr_Route d)) s.
Proof.
  induction l as [|d l IH]; intros checked s; simpl.
  { split; [|done]. intros _ d Hd. by apply elem_of_nil in Hd. }
  destruct (main_table d) eqn:Em; simpl.
  2:{ rewrite IH. split; [|intros H e He; apply H; by right].
      intros H e [->|He]%elem_of_cons; [congruence|by apply H]. }
  destruct ((rt_Gateway (mr_Route d) =s? "") || _) eqn:Ec.
  - rewrite IH. split; [|intros H e He; apply H; by right].
    intros H e [->|He]%elem_of_cons; [|by apply H]. intros _ Hg Hck.
    apply orb_prop in Ec as [Ec|Ec]; by bool_hyps.
  - apply orb_false_elim in Ec as [Eg Ek]. bool_hyps. rewrite app_nil, next_hop_spec, IH. split.
    + intros [H1 H2] e [->|He]%elem_of_cons Hm Hg Hck; [done|].
      destruct (decide (rt_Gateway (mr_Route e) = rt_Gateway (mr_Route d))) as [->|Hne]; [done|].
      apply H2; [done..|set_solver].
    + intros H. split; [apply H; [by left|done..]|]. intros e He Hm Hg Hck. apply H; [by right|done..|set_solver].
Qed.
End next_hops.

Lemma map_nil {A B} (f : A -> B) l : map f l = [] <-> l = [].
Proof. by destruct l. Qed.

Lemma keep_if_nil {A} (f : A -> bool) l : keep_if f l = [] <-> forall x, x ∈ l -> f x = false.
Proof.
  split; [|apply keep_if_none]. intros H x Hx. destruct (f x) eqn:E; [|done].
  assert (x ∈ keep_if f l) as Hin by (by apply elem_of_keep_if). rewrite H in Hin. by apply elem_of_nil in Hin.
Qed.

(** ** What passing the guardrails means *)

(** The routes a change is about: all of them, or those its plan adds; and
    the routes it touches, those it removes too. *)
Definition adds (plan : option Plan) (d : ManagedRoute) : Prop :=
  match plan with
  | None => True
  | Some p => exists op r, op ∈ pl_Ops p /\ op_Kind op = OpAddRoute /\ op_Route op = Some r /\
                RouteKey (mr_Route r) = RouteKey (mr_Route d)
  end.

Definition touches (plan : option Plan) (all : list ManagedRoute) (d : ManagedRoute) : Prop :=
  match plan with
  | None => d ∈ all
  | Some p => exists op, op ∈ pl_Ops p /\ op_Route op = Some d
  end.

(** A main-table route leaves the way to [a] alone. *)
Definition spares (d : ManagedRoute) (a : addr) : Prop :=
  rt_Table (mr_Route d) = "" -> forall pfx, ParsePrefix (rt_DstCIDR (mr_Route d)) = Some pfx -> Contains pfx a = false.

(** A change the guardrails have nothing against, in a state [s]. *)
Record safe_change {S} `{!RouteProvider S} (all : list ManagedRoute) (plan : option Plan) (physGW : addr)
    (ssh : string) (s : S) : Prop := mkSafe {
  sf_known : IsValid physGW = true \/ forall d, touches plan all d -> rt_Table (mr_Route d) <> "";
  sf_router : IsValid physGW = true -> forall d, d ∈ all -> adds plan d -> spares d physGW;
  sf_hops : forall d, d ∈ all -> adds plan d -> rt_Table (mr_Route d) = "" -> rt_Gateway (mr_Route d) <> "" ->
    hop_ok (rt_Gateway (mr_Route d)) s;
  sf_conflict : forall d1 d2, d1 ∈ all -> d2 ∈ all -> adds plan d1 \/ adds plan d2 ->
    dstKey (mr_Route d1) = dstKey (mr_Route d2) -> nh_of d1 = nh_of d2;
  sf_ssh : IsValid (sshPeer ssh) = true -> forall d, d ∈ all -> adds plan d -> spares d (sshPeer ssh);
}.

Lemma vetted_adds plan d : vetted plan d = true <-> adds plan d.
Proof.
  unfold vetted, adds, added_keys. destruct plan as [p|]; [|done].
  rewrite bool_decide_eq_true, elem_of_list_to_set, list_elem_of_omap. split.
  - intros (op & Hop & E). destruct (op_Route op) as [r|] eqn:Er; [|done].
    destruct (bool_decide _) eqn:Ek; [|done]. apply bool_decide_eq_true in Ek. injection E as E. by exists op, r.
  - intros (op & r & Hop & Ek & Er & E). exists op. split; [done|].
    rewrite Er, bool_decide_true by done. by rewrite E.
Qed.

Lemma changes_touches plan all d : d ∈ changes plan all <-> touches plan all d.
Proof. unfold changes, touches, changed_routes. destruct plan; [|done]. apply list_elem_of_omap. Qed.

Lemma captures_spares d a : captures d a = false <-> spares d a.
Proof.
  unfold captures, spares, main_table. destruct (String.eqb_spec (rt_Table (mr_Route d)) ""); simpl; [|naive_solver].
  destruct (ParsePrefix _); naive_solver.
Qed.

Lemma captures_spec plan all a :
  keep_if (fun d => captures d a) (keep_if (vetted plan) all) = [] <->
  forall d, d ∈ all -> adds plan d -> spares d a.
Proof.
  rewrite keep_if_nil. setoid_rewrite elem_of_keep_if. setoid_rewrite captures_spares.
  setoid_rewrite vetted_adds. naive_solver.
Qed.

Lemma conflicts_adds plan all :
  Forall (fun d => reject_plain d = true) all ->
  conflicts (vetted plan) all = [] <->
  forall d1 d2, d1 ∈ all -> d2 ∈ all -> adds plan d1 \/ adds plan d2 ->
    dstKey (mr_Route d1) = dstKey (mr_Route d2) -> nh_of d1 = nh_of d2.
Proof.
  intros Hp. rewrite conflicts_spec; [| |done].
  - unfold conflicting_pair. setoid_rewrite vetted_adds. split.
    + intros H d1 d2 H1 H2 Ha Ed. destruct (decide (nh_of d1 = nh_of d2)); [done|]. by destruct (H d1 d2 H1 H2).
    + intros H d1 d2 H1 H2 (Ed & En & Ha). by apply En, H.
  - intros d1 d2 E. unfold vetted. destruct plan; [by rewrite E|done].
Qed.

Lemma gateway_unresolved_spec plan all physGW :
  gateway_unresolved (changes plan all) physGW = [] <->
  IsValid physGW = true \/ forall d, touches plan all d -> rt_Table (mr_Route d) <> "".
Proof.
  setoid_rewrite <- changes_touches. unfold gateway_unresolved.
  destruct (IsValid physGW); simpl; [by split; [left|]|].
  destruct (existsb main_table _) eqn:E; (split; [try done|]).
  - intros [?|H]; [done|]. apply existsb_in in E as (d & Hd & Ht%String.eqb_eq). by destruct (H d Hd).
  - intros _. right. intros d Hd. apply String.eqb_neq. by apply (proj1 (existsb_not_in main_table _) E).
  - done.
Qed.

(** C16: The guardrails find no violation exactly when the change is safe: the
    physical gateway is known (or no main-table route changes), no vetted
    main-table route holds it or the peer of an SSH session, every vetted next
    hop is an address that is reachable and not through the VPN (as far as the
    provider can tell), and no destination goes two ways with a vetted route
    among them. *)
Theorem guardrails_exact {S} `{!RouteProvider S} all plan physGW ssh (s : S) :
  Forall (fun d => reject_plain d = true) all ->
  checkGuardrails all plan physGW ssh s = [] <-> safe_change all plan physGW ssh s.
Proof.
  intros Hp. unfold checkGuardrails.
  assert (forall b (f : ManagedRoute -> Violation) l, (if b : bool then map f l else []) = [] <-> (b = true -> l = [])) as Hm.
  { intros [] f l; rewrite ?map_nil; naive_solver. }
  unfold gateway_capture, ssh_capture.
  rewrite !app_nil, gateway_unresolved_spec, !Hm, !captures_spec, next_hops_spec, conflicts_adds by done.
  split.
  - intros (H1 & H2 & H3 & H4 & H5). split; try done.
    intros d Hd Hv Ht Hg. apply H3; [|by apply String.eqb_eq|done|set_solver].
    apply elem_of_keep_if. by rewrite vetted_adds.
  - intros [H1 H2 H3 H4 H5]. split_and!; try done.
    intros d [Hd Hv%vetted_adds]%elem_of_keep_if Ht%String.eqb_eq Hg _. by apply H3.
Qed.

(** ** Witness: a bypass the seeded network allows, and one holding its router *)

Lemma guardrails_exact_witness :
  safe_change [ex_route "1.1.1.1/32" "192.168.1.1" "en0"] None (Addr4 3232235777) "10.0.0.7 50022 10.0.0.1 22" New /\
  ~ safe_change [ex_route "192.168.0.0/16" "192.168.1.1" "en0"] None (Addr4 3232235777) "" New.
Proof.
  split.
  - apply guardrails_exact; [repeat constructor|vm_compute; reflexivity].
  - intros H. apply guardrails_exact in H; [|repeat constructor]. vm_compute in H. discriminate H.
Defined.
