(* ===== verification/Watchdog.v ===== *)
(** * The connectivity watchdog (internal/safety/watchdog.go)

    [Run] sees a sequence of events: its timer ticks, when it probes the
    anchors, or its context is done. A tick carries what a probe of each anchor
    would find at that moment. *)

From S2P Require Import Prelude.
From S2P Require Import Netip NetipText.

Definition CanaryAnchor : string := "1.1.1.1".

Definition DefaultAnchors (physGW : addr) : list string :=
  (if IsValid physGW then [addr_String physGW] else []) ++ [CanaryAnchor].

Record Watchdog : Type := mkWatchdog { w_anchors : list string; w_k : Z }.

Definition NewWatchdog (anchors : list string) (k : Z) : Watchdog :=
  mkWatchdog anchors (if k <? 1 then 1 else k).

Inductive wd_event : Type :=
| Done
| Tick (probe : string -> bool).

(** Probing stops at the first anchor that answers. *)
Fixpoint none_answers (anchors : list string) (probe : string -> bool) : bool :=
  match anchors with
  | [] => true
  | a :: anchors' => if probe a then false else none_answers anchors' probe
  end.

Definition allUnreachable (w : Watchdog) (probe : string -> bool) : bool :=
  if bool_decide (w_anchors w = []) then false else none_answers (w_anchors w) probe.

(** How a run ends; [Running n] after the events seen so far, with [n]
    failures in a row. *)
Inductive wd_outcome : Type := Fired | Canceled | Running (consecutive : Z).

Fixpoint run_loop (w : Watchdog) (consecutive : Z) (evs : list wd_event) : wd_outcome :=
  match evs with
  | [] => Running consecutive
  | Done :: _ => Canceled
  | Tick probe :: evs' =>
      let consecutive := if allUnreachable w probe then consecutive + 1 else 0 in
      if w_k w <=? consecutive then Fired else run_loop w consecutive evs'
  end.

Definition Run (w : Watchdog) (evs : list wd_event) : wd_outcome := run_loop w 0 evs.

(** ** When it fires *)

Definition is_tick (e : wd_event) : bool := match e with Tick _ => true | Done => false end.
Definition lost (w : Watchdog) (e : wd_event) : bool :=
  match e with Tick probe => allUnreachable w probe | Done => false end.

(** [k] ticks in a row at which no anchor answers, before the run is canceled. *)
Definition loses (w : Watchdog) (evs : list wd_event) : Prop :=
  exists pre gone post, evs = pre ++ gone ++ post /\ Forall (fun e => is_tick e = true) (pre ++ gone) /\
    Forall (fun e => lost w e = true) gone /\ Z.of_nat (length gone) = w_k w.

Lemma run_loop_streak w gone post : forall c,
  Forall (fun e => lost w e = true) gone -> gone <> [] -> w_k w <= c + Z.of_nat (length gone) ->
  run_loop w c (gone ++ post) = Fired.
Proof.
  induction gone as [|e gone IH]; [done|]. intros c Hl _ Hk. apply Forall_cons in Hl as [He Hl].
  destruct e as [|probe]; [done|]. simpl in He |- *. rewrite He.
  destruct (w_k w <=? c + 1) eqn:E; [done|]. bool_hyps. simpl in Hk.
  destruct gone as [|e' gone]; [simpl in Hk; lia|]. apply IH; [done|done|lia].
Qed.

Lemma run_loop_fires w evs : 1 <= w_k w -> forall c, 0 <= c -> loses w evs -> run_loop w c evs = Fired.
Proof.
  intros Hk c Hc (pre & gone & post & -> & Ht & Hl & Hlen). revert c Hc.
  assert (gone <> []) as Hne by (intros ->; simpl in Hlen; lia).
  induction pre as [|e pre IH]; intros c Hc.
  - apply (run_loop_streak w gone post); [done|done|lia].
  - simpl in Ht. apply Forall_cons in Ht as [He Ht]. destruct e as [|probe]; [done|]. simpl.
    destruct (w_k w <=? _) eqn:E; [done|]. apply IH; [done|]. destruct (allUnreachable w probe); lia.
Qed.

(** What was seen before [evs]: ticks only, the last [c] of them lost. *)
Lemma run_loop_lost w evs : forall c before streak,
  Forall (fun e => is_tick e = true) (before ++ streak) -> Forall (fun e => lost w e = true) streak ->
  Z.of_nat (length streak) = c -> c < w_k w -> run_loop w c evs = Fired -> loses w (before ++ streak ++ evs).
Proof.
  induction evs as [|e evs IH]; intros c before streak Ht Hl Hc Hk Hf; [done|].
  destruct e as [|probe]; [done|]. simpl in Hf. destruct (allUnreachable w probe) eqn:Ea.
  - assert (Forall (fun e => lost w e = true) (streak ++ [Tick probe])) as Hl'
      by (apply Forall_app; split; [done|by repeat constructor]).
    assert (Forall (fun e => is_tick e = true) (before ++ streak ++ [Tick probe])) as Ht'
      by (rewrite app_assoc; apply Forall_app; split; [done|by repeat constructor]).
    assert (Z.of_nat (length (streak ++ [Tick probe])) = c + 1) as Hc' by (rewrite length_app; simpl; lia).
    destruct (w_k w <=? c + 1) eqn:E; bool_hyps.
    + exists before, (streak ++ [Tick probe]), evs. split_and!; [by rewrite <- !app_assoc|done|done|lia].
    + specialize (IH (c + 1) before (streak ++ [Tick probe])). rewrite <- app_assoc in IH. by apply IH.
  - destruct (w_k w <=? 0) eqn:E; bool_hyps; [lia|].
    specialize (IH 0 (before ++ streak ++ [Tick probe]) []). rewrite app_nil_r in IH. simpl in IH.
    rewrite <- !app_assoc in IH. apply IH; [|done|done|done|done].
    rewrite app_assoc. apply Forall_app. split; [done|by repeat constructor].
Qed.

Lemma none_answers_spec anchors probe : none_answers anchors probe = true <-> forall a, a ∈ anchors -> probe a = false.
Proof.
  induction anchors as [|b l IH]; simpl; [split; [intros _ a Ha; by apply elem_of_nil in Ha|done]|].
  destruct (probe b) eqn:E.
  - split; [done|]. intros H. rewrite (H b) in E by by left. done.
  - rewrite IH. split; [intros H a [->|Ha]%elem_of_cons; auto|]. intros H a Ha. apply H. by right.
Qed.

Lemma allUnreachable_spec w probe :
  allUnreachable w probe = true <-> w_anchors w <> [] /\ forall a, a ∈ w_anchors w -> probe a = false.
Proof.
  unfold allUnreachable. destruct (bool_decide _) eqn:E; bool_hyps.
  - split; [done|]. by intros [].
  - rewrite none_answers_spec. tauto.
Qed.

(** C23: The watchdog fires exactly when, before it is canceled, every anchor
    fails to answer at [k] probes in a row (one if asked for less) -- a single
    anchor answering at one probe starts the count again -- and with no anchor
    to watch it never does. *)
Theorem Watchdog_fires anchors k evs :
  Run (NewWatchdog anchors k) evs = Fired <->
  anchors <> [] /\ exists pre gone post, evs = pre ++ gone ++ post /\
    Forall (fun e => is_tick e = true) pre /\
    Forall (fun e => exists probe, e = Tick probe /\ forall a, a ∈ anchors -> probe a = false) gone /\
    Z.of_nat (length gone) = Z.max 1 k.
Proof.
  set (w := NewWatchdog anchors k).
  assert (w_k w = Z.max 1 k) as Hk by (unfold w, NewWatchdog; simpl; case_if; bool_hyps; lia).
  assert (forall e, lost w e = true <-> anchors <> [] /\ exists probe, e = Tick probe /\ forall a, a ∈ anchors -> probe a = false)
    as Hlost.
  { intros [|probe]; simpl.
    - split; [done|]. by intros (_ & probe & ? & _).
    - rewrite allUnreachable_spec. split; [intros []; eauto|]. by intros (? & p & [= <-] & ?). }
  transitivity (loses w evs).
  { split; [|apply run_loop_fires; lia]. intros Hf. unfold Run in Hf.
    apply (run_loop_lost w evs 0 [] []) in Hf; [done|constructor|constructor|done|lia]. }
  unfold loses. rewrite Hk. split.
  - intros (pre & gone & post & -> & Ht & Hl & Hlen). apply Forall_app in Ht as [Ht _].
    assert (anchors <> []) as Ha.
    { destruct gone as [|e gone]; [simpl in Hlen; lia|]. apply Forall_cons in Hl as [He _]. by apply Hlost in He as []. }
    split; [done|]. exists pre, gone, post. split_and!; try done.
    eapply Forall_impl; [exact Hl|]. intros e He. by apply Hlost in He as [].
  - intros (Ha & pre & gone & post & -> & Ht & Hl & Hlen). exists pre, gone, post. split_and!; try done.
    + apply Forall_app. split; [done|]. eapply Forall_impl; [exact Hl|]. by intros e (p & -> & _).
    + eapply Forall_impl; [exact Hl|]. intros e He. by apply Hlost.
Qed.

Example watchdog_one_anchor_answers :
  Run (NewWatchdog ["10.0.0.1"; "1.1.1.1"] 3)
    [Tick (fun _ => false); Tick (fun _ => false); Tick (fun a => a =s? "1.1.1.1"); Tick (fun _ => false)] = Running 1.
Proof. reflexivity. Qed.
