(* ===== verification/LiveRepair.v ===== *)
(** * Live repair (internal/safety/live.go)

    A route another program keeps removing is put back a few times and then
    held: [note] counts the sightings of a missing route, [held] are the keys
    not put back for now, [installed] is the "actual" side of a reconcile.
    Times are nanoseconds; the zero [time.Time] is 0. *)

From S2P Require Import Prelude.
From S2P Require Import Netip NetipText Domain Reconcile Input Tunnels Installed Provider.

Definition Second : Z := 1000000000.
Definition Minute : Z := 60 * Second.

Definition liveStrikes : nat := 3.
Definition liveWindow : Z := 10 * Minute.
Definition liveHold : Z := 30 * Minute.
Definition liveGap : Z := 20 * Second.

Record liveRecord : Type := mkLive { lr_route : Route; lr_seen : list Z; lr_heldUntil : Z }.

(** By RouteKey. *)
Abbreviation liveRepair := (gmap string liveRecord).

Definition is_held (now : Z) (r : liveRecord) : bool := now <? lr_heldUntil r.

Definition held (l : liveRepair) (now : Z) : gset string := dom (filter (fun kv => is_held now kv.2 = true) l).

(** Found missing before, but no longer. *)
Definition forgotten (now : Z) (r : liveRecord) : bool :=
  (lr_heldUntil r <? now) &&
  match last (lr_seen r) with None => true | Some t => liveWindow <? now - t end.

Definition too_soon (now : Z) (r : liveRecord) : bool :=
  match last (lr_seen r) with None => false | Some t => now - t <? liveGap end.

(** One sighting; whether it starts a hold. *)
Definition sight (now : Z) (r : liveRecord) : liveRecord * bool :=
  if too_soon now r then (r, false)
  else
    let seen := keep_if (fun t => now - t <=? liveWindow) (lr_seen r) ++ [now] in
    if Nat.leb liveStrikes (length seen) then (mkLive (lr_route r) [] (now + liveHold), true)
    else (mkLive (lr_route r) seen (lr_heldUntil r), false).

Definition note_one (now : Z) (acc : liveRepair * list Route) (m : ManagedRoute) : liveRepair * list Route :=
  let k := RouteKey (mr_Route m) in
  let r := default (mkLive (mr_Route m) [] 0) (fst acc !! k) in
  let '(r', hold) := sight now r in
  (<[k := r']> (fst acc), if hold then snd acc ++ [lr_route r'] else snd acc).

Definition forget (now : Z) (l : liveRepair) : liveRepair := filter (fun kv => forgotten now kv.2 = false) l.

Definition note (missing : list ManagedRoute) (now : Z) (l : liveRepair) : liveRepair * list Route :=
  fold_left (note_one now) missing (forget now l, []).

Record HeldRoute : Type := mkHeld { hr_Route : Route; hr_Until : Z }.

Definition held_list (l : liveRepair) (now : Z) : list HeldRoute :=
  slice_stable (fun a b => str_less (RouteKey (hr_Route a)) (RouteKey (hr_Route b)))
    (map (fun kv => mkHeld (lr_route kv.2) (lr_heldUntil kv.2))
       (map_to_list (filter (fun kv => is_held now kv.2 = true) l))).

(** ** The actual side of a reconcile *)

Section installed.
Context {S : Type} `{!RouteProvider S}.

Definition table_reader (s : S) (fam : Family) : option (list Route) :=
  match ListRoutes fam s with inr rs => Some rs | inl _ => None end.

(** What is kept, and the repairs noted. *)
Definition installed_routes (owned desired : list ManagedRoute) (do_note tunnelsOnly : bool) (now : Z) (live : liveRepair)
    (s : S) : list ManagedRoute * liveRepair :=
  let only := if tunnelsOnly then Some IsTunnelRoute else None in
  let v := VerifyRoutes owned desired (table_reader s) (held live now) only in
  (vf_Kept v,
   if do_note && negb (bool_decide (vf_Missing v = [])) then
     fst (note (keep_if (fun m => negb (IsTunnelRoute m)) (vf_Missing v)) now live)
   else live).
End installed.

(** ** Records *)

(** A record's sightings are in order and not in the future, and no hold is
    longer than [liveHold]. *)
Definition seen_ok (now : Z) (r : liveRecord) : Prop :=
  StronglySorted Z.le (lr_seen r) /\ Forall (fun t => t <= now) (lr_seen r) /\ lr_heldUntil r <= now + liveHold.

Definition live_ok (now : Z) (l : liveRepair) : Prop := forall k r, l !! k = Some r -> seen_ok now r.

Lemma seen_ok_later now now' r : now <= now' -> seen_ok now r -> seen_ok now' r.
Proof.
  intros Hle (H1 & H2 & H3). split; [done|]. split; [|lia]. eapply Forall_impl; [exact H2|]. simpl. lia.
Qed.

Lemma sorted_last_max (l : list Z) :
  StronglySorted Z.le l -> forall x, x ∈ l -> exists t, last l = Some t /\ x <= t.
Proof.
  induction 1 as [|y l Hl IH Hy]; intros x Hx; [by apply elem_of_nil in Hx|].
  destruct l as [|z l].
  - apply list_elem_of_singleton in Hx as ->. exists y. done.
  - rewrite Forall_forall in Hy. apply elem_of_cons in Hx as [->|Hx].
    + destruct (IH z ltac:(by left)) as (t & Ht & Hzt). exists t. split; [done|].
      assert (y <= z) by (apply Hy; by left). lia.
    + destruct (IH x Hx) as (t & Ht & Hzt). by exists t.
Qed.

Lemma StronglySorted_keep (f : Z -> bool) l : StronglySorted Z.le l -> StronglySorted Z.le (keep_if f l).
Proof.
  induction 1 as [|y l Hl IH Hy]; simpl; [constructor|]. destruct (f y); [|done]. constructor; [done|].
  rewrite Forall_forall in Hy. apply Forall_forall. intros x [Hx _]%elem_of_keep_if. by apply Hy.
Qed.

Lemma sight_ok now r : seen_ok now r -> seen_ok now (fst (sight now r)).
Proof.
  intros (Hs & Hb & Hh). unfold sight. destruct (too_soon now r); [done|].
  case_if; [split; [constructor|]; split; [constructor|]; simpl; lia|].
  split; simpl; [|split; [|done]].
  - apply StronglySorted_app_2; [|by apply StronglySorted_keep|by repeat constructor].
    intros x y [Hx _]%elem_of_keep_if ->%list_elem_of_singleton. rewrite Forall_forall in Hb. by apply Hb.
  - apply Forall_app. split; [|by repeat constructor]. apply Forall_forall. intros x [Hx _]%elem_of_keep_if.
    rewrite Forall_forall in Hb. by apply Hb.
Qed.

(** [note] touches each key by the sightings of it, one after another. *)
Fixpoint sights (n : nat) (now : Z) (r : liveRecord) : liveRecord :=
  match n with O => r | Datatypes.S n => sights n now (fst (sight now r)) end.

Definition count_key (k : string) (missing : list ManagedRoute) : nat :=
  length (keep_if (fun m => RouteKey (mr_Route m) =s? k) missing).

#[local] Arguments sight : simpl never.

Lemma note_lookup missing now k : forall acc,
  fst (fold_left (note_one now) missing acc) !! k =
  match fst acc !! k with
  | Some r => Some (sights (count_key k missing) now r)
  | None =>
      match head (keep_if (fun m => RouteKey (mr_Route m) =s? k) missing) with
      | None => None
      | Some m => Some (sights (count_key k missing) now (mkLive (mr_Route m) [] 0))
      end
  end.
Proof.
  induction missing as [|m l IH]; intros [rs out]; simpl; [by destruct (rs !! k)|].
  rewrite IH. unfold note_one. simpl. destruct (sight now (default _ _)) as [r' h] eqn:E. simpl.
  unfold count_key. simpl. destruct (String.eqb_spec (RouteKey (mr_Route m)) k) as [Ek|Hne]; [subst k|].
  - rewrite lookup_insert_eq.
    match goal with |- context [match ?x with _ => _ end] => destruct x as [r|] eqn:Er end;
      cbn [length head sights]; change (default ?a None) with a in E; change (default ?a (Some ?b)) with b in E;
      by rewrite E.
  - by rewrite lookup_insert_ne.
Qed.

Lemma note_lookup_some missing now l k r :
  forget now l !! k = Some r -> fst (note missing now l) !! k = Some (sights (count_key k missing) now r).
Proof. intros H. unfold note. rewrite note_lookup. simpl. by rewrite H. Qed.

(** ** A fight comes to an end

    [progress t0 n r]: since shortly before [t0] there are at least [n]
    sightings, or the route is held well past [t0]. *)
Definition recent (t0 : Z) (l : list Z) : list Z := keep_if (fun t => t0 - liveGap <? t) l.

Definition progress (t0 : Z) (n : nat) (r : liveRecord) : Prop :=
  t0 + liveHold <= lr_heldUntil r \/ (n <= length (recent t0 (lr_seen r)))%nat.

Abbreviation soon t0 now := (t0 <= now /\ now <= t0 + liveWindow - liveGap).

Lemma recent_app t0 l1 l2 : recent t0 (l1 ++ l2) = recent t0 l1 ++ recent t0 l2.
Proof. apply List.filter_app. Qed.

Lemma recent_kept t0 now l :
  soon t0 now -> recent t0 (keep_if (fun t => now - t <=? liveWindow) l) = recent t0 l.
Proof.
  intros Hs. unfold recent. induction l as [|t l IH]; simpl; [done|].
  destruct (now - t <=? liveWindow) eqn:E; simpl; rewrite IH; [done|].
  destruct (t0 - liveGap <? t) eqn:E2; [|done]. bool_hyps. lia.
Qed.

Lemma gap_pos : 0 < liveGap /\ liveWindow < liveHold /\ liveGap < liveWindow.
Proof. done. Qed.

(** A sighting never undoes progress, and one that counts makes some. *)
Lemma sight_progress t0 now n r :
  soon t0 now -> progress t0 n r -> progress t0 n (fst (sight now r)).
Proof.
  intros Hs Hp. pose proof gap_pos. unfold sight. destruct (too_soon now r); [done|].
  case_if; unfold progress in *; simpl; [left; lia|].
  destruct Hp as [Hp|Hp]; [by left|]. right. rewrite recent_app, recent_kept, length_app by done. lia.
Qed.

Lemma sight_counts t0 now n r :
  soon t0 now -> too_soon now r = false -> progress t0 n r ->
  progress t0 (Datatypes.S n) (fst (sight now r)).
Proof.
  intros Hs Ht Hp. pose proof gap_pos. unfold sight. rewrite Ht.
  case_if; unfold progress in *; simpl; [left; lia|].
  destruct Hp as [Hp|Hp]; [by left|]. right. rewrite recent_app, recent_kept, length_app by done.
  assert (recent t0 [now] = [now]) as ->; [|simpl; lia].
  unfold recent, keep_if. simpl. rewrite (proj2 (Z.ltb_lt _ _)); [done|lia].
Qed.

(** Once there are enough sightings, the next one holds it. *)
Lemma sight_holds t0 now r :
  soon t0 now -> too_soon now r = false -> progress t0 2 r ->
  t0 + liveHold <= lr_heldUntil (fst (sight now r)).
Proof.
  intros Hs Ht Hp. pose proof gap_pos. unfold sight. rewrite Ht.
  destruct (Nat.leb liveStrikes _) eqn:E; simpl; [lia|].
  destruct Hp as [Hp|Hp]; [done|]. exfalso. apply Nat.leb_gt in E. unfold liveStrikes in E.
  rewrite length_app in E. simpl in E. rewrite <- (recent_kept t0 now) in Hp by done.
  pose proof (sublist_length _ _ (keep_if_sublist (fun t => t0 - liveGap <? t)
    (keep_if (fun t => now - t <=? liveWindow) (lr_seen r)))) as Hl. unfold recent in Hp. lia.
Qed.

Lemma sights_progress t0 now n r : soon t0 now -> forall i, progress t0 n r -> progress t0 n (sights i now r).
Proof. intros Hs i. revert r. induction i as [|i IH]; intros r Hp; simpl; [done|]. by apply IH, sight_progress. Qed.

Lemma sights_ok now i : forall r, seen_ok now r -> seen_ok now (sights i now r).
Proof. induction i as [|i IH]; intros r Hr; simpl; [done|]. by apply IH, sight_ok. Qed.

Lemma sights_held t now i : forall r, t <= now + liveHold -> t <= lr_heldUntil r -> t <= lr_heldUntil (sights i now r).
Proof.
  induction i as [|i IH]; intros r Hn Hr; simpl; [done|]. apply IH; [done|]. unfold sight.
  destruct (too_soon now r); [done|]. by case_if.
Qed.

(** The first sighting counts, or comes right after one that did. *)
Lemma first_sighting t0 r i : progress t0 1 (sights (Datatypes.S i) t0 r).
Proof.
  pose proof gap_pos. simpl. apply sights_progress; [lia|]. destruct (too_soon t0 r) eqn:E.
  - unfold sight. rewrite E. right. unfold too_soon in E. destruct (last (lr_seen r)) as [t|] eqn:El; [|done].
    bool_hyps. assert (t ∈ recent t0 (lr_seen r)) as Hin.
    { apply elem_of_keep_if. split; [|apply Z.ltb_lt; lia].
      rewrite last_lookup in El. by apply list_elem_of_lookup_2 in El. }
    cbn [fst]. destruct (recent t0 (lr_seen r)); [by apply elem_of_nil in Hin|simpl; lia].
  - apply sight_counts; [lia|done|]. right. lia.
Qed.

Lemma not_forgotten t0 now n r :
  soon t0 now -> (1 <= n)%nat -> progress t0 n r -> seen_ok now r -> forgotten now r = false.
Proof.
  intros Hs Hn Hp (Hsort & _ & _). pose proof gap_pos. unfold forgotten. apply andb_false_iff.
  destruct Hp as [Hp|Hp]; [left; apply Z.ltb_ge; lia|right].
  destruct (recent t0 (lr_seen r)) as [|t l] eqn:E; [simpl in Hp; lia|].
  assert (t ∈ recent t0 (lr_seen r)) as Hin by (rewrite E; by left).
  apply elem_of_keep_if in Hin as [Hin Ht]. bool_hyps.
  destruct (sorted_last_max _ Hsort t Hin) as (u & -> & Hu). apply Z.ltb_ge. lia.
Qed.

Lemma too_late now0 now r : seen_ok now0 r -> now0 + liveGap <= now -> too_soon now r = false.
Proof.
  intros (_ & Hb & _) Hle. unfold too_soon. destruct (last (lr_seen r)) as [t|] eqn:El; [|done].
  rewrite last_lookup in El. apply list_elem_of_lookup_2 in El. rewrite Forall_forall in Hb.
  specialize (Hb t El). apply Z.ltb_ge. lia.
Qed.

(** ** Runs of notes *)

Definition notes (ns : list (list ManagedRoute * Z)) (l : liveRepair) : liveRepair :=
  fold_left (fun l n => fst (note (fst n) (snd n) l)) ns l.

(** Notes between two times in which the route is not missing. *)
Definition quiet (k : string) (t t' : Z) (ns : list (list ManagedRoute * Z)) : Prop :=
  Forall (fun n => count_key k (fst n) = O /\ t <= snd n <= t') ns.

Lemma forget_lookup now l k r : l !! k = Some r -> forgotten now r = false -> forget now l !! k = Some r.
Proof. intros H1 H2. unfold forget. by apply map_lookup_filter_Some. Qed.

Lemma quiet_lookup k t0 t t' n r ns :
  quiet k t t' ns -> t0 <= t -> t' <= t0 + liveWindow - liveGap -> (1 <= n)%nat -> progress t0 n r ->
  seen_ok t r -> forall l, l !! k = Some r -> notes ns l !! k = Some r.
Proof.
  intros Hq Ht Ht' Hn Hp Hr. induction ns as [|[m now] ns IH]; intros l Hl; simpl; [done|].
  apply Forall_cons in Hq as [[Hc Hb] Hq]. simpl in Hc, Hb. apply (IH Hq).
  rewrite (note_lookup_some m now l k r), Hc; [done|]. apply forget_lookup; [done|].
  apply (not_forgotten t0 now n); [lia|done|done|]. by apply (seen_ok_later t); [lia|].
Qed.

Lemma count_key_pos k m : k ∈ map (fun m => RouteKey (mr_Route m)) m -> exists i, count_key k m = Datatypes.S i.
Proof.
  intros (x & -> & Hx)%list_elem_of_fmap. unfold count_key.
  assert (x ∈ keep_if (fun m => RouteKey (mr_Route m) =s? RouteKey (mr_Route x)) m) as Hin
    by (apply elem_of_keep_if; split; [done|apply String.eqb_refl]).
  destruct (keep_if _ m); [by apply elem_of_nil in Hin|by eexists].
Qed.

Lemma note_first k m t0 l :
  0 <= t0 -> live_ok t0 l -> k ∈ map (fun m => RouteKey (mr_Route m)) m ->
  exists r, fst (note m t0 l) !! k = Some r /\ progress t0 1 r /\ seen_ok t0 r.
Proof.
  intros H0 Hl Hk. destruct (count_key_pos k m Hk) as (i & Hi). unfold note. rewrite note_lookup. simpl.
  destruct (forget t0 l !! k) as [r|] eqn:E.
  - exists (sights (count_key k m) t0 r). split; [done|]. rewrite Hi. split; [apply first_sighting|].
    apply sights_ok, (Hl k). unfold forget in E. by apply map_lookup_filter_Some in E as [? _].
  - unfold count_key in Hi. destruct (keep_if _ m) as [|x xs] eqn:Ex; [done|]. simpl.
    eexists. split; [done|]. unfold count_key. rewrite Ex. split; [apply first_sighting|].
    apply sights_ok. split; [constructor|split; [constructor|]].
    pose proof gap_pos. cbn [lr_heldUntil]. lia.
Qed.

Lemma note_again k m t0 t now n l r :
  l !! k = Some r -> k ∈ map (fun m => RouteKey (mr_Route m)) m -> seen_ok t r -> t + liveGap <= now ->
  t0 <= t -> now + liveGap <= t0 + liveWindow -> (1 <= n)%nat -> progress t0 n r ->
  exists i, fst (note m now l) !! k = Some (sights i now (fst (sight now r))) /\ too_soon now r = false.
Proof.
  intros Hl Hk Hr Ht H0 Hw Hn Hp. pose proof gap_pos. destruct (count_key_pos k m Hk) as (i & Hi).
  exists i. split; [|by eapply too_late].
  rewrite (note_lookup_some m now l k r), Hi; [done|]. apply forget_lookup; [done|].
  apply (not_forgotten t0 now n); [lia|done|done|]. apply (seen_ok_later t); [lia|done].
Qed.

Lemma held_lookup l k r t : l !! k = Some r -> k ∈ held l t <-> t < lr_heldUntil r.
Proof.
  intros Hl. unfold held, is_held. rewrite elem_of_dom. split.
  - intros [x Hx]. apply map_lookup_filter_Some in Hx as [Hx Ht]. simplify_eq. simpl in Ht. by bool_hyps.
  - intros Ht. exists r. apply map_lookup_filter_Some. split; [done|]. by apply Z.ltb_lt.
Qed.

(** RiftRoute does not fight another program over a route for long: a route
    found missing three times, at least [liveGap] apart and within
    [liveWindow] less a [liveGap] (whatever was noted before, and of other
    routes in between), is held from then on, until [liveHold] after the first
    of the three at least, and no longer than [liveHold] after the last. *)
Theorem live_fight_ends l k m1 m2 m3 o1 o2 t1 t2 t3 t :
  0 <= t1 -> live_ok t1 l ->
  k ∈ map (fun m => RouteKey (mr_Route m)) m1 -> k ∈ map (fun m => RouteKey (mr_Route m)) m2 ->
  k ∈ map (fun m => RouteKey (mr_Route m)) m3 ->
  t1 + liveGap <= t2 -> t2 + liveGap <= t3 -> t3 + liveGap <= t1 + liveWindow ->
  quiet k t1 t2 o1 -> quiet k t2 t3 o2 ->
  let l' := fst (note m3 t3 (notes o2 (fst (note m2 t2 (notes o1 (fst (note m1 t1 l))))))) in
  (t < t1 + liveHold -> k ∈ held l' t) /\ (t3 + liveHold <= t -> k ∉ held l' t).
Proof.
  intros H0 Hl K1 K2 K3 G1 G2 Hw Q1 Q2. pose proof gap_pos.
  destruct (note_first k m1 t1 l H0 Hl K1) as (r1 & E1 & P1 & S1).
  pose proof (quiet_lookup k t1 t1 t2 1 r1 o1 Q1 ltac:(lia) ltac:(lia) ltac:(lia) P1 S1 _ E1) as E1'.
  destruct (note_again k m2 t1 t1 t2 1 _ r1 E1' K2 S1 ltac:(lia) ltac:(lia) ltac:(lia) ltac:(lia) P1)
    as (i2 & E2 & T2).
  set (r2 := sights i2 t2 (fst (sight t2 r1))) in *.
  assert (progress t1 2 r2) as P2.
  { apply sights_progress; [lia|]. apply sight_counts; [lia|done|done]. }
  assert (seen_ok t2 r2) as S2.
  { apply sights_ok, sight_ok, (seen_ok_later t1); [lia|done]. }
  pose proof (quiet_lookup k t1 t2 t3 2 r2 o2 Q2 ltac:(lia) ltac:(lia) ltac:(lia) P2 S2 _ E2) as E2'.
  destruct (note_again k m3 t1 t2 t3 2 _ r2 E2' K3 S2 ltac:(lia) ltac:(lia) ltac:(lia) ltac:(lia) P2)
    as (i3 & E3 & T3).
  intros l'. unfold l'. rewrite (held_lookup _ _ _ t E3).
  assert (t1 + liveHold <= lr_heldUntil (sights i3 t3 (fst (sight t3 r2)))) as Hh.
  { apply sights_held; [lia|]. apply sight_holds; [lia|done|done]. }
  assert (seen_ok t3 (sights i3 t3 (fst (sight t3 r2)))) as (_ & _ & Hmax).
  { apply sights_ok, sight_ok, (seen_ok_later t2); [lia|done]. }
  lia.
Qed.

(** ** Witness: a route removed every minute *)

Lemma live_fight_ends_witness :
  let m := [ex_route "1.1.1.1/32" "192.168.1.1" "en0"] in
  let k := RouteKey (mr_Route (ex_route "1.1.1.1/32" "192.168.1.1" "en0")) in
  let l' := fst (note m (3 * Minute) (fst (note m (2 * Minute) (fst (note m Minute ∅))))) in
  k ∈ held l' (4 * Minute) /\ k ∉ held l' (33 * Minute).
Proof.
  intros m k l'.
  assert (live_ok Minute ∅) as Hl by (intros x r Hx; rewrite lookup_empty in Hx; discriminate Hx).
  assert (k ∈ map (fun m => RouteKey (mr_Route m)) m) as Hk by (apply list_elem_of_singleton; reflexivity).
  assert (forall a b, a <=? b = true -> a <= b) as Hle by (intros a b; apply Z.leb_le).
  pose proof (fun t => live_fight_ends ∅ k m m m [] [] Minute (2 * Minute) (3 * Minute) t
    (Hle 0 Minute eq_refl) Hl Hk Hk Hk (Hle (Minute + liveGap) (2 * Minute) eq_refl)
    (Hle (2 * Minute + liveGap) (3 * Minute) eq_refl) (Hle (3 * Minute + liveGap) (Minute + liveWindow) eq_refl)
    (List.Forall_nil _) (List.Forall_nil _)) as H.
  split; [apply (proj1 (H (4 * Minute)))|apply (proj2 (H (33 * Minute)))].
  - apply Z.ltb_lt. reflexivity.
  - apply Hle. reflexivity.
Defined.
