(* ===== verification/Applier.v ===== *)
(** * The tunnels' applier (internal/tunnel/applier.go)

    One goroutine applies the tunnels' routes; any number of others ask for an
    apply and may wait for one. What each does between two synchronizations is
    a step: asking takes two (the ticket, then the wake-up on a channel that
    holds one), the loop's turn three (waking, reading how many asked, ending).
    Tickets are counted without a bound (the source's are 64 bits wide). *)

From S2P Require Import Prelude.
From S2P Require Import Netip NetipText Domain Provider LiveRepair.

Definition applyRetryEvery : Z := 3 * Second.
Definition applyRetryMax : Z := 30 * Second.

(** Where the loop is: waiting, woken, or applying what [n] requests asked for. *)
Inductive loop_at : Type := LoopWaits | LoopWoken | LoopApplies (n : Z) | LoopStopped.

Record applier : Type := mkApplier {
  ap_want : Z;
  ap_done : Z;
  ap_lastErr : option error;
  ap_kick : bool;
  ap_stop : bool;
  ap_asking : nat;             (* between their ticket and their wake-up *)
  ap_loop : loop_at;
  ap_failures : Z;
  ap_retry : option Z;         (* how long until the next try *)
}.

Definition newApplier : applier := mkApplier 0 0 None false false 0 LoopWaits 0 None.

Inductive ap_event : Type :=
| AskTicket        (* request: want++ *)
| AskKick          (* request: the wake-up *)
| WakeKick | WakeRetry
| ReadWant
| Applied (err : option error)
| CloseStop | LoopEnds.

#[export] Instance ap_event_eq_dec : EqDecision ap_event.
Proof. solve_decision. Defined.

Definition retry_after (failures : Z) : Z := Z.min (applyRetryEvery * failures) applyRetryMax.

Definition ap_step (a : applier) (ev : ap_event) : option applier :=
  let '(mkApplier want done_ lastErr kick stop asking loop failures retry) := a in
  match ev, loop with
  | AskTicket, _ => Some (mkApplier (want + 1) done_ lastErr kick stop (S asking) loop failures retry)
  | AskKick, _ =>
      match asking with
      | O => None
      | S asking => Some (mkApplier want done_ lastErr true stop asking loop failures retry)
      end
  | WakeKick, LoopWaits => if kick then Some (mkApplier want done_ lastErr false stop asking LoopWoken 0 None) else None
  | WakeRetry, LoopWaits =>
      match retry with Some _ => Some (mkApplier want done_ lastErr kick stop asking LoopWoken failures None) | None => None end
  | ReadWant, LoopWoken => Some (mkApplier want done_ lastErr kick stop asking (LoopApplies want) failures retry)
  | Applied err, LoopApplies n =>
      let failures := match err with Some _ => failures + 1 | None => failures end in
      let retry := match err with Some _ => Some (retry_after failures) | None => None end in
      Some (mkApplier want n err kick stop asking LoopWaits failures retry)
  | CloseStop, _ => Some (mkApplier want done_ lastErr kick true asking loop failures retry)
  | LoopEnds, LoopWaits => if stop then Some (mkApplier want done_ lastErr kick stop asking LoopStopped failures retry) else None
  | _, _ => None
  end.

Fixpoint ap_run (a : applier) (evs : list ap_event) : option applier :=
  match evs with [] => Some a | ev :: evs' => a ← ap_step a ev; ap_run a evs' end.

(** [wait] for ticket [n]: the error it returns, [None] while it waits; [ended]
    is the context's error. *)
Definition ap_wait (ended : option error) (n : Z) (a : applier) : option (option error) :=
  if ap_done a <? n then match ended with Some e => Some (Some e) | None => None end
  else Some (ap_lastErr a).

(** ** Nothing is lost *)

Record ap_inv (a : applier) : Prop := mkApInv {
  ai_order : 0 <= ap_done a <= ap_want a;
  ai_read : forall n, ap_loop a = LoopApplies n -> ap_done a <= n <= ap_want a;
  ai_kept : ap_loop a = LoopWaits -> ap_kick a = false -> ap_asking a = 0%nat -> ap_done a = ap_want a;
  ai_busy : forall n, ap_loop a = LoopApplies n -> ap_kick a = false -> ap_asking a = 0%nat -> n = ap_want a;
  ai_retry : ap_loop a = LoopWaits -> is_Some (ap_lastErr a) -> exists w, ap_retry a = Some w /\ w <= applyRetryMax;
  ai_failures : 0 <= ap_failures a;
}.

Lemma ap_init_inv : ap_inv newApplier.
Proof. split; simpl; try done; try lia. Qed.

Lemma ap_step_inv a ev b : ap_inv a -> ap_step a ev = Some b -> ap_inv b.
Proof.
  intros [Ho Hr Hk Hb Hy Hf] H. destruct a as [want done_ lastErr kick stop asking loop failures retry]. simpl in *.
  destruct ev, loop; simpl in H; repeat case_match; simplify_eq; split; simpl in *;
    try done; try lia; try (intros; simplify_eq; try done; try lia; eauto; fail).
  all: try (intros n' [= <-]; first [specialize (Hr _ eq_refl) | idtac]; lia).
  all: try (specialize (Hr _ eq_refl); lia).
  all: try (intros _ _ _; specialize (Hb _ eq_refl); auto; fail).
  all: try (intros _ [e' He']; eexists; split; [done|unfold retry_after; lia]).
  all: try (intros _ [e' He']; done).
Qed.

Lemma ap_run_inv evs : forall a b, ap_inv a -> ap_run a evs = Some b -> ap_inv b.
Proof.
  induction evs as [|ev evs IH]; intros a b Ha H; simpl in H; [by simplify_eq|].
  destruct (ap_step a ev) as [c|] eqn:E; [|done]. simpl in H. eapply IH, H. by eapply ap_step_inv.
Qed.

(** no request for an apply is lost. In every state the applier can reach, if
    its loop is waiting with no wake-up pending or on its way, every request was
    covered by an apply; if that apply failed another is due within half a
    minute, so at rest the last apply, which covered them all, succeeded. *)
Theorem no_request_lost (evs : list ap_event) (a : applier) :
  ap_run newApplier evs = Some a -> ap_loop a = LoopWaits -> ap_kick a = false -> ap_asking a = 0%nat ->
  ap_done a = ap_want a /\
  match ap_lastErr a with
  | Some _ => exists w, ap_retry a = Some w /\ w <= applyRetryMax
  | None => True
  end.
Proof.
  intros H Hl Hk Ha. pose proof (ap_run_inv evs _ _ ap_init_inv H) as [_ _ Hkept _ Hretry _]. split; [by apply Hkept|].
  destruct (ap_lastErr a); [|done]. apply Hretry; [done|by eexists].
Qed.

(** ** What a wait returns *)

Definition is_applied (ev : ap_event) : bool := match ev with Applied _ => true | _ => false end.

(** A step other than the end of an apply leaves what waiters read. *)
Lemma step_reads a ev b : ap_step a ev = Some b -> is_applied ev = false -> ap_done b = ap_done a /\ ap_lastErr b = ap_lastErr a.
Proof. destruct a. destruct ev; simpl; intros; repeat case_match; simplify_eq; done. Qed.

(** The run up to the last apply that ended in it. *)
Lemma last_applied post : forall a b, ap_run a post = Some b ->
  (existsb is_applied post = false /\ ap_done b = ap_done a) \/
  exists q err p3 c, post = q ++ Applied err :: p3 /\ existsb is_applied p3 = false /\
    ap_run a (q ++ [Applied err]) = Some c /\ ap_done b = ap_done c /\ ap_lastErr b = err.
Proof.
  induction post as [|ev post IH]; intros a b H; simpl in H; [simplify_eq; by left|].
  destruct (ap_step a ev) as [a1|] eqn:E; [|done]. simpl in H.
  destruct (IH a1 b H) as [[Hn Hd]|(q & err & p3 & c & -> & Hp & Hr & Hd & He)].
  - destruct (is_applied ev) eqn:Ea; [right|left].
    + destruct ev as [| | | | |err| |]; try done. exists [], err, post, a1. split_and!; [done|done| |done|].
      * simpl. by rewrite E.
      * assert (forall l x y, existsb is_applied l = false -> ap_run x l = Some y -> ap_lastErr y = ap_lastErr x) as Hkeep.
        { clear. induction l as [|ev l IHl]; intros x y Hl Hxy; simpl in *; [by simplify_eq|]. apply orb_false_iff in Hl as [Hev Hl].
          destruct (ap_step x ev) as [z|] eqn:Ez; [|done]. simpl in Hxy. rewrite (IHl z y Hl Hxy). by eapply step_reads. }
        rewrite (Hkeep _ _ _ Hn H). destruct a as [? ? ? ? ? ? loop]. destruct loop; simpl in E; by simplify_eq.
    + simpl. rewrite Ea. split; [done|]. rewrite Hd. by apply step_reads in E as [-> _].
  - right. exists (ev :: q), err, p3, c. split_and!; [done|done| |done|done]. simpl. by rewrite E.
Qed.

(** An apply under way since before a request does not cover it. *)
Lemma not_yet_covered post k : forall a b, ReadWant ∉ post -> ap_done a < k ->
  (forall n, ap_loop a = LoopApplies n -> n < k) -> ap_run a post = Some b -> ap_done b < k.
Proof.
  induction post as [|ev post IH]; intros a b Hr Hd Hl H; simpl in H; [by simplify_eq|].
  destruct (ap_step a ev) as [a1|] eqn:E; [|done]. simpl in H. apply not_elem_of_cons in Hr as [Hev Hr].
  destruct a as [want done_ lastErr kick stop asking loop failures retry]. simpl in *.
  apply (IH a1 b); [done| | |done]; destruct ev, loop; simpl in E; repeat case_match; simplify_eq; simpl in *; try done; try lia;
    try (intros; simplify_eq; auto; fail); try (by apply Hl).
Qed.

(** a wait that returns was served. Whatever else was asked for meanwhile,
    the error it returns is that of the last apply that ended, and an apply that
    started after the request was made has ended by then: the routes it
    installed are at least as new as the request. *)
Theorem wait_served (pre post : list ap_event) (a0 a b : applier) (err : option error) :
  ap_run newApplier pre = Some a0 -> ap_step a0 AskTicket = Some a -> ap_run a post = Some b ->
  ap_wait None (ap_want a) b = Some err ->
  exists q p, post = q ++ Applied err :: p /\ ReadWant ∈ q /\ existsb is_applied p = false.
Proof.
  intros Hpre Hask Hpost Hw. pose proof (ap_run_inv pre _ _ ap_init_inv Hpre) as [Ho Hr _ _ _ _].
  assert (ap_want a = ap_want a0 + 1 /\ ap_done a = ap_done a0 /\ ap_loop a = ap_loop a0) as (Hwant & Hdone & Hloop).
  { destruct a0. simpl in Hask. by simplify_eq. }
  unfold ap_wait in Hw. destruct (ap_done b <? ap_want a) eqn:E; [done|]. bool_hyps. injection Hw as Hw.
  destruct (last_applied post a b Hpost) as [[_ Hd]|(q & e & p3 & c & -> & Hp & Hc & Hd & He)]; [lia|].
  exists q, p3. assert (e = err) as -> by congruence. split; [done|]. split; [|done].
  destruct (decide (ReadWant ∈ q)) as [|Hnot]; [done|]. exfalso.
  assert (ap_done c < ap_want a) as Hlt; [|lia].
  apply (not_yet_covered (q ++ [Applied err]) (ap_want a) a c); [|lia| |done].
  - rewrite not_elem_of_app, list_elem_of_singleton. by split.
  - intros n Hn. rewrite Hloop in Hn. apply Hr in Hn. lia.
Qed.

(** ** Examples *)

(** Two ask while an apply is under way; the wake-ups collapse into one. *)
Definition ex_asks : list ap_event := [AskTicket; AskKick; WakeKick; ReadWant; AskTicket; AskKick; AskTicket; AskKick].
Definition ex_rest : list ap_event := [Applied None; WakeKick; ReadWant; Applied None].

Lemma no_request_lost_witness :
  match ap_run newApplier (ex_asks ++ ex_rest) with Some a => ap_done a = 3 /\ ap_want a = 3 | None => False end.
Proof.
  destruct (ap_run newApplier (ex_asks ++ ex_rest)) as [a|] eqn:E; [|vm_compute in E; discriminate E].
  pose proof (no_request_lost (ex_asks ++ ex_rest) a E) as H. vm_compute in E. injection E as <-.
  split; [exact (proj1 (H eq_refl eq_refl eq_refl))|reflexivity].
Defined.

Lemma wait_served_witness :
  match ap_run newApplier [AskTicket; AskKick; WakeKick; ReadWant] with
  | Some a0 => exists q p, [AskKick; Applied None; WakeKick; ReadWant; Applied None] = q ++ Applied None :: p /\ ReadWant ∈ q /\
                 existsb is_applied p = false
  | None => False
  end.
Proof.
  destruct (ap_run newApplier [AskTicket; AskKick; WakeKick; ReadWant]) as [a0|] eqn:E; [|vm_compute in E; discriminate E].
  pose proof (wait_served [AskTicket; AskKick; WakeKick; ReadWant] [AskKick; Applied None; WakeKick; ReadWant; Applied None] a0) as H.
  vm_compute in E. injection E as <-.
  eapply H; vm_compute; reflexivity.
Defined.
