(* ===== verification/Store.v ===== *)
(** * Persistence (internal/store/store.go)

    The database as its tables: a row per key, what the statements insert,
    update, delete and select. A JSON document is the value it encodes, or text
    that does not decode (a row another version wrote, or a damaged one). How
    a time is written ([time.RFC3339Nano]) is an argument: rows are ordered by
    that text. Opening and migrating the file are left out. *)

From S2P Require Import Prelude.
From S2P Require Import Netip NetipText Domain Reconcile Input Engine Provider.

(** ** Documents *)

Inductive doc (A : Type) : Type :=
| Doc (a : A)
| Garbled (text : string).
Arguments Doc {A} a.
Arguments Garbled {A} text.

Definition Unmarshal {A} (d : doc A) : error + A :=
  match d with Doc a => inr a | Garbled t => inl (Errorf "invalid character" [t]) end.

(** A query's rows, decoded one after another: the first that does not decode
    ends it. *)
Fixpoint decode_all {A} (ds : list (doc A)) : error + list A :=
  match ds with
  | [] => inr []
  | d :: ds' => let? a := Unmarshal d in let? l := decode_all ds' in inr (a :: l)
  end.

(** ** Tables *)

Record profile_row : Type := mkProfileRow {
  pw_id : string; pw_name : string; pw_enabled : bool; pw_priority : Z; pw_doc : doc Profile }.

Record owned_key : Type := mkOwnedKey { ok_family : string; ok_dst : string; ok_gateway : string; ok_iface : string }.

#[export] Instance owned_key_eq_dec : EqDecision owned_key.
Proof. solve_decision. Defined.

Record owned_row : Type := mkOwnedRow {
  ow_key : owned_key; ow_profile : string; ow_created : string; ow_doc : doc ManagedRoute }.

Record snapshot_row : Type := mkSnapshotRow {
  sw_id : string; sw_created : string; sw_reason : string; sw_doc : doc Snapshot }.

Record audit_row : Type := mkAuditRow { aw_id : Z; aw_ts : string; aw_doc : doc AuditEvent }.

(** A journal row's format is [None] when the column holds no integer. *)
Record tx_row : Type := mkTxRow { tw_id : string; tw_format : option Z; tw_doc : doc Plan }.

Record list_row : Type := mkListRow { lw_name : string; lw_doc : doc NamedList }.

Record DB : Type := mkDB {
  db_settings : gmap string string;
  db_profiles : list profile_row;
  db_lists : list list_row;
  db_ownership : list owned_row;
  db_snapshots : list snapshot_row;
  db_audit : list audit_row;
  db_pending : list tx_row;
  db_now : Z;
}.

Definition with_settings (d : DB) x :=
  mkDB x (db_profiles d) (db_lists d) (db_ownership d) (db_snapshots d) (db_audit d) (db_pending d) (db_now d).
Definition with_profiles (d : DB) x :=
  mkDB (db_settings d) x (db_lists d) (db_ownership d) (db_snapshots d) (db_audit d) (db_pending d) (db_now d).
Definition with_lists (d : DB) x :=
  mkDB (db_settings d) (db_profiles d) x (db_ownership d) (db_snapshots d) (db_audit d) (db_pending d) (db_now d).
Definition with_ownership (d : DB) x :=
  mkDB (db_settings d) (db_profiles d) (db_lists d) x (db_snapshots d) (db_audit d) (db_pending d) (db_now d).
Definition with_snapshots (d : DB) x :=
  mkDB (db_settings d) (db_profiles d) (db_lists d) (db_ownership d) x (db_audit d) (db_pending d) (db_now d).
Definition with_audit (d : DB) x :=
  mkDB (db_settings d) (db_profiles d) (db_lists d) (db_ownership d) (db_snapshots d) x (db_pending d) (db_now d).
Definition with_pending (d : DB) x :=
  mkDB (db_settings d) (db_profiles d) (db_lists d) (db_ownership d) (db_snapshots d) (db_audit d) x (db_now d).

(** [INSERT ... ON CONFLICT(key) DO UPDATE]: the row with the key is updated in
    place, or a new one added at the end. *)
Section upsert.
Context {R K : Type} (key : R -> K) `{!EqDecision K}.

Fixpoint upsert (new : R) (update : R -> R) (rows : list R) : list R :=
  match rows with
  | [] => [new]
  | r :: rows' => if bool_decide (key r = key new) then update r :: rows' else r :: upsert new update rows'
  end.

Definition delete_where (p : R -> bool) (rows : list R) : list R := keep_if (fun r => negb (p r)) rows.
End upsert.

Definition ErrNotFound : error := Errorf "store: not found" [].

(** ** Settings and preferences *)

Definition GetSetting (key : string) (d : DB) : option string := db_settings d !! key.
Definition SetSetting (key value : string) (d : DB) : DB := with_settings d (<[key := value]> (db_settings d)).

(** What a change records when it commits ([Options.OnCommit]): a write of
    settings, [record_keys] and no other. *)
Class CommitRecord (R : Type) : Type := {
  run_record : R -> DB -> DB;
  record_keys : list string;
  record_only r d : run_record r d = with_settings d (db_settings (run_record r d));
  record_spares r d k : k ∉ record_keys -> GetSetting k (run_record r d) = GetSetting k d;
}.
Arguments record_keys R {_}.

(** The other tables a record leaves alone. *)
Lemma record_tables `{!CommitRecord R} (r : R) d :
  db_profiles (run_record r d) = db_profiles d /\ db_lists (run_record r d) = db_lists d /\
  db_ownership (run_record r d) = db_ownership d /\ db_snapshots (run_record r d) = db_snapshots d /\
  db_pending (run_record r d) = db_pending d.
Proof. rewrite (record_only r d). done. Qed.

Lemma record_pending `{!CommitRecord R} (r : R) d : db_pending (run_record r d) = db_pending d.
Proof. apply record_tables. Qed.
Lemma record_ownership `{!CommitRecord R} (r : R) d : db_ownership (run_record r d) = db_ownership d.
Proof. apply record_tables. Qed.

Definition updatesModeKey : string := "updates_mode".
Definition telemetryLevelKey : string := "telemetry_level".

Definition ConservativePreferences : Preferences := mkPreferences UpdateNotify TelemetryOff.

Definition LoadPreferences (d : DB) : Preferences :=
  let updates :=
    match GetSetting updatesModeKey d with
    | None => pf_Updates DefaultPreferences
    | Some v => if UpdateMode_Valid v then v else UpdateNotify
    end in
  let telemetry :=
    match GetSetting telemetryLevelKey d with
    | None => pf_Telemetry DefaultPreferences
    | Some v => if TelemetryLevel_Valid v then v else TelemetryOff
    end in
  mkPreferences updates telemetry.

(** The first field is saved before the second is checked. *)
Definition SavePreferencesPatch (patch : PreferencesPatch) (d : DB) : option error * DB :=
  let '(err, d) :=
    match pp_Updates patch with
    | None => (None, d)
    | Some m =>
        if negb (UpdateMode_Valid m) then (Some (Errorf "store: invalid update mode %q" [m]), d)
        else (None, SetSetting updatesModeKey m d)
    end in
  match err with
  | Some e => (Some e, d)
  | None =>
      match pp_Telemetry patch with
      | None => (None, d)
      | Some l =>
          if negb (TelemetryLevel_Valid l) then (Some (Errorf "store: invalid telemetry level %q" [l]), d)
          else (None, SetSetting telemetryLevelKey l d)
      end
  end.

Definition SavePreferences (p : Preferences) (d : DB) : option error * DB :=
  if negb (UpdateMode_Valid (pf_Updates p)) || negb (TelemetryLevel_Valid (pf_Telemetry p))
  then (Some (Errorf "store: invalid preferences %+v" [pf_Updates p; pf_Telemetry p]), d)
  else (None, SetSetting telemetryLevelKey (pf_Telemetry p) (SetSetting updatesModeKey (pf_Updates p) d)).

(** ** Profiles: keyed by id, with a unique name *)

Definition profile_row_less (a b : profile_row) : bool :=
  (pw_priority a <? pw_priority b) || ((pw_priority a =? pw_priority b) && str_less (pw_name a) (pw_name b)).

Definition ListProfiles (d : DB) : error + list Profile :=
  decode_all (map pw_doc (slice_stable profile_row_less (db_profiles d))).

Definition GetProfile (name : string) (d : DB) : error + Profile :=
  match List.find (fun r => pw_name r =s? name) (db_profiles d) with
  | None => inl ErrNotFound
  | Some r => Unmarshal (pw_doc r)
  end.

Definition UpsertProfile (p : Profile) (d : DB) : option error * DB :=
  let row := mkProfileRow (pf_ID p) (pf_Name p) (pf_Enabled p) (pf_Priority p) (Doc p) in
  if existsb (fun r => (pw_name r =s? pf_Name p) && negb (pw_id r =s? pf_ID p)) (db_profiles d)
  then (Some (Errorf "UNIQUE constraint failed: profiles.name" []), d)
  else (None, with_profiles d (upsert pw_id row (fun _ => row) (db_profiles d))).

Definition set_enabled (p : Profile) (enabled : bool) : Profile :=
  mkProfile (pf_ID p) (pf_Name p) (pf_Description p) enabled (pf_Mode p) (pf_Gateway p) (pf_Priority p) (pf_Rules p)
    (pf_Lists p) (pf_IPVersion p) (pf_Tunnel p).

Definition SetProfileEnabled (name : string) (enabled : bool) (d : DB) : option error * DB :=
  match GetProfile name d with
  | inl e => (Some e, d)
  | inr p => UpsertProfile (set_enabled p enabled) d
  end.

Definition DeleteProfile (name : string) (d : DB) : DB :=
  with_profiles d (delete_where (fun r => pw_name r =s? name) (db_profiles d)).

(** ** Lists: keyed by name *)

Definition ListLists (d : DB) : error + list NamedList :=
  decode_all (map lw_doc (slice_stable (fun a b => str_less (lw_name a) (lw_name b)) (db_lists d))).

Definition GetList (name : string) (d : DB) : error + NamedList :=
  match List.find (fun r => lw_name r =s? name) (db_lists d) with
  | None => inl ErrNotFound
  | Some r => Unmarshal (lw_doc r)
  end.

Definition UpsertList (l : NamedList) (d : DB) : DB :=
  let row := mkListRow (nl_Name l) (Doc l) in
  with_lists d (upsert lw_name row (fun _ => row) (db_lists d)).

Definition DeleteList (name : string) (d : DB) : DB :=
  with_lists d (delete_where (fun r => lw_name r =s? name) (db_lists d)).

(** ** Split DNS: a setting that holds a document

    How the routes are written ([json.Marshal]) and read back is an argument. *)
Definition splitDNSKey : string := "split_dns".

Definition SaveSplitDNS (encode : list SplitDNSRoute -> string) (routes : list SplitDNSRoute) (d : DB) : DB :=
  SetSetting splitDNSKey (encode routes) d.

Definition LoadSplitDNS (decode : string -> error + list SplitDNSRoute) (d : DB) : error + list SplitDNSRoute :=
  match GetSetting splitDNSKey d with
  | None => inr []
  | Some v => if v =s? "" then inr [] else decode v
  end.

Section timed.
(** How a time is written: [time.Time.Format(time.RFC3339Nano)]. *)
Context (rfc3339nano : Z -> string).

(** ** Audit *)

Definition last_id (rows : list audit_row) : Z := fold_left (fun m r => Z.max m (aw_id r)) rows 0.

Definition set_ts (ev : AuditEvent) (ts : Z) : AuditEvent :=
  mkAuditEvent (ae_ID ev) ts (ae_Actor ev) (ae_Action ev) (ae_Profile ev) (ae_Plan ev) (ae_Result ev) (ae_Rollback ev)
    (ae_Reason ev) (ae_Codes ev) (ae_Timing ev).
Definition set_id (id : Z) (ev : AuditEvent) : AuditEvent :=
  mkAuditEvent id (ae_TS ev) (ae_Actor ev) (ae_Action ev) (ae_Profile ev) (ae_Plan ev) (ae_Result ev) (ae_Rollback ev)
    (ae_Reason ev) (ae_Codes ev) (ae_Timing ev).

(** No row of the log is ever deleted, so the id assigned is one more than the
    largest. *)
Definition AppendAudit (ev : AuditEvent) (d : DB) : Z * DB :=
  let ev := if ae_TS ev =? 0 then set_ts ev (db_now d) else ev in
  let id := last_id (db_audit d) + 1 in
  (id, with_audit d (db_audit d ++ [mkAuditRow id (rfc3339nano (ae_TS ev)) (Doc ev)])).

Fixpoint decode_audit (rows : list audit_row) : error + list AuditEvent :=
  match rows with
  | [] => inr []
  | r :: rows' => let? ev := Unmarshal (aw_doc r) in let? l := decode_audit rows' in inr (set_id (aw_id r) ev :: l)
  end.

Definition audit_by_id (rows : list audit_row) : list audit_row := slice_stable (fun a b => aw_id a <? aw_id b) rows.

Definition ListAudit (since : Z) (limit : Z) (d : DB) : error + list AuditEvent :=
  let limit := if limit <=? 0 then 200 else limit in
  decode_audit (take (Z.to_nat limit)
    (reverse (audit_by_id (keep_if (fun r => negb (str_less (aw_ts r) (rfc3339nano since))) (db_audit d))))).

(** The events after an id, and where the reader goes on. *)
Definition AuditAfter (after : Z) (limit : Z) (d : DB) : (error + list AuditEvent) * Z :=
  let limit := if limit <=? 0 then 5000 else limit in
  let rows := take (Z.to_nat limit) (audit_by_id (keep_if (fun r => after <? aw_id r) (db_audit d))) in
  match decode_audit rows with
  | inl e => (inl e, after)
  | inr evs => (inr evs, match last rows with Some r => aw_id r | None => after end)
  end.

Definition LatestAuditID (d : DB) : Z := last_id (db_audit d).

(** ** Snapshots *)

Definition SnapshotFormat : Z := 1.

Definition set_format (s : Snapshot) (f : Z) : Snapshot :=
  mkSnapshot (sn_ID s) (sn_CreatedAt s) (sn_Reason s) (sn_RoutesV4 s) (sn_RoutesV6 s) (sn_Rules s) (sn_Defaults s)
    (sn_DNS s) (sn_Profiles s) (sn_Restorable s) f.

Definition SaveSnapshot (snap : Snapshot) (d : DB) : DB :=
  let snap := if sn_Format snap =? 0 then set_format snap SnapshotFormat else snap in
  let row := mkSnapshotRow (sn_ID snap) (rfc3339nano (sn_CreatedAt snap)) (sn_Reason snap) (Doc snap) in
  with_snapshots d (upsert sw_id row (fun r => mkSnapshotRow (sw_id r) (sw_created r) (sw_reason r) (Doc snap))
                      (db_snapshots d)).

Definition newest_first (rows : list snapshot_row) : list snapshot_row :=
  slice_stable (fun a b => str_less (sw_created b) (sw_created a)) rows.

Definition ListSnapshots (d : DB) : error + list Snapshot := decode_all (map sw_doc (newest_first (db_snapshots d))).

Definition PruneSnapshots (keep : Z) (d : DB) : DB :=
  if keep <=? 0 then d
  else
    let kept := map sw_id (take (Z.to_nat keep) (newest_first (db_snapshots d))) in
    with_snapshots d (delete_where (fun r => negb (bool_decide (sw_id r ∈ kept))) (db_snapshots d)).

Definition GetSnapshot (id : string) (d : DB) : error + Snapshot :=
  match List.find (fun r => sw_id r =s? id) (db_snapshots d) with
  | None => inl ErrNotFound
  | Some r => Unmarshal (sw_doc r)
  end.

(** ** The ownership map *)

Definition key_of (mr : ManagedRoute) : owned_key :=
  let r := mr_Route mr in mkOwnedKey (rt_Family r) (rt_DstCIDR r) (rt_Gateway r) (rt_Iface r).

Definition ListOwned (d : DB) : error + list ManagedRoute :=
  decode_all (map ow_doc (slice_stable (fun a b => str_less (ow_created a) (ow_created b)) (db_ownership d))).

Definition AddOwned (mr : ManagedRoute) (d : DB) : DB :=
  let row := mkOwnedRow (key_of mr) (mr_ProfileID mr) (rfc3339nano (mr_CreatedAt mr)) (Doc mr) in
  with_ownership d (upsert ow_key row (fun r => mkOwnedRow (ow_key r) (mr_ProfileID mr) (ow_created r) (Doc mr))
                      (db_ownership d)).

Definition DelOwned (mr : ManagedRoute) (d : DB) : DB :=
  with_ownership d (delete_where (fun r => bool_decide (ow_key r = key_of mr)) (db_ownership d)).

Definition ClearOwned (d : DB) : DB := with_ownership d [].

(** ** The journal of pending transactions *)

Definition WALFormat : Z := 1.

Definition PutPendingTx (id : string) (plan : Plan) (d : DB) : DB :=
  let row := mkTxRow id (Some WALFormat) (Doc plan) in
  with_pending d (upsert tw_id row (fun r => mkTxRow (tw_id r) (Some WALFormat) (Doc plan)) (db_pending d)).

Definition ClearPendingTx (id : string) (d : DB) : DB :=
  with_pending d (delete_where (fun r => tw_id r =s? id) (db_pending d)).

Definition readable_tx (r : tx_row) : option Plan :=
  match tw_format r, tw_doc r with
  | Some f, Doc pl => if f <=? WALFormat then Some pl else None
  | _, _ => None
  end.

(** The entries this build can read, and the ids of those it cannot, for the
    error. *)
Definition ListPendingTx (d : DB) : gmap string Plan * list string :=
  (list_to_map (omap (fun r => pl ← readable_tx r; Some (tw_id r, pl)) (db_pending d)),
   map tw_id (keep_if (fun r => bool_decide (readable_tx r = None)) (db_pending d))).
End timed.

(** ** Rows by key *)

Section upsert_facts.
Context {R K : Type} (key : R -> K) `{!EqDecision K}.

Definition find_key (k : K) (rows : list R) : option R := List.find (fun r => bool_decide (key r = k)) rows.

Lemma upsert_keys new update rows :
  (forall r, key (update r) = key r) -> NoDup (map key rows) -> NoDup (map key (upsert key new update rows)) /\
  (forall k, k ∈ map key (upsert key new update rows) <-> k = key new \/ k ∈ map key rows).
Proof.
  intros Hu. induction rows as [|r rows IH]; simpl; intros Hn.
  - split; [apply NoDup_singleton|]. intros k. rewrite list_elem_of_singleton, elem_of_nil. tauto.
  - apply NoDup_cons in Hn as [Hr Hn]. destruct (bool_decide (key r = key new)) eqn:E; bool_hyps; simpl.
    + rewrite Hu. split; [by constructor|]. intros k. rewrite elem_of_cons, E. tauto.
    + destruct (IH Hn) as [H1 H2]. split.
      * constructor; [|done]. rewrite H2. tauto.
      * intros k. rewrite !elem_of_cons, H2. tauto.
Qed.

Lemma find_upsert new update rows k :
  (forall r, key (update r) = key r) ->
  find_key k (upsert key new update rows) =
  if decide (k = key new) then
    match find_key k rows with Some r => Some (update r) | None => Some new end
  else find_key k rows.
Proof.
  intros Hu. unfold find_key. induction rows as [|r rows IH]; simpl.
  - destruct (decide (k = key new)) as [->|Hk]; [by rewrite bool_decide_true|by rewrite bool_decide_false].
  - destruct (bool_decide (key r = key new)) eqn:E; bool_hyps; simpl.
    + rewrite Hu. destruct (decide (k = key new)) as [->|Hk].
      * by rewrite E, !bool_decide_true.
      * by rewrite !bool_decide_false by congruence.
    + rewrite IH. destruct (bool_decide (key r = k)) eqn:Ek; bool_hyps; [|done].
      destruct (decide (k = key new)); congruence.
Qed.

Lemma find_delete rows k k' :
  find_key k (delete_where (fun r => bool_decide (key r = k')) rows) =
  if decide (k = k') then None else find_key k rows.
Proof.
  unfold find_key, delete_where. induction rows as [|r rows IH]; simpl; [by case_match|].
  destruct (bool_decide (key r = k')) eqn:E; simpl; bool_hyps; rewrite IH.
  - destruct (decide (k = k')); [done|]. by rewrite bool_decide_false by congruence.
  - destruct (bool_decide (key r = k)) eqn:Ek; bool_hyps; [|done]. by destruct (decide (k = k')); [congruence|].
Qed.

Lemma find_key_in rows k r : find_key k rows = Some r -> r ∈ rows /\ key r = k.
Proof.
  unfold find_key. intros H. apply List.find_some in H as [H1 H2]. bool_hyps. by rewrite list_elem_of_In.
Qed.

Lemma find_key_complete rows r : NoDup (map key rows) -> r ∈ rows -> find_key (key r) rows = Some r.
Proof.
  intros Hn Hr. destruct (find_key (key r) rows) as [r'|] eqn:E.
  - destruct (find_key_in _ _ _ E) as [H1 H2]. f_equal. by eapply (NoDup_map_inj key rows).
  - unfold find_key in E. pose proof (List.find_none _ _ E r (proj1 (list_elem_of_In _ _) Hr)) as Hb. simpl in Hb. by bool_hyps.
Qed.
End upsert_facts.

Lemma decode_all_in {A} (ds : list (doc A)) : forall l, decode_all ds = inr l -> ds = map Doc l.
Proof.
  induction ds as [|[a|t] ds IH]; simpl; intros l H; [by simplify_eq|  |done].
  unfold try in H. destruct (decode_all ds) as [e|l'] eqn:E; [done|]. simplify_eq. simpl. f_equal. by apply IH.
Qed.

(** ** What the ownership map records *)

Definition recorded (d : DB) (k : owned_key) : option (doc ManagedRoute) := ow_doc <$> find_key ow_key k (db_ownership d).

(** One row per key (the primary key), holding a route of that key. *)
Definition owned_ok (d : DB) : Prop :=
  NoDup (map ow_key (db_ownership d)) /\
  Forall (fun r => forall m, ow_doc r = Doc m -> key_of m = ow_key r) (db_ownership d).

Section owned.
Context (rfc3339nano : Z -> string).

Lemma AddOwned_recorded mr d k :
  recorded (AddOwned rfc3339nano mr d) k = if decide (k = key_of mr) then Some (Doc mr) else recorded d k.
Proof.
  unfold recorded, AddOwned. simpl. rewrite find_upsert by done. simpl.
  destruct (decide (k = key_of mr)); [|done]. by destruct (find_key _ _ _).
Qed.

Lemma DelOwned_recorded mr d k :
  recorded (DelOwned mr d) k = if decide (k = key_of mr) then None else recorded d k.
Proof. unfold recorded, DelOwned. simpl. rewrite find_delete. by case_match. Qed.

Lemma AddOwned_ok mr d : owned_ok d -> owned_ok (AddOwned rfc3339nano mr d).
Proof.
  intros [Hn Hd]. split.
  - unfold AddOwned. simpl. by apply upsert_keys.
  - unfold AddOwned. simpl. induction (db_ownership d) as [|r rows IH]; simpl.
    + repeat constructor. simpl. by intros m [= ->].
    + apply Forall_cons in Hd as [Hr Hd]. simpl in Hn. apply NoDup_cons in Hn as [_ Hn].
      destruct (bool_decide (ow_key r = key_of mr)) eqn:E; bool_hyps; constructor; simpl; auto.
      by intros m [= ->].
Qed.

Lemma DelOwned_ok mr d : owned_ok d -> owned_ok (DelOwned mr d).
Proof.
  intros [Hn Hd]. unfold DelOwned. split; simpl.
  - eapply sublist_NoDup; [exact Hn|]. apply sublist_map, keep_if_sublist.
  - apply Forall_forall. intros r [Hr _]%elem_of_keep_if. rewrite Forall_forall in Hd. by apply Hd.
Qed.

Lemma ListOwned_recorded d l : owned_ok d -> ListOwned d = inr l ->
  forall m, m ∈ l <-> recorded d (key_of m) = Some (Doc m).
Proof.
  intros [Hn Hd] Hl m. unfold ListOwned in Hl. apply decode_all_in in Hl. rewrite Forall_forall in Hd.
  assert (m ∈ l <-> exists r, r ∈ db_ownership d /\ ow_doc r = Doc m) as ->.
  { assert (m ∈ l <-> Doc m ∈ map Doc l) as ->.
    { rewrite list_elem_of_fmap. split; [eauto|]. by intros (x & [= ->] & ?). }
    rewrite <- Hl, list_elem_of_fmap. setoid_rewrite elem_of_slice_stable. naive_solver. }
  unfold recorded. split.
  - intros (r & Hr & E). rewrite (Hd r Hr m E), (find_key_complete ow_key _ r Hn Hr). simpl. by rewrite E.
  - rewrite fmap_Some. intros (r & Hr & E). apply find_key_in in Hr as [Hr _]. eauto.
Qed.
End owned.

(** ** The journal *)

(** Journaling a transaction under an id replaces whatever was journaled under
    it, an entry this build cannot read included: it is no longer reported,
    nor there for the build that wrote it. *)
Lemma PutPendingTx_replaces id plan d :
  NoDup (map tw_id (db_pending d)) ->
  id ∉ snd (ListPendingTx (PutPendingTx id plan d)) /\
  db_pending (ClearPendingTx id (PutPendingTx id plan d)) =
    delete_where (fun r => tw_id r =s? id) (db_pending d).
Proof.
  intros Hn. unfold ListPendingTx, PutPendingTx, ClearPendingTx. simpl. split.
  - set (row := mkTxRow id (Some WALFormat) (Doc plan)).
    set (update := fun r => mkTxRow (tw_id r) (Some WALFormat) (Doc plan)).
    rewrite list_elem_of_fmap. intros (r & Eid & [Hr Hb]%elem_of_keep_if). bool_hyps.
    destruct (upsert_keys tw_id row update (db_pending d) (fun _ => eq_refl) Hn) as [Hn' _].
    pose proof (find_key_complete tw_id _ r Hn' Hr) as Hf. rewrite <- Eid, find_upsert in Hf by done.
    rewrite decide_True in Hf by done.
    destruct (find_key tw_id id (db_pending d)); injection Hf as <-; done.
  - unfold delete_where, keep_if. induction (db_pending d) as [|r rows IH]; simpl.
    + by rewrite String.eqb_refl.
    + simpl in Hn. apply NoDup_cons in Hn as [_ Hn]. destruct (bool_decide (tw_id r = id)) eqn:E; bool_hyps; simpl.
      * by rewrite E, String.eqb_refl.
      * rewrite (IH Hn). by rewrite (proj2 (String.eqb_neq _ _) E).
Qed.

(** ** Theorems *)

(** The ownership map holds, for each family, destination, gateway and
    interface, the route last recorded for it: recording a route replaces what
    that key held and leaves the rest, forgetting one removes exactly its key,
    both keep one row per key, and [ListOwned] lists exactly what is
    recorded. *)
Theorem ownership_map (rfc3339nano : Z -> string) mr d :
  owned_ok d ->
  owned_ok (AddOwned rfc3339nano mr d) /\ owned_ok (DelOwned mr d) /\ owned_ok (ClearOwned d) /\
  (forall k, recorded (AddOwned rfc3339nano mr d) k = if decide (k = key_of mr) then Some (Doc mr) else recorded d k) /\
  (forall k, recorded (DelOwned mr d) k = if decide (k = key_of mr) then None else recorded d k) /\
  (forall k, recorded (ClearOwned d) k = None) /\
  (forall l, ListOwned d = inr l -> forall m, m ∈ l <-> recorded d (key_of m) = Some (Doc m)).
Proof.
  intros Hd. refine (conj (AddOwned_ok _ mr d Hd) (conj (DelOwned_ok mr d Hd) (conj _ (conj _ (conj _ (conj _ _)))))).
  - split; constructor.
  - apply AddOwned_recorded.
  - apply DelOwned_recorded.
  - done.
  - intros l Hl. by apply ListOwned_recorded.
Qed.

(** Recorded routes whose key can be read back. *)
Definition owned_wf (d : DB) : Prop :=
  forall k m, recorded d k = Some (Doc m) -> route_wf (mr_Route m) = true.

Lemma RouteKey_key_of a b :
  route_wf (mr_Route a) = true -> route_wf (mr_Route b) = true ->
  RouteKey (mr_Route a) = RouteKey (mr_Route b) ->
  key_of a = key_of b /\ rt_Table (mr_Route a) = rt_Table (mr_Route b).
Proof.
  intros Ha Hb E. destruct (RouteKey_fields _ _ Ha Hb E) as (E1 & E2 & E3 & E4 & E5).
  apply route_wf_fields in Ha as (_ & _ & _ & _ & Ia), Hb as (_ & _ & _ & _ & Ib).
  destruct (key_tail_inj _ _ Ia Ib E5) as [E6 _]. split; [|done]. unfold key_of. by rewrite E1, E3, E4, E6.
Qed.

(** Of two routes of one key in different tables, the one recorded last is the
    only one owned. *)
Lemma forgets_other_table rfc3339nano a b d owned :
  owned_ok d -> owned_wf d -> route_wf (mr_Route a) = true -> route_wf (mr_Route b) = true ->
  key_of a = key_of b -> rt_Table (mr_Route a) <> rt_Table (mr_Route b) ->
  ListOwned (AddOwned rfc3339nano b (AddOwned rfc3339nano a d)) = inr owned ->
  RouteKey (mr_Route a) ∉ rkeys owned.
Proof.
  intros Hd Hw Ha Hb Ek Et Hl (m & Hm & Em)%elem_of_rkeys.
  apply (ListOwned_recorded _ _ (AddOwned_ok _ b _ (AddOwned_ok _ a d Hd)) Hl) in Hm.
  rewrite AddOwned_recorded in Hm. destruct (decide (key_of m = key_of b)) as [E|E].
  - injection Hm as ->. apply RouteKey_key_of in Em as [_ Em]; done.
  - rewrite AddOwned_recorded, decide_False in Hm by congruence.
    apply RouteKey_key_of in Em as [Em _]; [congruence|by eapply Hw|done].
Qed.

(** The ownership map cannot hold a main-table route and the copy of it
    that a Tailscale exit node calls for (its key has no table): whichever is
    recorded last replaces the other, so a desired set with both is never in
    sync with what is owned. Applying it plans the forgotten one again, every
    time. *)
Theorem exit_node_never_in_sync (rfc3339nano : Z -> string) r d D DR AR platform owned :
  owned_ok d -> owned_wf d -> route_wf (mr_Route r) = true -> rt_Table (mr_Route r) = "" ->
  r ∈ D -> set_table r BypassTable ∈ D ->
  ListOwned (AddOwned rfc3339nano (set_table r BypassTable) (AddOwned rfc3339nano r d)) = inr owned \/
  ListOwned (AddOwned rfc3339nano r (AddOwned rfc3339nano (set_table r BypassTable) d)) = inr owned ->
  reconcile_ops D owned DR AR platform <> [].
Proof.
  intros Hd Hw Hr Ht H1 H2 Hor Hnil.
  assert (route_wf (mr_Route (set_table r BypassTable)) = true) as Hc.
  { apply route_wf_fields in Hr as (W1 & W2 & W3 & W4 & W5). unfold route_wf. simpl. by rewrite W1, W3, W4, W5. }
  destruct Hor as [Hl|Hl]; apply forgets_other_table in Hl; try done.
  - by apply Hl, (reconcile_nil_owned D owned DR AR platform).
  - by rewrite Ht.
  - by apply Hl, (reconcile_nil_owned D owned DR AR platform (set_table r BypassTable)).
  - by rewrite Ht.
Qed.

(** ** Witnesses *)

Definition ex_db : DB := mkDB ∅ [] [] [] [] [] [] 0.
Definition ex_time (t : Z) : string := pretty t.

Lemma ex_db_ok : owned_ok ex_db.
Proof. split; constructor. Qed.

Lemma ownership_map_witness :
  let r := ex_route "10.0.0.0/8" "192.168.1.1" "en0" in
  recorded (AddOwned ex_time r ex_db) (key_of r) = Some (Doc r) /\ owned_ok (AddOwned ex_time r ex_db).
Proof.
  intros r. destruct (ownership_map ex_time r ex_db ex_db_ok) as (H1 & _ & _ & H2 & _).
  split; [rewrite H2; vm_compute; reflexivity|exact H1].
Defined.

Lemma exit_node_never_in_sync_witness :
  let r := ex_route "10.0.0.0/8" "192.168.1.1" "en0" in
  let c := set_table r BypassTable in
  exists owned, ListOwned (AddOwned ex_time c (AddOwned ex_time r ex_db)) = inr owned /\
    reconcile_ops [r; c] owned [] [] "linux" <> [].
Proof.
  intros r c. eexists. split; [vm_compute; reflexivity|].
  apply (exit_node_never_in_sync ex_time r ex_db [r; c] [] [] "linux").
  - exact ex_db_ok.
  - intros k m H. discriminate H.
  - reflexivity.
  - reflexivity.
  - left.
  - right. left.
  - left. vm_compute. reflexivity.
Defined.
