(* ===== verification/Panic.v ===== *)
(** * Panic (internal/safety/panic.go)

    Removes every route RiftRoute manages and clears the ownership map. A route
    that could not be removed keeps its record. No store is [None]. *)

From S2P Require Import Prelude.
From S2P Require Import Netip NetipText Domain Reconcile Input Tunnels Installed Engine Provider FakeProvider Store.

Section Panic.
Context {S : Type} `{!RouteProvider S}.

(** Deletes every owned route; the ones that failed and the first error. *)
Fixpoint delete_owned (owned failed : list ManagedRoute) (firstErr : option error) (s : S)
    : list ManagedRoute * option error * S :=
  match owned with
  | [] => (failed, firstErr, s)
  | mr :: owned' =>
      match DelRoute mr s with
      | (None, s') => delete_owned owned' failed firstErr s'
      | (Some e, s') =>
          delete_owned owned' (failed ++ [mr]) (match firstErr with Some _ => firstErr | None => Some e end) s'
      end
  end.

Definition stillInstalled (rs : list ManagedRoute) (s : S) : list ManagedRoute :=
  if bool_decide (rs = []) then []
  else
    match ListRoutes FamilyV4 s with
    | inl _ => rs
    | inr k4 =>
        match ListRoutes FamilyV6 s with
        | inl _ => rs
        | inr k6 =>
            let inst := IndexInstalled (k4 ++ k6) in
            keep_if (fun r => Has inst (mr_Route r)) rs
        end
    end.

(** Records of what is not kept are dropped. *)
Definition drop_records (owned failed : list ManagedRoute) (d : DB) : DB :=
  let keep : gset string := list_to_set (rkeys failed) in
  fold_left (fun d mr => if bool_decide (RouteKey (mr_Route mr) ∈ keep) then d else DelOwned mr d) owned d.

Definition Panic (s : S) (st : option DB) : option error * S * option DB :=
  match st with
  | None => let '(_, s) := FlushOwned s in (None, s, None)
  | Some d =>
      let '(owned, (failed, firstErr, s)) :=
        match ListOwned d with
        | inl _ => ([], ([], None, s))
        | inr owned => (owned, delete_owned owned [] None s)
        end in
      let '(_, s) := FlushOwned s in
      let failed := stillInstalled failed s in
      if bool_decide (failed = []) then (None, s, Some (ClearOwned d))
      else
        (Some (Wrapf "%d managed route(s) could not be removed and stay recorded for a retry: %w"
                 [pretty (Z.of_nat (length failed))] (default (Errorf "%!w(<nil>)" []) firstErr)),
         s, Some (drop_records owned failed d))
  end.

(** ** What is removed and what stays recorded *)

(** The routes whose delete failed, in order. *)
Fixpoint failed_deletes (owned : list ManagedRoute) (s : S) : list ManagedRoute :=
  match owned with
  | [] => []
  | mr :: owned' =>
      match DelRoute mr s with
      | (None, s') => failed_deletes owned' s'
      | (Some _, s') => mr :: failed_deletes owned' s'
      end
  end.

Definition after_deletes (owned : list ManagedRoute) (s : S) : S :=
  fold_left (fun s mr => snd (DelRoute mr s)) owned s.

Lemma delete_owned_spec owned : forall failed firstErr (s : S),
  fst (fst (delete_owned owned failed firstErr s)) = failed ++ failed_deletes owned s /\
  snd (delete_owned owned failed firstErr s) = after_deletes owned s.
Proof.
  induction owned as [|mr owned IH]; intros failed firstErr s; simpl; [by rewrite app_nil_r|].
  destruct (DelRoute mr s) as [[e|] s1]; simpl; [|apply IH].
  destruct (IH (failed ++ [mr]) (match firstErr with Some _ => firstErr | None => Some e end) s1) as [-> ->].
  by rewrite <- app_assoc.
Qed.

Lemma failed_deletes_owned owned (s : S) : failed_deletes owned s `sublist_of` owned.
Proof.
  revert s. induction owned as [|mr owned IH]; intros s; simpl; [constructor|].
  destruct (DelRoute mr s) as [[e|] s1]; by constructor.
Qed.

(** The kernel lists the route, or cannot be asked. *)
Definition may_remain (s : S) (mr : ManagedRoute) : Prop :=
  match ListRoutes FamilyV4 s, ListRoutes FamilyV6 s with
  | inr k4, inr k6 => exists k, k ∈ k4 ++ k6 /\ rt_Cloned k = false /\ same_route k (mr_Route mr) = true
  | _, _ => True
  end.

(** What a panic leaves of the routes it was to delete. *)
Definition remains (owned : list ManagedRoute) (s s' : S) (mr : ManagedRoute) : Prop := mr ∈ failed_deletes owned s /\ may_remain s' mr.

Lemma stillInstalled_spec rs (s : S) mr :
  Forall (fun r => route_wf (mr_Route r) = true) rs -> (forall fam ks, ListRoutes fam s = inr ks -> Forall (fun k => route_wf k = true) ks) ->
  mr ∈ stillInstalled rs s <-> mr ∈ rs /\ may_remain s mr.
Proof.
  intros Hr Hk. unfold stillInstalled, may_remain. destruct (bool_decide_reflect (rs = [])) as [->|_].
  { split; [by intros ?%elem_of_nil|by intros [?%elem_of_nil _]]. }
  destruct (ListRoutes FamilyV4 s) as [|k4] eqn:E4; [tauto|]. destruct (ListRoutes FamilyV6 s) as [|k6] eqn:E6; [tauto|].
  rewrite elem_of_keep_if. split; intros [Hm H]; (split; [done|]); rewrite Forall_forall in Hr.
  - apply (Has_spec (k4 ++ k6)); [by apply Hr|apply Forall_app; split; by eapply Hk|done].
  - apply (Has_spec (k4 ++ k6)) in H; [done|by apply Hr|apply Forall_app; split; by eapply Hk].
Qed.
End Panic.

Lemma drop_records_keep owned failed k : forall d,
  (forall mr, mr ∈ owned -> key_of mr = k -> RouteKey (mr_Route mr) ∈ rkeys failed) ->
  recorded (drop_records owned failed d) k = recorded d k.
Proof.
  unfold drop_records. induction owned as [|mr owned IH]; intros d H; simpl; [done|].
  rewrite IH by (intros x Hx; apply H; by right).
  destruct (bool_decide _) eqn:E; bool_hyps; [done|]. rewrite elem_of_list_to_set in E.
  rewrite DelOwned_recorded. destruct (decide (k = key_of mr)) as [->|]; [|done].
  destruct E. apply H; [by left|done].
Qed.

Lemma drop_records_none owned failed k : forall d,
  recorded d k = None -> recorded (drop_records owned failed d) k = None.
Proof.
  unfold drop_records. induction owned as [|mr owned IH]; intros d H; simpl; [done|]. apply IH.
  destruct (bool_decide _); [done|]. rewrite DelOwned_recorded. by case_match.
Qed.

Lemma drop_records_gone owned failed mr : forall d,
  mr ∈ owned -> RouteKey (mr_Route mr) ∉ rkeys failed -> recorded (drop_records owned failed d) (key_of mr) = None.
Proof.
  induction owned as [|x owned IH]; intros d Hin Hn; [by apply elem_of_nil in Hin|].
  unfold drop_records. simpl. fold (drop_records owned failed).
  apply elem_of_cons in Hin as [->|Hin]; [|by apply IH].
  rewrite bool_decide_false by (by rewrite elem_of_list_to_set).
  apply (drop_records_none owned failed). rewrite DelOwned_recorded. by rewrite decide_True.
Qed.

(** Two owned routes have different keys in the map. *)
Lemma owned_keys d l : owned_ok d -> ListOwned d = inr l -> forall a b, a ∈ l -> b ∈ l -> key_of a = key_of b -> a = b.
Proof.
  intros Hd Hl a b Ha Hb E. apply (ListOwned_recorded d l Hd Hl) in Ha, Hb. rewrite E in Ha. congruence.
Qed.

Section theorems.
Context {S : Type} `{!RouteProvider S}.

(** C26: A panic forgets a route only once it is gone. With the ownership map
    readable (an unreadable one is cleared without deleting its routes), every
    owned route is deleted and the provider's own sweep run. What remains is a
    route whose delete failed and that the kernel lists afterwards, or may hold
    because one of its tables cannot be read. The panic succeeds, with every
    record cleared, exactly when nothing remains; otherwise it reports the
    failure, each route that remains keeps its record, so that a retry finds it,
    and every other record is dropped. Routes are well formed: as the platforms
    list them. *)
Theorem Panic_keeps_records (s s' : S) d owned err st :
  owned_ok d -> ListOwned d = inr owned -> Forall (fun r => route_wf (mr_Route r) = true) owned ->
  (forall fam ks, ListRoutes fam s' = inr ks -> Forall (fun k => route_wf k = true) ks) ->
  Panic s (Some d) = (err, s', st) ->
  s' = snd (FlushOwned (after_deletes owned s)) /\
  exists d', st = Some d' /\ (err = None <-> forall mr, ~ remains owned s s' mr) /\
  (err = None -> forall k, recorded d' k = None) /\
  (forall mr, remains owned s s' mr -> recorded d' (key_of mr) = Some (Doc mr)) /\
  (forall mr, mr ∈ owned -> (forall x, remains owned s s' x -> RouteKey (mr_Route x) <> RouteKey (mr_Route mr)) -> recorded d' (key_of mr) = None).
Proof.
  intros Hd Hl Hwf Hk. unfold Panic. rewrite Hl.
  destruct (delete_owned owned [] None s) as [[failed firstErr] s1] eqn:E.
  destruct (delete_owned_spec owned [] None s) as [E1 E2]. rewrite E in E1, E2. simpl in E1, E2. subst failed s1.
  destruct (FlushOwned (after_deletes owned s)) as [ferr s2] eqn:Ef.
  assert (failed_deletes owned s ⊆ owned) as Hsub.
  { intros mr Hmr. eapply elem_of_submseteq; [exact Hmr|]. apply sublist_submseteq, failed_deletes_owned. }
  intros H. assert (s2 = s') as -> by (destruct (bool_decide _); by simplify_eq). split; [done|].
  set (failed := stillInstalled (failed_deletes owned s) s') in H.
  assert (forall mr, remains owned s s' mr <-> mr ∈ failed) as Hrem.
  { intros mr. unfold remains, failed. rewrite stillInstalled_spec; [done| |done]. rewrite Forall_forall in Hwf |- *. intros x Hx. by apply Hwf, Hsub. }
  assert (forall mr, mr ∈ failed -> mr ∈ owned) as Hin by (intros mr [Hm _]%Hrem; by apply Hsub).
  destruct (bool_decide_reflect (failed = [])) as [En|En]; injection H as <- <-; eexists; (split; [done|]).
  - assert (forall mr, ~ remains owned s s' mr) as Hno by (intros mr Hmr%Hrem; rewrite En in Hmr; by apply elem_of_nil in Hmr).
    split; [done|]. split; [done|]. split; [intros mr Hmr; by destruct (Hno mr)|done].
  - assert (exists mr, mr ∈ failed) as [x Hx] by (destruct failed as [|x l]; [done|exists x; left]).
    split; [split; [done|intros Hno; destruct (Hno x); by apply Hrem]|]. split; [done|]. split.
    + intros mr Hmr%Hrem. rewrite drop_records_keep.
      * by apply (ListOwned_recorded d owned Hd Hl), Hin.
      * intros y Hy Ey. assert (y = mr) as -> by (apply (owned_keys d owned); auto). apply elem_of_rkeys. eauto.
    + intros mr Hmr Hn. apply drop_records_gone; [done|]. intros (y & Hy & Ey)%elem_of_rkeys. by apply (Hn y); [apply Hrem|].
Qed.

(** When the ownership map cannot be read (one damaged row is enough), a
    panic deletes no owned route, only runs the provider's sweep, and still
    clears every record and reports success. *)
Theorem Panic_unreadable (s : S) d e :
  ListOwned d = inl e -> Panic s (Some d) = (None, snd (FlushOwned s), Some (ClearOwned d)).
Proof. intros Hl. unfold Panic. rewrite Hl. simpl. by destruct (FlushOwned s). Qed.
End theorems.

(** ** Witnesses *)

Definition ex_owned_route := ex_route "1.1.1.1/32" "192.168.1.1" "en0".

(** A route the provider holds under another owner, whose delete fails. *)
Definition ex_stuck : Fake :=
  FailDelRoute "1.1.1.1/32" true (snd (AddRoute (unmanaged (mr_Route ex_owned_route)) New)).

Lemma ex_owned_db : owned_ok (AddOwned ex_time ex_owned_route ex_db).
Proof. apply AddOwned_ok, ex_db_ok. Qed.

Lemma ex_listed_wf (f : Fake) fam ks :
  Forall (fun k => route_wf k = true) (f_routesV4 f ++ f_routesV6 f) -> ListRoutes fam f = inr ks -> Forall (fun k => route_wf k = true) ks.
Proof.
  intros [H4 H6]%Forall_app. cbn. unfold fake_ListRoutes. repeat case_match; intros [= <-]; try done.
Qed.

Lemma Panic_keeps_records_witness :
  let '(err, f, st) := Panic (set_routesV4 ex_stuck (map (fun r => with_owner r OwnerSystem "" "") (f_routesV4 ex_stuck)))
                         (Some (AddOwned ex_time ex_owned_route ex_db)) in
  err <> None /\ exists d', st = Some d' /\ recorded d' (key_of ex_owned_route) = Some (Doc ex_owned_route).
Proof.
  set (f0 := set_routesV4 _ _). set (d0 := AddOwned ex_time ex_owned_route ex_db).
  destruct (Panic f0 (Some d0)) as [[err f] st] eqn:E.
  assert (f = snd (FlushOwned (after_deletes [ex_owned_route] f0))) as Ef.
  { transitivity (snd (fst (Panic f0 (Some d0)))); [by rewrite E|]. vm_compute. reflexivity. }
  destruct (Panic_keeps_records f0 f d0 [ex_owned_route] err st) as (_ & d' & Est & Herr & _ & Hkeep & _).
  - exact ex_owned_db.
  - vm_compute. reflexivity.
  - constructor; [vm_compute; reflexivity|constructor].
  - rewrite Ef. intros fam ks Hks. refine (ex_listed_wf _ fam ks _ Hks). vm_compute. repeat constructor.
  - exact E.
  - assert (ex_owned_route ∈ failed_deletes [ex_owned_route] f0 /\ may_remain f ex_owned_route) as Hrem.
    { rewrite Ef. split; [apply (bool_decide_unpack (ex_owned_route ∈ failed_deletes [ex_owned_route] f0)); vm_compute; exact I|].
      set (f1 := snd (FlushOwned (after_deletes [ex_owned_route] f0))).
      change (exists k, k ∈ f_routesV4 f1 ++ f_routesV6 f1 /\ rt_Cloned k = false /\ same_route k (mr_Route ex_owned_route) = true).
      exists (default (mr_Route ex_owned_route) (List.find (fun k => same_route k (mr_Route ex_owned_route)) (f_routesV4 f1))).
      split; [apply (bool_decide_unpack (_ ∈ f_routesV4 f1 ++ f_routesV6 f1)); vm_compute; exact I|split; vm_compute; reflexivity]. }
    split.
    + intros H. exact (proj1 Herr H ex_owned_route Hrem).
    + exists d'. split; [exact Est|]. apply Hkeep. exact Hrem.
Defined.

Definition ex_damaged : DB :=
  with_ownership ex_db (db_ownership (AddOwned ex_time ex_owned_route ex_db) ++
    [mkOwnedRow (mkOwnedKey "v4" "9.9.9.9/32" "" "") "" "" (Garbled "{")]).

Lemma Panic_unreadable_witness :
  let f := snd (AddRoute (unmanaged (mr_Route ex_owned_route)) New) in
  Panic (PurgeIface "utun3" f) (Some ex_damaged) =
    (None, snd (FlushOwned (PurgeIface "utun3" f)), Some (ClearOwned ex_damaged)).
Proof.
  intros f. apply (Panic_unreadable _ ex_damaged (Errorf "invalid character" ["{"])). vm_compute. reflexivity.
Defined.
