(* ===== verification/Recovery.v ===== *)
(** * Crash recovery (internal/safety/apply.go: RecoverPending, withoutTunnelLinks)

    A transaction is journaled before its first operation runs. If the daemon
    dies anywhere between that and its end, startup replays the plan's whole
    inverse, whatever part of the plan had run. Here that is shown to be right
    for every prefix of a plan, on the kernel [Reconcile]'s theorems use. *)

From S2P Require Import Prelude.
From S2P Require Import Netip NetipText Domain Reconcile Input.

(** A tunnel's on-link route being put back. *)
Definition tunnel_link (op : PlanOp) : bool :=
  match op_Kind op, op_Route op with
  | OpAddRoute, Some r =>
      (rt_Gateway (mr_Route r) =s? "") && negb (rt_Reject (mr_Route r)) && HasPrefix (mr_ProfileID r) TunnelProfilePrefix
  | _, _ => false
  end.

Definition withoutTunnelLinks (ops : list PlanOp) : list PlanOp := keep_if (fun op => negb (tunnel_link op)) ops.

(** ** One destination at a time *)

Section at_dst.
Context (x : string).

Definition route_step (v : option string) (op : PlanOp) : option string :=
  match op_Kind op, op_Route op with
  | OpAddRoute, Some r =>
      if bool_decide (dstKey (mr_Route r) = x) then match v with Some k => Some k | None => Some (RouteKey (mr_Route r)) end
      else v
  | OpDelRoute, Some r => if bool_decide (dstKey (mr_Route r) = x) then None else v
  | _, _ => v
  end.

Definition run_at (v : option string) (ops : list PlanOp) : option string := fold_left route_step ops v.

Definition at_dst (op : PlanOp) : bool :=
  match op_Kind op, op_Route op with
  | OpAddRoute, Some r | OpDelRoute, Some r => bool_decide (dstKey (mr_Route r) = x)
  | _, _ => false
  end.

Lemma run_ops_at ops : forall k, k_routes (run_ops k ops) !! x = run_at (k_routes k !! x) ops.
Proof.
  induction ops as [|op ops IH]; intros k; simpl; [done|]. rewrite IH. f_equal.
  unfold kernel_op, route_step. destruct (op_Kind op), (op_Route op) as [r|], (op_Rule op); try done; simpl;
    destruct (bool_decide (dstKey (mr_Route r) = x)) eqn:E; bool_hyps;
    first [done | apply lookup_delete_ne; done | rewrite <- E; apply lookup_delete_eq |
           destruct (k_routes k !! dstKey (mr_Route r)) eqn:Ek; simpl; [done|by rewrite lookup_insert_ne] |
           rewrite <- E; destruct (k_routes k !! dstKey (mr_Route r)) eqn:Ek; simpl; by rewrite ?lookup_insert_eq, ?Ek].
Qed.

(** The operations find at [x] what they expect. *)
Fixpoint clean_at (v : option string) (ops : list PlanOp) : Prop :=
  match ops with
  | [] => True
  | op :: ops' =>
      (at_dst op = true ->
       match op_Kind op, op_Route op with
       | OpAddRoute, _ => v = None
       | OpDelRoute, Some r => v = Some (RouteKey (mr_Route r))
       | _, _ => False
       end) /\ clean_at (route_step v op) ops'
  end.

Lemma run_clean_at ops : forall k, run_clean k ops -> clean_at (k_routes k !! x) ops.
Proof.
  induction ops as [|op ops IH]; intros k; simpl; [done|]. intros [Hc Hr]. split.
  - unfold at_dst, op_clean in *. destruct (op_Kind op), (op_Route op) as [r|], (op_Rule op); try done;
      intros E; bool_hyps; by rewrite <- E.
  - specialize (IH _ Hr). pose proof (run_ops_at [op] k) as E. unfold run_at in E. simpl in E. by rewrite <- E.
Qed.

(** The inverse of one operation, at [x]. *)
Lemma invert_step op platform inv w :
  invert_op op platform = Some inv ->
  run_at w inv =
  (if at_dst op then
     match op_Kind op, op_Route op with
     | OpAddRoute, _ => None
     | OpDelRoute, Some r => match w with Some k => Some k | None => Some (RouteKey (mr_Route r)) end
     | _, _ => w
     end
   else w) /\ Forall (fun o => at_dst o = at_dst op) inv.
Proof.
  unfold invert_op, at_dst. destruct (op_Kind op), (op_Route op) as [r|], (op_Rule op); simpl; intros; simplify_eq;
    unfold run_at; simpl; unfold route_step; simpl; repeat case_match; split; repeat constructor; done.
Qed.

Lemma run_at_app w l1 l2 : run_at w (l1 ++ l2) = run_at (run_at w l1) l2.
Proof. apply fold_left_app. Qed.

Lemma step_untouched v op : at_dst op = false -> route_step v op = v.
Proof. unfold at_dst, route_step. destruct (op_Kind op), (op_Route op); try done; by intros ->. Qed.

Lemma run_untouched_at l : forall w, Forall (fun op => at_dst op = false) l -> run_at w l = w.
Proof.
  unfold run_at. induction l as [|op l IH]; intros w H; simpl; [done|].
  apply Forall_cons in H as [Hop Hl]. rewrite step_untouched by done. by apply IH.
Qed.

Lemma wtl_app l1 l2 : withoutTunnelLinks (l1 ++ l2) = withoutTunnelLinks l1 ++ withoutTunnelLinks l2.
Proof. apply List.filter_app. Qed.

Lemma wtl_untouched l : Forall (fun op => at_dst op = false) l -> Forall (fun op => at_dst op = false) (withoutTunnelLinks l).
Proof. rewrite !Forall_forall. intros H op [Hop _]%elem_of_keep_if. by apply H. Qed.

Lemma invert_untouched ops platform : forall inv,
  invert ops platform = Some inv -> Forall (fun op => at_dst op = false) ops -> Forall (fun op => at_dst op = false) inv.
Proof.
  induction ops as [|op ops IH]; simpl; intros inv Hi Hf; [by simplify_eq|].
  apply Forall_cons in Hf as [Hop Hf]. destruct (invert ops platform) as [inv'|]; [|done]. simpl in Hi.
  destruct (invert_op op platform) as [o|] eqn:Eo; [|done]. simpl in Hi. simplify_eq.
  apply Forall_app. split; [by apply IH|]. destruct (invert_step op platform o None Eo) as [_ H].
  rewrite Hop in H. done.
Qed.

(** What the replayed inverse of one operation does at its destination. *)
Lemma wtl_invert_op op platform o w :
  at_dst op = true -> invert_op op platform = Some o ->
  match op_Kind op, op_Route op with
  | OpAddRoute, _ => run_at w (withoutTunnelLinks o) = None
  | OpDelRoute, Some r =>
      run_at w (withoutTunnelLinks o) = (match w with Some k => Some k | None => Some (RouteKey (mr_Route r)) end) \/
      (run_at w (withoutTunnelLinks o) = w /\ existsb (fun p => tunnel_link p && at_dst p) o = true)
  | _, _ => False
  end.
Proof.
  unfold invert_op, at_dst. destruct (op_Kind op), (op_Route op) as [r|]; try done; simpl; intros Ex [= <-];
    unfold withoutTunnelLinks; simpl.
  - unfold run_at. simpl. unfold route_step. simpl. by rewrite Ex.
  - destruct (tunnel_link (makeRouteOp OpAddRoute r platform)) eqn:Et; simpl.
    + right. rewrite Ex. done.
    + left. unfold run_at. simpl. unfold route_step. simpl. by rewrite Ex.
Qed.

(** From a free destination, the first operation there is an add, whose inverse
    comes last and frees it again. *)
Lemma recover_free ops platform : forall inv w,
  clean_at None ops -> invert ops platform = Some inv -> existsb at_dst ops = true ->
  run_at w (withoutTunnelLinks inv) = None.
Proof.
  induction ops as [|op ops IH]; simpl; intros inv w Hc Hi He; [done|].
  destruct Hc as [Hc Hr]. destruct (invert ops platform) as [inv'|]; [|done]. simpl in Hi.
  destruct (invert_op op platform) as [o|] eqn:Eo; [|done]. simpl in Hi. simplify_eq.
  rewrite wtl_app, run_at_app. destruct (at_dst op) eqn:Ex.
  - pose proof (wtl_invert_op op platform o (run_at w (withoutTunnelLinks inv')) Ex Eo) as H.
    specialize (Hc eq_refl). destruct (op_Kind op), (op_Route op); try done.
  - rewrite step_untouched in Hr by done. simpl in He. rewrite (IH inv' w Hr eq_refl He).
    apply run_untouched_at, wtl_untouched. destruct (invert_step op platform o None Eo) as [_ H]. by rewrite Ex in H.
Qed.

Lemma recover_at ops platform : forall v inv pre post,
  clean_at v ops -> invert ops platform = Some inv -> ops = pre ++ post ->
  run_at (run_at v pre) (withoutTunnelLinks inv) = v \/
  (run_at (run_at v pre) (withoutTunnelLinks inv) = None /\ existsb (fun p => tunnel_link p && at_dst p) inv = true).
Proof.
  induction ops as [|op ops IH]; simpl; intros v inv pre post Hc Hi Hs.
  { simplify_eq. symmetry in Hs. apply app_eq_nil in Hs as [-> ->]. by left. }
  destruct Hc as [Hc Hr]. destruct (invert ops platform) as [inv'|] eqn:Ei; [|done]. simpl in Hi.
  destruct (invert_op op platform) as [o|] eqn:Eo; [|done]. simpl in Hi. simplify_eq.
  rewrite wtl_app, run_at_app, existsb_app. destruct (at_dst op) eqn:Ex.
  - specialize (Hc eq_refl). pose proof (fun w => wtl_invert_op op platform o w Ex Eo) as Ho.
    destruct (op_Kind op) eqn:Ek, (op_Route op) as [r|] eqn:Er; try done.
    + left. by rewrite Ho, Hc.
    + left. by rewrite Ho, Hc.
    + assert (run_at (run_at v pre) (withoutTunnelLinks inv') = v \/
              run_at (run_at v pre) (withoutTunnelLinks inv') = None) as Hu.
      { assert (route_step v op = None) as Es
          by (unfold route_step; rewrite Ek, Er; unfold at_dst in Ex; by rewrite Ek, Er in Ex; rewrite Ex).
        rewrite Es in Hr. destruct (existsb at_dst ops) eqn:Et.
        - right. by eapply recover_free.
        - assert (Forall (fun p => at_dst p = false) ops) as Hf by (apply Forall_forall; by apply existsb_not_in).
          rewrite run_untouched_at by (eapply wtl_untouched, invert_untouched; done).
          destruct pre as [|p pre]; [by left|right]. simpl in Hs.
          injection Hs as Hop Hops. rewrite <- Hop. unfold run_at. simpl. rewrite Es.
          rewrite Hops in Hf. apply Forall_app in Hf as [Hf _]. by apply run_untouched_at. }
      destruct (Ho (run_at (run_at v pre) (withoutTunnelLinks inv'))) as [Hw|[Hw Hlink]]; rewrite Hw.
      * left. rewrite Hc in Hu |- *. by destruct Hu as [-> | ->].
      * destruct Hu as [Hu|Hu]; [by left|right]. rewrite Hu, Hlink. by rewrite orb_true_r.
  - rewrite (run_untouched_at (withoutTunnelLinks o)).
    2:{ apply wtl_untouched. destruct (invert_step op platform o None Eo) as [_ H]. by rewrite Ex in H. }
    rewrite step_untouched in Hr by done.
    assert (exists pre', run_at v pre = run_at v pre' /\ exists post', ops = pre' ++ post') as (pre' & -> & post' & ->).
    { destruct pre as [|p pre]; [exists []; split; [done|by exists ops]|]. simpl in Hs.
      injection Hs as <- Hops. exists pre. split; [|by exists post].
      unfold run_at. simpl. by rewrite step_untouched. }
    destruct (IH v inv' pre' post' Hr eq_refl eq_refl) as [H|[H1 H2]]; [by left|right]. by rewrite H2.
Qed.
End at_dst.

(** ** One rule at a time *)

Section at_rule.
Context (y : string).

Definition rule_step (b : bool) (op : PlanOp) : bool :=
  match op_Kind op, op_Rule op with
  | OpAddRule, Some r => bool_decide (RuleKey (ml_Rule r) = y) || b
  | OpDelRule, Some r => negb (bool_decide (RuleKey (ml_Rule r) = y)) && b
  | _, _ => b
  end.

Definition run_rule (b : bool) (ops : list PlanOp) : bool := fold_left rule_step ops b.

Definition at_rule (op : PlanOp) : bool :=
  match op_Kind op, op_Rule op with
  | OpAddRule, Some r | OpDelRule, Some r => bool_decide (RuleKey (ml_Rule r) = y)
  | _, _ => false
  end.

Lemma run_ops_rule ops : forall k, bool_decide (y ∈ k_rules (run_ops k ops)) = run_rule (bool_decide (y ∈ k_rules k)) ops.
Proof.
  induction ops as [|op ops IH]; intros k; simpl; [done|]. rewrite IH. f_equal. apply eq_true_iff_eq.
  unfold kernel_op, rule_step. destruct (op_Kind op), (op_Route op) as [r|], (op_Rule op) as [l|]; try done; simpl;
    rewrite ?orb_true_iff, ?andb_true_iff, ?negb_true_iff, ?bool_decide_eq_true, ?bool_decide_eq_false;
    try (repeat case_match; done); set_solver.
Qed.

Definition rule_expects (b : bool) (op : PlanOp) : Prop :=
  match op_Kind op with OpAddRule => b = false | OpDelRule => b = true | _ => False end.

Fixpoint clean_rule (b : bool) (ops : list PlanOp) : Prop :=
  match ops with
  | [] => True
  | op :: ops' => (at_rule op = true -> rule_expects b op) /\ clean_rule (rule_step b op) ops'
  end.

Lemma run_clean_rule ops : forall k, run_clean k ops -> clean_rule (bool_decide (y ∈ k_rules k)) ops.
Proof.
  induction ops as [|op ops IH]; intros k; simpl; [done|]. intros [Hc Hr]. split.
  - unfold at_rule, op_clean, rule_expects in *.
    destruct (op_Kind op), (op_Route op), (op_Rule op) as [l|]; try done; intros E; bool_hyps; rewrite <- E;
      first [by apply bool_decide_eq_false_2 | by apply bool_decide_eq_true_2].
  - specialize (IH _ Hr). pose proof (run_ops_rule [op] k) as E. unfold run_rule in E. simpl in E. by rewrite <- E.
Qed.

(** The replayed inverse of one operation: back to what it expected. *)
Lemma wtl_invert_rule op platform o b w :
  invert_op op platform = Some o -> (at_rule op = true -> rule_expects b op) ->
  run_rule w (withoutTunnelLinks o) = if at_rule op then b else w.
Proof.
  unfold invert_op, at_rule, rule_expects, run_rule, withoutTunnelLinks.
  destruct (op_Kind op), (op_Route op) as [r|], (op_Rule op) as [l|]; simpl; intros; simplify_eq; simpl;
    try done; try (case_if; done);
    unfold rule_step; simpl; destruct (bool_decide _) eqn:E; simpl; try done; by rewrite H0.
Qed.

Lemma recover_rule ops platform : forall b inv pre post,
  clean_rule b ops -> invert ops platform = Some inv -> ops = pre ++ post ->
  run_rule (run_rule b pre) (withoutTunnelLinks inv) = b.
Proof.
  induction ops as [|op ops IH]; simpl; intros b inv pre post Hc Hi Hs.
  { simplify_eq. symmetry in Hs. by apply app_eq_nil in Hs as [-> ->]. }
  destruct Hc as [Hc Hr]. destruct (invert ops platform) as [inv'|] eqn:Ei; [|done]. simpl in Hi.
  destruct (invert_op op platform) as [o|] eqn:Eo; [|done]. simpl in Hi. simplify_eq.
  rewrite wtl_app. unfold run_rule at 1. rewrite fold_left_app.
  fold (run_rule (run_rule b pre) (withoutTunnelLinks inv')). fold (run_rule (run_rule (run_rule b pre) (withoutTunnelLinks inv')) (withoutTunnelLinks o)).
  rewrite (wtl_invert_rule op platform o b _ Eo Hc). destruct (at_rule op) eqn:Ex; [done|].
  assert (rule_step b op = b) as Es.
  { unfold at_rule, rule_step in *. destruct (op_Kind op), (op_Rule op); try done; by rewrite Ex. }
  rewrite Es in Hr. destruct pre as [|p pre]; [by apply (IH b inv' [] ops)|]. simpl in Hs. injection Hs as <- Hops.
  unfold run_rule at 2. simpl. rewrite Es. by apply (IH b inv' pre post).
Qed.
End at_rule.

(** ** Theorem *)

(** C11: Crash recovery is right wherever the crash was: on a kernel that holds
    what RiftRoute owns, if the daemon dies after any prefix of a journaled
    plan (none of it, or all of it), replaying the plan's inverse the way
    startup does restores every rule and every destination. A destination for
    which the inverse would put back a tunnel's on-link route is the exception
    by design: that route is left out, so the destination may end up free. *)
Theorem crash_recovery D A DR AR platform k plan pre post :
  route_set D -> route_set A -> NoDup (ruleKeys DR) -> NoDup (ruleKeys AR) ->
  installed k A AR -> room k D A DR AR ->
  Reconcile D A DR AR platform = Some plan -> pl_Ops plan = pre ++ post ->
  let k' := run_ops (run_ops k pre) (withoutTunnelLinks (pl_Inverse plan)) in
  k_rules k' = k_rules k /\
  forall x, k_routes k' !! x = k_routes k !! x \/
    (k_routes k' !! x = None /\
     exists op, op ∈ pl_Inverse plan /\ tunnel_link op = true /\ at_dst x op = true).
Proof.
  intros HD HA HDR HAR Hin Hroom Hplan Hs.
  destruct (reconcile_run D A DR AR platform k) as [Hc _]; [done..|].
  unfold Reconcile in Hplan. destruct (invert _ platform) as [inv|] eqn:Ei; [|done]. simpl in Hplan.
  injection Hplan as <-. simpl in Hs |- *. split.
  - apply set_eq. intros y. rewrite <- !(bool_decide_eq_true (y ∈ _)).
    rewrite !run_ops_rule. rewrite (recover_rule y _ platform _ _ pre post (run_clean_rule y _ k Hc) Ei Hs).
    apply bool_decide_eq_true.
  - intros x. rewrite !run_ops_at.
    destruct (recover_at x _ platform _ _ pre post (run_clean_at x _ k Hc) Ei Hs) as [H|[H1 H2]]; [by left|right].
    split; [done|]. apply existsb_in in H2 as (op & Hop & H2). bool_hyps. eauto.
Qed.

(** ** Witness: a crash after the third of six operations *)

Lemma crash_recovery_witness :
  exists plan, Reconcile ex_desired ex_actual [ex_rule "to 1.0.0.0/8"] [ex_rule "to 10.0.0.0/8"] "linux" = Some plan /\
    k_rules (run_ops (run_ops ex_kernel (take 3 (pl_Ops plan))) (withoutTunnelLinks (pl_Inverse plan))) = k_rules ex_kernel.
Proof.
  set (ops := reconcile_ops ex_desired ex_actual [ex_rule "to 1.0.0.0/8"] [ex_rule "to 10.0.0.0/8"] "linux").
  exists (mkPlan ops (default [] (invert ops "linux"))). split; [vm_compute; reflexivity|].
  apply (crash_recovery ex_desired ex_actual [ex_rule "to 1.0.0.0/8"] [ex_rule "to 10.0.0.0/8"] "linux" ex_kernel
           (mkPlan ops (default [] (invert ops "linux"))) (take 3 ops) (drop 3 ops)).
  - apply (bool_decide_unpack (route_set _)); vm_compute; exact I.
  - apply (bool_decide_unpack (route_set _)); vm_compute; exact I.
  - apply (bool_decide_unpack (NoDup _)); vm_compute; exact I.
  - apply (bool_decide_unpack (NoDup _)); vm_compute; exact I.
  - apply (bool_decide_unpack (Reconcile.installed _ _ _)); vm_compute; exact I.
  - apply (bool_decide_unpack (room _ _ _ _ _)); vm_compute; exact I.
  - vm_compute. reflexivity.
  - symmetry. apply take_drop.
Defined.
