(* ===== verification/ApplyParts.v ===== *)
(** * The parts of an apply (internal/safety/apply.go, timing.go, snapshot.go)

    What the Apply Protocol computes without touching its state: options and
    results, a transaction's decisions, the diff of a plan, the guardrail of a
    hand-built plan, the timing of a change and the snapshot taken before it.
    Times are nanoseconds; the zero [time.Time] is 0. What a change records
    when it commits ([Options.OnCommit], a closure) is a value of a type [R];
    running it is appending it to a log. *)

From S2P Require Import Prelude.
From S2P Require Import Netip NetipText Domain Reconcile Provider Guardrails Watchdog LiveRepair.

(** ** Errors *)

Definition ErrGuardrail : error := Errorf "change refused by a guardrail" [].
Definition ErrApplyInProgress : error := Errorf "another apply is pending; try again" [].
Definition ErrNoSuchTx : error := Errorf "no such transaction" [].
Definition ErrPanicking : error := Errorf "a panic is flushing every managed route; try again" [].

Definition snapshotRetention : Z := 50.
Definition routeOpTxPrefix : string := "routeop-".

(** ** Options and results *)

Record Options (R : Type) : Type := mkOptions {
  o_DryRun : bool;
  o_Interactive : bool;
  o_Anchors : list string;
  o_K : Z;
  o_ProbeInterval : Z;
  o_ConfirmTimeout : Z;
  o_GuardWindow : Z;
  o_Actor : Actor;
  o_PhysGW : addr;
  o_SnapshotProfiles : option (list Profile);
  o_VetChangesOnly : bool;
  o_Unguarded : bool;
  o_OnCommit : option R;
  o_BuiltOnRecord : bool;
  o_Lendable : bool;
  o_Background : bool;
}.
Arguments mkOptions {R}.
Arguments o_DryRun {R}.
Arguments o_Interactive {R}.
Arguments o_Anchors {R}.
Arguments o_K {R}.
Arguments o_ProbeInterval {R}.
Arguments o_ConfirmTimeout {R}.
Arguments o_GuardWindow {R}.
Arguments o_Actor {R}.
Arguments o_PhysGW {R}.
Arguments o_SnapshotProfiles {R}.
Arguments o_VetChangesOnly {R}.
Arguments o_Unguarded {R}.
Arguments o_OnCommit {R}.
Arguments o_BuiltOnRecord {R}.
Arguments o_Lendable {R}.
Arguments o_Background {R}.

Definition UseGateway {R} (physGW : addr) (o : Options R) : Options R :=
  mkOptions (o_DryRun o) (o_Interactive o) (DefaultAnchors physGW) (o_K o) (o_ProbeInterval o) (o_ConfirmTimeout o)
    (o_GuardWindow o) (o_Actor o) physGW (o_SnapshotProfiles o) (o_VetChangesOnly o) (o_Unguarded o) (o_OnCommit o)
    (o_BuiltOnRecord o) (o_Lendable o) (o_Background o).

Definition window {R} (o : Options R) : Z :=
  if o_Interactive o then (if o_ConfirmTimeout o <=? 0 then 15 * Second else o_ConfirmTimeout o)
  else (if o_GuardWindow o <=? 0 then 30 * Second else o_GuardWindow o).

Record Result : Type := mkResult {
  rs_TxID : string;
  rs_Plan : Plan;
  rs_Diff : Diff;
  rs_Violations : list Violation;
  rs_Status : TxResult;
  rs_NeedsConfirm : bool;
  rs_Error : string;
}.

(** ** A transaction *)

Inductive decision : Type :=
| decCommit
| decRollback
| decRollbackWatchdog
| decRollbackUnconfirmed
| decRollbackShutdown.

#[export] Instance decision_eq_dec : EqDecision decision.
Proof. solve_decision. Defined.

Definition decision_code (d : decision) : string :=
  match d with
  | decRollbackWatchdog => "watchdog"
  | decRollbackUnconfirmed => "unconfirmed"
  | decRollbackShutdown => "shutdown"
  | _ => "requested"
  end.

Definition decision_why (d : decision) : string :=
  match d with
  | decRollbackWatchdog => "the connection was lost: no connectivity check answered, several times in a row"
  | decRollbackUnconfirmed => "not kept in time"
  | decRollbackShutdown => "the daemon stopped before it was kept"
  | _ => "reverted on request"
  end.

Inductive recState : Type := recOpen | recCommitted | recRolledBack.

#[export] Instance recState_eq_dec : EqDecision recState.
Proof. solve_decision. Defined.

(** [decided] is the buffer of a channel of capacity 4, the first decision at
    its head; [actor] is the argument its resolving goroutine was started
    with. *)
Record pendingTx (R : Type) : Type := mkPending {
  pt_id : string;
  pt_plan : Plan;
  pt_interactive : bool;
  pt_ownership : bool;
  pt_decided : list decision;
  pt_onCommit : option R;
  pt_rec : recState;
  pt_actor : Actor;
}.
Arguments mkPending {R}.
Arguments pt_id {R}.
Arguments pt_plan {R}.
Arguments pt_interactive {R}.
Arguments pt_ownership {R}.
Arguments pt_decided {R}.
Arguments pt_onCommit {R}.
Arguments pt_rec {R}.
Arguments pt_actor {R}.

Definition set_decided {R} (pt : pendingTx R) x : pendingTx R :=
  mkPending (pt_id pt) (pt_plan pt) (pt_interactive pt) (pt_ownership pt) x (pt_onCommit pt) (pt_rec pt) (pt_actor pt).
Definition set_record {R} (pt : pendingTx R) fn st : pendingTx R :=
  mkPending (pt_id pt) (pt_plan pt) (pt_interactive pt) (pt_ownership pt) (pt_decided pt) fn st (pt_actor pt).

(** A send that does not block: dropped when the buffer is full. *)
Definition decided_cap : nat := 4.

Definition decide_tx {R} (d : decision) (pt : pendingTx R) : pendingTx R :=
  if Nat.ltb (length (pt_decided pt)) decided_cap then set_decided pt (pt_decided pt ++ [d]) else pt.

(** ** How long a change took (timing.go) *)

Record timing : Type := mkMarks {
  mk_start : Z; mk_locked : Z; mk_built : Z; mk_vetted : Z; mk_done : Z }.

(** A part that was not marked took no time. *)
Definition mark_at (x prev : Z) : Z := if x =? 0 then prev else x.

Definition Millisecond : Z := 1000000.

Definition summary (t : option timing) : option ApplyTiming :=
  match t with
  | None => None
  | Some t =>
      if mk_done t =? 0 then None
      else
        let locked := mark_at (mk_locked t) (mk_start t) in
        let built := mark_at (mk_built t) locked in
        let vetted := mark_at (mk_vetted t) built in
        let since x := Z.quot (x - mk_start t) Millisecond in
        let l := since locked in
        let b := since built in
        let v := since vetted in
        let d := since (mk_done t) in
        Some (mkTiming d l (b - l) (v - b) (d - v))
  end.

(** ** The diff of a plan *)

Definition zeroRoute : Route := mkRoute "" "" "" 0 "" "" "" "" "" false false false.

Definition ruleAsRoute (r : option ManagedRule) : Route :=
  match r with
  | None => zeroRoute
  | Some r =>
      let dest := if negb (pr_RouteToIface (ml_Rule r) =s? "") then "→ " +:+ pr_RouteToIface (ml_Rule r)
                  else "→ table " +:+ pr_Table (ml_Rule r) in
      mkRoute (pr_Selector (ml_Rule r)) "" dest 0 (pr_Family (ml_Rule r)) OwnerRiftRoute "" "" "" false false false
  end.

(** One operation's entry, and whether it adds or removes; [None] is the nil
    pointer an add_route or del_route without a route is dereferenced at. *)
Definition diff_entry (op : PlanOp) : option (option DiffEntry) :=
  match op_Kind op with
  | OpAddRoute => r ← op_Route op; Some (Some (mkDiffEntry DiffAdd (mr_Route r)))
  | OpDelRoute => r ← op_Route op; Some (Some (mkDiffEntry DiffDel (mr_Route r)))
  | OpAddRule => Some (Some (mkDiffEntry DiffAdd (ruleAsRoute (op_Rule op))))
  | OpDelRule => Some (Some (mkDiffEntry DiffDel (ruleAsRoute (op_Rule op))))
  | OpOther _ => Some None
  end.

Fixpoint diff_loop (ops : list PlanOp) (d : Diff) : option Diff :=
  match ops with
  | [] => Some d
  | op :: ops' =>
      e ← diff_entry op;
      match e with
      | None => diff_loop ops' d
      | Some e =>
          let add := if de_Action e =s? DiffAdd then 1 else 0 in
          diff_loop ops' (mkDiff (di_Entries d ++ [e]) (di_Adds d + add) (di_Dels d + (1 - add)) (di_Changes d) (di_InSync d))
      end
  end.

Definition diffFromPlan (plan : Plan) : option Diff :=
  d ← diff_loop (pl_Ops plan) (mkDiff [] 0 0 0 false);
  Some (mkDiff (di_Entries d) (di_Adds d) (di_Dels d) (di_Changes d) (bool_decide (di_Entries d = []))).

(** ** The guardrail of a hand-built plan *)

(** The family whose main-table default an operation is about. *)
Definition default_family (op : PlanOp) : option string :=
  r ← op_Route op;
  if negb (rt_Table (mr_Route r) =s? "") then None
  else
    pfx ← ParsePrefix (rt_DstCIDR (mr_Route r));
    if negb (p_bits pfx =? 0) then None else Some (if Is6 (p_addr pfx) then "v6" else "v4").

Definition removed_step (removed : gset string) (op : PlanOp) : gset string :=
  match default_family op with
  | None => removed
  | Some fam =>
      match op_Kind op with
      | OpDelRoute => {[fam]} ∪ removed
      | OpAddRoute => removed ∖ {[fam]}
      | _ => removed
      end
  end.

Definition default_violation (fam : string) : Violation :=
  let def := if fam =s? "v6" then "::/0" else "0.0.0.0/0" in
  mkViolation "keep-default-route"
    ("refusing to remove the " +:+ fam +:+ " default route (" +:+ def +:+ ") without a replacement — edit it instead") [].

(** Go ranges over the map of at most two families in no particular order; here
    v4 comes first. *)
Definition checkPlanGuardrails (plan : Plan) : list Violation :=
  let removed := fold_left removed_step (pl_Ops plan) (∅ : gset string) in
  map default_violation (keep_if (fun fam => bool_decide (fam ∈ removed)) ["v4"; "v6"]).

Definition violationRules (vs : list Violation) : list string := map v_Rule vs.

(** [fmt.Sprint] of a list of strings. *)
Definition Sprint_strings (l : list string) : string := "[" +:+ String.concat " " l +:+ "]".

Definition violationSummary (vs : list Violation) : string := "guardrails: " +:+ Sprint_strings (violationRules vs).

(** ** The snapshot before a change (snapshot.go) *)

Definition defaultFrom (routes : list Route) (fam : Family) : DefaultRoute :=
  let def := if fam =s? FamilyV6 then "::/0" else "0.0.0.0/0" in
  match List.find (fun r => rt_DstCIDR r =s? def) routes with
  | Some r => mkDefaultRoute fam true (rt_Gateway r) (rt_Iface r) (rt_Owner r) false
  | None => mkDefaultRoute fam false "" "" OwnerUnknown false
  end.

Definition ok_or {A} (dflt : A) (x : error + A) : A := match x with inr a => a | inl _ => dflt end.

Section Capture.
Context {S : Type} `{!RouteProvider S}.

(** [now] is the creation time the caller's base snapshot carries. A failed
    read of the v4 table is an error; any other leaves its part empty. *)
Definition Capture (id reason : string) (now : Z) (s : S) : error + Snapshot :=
  match ListRoutes FamilyV4 s with
  | inl e => inl (Wrapf "snapshot v4 routes: %w" [] e)
  | inr v4 =>
      let v6 := ok_or [] (ListRoutes FamilyV6 s) in
      let rules4 := ok_or [] (ListRules FamilyV4 s) in
      let rules6 := ok_or [] (ListRules FamilyV6 s) in
      let dns := ok_or (mkDNSState [] [] "") (DNSConfig s) in
      inr (mkSnapshot id now reason v4 v6 (rules4 ++ rules6)
             [defaultFrom v4 FamilyV4; defaultFrom v6 FamilyV6] dns None false 0)
  end.
End Capture.

(** ** Theorems *)

Lemma removed_step_elem fam removed op :
  fam ∈ removed_step removed op <->
  if bool_decide (default_family op = Some fam) then
    match op_Kind op with OpDelRoute => True | OpAddRoute => False | _ => fam ∈ removed end
  else fam ∈ removed.
Proof.
  unfold removed_step. destruct (default_family op) as [f|] eqn:E.
  - destruct (decide (f = fam)) as [->|Hne].
    + rewrite bool_decide_true by done. destruct (op_Kind op); set_solver.
    + rewrite bool_decide_false by congruence. destruct (op_Kind op); set_solver.
  - by rewrite bool_decide_false.
Qed.

(** The last operation about a family's default is the one that counts. *)
Lemma removed_last ops fam : forall removed,
  fam ∈ fold_left removed_step ops removed <->
  (exists pre op post, ops = pre ++ op :: post /\ op_Kind op = OpDelRoute /\ default_family op = Some fam /\
     Forall (fun o => default_family o = Some fam -> op_Kind o <> OpAddRoute) post) \/
  (fam ∈ removed /\ Forall (fun o => default_family o = Some fam -> op_Kind o <> OpAddRoute) ops).
Proof.
  induction ops as [|op ops IH]; intros removed; simpl.
  { split; [by right|]. intros [(pre & op & post & H & _)|[H _]]; [by destruct pre|done]. }
  rewrite IH, removed_step_elem. split.
  - intros [(pre & x & post & -> & Hx)|[Hr Hall]]; [left; by exists (op :: pre), x, post|].
    destruct (bool_decide (default_family op = Some fam)) eqn:E; bool_hyps.
    + destruct (op_Kind op) eqn:Ek; try done; [left; by exists [], op, ops|..];
        (right; split; [done|]; constructor; [by rewrite Ek|done]).
    + right. split; [done|]. by constructor.
  - intros [([|y pre] & x & post & [= -> ->] & Hk & Hd & Hall)|[Hr Hall]].
    + right. by rewrite bool_decide_true, Hk by done.
    + left. by exists pre, x, post.
    + right. apply Forall_cons in Hall as [Ho Hall]. split; [|done].
      case_bool_decide as Ed; [|done]. specialize (Ho Ed). by destruct (op_Kind op).
Qed.

(** A plan made by hand is refused exactly when, for some family, it would
    leave the host without a main-table default route it removes: the last
    operation on that default, however its prefix is written, is a delete no
    add follows. *)
Theorem keeps_default_route plan :
  checkPlanGuardrails plan <> [] <->
  exists fam pre op post, pl_Ops plan = pre ++ op :: post /\ op_Kind op = OpDelRoute /\ default_family op = Some fam /\
    Forall (fun o => default_family o = Some fam -> op_Kind o <> OpAddRoute) post.
Proof.
  assert (checkPlanGuardrails plan <> [] <->
          exists fam, fam ∈ ["v4"; "v6"] /\ fam ∈ fold_left removed_step (pl_Ops plan) (∅ : gset string)) as ->.
  { unfold checkPlanGuardrails. rewrite map_nil, keep_if_nil. setoid_rewrite bool_decide_eq_false. split.
    - intros H. destruct (decide ("v4" ∈ fold_left removed_step (pl_Ops plan) (∅ : gset string)));
        [exists "v4"; set_solver|exists "v6"; split; [set_solver|]].
      destruct (decide ("v6" ∈ fold_left removed_step (pl_Ops plan) (∅ : gset string))); [done|].
      destruct H. intros x. rewrite !elem_of_cons, elem_of_nil. naive_solver.
    - intros (fam & H1 & H2) H. by apply (H fam H1). }
  setoid_rewrite removed_last. split.
  - intros (fam & _ & [(pre & op & post & H)|[H _]]); [by exists fam, pre, op, post|set_solver].
  - intros (fam & pre & op & post & E & Hk & Hd & Hp). exists fam. split; [|left; by exists pre, op, post].
    unfold default_family in Hd. destruct (op_Route op); [|done]. simpl in Hd. destruct (negb _); [done|].
    destruct (ParsePrefix _) as [pfx|]; [|done]. simpl in Hd. destruct (negb _); [done|]. injection Hd as <-.
    destruct (Is6 _); set_solver.
Qed.

(** The parts of a change's time are never negative and add up to its total
    exactly, in whole milliseconds, whichever parts were not marked. *)
Theorem timing_parts t tm :
  summary (Some t) = Some tm ->
  mk_start t <= mark_at (mk_locked t) (mk_start t) ->
  mark_at (mk_locked t) (mk_start t) <= mark_at (mk_built t) (mark_at (mk_locked t) (mk_start t)) ->
  mark_at (mk_built t) (mark_at (mk_locked t) (mk_start t)) <=
    mark_at (mk_vetted t) (mark_at (mk_built t) (mark_at (mk_locked t) (mk_start t))) ->
  mark_at (mk_vetted t) (mark_at (mk_built t) (mark_at (mk_locked t) (mk_start t))) <= mk_done t ->
  tm_WaitMS tm + tm_BuildMS tm + tm_CheckMS tm + tm_ExecMS tm = tm_TotalMS tm /\
  0 <= tm_WaitMS tm /\ 0 <= tm_BuildMS tm /\ 0 <= tm_CheckMS tm /\ 0 <= tm_ExecMS tm /\
  tm_TotalMS tm * Millisecond <= mk_done t - mk_start t < (tm_TotalMS tm + 1) * Millisecond.
Proof.
  unfold summary. destruct (mk_done t =? 0); [done|]. intros [= <-]. simpl.
  set (a := mark_at (mk_locked t) (mk_start t)). set (b := mark_at (mk_built t) a). set (c := mark_at (mk_vetted t) b).
  intros H1 H2 H3 H4.
  assert (forall x y, 0 <= x -> x <= y -> 0 <= Z.quot x Millisecond <= Z.quot y Millisecond) as Hm.
  { intros x y Hx Hy. split; [apply Z.quot_pos; unfold Millisecond; lia|apply Z.quot_le_mono; unfold Millisecond; lia]. }
  pose proof (Hm (a - mk_start t) (b - mk_start t)). pose proof (Hm (b - mk_start t) (c - mk_start t)).
  pose proof (Hm (c - mk_start t) (mk_done t - mk_start t)).
  pose proof (Z.quot_rem (mk_done t - mk_start t) Millisecond) as Hq.
  pose proof (Z.rem_bound_pos (mk_done t - mk_start t) Millisecond) as Hr.
  unfold Millisecond in *. split_and!; lia.
Qed.

Definition ex_marks : timing := mkMarks 5000000 0 7500000 0 9999999.

Lemma timing_parts_witness :
  summary (Some ex_marks) = Some (mkTiming 4 0 2 0 2) /\
  tm_TotalMS (mkTiming 4 0 2 0 2) * Millisecond <= mk_done ex_marks - mk_start ex_marks.
Proof.
  split; [vm_compute; reflexivity|].
  apply (timing_parts ex_marks (mkTiming 4 0 2 0 2)); vm_compute; first [reflexivity|discriminate].
Defined.

(** ** A reconcile's plan can always be inverted and shown *)

(** An operation carries what its kind is about. *)
Definition well_made (op : PlanOp) : Prop :=
  match op_Kind op with
  | OpAddRoute | OpDelRoute => is_Some (op_Route op)
  | OpAddRule | OpDelRule => is_Some (op_Rule op)
  | OpOther _ => False
  end.

Lemma route_ops_well_made platform r : well_made (makeRouteOp OpAddRoute r platform) /\ well_made (makeRouteOp OpDelRoute r platform).
Proof. split; by eexists. Qed.

Lemma replace_old_well_made l platform : forall rep ops,
  Forall well_made ops -> Forall well_made (snd (replace_old l rep ops platform)).
Proof.
  induction l as [|o l IH]; intros rep ops H; simpl; [done|]. case_if; [by apply IH|].
  apply IH, Forall_app. split; [done|]. constructor; [apply route_ops_well_made|done].
Qed.

Lemma route_adds_well_made l ar byDst platform : forall rep ops,
  Forall well_made ops -> Forall well_made (snd (route_adds l ar byDst rep ops platform)).
Proof.
  induction l as [|d l IH]; intros rep ops H; simpl; [done|]. case_if; [by apply IH|].
  pose proof (replace_old_well_made (default [] (byDst !! dstKey (mr_Route d))) platform rep ops H) as Ho.
  destruct (replace_old _ _ _ _) as [rep' ops']. apply IH, Forall_app. split; [done|].
  constructor; [apply route_ops_well_made|done].
Qed.

Lemma Forall_map_all {A B} (P : B -> Prop) (f : A -> B) l : (forall x, P (f x)) -> Forall P (map f l).
Proof. intros H. induction l; constructor; auto. Qed.

Lemma reconcile_well_made D A DR AR platform : Forall well_made (reconcile_ops D A DR AR platform).
Proof.
  unfold reconcile_ops.
  pose proof (route_adds_well_made D (indexRoutes A) (index_byDst (indexRoutes D) A) platform ∅ [] ltac:(done)) as H.
  destruct (route_adds _ _ _ _ _ _) as [rep adds]. simpl in H. rewrite !Forall_app.
  split_and!; [done|..]; apply Forall_map_all; intros x; first [apply route_ops_well_made|by eexists].
Qed.

Lemma invert_well_made ops platform : Forall well_made ops -> is_Some (invert ops platform).
Proof.
  induction 1 as [|op ops Ho _ [inv IH]]; simpl; [by eexists|]. rewrite IH. simpl.
  unfold well_made, invert_op in *. destruct (op_Kind op); try done; destruct Ho as [r ->]; by eexists.
Qed.

(** ** The diff of a reconcile's plan *)

Lemma diff_loop_spec ops : forall d,
  Forall well_made ops ->
  exists d', diff_loop ops d = Some d' /\
    length (di_Entries d') = (length (di_Entries d) + length ops)%nat /\
    di_Adds d' + di_Dels d' = di_Adds d + di_Dels d + Z.of_nat (length ops) /\
    di_Adds d' = di_Adds d + Z.of_nat (length (keep_if (fun op => bool_decide (op_Kind op = OpAddRoute) || bool_decide (op_Kind op = OpAddRule)) ops)) /\
    di_Changes d' = di_Changes d.
Proof.
  induction ops as [|op ops IH]; intros d H.
  { exists d. simpl. split_and!; [done|lia|lia|lia|done]. }
  apply Forall_cons in H as [Ho H]. cbn [diff_loop].
  assert (exists e, diff_entry op = Some (Some e) /\
    (de_Action e =s? DiffAdd) = (bool_decide (op_Kind op = OpAddRoute) || bool_decide (op_Kind op = OpAddRule))) as (e & -> & Ea).
  { unfold diff_entry, well_made in *. destruct (op_Kind op); try done; destruct Ho as [r Hr]; rewrite ?Hr; by eexists. }
  simpl. rewrite Ea.
  destruct (IH (mkDiff (di_Entries d ++ [e]) (di_Adds d + (if bool_decide (op_Kind op = OpAddRoute) || bool_decide (op_Kind op = OpAddRule) then 1 else 0))
     (di_Dels d + (1 - (if bool_decide (op_Kind op = OpAddRoute) || bool_decide (op_Kind op = OpAddRule) then 1 else 0))) (di_Changes d) (di_InSync d)))
    as (d' & -> & H1 & H2 & H3 & H4); [done|].
  exists d'. simpl in *. rewrite length_app in H1. simpl in H1.
  destruct (bool_decide (op_Kind op = OpAddRoute) || bool_decide (op_Kind op = OpAddRule)); simpl; split_and!; try done; lia.
Qed.

(** C39: Reconciling never fails: whatever is desired and whatever is installed,
    the plan has an inverse, and its diff exists: it has an entry per
    operation, counts the adds and the removals, and says in sync exactly when
    there is nothing to do. *)
Theorem plan_has_diff desired actual rules actualRules platform :
  exists plan d, Reconcile desired actual rules actualRules platform = Some plan /\ diffFromPlan plan = Some d /\
    length (di_Entries d) = length (pl_Ops plan) /\
    di_Adds d + di_Dels d = Z.of_nat (length (pl_Ops plan)) /\
    di_Adds d = Z.of_nat (length (keep_if (fun op => bool_decide (op_Kind op = OpAddRoute) ||
                                                    bool_decide (op_Kind op = OpAddRule)) (pl_Ops plan))) /\
    (di_InSync d = true <-> pl_Ops plan = []).
Proof.
  pose proof (reconcile_well_made desired actual rules actualRules platform) as Hw. unfold Reconcile.
  destruct (invert_well_made _ platform Hw) as [inv ->]. simpl.
  destruct (diff_loop_spec _ (mkDiff [] 0 0 0 false) Hw) as (d & Hd & H1 & H2 & H3 & _).
  eexists _, _. split; [reflexivity|]. unfold diffFromPlan. simpl. rewrite Hd. simpl. split; [reflexivity|]. simpl in *.
  split_and!; [done|lia|lia|]. rewrite bool_decide_eq_true, <- !length_zero_iff_nil. lia.
Qed.
