(* ===== verification/Protocol.v ===== *)
(** * The Apply Protocol (internal/safety/apply.go, lock.go)

    The transaction state machine around the executor: every change is built,
    vetted, journaled, executed, and then either commits or goes on probation
    until it is confirmed, its guard window closes, or a watchdog, a deadline
    or a caller rolls it back.

    The state holds the provider, the store, the transactions by id (the heap
    the code's pointers go to), the ids still registered as pending, the
    results, and the log of the records ([Options.OnCommit]) run; a record
    writes the store when it runs. A goroutine
    that resolves a transaction is the operation [resolve], which takes the
    first decision made; whoever waits for it ([<-pt.done]) runs it. A Go
    runtime panic of an operation is [None].

    The store is always there and its writes succeed; the protocol ignores
    their errors but for a warning. Progress reports and logs are not
    modelled, nor is a record that panics. *)

From S2P Require Import Prelude.
From S2P Require Import Netip NetipText Domain Reconcile Input Tunnels Installed Provider Executor.
From S2P Require Import Guardrails Watchdog LiveRepair Store Panic Recovery ApplyParts.

Section Protocol.
Context {S : Type} `{!RouteProvider S}.
(** What a change records when it commits. *)
Context {R : Type} `{!CommitRecord R}.
(** The platform plans are made for, how a time is written in the store, how
    an error reads, and the environment's SSH_CONNECTION. *)
Context (platform : string) (rfc3339nano : Z -> string) (ErrorText : error -> string) (ssh : string).

(** ** State *)

Record Protocol : Type := mkProtocol {
  p_prov : S;
  p_store : DB;
  p_live : liveRepair;
  p_heap : gmap string (pendingTx R);
  p_pending : list string;
  p_resolved : gmap string TxResult;
  p_idseq : Z;
  p_lastTx : Z;
  p_panicking : Z;
  p_locked : bool;
  p_quiesced : bool;
  p_lent : bool;
  p_records : list R;
  p_settled : Z;
  p_now : Z;
}.

Definition NewProtocol (prov : S) (st : DB) (now : Z) : Protocol :=
  mkProtocol prov st ∅ ∅ [] ∅ 0 0 0 false false false [] 0 now.

Definition set_prov (p : Protocol) x := mkProtocol x (p_store p) (p_live p) (p_heap p) (p_pending p) (p_resolved p) (p_idseq p) (p_lastTx p) (p_panicking p) (p_locked p) (p_quiesced p) (p_lent p) (p_records p) (p_settled p) (p_now p).
Definition set_store (p : Protocol) x := mkProtocol (p_prov p) x (p_live p) (p_heap p) (p_pending p) (p_resolved p) (p_idseq p) (p_lastTx p) (p_panicking p) (p_locked p) (p_quiesced p) (p_lent p) (p_records p) (p_settled p) (p_now p).
Definition set_live (p : Protocol) x := mkProtocol (p_prov p) (p_store p) x (p_heap p) (p_pending p) (p_resolved p) (p_idseq p) (p_lastTx p) (p_panicking p) (p_locked p) (p_quiesced p) (p_lent p) (p_records p) (p_settled p) (p_now p).
Definition set_heap (p : Protocol) x := mkProtocol (p_prov p) (p_store p) (p_live p) x (p_pending p) (p_resolved p) (p_idseq p) (p_lastTx p) (p_panicking p) (p_locked p) (p_quiesced p) (p_lent p) (p_records p) (p_settled p) (p_now p).
Definition set_pending (p : Protocol) x := mkProtocol (p_prov p) (p_store p) (p_live p) (p_heap p) x (p_resolved p) (p_idseq p) (p_lastTx p) (p_panicking p) (p_locked p) (p_quiesced p) (p_lent p) (p_records p) (p_settled p) (p_now p).
Definition set_resolved (p : Protocol) x := mkProtocol (p_prov p) (p_store p) (p_live p) (p_heap p) (p_pending p) x (p_idseq p) (p_lastTx p) (p_panicking p) (p_locked p) (p_quiesced p) (p_lent p) (p_records p) (p_settled p) (p_now p).
Definition set_idseq (p : Protocol) x := mkProtocol (p_prov p) (p_store p) (p_live p) (p_heap p) (p_pending p) (p_resolved p) x (p_lastTx p) (p_panicking p) (p_locked p) (p_quiesced p) (p_lent p) (p_records p) (p_settled p) (p_now p).
Definition set_lastTx (p : Protocol) x := mkProtocol (p_prov p) (p_store p) (p_live p) (p_heap p) (p_pending p) (p_resolved p) (p_idseq p) x (p_panicking p) (p_locked p) (p_quiesced p) (p_lent p) (p_records p) (p_settled p) (p_now p).
Definition set_panicking (p : Protocol) x := mkProtocol (p_prov p) (p_store p) (p_live p) (p_heap p) (p_pending p) (p_resolved p) (p_idseq p) (p_lastTx p) x (p_locked p) (p_quiesced p) (p_lent p) (p_records p) (p_settled p) (p_now p).
Definition set_lock (p : Protocol) l q t := mkProtocol (p_prov p) (p_store p) (p_live p) (p_heap p) (p_pending p) (p_resolved p) (p_idseq p) (p_lastTx p) (p_panicking p) l q t (p_records p) (p_settled p) (p_now p).
Definition set_records (p : Protocol) x := mkProtocol (p_prov p) (p_store p) (p_live p) (p_heap p) (p_pending p) (p_resolved p) (p_idseq p) (p_lastTx p) (p_panicking p) (p_locked p) (p_quiesced p) (p_lent p) x (p_settled p) (p_now p).
Definition set_settled (p : Protocol) x := mkProtocol (p_prov p) (p_store p) (p_live p) (p_heap p) (p_pending p) (p_resolved p) (p_idseq p) (p_lastTx p) (p_panicking p) (p_locked p) (p_quiesced p) (p_lent p) (p_records p) x (p_now p).
Definition set_now (p : Protocol) x := mkProtocol (p_prov p) (p_store p) (p_live p) (p_heap p) (p_pending p) (p_resolved p) (p_idseq p) (p_lastTx p) (p_panicking p) (p_locked p) (p_quiesced p) (p_lent p) (p_records p) (p_settled p) x.

Definition upd_store (f : DB -> DB) (p : Protocol) : Protocol := set_store p (f (p_store p)).

(** ** Records *)

Definition runRecord (fn : option R) (p : Protocol) : Protocol :=
  match fn with None => p | Some r => set_records (upd_store (run_record r) p) (p_records p ++ [r]) end.

Definition recordNow (o : Options R) (p : Protocol) : Protocol := runRecord (o_OnCommit o) p.

(** [beside] are pointers: what they point to now is in the heap. *)
Definition rec_of (p : Protocol) (id : string) : option recState := pt_rec <$> p_heap p !! id.

Definition take_place (fn : option R) (p : Protocol) (id : string) : Protocol :=
  match p_heap p !! id with
  | None => p
  | Some pt => set_heap p (<[id := set_record pt fn (pt_rec pt)]> (p_heap p))
  end.

(** The loop returns at the first one rolled back, before any open one is
    changed. *)
Definition recordUnchanged (o : Options R) (beside : list string) (p : Protocol) : Protocol :=
  match o_OnCommit o with
  | None => p
  | Some r =>
      if negb (bool_decide (beside = [])) && o_BuiltOnRecord o then p
      else if existsb (fun id => bool_decide (rec_of p id = Some recRolledBack)) beside then p
      else
        let open := keep_if (fun id => bool_decide (rec_of p id = Some recOpen)) beside in
        let p := fold_left (take_place (Some r)) open p in
        if bool_decide (open = []) then runRecord (Some r) p else p
  end.

Definition settleRecord (id : string) (commit : bool) (p : Protocol) : Protocol :=
  match p_heap p !! id with
  | None => p
  | Some pt =>
      if negb (bool_decide (pt_rec pt = recOpen)) then p
      else if commit then runRecord (pt_onCommit pt) (set_heap p (<[id := set_record pt None recCommitted]> (p_heap p)))
      else set_heap p (<[id := set_record pt None recRolledBack]> (p_heap p))
  end.

Definition tx (p : Protocol) (id : string) : option (pendingTx R) :=
  if bool_decide (id ∈ p_pending p) then p_heap p !! id else None.

Definition onProbation (p : Protocol) : list string :=
  keep_if (fun id => match tx p id with Some pt => pt_ownership pt | None => false end) (p_pending p).

Definition decide_id (id : string) (d : decision) (p : Protocol) : Protocol :=
  match p_heap p !! id with
  | None => p
  | Some pt => set_heap p (<[id := decide_tx d pt]> (p_heap p))
  end.

(** ** Audit and ownership *)

Definition audit (actor : Actor) (action result reason : string) (plan : option Plan) (rb : bool) (codes : list string)
    (p : Protocol) : Protocol :=
  upd_store (fun d => snd (AppendAudit rfc3339nano
    (mkAuditEvent 0 (p_now p) actor action "" plan result rb reason codes None) d)) p.

Definition auditApplied (actor : Actor) (action : string) (plan : Plan) (tm : option ApplyTiming) (p : Protocol) : Protocol :=
  upd_store (fun d => snd (AppendAudit rfc3339nano
    (mkAuditEvent 0 (p_now p) actor action "" (Some plan) "applied" false "" [] tm) d)) p.

Definition record_op (op : PlanOp) (d : DB) : DB :=
  match op_Route op with
  | None => d
  | Some r =>
      match op_Kind op with
      | OpAddRoute => AddOwned rfc3339nano r d
      | OpDelRoute => DelOwned r d
      | _ => d
      end
  end.

Definition recordOwnership (op : PlanOp) (p : Protocol) : Protocol := upd_store (record_op op) p.

Definition applyOwnership (plan : Plan) (undo : bool) (p : Protocol) : Protocol :=
  fold_left (fun p op => recordOwnership (if undo then inverseOp op else op) p) (pl_Ops plan) p.

Definition clearPending (id : string) (p : Protocol) : Protocol := upd_store (ClearPendingTx id) p.

(** ** Reading what is installed *)

Definition providerManaged (s : S) : list ManagedRoute :=
  [FamilyV4; FamilyV6] ≫= (fun fam =>
    match ListRoutes fam s with
    | inl _ => []
    | inr rs => map (fun r => mkMR r (rt_Profile r) 0) (keep_if (fun r => rt_Owner r =s? OwnerRiftRoute) rs)
    end).

Definition actualManaged (p : Protocol) : list ManagedRoute :=
  match ListOwned (p_store p) with inr owned => owned | inl _ => providerManaged (p_prov p) end.

Definition actualManagedRules (s : S) : list ManagedRule :=
  [FamilyV4; FamilyV6] ≫= (fun fam =>
    match ListRules fam s with
    | inl _ => []
    | inr rs => map (fun r => mkMRule r "" 0) (keep_if (fun r => pr_Proto r =s? "riftroute") rs)
    end).

Definition installed_now (owned desired : list ManagedRoute) (do_note tunnelsOnly : bool) (p : Protocol)
    : list ManagedRoute * Protocol :=
  let '(actual, live) := installed_routes owned desired do_note tunnelsOnly (p_now p) (p_live p) (p_prov p) in
  (actual, set_live p live).

(** The dry-run preview. *)
Definition Plan_preview (desired : list ManagedRoute) (rules : list ManagedRule) (p : Protocol) : option (Plan * Diff) :=
  let '(actual, _) := installed_now (actualManaged p) desired false false p in
  plan ← Reconcile desired actual rules (actualManagedRules (p_prov p)) platform;
  d ← diffFromPlan plan; Some (plan, d).

(** ** Resolving a transaction *)

(** Each operation of the inverse; those that fail are kept, the ownership map
    follows the others. *)
Fixpoint rollBack_loop (ops : list PlanOp) (ownership : bool) (remaining : list PlanOp) (err : option error) (p : Protocol)
    : list PlanOp * option error * Protocol :=
  match ops with
  | [] => (remaining, err, p)
  | op :: ops' =>
      let '(e, s) := do_op op (p_prov p) in
      let p := set_prov p s in
      match e with
      | Some e' =>
          rollBack_loop ops' ownership (remaining ++ [op]) (match err with None => Some e' | Some _ => err end) p
      | None => rollBack_loop ops' ownership remaining err (if ownership then recordOwnership op p else p)
      end
  end.

(** What was not undone, as a plan of its own. *)
Definition rollBack (pt : pendingTx R) (p : Protocol) : Plan * option error * Protocol :=
  let '(inv, err, p) := rollBack_loop (withoutTunnelLinks (pl_Inverse (pt_plan pt))) (pt_ownership pt) [] None p in
  (mkPlan (map inverseOp (reverse inv)) inv, err, p).

(** A second call changes nothing. *)
Definition finishTx (id : string) (result : TxResult) (p : Protocol) : Protocol :=
  match p_resolved p !! id with
  | Some _ => p
  | None =>
      let p := set_resolved p (<[id := result]> (p_resolved p)) in
      let p := set_pending p (keep_if (fun i => negb (i =s? id)) (p_pending p)) in
      set_settled p (p_settled p + 1)
  end.

(** The rest of [resolve] once a decision has come. *)
Definition resolve_with (d : decision) (pt : pendingTx R) (p : Protocol) : Protocol :=
  let id := pt_id pt in
  if bool_decide (d = decCommit) then
    let p := clearPending id p in
    let p := audit (pt_actor pt) "confirm" "committed" "" None false [] p in
    finishTx id TxCommitted (settleRecord id true p)
  else
    let p := settleRecord id false p in
    let '(undone, err, p) := rollBack pt p in
    match err with
    | Some e =>
        let p := upd_store (PutPendingTx id undone) p in
        finishTx id TxRolledBack (audit (pt_actor pt) "rollback" "rollback_incomplete" (ErrorText e) None true [] p)
    | None =>
        let p := clearPending id p in
        finishTx id TxRolledBack (audit (pt_actor pt) "rollback" "rolled_back" (decision_why d) None true [decision_code d] p)
    end.

(** The resolving goroutine of a registered transaction, when a decision is
    there to be read. *)
Definition resolve (id : string) (p : Protocol) : Protocol :=
  match tx p id with
  | None => p
  | Some pt =>
      match pt_decided pt with
      | [] => p
      | d :: ds => resolve_with d pt (set_heap p (<[id := set_decided pt ds]> (p_heap p)))
      end
  end.

(** What the resolving goroutine does when something it called panicked: it
    forces the transaction back, as well as that goes. The journal entry is
    left as it is. *)
Definition resolve_recover (pt : pendingTx R) (p : Protocol) : Protocol :=
  let p := settleRecord (pt_id pt) false p in
  let inverse := withoutTunnelLinks (pl_Inverse (pt_plan pt)) in
  let p := set_prov p (snd (RunOps inverse (p_prov p))) in
  let p := if pt_ownership pt then fold_left (fun p op => recordOwnership op p) inverse p else p in
  finishTx (pt_id pt) TxRolledBack p.

(** Decide and wait. *)
Definition settle (id : string) (d : decision) (p : Protocol) : Protocol := resolve id (decide_id id d p).

Definition is_interactive (p : Protocol) (id : string) : bool :=
  match tx p id with Some pt => pt_interactive pt | None => false end.

Definition supersedePending (p : Protocol) : option error * Protocol :=
  if existsb (is_interactive p) (p_pending p) then (Some ErrApplyInProgress, p)
  else (None, fold_left (fun p id => settle id decCommit p) (p_pending p) p).

(** ** Executing a plan *)

Definition nextTxID (p : Protocol) : string * Protocol :=
  let n := p_idseq p + 1 in ("tx-" +:+ pretty n, set_idseq p n).

Definition nextSnapID (p : Protocol) : string := "snap-" +:+ pretty (p_now p).

Definition takeSnapshot (o : Options R) (p : Protocol) : Protocol :=
  match Capture (nextSnapID p) "pre-apply" (p_now p) (p_prov p) with
  | inl _ => p
  | inr snap =>
      let profiles :=
        match o_SnapshotProfiles o with
        | Some profs => Some profs
        | None => match ListProfiles (p_store p) with inr profs => Some profs | inl _ => None end
        end in
      let snap := mkSnapshot (sn_ID snap) (sn_CreatedAt snap) (sn_Reason snap) (sn_RoutesV4 snap) (sn_RoutesV6 snap)
                    (sn_Rules snap) (sn_Defaults snap) (sn_DNS snap) profiles (sn_Restorable snap) (sn_Format snap) in
      upd_store (fun d => PruneSnapshots snapshotRetention (SaveSnapshot rfc3339nano snap d)) p
  end.

Definition register (pt : pendingTx R) (p : Protocol) : Protocol :=
  set_pending (set_heap p (<[pt_id pt := pt]> (p_heap p))) (p_pending p ++ [pt_id pt]).

(** The id and the start of a transaction, journaled before anything runs. *)
Definition begin_tx (o : Options R) (ownership : bool) (plan : Plan) (p : Protocol) : string * Protocol :=
  let '(id, p) := nextTxID p in
  let p := if o_Background o then p else set_lastTx p (p_now p) in
  let id := if ownership then id else routeOpTxPrefix +:+ TrimPrefix id "tx-" in
  (id, upd_store (PutPendingTx id plan) p).

(** Arming the guards changes nothing here: what they may do is decide. *)
Definition executePlan (action : string) (plan : Plan) (diff : Diff) (o : Options R) (ownership : bool)
    (tm : option timing) (p : Protocol) : Result * Protocol :=
  let '(id, p) := begin_tx o ownership plan p in
  match Apply plan (p_prov p) with
  | (Some err, s) =>
      let p := clearPending id (set_prov p s) in
      let p := audit (o_Actor o) action TxFailed (ErrorText err) (Some plan) true [] p in
      (mkResult "" plan diff [] TxFailed false (ErrorText err), p)
  | (None, s) =>
      let p := set_prov p s in
      let p := if ownership then applyOwnership plan false p else p in
      let p := auditApplied (o_Actor o) action plan (summary tm) p in
      if o_Unguarded o then
        let p := clearPending id p in
        let p := set_resolved p (<[id := TxCommitted]> (p_resolved p)) in
        let p := audit (o_Actor o) "confirm" "committed" "unguarded" None false [] p in
        (mkResult id plan diff [] TxCommitted false "", recordNow o p)
      else
        let pt := mkPending id plan (o_Interactive o) ownership [] (o_OnCommit o) recOpen (o_Actor o) in
        (mkResult id plan diff [] TxPending (o_Interactive o) "", register pt p)
  end.

(** ** Apply *)

(** An operation's outcome: a result, the error returned with it, the state. *)
Definition outcome : Type := Result * option error * Protocol.

Definition failed (plan : Plan) (diff : Diff) (vs : list Violation) (err : error) (p : Protocol) : outcome :=
  (mkResult "" plan diff vs TxFailed false (ErrorText err), Some err, p).

Definition emptyPlan : Plan := mkPlan [] [].
Definition emptyDiff : Diff := mkDiff [] 0 0 0 false.

(** Reading and planning. *)
Definition apply_plan (owned desired : list ManagedRoute) (rules : list ManagedRule) (o : Options R) (p : Protocol)
    : option (Plan * Diff * Protocol) :=
  let '(actual, p) := installed_now owned desired (negb (o_DryRun o)) (o_VetChangesOnly o) p in
  plan ← Reconcile desired actual rules (actualManagedRules (p_prov p)) platform;
  diff ← diffFromPlan plan; Some (plan, diff, p).

(** Vetting and executing what was planned. Other transactions may resolve
    between the two. *)
Definition apply_rest (plan : Plan) (diff : Diff) (desired : list ManagedRoute) (o : Options R) (beside : list string)
    (again : option (Protocol -> option outcome)) (tm : option timing) (p : Protocol) : option outcome :=
  if o_DryRun o then Some (mkResult "" plan diff [] TxPending false "", None, p)
  else
    let vet := if o_VetChangesOnly o then Some plan else None in
    let vs := checkGuardrails desired vet (o_PhysGW o) ssh (p_prov p) in
    if negb (bool_decide (vs = [])) then
      Some (failed plan diff vs ErrGuardrail
              (audit (o_Actor o) "apply" "refused" (violationSummary vs) (Some plan) false (violationRules vs) p))
    else if bool_decide (pl_Ops plan = []) then
      Some (mkResult "" plan diff [] TxCommitted false "", None, recordUnchanged o beside p)
    else
      match supersedePending p with
      | (Some err, p) => Some (failed plan diff [] err p)
      | (None, p) =>
          match again with
          | Some f => f p
          | None =>
              let '(r, p) := executePlan "apply" plan diff o true tm (takeSnapshot o p) in Some (r, None, p)
          end
      end.

Definition apply (owned desired : list ManagedRoute) (rules : list ManagedRule) (o : Options R) (beside : list string)
    (again : option (Protocol -> option outcome)) (tm : option timing) (p : Protocol) : option outcome :=
  '(plan, diff, p) ← apply_plan owned desired rules o p;
  apply_rest plan diff desired o beside again tm p.

(** Derives desired state from the routes owned, reading the provider and the
    store as they are then, and sets what in the options depends on the
    network. *)
Definition Build : Type :=
  Protocol -> list ManagedRoute -> Options R -> error + (list ManagedRoute * list ManagedRule * Options R).

(** A second build, from what the changes beside recorded, is the last one. *)
Definition applyBuilt_once (build : Build) (o : Options R) (tm : option timing) (p : Protocol) : option outcome :=
  let owned := actualManaged p in
  match build p owned o with
  | inl err => Some (failed emptyPlan emptyDiff [] err p)
  | inr (desired, rules, o') => apply owned desired rules o' [] None tm p
  end.

Definition applyBuilt (build : Build) (o : Options R) (beside : list string) (tm : option timing) (p : Protocol)
    : option outcome :=
  let owned := actualManaged p in
  match build p owned o with
  | inl err => Some (failed emptyPlan emptyDiff [] err p)
  | inr (desired, rules, o') =>
      let again := if negb (bool_decide (beside = [])) && o_BuiltOnRecord o'
                   then Some (applyBuilt_once build o tm) else None in
      apply owned desired rules o' beside again tm p
  end.

(** ** The apply lock

    A caller that finds the lock taken waits; it tries again when it is free,
    unless its context has ended ([ended]) by then. *)
Inductive lock_result : Type := Acquired | Refused (err : error) | Blocked.

Definition LockCtx (ended : option error) (p : Protocol) : lock_result :=
  match ended with
  | Some e => Refused e
  | None => if p_locked p then Blocked else Acquired
  end.

Definition lockApply (ended : option error) (p : Protocol) : lock_result :=
  if 0 <? p_panicking p then Refused ErrPanicking
  else
    match LockCtx ended p with
    | Refused e => Refused (Wrapf "gave up waiting for the change in progress: %w" [] e)
    | r => r
    end.

(** An operation under the lock runs to its end; [None] outside means it is
    still waiting. *)
Definition with_lock (ended : option error) (f : Protocol -> option outcome) (plan : Plan) (p : Protocol)
    : option (option outcome) :=
  match lockApply ended p with
  | Blocked => None
  | Refused err => Some (Some (failed plan emptyDiff [] err p))
  | Acquired => Some (f p)
  end.

Definition Apply_desired (ended : option error) (desired : list ManagedRoute) (rules : list ManagedRule) (o : Options R)
    (tm : option timing) (p : Protocol) : option (option outcome) :=
  with_lock ended (fun p => apply (actualManaged p) desired rules o (onProbation p) None tm p) emptyPlan p.

Definition ApplyBuilt (ended : option error) (build : Build) (o : Options R) (tm : option timing) (p : Protocol)
    : option (option outcome) :=
  if o_Lendable o && p_lent p then
    if 0 <? p_panicking p then Some (Some (failed emptyPlan emptyDiff [] ErrPanicking p))
    else Some (applyBuilt build o [] tm p)
  else with_lock ended (fun p => applyBuilt build o (onProbation p) tm p) emptyPlan p.

(** The body of [ApplyPlan], under the lock. *)
Definition apply_hand_built (action : string) (plan : Plan) (o : Options R) (tm : option timing) (p : Protocol)
    : option outcome :=
  diff ← diffFromPlan plan;
  if o_DryRun o then Some (mkResult "" plan diff [] TxPending false "", None, p)
  else
    let vs := checkPlanGuardrails plan in
    if negb (bool_decide (vs = [])) then
      Some (failed plan diff vs ErrGuardrail
              (audit (o_Actor o) action "refused" (violationSummary vs) (Some plan) false (violationRules vs) p))
    else if bool_decide (pl_Ops plan = []) then
      Some (mkResult "" plan diff [] TxCommitted false "", None, recordUnchanged o (onProbation p) p)
    else
      match supersedePending p with
      | (Some err, p) => Some (failed plan diff [] err p)
      | (None, p) =>
          let '(r, p) := executePlan action plan diff o false tm (takeSnapshot o p) in Some (r, None, p)
      end.

Definition ApplyPlan (ended : option error) (action : string) (plan : Plan) (o : Options R) (tm : option timing)
    (p : Protocol) : option (option outcome) :=
  with_lock ended (apply_hand_built action plan o tm) plan p.

(** ** Quiescing for an update *)

(** Why the daemon is not quiet: "a change is being applied", "a change is
    awaiting confirmation", "a change was made in the last (quiet)". *)
Inductive not_quiet : Type := BeingApplied | AwaitingConfirmation | MadeWithin (quiet : Z).

Definition TryQuiesce (quiet : Z) (p : Protocol) : option not_quiet * Protocol :=
  if p_locked p then (Some BeingApplied, p)
  else if negb (bool_decide (p_pending p = [])) then (Some AwaitingConfirmation, p)
  else if negb (p_lastTx p =? 0) && (p_now p - p_lastTx p <? quiet)
  then (Some (MadeWithin quiet), p)
  else (None, set_lock p true true (p_lent p)).

(** The release function [TryQuiesce] hands out, called by its holder; a second
    call does nothing. *)
Definition release (p : Protocol) : Protocol :=
  if p_quiesced p then set_lock p false false false else p.

Definition LendQuiesce (p : Protocol) : Protocol :=
  if p_quiesced p then set_lock p (p_locked p) (p_quiesced p) true else p.

Definition Busy (p : Protocol) : bool * Z :=
  (p_locked p || negb (bool_decide (p_pending p = [])), p_lastTx p).

(** ** Confirm, Rollback, Wait *)

Definition settle_by (d : decision) (id : string) (p : Protocol) : (error + TxResult) * Protocol :=
  match tx p id with
  | Some _ => let p := settle id d p in (inr (default "" (p_resolved p !! id)), p)
  | None => match p_resolved p !! id with Some r => (inr r, p) | None => (inl ErrNoSuchTx, p) end
  end.

Definition Confirm (id : string) (p : Protocol) : (error + TxResult) * Protocol := settle_by decCommit id p.
Definition Rollback (id : string) (p : Protocol) : (error + TxResult) * Protocol := settle_by decRollback id p.

(** The waiter is done once the transaction is no longer pending. *)
Definition Wait (id : string) (p : Protocol) : option (option TxResult) :=
  match tx p id with Some _ => None | None => Some (p_resolved p !! id) end.

(** ** Panic *)

Definition panic_begin (p : Protocol) : Protocol := set_panicking p (p_panicking p + 1).

Definition settleForPanic (p : Protocol) : Protocol :=
  fold_left (fun p id => settle id decCommit p) (onProbation p) p.

(** Under the lock, once [PanicSteps.Before] has run; [flushing] is the step of
    the caller's right before the flush, which writes records. *)
Definition panic_flush (actor : Actor) (flushing : option R) (p : Protocol) : option error * Protocol :=
  let p := settleForPanic p in
  let p := runRecord flushing p in
  let '(err, s, st) := Panic (p_prov p) (Some (p_store p)) in
  let p := set_store (set_prov p s) (default (p_store p) st) in
  let result := match err with None => "panicked" | Some _ => "panic-error" end in
  let p := audit actor "panic" result (match err with None => "" | Some e => ErrorText e end) None true [] p in
  let p := set_panicking p (p_panicking p - 1) in
  (err, set_settled p (p_settled p + 1)).

(** ** Startup and shutdown *)

Definition keySet (rs : list ManagedRoute) : gset string := list_to_set (map (fun r => RouteKey (mr_Route r)) rs).

(** Runs a mutation over a list; counts what went through. *)
Definition count_ok (f : ManagedRoute -> S -> option error * S) (rs : list ManagedRoute) (s : S) : Z * S :=
  fold_left (fun '(n, s) r => let '(e, s) := f r s in (match e with None => n + 1 | Some _ => n end, s)) rs (0, s).

Definition ReconcileOwnership (p : Protocol) : (error + Z * Z) * Protocol :=
  match ListOwned (p_store p) with
  | inl e => (inl e, p)
  | inr owned =>
      let actual := providerManaged (p_prov p) in
      let '(added, s) := count_ok AddRoute
        (keep_if (fun o => negb (bool_decide (RouteKey (mr_Route o) ∈ keySet actual))) owned) (p_prov p) in
      let '(removed, s) := count_ok DelRoute
        (keep_if (fun a => negb (bool_decide (RouteKey (mr_Route a) ∈ keySet owned))) actual) s in
      (inr (added, removed), set_prov p s)
  end.

Definition ShutdownResolve (p : Protocol) : Protocol :=
  fold_left (fun p id => settle id (if is_interactive p id then decRollbackShutdown else decCommit) p) (p_pending p) p.

Definition recover_one (p : Protocol) (entry : string * Plan) : Protocol :=
  let '(id, plan) := entry in
  let p := set_prov p (snd (RunOps (withoutTunnelLinks (pl_Inverse plan)) (p_prov p))) in
  let p := if HasPrefix id routeOpTxPrefix then p else applyOwnership plan true p in
  let p := clearPending id p in
  audit ActorDaemon "recover" "reverted_pending" ("crash recovery: reverted in-flight transaction " +:+ id) None true [] p.

(** [order] is the order in which Go ranges over the entries; the entries that
    cannot be read stay, and make the error. *)
Definition RecoverPending (order : gmap string Plan -> list (string * Plan)) (p : Protocol) : Z * list string * Protocol :=
  let '(pend, unreadable) := ListPendingTx (p_store p) in
  let entries := order pend in
  (Z.of_nat (length entries), unreadable, fold_left recover_one entries p).

(** A route of a previous run's tunnel; whether its record is dropped. *)
Definition drop_one (acc : Z * Protocol) (o : ManagedRoute) : Z * Protocol :=
  let '(n, p) := acc in
  if negb (HasPrefix (mr_ProfileID o) TunnelProfilePrefix) || rt_Reject (mr_Route o) then (n, p)
  else if negb (rt_Gateway (mr_Route o) =s? "") then
    match DelRoute o (p_prov p) with
    | (Some _, s) => (n, set_prov p s)
    | (None, s) => (n + 1, upd_store (DelOwned o) (set_prov p s))
    end
  else (n + 1, upd_store (DelOwned o) p).

Definition DropTunnelRoutes (p : Protocol) : (error + Z) * Protocol :=
  match ListOwned (p_store p) with
  | inl e => (inl e, p)
  | inr owned =>
      let '(n, p) := fold_left drop_one owned (0, p) in
      (inr n, if 0 <? n then
                audit ActorDaemon "recover" "dropped_tunnel_routes"
                  ("startup: forgot " +:+ pretty n +:+ " route(s) left by the previous run's tunnels") None false [] p
              else p)
  end.
End Protocol.
Arguments Protocol S R : clear implicits.
