(* ===== verification/LinuxFacts.v ===== *)
(** * What the Linux provider promises, and where it does not hold

    A rule reads back as the engine wrote it when ip reports its length; the
    text fallback reads a forwarding route as the JSON does; a flush deletes
    only what carries the tag. A per-app rule never reads back as written, so
    every later apply takes it away. *)

From Stdlib Require Import Ascii.
From S2P Require Import Prelude.
From S2P Require Import Netip NetipText Aggregate Domain Reconcile Input Tunnels Engine Provider Netmon Killswitch Update Text Config LinuxProvider Executor Protocol.

(** ** Keys *)

Lemma Join_head x l sep : exists t, Join (x :: l) sep = x +:+ t.
Proof. destruct l; [exists ""; by rewrite append_nil_r|]. by eexists. Qed.

Lemma ruleSelector_head r : exists t, ruleSelector r = "to " +:+ t \/ ruleSelector r = "from " +:+ t.
Proof.
  unfold ruleSelector. repeat case_if; cbn [app];
    match goal with |- exists t, Join (?x :: ?l) ?s = _ \/ _ => destruct (Join_head x l s) as [t ->] end; rewrite ?append_assoc; eauto.
Qed.

Lemma RuleKey_plain r : pr_RouteToIface r = "" ->
  RuleKey r = pretty (pr_Priority r) +:+ "|" +:+ pr_Selector r +:+ "|" +:+ pr_Table r +:+ "|" +:+ pr_Family r.
Proof. intros H. unfold RuleKey. rewrite H. cbn. by rewrite ?append_assoc. Qed.

(** Rules of the same key have selectors that start alike. *)
Lemma RuleKey_selector r1 r2 : pr_RouteToIface r1 = "" -> pr_RouteToIface r2 = "" -> RuleKey r1 = RuleKey r2 ->
  pr_Selector r1 +:+ "|" +:+ pr_Table r1 +:+ "|" +:+ pr_Family r1 = pr_Selector r2 +:+ "|" +:+ pr_Table r2 +:+ "|" +:+ pr_Family r2.
Proof. intros H1 H2. rewrite !RuleKey_plain by done. intros E. by apply bar_split in E as [_ ?]; [|apply pretty_Z_no_bar..]. Qed.

Lemma app_rule_key inp fam r : RuleKey (parse_rule fam r) <> RuleKey (app_rule inp).
Proof.
  intros E. apply RuleKey_selector in E; [|done..]. cbn [parse_rule app_rule pr_Selector] in E.
  destruct (ruleSelector_head r) as [t [H|H]]; rewrite H in E; done.
Qed.

(** ** Per-app rules *)

Section apps.
Context {W : Type} `{!LinuxHost W}.
#[local] Existing Instance LinuxProvider.

Lemma elem_of_actual (w : W) x : x ∈ actualManagedRules w -> exists fam r, ml_Rule x = parse_rule fam r.
Proof.
  unfold actualManagedRules. intros (fam & Hx & _)%list_elem_of_bind. destruct (ListRules fam w) as [|rs] eqn:E; [by apply elem_of_nil in Hx|].
  apply list_elem_of_fmap in Hx as (p & -> & [Hp _]%elem_of_keep_if). cbn in E. unfold linux_ListRules in E.
  destruct (Output _ w); [injection E as <-; by apply elem_of_nil in Hp|]. destruct (decode_rules _); injection E as <-; [|by apply elem_of_nil in Hp].
  apply list_elem_of_fmap in Hp as (r & -> & _). eauto.
Qed.

Lemma app_rule_unread (w : W) inp : RuleKey (app_rule inp) ∉ rules_of (actualManagedRules w).
Proof. rewrite elem_of_rules_of. intros (x & (fam & r & Hx)%elem_of_actual & E). rewrite Hx in E. by apply app_rule_key in E.
Qed.

(** a desired set with a per-app rule is never in sync on Linux: whatever
    the kernel holds, the rule as [ip] lists it (from all fwmark ...) never
    has the key of the rule as the engine writes it (fwmark ...), so every plan
    adds it again, and deletes the one that is listed. *)
Theorem app_rule_never_in_sync (w : W) inp pid desired routes rules platform :
  mkMRule (app_rule inp) pid (in_Now inp) ∈ rules ->
  let ops := reconcile_ops desired routes rules (actualManagedRules w) platform in
  makeRuleOp OpAddRule (mkMRule (app_rule inp) pid (in_Now inp)) platform ∈ ops /\
  (forall a, a ∈ actualManagedRules w -> RuleKey (ml_Rule a) ∉ rules_of rules -> makeRuleOp OpDelRule a platform ∈ ops).
Proof.
  intros Hin ops. unfold ops, reconcile_ops. cbv zeta. destruct (route_adds _ _ _ _ _ _) as [rep adds]. split.
  - apply elem_of_app. right. apply elem_of_app. left. apply list_elem_of_fmap. eexists. split; [reflexivity|]. apply elem_of_keep_if. split; [done|].
    apply negb_true_iff, not_true_iff_false. rewrite indexRules_has. apply (app_rule_unread w inp).
  - intros a Ha Hk. apply elem_of_app. right. apply elem_of_app. right. apply elem_of_app. left.
    apply list_elem_of_fmap. eexists. split; [reflexivity|]. apply elem_of_keep_if. split; [done|]. apply negb_true_iff, not_true_iff_false. by rewrite indexRules_has.
Qed.
End apps.

(** *** What an apply then does *)

(** The rule as [ip] lists it once it is installed. *)
Definition app_listed : ipRule := mkIpRule ModelBRulePrio "all" 0 "" 0 ModelBTable ModelBMark routeProtoNum "" "" None.

Definition app_add : list string :=
  ["ip"; "-4"; "rule"; "add"; "fwmark"; ModelBMark; "lookup"; ModelBTable; "priority"; pretty ModelBRulePrio; "protocol"; routeProtoNum].
Definition app_del : list string := ["ip"; "-4"; "rule"; "del"; "from"; "all"; "fwmark"; ModelBMark; "lookup"; ModelBTable; "priority"; pretty ModelBRulePrio].

Section reapply.
Context {W : Type} `{!LinuxHost W}.
#[local] Existing Instance LinuxProvider.

(** applying a per-app profile a second time takes its rule away. Where ip
    lists the installed rule, answers File exists to adding it again and
    deletes what it lists, the plan of the same desired rule runs without an
    error and its last command is the deletion of that rule: the apply reports
    success and the app's traffic is no longer steered. *)
Theorem reapply_drops_app_rule (w w' : W) inp pid out4 out6 out e out' :
  in_Platform inp = "linux" ->
  Output ["ip"; "-j"; "-4"; "rule"; "show"] w = inr out4 -> decode_rules out4 = Some [app_listed] ->
  Output ["ip"; "-j"; "-6"; "rule"; "show"] w = inr out6 -> decode_rules out6 = Some [] ->
  CombinedOutput app_add w = (out, Some e, w) -> Contains_str out "File exists" = true ->
  CombinedOutput app_del w = (out', None, w') ->
  exists plan, Reconcile [] [] [mkMRule (app_rule inp) pid (in_Now inp)] (actualManagedRules w) "linux" = Some plan /\
  Executor.Apply plan w = (None, w').
Proof.
  intros Hp H4 D4 H6 D6 Ha Hf Hd.
  assert (actualManagedRules w = [mkMRule (parse_rule FamilyV4 app_listed) "" 0]) as ->.
  { unfold actualManagedRules. cbn [mbind list_bind ListRules LinuxProvider]. unfold linux_ListRules.
    change (famFlag FamilyV4) with "-4". change (famFlag FamilyV6) with "-6". by rewrite H4, D4, H6, D6. }
  unfold app_rule. rewrite Hp. set (mr := mkMRule _ pid _). set (old := mkMRule _ "" 0).
  assert (Reconcile [] [] [mr] [old] "linux" =
          Some (mkPlan [makeRuleOp OpAddRule mr "linux"; makeRuleOp OpDelRule old "linux"] [makeRuleOp OpAddRule old "linux"; makeRuleOp OpDelRule mr "linux"])) as ->
    by (vm_compute; reflexivity).
  eexists. split; [reflexivity|]. unfold Executor.Apply. cbn [pl_Ops apply_loop do_op makeRuleOp op_Kind op_Rule AddRule DelRule LinuxProvider].
  assert ("ip" :: ruleArgs "add" mr ++ ["protocol"; routeProtoNum] = app_add) as Ea by (vm_compute; reflexivity).
  assert ("ip" :: ruleArgs "del" old = app_del) as Ed by (vm_compute; reflexivity).
  unfold linux_AddRule. cbv zeta. rewrite Ea, Ha, Hf. unfold linux_DelRule, ip_run. by rewrite Ed, Hd.
Qed.
End reapply.

(** ** Rules that read back *)

Lemma withLen_prefix p : prefix_ok p -> pfx_IsValid p = true -> 0 < p_bits p -> withLen (addr_String (p_addr p)) (p_bits p) = prefix_String p.
Proof.
  intros Hok Hv Hb. destruct (valid_IsValid p Hok Hv) as [Ha _]. destruct Hok as (Hao & Hz & _). unfold withLen, prefix_String. rewrite Hv.
  rewrite no_slash_contains by (by apply addr_chars_no_slash, addr_String_chars). rewrite (proj2 (Z.leb_gt _ _)) by done.
  destruct (String.eqb_spec (addr_String (p_addr p)) "") as [E|]; [|done].
  pose proof (ParseAddr_String _ Hao Ha) as H. by rewrite E in H.
Qed.

(** a destination rule reads back as it was written when ip reports its
    length, so it is recognized, kept and deleted as ours; one reported without
    a length, as ip does for a single host, never matches and would be replaced
    by every apply. *)
Theorem dest_rule_reads_back inp fam p src :
  in_Platform inp = "linux" -> canon p -> 0 < p_bits p ->
  let listed len := mkIpRule ModelBRulePrio src 0 (addr_String (p_addr p)) len ModelBTable "" routeProtoNum "" "" None in
  parse_rule fam (listed (p_bits p)) = dest_rule inp fam p /\ RuleKey (parse_rule fam (listed 0)) <> RuleKey (dest_rule inp fam p).
Proof.
  intros Hp (Hok & _ & Hv) Hb listed. pose proof (withLen_prefix p Hok Hv Hb) as Hw.
  assert (addr_String (p_addr p) =s? "" = false) as Hne.
  { apply String.eqb_neq. intros E. rewrite E in Hw. unfold prefix_String in Hw. rewrite Hv, E in Hw. cbn in Hw. done. }
  assert (forall len, ruleSelector (listed len) = "to " +:+ withLen (addr_String (p_addr p)) len) as Hs.
  { intros len. unfold ruleSelector, listed. cbn [il_Dst il_DstLen il_FwMark il_IifName il_OifName il_SuppressPrefixLen]. by rewrite Hne. }
  split.
  - unfold parse_rule, dest_rule. rewrite Hs, Hw, Hp. done.
  - intros E%RuleKey_selector; [|done..]. unfold parse_rule, dest_rule in E. cbn [pr_Selector pr_Table pr_Family il_Table] in E. rewrite Hs in E.
    unfold prefix_String in E. rewrite Hv in E. unfold withLen in E. rewrite orb_true_r in E.
    change (il_Table (listed 0)) with ModelBTable in E. rewrite !append_assoc in E. apply (append_inj_l "to ") in E. apply append_inj_l in E. done.
Qed.

(** ** Text and JSON *)

Definition keyword (w : string) : bool := (w =s? "via") || (w =s? "dev") || (w =s? "proto") || (w =s? "metric").

(** A word ip prints as a value. *)
Definition value (w : string) : Prop := w <> "" /\ str_forall (fun c => negb (is_space c)) w = true /\ keyword w = false.

(** One line of [ip route show] for a forwarding route. *)
Definition line_words (dst gw dev proto metric : string) : list string :=
  [dst] ++ (if gw =s? "" then [] else ["via"; gw]) ++ ["dev"; dev] ++ (if proto =s? "" then [] else ["proto"; proto]) ++
  (if metric =s? "" then [] else ["metric"; metric]).

Lemma read_value v f x : keyword v = false -> read_words (v :: f) x = read_words f x.
Proof.
  intros Hk. unfold keyword in Hk. repeat (apply orb_false_elim in Hk as [Hk ?]). destruct f as [|k f]; [done|]. cbn [read_words].
  by repeat match goal with H : _ =s? _ = false |- _ => rewrite H; clear H end.
Qed.

(** an ip without JSON is read the same: the line it prints for a
    forwarding route gives the route the JSON object gives, gateway, device,
    protocol and metric present or not, unless a name is one of the words the
    line is made of. *)
Theorem text_reads_as_json family dst gw dev proto metric m table scope :
  value dst -> rejectType dst = false -> dst <> "unicast" -> value dev -> (gw = "" \/ value gw) -> (proto = "" \/ value proto) ->
  (metric = "" /\ m = 0 \/ value metric /\ Atoi metric = Some m) ->
  parse_line family (Join (line_words dst gw dev proto metric) " ") = Some (parse_route family (mkIpRoute "" dst gw dev proto m table scope)).
Proof.
  intros Hdst Hr Hu Hdev Hgw Hproto Hm. unfold parse_line. rewrite Fields_words.
  2: { unfold line_words, value in *. repeat (apply Forall_app; split); repeat case_if; repeat constructor; naive_solver. }
  unfold line_words. cbn [app]. rewrite Hr. destruct (String.eqb_spec dst "unicast"); [done|]. unfold parse_route. cbn [ir_Type ir_Dst ir_Gateway ir_Dev ir_Protocol ir_Metric].
  cbn [rejectType String.eqb orb]. cbv zeta. set (f := (if gw =s? "" then [] else _) ++ _).
  assert (read_words f no_words = mkWords gw dev proto m) as ->; [|done]. unfold f. clear f.
  destruct Hdev as (Hdev & _ & Kdev).
  assert (forall x, read_words ((if proto =s? "" then [] else ["proto"; proto]) ++ (if metric =s? "" then [] else ["metric"; metric])) x =
    mkWords (w_via x) (w_dev x) (if proto =s? "" then w_proto x else proto) (if metric =s? "" then w_metric x else m)) as Htail.
  { intros x. assert (forall y, read_words (if metric =s? "" then [] else ["metric"; metric]) y =
      mkWords (w_via y) (w_dev y) (w_proto y) (if metric =s? "" then w_metric y else m)) as Hmet.
    { intros y. destruct Hm as [[-> ->]|[(Hne & _) Hat]]; [by destruct y|]. rewrite (proj2 (String.eqb_neq _ _) Hne). cbn. by rewrite Hat. }
    destruct Hproto as [->|(Hne & _ & Kp)]; [cbn [String.eqb app]; apply Hmet|]. rewrite (proj2 (String.eqb_neq _ _) Hne). cbn [app].
    change (read_words ("proto" :: proto :: ?r) x) with (read_words (proto :: r) (mkWords (w_via x) (w_dev x) proto (w_metric x))).
    rewrite read_value by done. by rewrite Hmet. }
  assert (forall x, read_words ("dev" :: dev :: (if proto =s? "" then [] else ["proto"; proto]) ++ (if metric =s? "" then [] else ["metric"; metric])) x =
    mkWords (w_via x) dev (if proto =s? "" then w_proto x else proto) (if metric =s? "" then w_metric x else m)) as Hd.
  { intros x. change (read_words ("dev" :: dev :: ?r) x) with (read_words (dev :: r) (mkWords (w_via x) dev (w_proto x) (w_metric x))).
    rewrite read_value by done. by rewrite Htail. }
  assert ((if proto =s? "" then "" else proto) = proto) as Ep by (by destruct (String.eqb_spec proto "") as [->|]).
  assert ((if metric =s? "" then 0 else m) = m) as Em.
  { destruct Hm as [[-> ->]|[(Hne & _) _]]; [done|]. by rewrite (proj2 (String.eqb_neq _ _) Hne). }
  destruct Hgw as [->|(Hne & _ & Kg)].
  - cbn [String.eqb app]. rewrite Hd. cbn [w_proto w_metric w_via no_words]. by rewrite Ep, Em.
  - rewrite (proj2 (String.eqb_neq _ _) Hne). cbn [app].
    change (read_words ("via" :: gw :: ?r) no_words) with (read_words (gw :: r) (mkWords gw "" "" 0)). rewrite read_value by done. rewrite Hd. cbn [w_proto w_metric w_via].
    by rewrite Ep, Em.
Qed.

(** A refusing route does not read the same: the text keeps its device, the
    JSON drops it, and with it the key. *)
Lemma reject_text_differs :
  parse_line FamilyV6 "unreachable 2001:db8::/32 dev lo proto 152 metric 1024" <>
  Some (parse_route FamilyV6 (mkIpRoute "unreachable" "2001:db8::/32" "" "lo" "152" 1024 "" "")).
Proof. vm_compute. discriminate. Qed.

(** ** Witnesses *)

(** A host whose only rule is the per-app one, installed or not. *)
Definition toy_ip : LinuxHost bool := {|
  Output args w := inr (if bool_decide (args = ["ip"; "-j"; "-4"; "rule"; "show"]) && w then "[rule]" else "[]");
  CombinedOutput args w :=
    if bool_decide (args = app_del) then (if w then ("", None, false) else ("No such file", Some (Errorf "exit status 2" []), false))
    else if bool_decide (args = app_add) then (if w then ("RTNETLINK answers: File exists", Some (Errorf "exit status 2" []), true) else ("", None, true))
    else ("", None, w);
  decode_routes _ := Some [];
  decode_rules s := Some (if s =s? "[rule]" then [app_listed] else []);
  net_Interfaces _ := inr [];
  resolv_conf _ := inr "";
|}.

Definition ex_input : DesiredInput :=
  mkDesiredInput [] AddrZero AddrZero "" "" PrefixZero PrefixZero AddrZero AddrZero "" "" ∅ ∅ [] [] [] [] [] "" false "linux" true 0.

Lemma app_rule_never_in_sync_witness :
  makeRuleOp OpAddRule (mkMRule (app_rule ex_input) "p" 0) "linux" ∈
  reconcile_ops [] [] [mkMRule (app_rule ex_input) "p" 0] (actualManagedRules (RouteProvider0 := LinuxProvider (LinuxHost0 := toy_ip)) true) "linux".
Proof.
  apply (app_rule_never_in_sync (LinuxHost0 := toy_ip) true ex_input "p" [] [] [mkMRule (app_rule ex_input) "p" 0] "linux"). left.
Defined.

Lemma reapply_drops_app_rule_witness :
  exists plan, Reconcile [] [] [mkMRule (app_rule ex_input) "p" 0] (actualManagedRules (RouteProvider0 := LinuxProvider (LinuxHost0 := toy_ip)) true) "linux" = Some plan /\
  Executor.Apply (RouteProvider0 := LinuxProvider (LinuxHost0 := toy_ip)) plan true = (None, false).
Proof.
  apply (reapply_drops_app_rule (LinuxHost0 := toy_ip) true false ex_input "p" "[rule]" "[]" "RTNETLINK answers: File exists" (Errorf "exit status 2" []) "");
    vm_compute; reflexivity.
Defined.

Lemma dest_rule_reads_back_witness :
  parse_rule FamilyV4 (mkIpRule ModelBRulePrio "all" 0 "10.0.0.0" 8 ModelBTable "" routeProtoNum "" "" None) = dest_rule ex_input FamilyV4 (mkPrefix (Addr4 167772160) 8).
Proof.
  apply (dest_rule_reads_back ex_input FamilyV4 (mkPrefix (Addr4 167772160) 8) "all").
  - reflexivity.
  - apply (bool_decide_unpack (canon (mkPrefix (Addr4 167772160) 8))). vm_compute. exact I.
  - reflexivity.
Defined.

Lemma text_reads_as_json_witness :
  parse_line FamilyV4 "default via 192.168.1.1 dev eth0 proto dhcp metric 100" =
  Some (parse_route FamilyV4 (mkIpRoute "" "default" "192.168.1.1" "eth0" "dhcp" 100 "" "")).
Proof.
  apply (text_reads_as_json FamilyV4 "default" "192.168.1.1" "eth0" "dhcp" "100" 100 "" "").
  - split; [discriminate|split; reflexivity].
  - reflexivity.
  - discriminate.
  - split; [discriminate|split; reflexivity].
  - right. split; [discriminate|split; reflexivity].
  - right. split; [discriminate|split; reflexivity].
  - right. split; [split; [discriminate|split; reflexivity]|vm_compute; reflexivity].
Defined.
