(* ===== verification/ProtocolFacts.v ===== *)
(** * The Apply Protocol: invariants and outcomes

    What holds of every state the protocol can reach, whatever decisions come
    and however resolving transactions and applies interleave; what settling a
    transaction does on each branch; what an apply that does not execute
    leaves alone; what a panic, a shutdown and a quiesced daemon guarantee. *)

From S2P Require Import Prelude.
From S2P Require Import Netip NetipText Domain Reconcile Input Tunnels Installed Provider FakeProvider Executor.
From S2P Require Import Guardrails Watchdog LiveRepair Store Panic Recovery ApplyParts Protocol.

(** ** What the operations change *)

Section Frames.
Context {S : Type} `{!RouteProvider S} {R : Type} `{!CommitRecord R}.
Context (platform : string) (rfc3339nano : Z -> string) (ErrorText : error -> string) (ssh : string).
Abbreviation Proto := (Protocol S R).

(** [p'] is [p] with another kernel and other ownership records. *)
Definition kernel_step (p p' : Proto) : Prop :=
  exists s ow, p' = set_store (set_prov p s) (with_ownership (p_store p) ow).

Lemma kernel_step_refl p : kernel_step p p.
Proof. exists (p_prov p), (db_ownership (p_store p)). by destruct p as [? [] ? ? ? ? ? ? ? ? ? ? ? ? ?]. Qed.

Lemma kernel_step_trans p1 p2 p3 : kernel_step p1 p2 -> kernel_step p2 p3 -> kernel_step p1 p3.
Proof. intros (s & ow & ->) (s' & ow' & ->). exists s', ow'. by destruct p1 as [? [] ? ? ? ? ? ? ? ? ? ? ? ? ?]. Qed.

Lemma recordOwnership_step op (p : Proto) : kernel_step p (recordOwnership rfc3339nano op p).
Proof.
  unfold recordOwnership, upd_store, record_op.
  destruct (op_Route op) as [r|], (op_Kind op);
    first [eexists (p_prov p), _; reflexivity
          |exists (p_prov p), (db_ownership (p_store p)); by destruct p as [? [] ? ? ? ? ? ? ? ? ? ? ? ? ?]].
Qed.

Lemma set_prov_step (p : Proto) s : kernel_step p (set_prov p s).
Proof. exists s, (db_ownership (p_store p)). by destruct p as [? [] ? ? ? ? ? ? ? ? ? ? ? ? ?]. Qed.

Lemma applyOwnership_step plan undo (p : Proto) : kernel_step p (applyOwnership rfc3339nano plan undo p).
Proof.
  unfold applyOwnership. generalize (pl_Ops plan). intros ops. revert p.
  induction ops as [|op ops IH]; intros p; simpl; [apply kernel_step_refl|].
  eapply kernel_step_trans; [apply recordOwnership_step|apply IH].
Qed.

Lemma rollBack_loop_step ops own : forall l e (p : Proto), kernel_step p (snd (rollBack_loop rfc3339nano ops own l e p)).
Proof.
  induction ops as [|op ops IH]; intros l e p; simpl; [apply kernel_step_refl|].
  destruct (do_op op (p_prov p)) as [[e'|] s]; (eapply kernel_step_trans; [|apply IH]); [apply set_prov_step|].
  destruct own; [|apply set_prov_step].
  eapply kernel_step_trans; [apply set_prov_step|apply recordOwnership_step].
Qed.

Lemma rollBack_step pt (p : Proto) : kernel_step p (snd (rollBack rfc3339nano pt p)).
Proof.
  unfold rollBack. pose proof (rollBack_loop_step (withoutTunnelLinks (pl_Inverse (pt_plan pt))) (pt_ownership pt) [] None p) as H.
  by destruct (rollBack_loop _ _ _ _ _ _) as [[l e] p'].
Qed.

(** The kernel a rollback leaves is what replaying the inverse leaves. *)
Lemma rollBack_loop_run ops own : forall l e (p : Proto),
  let '(_, e', p') := rollBack_loop rfc3339nano ops own l e p in
  p_prov p' = snd (fold_left (fun '(firstErr, s) op => let '(err, s') := do_op op s in
                   (match firstErr with Some _ => firstErr | None => err end, s')) ops (e, p_prov p)) /\
  e' = fst (fold_left (fun '(firstErr, s) op => let '(err, s') := do_op op s in
                   (match firstErr with Some _ => firstErr | None => err end, s')) ops (e, p_prov p)).
Proof.
  induction ops as [|op ops IH]; intros l e p; simpl; [done|].
  destruct (do_op op (p_prov p)) as [[e'|] s] eqn:E; simpl.
  - specialize (IH (l ++ [op]) (match e with Some _ => e | None => Some e' end) (set_prov p s)).
    destruct e; apply IH.
  - specialize (IH l e (if own then recordOwnership rfc3339nano op (set_prov p s) else set_prov p s)).
    assert (p_prov (if own then recordOwnership rfc3339nano op (set_prov p s) else set_prov p s) = s) as Es by (by destruct own).
    rewrite Es in IH. by destruct e.
Qed.

Lemma rollBack_run pt (p : Proto) :
  let '(_, e, p') := rollBack rfc3339nano pt p in
  RunOps (withoutTunnelLinks (pl_Inverse (pt_plan pt))) (p_prov p) = (e, p_prov p').
Proof.
  unfold rollBack, RunOps.
  pose proof (rollBack_loop_run (withoutTunnelLinks (pl_Inverse (pt_plan pt))) (pt_ownership pt) [] None p) as H.
  destruct (rollBack_loop _ _ _ _ _ _) as [[l e] p']. destruct H as [-> ->]. by destruct (fold_left _ _ _).
Qed.
End Frames.

(** ** Settling a transaction *)

Section Settle.
Context {S : Type} `{!RouteProvider S} {R : Type} `{!CommitRecord R}.
Context (platform : string) (rfc3339nano : Z -> string) (ErrorText : error -> string) (ssh : string).
Abbreviation Proto := (Protocol S R).

(** The journal's row of a transaction. *)
Definition journal (p : Proto) (id : string) : option tx_row := find_key tw_id id (db_pending (p_store p)).

Lemma journal_put id plan (p : Proto) k :
  journal (upd_store (PutPendingTx id plan) p) k =
  if decide (k = id) then Some (mkTxRow id (Some WALFormat) (Doc plan)) else journal p k.
Proof.
  unfold journal. simpl. rewrite find_upsert by done. simpl. destruct (decide (k = id)) as [->|]; [|done].
  destruct (find_key tw_id id _) as [r|] eqn:E; [|done]. by apply find_key_in in E as [_ ->].
Qed.

Lemma delete_id_ext id (rows : list tx_row) :
  delete_where (fun r => tw_id r =s? id) rows = delete_where (fun r => bool_decide (tw_id r = id)) rows.
Proof.
  unfold delete_where, keep_if. apply List.filter_ext. intros r. f_equal.
  destruct (String.eqb_spec (tw_id r) id); [by rewrite bool_decide_true|by rewrite bool_decide_false].
Qed.

Lemma journal_clear id (p : Proto) k :
  journal (clearPending id p) k = if decide (k = id) then None else journal p k.
Proof. unfold journal. simpl. rewrite delete_id_ext. apply find_delete. Qed.

(** What is left of a rollback, for a retry. *)
Definition undone (pt : pendingTx R) (p : Proto) : Plan := fst (fst (rollBack rfc3339nano pt p)).

(** What settling with decision [d] does, from [p] to [q]. *)
Record settles (d : decision) (id : string) (pt : pendingTx R) (p q : Proto) : Prop := mkSettles {
  st_pending : p_pending q = keep_if (fun i => negb (i =s? id)) (p_pending p);
  st_resolved : p_resolved q = <[id := if decide (d = decCommit) then TxCommitted else TxRolledBack]> (p_resolved p);
  st_rec : exists ds, p_heap q =
    <[id := set_record (set_decided pt ds) None (if decide (d = decCommit) then recCommitted else recRolledBack)]> (p_heap p);
  st_records : p_records q = if decide (d = decCommit) then p_records p ++ option_list (pt_onCommit pt) else p_records p;
  st_kernel : p_prov q = if decide (d = decCommit) then p_prov p
                         else snd (RunOps (withoutTunnelLinks (pl_Inverse (pt_plan pt))) (p_prov p));
  st_journal : forall k, journal q k =
    if decide (k = id) then
      if decide (d = decCommit) then None
      else match fst (RunOps (withoutTunnelLinks (pl_Inverse (pt_plan pt))) (p_prov p)) with
           | None => None
           | Some _ => Some (mkTxRow id (Some WALFormat) (Doc (undone pt p)))
           end
    else journal p k;
  st_ownership : d = decCommit -> db_ownership (p_store q) = db_ownership (p_store p);
  st_rest : p_idseq q = p_idseq p /\ p_locked q = p_locked p /\ p_quiesced q = p_quiesced p /\ p_lent q = p_lent p /\
            p_live q = p_live p /\ p_lastTx q = p_lastTx p /\ p_panicking q = p_panicking p /\ p_now q = p_now p;
}.

Lemma rollBack_heap (pt : pendingTx R) (p : Proto) h :
  rollBack rfc3339nano pt (set_heap p h) =
  let '(u, e, q) := rollBack rfc3339nano pt p in (u, e, set_heap q h).
Proof.
  unfold rollBack. generalize (withoutTunnelLinks (pl_Inverse (pt_plan pt))) as ops.
  assert (forall ops l e (p : Proto), rollBack_loop rfc3339nano ops (pt_ownership pt) l e (set_heap p h) =
            let '(u, e', q) := rollBack_loop rfc3339nano ops (pt_ownership pt) l e p in (u, e', set_heap q h)) as H.
  { clear. induction ops as [|op ops IH]; intros l e p; simpl; [done|].
    destruct (do_op op (p_prov p)) as [[e'|] s]; [apply (IH _ _ (set_prov p s))|].
    destruct (pt_ownership pt); [apply (IH _ _ (recordOwnership rfc3339nano op (set_prov p s)))|apply (IH _ _ (set_prov p s))]. }
  intros ops. rewrite H. by destruct (rollBack_loop _ _ _ _ _ _) as [[l e] q].
Qed.

Lemma resolve_settles (p : Proto) id pt d ds :
  p_heap p !! id = Some pt -> pt_id pt = id -> pt_rec pt = recOpen -> pt_decided pt = d :: ds ->
  id ∈ p_pending p -> p_resolved p !! id = None ->
  settles d id pt p (resolve rfc3339nano ErrorText id p).
Proof.
  intros Hpt Hid Hrec Hdec Hpend Hres. unfold resolve, tx. rewrite bool_decide_true, Hpt, Hdec by done.
  unfold resolve_with. rewrite Hid. destruct (bool_decide (d = decCommit)) eqn:Ed; bool_hyps.
  - subst d. unfold settleRecord. simpl. rewrite lookup_insert_eq. simpl. rewrite Hrec. simpl. rewrite insert_insert_eq.
    unfold finishTx. destruct (pt_onCommit pt) as [r|] eqn:Er; simpl; rewrite Hres;
      (split; simpl; rewrite ?Er, ?app_nil_r; [done|done|by exists ds|done|done| |by rewrite ?record_ownership|done];
       intros k; rewrite <- (journal_clear id p k); unfold journal; simpl; by rewrite ?record_pending).
  - unfold settleRecord. simpl. rewrite lookup_insert_eq. simpl. rewrite Hrec. simpl. rewrite insert_insert_eq.
    rewrite rollBack_heap. change (set_heap (set_heap p _) ?x) with (set_heap p x). rewrite rollBack_heap.
    pose proof (rollBack_run rfc3339nano pt p) as Hrun. pose proof (rollBack_step rfc3339nano pt p) as Hstep.
    assert (fst (fst (rollBack rfc3339nano pt p)) = undone pt p) as Hu by done.
    destruct (rollBack rfc3339nano pt p) as [[u e] q]. simpl in Hstep, Hu.
    destruct Hstep as (s & ow & Hq). rewrite Hq in *. simpl in Hrun.
    assert (forall A (x y : A), (if decide (d = decCommit) then x else y) = y) as Hd by (intros; by rewrite decide_False).
    destruct e as [e|]; simpl; unfold finishTx; simpl; rewrite Hres;
      (split; simpl; rewrite ?Hd, ?Hrun; [done|done|by exists ds|done|done| |done|done]); intros k; simpl; rewrite ?Hd.
    + rewrite <- Hu. etransitivity; [apply (journal_put id u (set_store (set_prov p s) (with_ownership (p_store p) ow)) k)|].
      done.
    + etransitivity; [apply (journal_clear id (set_store (set_prov p s) (with_ownership (p_store p) ow)) k)|]. done.
Qed.
End Settle.

(** ** Ids *)

Definition tx_id (n : Z) (ownership : bool) : string :=
  if ownership then "tx-" +:+ pretty n else routeOpTxPrefix +:+ pretty n.

Lemma tx_id_inj n m o o' : tx_id n o = tx_id m o' -> n = m.
Proof. destruct o, o'; simpl; intros H; [| done | done |]; repeat (injection H as H); by apply (inj pretty) in H. Qed.

(** An id this run has given out. *)
Definition used (n : Z) (id : string) : Prop := exists m o, 0 < m <= n /\ id = tx_id m o.

Section Invariant.
Context {S : Type} `{!RouteProvider S} {R : Type} `{!CommitRecord R}.
Context (platform : string) (rfc3339nano : Z -> string) (ErrorText : error -> string) (ssh : string).
Abbreviation Proto := (Protocol S R).

(** A transaction that is no longer pending has a result, and its record went
    the same way. *)
Definition closed (p : Proto) (id : string) (pt : pendingTx R) : Prop :=
  (p_resolved p !! id = Some TxCommitted /\ pt_rec pt = recCommitted) \/
  (p_resolved p !! id = Some TxRolledBack /\ pt_rec pt = recRolledBack).

(** A pending one is journaled with the plan whose inverse undoes it, and its
    record is open. *)
Definition on_probation (p : Proto) (id : string) (pt : pendingTx R) : Prop :=
  pt_rec pt = recOpen /\ p_resolved p !! id = None /\
  journal p id = Some (mkTxRow id (Some WALFormat) (Doc (pt_plan pt))).

Record inv (p : Proto) : Prop := mkInv {
  iv_one : (length (p_pending p) <= 1)%nat;
  iv_seq : 0 <= p_idseq p;
  iv_heap : forall id, id ∈ p_pending p -> is_Some (p_heap p !! id);
  iv_tx : forall id pt, p_heap p !! id = Some pt ->
    pt_id pt = id /\ if decide (id ∈ p_pending p) then on_probation p id pt else closed p id pt;
  iv_used : forall id, is_Some (p_heap p !! id) \/ is_Some (p_resolved p !! id) -> used (p_idseq p) id;
  iv_lock : (p_lent p = true -> p_quiesced p = true) /\ (p_quiesced p = true -> p_locked p = true);
}.

(** The part of the state the invariant is about. *)
Definition same_tx (p q : Proto) : Prop :=
  p_heap q = p_heap p /\ p_pending q = p_pending p /\ p_resolved q = p_resolved p /\ p_idseq q = p_idseq p /\
  db_pending (p_store q) = db_pending (p_store p) /\
  p_locked q = p_locked p /\ p_quiesced q = p_quiesced p /\ p_lent q = p_lent p.

Lemma same_tx_trans p q r : same_tx p q -> same_tx q r -> same_tx p r.
Proof. unfold same_tx. intuition congruence. Qed.

Lemma inv_same p q : same_tx p q -> inv p -> inv q.
Proof.
  intros (H1 & H2 & H3 & H4 & H5 & H6 & H7 & H8) [I1 I2 I3 I4 I5 I6].
  split; unfold closed, on_probation, journal in *; rewrite ?H1, ?H2, ?H3, ?H4, ?H5, ?H6, ?H7, ?H8; try done.
Qed.

Lemma kernel_step_same p q : kernel_step p q -> same_tx p q.
Proof. intros (s & ow & ->). by repeat split. Qed.

Lemma audit_same actor action result reason plan rb codes p :
  same_tx p (audit rfc3339nano actor action result reason plan rb codes p).
Proof. by repeat split. Qed.

Lemma takeSnapshot_same o p : same_tx p (takeSnapshot rfc3339nano o p).
Proof. unfold takeSnapshot. destruct (Capture _ _ _ _); [by repeat split|]. unfold PruneSnapshots. by repeat split. Qed.

Lemma runRecord_same fn p : same_tx p (runRecord fn p).
Proof. destruct fn as [r|]; [|by repeat split]. repeat split. cbn [runRecord set_records upd_store set_store p_store]. by rewrite record_pending. Qed.

Lemma NewProtocol_inv prov st now : inv (NewProtocol prov st now).
Proof.
  split; simpl; try done.
  - lia.
  - intros id Hid. by apply elem_of_nil in Hid.
  - intros id [[? H]|[? H]]; by rewrite lookup_empty in H.
Qed.

(** *** Decisions and resolving *)

Lemma pending_single p id : inv p -> id ∈ p_pending p -> p_pending p = [id].
Proof.
  intros I Hid. pose proof (iv_one p I) as H1. destruct (p_pending p) as [|x [|y l]]; simpl in H1.
  - by apply elem_of_nil in Hid.
  - by apply list_elem_of_singleton in Hid as ->.
  - lia.
Qed.

(** A transaction's decisions and what it records may change freely. *)
Lemma inv_heap_update p id pt pt' :
  inv p -> p_heap p !! id = Some pt -> pt_id pt' = pt_id pt -> pt_rec pt' = pt_rec pt -> pt_plan pt' = pt_plan pt ->
  inv (set_heap p (<[id := pt']> (p_heap p))).
Proof.
  intros I E Eid Erec Eplan.
  assert (forall k x, (<[id:=pt']> (p_heap p)) !! k = Some x ->
          exists y, p_heap p !! k = Some y /\ pt_id x = pt_id y /\ pt_rec x = pt_rec y /\ pt_plan x = pt_plan y) as Hk.
  { intros k x. rewrite lookup_insert_Some. intros [[<- <-]|[_ H]]; [by exists pt|by exists x]. }
  destruct I as [I1 I2 I3 I4 I5 I6]. split; simpl; try done.
  - intros k Hk'. apply lookup_insert_is_Some. destruct (decide (id = k)); [by left|right; split; [done|by apply I3]].
  - intros k x Hx. destruct (Hk k x Hx) as (y & Hy & E1 & E2 & E3). destruct (I4 k y Hy) as [F1 F2].
    split; [congruence|]. unfold on_probation, closed, journal in *. simpl. by rewrite E2, E3.
  - intros k [[x Hx]|Hx]; [|by apply I5; right]. destruct (Hk k x Hx) as (y & Hy & _). apply I5. left. eauto.
Qed.

Lemma decide_inv id d p : inv p -> inv (decide_id id d p).
Proof.
  intros I. unfold decide_id. destruct (p_heap p !! id) as [pt|] eqn:E; [|done].
  apply (inv_heap_update p id pt); try done; unfold decide_tx; by destruct (Nat.ltb _ _).
Qed.

(** The result of a transaction and its record. *)
Definition outcomes (commit : bool) : TxResult * recState :=
  if commit then (TxCommitted, recCommitted) else (TxRolledBack, recRolledBack).

Lemma closes_inv commit ds id pt p q :
  inv p -> p_heap p !! id = Some pt -> id ∈ p_pending p ->
  p_pending q = keep_if (fun i => negb (i =s? id)) (p_pending p) ->
  p_resolved q = <[id := fst (outcomes commit)]> (p_resolved p) ->
  p_heap q = <[id := set_record (set_decided pt ds) None (snd (outcomes commit))]> (p_heap p) ->
  p_idseq q = p_idseq p -> p_locked q = p_locked p -> p_quiesced q = p_quiesced p -> p_lent q = p_lent p -> inv q.
Proof.
  intros I Hpt Hid Hp Hr Hh E1 E2 E3 E4.
  pose proof (pending_single p id I Hid) as Hone. rewrite Hone in Hp. simpl in Hp. rewrite String.eqb_refl in Hp. simpl in Hp.
  destruct I as [I1 I2 I3 I4 I5 I6]. split; rewrite ?Hp, ?E1, ?E2, ?E3, ?E4; simpl; try done.
  - lia.
  - intros k Hk. by apply elem_of_nil in Hk.
  - intros k x. rewrite Hh, lookup_insert_Some. destruct (decide (k ∈ [])) as [Hk|_]; [by apply elem_of_nil in Hk|].
    destruct (I4 id pt Hpt) as [Hi _].
    intros [[<- <-]|[Hne Hx]]; unfold closed; rewrite Hr.
    + split; [done|]. rewrite lookup_insert_eq. simpl. destruct commit; [by left|by right].
    + rewrite lookup_insert_ne by done. destruct (I4 k x Hx) as [F1 F2]. split; [done|].
      rewrite decide_False in F2 by (rewrite Hone, list_elem_of_singleton; congruence). done.
  - intros k. rewrite Hh, Hr. intros [H|H]; apply lookup_insert_is_Some in H as [<-|[_ H]]; apply I5; eauto.
Qed.

Lemma settles_inv d id pt p q : inv p -> p_heap p !! id = Some pt -> id ∈ p_pending p -> settles rfc3339nano d id pt p q -> inv q.
Proof.
  intros I Hpt Hid [Hp Hr (ds & Hh) _ _ _ _ (E1 & E2 & E3 & E4 & _)].
  apply (closes_inv (bool_decide (d = decCommit)) ds id pt p q); try done; unfold outcomes.
  - rewrite Hr. by destruct (decide (d = decCommit)); [rewrite bool_decide_true|rewrite bool_decide_false].
  - rewrite Hh. by destruct (decide (d = decCommit)); [rewrite bool_decide_true|rewrite bool_decide_false].
Qed.

Lemma tx_some (p : Proto) id pt : tx p id = Some pt <-> id ∈ p_pending p /\ p_heap p !! id = Some pt.
Proof. unfold tx. destruct (bool_decide _) eqn:E; bool_hyps; naive_solver. Qed.

Lemma resolve_spec p id pt d ds :
  inv p -> tx p id = Some pt -> pt_decided pt = d :: ds ->
  settles rfc3339nano d id pt p (resolve rfc3339nano ErrorText id p).
Proof.
  intros I [Hid Hpt]%tx_some Hd. destruct (iv_tx p I id pt Hpt) as [Hi Ho]. rewrite decide_True in Ho by done.
  destruct Ho as (H1 & H2 & _). by eapply resolve_settles.
Qed.

Lemma resolve_inv id p : inv p -> inv (resolve rfc3339nano ErrorText id p).
Proof.
  intros I. destruct (tx p id) as [pt|] eqn:E; [|by unfold resolve; rewrite E].
  destruct (pt_decided pt) as [|d ds] eqn:Ed; [by unfold resolve; rewrite E, Ed|].
  pose proof (resolve_spec p id pt d ds I E Ed) as H. apply tx_some in E as [H1 H2]. by eapply settles_inv.
Qed.

Lemma record_all_step ops : forall p : Proto, kernel_step p (fold_left (fun p op => recordOwnership rfc3339nano op p) ops p).
Proof.
  induction ops as [|op ops IH]; intros p; simpl; [apply kernel_step_refl|].
  eapply kernel_step_trans; [apply recordOwnership_step|apply IH].
Qed.

(** A panic while resolving, at any point before the record is settled: the
    kernel and the ownership map are whatever they are by then. *)
Lemma resolve_recover_inv p id pt ds s ow :
  inv p -> tx p id = Some pt ->
  inv (resolve_recover rfc3339nano (set_decided pt ds)
         (set_store (set_prov (set_heap p (<[id := set_decided pt ds]> (p_heap p))) s) (with_ownership (p_store p) ow))).
Proof.
  intros I [Hid Hpt]%tx_some. destruct (iv_tx p I id pt Hpt) as [Hi Ho]. rewrite decide_True in Ho by done.
  destruct Ho as (Hrec & Hres & _). unfold resolve_recover, settleRecord. simpl. rewrite Hi, lookup_insert_eq. simpl.
  rewrite Hrec. simpl. rewrite insert_insert_eq.
  match goal with |- inv (finishTx _ _ ?x) => set (q := x) end.
  set (p1 := set_heap p (<[id := set_record (set_decided pt ds) None recRolledBack]> (p_heap p))).
  assert (kernel_step p1 q) as (s' & ow' & Hq).
  { unfold q. destruct (pt_ownership pt); [eapply kernel_step_trans; [|apply record_all_step]|];
      by eexists _, _. }
  rewrite Hq. unfold finishTx. simpl. rewrite Hres. by apply (closes_inv false ds id pt p).
Qed.

Lemma settle_inv id d p : inv p -> inv (settle rfc3339nano ErrorText id d p).
Proof. intros I. by apply resolve_inv, decide_inv. Qed.

(** *** Superseding, executing *)

(** The decision a transaction resolves by: the first one made. *)
Definition first_decision (d : decision) (pt : pendingTx R) : decision := default d (head (pt_decided pt)).

Lemma decide_tx_first d pt : exists ds, pt_decided (decide_tx d pt) = first_decision d pt :: ds.
Proof.
  unfold decide_tx, first_decision. destruct (Nat.ltb_spec (length (pt_decided pt)) decided_cap) as [H|H]; simpl;
    destruct (pt_decided pt) as [|x l]; simpl; [by eexists..|unfold decided_cap in H; simpl in H; lia|by eexists].
Qed.

Lemma decide_tx_fields (d : decision) (pt : pendingTx R) : exists ds, decide_tx d pt = set_decided pt ds.
Proof. unfold decide_tx. destruct (Nat.ltb _ _); [by eexists|]. exists (pt_decided pt). by destruct pt. Qed.

Lemma settle_spec p id pt d : inv p -> tx p id = Some pt ->
  settles rfc3339nano (first_decision d pt) id pt p (settle rfc3339nano ErrorText id d p).
Proof.
  intros I Htx. destruct (decide_tx_first d pt) as [ds Hds]. destruct (decide_tx_fields d pt) as [ds' Hf].
  pose proof (proj1 (tx_some p id pt) Htx) as [Hid Hpt].
  assert (decide_id id d p = set_heap p (<[id := decide_tx d pt]> (p_heap p))) as Ed by (unfold decide_id; by rewrite Hpt).
  assert (tx (decide_id id d p) id = Some (decide_tx d pt)) as Etx.
  { apply tx_some. rewrite Ed. simpl. by rewrite lookup_insert_eq. }
  pose proof (resolve_spec _ id _ _ ds (decide_inv id d p I) Etx Hds) as [H1 H2 (ds2 & H3) H4 H5 H6 H7 H8].
  unfold settle. rewrite Ed, Hf in *. simpl in *. rewrite insert_insert_eq in H3.
  assert (undone rfc3339nano (set_decided pt ds') (set_heap p (<[id:=set_decided pt ds']> (p_heap p))) = undone rfc3339nano pt p) as Eu.
  { unfold undone. rewrite rollBack_heap. change (rollBack rfc3339nano (set_decided pt ds') p) with (rollBack rfc3339nano pt p).
    by destruct (rollBack rfc3339nano pt p) as [[u e] q]. }
  rewrite Eu in H6. split; try done. by exists ds2.
Qed.

Lemma settle_pending_nil id d p : inv p -> tx p id <> None -> p_pending (settle rfc3339nano ErrorText id d p) = [].
Proof.
  intros I Htx. destruct (tx p id) as [pt|] eqn:E; [|done].
  pose proof (settle_spec p id pt d I E) as [-> _ _ _ _ _ _ _]. apply tx_some in E as [Hid _].
  rewrite (pending_single p id I Hid). simpl. by rewrite String.eqb_refl.
Qed.

Lemma settle_all_inv f l : forall p, inv p -> inv (fold_left (fun p id => settle rfc3339nano ErrorText id (f p id) p) l p).
Proof. induction l as [|id l IH]; intros p I; simpl; [done|]. by apply IH, settle_inv. Qed.

Lemma settle_all_nil f p : inv p ->
  p_pending (fold_left (fun p id => settle rfc3339nano ErrorText id (f p id) p) (p_pending p) p) = [].
Proof.
  intros I. destruct (p_pending p) as [|id l] eqn:E; simpl; [done|].
  assert (id ∈ p_pending p) as Hid by (rewrite E; left). pose proof (pending_single p id I Hid) as Hs.
  rewrite E in Hs. injection Hs as ->. simpl. apply settle_pending_nil; [done|].
  destruct (iv_heap p I id Hid) as [pt Hpt]. intros H. assert (tx p id = Some pt) by (by apply tx_some). congruence.
Qed.

Lemma supersede_inv p e q : inv p -> supersedePending rfc3339nano ErrorText p = (e, q) ->
  inv q /\ (match e with None => p_pending q = [] | Some _ => q = p end).
Proof.
  unfold supersedePending. intros I. destruct (existsb _ _); intros [= <- <-]; [done|].
  split; [by apply (settle_all_inv (fun _ _ => decCommit))|by apply (settle_all_nil (fun _ _ => decCommit))].
Qed.

Lemma TrimPrefix_tx s : TrimPrefix ("tx-" +:+ s) "tx-" = s.
Proof. unfold TrimPrefix. simpl. by destruct s. Qed.

Lemma begin_tx_spec o own plan (p : Proto) id q :
  begin_tx o own plan p = (id, q) ->
  id = tx_id (p_idseq p + 1) own /\ p_idseq q = p_idseq p + 1 /\
  p_heap q = p_heap p /\ p_pending q = p_pending p /\ p_resolved q = p_resolved p /\ p_prov q = p_prov p /\
  p_locked q = p_locked p /\ p_quiesced q = p_quiesced p /\ p_lent q = p_lent p /\
  db_ownership (p_store q) = db_ownership (p_store p) /\ p_records q = p_records p /\
  (forall k, journal q k = if decide (k = id) then Some (mkTxRow id (Some WALFormat) (Doc plan)) else journal p k).
Proof.
  intros E. cbv beta iota zeta delta [begin_tx nextTxID] in E. rewrite TrimPrefix_tx in E.
  apply pair_equal_spec in E as [Eid <-].
  assert (id = tx_id (p_idseq p + 1) own) as Hid by (rewrite <- Eid; by destruct own).
  split; [done|]. rewrite Eid.
  destruct (o_Background o); simpl; repeat split; intros k;
    (etransitivity; [apply journal_put|]; done).
Qed.

Lemma used_mono n id : used n id -> used (n + 1) id.
Proof. intros (m & o & H & ->). exists m, o. split; [lia|done]. Qed.

Lemma used_next p own : inv p -> used (p_idseq p + 1) (tx_id (p_idseq p + 1) own).
Proof. intros I. pose proof (iv_seq p I). eexists _, _. split; [|done]. lia. Qed.

Lemma fresh_id p own : inv p ->
  p_heap p !! tx_id (p_idseq p + 1) own = None /\ p_resolved p !! tx_id (p_idseq p + 1) own = None.
Proof.
  intros I. assert (~ used (p_idseq p) (tx_id (p_idseq p + 1) own)) as Hn.
  { intros (m & o & Hm & E). apply tx_id_inj in E. lia. }
  split; apply eq_None_not_Some; intros Hs; apply Hn, (iv_used p I); eauto.
Qed.

(** The next transaction, on top of a state in which nothing is pending. *)
Lemma inv_extend p q own :
  inv p -> p_pending p = [] -> p_idseq q = p_idseq p + 1 ->
  p_locked q = p_locked p /\ p_quiesced q = p_quiesced p /\ p_lent q = p_lent p ->
  let id := tx_id (p_idseq p + 1) own in
  (p_pending q = [] /\ p_heap q = p_heap p /\ (p_resolved q = p_resolved p \/ p_resolved q = <[id := TxCommitted]> (p_resolved p))) \/
  (exists pt, p_pending q = [id] /\ p_heap q = <[id := pt]> (p_heap p) /\ p_resolved q = p_resolved p /\
     pt_id pt = id /\ pt_rec pt = recOpen /\ journal q id = Some (mkTxRow id (Some WALFormat) (Doc (pt_plan pt)))) ->
  inv q.
Proof.
  intros I Hnil Hseq (L1 & L2 & L3) id Hcase. destruct (fresh_id p own I) as [Fh Fr]. fold id in Fh, Fr.
  pose proof (used_next p own I) as Hu. fold id in Hu.
  assert (forall k pt, p_heap p !! k = Some pt -> k <> id /\ pt_id pt = k /\ closed p k pt) as Hold.
  { intros k pt Hk. destruct (iv_tx p I k pt Hk) as [H1 H2]. split; [congruence|]. split; [done|].
    by rewrite Hnil, decide_False in H2 by apply not_elem_of_nil. }
  assert (forall k, is_Some (p_heap p !! k) \/ is_Some (p_resolved p !! k) -> used (p_idseq p + 1) k) as Hmono
    by (intros k Hk; by apply used_mono, (iv_used p I)).
  pose proof (iv_seq p I). pose proof (iv_lock p I) as Hlock.
  destruct Hcase as [(Ep & Eh & Er)|(pt & Ep & Eh & Er & Hid & Hrec & Hj)];
    (split; rewrite ?Ep, ?Eh, ?Hseq, ?L1, ?L2, ?L3; simpl; [lia|lia| | | |done]).
  - intros k Hk. by apply elem_of_nil in Hk.
  - intros k x Hx. destruct (Hold k x Hx) as (Hne & H1 & H2). split; [done|].
    destruct (decide (k ∈ [])) as [Hk|_]; [by apply elem_of_nil in Hk|].
    unfold closed in *. destruct Er as [-> | ->]; [done|]. by rewrite lookup_insert_ne.
  - intros k [Hk|Hk]; [by apply Hmono; left|]. destruct Er as [Er|Er]; rewrite Er in Hk; [by apply Hmono; right|].
    apply lookup_insert_is_Some in Hk as [<-|[_ Hk]]; [done|by apply Hmono; right].
  - intros k ->%list_elem_of_singleton. rewrite lookup_insert_eq. eauto.
  - intros k x. rewrite lookup_insert_Some. intros [[<- <-]|[Hne Hx]].
    + split; [done|]. rewrite decide_True by (by apply list_elem_of_singleton). unfold on_probation. by rewrite Er.
    + destruct (Hold k x Hx) as (_ & H1 & H2). split; [done|].
      rewrite decide_False by (rewrite list_elem_of_singleton; congruence). unfold closed in *. by rewrite Er.
  - intros k [Hk|Hk]; [|rewrite Er in Hk; by apply Hmono; right].
    apply lookup_insert_is_Some in Hk as [<-|[_ Hk]]; [done|by apply Hmono; left].
Qed.

Lemma executePlan_inv action plan diff o own tm p :
  inv p -> p_pending p = [] -> inv (snd (executePlan rfc3339nano ErrorText action plan diff o own tm p)).
Proof.
  intros I Hnil. unfold executePlan. destruct (begin_tx o own plan p) as [id p1] eqn:Eb.
  destruct (begin_tx_spec o own plan p id p1 Eb) as (Eid & E1 & E2 & E3 & E4 & _ & E5 & E6 & E7 & _ & _ & Ej).
  destruct (Apply plan (p_prov p1)) as [[err|] s]; simpl.
  { apply (inv_extend p _ own I Hnil); simpl; [done|done|]. left. rewrite E2, E3, E4. auto. }
  set (p2 := if own then applyOwnership rfc3339nano plan false (set_prov p1 s) else set_prov p1 s).
  assert (same_tx p1 p2) as (F1 & F2 & F3 & F4 & F5 & F6 & F7 & F8).
  { unfold p2. destruct own; [|apply kernel_step_same, set_prov_step].
    apply kernel_step_same. eapply kernel_step_trans; [apply set_prov_step|apply applyOwnership_step]. }
  destruct (o_Unguarded o); simpl.
  - unfold recordNow, runRecord. destruct (o_OnCommit o);
      (apply (inv_extend p _ own I Hnil); simpl;
       [congruence|split_and!; congruence|left; rewrite F1, F2, F3, E2, E3, E4, <- Eid; auto]).
  - apply (inv_extend p _ own I Hnil); simpl; [congruence|split_and!; congruence|right].
    eexists. split_and!; [by rewrite F2, E3, Hnil, <- Eid|by rewrite F1, E2, <- Eid|congruence|done|done|].
    simpl. rewrite <- Eid. pose proof (Ej id) as Hj. rewrite decide_True in Hj by done. rewrite <- Hj.
    unfold journal. simpl. by rewrite F5.
Qed.

Lemma recordUnchanged_inv o beside p : inv p -> inv (recordUnchanged o beside p).
Proof.
  intros I. unfold recordUnchanged. destruct (o_OnCommit o) as [r|]; [|done]. destruct (_ && _); [done|].
  destruct (existsb _ _); [done|]. generalize (keep_if (fun id => bool_decide (rec_of p id = Some recOpen)) beside) as l. intros l.
  assert (inv (fold_left (take_place (Some r)) l p)) as I'.
  { revert p I. induction l as [|id l IH]; intros p I; simpl; [done|]. apply IH. unfold take_place.
    destruct (p_heap p !! id) as [pt|] eqn:E; [|done].
    by apply (inv_heap_update p id pt). }
  case_if; [|done]. apply (inv_same _ _ (runRecord_same _ _)). done.
Qed.

(** *** Applies *)

Lemma apply_rest_inv plan diff desired o beside again tm p out :
  inv p -> (forall f q out', again = Some f -> inv q -> f q = Some out' -> inv (snd out')) ->
  apply_rest rfc3339nano ErrorText ssh plan diff desired o beside again tm p = Some out -> inv (snd out).
Proof.
  intros I Hagain. unfold apply_rest. destruct (o_DryRun o); [by intros [= <-]|].
  destruct (negb _); [intros [= <-]; by apply (inv_same p _ (audit_same _ _ _ _ _ _ _ _))|].
  destruct (bool_decide (pl_Ops plan = [])); [intros [= <-]; by apply recordUnchanged_inv|].
  destruct (supersedePending _ _ p) as [[e|] q] eqn:Es; destruct (supersede_inv p _ q I Es) as [Iq Hq].
  { by intros [= <-]. }
  destruct again as [f|]; [by apply Hagain|].
  pose proof (executePlan_inv "apply" plan diff o true tm (takeSnapshot rfc3339nano o q)) as He.
  destruct (executePlan _ _ _ _ _ _ _ _ _) as [r q']. intros [= <-]. apply He.
  - by apply (inv_same q _ (takeSnapshot_same o q)).
  - by rewrite (proj1 (proj2 (takeSnapshot_same o q))).
Qed.

Lemma apply_plan_inv owned desired rules o p plan diff q :
  inv p -> apply_plan platform owned desired rules o p = Some (plan, diff, q) -> inv q.
Proof.
  intros I. unfold apply_plan, installed_now. destruct (installed_routes _ _ _ _ _ _ _) as [actual live].
  destruct (Reconcile _ _ _ _ _); simpl; [|done]. destruct (diffFromPlan _); simpl; [|done]. intros [= _ _ <-].
  by apply (inv_same p).
Qed.

Lemma apply_inv owned desired rules o beside again tm p out :
  inv p -> (forall f q out', again = Some f -> inv q -> f q = Some out' -> inv (snd out')) ->
  apply platform rfc3339nano ErrorText ssh owned desired rules o beside again tm p = Some out -> inv (snd out).
Proof.
  intros I Hagain. unfold apply. destruct (apply_plan _ _ _ _ _ p) as [[[plan diff] q]|] eqn:E; simpl; [|done].
  apply apply_rest_inv; [by eapply apply_plan_inv|done].
Qed.

Lemma applyBuilt_inv build o beside tm p out :
  inv p -> applyBuilt platform rfc3339nano ErrorText ssh build o beside tm p = Some out -> inv (snd out).
Proof.
  intros I. unfold applyBuilt. destruct (build _ _ _) as [err|[[desired rules] o']]; [by intros [= <-]|].
  apply apply_inv; [done|]. intros f q out' Hf Iq. destruct (_ && _); [|done]. injection Hf as <-.
  unfold applyBuilt_once. destruct (build _ _ _) as [err|[[desired' rules'] o'']]; [by intros [= <-]|].
  by apply apply_inv.
Qed.

Lemma apply_hand_built_inv action plan o tm p out :
  inv p -> apply_hand_built rfc3339nano ErrorText action plan o tm p = Some out -> inv (snd out).
Proof.
  intros I. unfold apply_hand_built. destruct (diffFromPlan plan) as [diff|]; simpl; [|done].
  destruct (o_DryRun o); [by intros [= <-]|].
  destruct (negb _); [intros [= <-]; by apply (inv_same p _ (audit_same _ _ _ _ _ _ _ _))|].
  destruct (bool_decide (pl_Ops plan = [])); [intros [= <-]; by apply recordUnchanged_inv|].
  destruct (supersedePending _ _ p) as [[e|] q] eqn:Es; destruct (supersede_inv p _ q I Es) as [Iq Hq].
  { by intros [= <-]. }
  pose proof (executePlan_inv action plan diff o false tm (takeSnapshot rfc3339nano o q)) as He.
  destruct (executePlan _ _ _ _ _ _ _ _ _) as [r q']. intros [= <-]. apply He.
  - by apply (inv_same q _ (takeSnapshot_same o q)).
  - by rewrite (proj1 (proj2 (takeSnapshot_same o q))).
Qed.

(** *** Panic and the quiesce lock *)

Lemma drop_records_pending owned fl : forall d, db_pending (drop_records owned fl d) = db_pending d.
Proof.
  unfold drop_records. generalize (list_to_set (rkeys fl) : gset string) as keep. intros keep.
  induction owned as [|mr owned IH]; intros d; simpl; [done|]. rewrite IH. by case_if.
Qed.

Lemma Panic_pending (s : S) d : exists err s' d', Panic s (Some d) = (err, s', Some d') /\ db_pending d' = db_pending d.
Proof.
  unfold Panic. destruct (match ListOwned d with inl _ => _ | inr _ => _ end) as [owned [[fl fe] s1]].
  destruct (FlushOwned s1) as [e2 s2]. destruct (bool_decide _); repeat eexists. apply drop_records_pending.
Qed.

Lemma panic_flush_spec actor flushing p :
  exists err q, panic_flush rfc3339nano ErrorText actor flushing p = (err, q) /\
    same_tx (settleForPanic rfc3339nano ErrorText p) q.
Proof.
  unfold panic_flush. set (p1 := runRecord _ _).
  destruct (Panic_pending (p_prov p1) (p_store p1)) as (err & s & d & -> & Hd). eexists _, _. split; [reflexivity|].
  eapply same_tx_trans; [apply runRecord_same|]. fold p1. by repeat split.
Qed.

Lemma settleForPanic_inv p : inv p -> inv (settleForPanic rfc3339nano ErrorText p).
Proof. intros I. by apply (settle_all_inv (fun _ _ => decCommit)). Qed.

(** *** Reachable states

    A step of the daemon. Planning and the rest of an apply are separate
    steps, and the rest may run with any plan: other transactions may resolve
    between the two, and this covers every interleaving of them. Watchdogs,
    timers, confirmations and callers decide; the resolving goroutine runs
    when it will. Another program may change the kernel at any time. *)
Inductive step : Proto -> Proto -> Prop :=
| step_plan p owned desired rules o plan diff q :
    apply_plan platform owned desired rules o p = Some (plan, diff, q) -> step p q
| step_rest p plan diff desired o beside tm out :
    p_locked p = false -> apply_rest rfc3339nano ErrorText ssh plan diff desired o beside None tm p = Some out ->
    step p (snd out)
| step_apply p ended desired rules o tm out :
    Apply_desired platform rfc3339nano ErrorText ssh ended desired rules o tm p = Some (Some out) -> step p (snd out)
| step_built p ended build o tm out :
    ApplyBuilt platform rfc3339nano ErrorText ssh ended build o tm p = Some (Some out) -> step p (snd out)
| step_hand_built p ended action plan o tm out :
    ApplyPlan rfc3339nano ErrorText ended action plan o tm p = Some (Some out) -> step p (snd out)
| step_decide p id d : step p (decide_id id d p)
| step_resolve p id : step p (resolve rfc3339nano ErrorText id p)
| step_resolve_panicked p id pt ds s ow :
    tx p id = Some pt ->
    step p (resolve_recover rfc3339nano (set_decided pt ds)
      (set_store (set_prov (set_heap p (<[id := set_decided pt ds]> (p_heap p))) s) (with_ownership (p_store p) ow)))
| step_confirm p id : step p (snd (Confirm rfc3339nano ErrorText id p))
| step_rollback p id : step p (snd (Rollback rfc3339nano ErrorText id p))
| step_panic_begin p : step p (panic_begin p)
| step_panic_flush p actor flushing : p_locked p = false -> step p (snd (panic_flush rfc3339nano ErrorText actor flushing p))
| step_quiesce p quiet : step p (snd (TryQuiesce quiet p))
| step_release p : step p (release p)
| step_lend p : step p (LendQuiesce p)
| step_shutdown p : step p (ShutdownResolve rfc3339nano ErrorText p)
| step_kernel p s : step p (set_prov p s)
| step_time p t : p_now p <= t -> step p (set_now p t).

Lemma with_lock_inv ended f plan p out :
  inv p -> (forall out', f p = Some out' -> inv (snd out')) ->
  with_lock ErrorText ended f plan p = Some (Some out) -> inv (snd out).
Proof.
  intros I Hf. unfold with_lock. destruct (lockApply ended p); [|by intros [= <-]|done]. intros [= H]. by apply Hf.
Qed.

Lemma settle_by_inv d id p : inv p -> inv (snd (settle_by rfc3339nano ErrorText d id p)).
Proof.
  intros I. unfold settle_by. destruct (tx p id); [by apply settle_inv|]. by destruct (p_resolved p !! id).
Qed.

Lemma step_inv p q : step p q -> inv p -> inv q.
Proof.
  destruct 1; intros I.
  - by eapply apply_plan_inv.
  - by eapply (apply_rest_inv _ _ _ _ _ None).
  - eapply with_lock_inv; [done| |done]. simpl. intros out'. by apply apply_inv.
  - unfold ApplyBuilt in *. destruct (_ && _).
    + destruct (0 <? p_panicking p); [by simplify_eq|]. simplify_eq. by eapply applyBuilt_inv.
    + eapply with_lock_inv; [done| |done]. simpl. intros out'. by apply applyBuilt_inv.
  - eapply with_lock_inv; [done| |done]. simpl. intros out'. by apply apply_hand_built_inv.
  - by apply decide_inv.
  - by apply resolve_inv.
  - by apply resolve_recover_inv.
  - by apply settle_by_inv.
  - by apply settle_by_inv.
  - by apply (inv_same p).
  - destruct (panic_flush_spec actor flushing p) as (err & q & -> & Hs). apply (inv_same _ _ Hs). by apply settleForPanic_inv.
  - unfold TryQuiesce. repeat case_if; simpl; try done. destruct I as [I1 I2 I3 I4 I5 I6]. by split.
  - unfold release. case_if; [|done]. destruct I as [I1 I2 I3 I4 I5 I6]. by split.
  - unfold LendQuiesce. case_if; [|done]. destruct I as [I1 I2 I3 I4 I5 I6]. split; try done. simpl. tauto.
  - by apply (settle_all_inv (fun p id => if is_interactive p id then decRollbackShutdown else decCommit)).
  - by apply (inv_same p).
  - by apply (inv_same p).
Qed.

Definition reachable (p : Proto) : Prop := exists prov st now, rtc step (NewProtocol prov st now) p.

Lemma reachable_inv p : reachable p -> inv p.
Proof.
  intros (prov & st & now & H). pose proof (NewProtocol_inv prov st now) as I.
  induction H as [|x y z Hxy _ IH]; [done|]. by apply IH, (step_inv x).
Qed.
End Invariant.
