(* ===== verification/ProtocolProps.v ===== *)
(** * The Apply Protocol: theorems

    The properties of the protocol proved from ProtocolFacts, with their
    witnesses on the in-memory provider. *)

From S2P Require Import Prelude.
From S2P Require Import Netip NetipText Domain Reconcile Input Tunnels Installed Provider FakeProvider Executor.
From S2P Require Import Guardrails Watchdog LiveRepair Store Panic Recovery ApplyParts Protocol ProtocolFacts.

(** ** The journal as startup reads it *)

Lemma list_to_map_find rows id r pl :
  find_key tw_id id rows = Some r -> readable_tx r = Some pl ->
  (list_to_map (omap (fun r => pl ← readable_tx r; Some (tw_id r, pl)) rows) : gmap string Plan) !! id = Some pl.
Proof.
  unfold find_key. induction rows as [|x rows IH]; simpl; [done|]. intros Hf Hr.
  destruct (bool_decide (tw_id x = id)) eqn:E; bool_hyps.
  - injection Hf as ->. rewrite Hr. simpl. rewrite <- E. apply lookup_insert_eq.
  - destruct (readable_tx x) as [y|]; simpl; [|by apply IH]. rewrite lookup_insert_ne by done. by apply IH.
Qed.

Section Theorems.
Context {S : Type} `{!RouteProvider S} {R : Type} `{!CommitRecord R}.
Context (platform : string) (rfc3339nano : Z -> string) (ErrorText : error -> string) (ssh : string).
Abbreviation Proto := (Protocol S R).
Abbreviation reach := (reachable platform rfc3339nano ErrorText ssh).

Lemma journal_listed (p : Proto) id plan :
  journal p id = Some (mkTxRow id (Some WALFormat) (Doc plan)) -> fst (ListPendingTx (p_store p)) !! id = Some plan.
Proof. intros H. by eapply list_to_map_find. Qed.

(** C3: At any time at most one transaction is on probation, whatever applies,
    decisions, resolutions, panics and shutdowns have happened and however
    they interleaved; it is in the journal with the plan whose inverse undoes
    it, it has no result yet and its record is still open. Every other
    transaction has a result, and its record ran exactly if it committed. *)
Theorem one_on_probation (p : Proto) :
  reach p ->
  (length (p_pending p) <= 1)%nat /\
  (forall id pt, p_heap p !! id = Some pt ->
     if decide (id ∈ p_pending p) then
       pt_rec pt = recOpen /\ p_resolved p !! id = None /\ fst (ListPendingTx (p_store p)) !! id = Some (pt_plan pt)
     else
       (p_resolved p !! id = Some TxCommitted /\ pt_rec pt = recCommitted) \/
       (p_resolved p !! id = Some TxRolledBack /\ pt_rec pt = recRolledBack)).
Proof.
  intros Hr. apply reachable_inv in Hr as I. split; [apply I|]. intros id pt Hpt.
  destruct (iv_tx p I id pt Hpt) as [_ H]. destruct (decide (id ∈ p_pending p)); [|done].
  destruct H as (H1 & H2 & H3). split_and!; [done..|]. by apply journal_listed.
Qed.

(** The operations of a list that fail, each run where the ones before it
    led. *)
Fixpoint failing (ops : list PlanOp) (s : S) : list PlanOp :=
  match ops with
  | [] => []
  | op :: ops' => let '(err, s') := do_op op s in if err is Some _ then op :: failing ops' s' else failing ops' s'
  end.

Lemma rollBack_loop_failing ops own : forall l e (p : Proto),
  fst (fst (rollBack_loop rfc3339nano ops own l e p)) = l ++ failing ops (p_prov p).
Proof.
  induction ops as [|op ops IH]; intros l e p; simpl; [by rewrite app_nil_r|].
  destruct (do_op op (p_prov p)) as [[e'|] s']; rewrite IH; [by rewrite <- app_assoc|]. by destruct own.
Qed.

Lemma RunOps_failing ops (s : S) : fst (RunOps ops s) = None <-> failing ops s = [].
Proof.
  unfold RunOps. assert (forall e s, fst (fold_left (fun '(firstErr, s) op => let '(err, s') := do_op op s in
    (match firstErr with Some _ => firstErr | None => err end, s')) ops (e, s)) = None <-> e = None /\ failing ops s = []) as H; [|by rewrite H; tauto].
  clear s. induction ops as [|op ops IH]; intros e s; simpl; [tauto|].
  destruct (do_op op s) as [[e'|] s']; rewrite IH; destruct e; intuition congruence.
Qed.

Lemma undone_failing (pt : pendingTx R) (p : Proto) :
  undone rfc3339nano pt p =
  let rest := failing (withoutTunnelLinks (pl_Inverse (pt_plan pt))) (p_prov p) in mkPlan (map inverseOp (reverse rest)) rest.
Proof.
  unfold undone, rollBack. pose proof (rollBack_loop_failing (withoutTunnelLinks (pl_Inverse (pt_plan pt))) (pt_ownership pt) [] None p) as H.
  destruct (rollBack_loop _ _ _ _ _ _) as [[inv e] q]. simpl in H. by subst inv.
Qed.

(** C4: The first decision made on a transaction settles it, whatever else
    comes after: a commit leaves kernel and ownership alone, clears the
    journal entry and runs the record; any other decision runs no record and
    replays the inverse, less tunnel links, operation by operation; the journal
    then keeps those of its operations that failed, in order, with their own
    inverse, and nothing if none did. Either way nothing is left on
    probation. *)
Theorem first_decision_settles (p : Proto) id pt d :
  reach p -> tx p id = Some pt ->
  let q := settle rfc3339nano ErrorText id d p in
  let inverse := withoutTunnelLinks (pl_Inverse (pt_plan pt)) in
  let rest := failing inverse (p_prov p) in
  p_pending q = [] /\
  match default d (head (pt_decided pt)) with
  | decCommit =>
      p_resolved q !! id = Some TxCommitted /\ p_prov q = p_prov p /\
      db_ownership (p_store q) = db_ownership (p_store p) /\ journal q id = None /\
      p_records q = p_records p ++ option_list (pt_onCommit pt)
  | _ =>
      p_resolved q !! id = Some TxRolledBack /\ p_records q = p_records p /\
      p_prov q = snd (RunOps inverse (p_prov p)) /\
      journal q id = (if decide (rest = []) then None
                      else Some (mkTxRow id (Some WALFormat) (Doc (mkPlan (map inverseOp (reverse rest)) rest))))
  end.
Proof.
  intros Hr Htx q inverse rest. apply reachable_inv in Hr as I.
  split; [apply settle_pending_nil; [done|by rewrite Htx]|].
  pose proof (settle_spec rfc3339nano ErrorText p id pt d I Htx) as [_ H2 _ H4 H5 H6 H7 _].
  fold q in H2, H4, H5, H6, H7. specialize (H6 id). rewrite decide_True in H6 by done. rewrite undone_failing in H6. unfold first_decision in *.
  fold inverse in H6. fold rest in H6.
  assert ((if fst (RunOps inverse (p_prov p)) is Some _ then Some (mkTxRow id (Some WALFormat) (Doc (mkPlan (map inverseOp (reverse rest)) rest))) else None) =
    (if decide (rest = []) then None else Some (mkTxRow id (Some WALFormat) (Doc (mkPlan (map inverseOp (reverse rest)) rest))))) as Hj.
  { pose proof (RunOps_failing inverse (p_prov p)) as Hf. fold rest in Hf. destruct (fst (RunOps _ _)), (decide (rest = [])); naive_solver. }
  rewrite H2, lookup_insert_eq. destruct (default d (head (pt_decided pt))) eqn:Ed; simpl in *; rewrite <- ?Hj; by split_and!; try apply H7.
Qed.

(** What an apply that does not execute leaves alone: the kernel, the
    ownership map, the journal, and which transactions are pending or have which
    result. *)
Definition untouched (p q : Proto) : Prop :=
  p_prov q = p_prov p /\ db_ownership (p_store q) = db_ownership (p_store p) /\
  db_pending (p_store q) = db_pending (p_store p) /\ p_pending q = p_pending p /\ p_resolved q = p_resolved p.

(** The transactions are as they were, but that [r] is what an open one beside
    now records when it commits. *)
Definition recorded_in_place (r : option R) (beside : list string) (p q : Proto) : Prop :=
  forall id, p_heap q !! id = p_heap p !! id \/
    exists pt, id ∈ beside /\ p_heap p !! id = Some pt /\ pt_rec pt = recOpen /\ p_heap q !! id = Some (set_record pt r recOpen).

Lemma take_place_frame r l : forall p : Proto, untouched p (fold_left (take_place r) l p) /\
  (Forall (fun id => rec_of p id = Some recOpen) l -> recorded_in_place r l p (fold_left (take_place r) l p)).
Proof.
  induction l as [|id l IH]; intros p; simpl; [split; [by repeat split|by left]|].
  assert (untouched p (take_place r p id)) as H1 by (unfold take_place; destruct (p_heap p !! id); by repeat split).
  destruct (IH (take_place r p id)) as [H3 H4]. split; [unfold untouched in *; intuition congruence|].
  intros [Ho Hl]%Forall_cons. unfold rec_of in Ho. apply fmap_Some in Ho as (pt & Hpt & Er). symmetry in Er.
  assert (take_place r p id = set_heap p (<[id := set_record pt r recOpen]> (p_heap p))) as E by (unfold take_place; by rewrite Hpt, Er).
  assert (Forall (fun k => rec_of (take_place r p id) k = Some recOpen) l) as Hl'.
  { eapply Forall_impl; [exact Hl|]. intros k Hk. rewrite E. unfold rec_of in *. cbn [set_heap p_heap].
    destruct (decide (k = id)) as [->|Hne]; [by rewrite lookup_insert_eq|by rewrite lookup_insert_ne]. }
  intros k. destruct (H4 Hl' k) as [Hk|(x & Hin & Hx & Hxo & Hk)].
  - rewrite Hk, E. cbn [set_heap p_heap]. destruct (decide (k = id)) as [->|Hne]; [|left; by rewrite lookup_insert_ne].
    right. exists pt. split_and!; [by left|done..|by rewrite lookup_insert_eq].
  - rewrite E in Hx. cbn [set_heap p_heap] in Hx. right. destruct (decide (k = id)) as [->|Hne].
    + rewrite lookup_insert_eq in Hx. injection Hx as <-. exists pt. split_and!; [by left|done..].
    + rewrite lookup_insert_ne in Hx by done. exists x. split_and!; [by right|done..].
Qed.

Lemma runRecord_untouched r (p : Proto) : untouched p (runRecord r p) /\ p_heap (runRecord r p) = p_heap p.
Proof. destruct r as [r|]; [|by repeat split]. unfold untouched. cbn. rewrite record_ownership, record_pending. by repeat split. Qed.

Lemma recordUnchanged_untouched o beside (p : Proto) :
  untouched p (recordUnchanged o beside p) /\ recorded_in_place (o_OnCommit o) beside p (recordUnchanged o beside p).
Proof.
  unfold recordUnchanged. destruct (o_OnCommit o) as [r|]; [|split; [by repeat split|by left]].
  destruct (_ && _); [split; [by repeat split|by left]|]. destruct (existsb _ _); [split; [by repeat split|by left]|].
  set (open := keep_if _ beside). destruct (take_place_frame (Some r) open p) as [H1 H2].
  assert (recorded_in_place (Some r) beside p (fold_left (take_place (Some r)) open p)) as H3.
  { intros id. destruct (H2 ltac:(apply Forall_forall; intros x [_ Hx]%elem_of_keep_if; by bool_hyps) id) as [?|(pt & Hin & ?)]; [by left|right].
    exists pt. by apply elem_of_keep_if in Hin as [? _]. }
  destruct (bool_decide _); [|done]. destruct (runRecord_untouched (Some r) (fold_left (take_place (Some r)) open p)) as [H4 H5].
  split; [unfold untouched in *; intuition congruence|]. intros id. rewrite H5. apply H3.
Qed.

(** Whether an apply with this plan gets to execute it. *)
Definition goes_ahead (o : Options R) (desired : list ManagedRoute) (plan : Plan) (p : Proto) : bool :=
  negb (o_DryRun o) &&
  bool_decide (checkGuardrails desired (if o_VetChangesOnly o then Some plan else None) (o_PhysGW o) ssh (p_prov p) = []) &&
  negb (bool_decide (pl_Ops plan = [])) && negb (existsb (is_interactive p) (p_pending p)).


(** C27: Once a panic has flushed, no policy change is on probation any more:
    no guard can roll back afterwards and put back what the flush removed.
    What may still be on probation is an edit of a route RiftRoute does not
    own. *)
Theorem panic_disarms (p : Proto) actor flushing err q :
  reach p -> panic_flush rfc3339nano ErrorText actor flushing p = (err, q) ->
  forall id pt, tx q id = Some pt -> pt_ownership pt = false.
Proof.
  intros Hr Hq. apply reachable_inv in Hr as I.
  destruct (panic_flush_spec rfc3339nano ErrorText actor flushing p) as (err' & q' & Hq' & Hs).
  rewrite Hq in Hq'. injection Hq' as <- <-. destruct Hs as (Eh & Ep & _).
  intros id pt. rewrite tx_some, Eh, Ep, <- tx_some.
  unfold settleForPanic, onProbation. destruct (p_pending p) as [|x l] eqn:E; simpl.
  { unfold tx. rewrite E. done. }
  assert (x ∈ p_pending p) as Hx by (rewrite E; left). pose proof (pending_single p x I Hx) as Hs. rewrite E in Hs.
  injection Hs as ->. destruct (iv_heap p I x Hx) as [ptx Hptx].
  assert (tx p x = Some ptx) as Htx by (by apply tx_some). simpl. rewrite Htx. destruct (pt_ownership ptx) eqn:Eo; simpl.
  - unfold tx. rewrite settle_pending_nil; [done|done|by rewrite Htx].
  - intros Hid. pose proof (proj1 (tx_some p id pt) Hid) as [Hin _]. rewrite E in Hin.
    apply list_elem_of_singleton in Hin as ->. congruence.
Qed.

(** C38: A graceful shutdown leaves nothing on probation: a change guarding in
    the background is committed, one waiting for a confirmation is rolled
    back, unless something had decided it before. *)
Theorem shutdown_settles (p : Proto) :
  reach p ->
  p_pending (ShutdownResolve rfc3339nano ErrorText p) = [] /\
  forall id pt, tx p id = Some pt -> pt_decided pt = [] ->
    p_resolved (ShutdownResolve rfc3339nano ErrorText p) !! id =
      Some (if pt_interactive pt then TxRolledBack else TxCommitted) /\
    (pt_interactive pt = false -> journal (ShutdownResolve rfc3339nano ErrorText p) id = None).
Proof.
  intros Hr. apply reachable_inv in Hr as I. unfold ShutdownResolve.
  split; [by apply (settle_all_nil rfc3339nano ErrorText
                      (fun p id => if is_interactive p id then decRollbackShutdown else decCommit))|].
  intros id pt Htx Hd. pose proof (proj1 (tx_some p id pt) Htx) as [Hin _]. rewrite (pending_single p id I Hin). simpl.
  unfold is_interactive. rewrite Htx.
  pose proof (settle_spec rfc3339nano ErrorText p id pt (if pt_interactive pt then decRollbackShutdown else decCommit) I Htx)
    as [_ H2 _ _ _ H6 _ _]. specialize (H6 id). rewrite decide_True in H6 by done.
  rewrite H2, lookup_insert_eq. unfold first_decision in *. rewrite Hd in *. by destruct (pt_interactive pt).
Qed.

(** Still waiting, or refused without a trace. *)
Definition held_off (p : Proto) (x : option (option (Result * option error * Proto))) : Prop :=
  match x with
  | None => True
  | Some out => exists r e, out = Some (r, Some e, p) /\ rs_Status r = TxFailed
  end.

(** While the updater holds the daemon quiet no change gets past the lock:
    every apply, of a desired set, a build or a plan made by hand, waits, or is
    refused without a trace, but for the tunnels' own once the holder has lent
    it to them. *)
Theorem quiesced_blocks (p : Proto) ended o tm :
  reach p -> p_quiesced p = true ->
  (forall desired rules, held_off p (Apply_desired platform rfc3339nano ErrorText ssh ended desired rules o tm p)) /\
  (forall action plan, held_off p (ApplyPlan rfc3339nano ErrorText ended action plan o tm p)) /\
  (o_Lendable o && p_lent p = false ->
   forall build, held_off p (ApplyBuilt platform rfc3339nano ErrorText ssh ended build o tm p)).
Proof.
  intros Hr Hq. apply reachable_inv in Hr as I. destruct (iv_lock p I) as [_ Hl]. specialize (Hl Hq).
  assert (forall f plan, held_off p (with_lock ErrorText ended f plan p)) as H.
  { intros f plan. unfold with_lock, lockApply, LockCtx. destruct (0 <? p_panicking p); [by repeat eexists|].
    destruct ended as [e|]; [by repeat eexists|]. by rewrite Hl. }
  split_and!; [intros; apply H..|]. intros Hlent build. unfold ApplyBuilt. rewrite Hlent. apply H.
Qed.

(** ** Startup *)

Lemma recover_one_journal (p : Proto) entry k :
  journal (recover_one rfc3339nano p entry) k = if decide (k = fst entry) then None else journal p k.
Proof.
  destruct entry as [id plan]. simpl. unfold recover_one. cbv zeta.
  set (p1 := set_prov p _). set (p2 := if HasPrefix id routeOpTxPrefix then p1 else applyOwnership rfc3339nano plan true p1).
  assert (db_pending (p_store p2) = db_pending (p_store p)) as E.
  { unfold p2. destruct (HasPrefix _ _); [done|].
    destruct (applyOwnership_step rfc3339nano plan true p1) as (s & ow & ->). done. }
  etransitivity; [apply (journal_clear id p2 k)|]. unfold journal. by rewrite E.
Qed.

Lemma recover_all_journal (l : list (string * Plan)) k : forall p : Proto,
  journal (fold_left (recover_one rfc3339nano) l p) k = if decide (k ∈ map fst l) then None else journal p k.
Proof.
  induction l as [|e l IH]; intros p; simpl; [done|]. rewrite IH, recover_one_journal.
  destruct (decide (k ∈ map fst l)) as [H|H], (decide (k = fst e)) as [H'|H'],
    (decide (k ∈ fst e :: map fst l)) as [H2|H2]; rewrite ?elem_of_cons in H2; try done; tauto.
Qed.

(** Startup recovery reverts every journal entry it can read, each once
    and in whatever order, and clears it; an entry it cannot read stays in the
    journal as it is, and is reported. *)
Theorem recovery_clears_journal (p : Proto) (order : gmap string Plan -> list (string * Plan)) n bad q :
  (forall m, order m ≡ₚ map_to_list m) -> NoDup (map tw_id (db_pending (p_store p))) ->
  RecoverPending rfc3339nano order p = (n, bad, q) ->
  (forall r, r ∈ db_pending (p_store p) ->
     journal q (tw_id r) = match readable_tx r with Some _ => None | None => Some r end) /\
  n = Z.of_nat (size (fst (ListPendingTx (p_store p)))) /\
  (forall id, id ∈ bad <-> exists r, r ∈ db_pending (p_store p) /\ tw_id r = id /\ readable_tx r = None).
Proof.
  intros Hord Hnd. unfold RecoverPending.
  destruct (ListPendingTx (p_store p)) as [pend unread] eqn:E. intros [= <- <- <-]. split_and!.
  - intros r Hr. rewrite recover_all_journal.
    assert (tw_id r ∈ map fst (order pend) <-> is_Some (readable_tx r)) as Hiff.
    { rewrite Hord. injection E as <- _. pose proof (find_key_complete tw_id _ r Hnd Hr) as Hf. split.
      - intros ([id pl] & Eid & Hin%elem_of_map_to_list)%list_elem_of_fmap. simpl in Eid.
        apply elem_of_list_to_map_2 in Hin. apply list_elem_of_omap in Hin as (r' & Hr' & Er).
        destruct (readable_tx r') as [pl'|] eqn:E'; simpl in Er; [|done]. injection Er as E1 E2.
        assert (r = r') as ->; [|by rewrite E'].
        apply (NoDup_map_inj tw_id (db_pending (p_store p))); [done..|]. congruence.
      - intros [pl Hpl]. apply list_elem_of_fmap. exists (tw_id r, pl). split; [done|].
        apply elem_of_map_to_list. by eapply list_to_map_find. }
    destruct (readable_tx r) as [pl|] eqn:Er.
    + rewrite decide_True; [done|]. apply Hiff. eauto.
    + rewrite decide_False; [by apply find_key_complete|]. rewrite Hiff. by intros [? ?].
  - f_equal. by rewrite Hord, length_map_to_list.
  - intros id. injection E as _ <-. rewrite list_elem_of_fmap. setoid_rewrite elem_of_keep_if.
    setoid_rewrite bool_decide_eq_true. naive_solver.
Qed.
End Theorems.

(** ** Rolling back restores the kernel *)

Section Restores.
Context {S : Type} `{!RouteProvider S} `{!ProviderLaws S} {R : Type} `{!CommitRecord R}.
Context (rfc3339nano : Z -> string) (ErrorText : error -> string).

Lemma executePlan_pending action plan diff o own tm (p q : Protocol S R) r :
  executePlan rfc3339nano ErrorText action plan diff o own tm p = (r, q) -> rs_Status r = TxPending ->
  exists s', Apply plan (p_prov p) = (None, s') /\ p_prov q = s' /\
    rs_TxID r ∈ p_pending q /\ exists pt, p_heap q !! rs_TxID r = Some pt /\ pt_plan pt = plan /\ pt_decided pt = [].
Proof.
  unfold executePlan. destruct (begin_tx o own plan p) as [id p1] eqn:Eb.
  destruct (begin_tx_spec o own plan p id p1 Eb) as (_ & _ & _ & _ & _ & -> & _).
  destruct (Apply plan (p_prov p)) as [[err|] s'] eqn:Ea; [by intros [= <- <-]|].
  destruct (o_Unguarded o); [by intros [= <- <-]|]. intros [= <- <-] _. exists s'. simpl. split_and!; [done| | |].
  - destruct own; [|done]. destruct (applyOwnership_step rfc3339nano plan false (set_prov p1 s')) as (s & ow & Hq).
    assert (forall ops (x : Protocol S R), p_prov (fold_left (fun p op => recordOwnership rfc3339nano op p) ops x) = p_prov x) as Hp.
    { clear. induction ops as [|op ops IH]; intros x; simpl; [done|]. by rewrite IH. }
    apply (Hp (pl_Ops plan)).
  - apply elem_of_app. right. by apply list_elem_of_singleton.
  - rewrite lookup_insert_eq. by repeat eexists.
Qed.

(** C13: A change on probation can be taken back: when each of its operations
    can be taken back where it ran, its inverse has no tunnel's on-link route
    (those are left to the tunnels) and nothing else touched the kernel since,
    a rollback for whatever reason leaves a kernel no client can tell from the
    one before the change, a result and no journal entry. *)
Theorem probation_rollback_restores action plan diff o own tm (p q : Protocol S R) r platform d :
  inv p -> p_pending p = [] ->
  all_undoable (pl_Ops plan) (p_prov p) -> invert (pl_Ops plan) platform = Some (pl_Inverse plan) ->
  withoutTunnelLinks (pl_Inverse plan) = pl_Inverse plan ->
  executePlan rfc3339nano ErrorText action plan diff o own tm p = (r, q) -> rs_Status r = TxPending -> d <> decCommit ->
  let q' := settle rfc3339nano ErrorText (rs_TxID r) d q in
  same (p_prov q') (p_prov p) /\ p_resolved q' !! rs_TxID r = Some TxRolledBack /\ journal q' (rs_TxID r) = None.
Proof.
  intros I Hnil Hu Hi Hl He Hst Hd q'.
  destruct (executePlan_pending action plan diff o own tm p q r He Hst) as (s' & Ha & Hs & Hin & pt & Hpt & Hplan & Hdec).
  assert (inv q) as Iq.
  { pose proof (executePlan_inv rfc3339nano ErrorText action plan diff o own tm p I Hnil) as H. by rewrite He in H. }
  pose proof (settle_spec rfc3339nano ErrorText q (rs_TxID r) pt d Iq (proj2 (tx_some _ _ _) (conj Hin Hpt))) as [_ H2 _ _ H5 H6 _ _].
  fold q' in H2, H5, H6. unfold first_decision in *. rewrite Hdec in *. simpl in *.
  specialize (H6 (rs_TxID r)). rewrite decide_True in H6 by done. rewrite !decide_False in * by done.
  rewrite Hplan, Hl, Hs in *.
  pose proof (apply_loop_spec (pl_Ops plan) [] (p_prov p) (p_prov p) None s' eq_refl Hu Ha) as Hrun. simpl in Hrun.
  destruct (inverse_restores (pl_Ops plan) platform (pl_Inverse plan) (p_prov p) s' s' Hu Hi Hrun ltac:(reflexivity)) as (t & Ht & Hsame).
  rewrite (RunOps_ok _ _ _ Ht) in *. simpl in *. rewrite H5, H2, lookup_insert_eq. done.
Qed.
End Restores.

(** ** Routes of a previous run's tunnels *)

Section DropTunnels.
Context {S : Type} `{!RouteProvider S} {R : Type} `{!CommitRecord R}.
Context (rfc3339nano : Z -> string).

Definition stale (o : ManagedRoute) : bool := IsTunnelRoute o && negb (rt_Reject (mr_Route o)).
Definition pin (o : ManagedRoute) : bool := stale o && negb (rt_Gateway (mr_Route o) =s? "").

(** One route: the kernel, and the records of the others. *)
Lemma drop_one_spec n (p : Protocol S R) o :
  let q := snd (drop_one (n, p) o) in
  p_prov q = (if pin o then snd (DelRoute o (p_prov p)) else p_prov p) /\
  (forall k, k <> key_of o -> recorded (p_store q) k = recorded (p_store p) k) /\
  (stale o = false -> p_store q = p_store p) /\
  (stale o = true -> pin o = false -> recorded (p_store q) (key_of o) = None).
Proof.
  unfold drop_one, pin, stale, IsTunnelRoute.
  destruct (HasPrefix (mr_ProfileID o) TunnelProfilePrefix); simpl; [|by repeat split].
  destruct (rt_Reject (mr_Route o)); simpl; [by repeat split|].
  destruct (rt_Gateway (mr_Route o) =s? ""); simpl.
  - split_and!; [done| |done|]; intros; rewrite DelOwned_recorded; case_match; congruence.
  - destruct (DelRoute o (p_prov p)) as [[e|] s]; simpl; split_and!; try done.
    intros k Hk. rewrite DelOwned_recorded. by rewrite decide_False.
Qed.

Lemma drop_all_spec l : forall n (p : Protocol S R),
  (forall a b, a ∈ l -> b ∈ l -> key_of a = key_of b -> a = b) ->
  let q := snd (fold_left drop_one l (n, p)) in
  p_prov q = fold_left (fun s o => snd (DelRoute o s)) (keep_if pin l) (p_prov p) /\
  (forall k, (forall o, o ∈ l -> stale o = true -> key_of o <> k) -> recorded (p_store q) k = recorded (p_store p) k) /\
  (forall o, o ∈ l -> stale o = true -> pin o = false -> recorded (p_store q) (key_of o) = None).
Proof.
  induction l as [|o l IH]; intros n p Hk q; unfold q; clear q; cbn [fold_left].
  { simpl. split_and!; [done|done|]. intros o Ho. by apply elem_of_nil in Ho. }
  assert (keep_if pin (o :: l) = if pin o then o :: keep_if pin l else keep_if pin l) as -> by done.
  destruct (drop_one_spec n p o) as (H1 & H2 & H3 & H4). destruct (drop_one (n, p) o) as [n' p']. simpl in H1, H2, H3, H4.
  destruct (IH n' p') as (I1 & I2 & I3); [intros a b Ha Hb; by apply Hk; right|].
  rewrite I1, H1. split_and!.
  - by destruct (pin o).
  - intros k Hno. rewrite I2 by (intros x Hx; apply Hno; by right).
    destruct (stale o) eqn:Es; [|by rewrite H3]. apply H2. intros ->. by apply (Hno o); [left|..].
  - intros x [->|Hx]%elem_of_cons Hs Hp; [|by apply I3].
    destruct (decide (o ∈ l)) as [Hin|Hin]; [by apply I3|].
    rewrite I2; [by apply H4|]. intros y Hy _ E. apply Hin.
    rewrite (Hk o y); [done|by left|by right|done].
Qed.

(** At startup every route a previous run's tunnel owned is dealt with: the
    record of an on-link route is dropped without touching the kernel (its
    interface may be someone else's by now), a server pin is withdrawn, and a
    reject route and every route that is no tunnel's keep their record as it
    was. *)
Theorem DropTunnelRoutes_spec (p : Protocol S R) owned n q :
  owned_ok (p_store p) -> ListOwned (p_store p) = inr owned -> DropTunnelRoutes rfc3339nano p = (inr n, q) ->
  p_prov q = fold_left (fun s o => snd (DelRoute o s))
               (keep_if (fun o => IsTunnelRoute o && negb (rt_Reject (mr_Route o)) && negb (rt_Gateway (mr_Route o) =s? "")) owned)
               (p_prov p) /\
  forall o, o ∈ owned ->
    (IsTunnelRoute o && negb (rt_Reject (mr_Route o)) = false -> recorded (p_store q) (key_of o) = Some (Doc o)) /\
    (IsTunnelRoute o && negb (rt_Reject (mr_Route o)) = true -> rt_Gateway (mr_Route o) = "" ->
     recorded (p_store q) (key_of o) = None).
Proof.
  intros Hok Hl. unfold DropTunnelRoutes. rewrite Hl. pose proof (owned_keys _ _ Hok Hl) as Hk.
  destruct (drop_all_spec owned 0 p Hk) as (H1 & H2 & H3).
  destruct (fold_left drop_one owned (0, p)) as [m p'] eqn:E. simpl in *. intros [= _ <-].
  assert (forall b, p_prov (if b : bool then audit rfc3339nano ActorDaemon "recover" "dropped_tunnel_routes"
            ("startup: forgot " +:+ pretty m +:+ " route(s) left by the previous run's tunnels") None false [] p' else p') = p_prov p') as Hp
    by (by intros []).
  split; [by rewrite Hp|]. intros o Ho. split.
  - intros Hs. transitivity (recorded (p_store p') (key_of o)); [by destruct (0 <? m)|].
    rewrite H2.
    + by apply (ListOwned_recorded (p_store p) owned).
    + intros x Hx Hsx E'. rewrite (Hk x o Hx Ho E') in Hsx. unfold stale in Hsx. congruence.
  - intros Hs Hg. transitivity (recorded (p_store p') (key_of o)); [by destruct (0 <? m)|].
    apply H3; [done|done|]. unfold pin, stale. rewrite Hs, Hg. done.
Qed.
End DropTunnels.

(** ** Witnesses: the in-memory provider with an empty store *)

Definition ex_text (e : error) : string := match e with Errorf f _ => f | Wrapf f _ _ => f end.
(** A record of one setting. *)
Record note : Type := mkNote { nt_text : string }.
#[export] Instance note_record : CommitRecord note.
Proof.
  refine {| run_record n d := SetSetting "note" (nt_text n) d; record_keys := ["note"] |}.
  - done.
  - intros r d k Hk. unfold GetSetting, SetSetting. simpl. apply lookup_insert_ne. set_solver.
Defined.

Definition ex_opts : Options note :=
  mkOptions false false ["192.168.1.1"] 3 (2 * Second) 0 0 ActorCLI (Addr4 3232235777) None false false (Some (mkNote "office"))
    false false false.
Definition ex_x : ManagedRoute := ex_route "1.1.1.1/32" "192.168.1.1" "en0".
Definition ex_y : ManagedRoute := ex_route "2.2.2.2/32" "192.168.1.1" "en0".

Definition ex_start : Protocol Fake note := NewProtocol New ex_db 1000.

Definition ex_apply (desired : list ManagedRoute) (p : Protocol Fake note) : Result * option error * Protocol Fake note :=
  match Apply_desired "fake" ex_time ex_text "" None desired [] ex_opts None p with
  | Some (Some out) => out
  | _ => (mkResult "" emptyPlan emptyDiff [] "" false "", None, p)
  end.

(** After a change that adds one route and is on probation. *)
Definition ex_guarding : Protocol Fake note := snd (ex_apply [ex_x] ex_start).

Lemma ex_guarding_reachable : reachable "fake" ex_time ex_text "" ex_guarding.
Proof.
  exists New, ex_db, 1000. apply rtc_once.
  apply (step_apply "fake" ex_time ex_text "" ex_start None [ex_x] [] ex_opts None (ex_apply [ex_x] ex_start)).
  vm_compute. reflexivity.
Defined.

Definition ex_tx : pendingTx note :=
  mkPending "tx-1" (default emptyPlan (Reconcile [ex_x] [] [] [] "fake")) false true [] (Some (mkNote "office")) recOpen ActorCLI.

Lemma ex_guarding_tx : tx ex_guarding "tx-1" = Some ex_tx.
Proof. vm_compute. reflexivity. Defined.

Lemma one_on_probation_witness : length (p_pending ex_guarding) = 1%nat /\ (length (p_pending ex_guarding) <= 1)%nat.
Proof.
  split; [vm_compute; reflexivity|].
  apply (one_on_probation "fake" ex_time ex_text "" ex_guarding ex_guarding_reachable).
Defined.

Lemma first_decision_settles_witness :
  GetSetting "note" (p_store (settle ex_time ex_text "tx-1" decCommit ex_guarding)) = Some "office" /\
  p_pending (settle ex_time ex_text "tx-1" decCommit ex_guarding) = [].
Proof.
  split; [vm_compute; reflexivity|].
  apply (first_decision_settles "fake" ex_time ex_text "" ex_guarding "tx-1" ex_tx decCommit
           ex_guarding_reachable ex_guarding_tx).
Defined.

Definition ex_refused : list ManagedRoute := [ex_route "192.168.0.0/16" "192.168.1.1" "en0"].


Lemma panic_disarms_witness :
  onProbation ex_guarding = ["tx-1"] /\
  Forall (fun id => match tx (snd (panic_flush ex_time ex_text ActorUI None ex_guarding)) id with
                    | Some pt => pt_ownership pt = false | None => True end) ["tx-1"].
Proof.
  split; [vm_compute; reflexivity|]. constructor; [|constructor].
  pose proof (panic_disarms "fake" ex_time ex_text "" ex_guarding ActorUI None
    (fst (panic_flush ex_time ex_text ActorUI None ex_guarding))
    (snd (panic_flush ex_time ex_text ActorUI None ex_guarding)) ex_guarding_reachable
    (surjective_pairing _) "tx-1") as H.
  destruct (tx _ "tx-1") as [pt|]; [exact (H pt eq_refl)|exact I].
Defined.

Lemma shutdown_settles_witness :
  p_resolved (ShutdownResolve ex_time ex_text ex_guarding) !! "tx-1" = Some TxCommitted.
Proof.
  destruct (shutdown_settles "fake" ex_time ex_text "" ex_guarding ex_guarding_reachable) as [_ H].
  exact (proj1 (H "tx-1" ex_tx ex_guarding_tx eq_refl)).
Defined.

Definition ex_quiet : Protocol Fake note := snd (TryQuiesce Minute ex_start).

Lemma ex_quiet_reachable : reachable "fake" ex_time ex_text "" ex_quiet.
Proof. exists New, ex_db, 1000. apply rtc_once. apply step_quiesce. Defined.

Lemma quiesced_blocks_witness :
  held_off ex_quiet (Apply_desired "fake" ex_time ex_text "" None [ex_x] [] ex_opts None ex_quiet).
Proof.
  refine (proj1 (quiesced_blocks "fake" ex_time ex_text "" ex_quiet None ex_opts None ex_quiet_reachable _) [ex_x] []).
  vm_compute. reflexivity.
Defined.

(** A journal with an entry of this build, and one of a newer one. *)
Definition ex_crashed : Protocol Fake note :=
  NewProtocol New (with_pending ex_db
    [mkTxRow "tx-1" (Some 1) (Doc (mkPlan ex_ops ex_inverse)); mkTxRow "tx-2" (Some 9) (Doc emptyPlan)]) 1000.

Lemma recovery_clears_journal_witness :
  journal (snd (RecoverPending ex_time map_to_list ex_crashed)) "tx-2" = Some (mkTxRow "tx-2" (Some 9) (Doc emptyPlan)).
Proof.
  destruct (recovery_clears_journal ex_time ex_crashed map_to_list
    (fst (fst (RecoverPending ex_time map_to_list ex_crashed))) (snd (fst (RecoverPending ex_time map_to_list ex_crashed)))
    (snd (RecoverPending ex_time map_to_list ex_crashed))) as [H _].
  - intros m. reflexivity.
  - apply (bool_decide_unpack (NoDup _)). vm_compute. exact I.
  - vm_compute. reflexivity.
  - apply (H (mkTxRow "tx-2" (Some 9) (Doc emptyPlan))). right. left.
Defined.

Lemma probation_rollback_restores_witness :
  same (p_prov (settle ex_time ex_text "tx-1" decRollbackWatchdog
          (snd (executePlan ex_time ex_text "apply" (mkPlan ex_ops ex_inverse) emptyDiff ex_opts true None ex_start)))) New.
Proof.
  refine (proj1 (probation_rollback_restores ex_time ex_text "apply" (mkPlan ex_ops ex_inverse) emptyDiff ex_opts true None ex_start
    (snd (executePlan ex_time ex_text "apply" (mkPlan ex_ops ex_inverse) emptyDiff ex_opts true None ex_start))
    (fst (executePlan ex_time ex_text "apply" (mkPlan ex_ops ex_inverse) emptyDiff ex_opts true None ex_start))
    "fake" decRollbackWatchdog _ _ _ _ _ _ _ _)).
  - apply NewProtocol_inv.
  - reflexivity.
  - apply fake_all_undoable_ok. vm_compute. reflexivity.
  - vm_compute. reflexivity.
  - vm_compute. reflexivity.
  - apply surjective_pairing.
  - vm_compute. reflexivity.
  - discriminate.
Defined.

(** A pin and an on-link route of a tunnel, and a bypass of a profile. *)
Definition ex_tunnel_route (dst gw iface : string) : ManagedRoute :=
  mkMR (mr_Route (ex_route dst gw iface)) "tunnel:office" 0.
Definition ex_restarted : Protocol Fake note :=
  NewProtocol New (AddOwned ex_time ex_x (AddOwned ex_time (ex_tunnel_route "203.0.113.5/32" "192.168.1.1" "en0")
    (AddOwned ex_time (ex_tunnel_route "10.0.0.0/8" "" "utun5") ex_db))) 1000.

Lemma DropTunnelRoutes_witness :
  recorded (p_store (snd (DropTunnelRoutes ex_time ex_restarted))) (key_of (ex_tunnel_route "10.0.0.0/8" "" "utun5")) = None.
Proof.
  set (owned := match ListOwned (p_store ex_restarted) with inr l => l | inl _ => [] end).
  destruct (DropTunnelRoutes_spec ex_time ex_restarted owned 1 (snd (DropTunnelRoutes ex_time ex_restarted))) as [_ H].
  - repeat apply AddOwned_ok. apply ex_db_ok.
  - vm_compute. reflexivity.
  - vm_compute. reflexivity.
  - apply (H (ex_tunnel_route "10.0.0.0/8" "" "utun5")).
    + apply (bool_decide_unpack (_ ∈ owned)). vm_compute. exact I.
    + vm_compute. reflexivity.
    + reflexivity.
Defined.

(** ** A plan made before the rollback it runs after *)

Definition in_kernel (dst : string) (p : Protocol Fake note) : bool :=
  existsb (fun r => rt_DstCIDR r =s? dst) (f_routesV4 (p_prov p)).

(** An apply can execute a plan that no longer fits. A change on probation
    added a route; its watchdog has decided to roll it back. An apply that
    wants that route and one more plans against the kernel that still has it,
    and only then waits for the pending change, which rolls back and takes the
    route away. The apply then adds the one more, reports a change on
    probation with no error, and the route it wanted is neither in the kernel
    nor owned: a plan for the same desired set is not empty. *)
Theorem stale_plan_executed :
  let p := decide_id "tx-1" decRollbackWatchdog ex_guarding in
  let '(r, err, q) := ex_apply [ex_x; ex_y] p in
  reachable "fake" ex_time ex_text "" p /\ err = None /\ rs_Status r = TxPending /\
  in_kernel "1.1.1.1/32" q = false /\ in_kernel "2.2.2.2/32" q = true /\
  ListOwned (p_store q) = inr [ex_y] /\
  (exists plan d, Plan_preview "fake" [ex_x; ex_y] [] q = Some (plan, d) /\ di_InSync d = false).
Proof.
  cbv zeta.
  assert (reachable "fake" ex_time ex_text "" (decide_id "tx-1" decRollbackWatchdog ex_guarding)) as Hr.
  { destruct ex_guarding_reachable as (prov & st & now & H). exists prov, st, now.
    eapply rtc_r; [exact H|apply step_decide]. }
  destruct (ex_apply [ex_x; ex_y] (decide_id "tx-1" decRollbackWatchdog ex_guarding)) as [[r err] q] eqn:E.
  vm_compute in E. injection E as <- <- <-.
  split_and!; [exact Hr|vm_compute; reflexivity..|]. eexists _, _. split; vm_compute; reflexivity.
Qed.
