(* ===== verification/Service.v ===== *)
(** * The core service: what an apply is built from (internal/core/service.go)

    The daemon's core reads the provider and the store and builds the desired
    set of a full apply and of a tunnel apply. It keeps no state of its own but
    the store's. What it is wired to is read through callbacks: their answers
    are fields of [Service], an unset one is [None]. A failed read of a slice is
    the empty slice, as the calls that ignore the error have it.

    Arguments: the orders Go ranges over maps in ([fam_order], [range_map]),
    how documents are written and read ([json]), whether the provider lists
    other tables ([ListTable], Linux), and what the resolver cache answers. *)

From S2P Require Import Prelude.
From S2P Require Import Netip NetipText Aggregate Domain Reconcile Nets Input Tunnels Installed Engine Destinations.
From S2P Require Import Provider DnsCache Tailscale Yielded Watchdog LiveRepair Store.

(** How the settings that hold documents are written; [json.Unmarshal] leaves a
    value behind even when it fails, which the loads ignore. *)
Record Json : Type := mkJson {
  js_yielded : yielded -> string;
  js_unyielded : string -> yielded;
  js_routes : gmap string (list string) -> string;
  js_unroutes : string -> gmap string (list string);
  js_unsplit : string -> error + list SplitDNSRoute;
}.

Record Service (S : Type) : Type := mkService {
  sv_prov : S;
  sv_store : option DB;
  sv_now : Z;
  sv_domains : option (string -> list addr);      (* what the cache answers *)
  sv_wildcardIPs : option (string -> list string);
  sv_tunnelInputs : option (list TunnelInput);
  sv_tunnelStatus : option (list TunnelStatus);
  sv_heldRoutes : option (list HeldRoute);
}.
Arguments sv_prov {S} s. Arguments sv_store {S} s. Arguments sv_now {S} s. Arguments sv_domains {S} s.
Arguments sv_wildcardIPs {S} s. Arguments sv_tunnelInputs {S} s. Arguments sv_tunnelStatus {S} s.
Arguments sv_heldRoutes {S} s. Arguments mkService {S} _ _ _ _ _ _ _ _.

(** A read whose error is ignored. *)
Definition or_nil {A} (r : error + list A) : list A := match r with inl _ => [] | inr l => l end.

(** ** Pure helpers *)

Definition ifaceNet (ifaces : list Iface) (name : string) (gw : addr) : prefix :=
  if (name =s? "") || negb (IsValid gw) then PrefixZero
  else
    let ok p := Contains (Masked p) gw && (p_bits p <? BitLen (p_addr p)) in
    let nets := keep_if (fun i => if_Name i =s? name) ifaces ≫= fun i => keep_if ok (omap ParsePrefix (if_Addrs i)) in
    match nets with [] => PrefixZero | p :: _ => Masked p end.

Definition both_families : list Family := [FamilyV4; FamilyV6].

(** ** What an apply records when it commits

    The texts its record writes to the two settings that tunnel applies read. *)

Definition yieldedKey : string := "tunnels.yielded".
Definition profileRoutesKey : string := "tunnels.profile_routes".

Record commit_settings : Type := mkCommit { cs_yielded : option string; cs_routes : option string }.

Definition write_setting (key : string) (v : option string) (d : DB) : DB :=
  match v with Some v => SetSetting key v d | None => d end.

#[export] Instance commit_settings_record : CommitRecord commit_settings.
Proof.
  refine {| run_record c d := write_setting profileRoutesKey (cs_routes c) (write_setting yieldedKey (cs_yielded c) d);
            record_keys := [yieldedKey; profileRoutesKey] |}.
  - intros [[y|] [r|]] d; by destruct d.
  - intros [y r] d k Hk. rewrite !not_elem_of_cons in Hk. destruct Hk as (Hy & Hr & _).
    unfold GetSetting, write_setting, SetSetting. destruct y, r; simpl; by rewrite ?lookup_insert_ne by done.
Defined.

Section service.
Context {S : Type} `{!RouteProvider S}.
Context (fam_order : list Family) (range_map : gmap string string -> list (string * string)) (json : Json).
Context (ListTable : option (Family -> string -> S -> error + list Route)).
Implicit Types s : Service S.

Definition Platform s : string := cap_Platform (GetCapabilities (sv_prov s)).
Definition tunnels s : list TunnelInput := default [] (sv_tunnelInputs s).

(** ** What is installed *)

Definition actualManagedRoutes s : list ManagedRoute :=
  let scan := both_families ≫= fun fam =>
    map (fun r => mkMR r (rt_Profile r) 0) (keep_if (fun r => rt_Owner r =s? OwnerRiftRoute) (or_nil (ListRoutes fam (sv_prov s)))) in
  match sv_store s with
  | Some d => match ListOwned d with inr owned => owned | inl _ => scan end
  | None => scan
  end.

Definition actualManagedRules s : list ManagedRule :=
  both_families ≫= fun fam =>
    map (fun r => mkMRule r "" 0) (keep_if (fun r => pr_Proto r =s? "riftroute") (or_nil (ListRules fam (sv_prov s)))).

(** ** The network side *)

Definition tailscale s (ifaces : list Iface) : option TailscaleStatus :=
  let resolvers := match DNSConfig (sv_prov s) with
                   | inr cfg => map Unmap (omap ParseAddr (dns_Servers cfg))
                   | inl _ => []
                   end in
  let '(_, _, ok) := Find ifaces [] resolvers in
  if negb ok then None
  else
    let routes := both_families ≫= fun fam =>
      or_nil (ListRoutes fam (sv_prov s)) ++
      match ListTable with Some list => or_nil (list fam LinuxTable (sv_prov s)) | None => [] end in
    Detect ifaces routes resolvers.

(** The resolvers the user pointed a domain at. *)
Definition perDomain s : gset addr :=
  match sv_store s with
  | None => ∅
  | Some d => match LoadSplitDNS (js_unsplit json) d with
              | inl _ => ∅
              | inr rs => list_to_set (omap (fun r => Unmap <$> ParseAddr (sd_Resolver r)) rs)
              end
  end.

Definition systemResolvers s : list addr :=
  match DNSConfig (sv_prov s) with
  | inl _ => []
  | inr cfg =>
      map (fun a => WithZone (Unmap a) "")
        (keep_if (fun a => negb (bool_decide (Unmap a ∈ perDomain s))) (omap ParseAddr (dns_Servers cfg)))
  end.

Definition occupied_step (ours : gset string) (out : gmap string string) (r : Route) : gmap string string :=
  if negb (rt_Table r =s? "") || rt_Cloned r || (rt_Owner r =s? OwnerRiftRoute) || bool_decide (KernelKey r ∈ ours) then out
  else match ParsePrefix (rt_DstCIDR r) with
       | Some pfx => if 0 <? p_bits pfx
                     then <[prefix_String (Masked pfx) := if rt_Reject r then "a reject route" else rt_Iface r]> out
                     else out
       | None => out
       end.

Definition occupied s (owned : list ManagedRoute) : gmap string string :=
  let ours : gset string := list_to_set (map (fun o => KernelKey (mr_Route o)) owned) in
  fold_left (occupied_step ours) (both_families ≫= fun fam => or_nil (ListRoutes fam (sv_prov s))) ∅.

Definition occupy_tailscale (iface : string) (nets : list prefix) (m : gmap string string) : gmap string string :=
  fold_left (fun m n => let k := prefix_String (Masked n) in
               match m !! k with Some _ => m | None => <[k := iface +:+ " (Tailscale)"]> m end) nets m.

(** The physical gateways; without tunnels the rest is not read. [owned] is
    [None] to read the ownership map. *)
Definition networkInput s (tuns : list TunnelInput) (owned : option (list ManagedRoute)) : DesiredInput :=
  let '(gw4, if4) := match DefaultGateway FamilyV4 (sv_prov s) with inr g => g | inl _ => (AddrZero, "") end in
  let '(gw6, if6) := match DefaultGateway FamilyV6 (sv_prov s) with inr g => g | inl _ => (AddrZero, "") end in
  let ifaces := Interfaces (sv_prov s) in
  let ts := tailscale s (or_nil ifaces) in
  let nets := match ts with Some st => Networks st | None => [] end in
  let '(table, exit) := match ts, ListTable with
                        | Some st, Some _ => (LinuxTable, ts_ExitNode st)
                        | _, _ => ("", false)
                        end in
  let base phys4 phys6 occ dns anchors :=
    mkDesiredInput [] gw4 gw6 if4 if6 phys4 phys6 AddrZero AddrZero "" "" ∅ ∅ tuns occ dns anchors nets table exit
      (Platform s) false (sv_now s) in
  match tuns with
  | [] => base PrefixZero PrefixZero [] [] []
  | _ =>
      let owned := match owned with Some o => o | None => actualManagedRoutes s end in
      let phys4 := match ifaces with inr l => ifaceNet l if4 gw4 | inl _ => PrefixZero end in
      let phys6 := match ifaces with inr l => ifaceNet l if6 (WithZone gw6 "") | inl _ => PrefixZero end in
      let occ := occupied s owned in
      let dns := systemResolvers s in
      let occ := match ts with Some st => occupy_tailscale (ts_Iface st) nets occ | None => occ end in
      let dns := match ts with
                 | Some _ => if bool_decide (MagicDNS ∈ dns) then dns else dns ++ [MagicDNS]
                 | None => dns
                 end in
      base phys4 phys6 (range_map occ) dns (omap ParseAddr (DefaultAnchors gw4))
  end.

Definition TunnelProtected s : list addr :=
  let gw4 := match DefaultGateway FamilyV4 (sv_prov s) with inr (g, _) => g | inl _ => AddrZero end in
  keep_if IsValid [gw4] ++
  match DefaultGateway FamilyV6 (sv_prov s) with inr (g, _) => if IsValid g then [WithZone g ""] else [] | inl _ => [] end ++
  systemResolvers s ++ omap ParseAddr (DefaultAnchors gw4).

(** ** The profiles' side *)

Definition listsMap s : gmap string (list string) :=
  match sv_store s with
  | None => ∅
  | Some d => fold_left (fun m l => <[nl_Name l := Entries l]> m) (or_nil (ListLists d)) ∅
  end.

(** The domain rules of the enabled profiles, in order. *)
Definition domain_rules (profiles : list Profile) : list Rule :=
  keep_if pf_Enabled profiles ≫= fun p => keep_if (fun r => r_Type r =s? RuleDomain) (pf_Rules p).

(** One rule's addresses, and whether its own lookup came back empty. *)
Definition domain_answer s (lookup : string -> list addr) (value : string) : list string * bool :=
  let ss := map addr_String (lookup (DomainRuleHost value)) in
  (match sv_wildcardIPs s with
   | Some ips => if HasPrefix value "*." then ss ++ dedup (list_to_set ss) (ips value) else ss
   | None => ss
   end, (length ss =? 0)%nat).

Definition lookupDomains s (profiles : list Profile) : gmap string (list string) * gset string :=
  match sv_domains s with
  | None => (∅, ∅)
  | Some lookup =>
      fold_left (fun acc r =>
        let '(ss, empty) := domain_answer s lookup (r_Value r) in
        (<[r_Value r := ss]> (fst acc), if empty then {[r_Value r]} ∪ snd acc else snd acc)) (domain_rules profiles) (∅, ∅)
  end.

Definition resolveDomains s (profiles : list Profile) : gmap string (list string) := fst (lookupDomains s profiles).

Definition resolveVPN s (fam : Family) : addr * string :=
  let vpn : gset string := list_to_set (map if_Name (keep_if (fun i => if_IsVPN i && if_Up i) (or_nil (Interfaces (sv_prov s))))) in
  let def := if fam =s? FamilyV6 then "::/0" else "0.0.0.0/0" in
  match List.find (fun r => (rt_Table r =s? "") && negb (rt_Scoped r) && (rt_DstCIDR r =s? def) &&
                            bool_decide (rt_Iface r ∈ vpn)) (or_nil (ListRoutes fam (sv_prov s))) with
  | Some r => (default AddrZero (ParseAddr (rt_Gateway r)), rt_Iface r)
  | None => (AddrZero, "")
  end.

Definition set_tunnels (inp : DesiredInput) (tuns : list TunnelInput) (occ : list (string * string)) : DesiredInput :=
  mkDesiredInput (in_Profiles inp) (in_GatewayV4 inp) (in_GatewayV6 inp) (in_PhysIfaceV4 inp) (in_PhysIfaceV6 inp)
    (in_PhysNetV4 inp) (in_PhysNetV6 inp) (in_VPNGatewayV4 inp) (in_VPNGatewayV6 inp) (in_VPNIfaceV4 inp)
    (in_VPNIfaceV6 inp) (in_Lists inp) (in_Domains inp) tuns occ (in_DNSServers inp) (in_Anchors inp) (in_Tailscale inp)
    (in_TailscaleTable inp) (in_TailscaleExitNode inp) (in_Platform inp) (in_PolicyRouting inp) (in_Now inp).

(** The network side with the profiles' fields set. *)
Definition with_profile_side (inp : DesiredInput) (profiles : list Profile) (policy : bool)
    (lists domains : gmap string (list string)) (vpn4 vpn6 : addr * string) : DesiredInput :=
  mkDesiredInput profiles (in_GatewayV4 inp) (in_GatewayV6 inp) (in_PhysIfaceV4 inp) (in_PhysIfaceV6 inp)
    (in_PhysNetV4 inp) (in_PhysNetV6 inp) (fst vpn4) (fst vpn6) (snd vpn4) (snd vpn6) lists domains (in_Tunnels inp)
    (in_Occupied inp) (in_DNSServers inp) (in_Anchors inp) (in_Tailscale inp) (in_TailscaleTable inp)
    (in_TailscaleExitNode inp) (in_Platform inp) policy (in_Now inp).

Definition profileInput s (profiles : list Profile) : DesiredInput :=
  let inp := networkInput s (tunnels s) None in
  let inp := with_profile_side inp profiles (cap_PolicyRouting (GetCapabilities (sv_prov s))) (listsMap s)
               (resolveDomains s profiles) (resolveVPN s FamilyV4) (resolveVPN s FamilyV6) in
  set_tunnels inp (WithRoutes (in_Tunnels inp) (TunnelProfileRoutes fam_order inp)) (in_Occupied inp).

(** ** Desired sets *)

Definition stored_profiles s : list Profile :=
  match sv_store s with Some d => or_nil (ListProfiles d) | None => [] end.

Definition DesiredFromProfiles s (profiles : list Profile)
    : (build_error + list ManagedRoute * list ManagedRule) * addr :=
  let inp := profileInput s profiles in (BuildDesired fam_order inp, in_GatewayV4 inp).

Definition DesiredManaged s := DesiredFromProfiles s (stored_profiles s).

(** ** The records of full applies, in settings *)

Definition set_sv_store s (st : option DB) : Service S :=
  mkService (sv_prov s) st (sv_now s) (sv_domains s) (sv_wildcardIPs s) (sv_tunnelInputs s) (sv_tunnelStatus s)
    (sv_heldRoutes s).

Definition loadYielded s : yielded :=
  match sv_store s with
  | None => nothing_yielded
  | Some d => match GetSetting yieldedKey d with Some v => js_unyielded json v | None => nothing_yielded end
  end.

Definition loadProfileRoutes s : gmap string (list string) :=
  match sv_store s with
  | None => ∅
  | Some d => match GetSetting profileRoutesKey d with Some v => js_unroutes json v | None => ∅ end
  end.

Definition saveYielded (y : yielded) s : Service S :=
  set_sv_store s (SetSetting yieldedKey (js_yielded json y) <$> sv_store s).

Definition saveProfileRoutes (m : gmap string (list string)) s : Service S :=
  set_sv_store s (SetSetting profileRoutesKey (js_routes json m) <$> sv_store s).

Definition ForgetRecords s : Service S := saveProfileRoutes ∅ (saveYielded nothing_yielded s).

(** What [ForgetRecords] writes, as the step a panic runs before its flush. *)
Definition forget_record : commit_settings := mkCommit (Some (js_yielded json nothing_yielded)) (Some (js_routes json ∅)).

(** The profiles' destinations; a domain rule whose own lookup came back empty
    is left without addresses. *)
Definition destinations s : option Destinations :=
  match sv_store s with
  | None => None
  | Some d =>
      match ListProfiles d, ListLists d with
      | inr profiles, inr _ =>
          let '(domains, unresolved) := lookupDomains s profiles in
          let domains := set_fold (fun v m => <[v := []]> m) domains unresolved in
          Some (ProfileDestinations
            (mkDesiredInput profiles AddrZero AddrZero "" "" PrefixZero PrefixZero AddrZero AddrZero "" "" (listsMap s) domains
               [] [] [] [] [] "" false "" false 0))
      | _, _ => None
      end
  end.

(** ** A tunnel apply's set *)

Definition tunnelsOnly s (owned : list ManagedRoute) : list ManagedRoute * list ManagedRule * addr * yielded :=
  let inp := networkInput s (WithRoutes (tunnels s) (loadProfileRoutes s)) (Some owned) in
  let others := not_tunnel owned in
  let dest := destinations s in
  let prev := stillWanted (loadYielded s) dest in
  let others := putBackRoutes prev others in
  let rules := putBackRules prev (actualManagedRules s) in
  let tp := PlanTunnels inp in
  let routes := Beside tp others in
  let beside := RulesBeside tp rules in
  let y := attributed (yieldedTo tp others rules routes) dest in
  let '(routes, beside) := BesideTailscale inp routes beside in
  (routes, beside, in_GatewayV4 inp, y).

Definition DesiredTunnelsOnly s (owned : list ManagedRoute) : list ManagedRoute * list ManagedRule * addr :=
  let '(routes, rules, gw, _) := tunnelsOnly s owned in (routes, rules, gw).

(** The set, the gateway, and what its commit records. *)
Definition TunnelsForApply s (owned : list ManagedRoute)
    : list ManagedRoute * list ManagedRule * addr * commit_settings :=
  let '(routes, rules, gw, y) := tunnelsOnly s owned in (routes, rules, gw, mkCommit (Some (js_yielded json y)) None).

(** ** A full apply's set *)

(** What a full apply records: what gave way to the tunnels, and the tunnel-mode
    profiles' destinations. *)
Definition apply_record (inp : DesiredInput) (routes : list ManagedRoute)
    : option (yielded * gmap string (list string)) :=
  match BuildDesired fam_order (set_tunnels inp [] []) with
  | inl _ => None
  | inr (bareRoutes, bareRules) =>
      Some (yieldedTo (PlanTunnels inp) bareRoutes bareRules routes, TunnelProfileRoutes fam_order inp)
  end.

Definition commit_record (r : option (yielded * gmap string (list string))) : option commit_settings :=
  match r with Some (y, pr) => Some (mkCommit (Some (js_yielded json y)) (Some (js_routes json pr))) | None => None end.

Definition DesiredForApply s
    : (build_error + list ManagedRoute * list ManagedRule) * addr * option commit_settings :=
  let inp := profileInput s (stored_profiles s) in
  match BuildDesired fam_order inp with
  | inl e => (inl e, in_GatewayV4 inp, None)
  | inr (routes, rules) => (inr (routes, rules), in_GatewayV4 inp, commit_record (apply_record inp routes))
  end.

(** ** Tunnels that are there *)

Definition OwnsTunnelRoutes s : bool := existsb IsTunnelRoute (actualManagedRoutes s).
Definition TunnelsActive s : bool := negb (length (tunnels s) =? 0)%nat || OwnsTunnelRoutes s.
End service.

(** ** What a tunnel apply may install *)

Lemma stillWanted_in y dest :
  (forall r, r ∈ y_Routes (stillWanted y dest) -> r ∈ y_Routes y) /\
  (forall r, r ∈ y_Rules (stillWanted y dest) -> r ∈ y_Rules y).
Proof.
  unfold stillWanted. case_if; [done|]. destruct dest; [|done]. simpl. split; intros r [? _]%elem_of_keep_if; done.
Qed.

Lemma stillWanted_held y d :
  Forall (fun r => HoldsRoute d r = true) (y_Routes (stillWanted y (Some d))) /\
  Forall (fun r => HoldsRule d (yr_Rule r) = true) (y_Rules (stillWanted y (Some d))).
Proof.
  unfold stillWanted. case_if; bool_hyps.
  - destruct y as [[] []]; [|done..]. split; constructor.
  - simpl. split; apply Forall_forall; by intros r [_ ?]%elem_of_keep_if.
Qed.

Lemma putBackRoutes_in y routes r : r ∈ putBackRoutes y routes -> r ∈ routes \/ r ∈ y_Routes y.
Proof. unfold putBackRoutes. intros [?|?%once_in]%elem_of_app; auto. Qed.

Lemma putBackRules_in y rules r : r ∈ putBackRules y rules -> r ∈ rules \/ r ∈ map yr_Rule (y_Rules y).
Proof.
  unfold putBackRules. destruct (y_Rules y) eqn:E; [by left|]. rewrite <- E.
  intros [[? _]%elem_of_keep_if|?]%once_in%elem_of_app; auto.
Qed.

(** [BesideTailscale] copies main-table routes into its bypass table, and adds
    its own lookup rules. *)
Lemma BesideTailscale_in inp routes rules :
  (forall r, r ∈ fst (BesideTailscale inp routes rules) ->
     exists o, o ∈ routes /\ (r = o \/ rt_Table (mr_Route o) = "" /\ r = set_table o BypassTable)) /\
  (forall l, l ∈ snd (BesideTailscale inp routes rules) ->
     l ∈ rules \/ exists fam, l = tailscale_rule inp fam \/ l = bypass_rule inp fam).
Proof.
  unfold BesideTailscale. set (rs := keep_if _ routes). set (ls := keep_if _ rules).
  assert (forall r, r ∈ rs -> r ∈ routes) as Hr by (intros r [? _]%elem_of_keep_if; done).
  assert (forall l, l ∈ ls -> l ∈ rules) as Hl by (intros l [? _]%elem_of_keep_if; done).
  case_match; simpl; [split; [intros r ?; exists r; auto|intros l ?; auto]|].
  assert (forall l, l ∈ ls ++ map (tailscale_rule inp) (keep_if (fun fam => bool_decide (fam ∈ map (fun n => famOf (p_addr n)) (in_Tailscale inp))) [FamilyV4; FamilyV6]) ->
    l ∈ rules \/ exists fam, l = tailscale_rule inp fam \/ l = bypass_rule inp fam) as Ht.
  { intros l [?|(fam & -> & _)%list_elem_of_fmap]%elem_of_app; eauto. }
  case_match; cbn [fst snd]; (split; [intros r Hin|intros l Hin]).
  - exists r. auto.
  - by apply Ht.
  - apply elem_of_app in Hin as [Hin|Hin]; [exists r; auto|]. apply list_elem_of_fmap in Hin as (o & -> & Ho).
    apply elem_of_keep_if in Ho as [Ho Hm]. bool_hyps. exists o. auto.
  - apply elem_of_app in Hin as [Hin|(fam & -> & _)%list_elem_of_fmap]; [by apply Ht|eauto].
Qed.

Section tunnel_apply.
Context {S : Type} `{!RouteProvider S}.
Context (fam_order : list Family) (range_map : gmap string string -> list (string * string)) (json : Json).
Context (ListTable : option (Family -> string -> S -> error + list Route)).

(** The network input of a tunnel apply. *)
Definition tunnel_input (s : Service S) (owned : list ManagedRoute) : DesiredInput :=
  networkInput range_map json ListTable s (WithRoutes (tunnels s) (loadProfileRoutes json s)) (Some owned).

(** Another set of stored profiles, not applied. *)
Definition restage (s : Service S) (ps : list profile_row) : Service S :=
  set_sv_store s ((fun d => with_profiles d ps) <$> sv_store s).

Lemma restage_unseen s ps owned :
  tunnel_input (restage s ps) owned = tunnel_input s owned /\
  loadYielded json (restage s ps) = loadYielded json s /\
  actualManagedRules (restage s ps) = actualManagedRules s.
Proof. destruct s as [pr [d|] ? ? ? ? ? ?]; done. Qed.

(** C29: a tunnel apply never applies a staged profile change. Whatever profiles
    are stored, each of its routes is a route of the tunnels' plan, an owned
    route that is no tunnel's, or one that gave way to a tunnel earlier, or the
    copy of such a route for a Tailscale exit node; each of its rules is an
    installed rule or one that gave way, whole or cut to a part of its own
    destination that lies outside the tunnels' networks, or one of Tailscale's
    lookup rules. The plan, the records and the installed rules do not depend on
    the stored profiles, and what no enabled profile routes any more is not put
    back. *)
Theorem tunnel_apply_no_staged (s : Service S) (owned : list ManagedRoute) (ps : list profile_row) :
  input_ok (tunnel_input s owned) ->
  let s' := restage s ps in
  let '(routes, rules, gw, _) := tunnelsOnly range_map json ListTable s' owned in
  let tp := PlanTunnels (tunnel_input s owned) in
  let y := loadYielded json s in
  gw = in_GatewayV4 (tunnel_input s owned) /\
  (forall r, r ∈ routes -> exists o,
     (o ∈ tp_Routes tp \/ o ∈ not_tunnel owned \/
      o ∈ y_Routes y /\ (forall d, destinations s' = Some d -> HoldsRoute d o = true)) /\
     (r = o \/ rt_Table (mr_Route o) = "" /\ r = set_table o BypassTable)) /\
  (forall l, l ∈ rules ->
     (exists o, (o ∈ actualManagedRules s \/
        exists yr, yr ∈ y_Rules y /\ o = yr_Rule yr /\ (forall d, destinations s' = Some d -> HoldsRule d o = true)) /\
       (l = o \/ cut_around (tp_nets tp) o l)) \/
     exists fam, l = tailscale_rule (tunnel_input s owned) fam \/ l = bypass_rule (tunnel_input s owned) fam).
Proof.
  intros Hok s'. destruct (restage_unseen s ps owned) as (Hin & Hy & Hr). fold s' in Hin, Hy, Hr.
  unfold tunnelsOnly. fold (tunnel_input s' owned). rewrite Hin, Hy, Hr.
  set (tp := PlanTunnels (tunnel_input s owned)). set (prev := stillWanted _ _).
  set (others := putBackRoutes prev _). set (rls := putBackRules prev _).
  destruct (BesideTailscale_in (tunnel_input s owned) (Beside tp others) (RulesBeside tp rls)) as [H1 H2].
  destruct (BesideTailscale _ _ _) as [routes rules]. split; [done|]. split.
  - intros r Hr'. destruct (H1 r Hr') as (o & Ho & Hcopy). exists o. split; [|done].
    apply Beside_in in Ho as [Ho|[Ho _]]; [by left|]. apply putBackRoutes_in in Ho as [Ho|Ho]; [by right; left|].
    right. right. split; [by apply (stillWanted_in _ (destinations s'))|]. intros d Hd. unfold prev in Ho. rewrite Hd in Ho.
    pose proof (proj1 (stillWanted_held (loadYielded json s) d)) as Hh. rewrite Forall_forall in Hh. by apply Hh.
  - intros l Hl. destruct (H2 l Hl) as [Ho|Ho]; [left|by right].
    apply RulesBeside_in in Ho as (o & Ho & Hcut); [|by apply PlanTunnels_nets]. exists o. split; [|done].
    apply putBackRules_in in Ho as [Ho|Ho]; [by left|]. right. apply list_elem_of_fmap in Ho as (yr & -> & Hyr). exists yr.
    split; [by apply (stillWanted_in _ (destinations s'))|]. split; [done|]. intros d Hd. unfold prev in Hyr. rewrite Hd in Hyr.
    pose proof (proj2 (stillWanted_held (loadYielded json s) d)) as Hh. rewrite Forall_forall in Hh. by apply Hh.
Qed.

(** a panic leaves nothing to put back: once the records are forgotten, a
    tunnel apply installs only the tunnels' routes, what is owned, and exit-node
    copies of those. *)
Theorem forgotten_not_put_back (s : Service S) (owned : list ManagedRoute) :
  js_unyielded json (js_yielded json nothing_yielded) = nothing_yielded ->
  js_unroutes json (js_routes json ∅) = ∅ ->
  let s' := ForgetRecords json s in
  let '(routes, _, _, _) := tunnelsOnly range_map json ListTable s' owned in
  loadYielded json s' = nothing_yielded /\ loadProfileRoutes json s' = ∅ /\
  forall r, r ∈ routes -> exists o, (o ∈ tp_Routes (PlanTunnels (tunnel_input s' owned)) \/ o ∈ not_tunnel owned) /\
    (r = o \/ rt_Table (mr_Route o) = "" /\ r = set_table o BypassTable).
Proof.
  intros Hj Hj2 s'.
  assert (loadYielded json s' = nothing_yielded) as Hy.
  { unfold s', ForgetRecords, saveProfileRoutes, saveYielded, loadYielded. destruct s as [pr [d|] ? ? ? ? ? ?]; simpl; [|done].
    unfold GetSetting, SetSetting. simpl. rewrite lookup_insert_ne by done. by rewrite lookup_insert_eq, Hj. }
  assert (loadProfileRoutes json s' = ∅) as Hp.
  { unfold s', ForgetRecords, saveProfileRoutes, saveYielded, loadProfileRoutes. destruct s as [pr [d|] ? ? ? ? ? ?]; simpl; [|done].
    unfold GetSetting, SetSetting. simpl. by rewrite lookup_insert_eq, Hj2. }
  unfold tunnelsOnly. fold (tunnel_input s' owned). rewrite Hy. cbn [stillWanted nothing_yielded].
  set (tp := PlanTunnels _). unfold putBackRoutes. cbn [y_Routes once]. rewrite app_nil_r.
  destruct (BesideTailscale_in (tunnel_input s' owned) (Beside tp (not_tunnel owned))
    (RulesBeside tp (putBackRules (mkYielded [] []) (actualManagedRules s')))) as [H1 _].
  destruct (BesideTailscale _ _ _) as [routes rules]. split_and!; [done..|].
  intros r Hr. destruct (H1 r Hr) as (o & Ho & Hc). exists o. split; [|done].
  apply Beside_in in Ho as [?|[? _]]; auto.
Qed.
End tunnel_apply.

(** Documents of one kind only, enough to hold an empty record. *)
Definition ex_json : Json := mkJson (fun _ => "{}") (fun _ => nothing_yielded) (fun _ => "{}") (fun _ => ∅) (fun _ => inr []).
Definition ex_service : Service Base := mkService mkBase (Some ex_db) 0 None None (Some [ex_office]) None None.

(** A rule that gave way earlier, and is cut around the tunnel's networks. *)
Definition ex_yielded : yielded := mkYielded [] [mkYieldedRule (ex_rule "to 10.0.0.0/7") []].
Definition ex_json_yielded : Json := mkJson (fun _ => "{}") (fun _ => ex_yielded) (fun _ => "{}") (fun _ => ∅) (fun _ => inr []).
Definition ex_service_yielded : Service Base := mkService mkBase (Some (SetSetting yieldedKey "{}" ex_db)) 0 None None (Some [ex_office]) None None.

Definition ex_include : profile_row :=
  mkProfileRow "p" "P" true 0 (Doc (mkProfile "p" "P" "" true ModeInclude "auto" 0 [mkRule RuleCIDR "10.0.0.0/7" ""] [] [] "")).

Lemma tunnel_apply_no_staged_witness :
  let '(routes, rules, _, _) := tunnelsOnly map_to_list ex_json_yielded None (restage ex_service_yielded [ex_include]) [] in
  map (fun l => pr_Selector (ml_Rule l)) rules = ["to 11.0.0.0/8"] /\
  forall r, r ∈ routes -> exists o,
    (o ∈ tp_Routes (PlanTunnels (tunnel_input map_to_list ex_json_yielded None ex_service_yielded [])) \/ o ∈ not_tunnel [] \/ o ∈ []) /\
    (r = o \/ rt_Table (mr_Route o) = "" /\ r = set_table o BypassTable).
Proof.
  pose proof (tunnel_apply_no_staged map_to_list ex_json_yielded None ex_service_yielded [] [ex_include]) as H.
  assert (map (fun l => pr_Selector (ml_Rule l)) (snd (fst (fst (tunnelsOnly map_to_list ex_json_yielded None (restage ex_service_yielded [ex_include]) [])))) = ["to 11.0.0.0/8"]) as Hsel
    by (vm_compute; reflexivity).
  cbv zeta in H. destruct (tunnelsOnly map_to_list ex_json_yielded None (restage ex_service_yielded [ex_include]) []) as [[[routes rules] gw] y].
  split; [exact Hsel|]. destruct H as (_ & H & _).
  - apply (bool_decide_unpack (input_ok (tunnel_input map_to_list ex_json_yielded None ex_service_yielded []))). vm_compute. exact I.
  - intros r Hr. destruct (H r Hr) as (o & [Ho|[Ho|[Ho _]]] & Hc); exists o; (split; [|exact Hc]).
    + left. exact Ho.
    + right. left. exact Ho.
    + right. right. exact Ho.
Defined.

Lemma forgotten_not_put_back_witness :
  loadYielded ex_json (ForgetRecords ex_json ex_service) = nothing_yielded.
Proof.
  pose proof (forgotten_not_put_back map_to_list ex_json None ex_service [ex_route "10.1.0.0/16" "192.168.1.1" "en0"]
    eq_refl eq_refl) as H.
  cbv zeta in H. destruct (tunnelsOnly map_to_list ex_json None (ForgetRecords ex_json ex_service) _)
    as [[[routes rules] gw] y]. exact (proj1 H).
Defined.
