(* ===== verification/KillswitchApi.v ===== *)
(** * The daemon's kill switch (internal/api/killswitch.go)

    The part of the API server that owns the kill switch: the user's choice, its
    saving and restoring, the periodic re-sync, and the daemon giving way when
    the switch cuts the VPN itself. The server's [ksMu] makes each operation one
    step; the interface it drives is [Manager] of Killswitch.v. The body a
    request decodes to, whether the request's context is done, and what the
    manager sees during [ksCheckDelay] are arguments. *)

From S2P Require Import Prelude.
From S2P Require Import Netip NetipText Domain Provider FakeProvider Netmon Killswitch Store Service.

Definition killSwitchKey : string := "kill_switch".
Definition SettingKillSwitchNotice : string := "kill_switch_notice".

Definition ksCutNotice : string :=
  "Turned the kill switch off: your VPN's own connection runs as your user " +:+
  "account (for example Windscribe in WireGuard mode), so the kill switch was cutting it. " +:+
  "Use your VPN app's own kill switch or firewall, or a VPN protocol whose connection runs " +:+
  "as administrator (such as IKEv2).".

Definition errCutsVPN : error := Errorf ksCutNotice [].

Definition ksStrikesToYield : Z := 2.

(** The server's fields the kill switch uses. *)
Record Server (S M : Type) : Type := mkServer {
  srv_prov : S;
  srv_killSwitch : option M;
  srv_store : option DB;
  ksWant : bool;
  ksLast : Config;
  ksBlocked : Z;
  ksStrikes : Z;
}.
Arguments mkServer {S M} _ _ _ _ _ _ _. Arguments srv_prov {S M} s. Arguments srv_killSwitch {S M} s.
Arguments srv_store {S M} s. Arguments ksWant {S M} s. Arguments ksLast {S M} s. Arguments ksBlocked {S M} s.
Arguments ksStrikes {S M} s.

(** What [writeErr] and [writeJSON] answer: a status and the error, or the
    switch's state. *)
Definition response : Type := Z * (error + bool).

Section server.
Context {S M : Type} `{!RouteProvider S} `{!Manager M} (rfc3339nano : Z -> string).
Implicit Types s : Server S M.

Definition set_manager s (m : M) : Server S M :=
  mkServer (srv_prov s) (Some m) (srv_store s) (ksWant s) (ksLast s) (ksBlocked s) (ksStrikes s).
Definition set_srv_store s (f : DB -> DB) : Server S M :=
  mkServer (srv_prov s) (srv_killSwitch s) (f <$> srv_store s) (ksWant s) (ksLast s) (ksBlocked s) (ksStrikes s).
Definition set_ksWant s (w : bool) : Server S M :=
  mkServer (srv_prov s) (srv_killSwitch s) (srv_store s) w (ksLast s) (ksBlocked s) (ksStrikes s).
Definition set_ksLast s (c : Config) : Server S M :=
  mkServer (srv_prov s) (srv_killSwitch s) (srv_store s) (ksWant s) c (ksBlocked s) (ksStrikes s).
Definition set_counts s (blocked strikes : Z) : Server S M :=
  mkServer (srv_prov s) (srv_killSwitch s) (srv_store s) (ksWant s) (ksLast s) blocked strikes.

Definition killSwitchConfig s : Config :=
  let v4 := DefaultGateway FamilyV4 (srv_prov s) in
  let v6 := DefaultGateway FamilyV6 (srv_prov s) in
  let gw := match v4 with inr (g, _) => g | inl _ => AddrZero end in
  let name r := match r with inr (_, ifn) => [ifn] | inl _ => [] end in
  let owned := match srv_store s with Some d => or_nil (ListOwned d) | None => [] end in
  Derive (or_nil (Interfaces (srv_prov s))) gw (name v4 ++ name v6) owned.

Definition tunnelUp s : bool := existsb (fun i => if_Up i && if_IsVPN i) (or_nil (Interfaces (srv_prov s))).

(** [wait] is what happens to the packet filter during [ksCheckDelay]. *)
Definition cutsVPN (ctx_done : bool) (wait : M -> M) (m : M) s : bool * Server S M :=
  if negb (tunnelUp s) then (false, s)
  else if ctx_done then (false, s)
  else
    let m := wait m in
    (match ks_Blocked m with inr n => 0 <? n | inl _ => false end, set_manager s m).

Definition setKillSwitchNotice (v : string) s : Server S M := set_srv_store s (SetSetting SettingKillSwitchNotice v).

Definition persistKillSwitch (on : bool) s : Server S M :=
  set_srv_store s (SetSetting killSwitchKey (if on then "true" else "false")).

Definition giveWayToVPN (m : M) s : Server S M :=
  let s := set_manager s (snd (ks_Disable m)) in
  let s := setKillSwitchNotice ksCutNotice (persistKillSwitch false (set_ksWant s false)) in
  set_srv_store s (fun d => snd (AppendAudit rfc3339nano
    (mkAuditEvent 0 0 ActorDaemon "killswitch" "" None "disabled" false ksCutNotice [] None) d)).

Definition handleKillSwitch (body : error + bool) (ctx_done : bool) (wait : M -> M) s : response * Server S M :=
  match srv_killSwitch s with
  | None => ((501, inl (Errorf "kill switch unavailable" [])), s)
  | Some m =>
      match body with
      | inl e => ((400, inl e), s)
      | inr enabled =>
          let s := setKillSwitchNotice "" s in
          let '(err, status, s) :=
            if enabled then
              let cfg := killSwitchConfig s in
              let '(err, m) := ks_Enable cfg m in
              let s := set_manager s m in
              match err with
              | Some e => (Some e, 500, s)
              | None =>
                  let '(cuts, s) := cutsVPN ctx_done wait m s in
                  if cuts then
                    let s := match srv_killSwitch s with Some m => set_manager s (snd (ks_Disable m)) | None => s end in
                    (Some errCutsVPN, 409, persistKillSwitch false s)
                  else (None, 500, persistKillSwitch true (set_counts (set_ksLast (set_ksWant s true) cfg) 0 0))
              end
            else
              let '(err, m) := ks_Disable m in
              let s := set_manager s m in
              match err with
              | Some e => (Some e, 500, s)
              | None => (None, 500, persistKillSwitch false (set_ksWant s false))
              end in
          match err with
          | Some e => ((status, inl e), s)
          | None => ((200, inr (match srv_killSwitch s with Some m => ks_Enabled m | None => false end)), s)
          end
      end
  end.

Definition InitKillSwitch s : Server S M :=
  match srv_killSwitch s with
  | None => s
  | Some m =>
      let want := match srv_store s with
                  | Some d => bool_decide (GetSetting killSwitchKey d = Some "true")
                  | None => false
                  end in
      if want then
        let s := set_ksWant s true in
        let cfg := killSwitchConfig s in
        let '(err, m) := ks_Enable cfg m in
        let s := set_manager s m in
        match err with Some _ => s | None => set_ksLast s cfg end
      else if ks_Effective (ks_Status m) then
        let s := persistKillSwitch true (set_ksWant s true) in
        let cfg := killSwitchConfig s in
        let '(err, m) := ks_Enable cfg m in
        let s := set_manager s m in
        match err with Some _ => s | None => set_ksLast s cfg end
      else if ks_Loaded (ks_Status m) then set_manager s (snd (ks_Disable m))
      else s
  end.

Definition watchForVPNCut (m : M) s : Server S M :=
  match ks_Blocked m with
  | inl _ => s
  | inr n =>
      let grew := ksBlocked s <? n in
      if negb grew || negb (tunnelUp s) then set_counts s n 0
      else
        let s := set_counts s n (ksStrikes s + 1) in
        if ksStrikesToYield <=? ksStrikes s then giveWayToVPN m s else s
  end.

Definition SyncKillSwitch s : Server S M :=
  match srv_killSwitch s with
  | None => s
  | Some m =>
      if negb (ksWant s) then s
      else
        let cfg := killSwitchConfig s in
        if Config_Empty cfg then s
        else
          let lost := negb (ks_Effective (ks_Status m)) in
          if Config_Equal cfg (ksLast s) && negb lost then watchForVPNCut m s
          else
            let '(err, m) := ks_Enable cfg m in
            let s := set_manager s m in
            match err with Some _ => s | None => set_counts (set_ksLast s cfg) 0 0 end
  end.

Definition disableKillSwitch s : option error * Server S M :=
  match srv_killSwitch s with
  | None => (None, s)
  | Some m =>
      let s := persistKillSwitch false (set_ksWant s false) in
      let '(err, m) := ks_Disable m in
      (err, set_manager s m)
  end.

(** A daemon that starts over the same store: the fields are Go's zero values. *)
Definition start_server (p : S) (m : M) (st : option DB) : Server S M :=
  InitKillSwitch (mkServer p (Some m) st false no_config 0 0).

End server.

(** ** The saved choice and the wanted state *)

Section facts.
Context {S M : Type} `{!RouteProvider S} `{!Manager M} (rfc3339nano : Z -> string).
Implicit Types s t : Server S M.

Definition saved_on (st : option DB) : Prop := exists d, st = Some d /\ GetSetting killSwitchKey d = Some "true".

(** What can happen to a running daemon: a request, the re-sync, a panic, and
    the network, the packet filter and the rest of the daemon moving on their
    own. *)
Inductive ks_step : Server S M -> Server S M -> Prop :=
| ks_request body ctxd wait s : ks_step s (snd (handleKillSwitch body ctxd wait s))
| ks_sync s : ks_step s (SyncKillSwitch rfc3339nano s)
| ks_panic s : ks_step s (snd (disableKillSwitch s))
| ks_filter s m : srv_killSwitch s <> None -> ks_step s (set_manager s m)
| ks_network s p : ks_step s (mkServer p (srv_killSwitch s) (srv_store s) (ksWant s) (ksLast s) (ksBlocked s) (ksStrikes s))
| ks_other s f : (forall d, GetSetting killSwitchKey (f d) = GetSetting killSwitchKey d) -> ks_step s (set_srv_store s f).

(** Off is saved as off, and a wanted switch has not struck out. *)
Record ks_inv s : Prop := mkKsInv {
  ki_saved : saved_on (srv_store s) -> ksWant s = true;
  ki_strikes : ksWant s = true -> 0 <= ksStrikes s < ksStrikesToYield;
}.

Lemma saved_on_set st key v : saved_on (SetSetting key v <$> st) <->
  if bool_decide (key = killSwitchKey) then st <> None /\ v = "true" else saved_on st.
Proof.
  unfold saved_on, GetSetting, SetSetting. destruct st as [d|]; simpl.
  - case_bool_decide as E.
    + subst. split; [intros (x & [= <-] & Hx); simpl in Hx; rewrite lookup_insert_eq in Hx; naive_solver|].
      intros [_ ->]. eexists. split; [done|]. simpl. by rewrite lookup_insert_eq.
    + split; intros (x & [= <-] & Hx); (eexists; split; [done|]); simpl in *; by rewrite ?lookup_insert_ne in *.
  - case_bool_decide; [split; [by intros (? & ? & _)|by intros [? _]]|done].
Qed.

Lemma saved_persist s on : saved_on (srv_store (persistKillSwitch on s)) -> on = true.
Proof. intros H. apply saved_on_set in H. rewrite bool_decide_eq_true_2 in H by done. by destruct on, H. Qed.

Lemma saved_notice s v : saved_on (srv_store (setKillSwitchNotice v s)) <-> saved_on (srv_store s).
Proof. unfold setKillSwitchNotice, set_srv_store. simpl. by rewrite saved_on_set. Qed.

Lemma saved_other s f : (forall d, GetSetting killSwitchKey (f d) = GetSetting killSwitchKey d) ->
  saved_on (srv_store (set_srv_store s f)) -> saved_on (srv_store s).
Proof.
  intros Hf (d & Hd & Hg). simpl in Hd. destruct (srv_store s) as [d0|]; [|done]. injection Hd as <-. rewrite Hf in Hg. by exists d0.
Qed.

(** A part of the state the invariant does not read. *)
Lemma ks_inv_same s t : ks_inv s -> ksWant t = ksWant s -> ksStrikes t = ksStrikes s ->
  (saved_on (srv_store t) -> saved_on (srv_store s)) -> ks_inv t.
Proof. intros [Hs Hk] Hw Hst Hd. split; rewrite ?Hw, ?Hst; auto. Qed.

Lemma ks_inv_off s : ksWant s = false -> ~ saved_on (srv_store s) -> ks_inv s.
Proof. intros Hw Hs. split; [done|by rewrite Hw]. Qed.

Lemma ks_inv_on s : 0 <= ksStrikes s < ksStrikesToYield -> ksWant s = true -> ks_inv s.
Proof. by split. Qed.

Lemma notice_inv s v : ks_inv s -> ks_inv (setKillSwitchNotice v s).
Proof. intros H. apply (ks_inv_same s); [done..|]. by rewrite saved_notice. Qed.

Lemma cutsVPN_fields ctxd wait m s c s' : cutsVPN ctxd wait m s = (c, s') ->
  ksWant s' = ksWant s /\ ksStrikes s' = ksStrikes s /\ srv_store s' = srv_store s /\
  (srv_killSwitch s = Some m -> exists m', srv_killSwitch s' = Some m').
Proof. unfold cutsVPN. intros H. repeat case_match; simplify_eq; simpl; eauto. Qed.

Lemma persist_off_inv s : (ksWant s = true -> 0 <= ksStrikes s < ksStrikesToYield) -> ks_inv (persistKillSwitch false s).
Proof. intros H. split; [intros Hs; by apply saved_persist in Hs|exact H]. Qed.

Lemma handle_inv body ctxd wait s : ks_inv s -> ks_inv (snd (handleKillSwitch body ctxd wait s)).
Proof.
  intros H. unfold handleKillSwitch. destruct (srv_killSwitch s) as [m|]; [|done]. destruct body as [e|[]]; [done| |].
  - set (s1 := setKillSwitchNotice "" s). assert (ks_inv s1) as H1 by by apply notice_inv.
    destruct (ks_Enable (killSwitchConfig s1) m) as [[e|] m1]; simpl; [by apply (ks_inv_same s1)|].
    destruct (cutsVPN ctxd wait m1 (set_manager s1 m1)) as [c s2] eqn:E. apply cutsVPN_fields in E as (Hw & Hk & Hd & Hm).
    destruct c; simpl; [|by apply ks_inv_on].
    apply persist_off_inv. destruct (Hm eq_refl) as [m' ->]. simpl. rewrite Hw, Hk. apply (ki_strikes s1 H1).
  - destruct (ks_Disable m) as [[e|] m1]; simpl; [by apply (ks_inv_same (setKillSwitchNotice "" s)); [apply notice_inv|..]|].
    by apply persist_off_inv.
Qed.

Lemma giveWay_off m s : ksWant (giveWayToVPN rfc3339nano m s) = false /\ ~ saved_on (srv_store (giveWayToVPN rfc3339nano m s)).
Proof.
  split; [done|]. unfold giveWayToVPN. intros H. apply saved_other in H; [|done]. apply saved_notice, saved_persist in H. done.
Qed.

Lemma sync_inv s : ks_inv s -> ks_inv (SyncKillSwitch rfc3339nano s).
Proof.
  intros H. unfold SyncKillSwitch. destruct (srv_killSwitch s) as [m|]; [|done].
  destruct (ksWant s) eqn:Hw; [|done]. simpl. case_if; [done|]. case_if.
  - unfold watchForVPNCut. destruct (ks_Blocked m) as [|n]; [done|]. case_if; [by apply ks_inv_on|]. case_if.
    + by apply ks_inv_off; apply giveWay_off.
    + bool_hyps. apply ks_inv_on; [|done]. pose proof (ki_strikes s H Hw). simpl in *. lia.
  - destruct (ks_Enable (killSwitchConfig s) m) as [[e|] m1]; [by apply (ks_inv_same s)|]. by apply ks_inv_on.
Qed.

Lemma disable_inv s : ks_inv s -> ks_inv (snd (disableKillSwitch s)).
Proof.
  intros H. unfold disableKillSwitch. destruct (srv_killSwitch s) as [m|]; [|done]. destruct (ks_Disable m) as [e m1]. simpl.
  apply ks_inv_off; [done|]. simpl. intros Hs. by apply (saved_persist s false) in Hs.
Qed.

Lemma ks_step_inv s t : ks_step s t -> ks_inv s -> ks_inv t.
Proof.
  intros Hst H. destruct Hst as [body ctxd wait s|s|s|s m ?|s p|s f Hf]; [by apply handle_inv|by apply sync_inv|by apply disable_inv| | |].
  - by apply (ks_inv_same s).
  - by apply (ks_inv_same s).
  - apply (ks_inv_same s); [done..|]. by apply saved_other.
Qed.

Lemma start_saved p m st : saved_on st -> ksWant (start_server p m st) = true.
Proof.
  intros (d & -> & Hg). unfold start_server, InitKillSwitch. simpl. rewrite bool_decide_eq_true_2 by done.
  destruct (ks_Enable _ m) as [[]]; done.
Qed.

Lemma start_want p m st : ksWant (start_server p m st) = true -> ks_Effective (ks_Status m) = false -> saved_on st.
Proof.
  unfold start_server, InitKillSwitch. simpl. intros Hw He. rewrite He in Hw. destruct st as [d|]; simpl in Hw.
  - case_bool_decide as E; [by exists d|]. by destruct (ks_Loaded (ks_Status m)).
  - by destruct (ks_Loaded (ks_Status m)).
Qed.

(** Rules found in force are kept. *)
Lemma start_in_force p m st : ks_Effective (ks_Status m) = true -> ksWant (start_server p m st) = true.
Proof.
  intros He. unfold start_server, InitKillSwitch. simpl. rewrite He.
  destruct (match st with Some d => _ | None => _ end); by destruct (ks_Enable _ m) as [[]].
Qed.

Lemma start_inv p m st : ks_inv (start_server p m st).
Proof.
  split.
  - unfold start_server, InitKillSwitch. simpl. destruct (match st with Some d => _ | None => _ end) eqn:E.
    + destruct (ks_Enable _ m) as [[]]; done.
    + destruct (ks_Effective (ks_Status m)); [destruct (ks_Enable _ m) as [[]]; done|].
      intros (d & Hd & Hg). exfalso. assert (st = Some d) as -> by (by destruct (ks_Loaded (ks_Status m))).
      bool_hyps. done.
  - intros _. unfold start_server, InitKillSwitch, ksStrikesToYield. simpl. by repeat case_match.
Qed.

(** C17: the kill switch's off is saved and survives a restart, but for rules still
    in force. After any sequence of requests, re-syncs, panics and outside
    changes, a daemon that no longer wants the switch has it saved as off: the
    next start wants it exactly when it finds the switch's rules in force (left
    by a Disable that failed, say), which it takes for a choice to keep. A switch
    that is wanted has fewer strikes than make it yield. *)
Theorem off_survives_restart p m st s p' m' :
  rtc ks_step (start_server p m st) s ->
  (ksWant s = true -> 0 <= ksStrikes s < ksStrikesToYield) /\
  (ksWant s = false -> ksWant (start_server p' m' (srv_store s)) = ks_Effective (ks_Status m')).
Proof.
  intros H. assert (ks_inv s) as [Hs Hk].
  { revert H. apply (rtc_ind_r (fun t => ks_inv t)); [apply start_inv|]. intros t u _ Hstep IH. by eapply ks_step_inv. }
  split; [done|]. intros Hw. destruct (ks_Effective (ks_Status m')) eqn:He; [by apply start_in_force|].
  destruct (ksWant (start_server p' m' (srv_store s))) eqn:E; [|done]. apply start_want in E; [|done]. apply Hs in E. congruence.
Qed.

(** a choice the API answered with success is the one a restarted daemon
    takes up: on is loaded again with what the network then is, off stays off. *)
Theorem choice_survives_restart on ctxd wait d s r s' p' m' :
  srv_store s = Some d -> handleKillSwitch (inr on) ctxd wait s = ((200, r), s') ->
  ks_Effective (ks_Status m') = false ->
  let t := start_server p' m' (srv_store s') in
  ksWant t = on /\
  (on = true -> srv_killSwitch t = Some (snd (ks_Enable (killSwitchConfig (mkServer p' (Some m') (srv_store s') true no_config 0 0)) m'))).
Proof.
  intros Hd H He t.
  assert (exists d', srv_store s' = Some d' /\ GetSetting killSwitchKey d' = Some (if on then "true" else "false")) as (d' & Hd' & Hg).
  { unfold handleKillSwitch in H. destruct (srv_killSwitch s) as [m|]; [|done]. destruct on.
    - set (s1 := setKillSwitchNotice "" s) in H. destruct (ks_Enable (killSwitchConfig s1) m) as [[e|] m1]; [done|].
      destruct (cutsVPN ctxd wait m1 (set_manager s1 m1)) as [[] s2] eqn:E; [done|]. apply cutsVPN_fields in E as (_ & _ & Hst & _).
      injection H as _ <-. unfold persistKillSwitch, set_srv_store. simpl. rewrite Hst. simpl. rewrite Hd. eexists. split; [done|].
      unfold GetSetting. apply lookup_insert_eq.
    - destruct (ks_Disable m) as [[e|] m1]; [done|]. injection H as _ <-. simpl. rewrite Hd. eexists. split; [done|].
      unfold GetSetting. apply lookup_insert_eq. }
  subst t. rewrite Hd'. destruct on.
  - split; [apply start_saved; by exists d'|]. intros _. unfold start_server, InitKillSwitch. simpl.
    rewrite bool_decide_eq_true_2 by done. unfold set_ksWant. simpl. by destruct (ks_Enable _ m') as [[]].
  - split; [|done]. destruct (ksWant (start_server p' m' (Some d'))) eqn:E; [|done]. apply start_want in E as (x & [= <-] & Hx); congruence.
Qed.

(** ** Giving way to the VPN *)

(** The re-sync against what the packet filter is at each of its ticks. *)
Definition sync_ticks (ms : list M) s : Server S M := fold_left (fun s m => SyncKillSwitch rfc3339nano (set_manager s m)) ms s.

(** Two readings in a row each higher than the one before. *)
Fixpoint grows_twice (struck : bool) (last : Z) (ns : list Z) : bool :=
  match ns with
  | [] => false
  | n :: ns' => if last <? n then struck || grows_twice true n ns' else grows_twice false n ns'
  end.

Lemma ticks_off ms s : ksWant s = false -> srv_killSwitch s <> None -> ksWant (sync_ticks ms s) = false.
Proof.
  revert s. induction ms as [|m ms IH]; intros s Hw Hm; [done|]. cbn [sync_ticks fold_left].
  assert (SyncKillSwitch rfc3339nano (set_manager s m) = set_manager s m) as -> by (unfold SyncKillSwitch; simpl; by rewrite Hw).
  by apply IH.
Qed.

(** the kill switch gives way exactly when it keeps cutting the VPN. Over
    ticks of an unchanged network with a tunnel up and rules in force, it is
    turned off just when the blocked count grew at two ticks in a row; one
    stray packet does not turn it off. *)
Theorem gives_way_exactly ms ns s :
  Forall2 (fun m n => ks_Effective (ks_Status m) = true /\ ks_Blocked m = inr n) ms ns ->
  ksWant s = true -> (ksStrikes s = 0 \/ ksStrikes s = 1) -> tunnelUp s = true ->
  Config_Empty (killSwitchConfig s) = false -> Config_Equal (killSwitchConfig s) (ksLast s) = true ->
  ksWant (sync_ticks ms s) = negb (grows_twice (ksStrikes s =? 1) (ksBlocked s) ns).
Proof.
  intros Hms. revert s. induction Hms as [|m n ms ns [He Hb] _ IH]; intros s Hw Hst Hup Hne Heq; [exact Hw|].
  assert (SyncKillSwitch rfc3339nano (set_manager s m) = watchForVPNCut rfc3339nano m (set_manager s m)) as Etick.
  { unfold SyncKillSwitch. change (killSwitchConfig (set_manager s m)) with (killSwitchConfig s). simpl. by rewrite Hw, Hne, Heq, He. }
  change (sync_ticks (m :: ms) s) with (sync_ticks ms (SyncKillSwitch rfc3339nano (set_manager s m))).
  rewrite Etick. unfold watchForVPNCut. rewrite Hb. change (tunnelUp (set_manager s m)) with (tunnelUp s). rewrite Hup, orb_false_r.
  cbn [grows_twice]. change (ksBlocked (set_manager s m)) with (ksBlocked s). destruct (ksBlocked s <? n) eqn:Eg; cbn [negb].
  - destruct Hst as [Hst|Hst]; simpl; rewrite Hst; simpl.
    + rewrite IH; [done|done|right; simpl; lia|done..].
    + apply ticks_off; done.
  - rewrite IH; [done|done|by left|done..].
Qed.
End facts.

(** ** Examples *)

Definition ex_ks : FakeKS := mkFakeKS false no_config 0 0 0.
Definition ex_server : Server Fake FakeKS := start_server New ex_ks (Some ex_db).

(** The switch turned on with no traffic in its way. *)
Definition ex_on : Server Fake FakeKS := snd (handleKillSwitch (inr true) false id ex_server).

(** A filter in force that has blocked [n] packets. *)
Definition blocked_filter (n : Z) : FakeKS := mkFakeKS true no_config 1 n 0.

Lemma off_survives_restart_witness :
  let s := SyncKillSwitch ex_time (set_manager (SyncKillSwitch ex_time (set_manager ex_on (blocked_filter 3))) (blocked_filter 5)) in
  ksWant s = false /\ ksWant (start_server New ex_ks (srv_store s)) = false.
Proof.
  intros s. assert (ksWant s = false) as Hw by (vm_compute; reflexivity). split; [exact Hw|].
  refine (proj2 (off_survives_restart ex_time New ex_ks (Some ex_db) s New ex_ks _) Hw).
  eapply rtc_l; [apply (ks_request ex_time (inr true) false id)|].
  eapply rtc_l; [apply (ks_filter ex_time _ (blocked_filter 3)); vm_compute; discriminate|].
  eapply rtc_l; [apply ks_sync|].
  eapply rtc_l; [apply (ks_filter ex_time _ (blocked_filter 5)); vm_compute; discriminate|].
  eapply rtc_l; [apply ks_sync|]. apply rtc_refl.
Defined.

Lemma choice_survives_restart_witness :
  let t := start_server New ex_ks (srv_store ex_on) in ksWant t = true /\ (ks_Enabled <$> srv_killSwitch t) = Some true.
Proof.
  pose proof (choice_survives_restart true false id ex_db ex_server (inr true) ex_on New ex_ks eq_refl) as H.
  assert (handleKillSwitch (inr true) false id ex_server = ((200, inr true), ex_on)) as E.
  { unfold ex_on. rewrite (surjective_pairing (handleKillSwitch (inr true) false id ex_server)). f_equal. }
  specialize (H E eq_refl). split; [exact (proj1 H)|]. rewrite (proj2 H eq_refl). vm_compute. reflexivity.
Defined.

Lemma gives_way_exactly_witness :
  ksWant (sync_ticks ex_time [blocked_filter 3; blocked_filter 3; blocked_filter 4; blocked_filter 9] ex_on) = false /\
  ksWant (sync_ticks ex_time [blocked_filter 3; blocked_filter 3; blocked_filter 4; blocked_filter 4] ex_on) = true.
Proof.
  split.
  - rewrite (gives_way_exactly ex_time _ [3; 3; 4; 9] ex_on); [vm_compute; reflexivity|repeat constructor|..|left|idtac|idtac|idtac]; vm_compute; reflexivity.
  - rewrite (gives_way_exactly ex_time _ [3; 3; 4; 4] ex_on); [vm_compute; reflexivity|repeat constructor|..|left|idtac|idtac|idtac]; vm_compute; reflexivity.
Defined.

(** a refused request is undone by the next re-sync. When the switch was
    already wanted, the request that finds it cuts the VPN answers 409 with the
    switch off and saved as off, but leaves it wanted: the next re-sync turns
    it on again, cutting the VPN the daemon just gave way to. *)
Theorem refused_switch_comes_back :
  let cut (m : FakeKS) := blocked_filter 7 in
  let '(r, s) := handleKillSwitch (inr true) false cut ex_on in
  let t := SyncKillSwitch ex_time s in
  r = (409, inl errCutsVPN) /\ (ks_Enabled <$> srv_killSwitch s) = Some false /\
  (GetSetting killSwitchKey <$> srv_store s) = Some (Some "false") /\ ksWant s = true /\
  (ks_Enabled <$> srv_killSwitch t) = Some true.
Proof. vm_compute. split_and!; reflexivity. Qed.
