(* ===== verification/ServiceReads.v ===== *)
(** * The core service: what it answers (internal/core/service.go)

    Routes and rules as listed, drift, the status of tunnels, the explanation
    of where traffic goes, and the background jobs' name lists. Written over
    the same [Service] as the builds. [fetch] is the download of a remote list
    (its entries and checksum). *)

From S2P Require Import Prelude.
From S2P Require Import Netip NetipText Aggregate Domain Reconcile Nets Input Tunnels Installed Engine Simulate.
From S2P Require Import Destinations Provider FakeProvider Tailscale Yielded LiveRepair Store ApplyParts Service.

(** ** Listing order *)

Definition prefixBits (cidr : string) : Z :=
  match ParsePrefix cidr with
  | Some p => p_bits p
  | None => match ParseAddr cidr with Some a => BitLen a | None => -1 end
  end.

Definition lookup_less (a b : Route) : bool :=
  if negb (rt_Family a =s? rt_Family b) then rt_Family a =s? FamilyV4
  else
    let pa := prefixBits (rt_DstCIDR a) in
    let pb := prefixBits (rt_DstCIDR b) in
    if negb (pa =? pb) then pb <? pa
    else if negb (rt_Metric a =? rt_Metric b) then rt_Metric a <? rt_Metric b
    else str_less (rt_DstCIDR a) (rt_DstCIDR b).

Definition sortLookupOrder (rs : list Route) : list Route := slice_stable lookup_less rs.

(** ** Explaining a decision *)

Definition set_tunnel (d : RouteDecision) (tunnel type : string) : RouteDecision :=
  mkRouteDecision (rd_Target d) (rd_Source d) (rd_MatchedCIDR d) (rd_Gateway d) (rd_Iface d) (rd_Family d) (rd_Owner d)
    (rd_Profile d) (rd_ViaVPN d) tunnel type (rd_Reachable d) (rd_Rejected d).

Definition live_status (t : TunnelStatus) : bool :=
  negb (st_Iface t =s? "") && ((st_State t =s? TunnelConnected) || (st_State t =s? TunnelReconnecting)).

Definition markTunnel (d : RouteDecision) (ts : list TunnelStatus) : RouteDecision :=
  if negb (rd_Reachable d) && negb (rd_Rejected d) then d
  else
    let tag := CutPrefix (rd_Profile d) TunnelProfilePrefix in
    let is_it t := match tag with
                   | Some name => st_Name t =s? name
                   | None => rd_Reachable d && live_status t && (st_Iface t =s? rd_Iface d)
                   end in
    match List.find is_it ts, tag with
    | Some t, _ => set_tunnel d (st_Name t) (st_Type t)
    | None, Some name => set_tunnel d name (rd_TunnelType d)
    | None, None => d
    end.

Definition reject_step (target : addr) (acc : Z * string) (o : ManagedRoute) : Z * string :=
  match ParsePrefix (rt_DstCIDR (mr_Route o)) with
  | None => acc
  | Some pfx =>
      if negb (rt_Reject (mr_Route o)) || negb (rt_Table (mr_Route o) =s? "") || negb (Contains pfx target) ||
         (p_bits pfx <=? fst acc) then acc
      else (p_bits pfx, mr_ProfileID o)
  end.

Definition rejectedBy (target : addr) (owned : list ManagedRoute) : string :=
  snd (fold_left (reject_step target) owned (-1, "")).

Record RouteExplain : Type := mkExplain {
  re_Target : string;
  re_Resolved : list string;
  re_Kernel : option RouteDecision;
  re_Simulated : option RouteDecision;
  re_Drift : bool;
  re_Note : string;
}.

Definition defaultFor (routes : list Route) (fam : Family) (defCIDR : string) (vpnByIface : gmap string bool) : DefaultRoute :=
  match List.find (fun r => (rt_Table r =s? "") && negb (rt_Scoped r) && (rt_DstCIDR r =s? defCIDR)) routes with
  | Some r => mkDefaultRoute fam true (rt_Gateway r) (rt_Iface r) (rt_Owner r) (default false (vpnByIface !! rt_Iface r))
  | None => mkDefaultRoute fam false "" "" OwnerUnknown false
  end.

Record DriftStatus : Type := mkDrift {
  dr_Pending : bool;
  dr_Adds : Z;
  dr_Dels : Z;
  dr_Reason : option build_error;
  dr_Missing : Z;
  dr_Held : list HeldRoute;
  dr_Taken : list Route;
}.
Definition no_drift : DriftStatus := mkDrift false 0 0 None 0 [] [].

(** One operation of a plan, counted. *)
Definition count_op (d : Z * Z) (op : PlanOp) : Z * Z :=
  match op_Kind op with
  | OpAddRoute | OpAddRule => (fst d + 1, snd d)
  | OpDelRoute | OpDelRule => (fst d, snd d + 1)
  | OpOther _ => d
  end.

Section reads.
Context {S : Type} `{!RouteProvider S}.
Context (fam_order : list Family) (range_map : gmap string string -> list (string * string)) (json : Json).
Context (ListTable : option (Family -> string -> S -> error + list Route)).
Implicit Types s : Service S.

(** ** Names for the background jobs *)

Definition DomainHosts s : list string :=
  dedup ∅ (map (fun r => DomainRuleHost (r_Value r)) (domain_rules (stored_profiles s))).

Definition sort_strings (l : list string) : list string := slice_stable str_less l.

Definition WildcardRules s : list string :=
  sort_strings (dedup ∅ (keep_if (fun v => HasPrefix v "*.") (map r_Value (domain_rules (stored_profiles s))))).

Definition AppCgroups s : list string :=
  sort_strings (dedup ∅ (keep_if (fun v => negb (v =s? ""))
    (map r_Value (keep_if (fun p => pf_Enabled p && (pf_Mode p =s? ModeInclude)) (stored_profiles s) ≫= fun p =>
       keep_if (fun r => r_Type r =s? RuleApp) (pf_Rules p))))).

(** ** Remote lists *)

Definition fetched (l : NamedList) (entries : list string) (checksum : string) (now : Z) : NamedList :=
  mkNamedList (nl_Name l) (nl_Static l) (nl_Source l) (nl_Refresh l) (Some now) checksum entries.

Definition RefreshList (fetch : string -> error + list string * string) (name : string) s
    : (error + NamedList) * Service S :=
  match sv_store s with
  | None => (inl (Errorf "no store" []), s)
  | Some d =>
      match GetList name d with
      | inl e => (inl e, s)
      | inr l =>
          if nl_Source l =s? "" then (inl (Errorf "list %q is static (no remote source to refresh)" [name]), s)
          else match fetch (nl_Source l) with
               | inl e => (inl e, s)
               | inr (entries, checksum) =>
                   let l := fetched l entries checksum (sv_now s) in
                   (inr l, set_sv_store s (Some (UpsertList l d)))
               end
      end
  end.

Definition RefreshAllLists (fetch : string -> error + list string * string) s : (error + Z) * Service S :=
  match sv_store s with
  | None => (inr 0, s)
  | Some d =>
      match ListLists d with
      | inl e => (inl e, s)
      | inr ls =>
          let '(n, s') := fold_left (fun acc l =>
            if nl_Source l =s? "" then acc
            else match RefreshList fetch (nl_Name l) (snd acc) with
                 | (inr _, s') => (fst acc + 1, s')
                 | (inl _, s') => (fst acc, s')
                 end) ls (0, s) in
          (inr n, s')
      end
  end.

(** ** Drift *)

Definition held_keys s : gset string := list_to_set (map (fun h => RouteKey (hr_Route h)) (default [] (sv_heldRoutes s))).

Definition read_table s (fam : Family) : option (list Route) :=
  match ListRoutes fam (sv_prov s) with inr rs => Some rs | inl _ => None end.

(** [None] is a Go panic: a plan that cannot be inverted. *)
Definition computeDrift s (actualRoutes : list ManagedRoute) : option DriftStatus :=
  match sv_store s with
  | None => Some no_drift
  | Some d =>
      let profs := or_nil (ListProfiles d) in
      if (length profs =? 0)%nat && (length (tunnels s) =? 0)%nat then Some no_drift
      else match fst (DesiredFromProfiles fam_order range_map json ListTable s profs) with
           | inl e => Some (mkDrift true 0 0 (Some e) 0 [] [])
           | inr (dRoutes, dRules) =>
               let v := VerifyRoutes actualRoutes dRoutes (read_table s) (held_keys s) None in
               plan ← Reconcile dRoutes (vf_Kept v) dRules (actualManagedRules s) (Platform s);
               let '(adds, dels) := fold_left count_op (pl_Ops plan) (0, 0) in
               Some (mkDrift (negb (length (pl_Ops plan) =? 0)%nat) adds dels None (Z.of_nat (length (vf_Missing v)))
                       (default [] (sv_heldRoutes s)) (map mr_Route (vf_Taken v)))
           end
  end.

Definition LiveMissing s : option Z := dr_Missing <$> computeDrift s (actualManagedRoutes s).

(** ** Tunnels *)

Definition profile_side (tp : list Profile) s : DesiredInput :=
  mkDesiredInput tp AddrZero AddrZero "" "" PrefixZero PrefixZero AddrZero AddrZero "" "" (listsMap s) (resolveDomains s tp)
    [] [] [] [] [] "" false "" false 0.

Definition profile_ref (inp : DesiredInput) (p : Profile) : TunnelProfileRef :=
  let one := with_profile_side inp [p] false (in_Lists inp) (in_Domains inp) (AddrZero, "") (AddrZero, "") in
  mkProfileRef (pf_ID p) (pf_Name p) (pf_Enabled p)
    (if pf_Enabled p then Z.of_nat (length (at_key (TunnelProfileRoutes fam_order one) (pf_Tunnel p))) else 0).

(** The refs of a tunnel, by name; [slices.SortFunc] is not stable, so where
    names are equal the order is one of several. *)
Definition tunnelProfiles s : gmap string (list TunnelProfileRef) * gmap string (list string) :=
  match sv_store s with
  | None => (∅, ∅)
  | Some d =>
      match ListProfiles d with
      | inl _ => (∅, ∅)
      | inr profiles =>
          let tp := keep_if (fun p => (pf_Mode p =s? ModeTunnel) && negb (pf_Tunnel p =s? "")) profiles in
          match tp with
          | [] => (∅, ∅)
          | _ =>
              let inp := profile_side tp s in
              (slice_stable (fun a b => str_less (ref_Name a) (ref_Name b)) <$>
                 fold_left (fun m p => append_key m (pf_Tunnel p) [profile_ref inp p]) tp ∅,
               TunnelProfileRoutes fam_order inp)
          end
      end
  end.

Definition annotate (plan : TunnelPlan) (captured : gmap string (list TunnelBlocked))
    (refs : gmap string (list TunnelProfileRef)) (t : TunnelStatus) : TunnelStatus :=
  mkTunnelStatus (st_Name t) (st_Type t) (st_Via t) (st_Routes t) (st_AutoConnect t) (st_WhenDown t) (st_Blocking t)
    (st_Username t) (st_HasPassword t) (st_NeedsAuth t) (st_Servers t) (st_Ignored t)
    (st_Blocked t ++ at_key (tp_Blocked plan) (st_Name t)) (st_Narrowed t ++ at_key (tp_Narrowed plan) (st_Name t))
    (st_Captured t ++ at_key captured (st_Name t)) (st_CertExpires t) (at_key refs (st_Name t)) (st_Unreadable t)
    (st_State t) (st_Detail t) (st_Iface t) (st_LocalIP t) (st_Server t) (st_Since t) (st_LastError t) (st_BytesIn t)
    (st_BytesOut t).

(** [quote] is [strconv.Quote]. *)
Definition TunnelStatuses (quote : string -> string) s : list TunnelStatus :=
  match sv_tunnelStatus s with
  | None | Some [] => []
  | Some ts =>
      let running : gset string := list_to_set (map t_Name (tunnels s)) in
      let stopped := keep_if (fun t => negb (bool_decide (st_Name t ∈ running))) ts in
      let tuns := tunnels s ++ map (fun t => mkTunnelInput (st_Name t) "" false false (st_Routes t) [] []) stopped in
      let '(refs, extra) := tunnelProfiles s in
      let plan := PlanTunnels (networkInput range_map json ListTable s (WithRoutes tuns extra) None) in
      let captured := AppRuleCaptures quote plan (actualManagedRules s) in
      map (annotate plan captured refs) ts
  end.

(** ** Listings *)

Definition tag_route (byKey : gmap string ManagedRoute) (r : Route) : Route :=
  match byKey !! KernelKey r with
  | None => r
  | Some mr =>
      mkRoute (rt_DstCIDR r) (rt_Gateway r) (rt_Iface r) (rt_Metric r) (rt_Family r) OwnerRiftRoute (rt_Proto r) (rt_Table r)
        (if rt_Profile r =s? "" then mr_ProfileID mr else rt_Profile r) (rt_Cloned r) (rt_Scoped r) (rt_Reject r)
  end.

Definition tagOwnedRoutes s (rs : list Route) : list Route :=
  match sv_store s with
  | None => rs
  | Some d =>
      match ListOwned d with
      | inl _ | inr [] => rs
      | inr owned => map (tag_route (fold_left (fun m mr => <[KernelKey (mr_Route mr) := mr]> m) owned ∅)) rs
      end
  end.

Fixpoint read_all {A} (read : Family -> error + list A) (fams : list Family) : error + list A :=
  match fams with
  | [] => inr []
  | f :: fams' => let? rs := read f in let? rest := read_all read fams' in inr (rs ++ rest)
  end.

Definition families (family : Family) : list Family := if family =s? "" then both_families else [family].

Definition Routes s (family : Family) (owner : Owner) : error + list Route :=
  let? out := read_all (fun f => ListRoutes f (sv_prov s)) (families family) in
  let out := tagOwnedRoutes s out in
  let out := if owner =s? "" then out else keep_if (fun r => rt_Owner r =s? owner) out in
  inr (sortLookupOrder out).

Definition Rules s (family : Family) : error + list PolicyRule :=
  let? out := read_all (fun f => ListRules f (sv_prov s)) (families family) in
  inr (once RuleKey ∅ out).

Definition vpnByIface s : gmap string bool :=
  fold_left (fun m i => <[if_Name i := if_IsVPN i]> m) (or_nil (Interfaces (sv_prov s))) ∅.

Definition Conflicts s : build_error + list Conflict :=
  let? d := fst (DesiredManaged fam_order range_map json ListTable s) in
  inr (DetectConflicts (fst d)).

(** What a change would have to remove, of the routes tagged as RiftRoute's. *)
Definition core_Diff s : Diff :=
  let managed := both_families ≫= fun fam =>
    keep_if (fun r => rt_Owner r =s? OwnerRiftRoute) (or_nil (ListRoutes fam (sv_prov s))) in
  mkDiff (map (mkDiffEntry DiffDel) managed) 0 (Z.of_nat (length managed)) 0 ((length managed =? 0)%nat).

(** ** Explain *)

(** The table as it would be once reconciled: what is not tagged as RiftRoute's,
    and the desired main-table routes of the family. *)
Definition overlay s (fam : Family) : list Route :=
  keep_if (fun r => negb (rt_Owner r =s? OwnerRiftRoute)) (or_nil (ListRoutes fam (sv_prov s))) ++
  match fst (DesiredManaged fam_order range_map json ListTable s) with
  | inl _ => []
  | inr (desired, _) =>
      map mr_Route (keep_if (fun mr => (rt_Family (mr_Route mr) =s? fam) && (rt_Table (mr_Route mr) =s? "")) desired)
  end.

(** The kernel's refusal carries no tag: whose reject route it is. *)
Definition whose_reject s (target : addr) (k : RouteDecision) : RouteDecision :=
  if (rd_Rejected k || negb (rd_Reachable k)) && (rd_Profile k =s? "") then
    let tag := rejectedBy target (actualManagedRoutes s) in
    if tag =s? "" then k
    else mkRouteDecision (rd_Target k) (rd_Source k) (rd_MatchedCIDR k) (rd_Gateway k) (rd_Iface k) (rd_Family k) (rd_Owner k)
           tag (rd_ViaVPN k) (rd_Tunnel k) (rd_TunnelType k) (rd_Reachable k) true
  else k.

Definition explain_addr (quote : string -> string) s (target : string) (resolved : list string) (note : string) (a : addr)
    : error + RouteExplain :=
  let? dec := LookupRoute a (sv_prov s) in
  let fam := if Is6 a then FamilyV6 else FamilyV4 in
  let ts := TunnelStatuses quote s in
  let kernel := markTunnel (whose_reject s a dec) ts in
  let sim := markTunnel (Simulate (overlay s fam) a (Some (vpnByIface s))) ts in
  inr (mkExplain target resolved (Some kernel) (Some sim) (Drift kernel sim) note).

Definition Explain (quote : string -> string) s (target : string) : error + RouteExplain :=
  match ParseAddr target with
  | Some a => explain_addr quote s target [] "" a
  | None =>
      match sv_domains s with
      | None => inr (mkExplain target [] None None false "no resolver available")
      | Some lookup =>
          let addrs := lookup target in
          let resolved := map addr_String addrs in
          match addrs with
          | [] => inr (mkExplain target [] None None false ("could not resolve " +:+ target))
          | a :: rest =>
              let note := match rest with
                          | [] => ""
                          | _ => "showing the decision for the first of " +:+ pretty (Z.of_nat (length addrs)) +:+ " resolved addresses"
                          end in
              explain_addr quote s target resolved note a
          end
      end
  end.
End reads.

(** ** The listing order is the kernel's *)

Definition lookup_cmp (a b : Route) : comparison :=
  lex (- prefixBits (rt_DstCIDR a) ?= - prefixBits (rt_DstCIDR b))
    (lex (rt_Metric a ?= rt_Metric b) (String.compare (rt_DstCIDR a) (rt_DstCIDR b))).

#[export] Instance lookup_cmp_ord : OrdCmp lookup_cmp.
Proof.
  unfold lookup_cmp. apply lex_ord_cmp; [apply (map_ord_cmp Z.compare (fun r => - prefixBits (rt_DstCIDR r)))|].
  apply lex_ord_cmp; [apply (map_ord_cmp Z.compare rt_Metric)|apply (map_ord_cmp String.compare rt_DstCIDR)].
Qed.

Lemma lookup_less_cmp a b : rt_Family a = rt_Family b -> lookup_less a b = lt_of (lookup_cmp a b).
Proof.
  intros E. unfold lookup_less, lookup_cmp, lex, str_less. rewrite E, String.eqb_refl. simpl.
  rewrite Z.compare_opp. unfold Z.ltb.
  destruct (Z.compare_spec (prefixBits (rt_DstCIDR b)) (prefixBits (rt_DstCIDR a))) as [H|H|H].
  - rewrite <- H, Z.eqb_refl. simpl. destruct (Z.compare_spec (rt_Metric a) (rt_Metric b)) as [->|H'|H'];
      [by rewrite Z.eqb_refl|..]; by rewrite (proj2 (Z.eqb_neq _ _)) by lia.
  - by rewrite (proj2 (Z.eqb_neq _ _)) by lia.
  - by rewrite (proj2 (Z.eqb_neq _ _)) by lia.
Qed.

Lemma slice_stable_ext {A} (less less' : A -> A -> bool) l :
  (forall x y, x ∈ l -> y ∈ l -> less x y = less' x y) -> slice_stable less l = slice_stable less' l.
Proof.
  induction l as [|x l IH]; intros H; simpl; [done|]. rewrite IH by (intros; apply H; by right).
  assert (Forall (fun y => less y x = less' y x) (slice_stable less' l)) as Hx.
  { rewrite slice_stable_perm. apply Forall_forall. intros y Hy. apply H; set_solver. }
  clear IH H. induction Hx as [|y l' Hy _ IH']; simpl; [done|]. rewrite Hy. case_if; [by rewrite IH'|done].
Qed.

Lemma sorted_family rs f : Forall (fun r => rt_Family r = f) rs ->
  StronglySorted (fun x y => lt_of (lookup_cmp y x) = false) (sortLookupOrder rs).
Proof.
  intros Hf. rewrite Forall_forall in Hf. unfold sortLookupOrder.
  rewrite (slice_stable_ext _ (fun x y => lt_of (lookup_cmp x y))).
  - apply (slice_stable_sorted (fun x y => lt_of (lookup_cmp x y))).
  - intros x y Hx Hy. apply lookup_less_cmp. by rewrite (Hf x Hx), (Hf y Hy).
Qed.

Lemma StronglySorted_cut {A} (R : A -> A -> Prop) pre x post y : StronglySorted R (pre ++ x :: post) -> y ∈ post -> R x y.
Proof.
  induction pre as [|z pre IH]; simpl; intros H Hy; apply StronglySorted_inv in H as [H Hx]; [|by apply IH].
  rewrite Forall_forall in Hx. by apply Hx.
Qed.

Section listing.
Context {S : Type} `{!RouteProvider S}.

Lemma tag_route_same m r : rt_DstCIDR (tag_route m r) = rt_DstCIDR r /\ rt_Family (tag_route m r) = rt_Family r.
Proof. unfold tag_route. by case_match. Qed.

Lemma tagOwnedRoutes_map (s : Service S) rs :
  exists g, tagOwnedRoutes s rs = map g rs /\ forall r, rt_DstCIDR (g r) = rt_DstCIDR r /\ rt_Family (g r) = rt_Family r.
Proof.
  unfold tagOwnedRoutes. destruct (sv_store s) as [d|]; [|exists id; by rewrite map_id].
  destruct (ListOwned d) as [e|[|o owned]]; [exists id; by rewrite map_id..|].
  eexists. split; [reflexivity|]. apply tag_route_same.
Qed.

(** the routing table is listed in the kernel's order of precedence: of the
    routes of one family, the first listed that holds an address is a longest
    match among all listed, and every route the provider lists is listed, once,
    with its destination. *)
Theorem Routes_precedence (s : Service S) (f : Family) (rs listed : list Route) :
  f <> "" -> ListRoutes f (sv_prov s) = inr rs -> Forall (fun r => rt_Family r = f) rs ->
  Routes s f "" = inr listed ->
  map rt_DstCIDR listed ≡ₚ map rt_DstCIDR rs /\
  forall pre r post p a, listed = pre ++ r :: post -> ParsePrefix (rt_DstCIDR r) = Some p -> Contains p a = true ->
    (forall r' p', r' ∈ pre -> ParsePrefix (rt_DstCIDR r') = Some p' -> Contains p' a = false) ->
    forall r' p', r' ∈ listed -> ParsePrefix (rt_DstCIDR r') = Some p' -> Contains p' a = true -> p_bits p' <= p_bits p.
Proof.
  intros Hf Hl Hfam. unfold Routes, families. rewrite (proj2 (String.eqb_neq f "") Hf). simpl. rewrite Hl. simpl.
  rewrite app_nil_r. destruct (tagOwnedRoutes_map s rs) as (g & -> & Hg). intros H. apply (inj inr) in H. subst listed.
  assert (Forall (fun r => rt_Family r = f) (map g rs)) as Hfam'.
  { apply Forall_map. eapply Forall_impl; [exact Hfam|]. intros r. by rewrite (proj2 (Hg r)). }
  split.
  - unfold sortLookupOrder. rewrite slice_stable_perm, map_map.
    by erewrite List.map_ext by apply Hg.
  - pose proof (sorted_family _ f Hfam') as Hs. set (l := sortLookupOrder (map g rs)) in *. clearbody l.
    intros pre r post p a -> Hp Ha Hpre r' p' Hr' Hp' Ha'.
    apply elem_of_app in Hr' as [Hr'|[->|Hr']%elem_of_cons]; [by rewrite (Hpre r' p') in Ha'|simplify_eq; done|].
    pose proof (StronglySorted_cut _ _ _ _ _ Hs Hr') as H. simpl in H. unfold lookup_cmp, lex, prefixBits in H. rewrite Hp, Hp' in H.
    destruct (Z.compare_spec (- p_bits p') (- p_bits p)); [lia|done|lia].
Qed.
End listing.

(** ** Drift *)

Lemma count_ops ops : Forall well_made ops -> forall d,
  let '(adds, dels) := fold_left count_op ops d in
  fst d <= adds /\ snd d <= dels /\ adds + dels = fst d + snd d + Z.of_nat (length ops).
Proof.
  induction 1 as [|op ops Ho _ IH]; intros d; [destruct d; simpl; lia|]. cbn [fold_left length].
  specialize (IH (count_op d op)). destruct (fold_left count_op ops _) as [adds dels].
  unfold count_op, well_made in *. destruct (op_Kind op); simpl in IH; try done; lia.
Qed.

Section drift.
Context {S : Type} `{!RouteProvider S}.
Context (fam_order : list Family) (range_map : gmap string string -> list (string * string)) (json : Json).
Context (ListTable : option (Family -> string -> S -> error + list Route)).

(** drift is never a false "in sync": it is always computed; a desired set
    that cannot be built is pending, with the reason; otherwise it is pending
    exactly when something would be added or removed, which the apply's own plan
    over the verified routes says, operation for operation. *)
Theorem drift_exact (s : Service S) (d : DB) (actual : list ManagedRoute) :
  sv_store s = Some d ->
  exists st, computeDrift fam_order range_map json ListTable s actual = Some st /\
    (dr_Pending st = true <-> dr_Reason st <> None \/ 0 < dr_Adds st + dr_Dels st) /\
    forall routes rules, fst (DesiredFromProfiles fam_order range_map json ListTable s (or_nil (ListProfiles d))) = inr (routes, rules) ->
      (or_nil (ListProfiles d) <> [] \/ tunnels s <> []) ->
      let v := VerifyRoutes actual routes (read_table s) (held_keys s) None in
      dr_Missing st = Z.of_nat (length (vf_Missing v)) /\
      dr_Adds st + dr_Dels st =
        Z.of_nat (length (reconcile_ops routes (vf_Kept v) rules (actualManagedRules s) (Platform s))).
Proof.
  intros Hd. unfold computeDrift. rewrite Hd.
  destruct ((length (or_nil (ListProfiles d)) =? 0)%nat && (length (tunnels s) =? 0)%nat) eqn:E0.
  { eexists. split; [reflexivity|]. simpl. split; [split; [done|intros [?|?]; [done|lia]]|].
    intros routes rules _ Hne. bool_hyps. rewrite Nat.eqb_eq, length_zero_iff_nil in *. tauto. }
  destruct (fst (DesiredFromProfiles fam_order range_map json ListTable s (or_nil (ListProfiles d)))) as [e|[routes rules]].
  { eexists. split; [reflexivity|]. simpl. split; [|done]. split; [by left|done]. }
  set (v := VerifyRoutes _ _ _ _ _).
  pose proof (reconcile_well_made routes (vf_Kept v) rules (actualManagedRules s) (Platform s)) as Hw.
  unfold Reconcile. destruct (invert_well_made _ (Platform s) Hw) as [iv ->]. simpl.
  pose proof (count_ops _ Hw (0, 0)) as Hc. destruct (fold_left count_op _ _) as [adds dels]. simpl in Hc.
  eexists. split; [reflexivity|]. simpl. split.
  - rewrite negb_true_iff, Nat.eqb_neq. split; [intros ?; right; lia|intros [?|?]; [done|lia]].
  - intros ? ? [= <- <-] _. fold v. split; [done|lia].
Qed.
End drift.

(** ** Witnesses *)

(** A host without owner tags (macOS): the kernel lists an owned route as the
    system's; its profile was just disabled, and not applied. *)
Definition ex_left : Route := mkRoute "203.0.113.0/24" "192.168.1.1" "en0" 0 FamilyV4 OwnerSystem "" "" "" false false false.
Definition ex_off : Profile := mkProfile "office" "Office" "" false ModeExclude "auto" 0 [mkRule RuleCIDR "203.0.113.0/24" ""] [] [] "".
Definition ex_mac : Fake := set_routesV4 New (seed_v4 ++ [ex_left]).
Definition ex_records : DB := AddOwned ex_time (mkMR ex_left "office" 0) (snd (UpsertProfile ex_off ex_db)).
Definition ex_core : Service Fake := mkService ex_mac (Some ex_records) 0 None None None None None.

Definition ex_listed : list Route := or_nil (Routes ex_core FamilyV4 "").

Lemma Routes_precedence_witness : map rt_DstCIDR ex_listed ≡ₚ map rt_DstCIDR (seed_v4 ++ [ex_left]).
Proof.
  refine (proj1 (Routes_precedence ex_core FamilyV4 (seed_v4 ++ [ex_left]) ex_listed _ _ _ _)).
  - done.
  - vm_compute. reflexivity.
  - apply (bool_decide_unpack (Forall (fun r => rt_Family r = FamilyV4) (seed_v4 ++ [ex_left]))). vm_compute. exact I.
  - vm_compute. reflexivity.
Defined.

Lemma drift_exact_witness :
  exists st, computeDrift [FamilyV4; FamilyV6] map_to_list ex_json None ex_core (actualManagedRoutes ex_core) = Some st /\
    (dr_Pending st = true <-> dr_Reason st <> None \/ 0 < dr_Adds st + dr_Dels st).
Proof.
  destruct (drift_exact [FamilyV4; FamilyV6] map_to_list ex_json None ex_core ex_records (actualManagedRoutes ex_core) eq_refl)
    as (st & H1 & H2 & _).
  exists st. split; [exact H1|exact H2].
Defined.

(** where the kernel tags no owner, the explanation of a destination misses
    what an apply would change: the simulated table keeps an owned route the
    desired set no longer has, because only tagged routes are left out of it.
    The explanation reports no drift for an address whose route the drift
    counts as one to remove. *)
Theorem explain_misses_removal :
  let order := [FamilyV4; FamilyV6] in
  (exists e k, Explain order map_to_list ex_json None id ex_core "203.0.113.5" = inr e /\ re_Kernel e = Some k /\
     rd_MatchedCIDR k = "203.0.113.0/24" /\ re_Drift e = false) /\
  (exists st, computeDrift order map_to_list ex_json None ex_core (actualManagedRoutes ex_core) = Some st /\
     dr_Pending st = true /\ dr_Dels st = 1).
Proof. split; repeat eexists; vm_compute; reflexivity. Qed.
