(* ===== verification/Reconciler.v ===== *)
(** * The network reconciler (internal/reconcile/reconcile.go)

    What runs an apply when the network changed: the auto-apply path over the
    Apply Protocol, the tunnels' apply, and the loop that debounces events.

    The protocol and the service share the provider and the store
    ([service_of]); what a change records when it commits is what the service
    gave with the desired set ([commit_settings]). Callbacks of the
    daemon (the tunnel manager, the resolver, the held routes) answer as [env]
    says. Logs, and the test hook, are left out. *)

From S2P Require Import Prelude.
From S2P Require Import Netip NetipText Domain Reconcile Input Tunnels Engine Provider.
From S2P Require Import FakeProvider Executor Watchdog LiveRepair Store ApplyParts Protocol ProtocolFacts Yielded Service ServiceReads.

Definition LiveCheckInterval : Z := 30 * Second.

Section reconciler.
Context {S : Type} `{!RouteProvider S}.
Context (platform : string) (rfc3339nano : Z -> string) (ErrorText : error -> string) (ssh : string).
Context (fam_order : list Family) (range_map : gmap string string -> list (string * string)) (json : Json).
Context (ListTable : option (Family -> string -> S -> error + list Route)) (BuildErrorf : build_error -> error).

Abbreviation Rec := commit_settings.
Abbreviation Proto := (Protocol S Rec).

(** What the daemon's callbacks answer. *)
Record environment : Type := mkEnv {
  ev_domains : option (string -> list addr);
  ev_wildcardIPs : option (string -> list string);
  ev_tunnelInputs : option (list TunnelInput);
  ev_tunnelStatus : option (list TunnelStatus);
}.

Definition service_of (env : environment) (p : Proto) : Service S :=
  mkService (p_prov p) (Some (p_store p)) (p_now p) (ev_domains env) (ev_wildcardIPs env) (ev_tunnelInputs env)
    (ev_tunnelStatus env) (Some (held_list (p_live p) (p_now p))).

(** ** Options *)

Definition options : Options Rec :=
  mkOptions false false [] 3 Second 0 (30 * Second) ActorDaemon AddrZero None false false None false false false.

Definition set_background (o : Options Rec) : Options Rec :=
  mkOptions (o_DryRun o) (o_Interactive o) (o_Anchors o) (o_K o) (o_ProbeInterval o) (o_ConfirmTimeout o) (o_GuardWindow o)
    (o_Actor o) (o_PhysGW o) (o_SnapshotProfiles o) (o_VetChangesOnly o) (o_Unguarded o) (o_OnCommit o) (o_BuiltOnRecord o)
    (o_Lendable o) true.

Definition set_commit (r : option Rec) (o : Options Rec) : Options Rec :=
  mkOptions (o_DryRun o) (o_Interactive o) (o_Anchors o) (o_K o) (o_ProbeInterval o) (o_ConfirmTimeout o) (o_GuardWindow o)
    (o_Actor o) (o_PhysGW o) (o_SnapshotProfiles o) (o_VetChangesOnly o) (o_Unguarded o) r (o_BuiltOnRecord o)
    (o_Lendable o) (o_Background o).

(** A tunnel apply's: vets what it changes, commits without a guard, is built on
    the last record, and runs under a lent lock. *)
Definition tunnel_options : Options Rec :=
  mkOptions false false [] 3 Second 0 (30 * Second) ActorDaemon AddrZero None true true None true true false.

(** ** The builds, under the apply lock *)

Definition build_full (env : environment) : Build (S := S) (R := Rec) := fun p _ o =>
  let '(res, gw, record) := DesiredForApply fam_order range_map json ListTable (service_of env p) in
  match res with
  | inl e => inl (BuildErrorf e)
  | inr (routes, rules) => inr (routes, rules, set_commit record (UseGateway gw o))
  end.

Definition build_tunnels (env : environment) : Build (S := S) (R := Rec) := fun p owned o =>
  let '(routes, rules, gw, record) := TunnelsForApply range_map json ListTable (service_of env p) owned in
  inr (routes, rules, set_commit (Some record) (UseGateway gw o)).

(** ** Reconcile

    [None] outside: it waits for the lock; [None] inside: a Go panic. *)
Definition applyTunnels (ended : option error) (env : environment) (tm : option timing) (p : Proto)
    : option (option (outcome (S := S) (R := Rec))) :=
  ApplyBuilt platform rfc3339nano ErrorText ssh ended (build_tunnels env) tunnel_options tm p.

(** An apply that failed but returned no error is an error of its own. *)
Definition ApplyTunnels (ended : option error) (env : environment) (tm : option timing) (p : Proto)
    : option (option (option error * Proto)) :=
  r ← applyTunnels ended env tm p;
  Some (match r with
        | None => None
        | Some (res, err, q) =>
            Some (match err with
                  | None => if rs_Status res =s? TxFailed then Some (Errorf "%s" [rs_Error res]) else None
                  | Some e => Some e
                  end, q)
        end).

(** The error it returns, and the state after; its result goes to the test hook
    only. *)
Definition Reconcile_now (enabled : bool) (ended : option error) (env : environment) (tm : option timing) (p : Proto)
    : option (option (option error * Proto)) :=
  let reported := fmap (M := option) (fmap (M := option) (fun o : outcome (S := S) (R := Rec) => (snd (fst o), snd o))) in
  if negb enabled then
    if negb (TunnelsActive (service_of env p)) then Some (Some (None, p))
    else reported (applyTunnels ended env tm p)
  else
    reported (ApplyBuilt platform rfc3339nano ErrorText ssh ended (build_full env) (set_background options) tm p).

(** ** Run

    One turn of the loop: an event, the debounce timer, the periodic check (its
    [missing] is [LiveMissing]), the end. [armed]: the timer is set. The result
    says whether the loop goes on and whether it reconciles. *)
Inductive run_event : Type :=
| NetworkEvent
| TimerFired
| LiveCheck (enabled : bool) (missing : Z)
| ContextDone
| EventsClosed.

Record run_state : Type := mkRun { rn_armed : bool; rn_running : bool }.

Definition run_step (debounce : Z) (st : run_state) (ev : run_event) : run_state * bool :=
  if negb (rn_running st) then (st, false)
  else
    match ev with
    | ContextDone | EventsClosed => (mkRun (rn_armed st) false, false)
    | NetworkEvent => if debounce <=? 0 then (st, true) else (mkRun true true, false)
    | TimerFired => if rn_armed st then (mkRun false true, true) else (st, false)
    | LiveCheck enabled missing => (st, enabled && (0 <? missing))
    end.

Fixpoint run_events (debounce : Z) (st : run_state) (evs : list run_event) : run_state * list bool :=
  match evs with
  | [] => (st, [])
  | ev :: evs' =>
      let '(st, go) := run_step debounce st ev in
      let '(st, gos) := run_events debounce st evs' in (st, go :: gos)
  end.
End reconciler.

(** ** Applies without a guard *)

Section unguarded.
Context {S : Type} `{!RouteProvider S} {R : Type} `{!CommitRecord R}.
Context (platform : string) (rfc3339nano : Z -> string) (ErrorText : error -> string) (ssh : string).
Abbreviation Proto := (Protocol S R).

(** The kernel as an apply finds it: as it was, or as settling what was on
    probation leaves it. *)
Definition found_kernel (p : Proto) (s : S) : Prop :=
  s = p_prov p \/ exists live, s = p_prov (snd (supersedePending rfc3339nano ErrorText (set_live p live))).

(** What becomes of a change that waits for nobody. [Q] says which record is its
    own. *)
Inductive at_once (Q : R -> Prop) (p : Proto) : outcome (S := S) (R := R) -> Prop :=
| once_refused r e q :
    rs_Status r = TxFailed -> found_kernel p (p_prov q) -> p_pending q = p_pending p \/ p_pending q = [] ->
    at_once Q p (r, Some e, q)
| once_in_place r q :
    rs_Status r = TxCommitted -> pl_Ops (rs_Plan r) = [] -> found_kernel p (p_prov q) -> p_pending q = p_pending p \/ p_pending q = [] ->
    at_once Q p (r, None, q)
| once_failed r q s e :
    rs_Status r = TxFailed -> found_kernel p s -> Apply (rs_Plan r) s = (Some e, p_prov q) -> p_pending q = [] ->
    at_once Q p (r, None, q)
| once_committed r q s rec q0 :
    rs_Status r = TxCommitted -> found_kernel p s -> Apply (rs_Plan r) s = (None, p_prov q) -> p_pending q = [] ->
    p_resolved q !! rs_TxID r = Some TxCommitted -> journal q (rs_TxID r) = None ->
    Q rec -> q = runRecord (Some rec) q0 -> at_once Q p (r, None, q).

Lemma applyOwnership_prov plan undo (p : Proto) : p_prov (applyOwnership rfc3339nano plan undo p) = p_prov p.
Proof.
  unfold applyOwnership. generalize (pl_Ops plan). intros ops. revert p. induction ops as [|op ops IH]; intros p; simpl; [done|]. by rewrite IH.
Qed.

Lemma executePlan_at_once Q action plan diff (o : Options R) tm (p0 p : Proto) rec : o_Unguarded o = true -> o_OnCommit o = Some rec -> Q rec ->
  found_kernel p0 (p_prov p) -> p_pending p = [] ->
  let '(r, q) := executePlan rfc3339nano ErrorText action plan diff o true tm p in at_once Q p0 (r, None, q).
Proof.
  intros Hu Ho HQ Hk Hp. unfold executePlan. destruct (begin_tx o true plan p) as [id p1] eqn:Eb.
  destruct (begin_tx_spec o true plan p id p1 Eb) as (_ & _ & _ & Epe & _ & Epr & _).
  destruct (Apply plan (p_prov p1)) as [[err|] s] eqn:Ea; rewrite Epr in Ea.
  - by eapply once_failed; [done|done|exact Ea|cbn; congruence].
  - rewrite Hu. unfold recordNow. rewrite Ho.
    destruct (applyOwnership_step rfc3339nano plan false (set_prov p1 s)) as (s' & ow & E).
    assert (s' = s) as ->. { pose proof (applyOwnership_prov plan false (set_prov p1 s)) as H. rewrite E in H. exact H. }
    rewrite E. eapply once_committed; [done|exact Hk|exact Ea|..|exact HQ|reflexivity].
    + cbn. congruence.
    + cbn. apply lookup_insert_eq.
    + unfold journal. cbn [runRecord set_records upd_store set_store p_store rs_TxID]. rewrite record_pending.
      change (journal (clearPending id (set_prov p1 s)) id = None). rewrite journal_clear. by rewrite decide_True.
Qed.

Lemma take_place_pending r l : forall p : Proto, p_pending (fold_left (take_place r) l p) = p_pending p.
Proof.
  induction l as [|id l IH]; intros p; simpl; [done|]. rewrite IH. unfold take_place. by destruct (p_heap p !! id).
Qed.

Lemma recordUnchanged_pending (o : Options R) beside (p : Proto) : p_pending (recordUnchanged o beside p) = p_pending p.
Proof.
  unfold recordUnchanged. destruct (o_OnCommit o); [|done]. destruct (_ && _); [done|]. destruct (existsb _ _); [done|].
  destruct (bool_decide _); simpl; by rewrite take_place_pending.
Qed.

Lemma recordUnchanged_prov (o : Options R) beside (p : Proto) : p_prov (recordUnchanged o beside p) = p_prov p.
Proof.
  unfold recordUnchanged. destruct (o_OnCommit o) as [r|]; [|done]. destruct (_ && _); [done|]. destruct (existsb _ _); [done|].
  assert (forall l (q : Proto), p_prov (fold_left (take_place (Some r)) l q) = p_prov q) as H.
  { induction l as [|id l IH]; intros q; simpl; [done|]. rewrite IH. unfold take_place. by destruct (p_heap q !! id). }
  destruct (bool_decide _); simpl; by rewrite H.
Qed.

(** With nothing pending any more, a second build finds the same kernel. *)
Lemma found_again p q s : found_kernel p (p_prov q) -> p_pending q = [] -> found_kernel q s -> found_kernel p s.
Proof.
  intros H Hq [->|[live ->]]; [done|]. unfold supersedePending. cbn [p_pending set_live]. by rewrite Hq.
Qed.

Lemma at_once_again Q p q out : found_kernel p (p_prov q) -> p_pending q = [] -> at_once Q q out -> at_once Q p out.
Proof.
  intros Hk Hq H. pose proof (found_again p q) as Hf.
  destruct H as [r e q' Hs Hf' Hp|r q' Hs Ho Hf' Hp|r q' s e Hs Hf' Ha Hp|r q' s rec q0 Hs Hf' Ha Hp Hr Hj HQ Hrun].
  - apply once_refused; [done|by apply Hf|right; destruct Hp; congruence].
  - apply once_in_place; [done|done|by apply Hf|right; destruct Hp; congruence].
  - by eapply once_failed; [|apply Hf|..].
  - by eapply once_committed; [|apply Hf|..].
Qed.

Lemma apply_at_once Q owned desired rules (o : Options R) beside again tm (p : Proto) rec out :
  inv p -> o_Unguarded o = true -> o_DryRun o = false -> o_OnCommit o = Some rec -> Q rec ->
  (forall f q out', again = Some f -> inv q -> f q = Some out' -> at_once Q q out') ->
  apply platform rfc3339nano ErrorText ssh owned desired rules o beside again tm p = Some out -> at_once Q p out.
Proof.
  intros I Hu Hd Ho HQ Hagain. unfold apply. destruct (apply_plan platform owned desired rules o p) as [[[plan diff] q]|] eqn:E; [|done].
  pose proof (apply_plan_inv _ _ _ _ _ _ _ _ _ I E) as Iq.
  assert (exists live, q = set_live p live) as [live ->].
  { unfold apply_plan, installed_now in E. destruct (installed_routes _ _ _ _ _ _ _) as [actual live]. destruct (Reconcile _ _ _ _ _); [|done].
    simpl in E. destruct (diffFromPlan _); [|done]. simpl in E. exists live. by injection E as _ _ <-. }
  simpl. unfold apply_rest. rewrite Hd.
  destruct (negb _); [intros [= <-]; apply once_refused; [done|by left|by left]|].
  destruct (bool_decide_reflect (pl_Ops plan = [])) as [Ep|]; [intros [= <-]; apply once_in_place; [done|done|left; by rewrite recordUnchanged_prov|left; by rewrite recordUnchanged_pending]|].
  destruct (supersedePending rfc3339nano ErrorText (set_live p live)) as [[e|] q'] eqn:Es; destruct (supersede_inv _ _ _ _ _ Iq Es) as [Iq' Hs].
  { intros [= <-]. subst. apply once_refused; [done|by left|by left]. }
  assert (found_kernel p (p_prov q')) as Hk by (right; exists live; by rewrite Es).
  destruct again as [f|]; [intros H; apply (at_once_again Q p q'); [done|done|by eapply Hagain]|].
  pose proof (takeSnapshot_same rfc3339nano o q') as (_ & Hpe & _).
  pose proof (executePlan_at_once Q "apply" plan diff o tm p (takeSnapshot rfc3339nano o q') rec Hu Ho HQ) as He.
  destruct (executePlan _ _ _ _ _ _ _ _ _) as [r q'']. intros [= <-]. apply He; [|congruence].
  unfold takeSnapshot. by destruct (Capture _ _ _ _).
Qed.
End unguarded.

Section reconciler_facts.
Context {S : Type} `{!RouteProvider S}.
Context (platform : string) (rfc3339nano : Z -> string) (ErrorText : error -> string) (ssh : string).
Context (fam_order : list Family) (range_map : gmap string string -> list (string * string)) (json : Json).
Context (ListTable : option (Family -> string -> S -> error + list Route)) (BuildErrorf : build_error -> error).
Abbreviation Proto := (Protocol S commit_settings).
Abbreviation reach := (reachable platform rfc3339nano ErrorText ssh).
Abbreviation tunnels_now := (applyTunnels platform rfc3339nano ErrorText ssh range_map json ListTable).
Abbreviation reconcile_now := (Reconcile_now platform rfc3339nano ErrorText ssh fam_order range_map json ListTable BuildErrorf).

(** What a tunnel apply records: what its own build says. *)
Definition tunnel_record (env : environment) (rec : commit_settings) : Prop :=
  exists p owned, rec = snd (TunnelsForApply range_map json ListTable (service_of env p) owned).

Lemma built_tunnels env (p : Proto) owned desired rules o :
  build_tunnels range_map json ListTable env p owned tunnel_options = inr (desired, rules, o) ->
  o_Unguarded o = true /\ o_DryRun o = false /\ exists rec, o_OnCommit o = Some rec /\ tunnel_record env rec.
Proof.
  unfold build_tunnels. destruct (TunnelsForApply _ _ _ _ _) as [[[r l] gw] rec] eqn:E. intros [= _ _ <-]. split_and!; [done..|].
  exists rec. split; [done|]. exists p, owned. by rewrite E.
Qed.

Lemma applyBuilt_tunnels env beside tm (p : Proto) out : inv p ->
  applyBuilt platform rfc3339nano ErrorText ssh (build_tunnels range_map json ListTable env) tunnel_options beside tm p = Some out ->
  at_once rfc3339nano ErrorText (tunnel_record env) p out.
Proof.
  intros I. unfold applyBuilt. destruct (build_tunnels _ _ _ _ _ _ _) as [err|[[desired rules] o]] eqn:E.
  { intros [= <-]. apply once_refused; [done|by left|by left]. }
  destruct (built_tunnels _ _ _ _ _ _ E) as (Hu & Hd & rec & Ho & HQ). eapply apply_at_once; [done..|].
  intros f q out' Hf Iq Hout. destruct (_ && _); [|done]. injection Hf as <-. revert Hout. unfold applyBuilt_once.
  destruct (build_tunnels _ _ _ _ q _ _) as [err|[[desired' rules'] o']] eqn:E'.
  { intros [= <-]. apply once_refused; [done|by left|by left]. }
  destruct (built_tunnels _ _ _ _ _ _ E') as (Hu' & Hd' & rec' & Ho' & HQ'). by eapply apply_at_once.
Qed.


(** auto-apply fails safe. Turned off with no tunnel running or recorded, a
    reconcile does nothing; with a desired set that cannot be built, it changes
    nothing, whatever else is pending, and says why. *)
Theorem reconcile_fail_safe (enabled : bool) env tm (p : Proto) :
  (enabled = false -> TunnelsActive (service_of env p) = false -> reconcile_now enabled None env tm p = Some (Some (None, p))) /\
  (forall e, enabled = true -> fst (fst (DesiredForApply fam_order range_map json ListTable (service_of env p))) = inl e ->
     p_locked p = false -> p_panicking p = 0 -> reconcile_now enabled None env tm p = Some (Some (Some (BuildErrorf e), p))).
Proof.
  unfold Reconcile_now. split.
  - intros -> Ht. simpl. by rewrite Ht.
  - intros e -> He Hl Hp. simpl. unfold ApplyBuilt, with_lock, lockApply, LockCtx. rewrite Hp, Hl. simpl.
    unfold applyBuilt, build_full. destruct (DesiredForApply _ _ _ _ _) as [[res gw] rec]. simpl in He. by subst res.
Qed.

(** reconciling, whichever way it goes, keeps the protocol's invariant: what
    it leads to is a state the protocol can reach, for every build, network and
    record. *)
Theorem reconcile_reachable (enabled : bool) ended env tm (p q : Proto) err :
  reach p -> reconcile_now enabled ended env tm p = Some (Some (err, q)) -> reach q.
Proof.
  intros (prov & st & now & Hr) H.
  assert (p = q \/ exists build o out, ApplyBuilt platform rfc3339nano ErrorText ssh ended build o tm p = Some (Some out) /\
            snd out = q) as [->|(build & o & out & Hb & <-)]; [|by exists prov, st, now|].
  - unfold Reconcile_now in H. destruct enabled; simpl in H.
    + right. destruct (ApplyBuilt _ _ _ _ _ _ _ _ p) as [[[[res e] q']|]|] eqn:E; try done. simpl in H. simplify_eq. eauto.
    + destruct (TunnelsActive _); simpl in H; [|left; by simplify_eq]. right. unfold applyTunnels in H.
      destruct (ApplyBuilt _ _ _ _ _ _ _ _ p) as [[[[res e] q']|]|] eqn:E; try done. simpl in H. simplify_eq. eauto.
  - exists prov, st, now. eapply rtc_r; [exact Hr|]. by eapply step_built.
Qed.
End reconciler_facts.

(** ** Debouncing *)

Definition is_network (ev : run_event) : bool := match ev with NetworkEvent => true | _ => false end.
Definition is_timer (ev : run_event) : bool := match ev with TimerFired => true | _ => false end.
Definition stops (ev : run_event) : bool := match ev with ContextDone | EventsClosed => true | _ => false end.

(** The reconciles the timer caused. *)
Definition timer_runs (debounce : Z) (st : run_state) (evs : list run_event) : nat :=
  length (keep_if (fun x => is_timer (fst x) && snd x) (zip evs (snd (run_events debounce st evs)))).

Lemma run_events_app debounce evs1 evs2 : forall st,
  run_events debounce st (evs1 ++ evs2) =
  let '(st1, g1) := run_events debounce st evs1 in let '(st2, g2) := run_events debounce st1 evs2 in (st2, g1 ++ g2).
Proof.
  induction evs1 as [|ev evs1 IH]; intros st; simpl; [by destruct (run_events _ _ _)|].
  destruct (run_step debounce st ev) as [st' go]. rewrite IH. destruct (run_events debounce st' evs1) as [st1 g1].
  by destruct (run_events debounce st1 evs2).
Qed.

(** events are debounced and none is lost: the timer never causes more
    reconciles than there were network events (one more if it was set already),
    and after any events that do not end the loop, a network event followed by
    the timer, with no matter how many network events and checks between,
    reconciles. Nothing is done once the loop ended. *)
Theorem run_debounces debounce st evs :
  0 < debounce ->
  (timer_runs debounce st evs <= length (keep_if is_network evs) + Nat.b2n (rn_armed st))%nat /\
  (forall between, rn_running st = true -> existsb stops evs = false ->
     Forall (fun ev => is_timer ev = false /\ stops ev = false) between ->
     last (snd (run_events debounce st (evs ++ [NetworkEvent] ++ between ++ [TimerFired]))) = Some true) /\
  (rn_running st = false -> Forall (fun go => go = false) (snd (run_events debounce st evs))).
Proof.
  intros Hd. split_and!.
  - revert st. unfold timer_runs. induction evs as [|ev evs IH]; intros st; [simpl; lia|]. cbn [run_events].
    destruct (run_step debounce st ev) as [st' go] eqn:E. specialize (IH st').
    destruct (run_events debounce st' evs) as [st'' gos]. cbn [snd zip_with zip keep_if List.filter fst] in *. unfold keep_if in *. cbn [List.filter].
    destruct st as [armed running], st' as [armed' running']. unfold run_step in E. cbn [rn_running rn_armed] in *.
    destruct running, ev, armed, (debounce <=? 0) eqn:Ed; simpl in E; bool_hyps; try lia;
      injection E as <- <- <-; simpl in *; try lia; try (destruct (enabled && _)); simpl; lia.
  - intros between Hrun Hev Hb.
    assert (forall l s, rn_running s = true -> existsb stops l = false -> rn_running (fst (run_events debounce s l)) = true) as Hkeep.
    { induction l as [|ev l IH]; intros s Hs Hl; simpl in *; [done|]. bool_hyps.
      destruct (run_step debounce s ev) as [s' go] eqn:E.
      assert (rn_running s' = true) as Hs'.
      { unfold run_step in E. rewrite Hs in E. simpl in E. destruct ev; try done; repeat case_match; by simplify_eq. }
      specialize (IH s' Hs' ltac:(done)). by destruct (run_events debounce s' l). }
    assert (forall l s, rn_running s = true -> rn_armed s = true -> Forall (fun ev => is_timer ev = false /\ stops ev = false) l ->
      rn_running (fst (run_events debounce s l)) = true /\ rn_armed (fst (run_events debounce s l)) = true) as Harm.
    { induction l as [|ev l IH]; intros s Hs Ha Hl; simpl in *; [done|]. apply Forall_cons in Hl as [[Hl1 Hl2] Hl].
      destruct (run_step debounce s ev) as [s' go] eqn:E.
      assert (rn_running s' = true /\ rn_armed s' = true) as [Hs' Ha'].
      { unfold run_step in E. rewrite Hs in E. simpl in E. destruct ev; try done; repeat case_match; by simplify_eq. }
      specialize (IH s' Hs' Ha' Hl). by destruct (run_events debounce s' l). }
    rewrite run_events_app. pose proof (Hkeep evs st Hrun Hev) as H1. destruct (run_events debounce st evs) as [s1 g1]. simpl in H1.
    rewrite run_events_app. cbn [run_events]. unfold run_step at 1. rewrite H1. simpl.
    rewrite (proj2 (Z.leb_gt _ _)) by lia. rewrite run_events_app.
    pose proof (Harm between (mkRun true true) eq_refl eq_refl Hb) as [H2 H3].
    destruct (run_events debounce (mkRun true true) between) as [s2 g2]. simpl in H2, H3. simpl. unfold run_step. rewrite H2, H3. simpl.
    by rewrite app_comm_cons, app_assoc, last_snoc.
  - intros Hr. revert st Hr. induction evs as [|ev evs IH]; intros st Hr; simpl; [constructor|].
    unfold run_step at 1. rewrite Hr. simpl. specialize (IH st Hr). destruct (run_events debounce st evs). by constructor.
Qed.

(** ** Witnesses *)

(** The in-memory host, and a tunnel that is up. *)
Definition ex_env : environment := mkEnv None None (Some [ex_office]) None.
Definition ex_start : Protocol Fake commit_settings := NewProtocol New ex_db 0.

Lemma ex_start_reachable : reachable "fake" ex_time (fun _ => "") "" ex_start.
Proof. exists New, ex_db, 0. constructor. Defined.


Lemma reconcile_reachable_witness :
  match Reconcile_now "fake" ex_time (fun _ => "") "" [FamilyV4; FamilyV6] map_to_list ex_json None (fun _ => Errorf "" [])
          true None ex_env None ex_start with
  | Some (Some (_, q)) => reachable "fake" ex_time (fun _ => "") "" q
  | _ => False
  end.
Proof.
  destruct (Reconcile_now _ _ _ _ _ _ _ _ _ _ _ _ _ ex_start) as [[[err q]|]|] eqn:E; [|vm_compute in E; discriminate E..].
  exact (reconcile_reachable _ _ _ _ _ _ _ _ _ _ _ _ _ ex_start q err ex_start_reachable E).
Defined.

Lemma run_debounces_witness :
  last (snd (run_events 5 (mkRun false true) ([LiveCheck true 0] ++ [NetworkEvent] ++ [NetworkEvent; LiveCheck false 3] ++ [TimerFired])))
  = Some true.
Proof.
  refine (proj1 (proj2 (run_debounces 5 (mkRun false true) [LiveCheck true 0] _)) [NetworkEvent; LiveCheck false 3] _ _ _).
  - lia.
  - reflexivity.
  - reflexivity.
  - repeat constructor.
Defined.
