(* ===== verification/ApiMutate.v ===== *)
(** * The API's changes (internal/api/mutate.go)

    Every handler that changes something: profiles, lists, configuration files,
    split DNS, single routes, preferences, snapshots, panic. A handler reads and
    writes the daemon's store and runs the Apply Protocol over it.

    The protocol carries the provider and the store, which the server shares with
    it (cmd/riftrouted/main.go makes both, so neither is nil there and the
    branches for a missing store are left out); [readOnly] is the server without
    a protocol. What a request's body decodes to, the query's values, the time
    stamp of a new id, what a list's source answers and what the tunnel manager
    knows are arguments. Broadcasts and logs are left out. *)

From S2P Require Import Prelude.
From S2P Require Import Netip NetipText Domain Reconcile Input Engine Provider FakeProvider Killswitch Update Config Splitdns.
From S2P Require Import Watchdog LiveRepair Store ApplyParts Protocol ProtocolFacts Service KillswitchApi ServiceReads Reconciler.

Record applyReq : Type := mkApplyReq { rq_DryRun : bool; rq_Yes : bool; rq_ConfirmTimeoutSec : Z }.

Record routeOpReq : Type := mkRouteOp { ro_Action : string; ro_Route : Route; ro_NewRoute : option Route }.

Record ConfigResp : Type := mkResp {
  cr_Issues : list Issue;
  cr_Plan : option Plan;
  cr_Diff : option Diff;
  cr_Result : option Result;
  cr_ApplyError : string;
}.

Definition empty_resp : ConfigResp := mkResp [] None None None "".
Definition with_issues (l : list Issue) : ConfigResp := mkResp l None None None "".
Definition with_result (r : Result) (c : ConfigResp) : ConfigResp := mkResp (cr_Issues c) (cr_Plan c) (cr_Diff c) (Some r) (cr_ApplyError c).
Definition with_apply_error (e : string) (c : ConfigResp) : ConfigResp := mkResp (cr_Issues c) (cr_Plan c) (cr_Diff c) (cr_Result c) e.
Definition with_preview (p : Plan) (d : Diff) (c : ConfigResp) : ConfigResp := mkResp (cr_Issues c) (Some p) (Some d) (cr_Result c) (cr_ApplyError c).

(** What is written back, after the status. *)
Inductive body : Type :=
| BError (e : error)
| BResult (r : Result)
| BConfig (c : ConfigResp)
| BPreview (p : Plan) (d : Diff)
| BTx (id : string) (r : TxResult)
| BPanicked
| BList (l : NamedList)
| BRefreshed (n : Z)
| BDeleted (name : string)
| BSplit (routes : list SplitDNSRoute)
| BAutoApply (on : bool)
| BPreferences (p : Preferences)
| BSnapshots (l : list Snapshot).

Definition api_answer : Type := Z * body.

Definition isTrue (v : string) : bool := (v =s? "1") || (v =s? "true").

(** Two routes the kernel's delete would not tell apart. *)
Definition sameDest (a b : Route) : bool :=
  match ParsePrefix (rt_DstCIDR a), ParsePrefix (rt_DstCIDR b) with
  | Some pa, Some pb => bool_decide (Masked pa = Masked pb) && (rt_Table a =s? rt_Table b)
  | _, _ => (rt_DstCIDR a =s? rt_DstCIDR b) && (rt_Table a =s? rt_Table b)
  end.

Fixpoint profilesWith (profiles : list Profile) (p : Profile) : list Profile :=
  match profiles with
  | [] => [p]
  | q :: rest => if (pf_ID q =s? pf_ID p) || (pf_Name q =s? pf_Name p) then p :: rest else q :: profilesWith rest p
  end.

Definition validateSplitDNSRoute (rt : SplitDNSRoute) : list Issue :=
  (if negb (isValidDomain (sd_Domain rt)) then [mkConfigIssue SevError 0 "domain" (Errorf "invalid domain %q" [sd_Domain rt])] else []) ++
  (if bool_decide (ParseAddr (sd_Resolver rt) = None) then [mkConfigIssue SevError 0 "resolver" (Errorf "resolver must be an IP, got %q" [sd_Resolver rt])] else []).

Definition applyPreferencesPatch (cur : Preferences) (patch : PreferencesPatch) : error + Preferences :=
  let? cur := match pp_Updates patch with
              | None => inr cur
              | Some m => if negb (UpdateMode_Valid m) then inl (Errorf "invalid update mode %q (expected auto, notify, or off)" [m])
                          else inr (mkPreferences m (pf_Telemetry cur))
              end in
  match pp_Telemetry patch with
  | None => inr cur
  | Some l => if negb (TelemetryLevel_Valid l) then inl (Errorf "invalid telemetry level %q (expected full, basic, or off)" [l])
              else inr (mkPreferences (pf_Updates cur) l)
  end.

Definition with_destination (r : Route) (dst : string) : Route :=
  mkRoute dst (rt_Gateway r) (rt_Iface r) (rt_Metric r) (rt_Family r) (rt_Owner r) (rt_Proto r) (rt_Table r) (rt_Profile r) (rt_Cloned r) (rt_Scoped r) (rt_Reject r).
Definition keep_kernel (old r : Route) : Route :=
  mkRoute (rt_DstCIDR r) (rt_Gateway r) (rt_Iface r) (rt_Metric r) (rt_Family old) (rt_Owner r) (rt_Proto old) (rt_Table old) (rt_Profile r) (rt_Cloned r) (rt_Scoped r) (rt_Reject r).

(** The server: the protocol it shares with the daemon, its kill switch, its
    split-DNS manager, and the auto-apply switch when it has one. *)
Record Api (S M D : Type) : Type := mkApi {
  a_proto : Protocol S commit_settings;
  a_ks : Server S M;
  a_splitDNS : option D;
  a_autoApply : option bool;
}.
Arguments mkApi {S M D} _ _ _ _. Arguments a_proto {S M D} a. Arguments a_ks {S M D} a.
Arguments a_splitDNS {S M D} a. Arguments a_autoApply {S M D} a.

Section api.
Context {S M D : Type} `{!RouteProvider S} `{!Manager M} `{!SplitManager D}.
Context (platform : string) (rfc3339nano : Z -> string) (ErrorText : error -> string) (ssh : string).
Context (fam_order : list Family) (range_map : gmap string string -> list (string * string)) (json : Json).
Context (ListTable : option (Family -> string -> S -> error + list Route)) (BuildErrorf : build_error -> error).
Context (env : environment) (tm : option timing) (readOnly : bool).
(** The daemon's callbacks: on a profile change, before a panic's flush and after
    it. *)
Context (onProfilesChanged : DB -> D -> D) (beforePanic : Protocol S commit_settings -> Protocol S commit_settings)
  (onPanic : D -> D).
Abbreviation Rec := commit_settings.
Abbreviation Proto := (Protocol S Rec).
Implicit Types a : Api S M D.

(** [None] outside: it waits for the apply lock; [None] inside: a Go panic. *)
Definition handled : Type := option (option (api_answer * Api S M D)).
Definition reply (code : Z) (b : body) a : handled := Some (Some ((code, b), a)).

Definition set_api_proto a (p : Proto) : Api S M D := mkApi p (a_ks a) (a_splitDNS a) (a_autoApply a).
Definition set_api_store a (d : DB) : Api S M D := set_api_proto a (set_store (a_proto a) d).
Definition set_split a (d : option D) : Api S M D := mkApi (a_proto a) (a_ks a) d (a_autoApply a).
Definition store_of a : DB := p_store (a_proto a).
Definition svc a : Service S := service_of env (a_proto a).

Definition notifyProfilesChanged a : Api S M D := set_split a (onProfilesChanged (store_of a) <$> a_splitDNS a).

Definition mutationEnabled a (k : handled) : handled :=
  if readOnly then reply 501 (BError (Errorf "mutation is disabled (read-only mode)" [])) a else k.

(** ** Applying *)

Definition buildOptions (req : applyReq) (physGW : addr) : Options Rec :=
  let ct := if 0 <? rq_ConfirmTimeoutSec req then rq_ConfirmTimeoutSec req * Second else 15 * Second in
  mkOptions (rq_DryRun req) (negb (rq_Yes req) && negb (rq_DryRun req)) (DefaultAnchors physGW) 3 Second ct (30 * Second)
    ActorUI physGW None false false None false false false.

Definition set_snapshot (ps : option (list Profile)) (o : Options Rec) : Options Rec :=
  mkOptions (o_DryRun o) (o_Interactive o) (o_Anchors o) (o_K o) (o_ProbeInterval o) (o_ConfirmTimeout o) (o_GuardWindow o)
    (o_Actor o) (o_PhysGW o) ps (o_VetChangesOnly o) (o_Unguarded o) (o_OnCommit o) (o_BuiltOnRecord o) (o_Lendable o) (o_Background o).

(** The error of the build, run under the lock. These options build once. *)
Definition buildErr (ended : option error) a : option error :=
  match lockApply ended (a_proto a) with
  | Acquired => match fst (fst (DesiredForApply fam_order range_map json ListTable (svc a))) with inl e => Some (BuildErrorf e) | inr _ => None end
  | _ => None
  end.

Definition applyProfiles (ended : option error) (req : applyReq) (snapshot : option (list Profile)) a
    : option (option ((Result * option error) * Api S M D)) :=
  r ← ApplyBuilt platform rfc3339nano ErrorText ssh ended (build_full fam_order range_map json ListTable BuildErrorf env)
        (set_snapshot snapshot (buildOptions req AddrZero)) tm (a_proto a);
  Some ('(res, _, p) ← r; Some ((res, buildErr ended a), set_api_proto a p)).

Definition handlePlan a : handled :=
  mutationEnabled a
    match DesiredManaged fam_order range_map json ListTable (svc a) with
    | (inl e, _) => reply 400 (BError (BuildErrorf e)) a
    | (inr (desired, rules), _) =>
        match Plan_preview platform desired rules (a_proto a) with
        | None => Some None
        | Some (plan, diff) => reply 200 (BPreview plan diff) a
        end
    end.

(** How each handler reports its apply: [partly] for those whose change is
    stored whatever comes of it. *)
Definition apply_then (ended : option error) (req : applyReq) (snapshot : option (list Profile))
    (k : Result -> option error -> Api S M D -> api_answer * Api S M D) a : handled :=
  r ← applyProfiles ended req snapshot a;
  Some ('((res, err), a) ← r; Some (k res err a)).

Definition or_bad_request (res : Result) (err : option error) a : api_answer * Api S M D :=
  match err with Some e => ((400, BError e), a) | None => ((200, BResult res), a) end.

Definition partly (resp : ConfigResp) (res : Result) (err : option error) a : api_answer * Api S M D :=
  match err with
  | Some e => ((200, BConfig (with_apply_error (ErrorText e) resp)), a)
  | None => ((200, BConfig (with_result res resp)), a)
  end.

(** A body that does not decode leaves the zero request. *)
Definition handleApply (ended : option error) (req : error + applyReq) a : handled :=
  let req := match req with inr r => r | inl _ => mkApplyReq false false 0 end in
  mutationEnabled a (apply_then ended req None or_bad_request a).

Definition settle_request (f : string -> Proto -> (error + TxResult) * Proto) (req : error + string) a : handled :=
  mutationEnabled a
    match req with
    | inl e => reply 400 (BError e) a
    | inr id =>
        match f id (a_proto a) with
        | (inl e, p) => reply 404 (BError e) (set_api_proto a p)
        | (inr r, p) => reply 200 (BTx id r) (set_api_proto a p)
        end
    end.

Definition handleConfirm (req : error + string) a : handled := settle_request (Confirm rfc3339nano ErrorText) req a.
Definition handleRollback (req : error + string) a : handled := settle_request (Rollback rfc3339nano ErrorText) req a.

(** ** Panic

    The kill switch goes first; then, with every apply refused, the daemon's
    tunnels, and under the lock the flush. What the first part leaves to the
    second is the kill switch's error. *)
Definition ks_server a : Server S M :=
  let k := a_ks a in
  mkServer (p_prov (a_proto a)) (srv_killSwitch k) (Some (store_of a)) (ksWant k) (ksLast k) (ksBlocked k) (ksStrikes k).

Definition set_ks a (k : Server S M) : Api S M D :=
  mkApi (set_store (a_proto a) (default (store_of a) (srv_store k))) k (a_splitDNS a) (a_autoApply a).

Definition handlePanic_begin a : option error * Api S M D :=
  let '(ksErr, k) := disableKillSwitch (ks_server a) in
  let a := set_ks a k in
  (ksErr, set_api_proto a (beforePanic (panic_begin (a_proto a)))).

Definition handlePanic_flush (ksErr : option error) a : handled :=
  if p_locked (a_proto a) then None
  else
    let '(perr, p) := panic_flush rfc3339nano ErrorText ActorUI (Some (forget_record json)) (a_proto a) in
    let a := set_split (set_api_proto a p) (onPanic <$> a_splitDNS a) in
    match perr, ksErr with
    | Some e, None => reply 500 (BError e) a
    | Some e, Some k => reply 500 (BError (Wrapf "%w" [ErrorText k] e)) a
    | None, Some k => reply 500 (BError (Wrapf "routes flushed, but the kill switch could not be removed: %w" [] k)) a
    | None, None => reply 200 BPanicked a
    end.

(** ** Profiles *)

(** An unreadable table is an empty one. *)
Definition priorProfiles a : list Profile := or_nil (ListProfiles (store_of a)).

Definition handleProfileToggle (enable : bool) (name applyq : string) (ended : option error) a : handled :=
  mutationEnabled a
    (let prior := priorProfiles a in
     match SetProfileEnabled name enable (store_of a) with
     | (Some e, d) => reply (if bool_decide (e = ErrNotFound) then 404 else 500) (BError e) (set_api_store a d)
     | (None, d) =>
         let a := notifyProfilesChanged (set_api_store a d) in
         if applyq =s? "false" then reply 200 (BResult (mkResult "" emptyPlan emptyDiff [] "staged" false "")) a
         else apply_then ended (mkApplyReq false true 0) (Some prior) or_bad_request a
     end).

Definition trim_name (p : Profile) : Profile :=
  mkProfile (pf_ID p) (TrimSpace (pf_Name p)) (pf_Description p) (pf_Enabled p) (pf_Mode p) (pf_Gateway p) (pf_Priority p) (pf_Rules p)
    (pf_Lists p) (pf_IPVersion p) (pf_Tunnel p).
Definition set_ID (p : Profile) (id : string) : Profile :=
  mkProfile id (pf_Name p) (pf_Description p) (pf_Enabled p) (pf_Mode p) (pf_Gateway p) (pf_Priority p) (pf_Rules p)
    (pf_Lists p) (pf_IPVersion p) (pf_Tunnel p).

Definition known_names a : gset string := list_to_set (map nl_Name (or_nil (ListLists (store_of a)))).

Definition preview (resp : ConfigResp) (profiles : list Profile) a : handled :=
  match DesiredFromProfiles fam_order range_map json ListTable (svc a) profiles with
  | (inl e, _) => reply 400 (BError (BuildErrorf e)) a
  | (inr (desired, rules), _) =>
      match Plan_preview platform desired rules (a_proto a) with
      | None => Some None
      | Some (plan, diff) => reply 200 (BConfig (with_preview plan diff resp)) a
      end
  end.

(** [stamp]: the time in an id, as hexadecimal; [tunnelKnown]: the tunnel
    manager's [Status], when there is one. *)
Definition tunnel_warning (p : Profile) (tunnelKnown : option (string -> bool)) : list Issue :=
  match tunnelKnown with
  | Some known =>
      if (pf_Mode p =s? ModeTunnel) && negb (pf_Tunnel p =s? "") && negb (known (pf_Tunnel p))
      then [mkConfigIssue SevWarning 0 "tunnel" (Errorf "there's no tunnel named %q yet; this profile routes nothing until there is" [pf_Tunnel p])]
      else []
  | None => []
  end.

Definition name_taken (p : Profile) (existing : list Profile) : bool :=
  existsb (fun e => (pf_Name e =s? pf_Name p) && negb (pf_ID e =s? pf_ID p)) existing.

Definition handleProfileSave (decoded : error + Profile) (stamp dry_run yes : string) (tunnelKnown : option (string -> bool))
    (ended : option error) a : handled :=
  mutationEnabled a
    match decoded with
    | inl e => reply 400 (BError e) a
    | inr p =>
        let p := trim_name p in
        let vres := ValidateProfile p (Platform (svc a)) (Some (known_names a)) in
        let issues := vres ++ tunnel_warning p tunnelKnown in
        if HasErrors vres then reply 400 (BConfig (with_issues issues)) a
        else
          let p := if pf_ID p =s? "" then set_ID p ("gui:" +:+ pf_Name p +:+ "-" +:+ stamp) else p in
          let existing := or_nil (ListProfiles (store_of a)) in
          if name_taken p existing then
            reply 400 (BConfig (with_issues (issues ++
              [mkConfigIssue SevError 0 "name" (Errorf "a different profile already uses the name %q" [pf_Name p])]))) a
          else if isTrue dry_run then preview (with_issues issues) (profilesWith existing p) a
          else
            let prior := priorProfiles a in
            match UpsertProfile p (store_of a) with
            | (Some e, d) => reply 500 (BError e) (set_api_store a d)
            | (None, d) =>
                apply_then ended (mkApplyReq false (isTrue yes) 0) (Some prior) (partly (with_issues issues))
                  (notifyProfilesChanged (set_api_store a d))
            end
    end.

Definition handleProfileDelete (name yes : string) (ended : option error) a : handled :=
  mutationEnabled a
    (let prior := priorProfiles a in
     let a := notifyProfilesChanged (set_api_store a (DeleteProfile name (store_of a))) in
     apply_then ended (mkApplyReq false (isTrue yes) 0) (Some prior) (partly empty_resp) a).

(** ** A single route *)

Definition owned_clash (r : Route) a : option ManagedRoute :=
  match ListOwned (store_of a) with
  | inr owned => List.find (fun mr => sameDest (mr_Route mr) r) owned
  | inl _ => None
  end.

(** The plan, or the refusal; an inner [None] is a Go panic. *)
Definition routeop_plan (req : routeOpReq) (route : Route) a : option (api_answer + Plan) :=
  let bad e := Some (inl (400, BError e)) in
  let planned o := inr <$> o in
  if ro_Action req =s? "delete" then planned (DeleteRoutePlan route (Platform (svc a)))
  else
    match ro_NewRoute req with
    | None => bad (Errorf "replace needs new_route" [])
    | Some n =>
        match ParsePrefix (rt_DstCIDR n) with
        | None => bad (Errorf "invalid new destination %q" [rt_DstCIDR n])
        | Some npfx =>
            let n := with_destination n (prefix_String (Masked npfx)) in
            if negb (rt_Gateway n =s? "") && bool_decide (ParseAddr (rt_Gateway n) = None)
            then bad (Errorf "invalid gateway %q (use an IP address, or leave empty for on-link)" [rt_Gateway n])
            else if TrimSpace (rt_Iface n) =s? "" then bad (Errorf "new route needs an interface" [])
            else planned (ReplaceRoutePlan route (keep_kernel route n) (Platform (svc a)))
        end
    end.

Definition handleRouteOp (decoded : error + routeOpReq) (yes : string) (ended : option error) a : handled :=
  mutationEnabled a
    match decoded with
    | inl e => reply 400 (BError e) a
    | inr req =>
        if negb (ro_Action req =s? "delete") && negb (ro_Action req =s? "replace")
        then reply 400 (BError (Errorf "unknown action %q (want delete or replace)" [ro_Action req])) a
        else
          match ParsePrefix (rt_DstCIDR (ro_Route req)) with
          | None => reply 400 (BError (Errorf "invalid destination %q" [rt_DstCIDR (ro_Route req)])) a
          | Some pfx =>
              let route := with_destination (ro_Route req) (prefix_String (Masked pfx)) in
              if (rt_Proto route =s? ProtoRiftRoute) || (rt_Owner route =s? OwnerRiftRoute)
              then reply 409 (BError (Errorf "this route is managed by RiftRoute — edit the owning profile instead" [])) a
              else
                match owned_clash route a with
                | Some mr => reply 409 (BError (Errorf "this route is managed by profile %q — edit that profile instead" [mr_ProfileID mr])) a
                | None =>
                    match routeop_plan req route a with
                    | None => Some None
                    | Some (inl (code, b)) => reply code b a
                    | Some (inr plan) =>
                        let gw4 := match DefaultGateway FamilyV4 (p_prov (a_proto a)) with inr (g, _) => g | inl _ => AddrZero end in
                        r ← ApplyPlan rfc3339nano ErrorText ended "route-op" plan (buildOptions (mkApplyReq false (isTrue yes) 0) gw4) tm (a_proto a);
                        Some ('(res, err, p) ← r;
                              Some (match err with
                                    | Some e => if bool_decide (e = ErrGuardrail) then (200, BConfig (with_result res empty_resp)) else (500, BError e)
                                    | None => (200, BConfig (with_result res empty_resp))
                                    end, set_api_proto a p))
                    end
                end
          end
    end.

(** ** Configuration files *)

(** Each row that cannot be stored is logged and skipped. *)
Definition upsert_all (profiles : list Profile) (d : DB) : DB := fold_left (fun d p => snd (UpsertProfile p d)) profiles d.
Definition upsert_lists (ls : list NamedList) (d : DB) : DB := fold_left (fun d l => UpsertList l d) ls d.

Definition persist_config (cfg : FileConfig) (d : DB) : DB :=
  let '(profiles, ls) := ToDomain cfg in
  let d := upsert_lists ls (upsert_all profiles d) in
  let patch := config_patch cfg in
  if bool_decide (pp_Updates patch <> None) || bool_decide (pp_Telemetry patch <> None) then snd (SavePreferencesPatch patch d) else d.

Definition applySplitDNS (routes : list SplitDNSRoute) a : option error * Api S M D :=
  match a_splitDNS a with
  | None => (None, a)
  | Some m => let '(err, m) := if bool_decide (routes = []) then sm_Clear m else sm_Apply routes m in (err, set_split a (Some m))
  end.

(** [parsed]: what [config.ParseBytes] makes of the body; [explicit]: the file has
    a split_dns section that is empty; [encode]: a split-DNS selection as
    text. *)
Definition handleConfig (parsed : error + (option FileConfig * list Issue)) (explicit : bool) (encode : list SplitDNSRoute -> string)
    (dry_run yes : string) (ended : option error) a : handled :=
  mutationEnabled a
    match parsed with
    | inl e => reply 400 (BError e) a
    | inr (cfg, issues) =>
        if HasErrors issues then reply 400 (BConfig (with_issues issues)) a
        else
          match cfg with
          | None => Some None
          | Some cfg =>
              let '(profiles, _) := ToDomain cfg in
              if isTrue dry_run then preview (with_issues issues) profiles a
              else
                let prior := priorProfiles a in
                let a := notifyProfilesChanged (set_api_store a (persist_config cfg (store_of a))) in
                let selected res err a :=
                  let '(ans, a) := partly (with_issues issues) res err a in
                  match err with
                  | Some _ => (ans, a)
                  | None =>
                      let routes := SplitDNSRoutes cfg in
                      if explicit || negb (bool_decide (routes = []))
                      then (ans, snd (applySplitDNS routes (set_api_store a (SaveSplitDNS encode routes (store_of a)))))
                      else (ans, a)
                  end in
                apply_then ended (mkApplyReq false (isTrue yes) 0) (Some prior) selected a
          end
    end.

(** ** Lists *)

(** The service's list operations read and write the shared store. *)
Definition on_service {X} (f : Service S -> X * Service S) a : X * Api S M D :=
  let p := a_proto a in
  let '(x, s) := f (mkService (p_prov p) (Some (p_store p)) (p_now p) (ev_domains env) (ev_wildcardIPs env) (ev_tunnelInputs env)
                      (ev_tunnelStatus env) (Some (held_list (p_live p) (p_now p)))) in
  (x, set_api_store a (default (p_store p) (sv_store s))).

Definition handleListRefresh (fetch : string -> error + list string * string) (name : string) a : handled :=
  mutationEnabled a
    match on_service (RefreshList fetch name) a with
    | (inl e, a) => reply (if bool_decide (e = ErrNotFound) then 404 else 502) (BError e) a
    | (inr l, a) => reply 200 (BList l) a
    end.

Definition handleListRefreshAll (fetch : string -> error + list string * string) a : handled :=
  mutationEnabled a
    match on_service (RefreshAllLists fetch) a with
    | (inl e, a) => reply 502 (BError e) a
    | (inr n, a) => reply 200 (BRefreshed n) a
    end.

Definition trim_list (l : NamedList) : NamedList :=
  mkNamedList (TrimSpace (nl_Name l)) (nl_Static l) (nl_Source l) (nl_Refresh l) (nl_LastFetched l) (nl_Checksum l) (nl_Resolved l).
Definition keep_cache (prev l : NamedList) : NamedList :=
  mkNamedList (nl_Name l) (nl_Static l) (nl_Source l) (nl_Refresh l) (nl_LastFetched prev) (nl_Checksum prev) (nl_Resolved prev).

Definition cached (l : NamedList) (d : DB) : NamedList :=
  match GetList (nl_Name l) d with
  | inr prev => if nl_Source prev =s? nl_Source l then keep_cache prev l else l
  | inl _ => l
  end.

(** [url_scheme] and [ParseDuration]: net/url and time. *)
Definition handleListSave (url_scheme : string -> option string) (ParseDuration : string -> option Z)
    (fetch : string -> error + list string * string) (decoded : error + NamedList) a : handled :=
  mutationEnabled a
    match decoded with
    | inl e => reply 400 (BError e) a
    | inr l =>
        let l := trim_list l in
        let vres := ValidateList url_scheme ParseDuration l in
        if HasErrors vres then reply 400 (BConfig (with_issues vres)) a
        else
          let l := cached l (store_of a) in
          let a := set_api_store a (UpsertList l (store_of a)) in
          if negb (nl_Source l =s? "") && bool_decide (nl_LastFetched l = None) then
            match on_service (RefreshList fetch (nl_Name l)) a with
            | (inr l', a) => reply 200 (BList l') a
            | (inl _, a) => reply 200 (BList l) a
            end
          else reply 200 (BList l) a
    end.

Definition handleListDelete (name : string) a : handled :=
  mutationEnabled a
    match List.find (fun p => existsb (fun ref => ref =s? name) (pf_Lists p)) (or_nil (ListProfiles (store_of a))) with
    | Some p => reply 409 (BError (Errorf "list %q is used by profile %q — remove it from the profile first" [name; pf_Name p])) a
    | None => reply 200 (BDeleted name) (set_api_store a (DeleteList name (store_of a)))
    end.

(** ** Split DNS *)

Definition handleSplitDNSGet (decode : string -> error + list SplitDNSRoute) a : handled :=
  reply 200 (BSplit (or_nil (LoadSplitDNS decode (store_of a)))) a.

Definition handleSplitDNSSet (encode : list SplitDNSRoute -> string) (decoded : error + list SplitDNSRoute) a : handled :=
  mutationEnabled a
    match decoded with
    | inl e => reply 400 (BError e) a
    | inr routes =>
        let issues := routes ≫= validateSplitDNSRoute in
        if negb (bool_decide (issues = [])) then reply 400 (BConfig (with_issues issues)) a
        else
          match applySplitDNS routes (set_api_store a (SaveSplitDNS encode routes (store_of a))) with
          | (Some e, a) => reply 500 (BError e) a
          | (None, a) => reply 200 (BSplit routes) a
          end
    end.

(** ** Settings *)

Definition handleAutoApply (decoded : error + bool) a : handled :=
  match a_autoApply a with
  | None => reply 501 (BError (Errorf "auto-apply control unavailable" [])) a
  | Some _ =>
      match decoded with
      | inl e => reply 400 (BError e) a
      | inr on =>
          let a := set_api_store a (SetSetting "auto_apply" (if on then "true" else "false") (store_of a)) in
          reply 200 (BAutoApply on) (mkApi (a_proto a) (a_ks a) (a_splitDNS a) (Some on))
      end
  end.

Definition handlePreferencesSet (decoded : error + PreferencesPatch) a : handled :=
  match decoded with
  | inl e => reply 400 (BError e) a
  | inr patch =>
      match applyPreferencesPatch (LoadPreferences (store_of a)) patch with
      | inl e => reply 400 (BError e) a
      | inr p =>
          match SavePreferencesPatch patch (store_of a) with
          | (Some e, d) => reply 500 (BError e) (set_api_store a d)
          | (None, d) => reply 200 (BPreferences p) (set_api_store a d)
          end
      end
  end.

(** ** Snapshots *)

Definition restorable (s : Snapshot) : bool := bool_decide (sn_Profiles s <> None) && (sn_Format s <=? SnapshotFormat).

Definition trim_snapshot (s : Snapshot) : Snapshot :=
  mkSnapshot (sn_ID s) (sn_CreatedAt s) (sn_Reason s) [] [] [] (sn_Defaults s) (sn_DNS s) None (restorable s) (sn_Format s).

Definition handleSnapshots a : handled :=
  match ListSnapshots (store_of a) with
  | inl e => reply 500 (BError e) a
  | inr snaps => reply 200 (BSnapshots (map trim_snapshot snaps)) a
  end.

(** The profiles a snapshot does not have go, then its own come back; what cannot
    be stored is logged and skipped. *)
Definition restore_profiles (prior snap : list Profile) (d : DB) : DB :=
  let inSnap := list_to_set (map pf_ID snap) : gset string in
  let d := fold_left (fun d p => if bool_decide (pf_ID p ∈ inSnap) then d else DeleteProfile (pf_Name p) d) prior d in
  upsert_all snap d.

Definition handleSnapshotRestore (id yes : string) (ended : option error) a : handled :=
  mutationEnabled a
    match GetSnapshot id (store_of a) with
    | inl e => reply (if bool_decide (e = ErrNotFound) then 404 else 500) (BError e) a
    | inr snap =>
        match sn_Profiles snap with
        | None => reply 400 (BError (Errorf "this snapshot predates policy capture and cannot be restored" [])) a
        | Some profiles =>
            if SnapshotFormat <? sn_Format snap then
              reply 400 (BError (Errorf "this snapshot was made by a newer RiftRoute (format %d) and cannot be restored by this version"
                                  [pretty (sn_Format snap)])) a
            else
              let prior := priorProfiles a in
              let a := notifyProfilesChanged (set_api_store a (restore_profiles prior profiles (store_of a))) in
              apply_then ended (mkApplyReq false (isTrue yes) 0) (Some prior) (partly empty_resp) a
        end
    end.
End api.
