(* ===== verification/ApiFacts.v ===== *)
(** * What the API's changes do (theorems on ApiMutate)

    The Apply Protocol never touches policy: settings, profiles and lists are
    changed by the handlers only. On top of that: what each handler stores on
    every branch, the profile table's invariant, snapshots as an undo, single
    routes, and what is on probation after a request. *)

From S2P Require Import Prelude.
From S2P Require Import Netip NetipText Domain Reconcile Input Engine Provider FakeProvider Killswitch Update Config Splitdns.
From S2P Require Import Executor Panic Recovery Watchdog LiveRepair Store ApplyParts Protocol ProtocolFacts Service KillswitchApi ServiceReads Reconciler ApiMutate.

(** ** An apply changes no policy *)

(** The settings under other keys than these. *)
Definition other_settings (keys : list string) (d : DB) : gmap string string := filter (fun kv => kv.1 ∉ keys) (db_settings d).

(** What a user decides, of the store: all settings but those under the keys the
    records of applies are kept at, the profiles and the lists. *)
Definition policy_view (keys : list string) (d : DB) : gmap string string * list profile_row * list list_row := (other_settings keys d, db_profiles d, db_lists d).

Lemma other_settings_eq keys d d' : (forall k, k ∉ keys -> GetSetting k d' = GetSetting k d) -> other_settings keys d' = other_settings keys d.
Proof.
  intros H. apply map_filter_strong_ext. intros k v. cbn. unfold GetSetting in H. split; intros [Hk Hv]; (split; [done|]); specialize (H k Hk); congruence.
Qed.

Lemma other_settings_get keys d d' k : other_settings keys d' = other_settings keys d -> k ∉ keys -> GetSetting k d' = GetSetting k d.
Proof.
  intros H Hk. unfold GetSetting. apply option_eq. intros v.
  assert (forall d, db_settings d !! k = Some v <-> other_settings keys d !! k = Some v) as E.
  { intros d0. unfold other_settings. rewrite map_lookup_filter_Some. naive_solver. }
  by rewrite !E, H.
Qed.

Lemma record_policy `{!CommitRecord R} (r : R) d : policy_view (record_keys R) (run_record r d) = policy_view (record_keys R) d.
Proof.
  unfold policy_view. destruct (record_tables r d) as (-> & -> & _). rewrite (other_settings_eq (record_keys R) d); [done|]. intros k. apply record_spares.
Qed.

Section policy.
Context {S : Type} `{!RouteProvider S} {R : Type} `{!CommitRecord R}.
Context (platform : string) (rfc3339nano : Z -> string) (ErrorText : error -> string) (ssh : string).
Implicit Types p q : Protocol S R.

Definition kept_view p : gmap string string * list profile_row * list list_row * list snapshot_row := (policy_view (record_keys R) (p_store p), db_snapshots (p_store p)).

Lemma fold_left_kept {A} (f : Protocol S R -> A -> Protocol S R) l : (forall p x, kept_view (f p x) = kept_view p) ->
  forall p, kept_view (fold_left f l p) = kept_view p.
Proof. intros H. induction l as [|x l IH]; intros p; simpl; [done|]. by rewrite IH, H. Qed.

Lemma audit_kept actor action result reason plan rb codes p : kept_view (audit rfc3339nano actor action result reason plan rb codes p) = kept_view p.
Proof. done. Qed.

Lemma recordOwnership_kept op p : kept_view (recordOwnership rfc3339nano op p) = kept_view p.
Proof. unfold kept_view, recordOwnership, upd_store, record_op. simpl. by destruct (op_Route op) as [r|], (op_Kind op). Qed.

Lemma applyOwnership_kept plan undo p : kept_view (applyOwnership rfc3339nano plan undo p) = kept_view p.
Proof. apply fold_left_kept. intros q op. apply recordOwnership_kept. Qed.

Lemma rollBack_loop_kept ops own : forall rem err p, kept_view (snd (rollBack_loop rfc3339nano ops own rem err p)) = kept_view p.
Proof.
  induction ops as [|op ops IH]; intros rem err p; cbn [rollBack_loop]; [done|].
  destruct (do_op op (p_prov p)) as [[e|] s]; rewrite IH; [done|]. by destruct own; [rewrite recordOwnership_kept|].
Qed.

Lemma runRecord_kept fn p : kept_view (runRecord fn p) = kept_view p.
Proof. destruct fn as [r|]; [|done]. unfold kept_view. cbn. rewrite record_policy. by destruct (record_tables r (p_store p)) as (_ & _ & _ & -> & _). Qed.

Lemma settleRecord_kept id commit p : kept_view (settleRecord id commit p) = kept_view p.
Proof.
  unfold settleRecord. destruct (p_heap p !! id) as [pt|]; [|done]. case_if; [done|]. destruct commit; [|done]. by rewrite runRecord_kept.
Qed.

Lemma finishTx_kept id r p : kept_view (finishTx id r p) = kept_view p.
Proof. unfold finishTx. by destruct (p_resolved p !! id). Qed.

Lemma resolve_kept id p : kept_view (resolve rfc3339nano ErrorText id p) = kept_view p.
Proof.
  unfold resolve. destruct (tx p id) as [pt|]; [|done]. destruct (pt_decided pt) as [|d ds]; [done|]. unfold resolve_with.
  set (p1 := set_heap _ _). assert (kept_view p1 = kept_view p) as <- by done. case_if.
  - by rewrite finishTx_kept, settleRecord_kept.
  - unfold rollBack. pose proof (rollBack_loop_kept (withoutTunnelLinks (pl_Inverse (pt_plan pt))) (pt_ownership pt) [] None (settleRecord (pt_id pt) false p1)) as H.
    destruct (rollBack_loop _ _ _ _ _ _) as [[inv err] q]. cbn [snd] in H. rewrite settleRecord_kept in H.
    by destruct err; rewrite finishTx_kept.
Qed.

Lemma settle_kept id d p : kept_view (settle rfc3339nano ErrorText id d p) = kept_view p.
Proof. unfold settle. rewrite resolve_kept. unfold decide_id. by destruct (p_heap p !! id). Qed.

Lemma supersedePending_kept p : kept_view (snd (supersedePending rfc3339nano ErrorText p)) = kept_view p.
Proof. unfold supersedePending. case_if; [done|]. apply (fold_left_kept (fun p id => settle rfc3339nano ErrorText id decCommit p)). intros q id. apply settle_kept. Qed.

(** Every profile a snapshot holds is a good one. *)
Definition snapshots_all (Q : Profile -> Prop) (d : DB) : Prop :=
  forall r s ps, r ∈ db_snapshots d -> sw_doc r = Doc s -> sn_Profiles s = Some ps -> Forall Q ps.

(** Policy stays, and a snapshot that is added holds what the options say or the
    stored profiles. *)
Definition settles_to (snap : option (list Profile)) p q : Prop :=
  policy_view (record_keys R) (p_store q) = policy_view (record_keys R) (p_store p) /\
  forall Q, (forall l, ListProfiles (p_store p) = inr l -> Forall Q l) -> (forall l, snap = Some l -> Forall Q l) ->
    snapshots_all Q (p_store p) -> snapshots_all Q (p_store q).

Lemma kept_settles snap p q : kept_view q = kept_view p -> settles_to snap p q.
Proof. intros [= H1 H2 H3 H4]. split; [by unfold policy_view; congruence|]. intros Q _ _ H. unfold snapshots_all. by rewrite H4. Qed.

Lemma kept_trans snap p q r : kept_view q = kept_view p -> settles_to snap q r -> settles_to snap p r.
Proof.
  intros [= H1 H2 H3 H4] [H H']. split; [rewrite H; unfold policy_view; congruence|]. intros Q HQ Hs Hp. apply H'; [|done|].
  - intros l. unfold ListProfiles. rewrite H2. apply HQ.
  - unfold snapshots_all. by rewrite H4.
Qed.

Lemma settles_kept snap p q r : settles_to snap p q -> kept_view r = kept_view q -> settles_to snap p r.
Proof.
  intros [H H'] [= H1 H2 H3 H4]. split; [unfold policy_view in *; congruence|]. intros Q HQ Hs Hp. specialize (H' Q HQ Hs Hp). unfold snapshots_all. by rewrite H4.
Qed.

Lemma upsert_in {A K} (key : A -> K) `{!EqDecision K} new update rows x : x ∈ upsert key new update rows -> x = new \/ x ∈ rows \/ exists y, x = update y.
Proof.
  induction rows as [|y rows IH]; cbn [upsert]; [set_solver|]. case_bool_decide; rewrite !elem_of_cons; [naive_solver|]. intros [->|Hx]; [by right; left; left|].
  destruct (IH Hx) as [->|[Hx'|Hx']]; [by left|right; left; by right|by right; right].
Qed.

Lemma SaveSnapshot_in snap d r : r ∈ db_snapshots (PruneSnapshots snapshotRetention (SaveSnapshot rfc3339nano snap d)) ->
  r ∈ db_snapshots d \/ exists s, sw_doc r = Doc s /\ sn_Profiles s = sn_Profiles snap.
Proof.
  unfold PruneSnapshots. cbn [db_snapshots with_snapshots snapshotRetention Z.leb Z.compare]. intros [Hr _]%elem_of_keep_if. revert Hr. unfold SaveSnapshot. cbn [db_snapshots with_snapshots].
  set (snap' := if sn_Format snap =? 0 then _ else _). assert (sn_Profiles snap' = sn_Profiles snap) as E by (unfold snap'; by case_if).
  intros [->|[Hr|[y ->]]]%upsert_in; [right; exists snap'; by split|by left|right; exists snap'; by split].
Qed.

Lemma takeSnapshot_settles o p : settles_to (o_SnapshotProfiles o) p (takeSnapshot rfc3339nano o p).
Proof.
  unfold takeSnapshot. destruct (Capture _ _ _ _) as [|snap]; [by apply kept_settles|]. split; [done|]. intros Q HQ Ho Hp r s ps Hr Hs Hps.
  cbn [p_store upd_store set_store] in Hr. apply SaveSnapshot_in in Hr as [Hr|(s' & Hs' & Es)]; [by eapply Hp|].
  rewrite Hs in Hs'. injection Hs' as <-. rewrite Hps in Es. cbn [sn_Profiles] in Es. destruct (o_SnapshotProfiles o) as [l|].
  - injection Es as ->. by apply Ho.
  - destruct (ListProfiles (p_store p)) as [|l] eqn:El; [done|]. injection Es as ->. by apply HQ.
Qed.

Lemma executePlan_kept action plan diff o own tm p : kept_view (snd (executePlan rfc3339nano ErrorText action plan diff o own tm p)) = kept_view p.
Proof.
  unfold executePlan, begin_tx, nextTxID. cbn [fst snd]. set (p1 := upd_store _ _).
  assert (kept_view p1 = kept_view p) as <- by (unfold p1; by destruct (o_Background o)). destruct (Apply plan (p_prov p1)) as [[err|] s]; [done|]. clearbody p1.
  set (p2 := if own then applyOwnership _ _ _ _ else _). assert (kept_view p2 = kept_view p1) as <- by (unfold p2; by destruct own; [rewrite applyOwnership_kept|]).
  destruct (o_Unguarded o); [|done]. cbn [snd]. unfold recordNow. by rewrite runRecord_kept.
Qed.

Lemma recordUnchanged_kept o beside p : kept_view (recordUnchanged o beside p) = kept_view p.
Proof.
  unfold recordUnchanged. destruct (o_OnCommit o) as [r|]; [|done]. case_if; [done|]. case_if; [done|].
  assert (forall l q, kept_view (fold_left (take_place (Some r)) l q) = kept_view q) as H.
  { intros l. apply fold_left_kept. intros q id. unfold take_place. by destruct (p_heap q !! id). }
  case_if; [rewrite runRecord_kept|]; apply H.
Qed.

Lemma apply_settles owned desired rules o beside again tm p out :
  (forall f q out', again = Some f -> f q = Some out' -> settles_to (o_SnapshotProfiles o) q (snd out')) ->
  apply platform rfc3339nano ErrorText ssh owned desired rules o beside again tm p = Some out -> settles_to (o_SnapshotProfiles o) p (snd out).
Proof.
  intros Ha. unfold apply, apply_plan, installed_now. destruct (installed_routes _ _ _ _ _ _ _) as [actual live].
  destruct (Reconcile _ _ _ _ _) as [plan|]; [|done]. cbn. destruct (diffFromPlan plan) as [diff|]; [|done]. cbn.
  set (p1 := set_live p live). intros H. apply (kept_trans _ p p1); [done|]. revert H. unfold apply_rest. destruct (o_DryRun o); [intros [= <-]; by apply kept_settles|].
  case_if; [intros [= <-]; by apply kept_settles|]. case_if; [intros [= <-]; apply kept_settles, recordUnchanged_kept|].
  pose proof (supersedePending_kept p1) as Hs. destruct (supersedePending _ _ p1) as [[e|] p2]; cbn [snd] in Hs; [intros [= <-]; by apply kept_settles|].
  intros H. apply (kept_trans _ p1 p2); [done|]. destruct again as [f|]; [by apply (Ha f)|]. revert H.
  pose proof (executePlan_kept "apply" plan diff o true tm (takeSnapshot rfc3339nano o p2)) as He.
  destruct (executePlan _ _ _ _ _ _ _ _ _) as [r p3]. cbn [snd] in He. intros [= <-]. cbn. eapply settles_kept; [apply takeSnapshot_settles|done].
Qed.

Lemma ApplyBuilt_settles ended build o tm p out :
  (forall q owned desired rules o', build q owned o = inr (desired, rules, o') -> o_SnapshotProfiles o' = o_SnapshotProfiles o) ->
  ApplyBuilt platform rfc3339nano ErrorText ssh ended build o tm p = Some (Some out) -> settles_to (o_SnapshotProfiles o) p (snd out).
Proof.
  intros Hb. assert (forall beside q out', applyBuilt platform rfc3339nano ErrorText ssh build o beside tm q = Some out' -> settles_to (o_SnapshotProfiles o) q (snd out')) as H.
  { intros beside q out'. unfold applyBuilt. destruct (build q _ o) as [e|[[desired rules] o']] eqn:E; [intros [= <-]; by apply kept_settles|].
    rewrite <- (Hb _ _ _ _ _ E). apply apply_settles. intros f q' out''. case_if; [|done]. intros [= <-]. unfold applyBuilt_once.
    destruct (build q' _ o) as [e|[[desired' rules'] o'']] eqn:E'; [intros [= <-]; by apply kept_settles|].
    rewrite (Hb _ _ _ _ _ E), <- (Hb _ _ _ _ _ E'). by apply apply_settles. }
  unfold ApplyBuilt, with_lock. case_if; [case_if; [intros [= <-]; by apply kept_settles|]|
    destruct (lockApply ended p); [|intros [= <-]; by apply kept_settles|done]]; intros [= Hout]; by eapply H.
Qed.

Lemma ApplyPlan_settles ended action plan o tm p out :
  ApplyPlan rfc3339nano ErrorText ended action plan o tm p = Some (Some out) -> settles_to (o_SnapshotProfiles o) p (snd out).
Proof.
  unfold ApplyPlan, with_lock. destruct (lockApply ended p); [|intros [= <-]; by apply kept_settles|done]. intros [= H]. revert H. unfold apply_hand_built.
  destruct (diffFromPlan plan) as [diff|]; [|done]. cbn [mbind option_bind]. destruct (o_DryRun o); [intros [= <-]; by apply kept_settles|].
  case_if; [intros [= <-]; by apply kept_settles|]. case_if; [intros [= <-]; apply kept_settles, recordUnchanged_kept|].
  pose proof (supersedePending_kept p) as Hs. destruct (supersedePending _ _ p) as [[e|] p2]; cbn [snd] in Hs; [intros [= <-]; by apply kept_settles|].
  pose proof (executePlan_kept action plan diff o false tm (takeSnapshot rfc3339nano o p2)) as He.
  destruct (executePlan _ _ _ _ _ _ _ _ _) as [r p3]. cbn [snd] in He. intros [= <-]. cbn. apply (kept_trans _ p p2); [done|].
  eapply settles_kept; [apply takeSnapshot_settles|done].
Qed.

Lemma Panic_policy s d : let r := Panic s (Some d) in
  forall d', snd r = Some d' -> policy_view (record_keys R) d' = policy_view (record_keys R) d /\ db_snapshots d' = db_snapshots d.
Proof.
  unfold Panic. destruct (match ListOwned d with inl _ => _ | inr _ => _ end) as [owned [[failed firstErr] s1]]. destruct (FlushOwned s1) as [fe s2].
  cbn zeta. case_if; cbn [snd]; intros d' [= <-]; [done|]. unfold drop_records. generalize (list_to_set (rkeys (stillInstalled failed s2)) : gset string).
  intros keep. clear. revert d. induction owned as [|o owned IH]; intros d; cbn [fold_left]; [done|].
  destruct (IH (if bool_decide (RouteKey (mr_Route o) ∈ keep) then d else DelOwned o d)) as [E1 E2]. rewrite E1, E2. by case_if.
Qed.

Lemma panic_flush_kept actor flushing p : kept_view (snd (panic_flush rfc3339nano ErrorText actor flushing p)) = kept_view p.
Proof.
  unfold panic_flush. set (p1 := runRecord _ _).
  assert (kept_view p1 = kept_view p) as <-.
  { unfold p1, settleForPanic. rewrite runRecord_kept. apply (fold_left_kept (fun p id => settle rfc3339nano ErrorText id decCommit p)). intros q id. apply settle_kept. }
  clearbody p1. pose proof (Panic_policy (p_prov p1) (p_store p1)) as H. destruct (Panic _ _) as [[err s] st]. cbn [snd] in H. cbn.
  destruct st as [d'|]; [|done]. destruct (H d' eq_refl) as [E1 E2]. unfold kept_view. cbn [p_store set_settled set_panicking audit upd_store set_store].
  by rewrite <- E1, <- E2.
Qed.
End policy.

(** ** The profile table *)

Definition row_of (p : Profile) : profile_row := mkProfileRow (pf_ID p) (pf_Name p) (pf_Enabled p) (pf_Priority p) (Doc p).

(** Distinct ids and names: the table's constraints. *)
Definition distinct_ids (ps : list Profile) : Prop := NoDup (map pf_ID ps) /\ NoDup (map pf_Name ps).

(** The table holds exactly these profiles, each under its own columns. *)
Definition stored_as (d : DB) (ps : list Profile) : Prop := db_profiles d = map row_of ps /\ distinct_ids ps.

Definition put_profile (p : Profile) (ps : list Profile) : list Profile := upsert pf_ID p (fun _ => p) ps.

Definition clashes (p : Profile) (ps : list Profile) : bool := existsb (fun q => (pf_Name q =s? pf_Name p) && negb (pf_ID q =s? pf_ID p)) ps.

Lemma clashes_none p ps : clashes p ps = false <-> forall q, q ∈ ps -> pf_Name q = pf_Name p -> pf_ID q = pf_ID p.
Proof.
  unfold clashes. rewrite existsb_not_in. split; intros H q Hq.
  - specialize (H q Hq). intros En. rewrite En, String.eqb_refl in H. simpl in H. by bool_hyps.
  - destruct (String.eqb_spec (pf_Name q) (pf_Name p)) as [En|]; [|done]. by rewrite (H q Hq En), String.eqb_refl.
Qed.

Lemma upsert_rows p ps : upsert pw_id (row_of p) (fun _ => row_of p) (map row_of ps) = map row_of (put_profile p ps).
Proof. unfold put_profile. induction ps as [|q ps IH]; simpl; [done|]. destruct (bool_decide (pf_ID q = pf_ID p)); simpl; [done|]. by rewrite IH. Qed.

Lemma elem_of_put p ps x : NoDup (map pf_ID ps) -> x ∈ put_profile p ps <-> x = p \/ x ∈ ps /\ pf_ID x <> pf_ID p.
Proof.
  unfold put_profile. induction ps as [|q ps IH]; cbn [map upsert]; intros Hn; [set_solver|]. apply NoDup_cons in Hn as [Hq Hn].
  case_bool_decide as E; rewrite !elem_of_cons.
  - split; [|naive_solver]. intros [->|Hx]; [by left|]. right. split; [by right|]. intros Ex. apply Hq. rewrite E, <- Ex. by apply list_elem_of_fmap_2.
  - rewrite IH by done. naive_solver.
Qed.

Lemma NoDup_names ps : (forall x y, x ∈ ps -> y ∈ ps -> pf_Name x = pf_Name y -> pf_ID x = pf_ID y) -> NoDup (map pf_ID ps) -> NoDup (map pf_Name ps).
Proof.
  induction ps as [|q ps IH]; cbn [map]; intros Hi Hn; [constructor|]. apply NoDup_cons in Hn as [Hq Hn]. constructor.
  - intros (x & E & Hx)%list_elem_of_fmap. apply Hq. rewrite (Hi q x); [by apply list_elem_of_fmap_2|set_solver..|done].
  - apply IH; [|done]. intros x y Hx Hy. apply Hi; set_solver.
Qed.

Lemma distinct_eq ps x y : distinct_ids ps -> x ∈ ps -> y ∈ ps -> pf_ID x = pf_ID y \/ pf_Name x = pf_Name y -> x = y.
Proof. intros [H1 H2] Hx Hy [E|E]; [by eapply (NoDup_map_inj pf_ID ps)|by eapply (NoDup_map_inj pf_Name ps)]. Qed.

Lemma put_distinct p ps : distinct_ids ps -> clashes p ps = false -> distinct_ids (put_profile p ps).
Proof.
  intros Hd Hc. assert (NoDup (map pf_ID (put_profile p ps))) as Hi.
  { destruct Hd as [Hd _]. unfold put_profile. clear Hc. induction ps as [|q ps IH]; cbn [map upsert]; [apply NoDup_singleton|].
    apply NoDup_cons in Hd as [Hq Hn]. case_bool_decide as E; cbn [map]; [rewrite <- E; by constructor|].
    constructor; [|by apply IH]. intros (x & Ex & Hx)%list_elem_of_fmap. apply (elem_of_put p ps x Hn) in Hx as [->|[Hx _]]; [done|].
    apply Hq. rewrite Ex. by apply list_elem_of_fmap_2. }
  split; [done|]. apply NoDup_names; [|done]. rewrite clashes_none in Hc. intros x y.
  rewrite !(elem_of_put p ps) by apply Hd. intros [->|[Hx Ex]] [->|[Hy Ey]] E; [done| | |].
  - symmetry. by apply Hc.
  - by apply Hc.
  - f_equal. eapply distinct_eq; eauto.
Qed.

(** Storing a profile is [put_profile], and fails exactly when its name is another's. *)
Lemma UpsertProfile_stored p d ps : stored_as d ps ->
  if clashes p ps then fst (UpsertProfile p d) <> None /\ snd (UpsertProfile p d) = d
  else fst (UpsertProfile p d) = None /\ snd (UpsertProfile p d) = with_profiles d (map row_of (put_profile p ps)).
Proof.
  intros [Hp _]. unfold UpsertProfile. rewrite Hp.
  assert (existsb (fun r => (pw_name r =s? pf_Name p) && negb (pw_id r =s? pf_ID p)) (map row_of ps) = clashes p ps) as ->.
  { unfold clashes. clear Hp. induction ps as [|q ps IH]; simpl; [done|]. by rewrite IH. }
  destruct (clashes p ps); [done|]. cbn [fst snd]. fold (row_of p). by rewrite upsert_rows.
Qed.

Lemma DeleteProfile_stored name d ps : stored_as d ps ->
  DeleteProfile name d = with_profiles d (map row_of (keep_if (fun q => negb (pf_Name q =s? name)) ps)).
Proof.
  intros [Hp _]. unfold DeleteProfile, delete_where. rewrite Hp. do 2 f_equal. clear Hp.
  induction ps as [|q ps IH]; simpl; [done|]. destruct (pf_Name q =s? name); simpl; [done|]. by f_equal.
Qed.

Lemma distinct_sublist ps qs : qs `sublist_of` ps -> distinct_ids ps -> distinct_ids qs.
Proof. intros Hs [H1 H2]. split; [eapply sublist_NoDup; [exact H1|]|eapply sublist_NoDup; [exact H2|]]; by apply sublist_map. Qed.

Lemma stored_put p d ps : stored_as d ps -> clashes p ps = false -> stored_as (snd (UpsertProfile p d)) (put_profile p ps).
Proof. intros H Hc. pose proof (UpsertProfile_stored p d ps H) as E. rewrite Hc in E. destruct E as [_ ->]. split; [done|]. by apply put_distinct; [apply H|]. Qed.

Lemma stored_keep f d ps : stored_as d ps -> stored_as (with_profiles d (map row_of (keep_if f ps))) (keep_if f ps).
Proof. intros [_ H]. split; [done|]. eapply distinct_sublist; [|done]. apply keep_if_sublist. Qed.

Lemma decode_rows ps : decode_all (map pw_doc (map row_of ps)) = inr ps.
Proof. induction ps as [|q ps IH]; simpl; [done|]. unfold try. by rewrite IH. Qed.

Definition profile_less (a b : Profile) : bool := profile_row_less (row_of a) (row_of b).

Lemma ListProfiles_stored d ps : stored_as d ps -> ListProfiles d = inr (slice_stable profile_less ps).
Proof. intros [Hp _]. unfold ListProfiles. rewrite Hp. rewrite <- (slice_stable_map profile_row_less row_of ps). apply decode_rows. Qed.

(** ** Restoring a snapshot *)

Lemma keep_if_keep_if {A} (f g : A -> bool) l : keep_if f (keep_if g l) = keep_if (fun x => g x && f x) l.
Proof. unfold keep_if. induction l as [|x l IH]; simpl; [done|]. destruct (g x); simpl; [|done]. destruct (f x); [by f_equal|done]. Qed.

Lemma keep_if_ext {A} (f g : A -> bool) l : (forall x, x ∈ l -> f x = g x) -> keep_if f l = keep_if g l.
Proof. unfold keep_if. induction l as [|x l IH]; intros H; simpl; [done|]. rewrite (H x) by set_solver. rewrite IH by (intros; apply H; set_solver). done. Qed.

(** The removal, one profile after another. *)
Lemma restore_removes (inSnap : gset string) l : forall d ps, stored_as d ps ->
  fold_left (fun d p => if bool_decide (pf_ID p ∈ inSnap) then d else DeleteProfile (pf_Name p) d) l d =
  with_profiles d (map row_of (keep_if (fun x => negb (existsb (fun q => (pf_Name x =s? pf_Name q) && negb (bool_decide (pf_ID q ∈ inSnap))) l)) ps)).
Proof.
  induction l as [|q l IH]; intros d ps Hs; cbn [fold_left existsb].
  - rewrite keep_if_all by done. destruct Hs as [Hp _]. rewrite <- Hp. by destruct d.
  - destruct (bool_decide (pf_ID q ∈ inSnap)) eqn:E.
    + rewrite (IH d ps Hs). do 2 f_equal. apply keep_if_ext. intros x _. by rewrite andb_false_r.
    + rewrite (DeleteProfile_stored _ d ps Hs), (IH _ _ (stored_keep _ d ps Hs)), keep_if_keep_if.
      unfold with_profiles. cbn [db_settings db_profiles db_lists db_ownership db_snapshots db_audit db_pending db_now]. do 2 f_equal. apply keep_if_ext. intros x _. by rewrite andb_true_r, negb_orb.
Qed.

Lemma upsert_all_stored snap : forall d ps, stored_as d ps -> distinct_ids snap ->
  (forall p q, p ∈ snap -> q ∈ ps -> pf_Name q = pf_Name p -> pf_ID q = pf_ID p) ->
  exists qs, upsert_all snap d = with_profiles d (map row_of qs) /\ distinct_ids qs /\
    forall x, x ∈ qs <-> x ∈ snap \/ x ∈ ps /\ pf_ID x ∉ map pf_ID snap.
Proof.
  induction snap as [|p snap IH]; intros d ps Hs Hd Hc; cbn [upsert_all fold_left].
  - exists ps. destruct Hs as [Hp Hs]. split_and!; [by rewrite <- Hp; destruct d|done|]. set_solver.
  - destruct Hd as [Hi Hn]. cbn [map] in Hi, Hn. apply NoDup_cons in Hi as [Hpi Hi]. apply NoDup_cons in Hn as [Hpn Hn].
    assert (clashes p ps = false) as Hcl. { apply clashes_none. intros q Hq. apply Hc; set_solver. }
    pose proof (UpsertProfile_stored p d ps Hs) as E. rewrite Hcl in E. destruct E as [_ E].
    destruct (IH (snd (UpsertProfile p d)) (put_profile p ps)) as (qs & Eq & Hqs & Hm).
    + by apply stored_put.
    + done.
    + intros r q Hr Hq En. apply elem_of_put in Hq as [->|[Hq Hq']]; [|apply Hc; set_solver|apply Hs].
      exfalso. apply Hpn. rewrite En. by apply list_elem_of_fmap_2.
    + exists qs. split_and!; [|done|].
      * unfold upsert_all in Eq. by rewrite Eq, E.
      * intros x. rewrite Hm, (elem_of_put p ps x) by apply Hs. cbn [map]. rewrite !elem_of_cons. split.
        -- intros [Hx|[[->|[Hx Hx']] Hx'']]; [naive_solver|naive_solver|]. right. split; [done|]. by intros [?|?].
        -- intros [[->|Hx]|[Hx Hx']]; [right; split; [by left|done]|by left|]. right. split; [right|]; naive_solver.
Qed.

(** No profile that stays has a name the snapshot gives to another. *)
Definition no_swap (ps snap : list Profile) : Prop :=
  forall p q, p ∈ snap -> q ∈ ps -> pf_Name q = pf_Name p -> pf_ID q ∈ map pf_ID snap -> pf_ID q = pf_ID p.

Lemma restore_stored d ps snap : stored_as d ps -> distinct_ids snap -> no_swap ps snap ->
  exists qs, restore_profiles (or_nil (ListProfiles d)) snap d = with_profiles d (map row_of qs) /\ distinct_ids qs /\ qs ≡ₚ snap.
Proof.
  intros Hs Hd Hn. rewrite (ListProfiles_stored d ps Hs). cbn [or_nil]. unfold restore_profiles.
  rewrite (restore_removes _ _ d ps Hs).
  set (kept_ps := keep_if _ ps). destruct (upsert_all_stored snap (with_profiles d (map row_of kept_ps)) kept_ps) as (qs & Eq & Hqs & Hm).
  - by apply stored_keep.
  - done.
  - intros p q Hp [Hq Hg]%elem_of_keep_if En. apply Hn; [done..|]. bool_hyps. rewrite existsb_not_in in Hg.
    specialize (Hg q). rewrite elem_of_slice_stable, String.eqb_refl in Hg. specialize (Hg Hq). simpl in Hg. bool_hyps.
    by apply elem_of_list_to_set in Hg.
  - exists qs. split_and!; [exact Eq|done|]. apply NoDup_Permutation.
    + destruct Hqs as [H _]. by eapply NoDup_fmap_1.
    + destruct Hd as [H _]. by eapply NoDup_fmap_1.
    + intros x. rewrite Hm. split; [|by left]. intros [Hx|[[Hx Hg]%elem_of_keep_if Hx']]; [done|]. exfalso. bool_hyps.
      rewrite existsb_not_in in Hg. specialize (Hg x). rewrite elem_of_slice_stable, String.eqb_refl in Hg. specialize (Hg Hx). simpl in Hg. bool_hyps.
      by apply elem_of_list_to_set in Hg.
Qed.

(** One stored change never leads to a swap. *)
Lemma put_no_swap p ps : distinct_ids ps -> clashes p ps = false -> no_swap (put_profile p ps) ps.
Proof.
  intros Hd Hc x q Hx Hq En _. apply elem_of_put in Hq as [->|[Hq _]]; [|by f_equal; eapply distinct_eq; eauto|apply Hd].
  symmetry. rewrite clashes_none in Hc. by apply Hc.
Qed.

(** ** Requests *)

Section requests.
Context {S M D : Type} `{!RouteProvider S} `{!Manager M} `{!SplitManager D}.
Context (platform : string) (rfc3339nano : Z -> string) (ErrorText : error -> string) (ssh : string).
Context (fam_order : list Family) (range_map : gmap string string -> list (string * string)) (json : Json).
Context (ListTable : option (Family -> string -> S -> error + list Route)) (BuildErrorf : build_error -> error).
Context (env : environment) (tm : option timing) (onProfilesChanged : DB -> D -> D).
Implicit Types a : Api S M D.
Abbreviation apply_now := (applyProfiles (M := M) (D := D) platform rfc3339nano ErrorText ssh fam_order range_map json ListTable BuildErrorf env tm).
Abbreviation apply_then := (apply_then (M := M) (D := D) platform rfc3339nano ErrorText ssh fam_order range_map json ListTable BuildErrorf env tm).
Abbreviation profile_save := (handleProfileSave (M := M) platform rfc3339nano ErrorText ssh fam_order range_map json ListTable BuildErrorf env tm false onProfilesChanged).
Abbreviation profile_toggle := (handleProfileToggle (M := M) platform rfc3339nano ErrorText ssh fam_order range_map json ListTable BuildErrorf env tm false onProfilesChanged).
Abbreviation profile_delete := (handleProfileDelete (M := M) platform rfc3339nano ErrorText ssh fam_order range_map json ListTable BuildErrorf env tm false onProfilesChanged).
Abbreviation snapshot_restore := (handleSnapshotRestore (M := M) platform rfc3339nano ErrorText ssh fam_order range_map json ListTable BuildErrorf env tm false onProfilesChanged).
Abbreviation config_apply := (handleConfig (M := M) platform rfc3339nano ErrorText ssh fam_order range_map json ListTable BuildErrorf env tm false onProfilesChanged).
Abbreviation route_op := (handleRouteOp (M := M) (D := D) rfc3339nano ErrorText env tm false).

Abbreviation policy_now := (policy_view (record_keys commit_settings)).

(** What a handler's apply leaves: policy as it was. *)
Lemma apply_then_policy ended req snap k a ans a' : apply_then ended req snap k a = Some (Some (ans, a')) ->
  exists res err b, policy_now (store_of b) = policy_now (store_of a) /\ settles_to snap (a_proto a) (a_proto b) /\ (ans, a') = k res err b.
Proof.
  unfold ApiMutate.apply_then, applyProfiles. destruct (ApplyBuilt _ _ _ _ _ _ _ _ _) as [[[[res e] p]|]|] eqn:E; [|done|done]. cbn. intros [= H].
  assert (settles_to snap (a_proto a) p) as Hst; [|eexists res, _, (set_api_proto a p); split_and!; [apply Hst|exact Hst|by rewrite <- H]].
  refine (ApplyBuilt_settles _ _ _ _ _ _ _ _ _ _ _ E).
  intros q owned desired rules o'. unfold build_full. destruct (DesiredForApply _ _ _ _ _) as [[[|[rs ls]] gw] record]; [done|]. by intros [= _ _ <-].
Qed.

Lemma partly_answer resp res err a : fst (fst (partly (M := M) (D := D) ErrorText resp res err a)) = 200 /\ snd (partly ErrorText resp res err a) = a.
Proof. by destruct err. Qed.

Lemma stored_as_policy d d' ps : policy_now d' = policy_now d -> stored_as d ps -> stored_as d' ps.
Proof. intros [= _ Hp _] [H Hd]. split; [by rewrite Hp|done]. Qed.

(** The settings a request leaves alone: all but the two the records of applies
    are kept in. *)
Definition settings_kept (d d' : DB) : Prop :=
  forall k, k <> yieldedKey -> k <> profileRoutesKey -> GetSetting k d' = GetSetting k d.

Lemma policy_settings d d' : policy_now d' = policy_now d -> settings_kept d d'.
Proof.
  intros [= H _ _] k Hy Hr. apply (other_settings_get (record_keys commit_settings)); [done|]. cbn [record_keys commit_settings_record].
  rewrite !not_elem_of_cons. by split_and!; [..|apply not_elem_of_nil].
Qed.

(** restoring a snapshot is exact: with distinct ids and names, and no profile
    that stays holding a name the snapshot gives to another, the request
    succeeds and the stored profiles are those of the snapshot, no more and no
    less; the lists, and every setting but the two that record what applies put in
    place, are as they were, whatever comes of the apply. *)
Theorem restore_exact id yes ended a ans a' ps snap profiles :
  stored_as (store_of a) ps -> GetSnapshot id (store_of a) = inr snap -> sn_Profiles snap = Some profiles -> sn_Format snap <= SnapshotFormat ->
  distinct_ids profiles -> no_swap ps profiles ->
  snapshot_restore id yes ended a = Some (Some (ans, a')) ->
  fst ans = 200 /\ settings_kept (store_of a) (store_of a') /\ db_lists (store_of a') = db_lists (store_of a) /\
  exists qs, stored_as (store_of a') qs /\ qs ≡ₚ profiles.
Proof.
  intros Hs Hg Hp Hf Hd Hn. unfold handleSnapshotRestore, mutationEnabled, priorProfiles. rewrite Hg, Hp.
  rewrite (proj2 (Z.ltb_ge _ _)) by lia. intros (res & err & b & Hb & _ & E)%apply_then_policy.
  destruct (restore_stored _ _ _ Hs Hd Hn) as (qs & Eq & Hqs & Hperm). rewrite Eq in Hb.
  destruct (partly_answer empty_resp res err b) as [H1 H2]. rewrite <- E in H1, H2. cbn in H1, H2. subst a'.
  split_and!; [done|exact (policy_settings _ _ Hb)| |]; injection Hb as Hb1 Hb2 Hb3; [done|]. by exists qs.
Qed.

Lemma prior_perm a ps : stored_as (store_of a) ps -> priorProfiles a ≡ₚ ps.
Proof. intros H. unfold priorProfiles. rewrite (ListProfiles_stored _ _ H). apply slice_stable_perm. Qed.

(** The profile a save stores: trimmed, with an id. *)
Definition saved (p : Profile) (stamp : string) : Profile :=
  let p := trim_name p in if pf_ID p =s? "" then set_ID p ("gui:" +:+ pf_Name p +:+ "-" +:+ stamp) else p.

Lemma name_taken_clashes p l ps : l ≡ₚ ps -> name_taken p l = clashes p ps.
Proof.
  intros H. unfold name_taken. apply eq_true_iff_eq. unfold clashes. rewrite !existsb_in. by setoid_rewrite H.
Qed.

Lemma preview_same resp profiles a ans a' :
  preview platform fam_order range_map json ListTable BuildErrorf env resp profiles a = Some (Some (ans, a')) -> a' = a /\ (fst ans = 200 \/ fst ans = 400).
Proof.
  unfold preview, reply. destruct (DesiredFromProfiles _ _ _ _ _ _) as [[e|[desired rules]] gw]; [intros [= <- <-]; by split; [|right]|].
  destruct (Plan_preview _ _ _ _) as [[plan diff]|]; [|done]. intros [= <- <-]. by split; [|left].
Qed.

(** C24: saving a profile stores it or changes nothing: a request is refused (400)
    with the whole server as it was, or is a dry run and leaves it as it was, or
    succeeds (200) with the profile, trimmed and with an id, in the table beside
    every other one, its name no other profile's, its text valid, the lists
    untouched, and every setting too but the two in which applies record what they
    put in place (the apply of the request writes those). The store itself never
    refuses it. *)
Theorem profile_save_exact p stamp dry yes known ended a ans a' ps :
  stored_as (store_of a) ps -> profile_save (inr p) stamp dry yes known ended a = Some (Some (ans, a')) ->
  (a' = a /\ (fst ans = 400 \/ fst ans = 200 /\ isTrue dry = true)) \/
  (fst ans = 200 /\ isTrue dry = false /\
   HasErrors (ValidateProfile (trim_name p) (Platform (svc env a)) (Some (known_names a))) = false /\
   clashes (saved p stamp) ps = false /\ stored_as (store_of a') (put_profile (saved p stamp) ps) /\
   settings_kept (store_of a) (store_of a') /\ db_lists (store_of a') = db_lists (store_of a)).
Proof.
  intros Hs. unfold handleProfileSave, mutationEnabled, reply. destruct (HasErrors _) eqn:Ev; [intros [= <- <-]; left; by split; [|left]|].
  fold (saved p stamp). rewrite (name_taken_clashes _ _ ps) by apply (prior_perm a ps Hs). destruct (clashes _ ps) eqn:Ec; [intros [= <- <-]; left; by split; [|left]|].
  destruct (isTrue dry) eqn:Ed; [intros [-> Ha]%preview_same; left; split; [done|]; destruct Ha; [by right|by left]|].
  pose proof (UpsertProfile_stored (saved p stamp) _ _ Hs) as E. rewrite Ec in E. pose proof (stored_put (saved p stamp) _ _ Hs Ec) as Hst.
  destruct (UpsertProfile _ _) as [err d]. cbn [fst snd] in E, Hst. destruct E as [-> Ed']. intros (res & err & b & Hb & _ & Ek)%apply_then_policy.
  destruct (partly_answer (with_issues (ValidateProfile (trim_name p) (Platform (svc env a)) (Some (known_names a)) ++ tunnel_warning (trim_name p) known)) res err b) as [H1 H2].
  rewrite <- Ek in H1, H2. cbn [fst snd] in H1, H2. subst b. right. split_and!; [done..| | |].
  - by eapply stored_as_policy.
  - rewrite Ed' in Hb. exact (policy_settings _ _ Hb).
  - injection Hb as _ _ Hb. rewrite Hb, Ed'. done.
Qed.

Lemma or_bad_request_same res err a : snd (or_bad_request (M := M) (D := D) res err a) = a.
Proof. by destruct err. Qed.

(** What a change to one profile leaves of the table. *)
Inductive one_change (ps : list Profile) : list Profile -> Prop :=
| change_none : one_change ps ps
| change_put p : clashes p ps = false -> one_change ps (put_profile p ps)
| change_delete f : one_change ps (keep_if f ps).

(** A request that changes one profile. *)
Inductive profile_request a : api_answer -> Api S M D -> Prop :=
| request_save p stamp dry yes known ended ans a' :
    profile_save (inr p) stamp dry yes known ended a = Some (Some (ans, a')) -> profile_request a ans a'
| request_toggle enable name applyq ended ans a' :
    profile_toggle enable name applyq ended a = Some (Some (ans, a')) -> profile_request a ans a'
| request_delete name yes ended ans a' :
    profile_delete name yes ended a = Some (Some (ans, a')) -> profile_request a ans a'.

Lemma UpsertProfile_change p d ps : stored_as d ps -> exists qs, stored_as (snd (UpsertProfile p d)) qs /\ one_change ps qs.
Proof.
  intros Hs. pose proof (UpsertProfile_stored p d ps Hs) as E. destruct (clashes p ps) eqn:Ec.
  - destruct E as [_ ->]. exists ps. by split; [|constructor].
  - exists (put_profile p ps). split; [by apply stored_put|by constructor].
Qed.

Lemma profile_request_change a ans a' ps : stored_as (store_of a) ps -> profile_request a ans a' -> exists qs, stored_as (store_of a') qs /\ one_change ps qs.
Proof.
  intros Hs [p stamp dry yes known ended ans' b Hr|enable name applyq ended ans' b Hr|name yes ended ans' b Hr].
  - revert Hr. unfold handleProfileSave, mutationEnabled, reply. destruct (HasErrors _); [intros [= _ <-]; exists ps; by split; [|constructor]|].
    destruct (name_taken _ _); [intros [= _ <-]; exists ps; by split; [|constructor]|].
    destruct (isTrue dry); [intros [-> _]%preview_same; exists ps; by split; [|constructor]|].
    pose proof (UpsertProfile_change (saved p stamp) _ _ Hs) as (qs & Hq & Hc). fold (saved p stamp). destruct (UpsertProfile _ _) as [[e|] d]; cbn [snd] in Hq.
    + intros [= _ <-]. by exists qs.
    + intros (res & err & c & Hb & _ & Ek)%apply_then_policy. exists qs. split; [|done]. eapply stored_as_policy; [|exact Hq].
      by destruct err; injection Ek as _ ->.
  - revert Hr. unfold handleProfileToggle, mutationEnabled, reply.
    assert (exists qs, stored_as (snd (SetProfileEnabled name enable (store_of a))) qs /\ one_change ps qs) as (qs & Hq & Hc).
    { unfold SetProfileEnabled. destruct (GetProfile _ _); [exists ps; by split; [|constructor]|]. by apply UpsertProfile_change. }
    destruct (SetProfileEnabled _ _ _) as [[e|] d]; cbn [snd] in Hq; [intros [= _ <-]; by exists qs|]. case_if; [intros [= _ <-]; by exists qs|].
    intros (res & err & c & Hb & _ & Ek)%apply_then_policy. exists qs. split; [|done]. eapply stored_as_policy; [|exact Hq]. by destruct err; injection Ek as _ ->.
  - revert Hr. unfold handleProfileDelete, mutationEnabled. intros (res & err & c & Hb & _ & Ek)%apply_then_policy.
    exists (keep_if (fun q => negb (pf_Name q =s? name)) ps). split; [|constructor]. eapply stored_as_policy; [|by apply (stored_keep _ _ ps Hs)].
    rewrite <- (DeleteProfile_stored _ _ _ Hs). by destruct err; injection Ek as _ ->.
Qed.

Lemma one_change_no_swap ps qs : distinct_ids ps -> one_change ps qs -> no_swap qs ps.
Proof.
  intros Hd [|p Hc|f].
  - intros p q Hp Hq En _. f_equal. eapply distinct_eq; eauto.
  - by apply put_no_swap.
  - intros p q Hp [Hq _]%elem_of_keep_if En _. f_equal. eapply distinct_eq; eauto.
Qed.

Lemma distinct_perm ps qs : ps ≡ₚ qs -> distinct_ids qs -> distinct_ids ps.
Proof. intros H [H1 H2]. split; [by rewrite (Permutation_map pf_ID H)|by rewrite (Permutation_map pf_Name H)]. Qed.

(** C20: a change to a profile can be undone: whatever a save, a toggle or a delete
    answered, renames included, restoring a snapshot that holds the profiles of
    before it brings exactly those back. *)
Theorem restore_undoes a ans a1 ps id snap yes ended ans' a2 :
  stored_as (store_of a) ps -> profile_request a ans a1 ->
  GetSnapshot id (store_of a1) = inr snap -> sn_Profiles snap = Some (priorProfiles a) -> sn_Format snap <= SnapshotFormat ->
  snapshot_restore id yes ended a1 = Some (Some (ans', a2)) ->
  fst ans' = 200 /\ exists qs, stored_as (store_of a2) qs /\ qs ≡ₚ ps.
Proof.
  intros Hs Hr Hg Hp Hf. destruct (profile_request_change a ans a1 ps Hs Hr) as (qs & Hq & Hc).
  pose proof (prior_perm a ps Hs) as Hperm. assert (distinct_ids (priorProfiles a)) as Hd by (eapply distinct_perm; [done|apply Hs]).
  assert (no_swap qs (priorProfiles a)) as Hn.
  { intros p q Hx Hy En Hi. rewrite Hperm in Hx. eapply one_change_no_swap; [apply Hs|done|done|done|done|]. by rewrite <- (Permutation_map pf_ID Hperm). }
  unfold handleSnapshotRestore, mutationEnabled. rewrite Hg, Hp, (proj2 (Z.ltb_ge _ _)) by lia.
  intros (res & err & b & Hb & _ & E)%apply_then_policy. destruct (restore_stored _ _ _ Hq Hd Hn) as (rs & Eq & Hrs & Hperm'). change (or_nil (ListProfiles (store_of a1))) with (priorProfiles a1) in Eq. rewrite Eq in Hb.
  destruct (partly_answer empty_resp res err b) as [H1 H2]. rewrite <- E in H1, H2. cbn in H1, H2. subst b. split; [done|].
  exists rs. split; [by eapply stored_as_policy|by rewrite Hperm'].
Qed.

(** ** Probation *)

(** C21: a change through the API is never final at once: every request that applies
    profiles ends as failed or refused, as in sync with nothing to do, or with a
    transaction on probation, which awaits the user unless the request said yes;
    none commits a change. *)
Theorem api_changes_guarded ended req snap a res err a' :
  rq_DryRun req = false -> apply_now ended req snap a = Some (Some ((res, err), a')) ->
  rs_Status res = TxFailed \/
  (rs_Status res = TxCommitted /\ pl_Ops (rs_Plan res) = []) \/
  (rs_Status res = TxPending /\ rs_TxID res ∈ p_pending (a_proto a') /\ rs_NeedsConfirm res = negb (rq_Yes req)).
Proof.
  intros Hd. unfold applyProfiles. destruct (ApplyBuilt _ _ _ _ _ _ _ _ _) as [[[[res' e] p]|]|] eqn:E; [|done|done]. cbn. intros [= <- _ <-].
  cbn [a_proto set_api_proto]. revert E. unfold ApplyBuilt. cbn [o_Lendable set_snapshot buildOptions andb]. unfold with_lock.
  destruct (lockApply ended (a_proto a)); [|intros H; unfold failed in H; injection H as <- <- <-; by left|done]. intros [= E]. revert E. unfold applyBuilt, build_full.
  destruct (DesiredForApply _ _ _ _ _) as [[[be|[desired rules]] gw] record]; [intros H; unfold failed in H; injection H as <- <- <-; by left|].
  cbn [o_BuiltOnRecord set_commit UseGateway set_snapshot buildOptions]. rewrite andb_false_r. unfold apply.
  destruct (apply_plan _ _ _ _ _ _) as [[[plan diff] p1]|]; [|done]. cbn [mbind option_bind]. unfold apply_rest.
  cbn [o_DryRun o_VetChangesOnly o_PhysGW set_commit UseGateway set_snapshot buildOptions]. rewrite Hd. cbv iota.
  case_if; [intros H; unfold failed in H; injection H as <- <- <-; by left|]. destruct (bool_decide_reflect (pl_Ops plan = [])) as [Eo|Eo]; [intros H; injection H as <- <- <-; right; by left|].
  destruct (supersedePending _ _ p1) as [[se|] p2]; [intros H; unfold failed in H; injection H as <- <- <-; by left|].
  set (o := set_commit _ _). set (p3 := takeSnapshot _ _ _). unfold executePlan. destruct (begin_tx o true plan p3) as [id p4].
  destruct (Apply plan (p_prov p4)) as [[xe|] st]; [intros H; unfold failed in H; injection H as <- <- <-; by left|]. change (o_Unguarded o) with false. cbn [fst snd].
  intros H; injection H as <- <- <-. right. right. cbn [rs_Status rs_TxID rs_NeedsConfirm]. split_and!; [done|cbn; set_solver|]. unfold o. cbn. by rewrite Hd, andb_true_r.
Qed.

(** ** Single routes *)

Lemma sameDest_masked mr r pfx : ParsePrefix (rt_DstCIDR r) = Some pfx ->
  sameDest mr (with_destination r (prefix_String (Masked pfx))) = sameDest mr r.
Proof.
  intros E. unfold sameDest. cbn [rt_DstCIDR with_destination rt_Table]. destruct (ParsePrefix_ok _ _ E) as [Hok Hv]. rewrite E.
  assert (ParsePrefix (prefix_String (Masked pfx)) = Some (Masked pfx)) as Em.
  { apply ParsePrefix_String; [by apply Masked_ok|by rewrite Masked_valid_iff]. }
  rewrite Em. destruct (ParsePrefix (rt_DstCIDR mr)) as [pm|] eqn:Er; [by rewrite (Masked_masked pfx Hok)|].
  f_equal. transitivity false; [|symmetry]; apply String.eqb_neq; congruence.
Qed.

(** a single route that is RiftRoute's is not the user's to delete: with a
    readable ownership map, a request whose destination is that of a route on
    record, in its table, is refused however the destination is written and
    whatever gateway, interface and owner the request claims, and changes
    nothing. *)
Theorem routeop_spares_owned req yes ended a ans a' owned mr :
  ListOwned (store_of a) = inr owned -> mr ∈ owned -> sameDest (mr_Route mr) (ro_Route req) = true ->
  route_op (inr req) yes ended a = Some (Some (ans, a')) -> a' = a /\ (fst ans = 400 \/ fst ans = 409).
Proof.
  intros Ho Hm Hsd. unfold handleRouteOp, mutationEnabled, reply. case_if; [intros [= <- <-]; by split; [|left]|].
  destruct (ParsePrefix _) as [pfx|] eqn:Ep; [|intros [= <- <-]; by split; [|left]]. case_if; [intros [= <- <-]; by split; [|right]|].
  unfold owned_clash. rewrite Ho. destruct (List.find _ owned) as [x|] eqn:Ef; [intros [= <- <-]; by split; [|right]|].
  exfalso. apply list_elem_of_In in Hm. pose proof (List.find_none _ _ Ef mr Hm) as H. cbn beta in H. rewrite (sameDest_masked _ _ _ Ep) in H. congruence.
Qed.

(** ** Configuration files *)

Lemma config_answer parsed explicit encode yes ended a ans a' cfg issues :
  parsed = inr (Some cfg, issues) -> HasErrors issues = false ->
  config_apply parsed explicit encode "" yes ended a = Some (Some (ans, a')) ->
  fst ans = 200 /\ db_profiles (store_of a') = db_profiles (persist_config cfg (store_of a)) /\
  db_lists (store_of a') = db_lists (persist_config cfg (store_of a)).
Proof.
  intros -> He. unfold handleConfig, mutationEnabled. rewrite He. destruct (ToDomain cfg) as [profiles ls]. cbn [isTrue String.eqb orb].
  intros (res & err & b & Hb & _ & E)%apply_then_policy. injection Hb as _ Hb2 Hb3. destruct err as [e|]; cbn in E; [injection E as -> ->; done|].
  destruct (explicit || _); [|injection E as -> ->; done]. injection E as -> ->. split; [done|].
  unfold applySplitDNS. cbn [a_splitDNS set_api_store set_api_proto]. destruct (a_splitDNS b) as [m|]; [|done]. by destruct (if bool_decide _ then _ else _).
Qed.

Lemma SavePreferencesPatch_tables patch d : db_profiles (snd (SavePreferencesPatch patch d)) = db_profiles d /\
  db_lists (snd (SavePreferencesPatch patch d)) = db_lists d.
Proof. destruct patch as [[u|] [t|]]; unfold SavePreferencesPatch; cbn [pp_Updates pp_Telemetry]; repeat case_if; done. Qed.

Lemma upsert_lists_profiles ls : forall d, db_profiles (upsert_lists ls d) = db_profiles d.
Proof. induction ls as [|l ls IH]; intros d; [done|]. cbn. by rewrite IH. Qed.

Lemma upsert_all_lists ps : forall d, db_lists (upsert_all ps d) = db_lists d.
Proof. induction ps as [|p ps IH]; intros d; [done|]. cbn. fold (upsert_all ps). rewrite IH. unfold UpsertProfile. by case_if. Qed.

Lemma persist_tables cfg d : db_profiles (persist_config cfg d) = db_profiles (upsert_all (fst (ToDomain cfg)) d) /\
  db_lists (persist_config cfg d) = db_lists (upsert_lists (snd (ToDomain cfg)) (upsert_all (fst (ToDomain cfg)) d)).
Proof.
  unfold persist_config. destruct (ToDomain cfg) as [ps ls]. cbn [fst snd]. set (d1 := upsert_lists ls _).
  assert (db_profiles d1 = db_profiles (upsert_all ps d)) as <- by apply upsert_lists_profiles.
  case_if; [apply SavePreferencesPatch_tables|done].
Qed.

(** A profile of a file whose name a profile made elsewhere has is dropped, and
    the request reports success: the profile table is as it was, for a file whose
    every profile's name is taken. *)
Theorem config_clash_unreported parsed explicit encode yes ended a ans a' cfg issues ps :
  stored_as (store_of a) ps -> parsed = inr (Some cfg, issues) -> HasErrors issues = false ->
  (forall p, p ∈ fst (ToDomain cfg) -> clashes p ps = true) ->
  config_apply parsed explicit encode "" yes ended a = Some (Some (ans, a')) ->
  fst ans = 200 /\ db_profiles (store_of a') = db_profiles (store_of a).
Proof.
  intros Hs Hp He Hc Ha. destruct (config_answer _ _ _ _ _ _ _ _ _ _ Hp He Ha) as (H1 & H2 & _). split; [done|].
  rewrite H2, (proj1 (persist_tables _ _)). f_equal. clear H2 Ha. revert Hc. unfold upsert_all. generalize (fst (ToDomain cfg)). intros l Hc.
  induction l as [|p l IH]; cbn [fold_left]; [done|]. pose proof (UpsertProfile_stored p _ _ Hs) as E. rewrite (Hc p) in E by set_solver.
  destruct E as [_ ->]. apply IH. intros q Hq. apply Hc. set_solver.
Qed.

Lemma GetList_UpsertList name l d : GetList name (UpsertList l d) = if name =s? nl_Name l then inr l else GetList name d.
Proof.
  unfold GetList, UpsertList. cbn [db_lists with_lists]. set (row := mkListRow _ _).
  assert (List.find (fun r => lw_name r =s? name) (upsert lw_name row (fun _ => row) (db_lists d)) =
    if name =s? nl_Name l then Some row else List.find (fun r => lw_name r =s? name) (db_lists d)) as ->; [|by destruct (name =s? nl_Name l)].
  change (nl_Name l) with (lw_name row). clearbody row. rewrite (String.eqb_sym name). induction (db_lists d) as [|r rows IH]; simpl.
  - by destruct (lw_name row =s? name).
  - case_bool_decide as E; simpl; [rewrite E; by destruct (lw_name row =s? name)|]. rewrite IH.
    destruct (String.eqb_spec (lw_name r) name) as [<-|]; [|done]. by rewrite (proj2 (String.eqb_neq _ _)) by congruence.
Qed.

Lemma upsert_lists_other ls name : name ∉ map nl_Name ls -> forall d, GetList name (upsert_lists ls d) = GetList name d.
Proof.
  induction ls as [|x ls IH]; cbn [map]; intros Hn d; [done|]. rewrite not_elem_of_cons in Hn. cbn. fold (upsert_lists ls).
  rewrite IH, GetList_UpsertList by apply Hn. by rewrite (proj2 (String.eqb_neq _ _)) by apply Hn.
Qed.

Lemma upsert_lists_find ls : NoDup (map nl_Name ls) -> forall d l, l ∈ ls -> GetList (nl_Name l) (upsert_lists ls d) = inr l.
Proof.
  induction ls as [|x ls IH]; cbn [map]; intros Hn d l; [set_solver|]. apply NoDup_cons in Hn as [Hx Hn]. rewrite elem_of_cons. cbn. fold (upsert_lists ls).
  intros [->|Hl]; [|by apply IH]. by rewrite (upsert_lists_other ls _ Hx), GetList_UpsertList, String.eqb_refl.
Qed.

(** A remote list a file mentions loses what was fetched for it, and the apply of
    that same request runs without it: what is stored is the file's list alone.
    Editing the list itself keeps it. *)
Theorem config_drops_list_cache parsed explicit encode yes ended a ans a' cfg issues l :
  parsed = inr (Some cfg, issues) -> HasErrors issues = false -> NoDup (map lc_Name (fc_Lists cfg)) -> l ∈ fc_Lists cfg ->
  config_apply parsed explicit encode "" yes ended a = Some (Some (ans, a')) ->
  exists stored, GetList (lc_Name l) (store_of a') = inr stored /\ nl_Resolved stored = [] /\ nl_LastFetched stored = None.
Proof.
  intros Hp He Hn Hl Ha. destruct (config_answer _ _ _ _ _ _ _ _ _ _ Hp He Ha) as (_ & _ & H3). exists (list_of l). split; [|done].
  transitivity (GetList (lc_Name l) (upsert_lists (snd (ToDomain cfg)) (upsert_all (fst (ToDomain cfg)) (store_of a)))).
  { unfold GetList. by rewrite H3, (proj2 (persist_tables _ _)). }
  apply (upsert_lists_find (map list_of (fc_Lists cfg))) with (l := list_of l).
  - by rewrite map_map.
  - by apply list_elem_of_fmap_2.
Qed.

End requests.

(** ** Examples and witnesses *)

Definition ex_named (id name : string) : Profile :=
  mkProfile id name "" true ModeExclude "auto" 0 [mkRule RuleCIDR "203.0.113.0/24" ""] [] [] "".

Definition ex_stored (ps : list Profile) (d : DB) : DB := with_profiles d (map row_of ps).
Definition ex_snapshot (ps : list Profile) : Snapshot := mkSnapshot "snap-1" 0 "pre-apply" [] [] [] [] (mkDNSState [] [] "") (Some ps) false 1.
Definition ex_with_snapshot (ps : list Profile) (d : DB) : DB := SaveSnapshot ex_time (ex_snapshot ps) d.

Definition ex_api (d : DB) : Api Fake FakeKS (Composed FakeSplitDNS) :=
  mkApi (NewProtocol New d 0) (mkServer New None None false no_config 0 0) (Some (mkComposed (mkFakeSplitDNS []) [] [])) (Some false).

Definition ex_quiet_env : environment := mkEnv None None None None.
Definition ex_resync (d : DB) (c : Composed FakeSplitDNS) : Composed FakeSplitDNS := snd (Resync c).
Definition ex_build_error (e : build_error) : error := Errorf "build" [].

Definition ex_save (p : Profile) := handleProfileSave "fake" ex_time (fun _ => "") "" [FamilyV4; FamilyV6] map_to_list ex_json None ex_build_error ex_quiet_env None false ex_resync
  (M := FakeKS) (inr p) "1a" "" "1" None None.
Definition ex_restore := handleSnapshotRestore "fake" ex_time (fun _ => "") "" [FamilyV4; FamilyV6] map_to_list ex_json None ex_build_error ex_quiet_env None false ex_resync
  (M := FakeKS) "snap-1" "1" None.
Definition ex_config (cfg : FileConfig) := handleConfig "fake" ex_time (fun _ => "") "" [FamilyV4; FamilyV6] map_to_list ex_json None ex_build_error ex_quiet_env None false ex_resync
  (M := FakeKS) (inr (Some cfg, [])) false (fun _ => "") "" "1" None.
Definition ex_routeop (req : routeOpReq) := handleRouteOp ex_time (fun _ => "") ex_quiet_env None false (M := FakeKS) (D := Composed FakeSplitDNS) (inr req) "1" None.

(** The answer's status and the stored names under their ids. *)
Definition ex_outcome (r : option (option (api_answer * Api Fake FakeKS (Composed FakeSplitDNS)))) : option (Z * list (string * string)) :=
  match r with
  | Some (Some (ans, a)) => Some (fst ans, map (fun r => (pw_id r, pw_name r)) (db_profiles (store_of a)))
  | _ => None
  end.

(** A snapshot whose profiles were renamed into one another's names since is
    restored in part, and the request reports success. *)
Lemma restore_misses_renamed :
  ex_outcome (ex_restore (ex_api (ex_with_snapshot [ex_named "a" "Home"; ex_named "b" "Lab"]
                                    (ex_stored [ex_named "a" "Work"; ex_named "b" "Home"] ex_db)))) =
  Some (200, [("a", "Work"); ("b", "Lab")]).
Proof. by vm_compute. Qed.

(** A route that replaces an external one may take an owned route's destination:
    only the destination that goes is compared with the ownership map. *)
Lemma replace_takes_owned :
  let owned := mkRoute "203.0.113.0/24" "192.168.1.1" "en0" 0 FamilyV4 OwnerRiftRoute "" "" "work" false false false in
  let old := mkRoute "198.51.100.0/24" "192.168.1.1" "en0" 0 FamilyV4 OwnerSystem "" "" "" false false false in
  let taken := mkRoute "203.0.113.0/24" "192.168.1.9" "en0" 0 FamilyV4 OwnerSystem "" "" "" false false false in
  let a := ex_api (AddOwned ex_time (mkMR owned "work" 0) ex_db) in
  match ex_routeop (mkRouteOp "replace" old (Some taken)) a with
  | Some (Some ((200, BConfig c), _)) =>
      option_map (fun r => map (fun op => (op_Kind op, option_map (fun m => rt_DstCIDR (mr_Route m)) (op_Route op))) (pl_Ops (rs_Plan r))) (cr_Result c) =
      Some [(OpDelRoute, Some "198.51.100.0/24"); (OpAddRoute, Some "203.0.113.0/24")]
  | _ => False
  end.
Proof. by vm_compute. Qed.

(** A split-DNS selection cleared by request is applied again by the next change
    of a profile, though none is stored. *)
Definition ex_split (routes : list SplitDNSRoute) := handleSplitDNSSet (S := Fake) (M := FakeKS) (D := Composed FakeSplitDNS) false
  (fun l => match l with [] => "[]" | _ => "[...]" end) (inr routes).

Lemma cleared_split_returns :
  match ex_split [ex_corp] (ex_api ex_db) with
  | Some (Some (_, a1)) =>
      match ex_split [] a1 with
      | Some (Some (_, a2)) =>
          match ex_save (ex_named "w" "Work") a2 with
          | Some (Some (ans, a3)) =>
              GetSetting splitDNSKey (store_of a3) = Some "[]" /\
              option_map (fun c => fm_Applied (cm_inner c)) (a_splitDNS a2) = Some [] /\
              option_map (fun c => fm_Applied (cm_inner c)) (a_splitDNS a3) = Some [ex_corp]
          | _ => False
          end
      | _ => False
      end
  | _ => False
  end.
Proof. by vm_compute. Qed.

Lemma ex_distinct ps : bool_decide (NoDup (map pf_ID ps) /\ NoDup (map pf_Name ps)) = true -> distinct_ids ps.
Proof. intros H; by apply bool_decide_eq_true_1 in H. Qed.

Definition ex_pair : list Profile := [ex_named "a" "Work"; ex_named "b" "Home"].

Lemma restore_exact_witness :
  match ex_restore (ex_api (ex_with_snapshot [ex_named "a" "Office"] (ex_stored ex_pair ex_db))) with
  | Some (Some (ans, a')) => fst ans = 200 /\ exists qs, stored_as (store_of a') qs /\ qs ≡ₚ [ex_named "a" "Office"]
  | _ => False
  end.
Proof.
  destruct (ex_restore _) as [[[ans a']|]|] eqn:E; [|vm_compute in E; discriminate E..].
  pose proof (restore_exact "fake" ex_time (fun _ => "") "" [FamilyV4; FamilyV6] map_to_list ex_json None ex_build_error ex_quiet_env None ex_resync
    "snap-1" "1" None (ex_api (ex_with_snapshot [ex_named "a" "Office"] (ex_stored ex_pair ex_db))) ans a' ex_pair (ex_snapshot [ex_named "a" "Office"]) [ex_named "a" "Office"]
    ltac:(split; [reflexivity|apply ex_distinct; vm_compute; reflexivity]) ltac:(vm_compute; reflexivity) ltac:(reflexivity) ltac:(vm_compute; discriminate)
    ltac:(apply ex_distinct; vm_compute; reflexivity)
    ltac:(intros p q Hp%list_elem_of_singleton Hq; subst p; unfold ex_pair in Hq; rewrite !elem_of_cons, elem_of_nil in Hq;
          destruct Hq as [->|[->|[]]]; vm_compute; discriminate) E) as (H1 & _ & _ & H2).
  exact (conj H1 H2).
Defined.

Lemma profile_save_exact_witness :
  match ex_save (ex_named "" " Work ") (ex_api ex_db) with
  | Some (Some (ans, a')) => fst ans = 200 /\ stored_as (store_of a') [ex_named "gui:Work-1a" "Work"]
  | _ => False
  end.
Proof.
  destruct (ex_save _ _) as [[[ans a']|]|] eqn:E; [|vm_compute in E; discriminate E..].
  assert (option_map (option_map (fun o => fst (fst o))) (ex_save (ex_named "" " Work ") (ex_api ex_db)) = Some (Some 200)) as H by (vm_compute; reflexivity).
  rewrite E in H. injection H as H.
  destruct (profile_save_exact "fake" ex_time (fun _ => "") "" [FamilyV4; FamilyV6] map_to_list ex_json None ex_build_error ex_quiet_env None ex_resync
    (ex_named "" " Work ") "1a" "" "1" None None (ex_api ex_db) ans a' [] ltac:(split; [reflexivity|apply ex_distinct; reflexivity]) E)
    as [(_ & [H'|[_ H']])|(H1 & _ & _ & _ & H2 & _)]; [rewrite H in H'; discriminate H'|discriminate H'|].
  exact (conj H1 H2).
Defined.

Lemma restore_undoes_witness :
  match ex_save (ex_named "a" "Renamed") (ex_api (ex_with_snapshot (reverse ex_pair) (ex_stored ex_pair ex_db))) with
  | Some (Some (_, a1)) =>
      match ex_restore a1 with
      | Some (Some (ans, a2)) => fst ans = 200 /\ exists qs, stored_as (store_of a2) qs /\ qs ≡ₚ ex_pair
      | _ => False
      end
  | _ => False
  end.
Proof.
  destruct (ex_save (ex_named "a" "Renamed") (ex_api (ex_with_snapshot (reverse ex_pair) (ex_stored ex_pair ex_db)))) as [[[ans1 a1]|]|] eqn:E1; [|vm_compute in E1; discriminate E1..].
  assert (GetSnapshot "snap-1" (store_of a1) = inr (ex_snapshot (reverse ex_pair))) as Hg.
  { transitivity (match ex_save (ex_named "a" "Renamed") (ex_api (ex_with_snapshot (reverse ex_pair) (ex_stored ex_pair ex_db))) with
                  | Some (Some (_, x)) => GetSnapshot "snap-1" (store_of x) | _ => inl ErrNotFound end); [by rewrite E1|vm_compute; reflexivity]. }
  destruct (ex_restore a1) as [[[ans2 a2]|]|] eqn:E2.
  - exact (restore_undoes "fake" ex_time (fun _ => "") "" [FamilyV4; FamilyV6] map_to_list ex_json None ex_build_error ex_quiet_env None ex_resync
      (ex_api (ex_with_snapshot (reverse ex_pair) (ex_stored ex_pair ex_db))) ans1 a1 ex_pair "snap-1" (ex_snapshot (reverse ex_pair)) "1" None ans2 a2
      ltac:(split; [reflexivity|apply ex_distinct; vm_compute; reflexivity])
      (request_save "fake" ex_time (fun _ => "") "" [FamilyV4; FamilyV6] map_to_list ex_json None ex_build_error ex_quiet_env None ex_resync _
         (ex_named "a" "Renamed") "1a" "" "1" None None _ _ E1) Hg ltac:(vm_compute; reflexivity) ltac:(vm_compute; discriminate) E2).
  - exfalso. assert (match ex_save (ex_named "a" "Renamed") (ex_api (ex_with_snapshot (reverse ex_pair) (ex_stored ex_pair ex_db))) with
      | Some (Some (_, x)) => match ex_restore x with Some None => True | _ => False end | _ => False end) as H by (by rewrite E1, E2). vm_compute in H. exact H.
  - exfalso. assert (match ex_save (ex_named "a" "Renamed") (ex_api (ex_with_snapshot (reverse ex_pair) (ex_stored ex_pair ex_db))) with
      | Some (Some (_, x)) => match ex_restore x with None => True | _ => False end | _ => False end) as H by (by rewrite E1, E2). vm_compute in H. exact H.
Defined.

Lemma api_changes_guarded_witness :
  match applyProfiles "fake" ex_time (fun _ => "") "" [FamilyV4; FamilyV6] map_to_list ex_json None ex_build_error ex_quiet_env None None (mkApplyReq false false 0) None
          (ex_api (ex_stored ex_pair ex_db)) with
  | Some (Some ((res, _), a')) => rs_Status res = TxPending /\ rs_TxID res ∈ p_pending (a_proto a') /\ rs_NeedsConfirm res = true
  | _ => False
  end.
Proof.
  destruct (applyProfiles _ _ _ _ _ _ _ _ _ _ _ _ _ _ _) as [[[[res err] a']|]|] eqn:E; [|vm_compute in E; discriminate E..].
  assert (option_map (option_map (fun o => rs_Status (fst (fst o)))) (Some (Some ((res, err), a'))) = Some (Some TxPending)) as H.
  { rewrite <- E. vm_compute. reflexivity. }
  injection H as H.
  destruct (api_changes_guarded "fake" ex_time (fun _ => "") "" [FamilyV4; FamilyV6] map_to_list ex_json None ex_build_error ex_quiet_env None
    None (mkApplyReq false false 0) None _ res err a' eq_refl E) as [H'|[[H' _]|H']]; [rewrite H in H'; discriminate H'|rewrite H in H'; discriminate H'|exact H'].
Defined.

Lemma routeop_spares_owned_witness :
  let owned := mkRoute "203.0.113.0/24" "192.168.1.1" "en0" 0 FamilyV4 OwnerRiftRoute "" "" "work" false false false in
  let asked := mkRoute "203.0.113.77/24" "10.9.9.9" "utun9" 0 FamilyV4 OwnerSystem "" "" "" false false false in
  let a := ex_api (AddOwned ex_time (mkMR owned "work" 0) ex_db) in
  match ex_routeop (mkRouteOp "delete" asked None) a with
  | Some (Some (ans, a')) => a' = a /\ (fst ans = 400 \/ fst ans = 409)
  | _ => False
  end.
Proof.
  intros owned asked a. destruct (ex_routeop (mkRouteOp "delete" asked None) a) as [[[ans a']|]|] eqn:E; [|vm_compute in E; discriminate E..].
  exact (routeop_spares_owned ex_time (fun _ => "") ex_quiet_env None (mkRouteOp "delete" asked None) "1" None a ans a' [mkMR owned "work" 0] (mkMR owned "work" 0)
    ltac:(vm_compute; reflexivity) ltac:(constructor) ltac:(vm_compute; reflexivity) E).
Defined.

(** The file's profile "Work" beside one of that name made in the app. *)
Definition ex_file (ps : list ProfileConfig) : FileConfig :=
  mkFileConfig 1 (mkSettings [] "" false false (mkGuard false [] "" "") [] "" "") ps [].

Lemma config_clash_unreported_witness :
  let cfg := ex_file [profile_config (ex_named "" "Work")] in
  match ex_config cfg (ex_api (ex_stored ex_pair ex_db)) with
  | Some (Some (ans, a')) => fst ans = 200 /\ db_profiles (store_of a') = map row_of ex_pair
  | _ => False
  end.
Proof.
  intros cfg. destruct (ex_config cfg _) as [[[ans a']|]|] eqn:E; [|vm_compute in E; discriminate E..].
  exact (config_clash_unreported "fake" ex_time (fun _ => "") "" [FamilyV4; FamilyV6] map_to_list ex_json None ex_build_error ex_quiet_env None ex_resync
    (inr (Some cfg, [])) false (fun _ => "") "1" None (ex_api (ex_stored ex_pair ex_db)) ans a' cfg [] ex_pair
    ltac:(split; [reflexivity|apply ex_distinct; vm_compute; reflexivity]) eq_refl eq_refl
    ltac:(intros p Hp; change (p ∈ [profile_of (profile_config (ex_named "" "Work"))]) in Hp; apply list_elem_of_singleton in Hp; subst p; vm_compute; reflexivity) E).
Defined.
