(* ===== verification/ApiPolicy.v ===== *)
(** * Policy under every request (theorems on ApiMutate)

    Whatever requests a daemon gets, in whatever order and however each ends, the
    profile table keeps distinct ids and names, every stored profile and every
    profile of a snapshot is one the checks accepted, and so a desired set can
    only fail to build for a reason of the host. *)

From S2P Require Import Prelude.
From S2P Require Import Netip NetipText Domain Reconcile Input Engine Provider FakeProvider Killswitch Update Config ConfigFacts Splitdns.
From S2P Require Import Executor Recovery Watchdog LiveRepair Store ApplyParts Protocol ProtocolFacts Service KillswitchApi ServiceReads Reconciler ApiMutate ApiFacts.

(** ** What a file's checks say of the profile it is read into *)

Lemma TrimLeft_head s : TrimLeft s = "" \/ exists c t, TrimLeft s = String c t /\ is_space c = false.
Proof. induction s as [|c s IH]; [by left|]. cbn. destruct (is_space c) eqn:E; [done|]. right. by exists c, s. Qed.

Lemma TrimRight_keeps c t : is_space c = false -> exists t', TrimRight (String c t) = String c t'.
Proof. intros H. cbn. destruct (TrimRight t) as [|x y]; [rewrite H; by exists ""|by exists (String x y)]. Qed.

Lemma TrimSpace_nonblank s c t : TrimSpace s = String c t -> TrimSpace (String c t) <> "".
Proof.
  unfold TrimSpace. destruct (TrimLeft_head s) as [->|(x & y & -> & Hx)]; [done|]. destruct (TrimRight_keeps x y Hx) as [t' ->].
  intros [= <- <-]. cbn. rewrite Hx. destruct (TrimRight_keeps x t' Hx) as [t'' ->]. done.
Qed.

Lemma TrimSpace_blank_twice s : (TrimSpace (TrimSpace s) =s? "") = (TrimSpace s =s? "").
Proof.
  destruct (TrimSpace s) as [|c t] eqn:E; [done|]. cbn [String.eqb]. apply String.eqb_neq. by eapply TrimSpace_nonblank.
Qed.

(** ** A profile the checks accept, its lists aside *)

Definition good (platform : string) (p : Profile) : Prop := profile_accepted p platform None.

Lemma good_iff platform p : good platform p <->
  TrimSpace (pf_Name p) <> "" /\ HasPrefix (pf_ID p) TunnelProfilePrefix = false /\
  body_bad platform (mode_or (pf_Mode p)) (pf_Tunnel p) (pf_Gateway p) (map (fun r => (r_Type r, r_Value r)) (pf_Rules p)) = false.
Proof.
  unfold good, profile_accepted, ValidateProfile. rewrite HasErrors_unlined, errs_single. rewrite !orb_false_iff, String.eqb_neq.
  assert (existsb (fun _ : string => false) (pf_Lists p) = false) as ->; [|tauto]. induction (pf_Lists p); done.
Qed.

Lemma accepted_good platform p k : profile_accepted p platform k -> good platform p.
Proof.
  intros H. apply good_iff. unfold profile_accepted, ValidateProfile in H. rewrite HasErrors_unlined, errs_single in H.
  rewrite !orb_false_iff, String.eqb_neq in H. tauto.
Qed.

Lemma good_enabled platform p b : good platform p -> good platform (set_enabled p b).
Proof. rewrite !good_iff. done. Qed.

Lemma good_set_ID platform p id : good platform p -> HasPrefix id TunnelProfilePrefix = false -> good platform (set_ID p id).
Proof. rewrite !good_iff. by intros (? & _ & ?). Qed.

Lemma tunnel_bad_trim mode t types : tunnel_bad mode (TrimSpace t) types = tunnel_bad mode t types.
Proof. unfold tunnel_bad. by rewrite TrimSpace_blank_twice. Qed.

Lemma gateway_bad_default g : gateway_bad g = false -> gateway_bad (orDefault g "auto") = false.
Proof. intros H. rewrite orDefault_nonblank by (by apply gateway_ok_nonblank). destruct (String.eqb_spec g "") as [->|]; done. Qed.

Lemma file_profile_good platform base known pc :
  TrimSpace (pc_Name pc) <> "" -> errs (file_profile platform base known pc) = false -> good platform (profile_of pc).
Proof.
  intros Hn. rewrite errs_file. intros [H _]%orb_false_elim. apply good_iff. cbn [profile_of pf_Name pf_ID pf_Mode pf_Tunnel pf_Gateway pf_Rules].
  split_and!; [done|done|]. rewrite map_map. cbn [rule_of r_Type r_Value]. unfold body_bad in *. rewrite tunnel_bad_trim.
  rewrite !orb_false_iff in H. destruct H as (((((Hm & Ht) & Hu) & Ha) & Hg) & Hr).
  assert (mode_or (orDefault (pc_Mode pc) ModeExclude) = mode_or (pc_Mode pc)) as ->.
  { rewrite orDefault_nonblank by (by apply mode_ok_nonblank). unfold mode_or. destruct (String.eqb_spec (pc_Mode pc) "") as [Eb|Hne]; [done|].
    by rewrite (proj2 (String.eqb_neq _ _) Hne). }
  by rewrite Hm, Ht, Hu, Ha, (gateway_bad_default _ Hg), Hr.
Qed.

Lemma check_profiles_good platform known ps : forall i seen, errs (check_profiles platform known i seen ps) = false -> Forall (good platform) (map profile_of ps).
Proof.
  induction ps as [|pc ps IH]; intros i seen; cbn [check_profiles map]; [constructor|]. rewrite errs_app, orb_false_iff. intros [H Hr].
  constructor; [|by eapply IH]. unfold check_profile in H. rewrite errs_app, orb_false_iff in H. destruct H as [H1 H2].
  eapply file_profile_good; [|exact H2]. destruct (String.eqb_spec (TrimSpace (pc_Name pc)) "") as [E|]; [|done]. by rewrite errs_err_if in H1.
Qed.

Lemma parsed_good url_scheme ParseDuration toml yaml decode data format platform cfg issues :
  ParseBytes url_scheme ParseDuration toml yaml decode data format platform = (Some cfg, issues) -> HasErrors issues = false ->
  Forall (good platform) (fst (ToDomain cfg)).
Proof.
  assert (forall lines, HasErrors (validate url_scheme ParseDuration cfg lines platform) = false -> Forall (good platform) (fst (ToDomain cfg))) as H.
  { intros lines. rewrite HasErrors_validate. unfold validate_diags. rewrite !errs_app, !orb_false_iff. intros (_ & _ & _ & H). by eapply check_profiles_good. }
  unfold ParseBytes. destruct format.
  - destruct (yaml data) as [[e line]|root]; [done|]. destruct (decode root) as [[e line]|c]; [done|]. intros [= -> <-]. apply H.
  - destruct (toml data) as [e|c]; [done|]. intros [= -> <-]. apply H.
Qed.

(** ** Every request *)

Section requests.
Context {S M D : Type} `{!RouteProvider S} `{!Manager M} `{!SplitManager D}.
Context (platform : string) (rfc3339nano : Z -> string) (ErrorText : error -> string) (ssh : string).
Context (fam_order : list Family) (range_map : gmap string string -> list (string * string)) (json : Json).
Context (ListTable : option (Family -> string -> S -> error + list Route)) (BuildErrorf : build_error -> error).
Context (env : environment) (tm : option timing) (onProfilesChanged : DB -> D -> D).
Context (beforePanic : Protocol S commit_settings -> Protocol S commit_settings) (onPanic : D -> D).
Context (url_scheme : string -> option string) (ParseDuration : string -> option Z).
Context (toml : string -> error + FileConfig) (yaml : string -> error * Z + YNode) (decode : YNode -> error * Z + FileConfig).
Implicit Types a : Api S M D.

(** A request, as the handler it reaches with its arguments. *)
Inductive request : (Api S M D -> handled (S := S) (M := M) (D := D)) -> Prop :=
| rq_apply ended req : request (handleApply platform rfc3339nano ErrorText ssh fam_order range_map json ListTable BuildErrorf env tm false ended req)
| rq_plan : request (handlePlan platform fam_order range_map json ListTable BuildErrorf env false)
| rq_confirm req : request (handleConfirm rfc3339nano ErrorText false req)
| rq_rollback req : request (handleRollback rfc3339nano ErrorText false req)
| rq_panic_begin : request (fun a => let '(_, a') := handlePanic_begin beforePanic a in reply 200 BPanicked a')
| rq_panic_flush ksErr : request (handlePanic_flush rfc3339nano ErrorText json onPanic ksErr)
| rq_toggle enable name applyq ended : request (handleProfileToggle platform rfc3339nano ErrorText ssh fam_order range_map json ListTable BuildErrorf env tm false onProfilesChanged enable name applyq ended)
| rq_save body stamp dry yes known ended : request (handleProfileSave platform rfc3339nano ErrorText ssh fam_order range_map json ListTable BuildErrorf env tm false onProfilesChanged body stamp dry yes known ended)
| rq_delete name yes ended : request (handleProfileDelete platform rfc3339nano ErrorText ssh fam_order range_map json ListTable BuildErrorf env tm false onProfilesChanged name yes ended)
| rq_routeop body yes ended : request (handleRouteOp rfc3339nano ErrorText env tm false body yes ended)
| rq_config_unread e explicit encode dry yes ended : request (handleConfig platform rfc3339nano ErrorText ssh fam_order range_map json ListTable BuildErrorf env tm false onProfilesChanged (inl e) explicit encode dry yes ended)
| rq_config data format explicit encode dry yes ended : request (handleConfig platform rfc3339nano ErrorText ssh fam_order range_map json ListTable BuildErrorf env tm false onProfilesChanged
    (inr (ParseBytes url_scheme ParseDuration toml yaml decode data format platform)) explicit encode dry yes ended)
| rq_list_refresh fetch name : request (handleListRefresh env false fetch name)
| rq_list_refresh_all fetch : request (handleListRefreshAll env false fetch)
| rq_list_save fetch body : request (handleListSave env false url_scheme ParseDuration fetch body)
| rq_list_delete name : request (handleListDelete false name)
| rq_split_set encode body : request (handleSplitDNSSet false encode body)
| rq_auto_apply body : request (handleAutoApply body)
| rq_preferences body : request (handlePreferencesSet body)
| rq_restore id yes ended : request (handleSnapshotRestore platform rfc3339nano ErrorText ssh fam_order range_map json ListTable BuildErrorf env tm false onProfilesChanged id yes ended).

(** One request answered, or the daemon changing what is not policy on its own. *)
Inductive api_step : Api S M D -> Api S M D -> Prop :=
| step_request h a ans a' : request h -> h a = Some (Some (ans, a')) -> api_step a a'
| step_other a a' : db_profiles (store_of a') = db_profiles (store_of a) -> db_snapshots (store_of a') = db_snapshots (store_of a) -> api_step a a'.

Definition table_ok (d : DB) : Prop := exists ps, stored_as d ps /\ Forall (good platform) ps.

Definition policy_ok a : Prop := table_ok (store_of a) /\ snapshots_all (good platform) (store_of a).

Lemma table_ok_profiles d d' : db_profiles d' = db_profiles d -> table_ok d -> table_ok d'.
Proof. intros E (ps & [Hp Hd] & Hg). exists ps. split; [|done]. split; [by rewrite E|done]. Qed.

Lemma ok_same a a' : db_profiles (store_of a') = db_profiles (store_of a) -> db_snapshots (store_of a') = db_snapshots (store_of a) -> policy_ok a -> policy_ok a'.
Proof. intros E1 E2 [Ht Hs]. split; [by eapply table_ok_profiles|]. unfold snapshots_all. by rewrite E2. Qed.

Lemma prior_good a : table_ok (store_of a) -> Forall (good platform) (priorProfiles a).
Proof. intros (ps & Hs & Hg). by rewrite (prior_perm a ps Hs). Qed.

Lemma ok_settles snap a a' : policy_ok a -> settles_to snap (a_proto a) (a_proto a') -> (forall l, snap = Some l -> Forall (good platform) l) -> policy_ok a'.
Proof.
  intros [Ht Hs] [Hp Hg] Hsnap. injection Hp as _ Hp _. split; [by eapply table_ok_profiles|]. apply Hg; [|done|done].
  intros l Hl. change (p_store (a_proto a)) with (store_of a) in Hl. pose proof (prior_good a Ht) as H. unfold priorProfiles in H. by rewrite Hl in H.
Qed.

Lemma put_good p ps : distinct_ids ps -> Forall (good platform) ps -> good platform p -> Forall (good platform) (put_profile p ps).
Proof. intros [Hd _] H Hp. rewrite Forall_forall in *. intros x [->|[Hx _]]%elem_of_put; [done|by apply H|done]. Qed.

Lemma UpsertProfile_ok p d : good platform p -> table_ok d -> table_ok (snd (UpsertProfile p d)).
Proof.
  intros Hp (ps & Hs & Hg). pose proof (UpsertProfile_stored p d ps Hs) as E. destruct (clashes p ps) eqn:Ec.
  - destruct E as [_ ->]. by exists ps.
  - exists (put_profile p ps). split; [by apply stored_put|]. by apply put_good; [apply Hs|..].
Qed.

Lemma UpsertProfile_snapshots p d : db_snapshots (snd (UpsertProfile p d)) = db_snapshots d.
Proof. unfold UpsertProfile. by case_if. Qed.

Lemma upsert_all_ok ps : forall d, Forall (good platform) ps -> table_ok d -> table_ok (upsert_all ps d) /\ db_snapshots (upsert_all ps d) = db_snapshots d.
Proof.
  induction ps as [|p ps IH]; intros d H Hd; [done|]. apply Forall_cons in H as [Hp Hps]. change (upsert_all (p :: ps) d) with (upsert_all ps (snd (UpsertProfile p d))).
  destruct (IH (snd (UpsertProfile p d)) Hps (UpsertProfile_ok p d Hp Hd)) as [H1 H2]. by rewrite H2, UpsertProfile_snapshots.
Qed.

Lemma DeleteProfile_ok name d : table_ok d -> table_ok (DeleteProfile name d).
Proof.
  intros (ps & Hs & Hg). eexists. rewrite (DeleteProfile_stored name d ps Hs). split; [by apply stored_keep|].
  rewrite Forall_forall in *. intros x [Hx _]%elem_of_keep_if. by apply Hg.
Qed.

Lemma restore_ok prior snap d : Forall (good platform) snap -> table_ok d ->
  table_ok (restore_profiles prior snap d) /\ db_snapshots (restore_profiles prior snap d) = db_snapshots d.
Proof.
  intros Hs Hd. unfold restore_profiles. set (f := fold_left _ prior d).
  assert (table_ok f /\ db_snapshots f = db_snapshots d) as [Hf Ef].
  { unfold f. clear f Hs. revert d Hd. induction prior as [|p prior IH]; intros d Hd; cbn [fold_left]; [done|].
    case_if; [by apply IH|]. destruct (IH _ (DeleteProfile_ok (pf_Name p) d Hd)) as [H1 H2]. by rewrite H2. }
  destruct (upsert_all_ok snap f Hs Hf) as [H1 H2]. by rewrite H2.
Qed.

(** Handlers that apply once the store is changed. *)
Lemma applied_ok ended req snap k a ans a' :
  apply_then platform rfc3339nano ErrorText ssh fam_order range_map json ListTable BuildErrorf env tm ended req snap k a = Some (Some (ans, a')) ->
  policy_ok a -> (forall l, snap = Some l -> Forall (good platform) l) -> (forall res err b, db_profiles (store_of (snd (k res err b))) = db_profiles (store_of b) /\
    db_snapshots (store_of (snd (k res err b))) = db_snapshots (store_of b)) -> policy_ok a'.
Proof.
  intros (res & err & b & _ & Hs & E)%apply_then_policy Ha Hsn Hk. destruct (Hk res err b) as [E1 E2]. rewrite <- E in E1, E2. cbn [snd] in E1, E2.
  eapply ok_same; [exact E1|exact E2|]. by eapply ok_settles.
Qed.

Lemma saved_good p stamp k : profile_accepted (trim_name p) platform k -> good platform (saved p stamp).
Proof.
  intros H%accepted_good. unfold saved. case_if; [|done]. by apply good_set_ID.
Qed.

Lemma on_service_tables {X} (f : Service S -> X * Service S) a :
  (forall s d, sv_store s = Some d -> exists d', sv_store (snd (f s)) = Some d' /\ db_profiles d' = db_profiles d /\ db_snapshots d' = db_snapshots d) ->
  db_profiles (store_of (snd (on_service env f a))) = db_profiles (store_of a) /\ db_snapshots (store_of (snd (on_service env f a))) = db_snapshots (store_of a).
Proof.
  intros Hf. unfold on_service. set (s := mkService _ _ _ _ _ _ _ _). destruct (Hf s (store_of a) eq_refl) as (d' & E & E1 & E2).
  destruct (f s) as [x s']. cbn [snd] in *. rewrite E. by cbn.
Qed.

Lemma RefreshList_tables fetch name (s : Service S) d : sv_store s = Some d ->
  exists d', sv_store (snd (RefreshList fetch name s)) = Some d' /\ db_profiles d' = db_profiles d /\ db_snapshots d' = db_snapshots d.
Proof.
  intros E. unfold RefreshList. rewrite E. destruct (GetList name d) as [|l]; [by exists d|]. case_if; [by exists d|].
  destruct (fetch _) as [|[entries sum]]; [by exists d|]. eexists. by split; [|split].
Qed.

Lemma RefreshAll_tables fetch (s : Service S) d : sv_store s = Some d ->
  exists d', sv_store (snd (RefreshAllLists fetch s)) = Some d' /\ db_profiles d' = db_profiles d /\ db_snapshots d' = db_snapshots d.
Proof.
  intros E. unfold RefreshAllLists. rewrite E. destruct (ListLists d) as [|ls]; [by exists d|].
  set (f := fun acc l => _). assert (forall ls acc d, sv_store (snd acc) = Some d ->
    exists d', sv_store (snd (fold_left f ls acc)) = Some d' /\ db_profiles d' = db_profiles d /\ db_snapshots d' = db_snapshots d) as H.
  { clear. induction ls as [|l ls IH]; intros acc d E; cbn [fold_left]; [by exists d|].
    assert (exists d1, sv_store (snd (f acc l)) = Some d1 /\ db_profiles d1 = db_profiles d /\ db_snapshots d1 = db_snapshots d) as (d1 & E1 & Ep & Es).
    { unfold f. case_if; [by exists d|]. destruct (RefreshList_tables fetch (nl_Name l) (snd acc) d E) as (d1 & E1 & Ht).
      exists d1. by destruct (RefreshList fetch (nl_Name l) acc.2) as [[|] s']. }
    destruct (IH _ d1 E1) as (d2 & E2 & Ep2 & Es2). exists d2. by rewrite Ep2, Es2. }
  destruct (H ls (0, s) d E) as (d' & E' & Ht). exists d'. by destruct (fold_left f ls (0, s)) as [n s'].
Qed.

(** What is assumed of the host: its platform does not change, and taking the
    tunnels down before a panic stores no policy. *)
Context (Hplatform : forall s : S, cap_Platform (GetCapabilities s) = platform).
Context (Hbefore : forall p, kept_view (beforePanic p) = kept_view p).

Lemma kept_ok a a' : kept_view (a_proto a') = kept_view (a_proto a) -> policy_ok a -> policy_ok a'.
Proof. intros [= _ H1 _ H2]. by apply ok_same. Qed.

Lemma stored_then_applied ended req k a d ans a' :
  apply_then platform rfc3339nano ErrorText ssh fam_order range_map json ListTable BuildErrorf env tm ended req (Some (priorProfiles a)) k
    (notifyProfilesChanged onProfilesChanged (set_api_store a d)) = Some (Some (ans, a')) ->
  policy_ok a -> table_ok d -> db_snapshots d = db_snapshots (store_of a) ->
  (forall res err b, db_profiles (store_of (snd (k res err b))) = db_profiles (store_of b) /\
    db_snapshots (store_of (snd (k res err b))) = db_snapshots (store_of b)) -> policy_ok a'.
Proof.
  intros H [Ha Hs] Hd Ed Hk. eapply applied_ok; [exact H| |intros l [= <-]; by apply prior_good|done].
  split; [done|]. unfold snapshots_all in *. change (store_of (notifyProfilesChanged _ _)) with d. by rewrite Ed.
Qed.

Lemma partly_store resp res err (b : Api S M D) : db_profiles (store_of (snd (partly ErrorText resp res err b))) = db_profiles (store_of b) /\
  db_snapshots (store_of (snd (partly ErrorText resp res err b))) = db_snapshots (store_of b).
Proof. by destruct err. Qed.

Lemma or_bad_request_store res err (b : Api S M D) : db_profiles (store_of (snd (or_bad_request res err b))) = db_profiles (store_of b) /\
  db_snapshots (store_of (snd (or_bad_request res err b))) = db_snapshots (store_of b).
Proof. by destruct err. Qed.

Lemma save_request_ok body stamp dry yes known ended a ans a' :
  handleProfileSave platform rfc3339nano ErrorText ssh fam_order range_map json ListTable BuildErrorf env tm false onProfilesChanged body stamp dry yes known ended a
    = Some (Some (ans, a')) -> policy_ok a -> policy_ok a'.
Proof.
  intros H Ha. revert H. unfold handleProfileSave, mutationEnabled, reply. destruct body as [e|p]; [by intros [= _ <-]|].
  destruct (HasErrors _) eqn:Ev; [by intros [= _ <-]|]. fold (saved p stamp). destruct (name_taken _ _); [by intros [= _ <-]|].
  destruct (isTrue dry); [by intros [-> _]%preview_same|].
  assert (good platform (saved p stamp)) as Hg. { unfold Platform in Ev. rewrite Hplatform in Ev. by eapply saved_good. }
  pose proof (UpsertProfile_ok _ _ Hg (proj1 Ha)) as Hd. pose proof (UpsertProfile_snapshots (saved p stamp) (store_of a)) as Ed.
  destruct (UpsertProfile (saved p stamp) (store_of a)) as [[e|] d]; cbn [snd] in Hd, Ed.
  - intros [= _ <-]. split; [done|]. destruct Ha as [_ Ha]. unfold snapshots_all in *. change (store_of (set_api_store a d)) with d. by rewrite Ed.
  - intros H. eapply stored_then_applied; [exact H|done|done|done|]. intros. apply partly_store.
Qed.

Lemma toggle_ok enable name applyq ended a ans a' :
  handleProfileToggle platform rfc3339nano ErrorText ssh fam_order range_map json ListTable BuildErrorf env tm false onProfilesChanged enable name applyq ended a
    = Some (Some (ans, a')) -> policy_ok a -> policy_ok a'.
Proof.
  intros H Ha. revert H. unfold handleProfileToggle, mutationEnabled, reply.
  assert (table_ok (snd (SetProfileEnabled name enable (store_of a))) /\ db_snapshots (snd (SetProfileEnabled name enable (store_of a))) = db_snapshots (store_of a)) as [Hd Ed].
  { unfold SetProfileEnabled. destruct (GetProfile name (store_of a)) as [e|p] eqn:Eg; [by split; [apply Ha|]|]. split; [|apply UpsertProfile_snapshots].
    apply UpsertProfile_ok; [|apply Ha]. apply good_enabled. destruct Ha as [(ps & [Hp _] & Hg) _]. unfold GetProfile in Eg. rewrite Hp in Eg.
    destruct (List.find _ _) as [r|] eqn:Ef; [|done]. apply List.find_some in Ef as [Hr _]. apply list_elem_of_In, list_elem_of_fmap in Hr as (x & -> & Hx).
    cbn in Eg. injection Eg as <-. rewrite Forall_forall in Hg. by apply Hg. }
  destruct (SetProfileEnabled name enable (store_of a)) as [[e|] d]; cbn [snd] in Hd, Ed.
  - intros [= _ <-]. split; [done|]. destruct Ha as [_ Ha]. unfold snapshots_all in *. change (store_of (set_api_store a d)) with d. by rewrite Ed.
  - case_if.
    + intros [= _ <-]. split; [done|]. destruct Ha as [_ Ha]. unfold snapshots_all in *. change (store_of (notifyProfilesChanged _ _)) with d. by rewrite Ed.
    + intros H. eapply stored_then_applied; [exact H|done|done|done|]. intros. apply or_bad_request_store.
Qed.

Lemma restore_request_ok id yes ended a ans a' :
  handleSnapshotRestore platform rfc3339nano ErrorText ssh fam_order range_map json ListTable BuildErrorf env tm false onProfilesChanged id yes ended a
    = Some (Some (ans, a')) -> policy_ok a -> policy_ok a'.
Proof.
  intros H Ha. revert H. unfold handleSnapshotRestore, mutationEnabled, reply. destruct (GetSnapshot id (store_of a)) as [e|snap] eqn:Eg; [by intros [= _ <-]|].
  destruct (sn_Profiles snap) as [profiles|] eqn:Ep; [|by intros [= _ <-]]. case_if; [by intros [= _ <-]|].
  assert (Forall (good platform) profiles) as Hg.
  { destruct Ha as [_ Ha]. unfold GetSnapshot in Eg. destruct (List.find _ _) as [r|] eqn:Ef; [|done]. apply List.find_some in Ef as [Hr _].
    destruct (sw_doc r) as [s|t] eqn:Ed; [|done]. cbn in Eg. injection Eg as ->. eapply Ha; [by apply list_elem_of_In|done|done]. }
  destruct (restore_ok (priorProfiles a) profiles (store_of a) Hg (proj1 Ha)) as [Hd Ed].
  intros H. eapply stored_then_applied; [exact H|done|done|done|]. intros. apply partly_store.
Qed.

Lemma persist_ok cfg d : Forall (good platform) (fst (ToDomain cfg)) -> table_ok d -> table_ok (persist_config cfg d) /\ db_snapshots (persist_config cfg d) = db_snapshots d.
Proof.
  intros Hg Hd. destruct (upsert_all_ok _ d Hg Hd) as [H1 H2]. split; [by eapply table_ok_profiles; [apply (proj1 (persist_tables cfg d))|]|].
  rewrite <- H2. unfold persist_config. destruct (ToDomain cfg) as [ps ls]. cbn [fst].
  assert (forall ls d, db_snapshots (upsert_lists ls d) = db_snapshots d) as Hl. { clear. induction ls as [|l ls IH]; intros d; [done|]. cbn. by rewrite IH. }
  assert (forall p d, db_snapshots (snd (SavePreferencesPatch p d)) = db_snapshots d) as Hp.
  { clear. intros [[u|] [t|]] d; unfold SavePreferencesPatch; cbn [pp_Updates pp_Telemetry]; repeat case_if; done. }
  case_if; [by rewrite Hp|done].
Qed.

Lemma config_ok parsed explicit encode dry yes ended a ans a' :
  handleConfig platform rfc3339nano ErrorText ssh fam_order range_map json ListTable BuildErrorf env tm false onProfilesChanged parsed explicit encode dry yes ended a
    = Some (Some (ans, a')) -> (forall cfg issues, parsed = inr (Some cfg, issues) -> HasErrors issues = false -> Forall (good platform) (fst (ToDomain cfg))) ->
  policy_ok a -> policy_ok a'.
Proof.
  intros H Hp Ha. revert H. unfold handleConfig, mutationEnabled, reply. destruct parsed as [e|[[cfg|] issues]]; [by intros [= _ <-]| |].
  2: { case_if; [by intros [= _ <-]|done]. }
  destruct (HasErrors issues) eqn:Ei; [by intros [= _ <-]|]. specialize (Hp cfg issues eq_refl Ei). destruct (persist_ok cfg (store_of a) Hp (proj1 Ha)) as [Hd Ed].
  destruct (ToDomain cfg) as [profiles ls]. destruct (isTrue dry); [by intros [-> _]%preview_same|].
  intros H. eapply stored_then_applied; [exact H|done|done|done|]. intros res [e|] b; [done|]. cbn [partly]. destruct (explicit || _); [|done].
  unfold applySplitDNS. cbn [a_splitDNS set_api_store set_api_proto]. destruct (a_splitDNS b) as [m|]; [|done]. by destruct (if bool_decide _ then _ else _).
Qed.

Lemma request_ok h a ans a' : request h -> h a = Some (Some (ans, a')) -> policy_ok a -> policy_ok a'.
Proof.
  intros Hr H Ha. destruct Hr.
  - revert H. unfold handleApply, mutationEnabled. intros H. eapply applied_ok; [exact H|done|done|]. intros. apply or_bad_request_store.
  - revert H. unfold handlePlan, mutationEnabled, reply. destruct (DesiredManaged _ _ _ _ _) as [[e|[desired rules]] gw]; [by intros [= _ <-]|].
    destruct (Plan_preview _ _ _ _) as [[plan diff]|]; [|done]. by intros [= _ <-].
  - revert H. unfold handleConfirm, settle_request, mutationEnabled, reply. destruct req as [e|id]; [by intros [= _ <-]|]. unfold Confirm, settle_by.
    destruct (tx _ id); [|destruct (p_resolved _ !! id)]; intros [= _ <-]; (eapply kept_ok; [|exact Ha]); cbn [a_proto set_api_proto]; by rewrite ?settle_kept.
  - revert H. unfold handleRollback, settle_request, mutationEnabled, reply. destruct req as [e|id]; [by intros [= _ <-]|]. unfold Rollback, settle_by.
    destruct (tx _ id); [|destruct (p_resolved _ !! id)]; intros [= _ <-]; (eapply kept_ok; [|exact Ha]); cbn [a_proto set_api_proto]; by rewrite ?settle_kept.
  - revert H. unfold handlePanic_begin, disableKillSwitch. cbn [srv_killSwitch ks_server]. destruct (srv_killSwitch (a_ks a)) as [m|].
    + destruct (ks_Disable m) as [err m']. unfold reply. intros [= _ <-]. eapply ok_same; [| |exact Ha]; pose proof (Hbefore (panic_begin (a_proto (set_ks a (set_manager (persistKillSwitch false (set_ksWant (ks_server a) false)) m'))))) as [= _ E1 _ E2]; [exact E1|exact E2].
    + unfold reply. intros [= _ <-]. eapply ok_same; [| |exact Ha]; pose proof (Hbefore (panic_begin (a_proto (set_ks a (ks_server a))))) as [= _ E1 _ E2]; [exact E1|exact E2].
  - revert H. unfold handlePanic_flush, reply. case_if; [done|].
    pose proof (panic_flush_kept rfc3339nano ErrorText ActorUI (Some (forget_record json)) (a_proto a)) as E.
    destruct (panic_flush _ _ _ _ _) as [perr q]. cbn [snd] in E. destruct perr, ksErr; intros [= _ <-]; (eapply kept_ok; [exact E|exact Ha]).
  - by eapply toggle_ok.
  - by eapply save_request_ok.
  - revert H. unfold handleProfileDelete, mutationEnabled. intros H. eapply stored_then_applied; [exact H|done|by apply DeleteProfile_ok, Ha|done|]. intros. apply partly_store.
  - revert H. unfold handleRouteOp, mutationEnabled, reply. destruct body as [e|req]; [by intros [= _ <-]|]. case_if; [by intros [= _ <-]|].
    destruct (ParsePrefix _) as [pfx|]; [|by intros [= _ <-]]. case_if; [by intros [= _ <-]|]. destruct (owned_clash _ _); [by intros [= _ <-]|].
    destruct (routeop_plan _ _ _ _) as [[[code b]|plan]|]; [by intros [= _ <-]| |done].
    destruct (ApplyPlan _ _ _ _ _ _ _ _) as [[[[res err] q]|]|] eqn:E; [|done|done]. apply ApplyPlan_settles in E. cbn. intros [= _ <-].
    eapply ok_settles; [exact Ha|exact E|done].
  - by eapply config_ok.
  - eapply config_ok; [exact H| |done]. intros cfg issues [= E] Hi. by eapply parsed_good.
  - revert H. unfold handleListRefresh, mutationEnabled, reply. pose proof (on_service_tables (RefreshList fetch name) a (RefreshList_tables fetch name)) as [E1 E2].
    destruct (on_service _ _ _) as [[e|l] b]; intros [= _ <-]; by eapply ok_same.
  - revert H. unfold handleListRefreshAll, mutationEnabled, reply. pose proof (on_service_tables (RefreshAllLists fetch) a (RefreshAll_tables fetch)) as [E1 E2].
    destruct (on_service _ _ _) as [[e|l] b]; intros [= _ <-]; by eapply ok_same.
  - revert H. unfold handleListSave, mutationEnabled, reply. destruct body as [e|l]; [by intros [= _ <-]|]. case_if; [by intros [= _ <-]|].
    set (l' := cached _ _). set (b := set_api_store a _). assert (policy_ok b) as Hb by (by eapply ok_same; [..|exact Ha]). case_if; [|by intros [= _ <-]].
    pose proof (on_service_tables (RefreshList fetch (nl_Name l')) b (RefreshList_tables fetch (nl_Name l'))) as [E1 E2].
    destruct (on_service _ _ _) as [[e|l''] c]; intros [= _ <-]; by eapply ok_same.
  - revert H. unfold handleListDelete, mutationEnabled, reply. destruct (List.find _ _); intros [= _ <-]; [done|]. by eapply ok_same; [..|exact Ha].
  - revert H. unfold handleSplitDNSSet, mutationEnabled, reply. destruct body as [e|routes]; [by intros [= _ <-]|]. case_if; [by intros [= _ <-]|].
    unfold applySplitDNS. cbn [a_splitDNS set_api_store set_api_proto]. destruct (a_splitDNS a) as [m|]; [|intros [= _ <-]; by eapply ok_same; [..|exact Ha]].
    destruct (if bool_decide _ then _ else _) as [[e|] m']; intros [= _ <-]; by eapply ok_same; [..|exact Ha].
  - revert H. unfold handleAutoApply, reply. destruct (a_autoApply a); [|by intros [= _ <-]]. destruct body as [e|on]; [by intros [= _ <-]|]. intros [= _ <-]. by eapply ok_same; [..|exact Ha].
  - revert H. unfold handlePreferencesSet, reply. destruct body as [e|patch]; [by intros [= _ <-]|]. destruct (applyPreferencesPatch _ _) as [e|pr]; [by intros [= _ <-]|].
    destruct (SavePreferencesPatch patch (store_of a)) as [err d] eqn:E. pose proof (SavePreferencesPatch_tables patch (store_of a)) as [E1 _]. rewrite E in E1.
    assert (db_snapshots d = db_snapshots (store_of a)) as E2.
    { change d with (snd (err, d)). rewrite <- E. destruct patch as [[u|] [t|]]; unfold SavePreferencesPatch; cbn [pp_Updates pp_Telemetry]; repeat case_if; done. }
    destruct err; intros [= _ <-]; by eapply ok_same; [..|exact Ha].
  - by eapply restore_request_ok.
Qed.

Lemma networkInput_platform (s : Service S) tuns owned : in_Platform (networkInput range_map json ListTable s tuns owned) = Platform s.
Proof.
  unfold networkInput. destruct (match DefaultGateway FamilyV4 _ with inl _ => _ | inr _ => _ end), (match DefaultGateway FamilyV6 _ with inl _ => _ | inr _ => _ end).
  cbv zeta. destruct (tailscale ListTable s _) as [st|], ListTable as [f|]; by destruct tuns.
Qed.

(** C8: whatever requests come, what is stored builds: after any sequence of requests
    of the API, each ending in whatever way it may, and of changes to what is not
    policy between them, the profile table holds profiles with distinct ids and
    names, every one of them and of those in the snapshots passes the checks, and
    building the desired set from them fails, if at all, for a reason of the
    host (no policy routing, no tunnel, no gateway of its own) or because one of
    them names a gateway of another family than a destination of its own, which
    no check looks for. *)
Theorem requests_keep_policy a a' : rtc api_step a a' -> policy_ok a ->
  policy_ok a' /\
  forall (s : Service S) e, fst (DesiredFromProfiles fam_order range_map json ListTable s (priorProfiles a')) = inl e ->
    environmental e \/ mismatched (profileInput fam_order range_map json ListTable s (priorProfiles a')) e.
Proof.
  intros Hr Ha. assert (policy_ok a') as H.
  { induction Hr as [|x y z Hs _ IH]; [done|]. apply IH. destruct Hs as [h x ans y Hh E|x y E1 E2]; [by eapply request_ok|by eapply ok_same]. }
  split; [done|]. intros s e He. eapply (accepted_profiles_build fam_order (profileInput fam_order range_map json ListTable s (priorProfiles a')) None); [|exact He].
  pose proof (prior_good a' (proj1 H)) as Hg. unfold profileInput. cbn [in_Platform in_Profiles set_tunnels with_profile_side].
  rewrite networkInput_platform. unfold Platform. rewrite Hplatform. exact Hg.
Qed.
End requests.

(** ** Witness: a save on a host whose platform is fixed *)

Definition ex_base_api : Api Base FakeKS FakeSplitDNS := mkApi (NewProtocol mkBase ex_db 0) (mkServer mkBase None None false no_config 0 0) None (Some false).

Definition ex_base_save : Api Base FakeKS FakeSplitDNS -> handled (S := Base) (M := FakeKS) (D := FakeSplitDNS) :=
  handleProfileSave "unsupported" ex_time (fun _ => "") "" [FamilyV4; FamilyV6] map_to_list ex_json None ex_build_error ex_quiet_env None false (fun _ d => d)
    (inr (ex_named "" "Work")) "1a" "" "1" None None.

Lemma requests_keep_policy_witness :
  match ex_base_save ex_base_api with
  | Some (Some (ans, a')) => fst ans = 200 /\ policy_ok "unsupported" a'
  | _ => False
  end.
Proof.
  destruct (ex_base_save ex_base_api) as [[[ans a']|]|] eqn:E; [|vm_compute in E; discriminate E..].
  assert (option_map (option_map (fun o => fst (fst o))) (Some (Some (ans, a'))) = Some (Some 200)) as H by (rewrite <- E; vm_compute; reflexivity).
  injection H as H. split; [exact H|].
  refine (proj1 (requests_keep_policy "unsupported" ex_time (fun _ => "") "" [FamilyV4; FamilyV6] map_to_list ex_json None ex_build_error ex_quiet_env None
    (fun _ d => d) (fun p => p) (fun d => d) (fun _ => None) (fun _ => None) (fun _ => inl (Errorf "" [])) (fun _ => inl (Errorf "" [], 0)) (fun _ => inl (Errorf "" [], 0))
    (fun s => _) (fun p => eq_refl) ex_base_api a' (rtc_once _ _ (step_request _ _ _ _ _ _ _ _ _ _ _ _ _ _ _ _ _ _ _ ex_base_save ex_base_api ans a' _ E)) _)).
  - destruct s. reflexivity.
  - apply (rq_save "unsupported" ex_time (fun _ => "") "" [FamilyV4; FamilyV6] map_to_list ex_json None ex_build_error ex_quiet_env None (fun _ d => d)).
  - split.
    + exists []. split; [split; [reflexivity|apply ex_distinct; reflexivity]|constructor].
    + intros r s ps Hr. apply elem_of_nil in Hr. destruct Hr.
Defined.
